(* ===== verification/_CoqProject ===== *)
-Q . S2P
Prelude.v
ListHead.v
ListFamily.v
Bits.v
Bitmap.v
Pm.v
Sync.v
Early.v
Buddy.v
BuddySpec.v
BuddyCore.v
BuddyProof.v
BuddyTop.v
Sha2.v
Slab.v
SlabProof.v
SlabTop.v
Kalloc.v
KallocProof.v
PmInit.v
CString.v
CStringProof.v
Alloc.v
Hashtable.v
Radix.v
RadixProof.v
Machine.v
Vfs.v
VfsProof.v
Super.v
InodeCache.v
InodeProof.v
DentryCache.v
DentryProof.v
OpenFile.v
FileProof.v
FdTable.v
FdProof.v
Namei.v
NameiProof.v
VfsOps.v
Registry.v
SuperProof.v
Pagetable.v
PagetableProof.v
PagetableTop.v
Vm.v
Lz4.v
Lz4Spec.v
Lz4Proof.v
Proc.v
Vma.v
Sched.v
ProcProof.v
SchedProof.v
VmaProof.v
VmaTop.v
Blk.v
BlkProof.v
Bcache.v
BcacheProof.v
BcacheTop.v
Virtio.v
Virtq.v
VirtqProof.v
VirtqTop.v
VirtioMmio.v
VirtioBlk.v
VirtioDisk.v
Plic.v
Trap.v
TrapProof.v
Printf.v
PrintfSpec.v
PrintfProof.v
PrintfTop.v
PrintfMain.v
PrintfSafe.v
Errno.v
Atomic.v
