(* ===== verification/Prelude.v ===== *)
(** * Verification library of the NoobKernel RISC-V kernel

    NoobKernel is a small RISC-V (Sv39) kernel in C.  This library translates
    the logic of its components under [src/src] and [src/include] into Rocq and
    proves what each of them promises.

    ** How the model is built

    - Integers are [Z]; a conversion to an unsigned type of [w] bits is
      [wrap w] ([u8], [u16], [u32], [u64]), to a signed one [swrap w].
    - An operation is a function [ST S A] from the state of its component to an
      [outcome]: a result with the new state, [Panic] (a call of [panic] or a
      failed [assert]), [Fault] (an access C does not define: a null or dangling
      pointer, an index outside an array) or [NoFuel] (the iteration bound of a
      loop ran out).  [wp False m Q s] is total correctness: [m] returns, with
      [Q]; it neither panics, faults nor runs out of fuel.
    - An object is found by its address in one finite map per structure.  The
      links of a [struct list_head] are two finite maps from the addresses of
      nodes to addresses (file [ListHead]); where a component only relies on the
      order of a list, the list is a sequence of nodes (module [AList] of
      [Buddy]), and the simulation theorem of [ListHead] justifies it.
    - Locks are the debug spin locks of [sync/spinlock.c]: taking a lock twice
      or releasing one that is not held panics.  Operations run on one hart with
      its interrupt nesting; the interleaving of harts is treated once, for the
      lock itself, in [Sync].
    - Code that is not in the repository is a parameter: the callbacks of a file
      system (class [FsCode] of [Vfs]) and, for a component that allocates, the
      allocator below it (classes with a stated contract, [KAlloc] of [Alloc],
      [MetaAlloc] of [Early], [BlobAlloc] of [Slab]); the contracts are met by instances
      proved here ([bump], [early], the buddy allocator itself).
    - Loops whose bound is not an explicit counter run on fuel that is computed
      from the state (the size of the memory, of the list store, the length of
      the path); every property states that the result is produced, so the fuel
      is enough.

    ** The parts, in the order of the files

    - [Prelude]: widths, alignment macros ([misc/stddef.h]), the constants of
      [config.h], error numbers and error pointers ([misc/errno.h]), the outcome
      monad and its rules.
    - [ListHead] ([misc/list.h]): the circular lists at pointer level.
      [list_ops_simulation]: sequences of insertions and deletions implement the
      operations on the abstract list.
    - [Bits] ([misc/math.h], [misc/bit.h], [misc/endian.h]) and [Bitmap]
      ([misc/bitmap.h]): single-bit operations and searches; a search that
      starts inside a byte is wrong ([bitmap_find_next_unaligned]).
    - [Pm] ([mm/pm.c], [mm/layout.h]): the table of page descriptors and the
      conversion between pages and addresses.
    - [Sync] ([sync/spinlock.c], [trap/trap.c]): one hart's nesting of critical
      sections, and the step relation of all harts with mutual exclusion by rule
      induction over reachable states.
    - [Early] ([mm/early.c]): the bump heap used before the allocators exist.
    - [Buddy] to [BuddyTop] ([mm/buddy.c]): the buddy allocator.  [BuddySpec]
      describes the free memory as a set of pages and the representation
      invariant (each free block on the list of its order, aligned, disjoint,
      recorded in its page); [BuddyCore] and [BuddyProof] prove merging and
      splitting; [BuddyTop] proves allocation, release and initialisation.
    - [Slab] to [SlabTop] ([mm/slab.c]): object caches on top of the buddy
      allocator.  The invariant ties the bitmap, the counters and the three lists of
      slabs to the set of free objects.
    - [Kalloc], [KallocProof] ([mm/kalloc.c]): the size classes and the kernel
      heap, composing the slab and buddy theorems.
    - [PmInit] ([pm_init] and the rest of [mm/pm.c]): the boot of memory
      management.  [pm_init_correct] composes the initialisations of [Pm],
      [Early], [Buddy], [Slab] and [Kalloc]; it never panics, since a request of a
      slab splits at most seven blocks ([split_cost] of [BuddyProof]), and it
      ends in the invariant from which the theorems on [kmalloc] start.
    - [CString], [CStringProof] ([misc/string.c]): memory and string functions on
      a byte-addressed memory, against functions on lists of bytes.
    - [Sha2] ([misc/sha2.c]): the compression functions, one-shot and streaming
      hashing against the padded definition, test vectors.
    - [Alloc]: the interface of the kernel heap that its clients use, with the
      notion of a private allocation frame.
    - [Hashtable] ([misc/hashtable.c]) and [Radix], [RadixProof]
      ([misc/radix_tree.c]): both refine finite maps.
    - [Vfs], [VfsProof] ([fs/*.h]): the structures and shared state of the file
      system layer with the lemmas on locks, lists and objects.
    - [Super], [SuperProof] ([fs/super.c]); [InodeCache], [InodeProof]
      ([fs/inode.c]); [DentryCache], [DentryProof] ([fs/dentry.c]); [OpenFile],
      [FileProof] ([fs/file.c]); [FdTable], [FdProof] ([fs/fd_table.c]);
      [Namei], [NameiProof] ([fs/namei.c]); [VfsOps], [Registry] ([fs/vfs.c]).
      Superblocks, open files, descriptor tables and the registry of file system
      types refine small abstract machines; path resolution equals recursion over
      the components of the path.
    - [Lz4], [Lz4Spec], [Lz4Proof] ([misc/lz4.c]): both directions on the memory
      of [CString].  [Lz4Spec] gives the format as sequences of literals and
      matches; compression writes such a sequence, decompression reads it, and
      on malformed input stays inside its buffers.
    - [Pagetable], [PagetableProof], [PagetableTop] ([mm/pagetable.c], [va2pa]):
      the three-level tables represent a finite map from virtual pages to entries,
      and every table is reachable by one path; [Vm] ([mm/vm.c]): the kernel
      address space built from them.
    - [Machine] (what the components above the allocators share: a hart, its locks
      and the store of list heads, as a class) and [ListFamily] (the rules of
      [misc/list.h] for several lists in one store).
    - [Proc], [Vma], [Sched], [ProcProof], [SchedProof] ([task/proc.c],
      [mm/vma.c], [task/sched.c], [task/kthread.c], [task/switch.S]): processes,
      their memory areas, the run queue and kernel threads on one hart.
      [VmaProof] and [VmaTop] relate the sorted list of areas, with the page table
      behind it, to a set of disjoint areas and a map of pages.  A run is
      a sequence of events, each what the running thread does next (yield, exit,
      create a thread); [SchedProof] shows that every such run implements a round
      robin over the live threads, and bounds how long a runnable thread waits.
    - [Blk], [BlkProof] ([hal/blk.c]): the registry of block devices over the
      drivers of the class [BlkCode]; [BlkDriver] is what a driver owes its
      clients.  [Bcache], [BcacheProof], [BcacheTop] ([mm/bcache.c]): the buffer
      cache, which clients cannot tell from direct access to the disk.
    - [Virtio], [Virtq], [VirtqProof], [VirtqTop] ([hal/virtio.h],
      [hal/virtio/virtq.c]): a virtqueue in memory shared with a device.  Driver
      and device act in any order; [virtq_refines] relates every interleaving to a
      queue of requests.  [VirtioMmio], [VirtioBlk] ([hal/virtio/virtio_mmio.c],
      [hal/virtio/virtio_blk.c]) are the driver above it, with the device as the
      class [VirtioDevice] and a bound [patience] on the turns a loop waits for it;
      [VirtioDisk] runs the driver on a disk that follows the standard.
    - [Plic] ([hal/plic.c]) and [Trap], [TrapProof] ([trap/trap.c],
      [hal/timer.c]): the trap handler composes scheduler, block driver and
      interrupt controller in one state; [timer_preempts] is about sequences of
      timer interrupts.

    - [Printf] ([misc/printf.c]): the formatter, with the four output functions as
      a type; [PrintfSpec] gives formats as directives with a concrete syntax and
      a text, without any scanning.  [PrintfProof] is about numbers; [PrintfTop]
      is about the scanner on the concrete syntax, has the interface [Sink] of an
      output function and proves the conversions and the loop against it; [PrintfMain] has its four instances and the functions of
      [printf.h].  [PrintfSafe] is about formats nobody checked.
    - [Errno] ([misc/errno.c], [errorf] of [misc/log.h]): messages and their
      printing.
    - [Atomic] ([sync/atomic.h]): atomic variables, and [alloc_pid] of
      [task/proc.c] as steps of any number of harts.
    ** What the theorems found

    Where the code does not do what it is meant to, the theorem states what it
    does: the searches above; [kmem_cache_flush_keeps_lock] and
    [flush_then_alloc_faults] (slab flush); [rxtree_split_leaks];
    [inode_truncate_panics]; [dentry_cache_never_hits] and [dentry_lru_loops];
    [file_put_leaks], [file_read_count_wraps]; [fd_alloc_twice];
    [long_name_splits].
    In the memory code: [mappages_out_of_memory], [mappages_count_wraps]
    (page tables) and [lz4_compress_overruns].
    In the buffer cache and the memory areas: [evicts_last_released],
    [bread_ignores_errors], [vma_create_null] and [mapped_area_has_frames].
    In the drivers and the trap handler: [virtio_write_fails],
    [virtio_bounds_wrap], [handle_external_panics] and [yield_window_panics].
    In the formatter and the messages: [lone_percent_reads_on],
    [hhd_prints_unsigned], [left_drops_precision], [binary_loses_digits] and
    [strerror_misses_EADDRINUSE].
    ** Not modelled

    The effect of [tracef], [infof] and the like in the components that call them
    (they only print), the floating point conversions of [misc/printf.c] (compiled
    out), the boot sequence, the assembly of [boot], [task] and [trap] but for the
    context switch, register and firmware access ([hal/riscv.h], [hal/sbi.h]; the
    registers that code depends on are fields of the states), the test routines
    ([kmalloc_test], [virtio_disk_test]).  Null
    path pointers are not modelled (a path is the list of its bytes).  The record of
    a block that the buddy allocator takes from [kmalloc] comes from an abstract
    allocator, so the recursion between the two allocators is cut there.  The
    lists of the file system layer that have static heads are given negative
    addresses. *)

From Stdlib Require Export ZArith Lia.
From stdpp Require Export base tactics numbers gmap option list.

(** Definitions and lemmas of this library are stated over [Z]: every C
    integer is a [Z] together with the explicit reduction of its width. *)
#[global] Open Scope Z_scope.

(** ** Fixed-width integers

    [uN z] is the value a C conversion to the unsigned type of [N] bits
    leaves of [z]; [sN z] is the two's complement reading of the low [N]
    bits (the behaviour of gcc on conversions to a signed type). *)

Definition wrap (w z : Z) : Z := z mod 2 ^ w.

Definition swrap (w z : Z) : Z :=
  let r := z mod 2 ^ w in if r <? 2 ^ (w - 1) then r else r - 2 ^ w.

Abbreviation u8 := (wrap 8).
Abbreviation u16 := (wrap 16).
Abbreviation u32 := (wrap 32).
Abbreviation u64 := (wrap 64).
Abbreviation s32 := (swrap 32).
Abbreviation s64 := (swrap 64).

(** [in_width w z]: [z] is the value of an unsigned [w]-bit object. *)
Definition in_width (w z : Z) : Prop := 0 <= z < 2 ^ w.

#[global] Instance in_width_dec w z : Decision (in_width w z).
Proof. unfold in_width. apply _. Defined.

(** The bits of [x] that are clear in [m]: C's [x & ~m] on operands of the
    same unsigned type. *)
Definition and_not (x m : Z) : Z := Z.ldiff x m.

(** [include/misc/stddef.h]: the alignment macros, at the width of
    [size_t]. *)
Definition ALIGN_UP (x n : Z) : Z := and_not (u64 (x + n - 1)) (u64 (n - 1)).
Definition ALIGN_DOWN (x n : Z) : Z := and_not (u64 x) (u64 (n - 1)).
Definition ALIGNED (x n : Z) : bool := Z.land (u64 x) (u64 (n - 1)) =? 0.

(** ** Constants of [include/config.h] and [include/platform/qemu_virt.h] *)

Definition CPU_NUM : Z := 1.
Definition MEM_SIZE : Z := 128 * 1024 * 1024.
Definition PM_START : Z := 0x80000000.
Definition PAGE_SHIFT : Z := 12.
Definition PAGE_SIZE : Z := Z.shiftl 1 PAGE_SHIFT.
Definition PAGE_NUM : Z := MEM_SIZE / PAGE_SIZE.
Definition PM_END : Z := PM_START + MEM_SIZE.
Definition SLAB_BLOB_SIZE : Z := 16 * PAGE_SIZE.
Definition EARLY_HEAP_SIZE : Z := PAGE_SIZE.
Definition BUDDY_MAX_ORDER : Z := 11.
Definition BUDDY_BLOB_SIZE : Z := Z.shiftl 1 BUDDY_MAX_ORDER * PAGE_SIZE.
Definition PID_MIN : Z := 2.
Definition PID_MAX : Z := 0x7fffffff.
Definition BLOCK_SIZE : Z := 512.
Definition BCACHE_SIZE : Z := 128.
Definition BCACHE_HASH_SIZE : Z := 17.
Definition VIRTQ_SIZE : Z := 32.

Definition NULL : Z := 0.

(** ** Error numbers of [include/misc/errno.h] *)

Definition OK : Z := 0.
Definition ENOENT : Z := 2.
Definition EBADF : Z := 9.
Definition ENOMEM : Z := 12.
Definition EACCES : Z := 13.
Definition EEXIST : Z := 17.
Definition ENOTDIR : Z := 20.
Definition EISDIR : Z := 21.
Definition EINVAL : Z := 22.
Definition EMFILE : Z := 24.
Definition ERANGE : Z := 34.
Definition ENOSYS : Z := 38.
Definition EADDRINUSE : Z := 98.
Definition MAX_ERRNO : Z := 4095.

(** An error returned through a pointer: [PTR(err)] is the 64-bit pattern
    of the negative number, [IS_ERR] recognises the last page of the address
    space, [PTR_ERR] reads the number back. *)
Definition PTR (err : Z) : Z := u64 err.
Definition IS_ERR (p : Z) : bool := u64 (- MAX_ERRNO) <=? p.
Definition PTR_ERR (p : Z) : Z := s64 p.

(** ** Outcomes and the state monad

    Every operation of the kernel that touches memory is a function from the
    state of its component to an [outcome].  [Panic] is a call of [panic] or
    a failed [assert] (the machine is shut down); [Fault] is an access the C
    program has no right to make (a null or dangling pointer, an index
    outside its array); [NoFuel] marks a loop whose iteration bound ran out,
    and the termination theorems show it is never returned. *)

Inductive outcome (A : Type) : Type :=
  | Ok (a : A)
  | Panic
  | Fault
  | NoFuel.
Arguments Ok {A} a.
Arguments Panic {A}.
Arguments Fault {A}.
Arguments NoFuel {A}.

Definition ST (S A : Type) : Type := S -> outcome (A * S).

Definition ret {S A} (a : A) : ST S A := fun s => Ok (a, s).

Definition bind {S A B} (m : ST S A) (k : A -> ST S B) : ST S B :=
  fun s =>
    match m s with
    | Ok (a, s') => k a s'
    | Panic => Panic
    | Fault => Fault
    | NoFuel => NoFuel
    end.

Definition panic {S A} : ST S A := fun _ => Panic.
Definition fault {S A} : ST S A := fun _ => Fault.
Definition no_fuel {S A} : ST S A := fun _ => NoFuel.

Definition get {S} : ST S S := fun s => Ok (s, s).
Definition gets {S A} (f : S -> A) : ST S A := fun s => Ok (f s, s).
Definition modify {S} (f : S -> S) : ST S unit := fun s => Ok (tt, f s).

(** Read through a partial accessor: a [None] is an invalid access. *)
Definition load {S A} (f : S -> option A) : ST S A :=
  fun s => match f s with Some a => Ok (a, s) | None => Fault end.

(** Write through a partial updater. *)
Definition store {S} (f : S -> option S) : ST S unit :=
  fun s => match f s with Some s' => Ok (tt, s') | None => Fault end.

(** Run an operation of a part [T] of the state inside the whole [S]. *)
Definition lift {S T A} (proj : S -> T) (inj : T -> S -> S) (m : ST T A)
  : ST S A :=
  fun s =>
    match m (proj s) with
    | Ok (a, t) => Ok (a, inj t s)
    | Panic => Panic
    | Fault => Fault
    | NoFuel => NoFuel
    end.

(** [wp E m Q s]: [m] run in [s] ends in a result that satisfies [Q], or in a
    panic, which [E] must justify; it neither faults nor runs out of fuel.
    [wp False m Q s] is total correctness without panic. *)
Definition wp {S A} (E : Prop) (m : ST S A) (Q : A -> S -> Prop) (s : S) : Prop :=
  match m s with
  | Ok (a, s') => Q a s'
  | Panic => E
  | Fault => False
  | NoFuel => False
  end.
#[global] Arguments wp : simpl never.
#[global] Arguments bind : simpl never.

Declare Scope kernel_scope.
Delimit Scope kernel_scope with kernel.

Notation "'let!' x := m 'in' k" := (bind m (fun x => k))
  (at level 10, x name, m at level 100, k at level 200,
   format "'[v' 'let!'  x  :=  m  'in' '/' k ']'") : kernel_scope.
Notation "'let!' ' p := m 'in' k" := (bind m (fun x => match x with p => k end))
  (at level 10, p pattern, m at level 100, k at level 200) : kernel_scope.
Notation "'do!' m 'in' k" := (bind m (fun _ => k))
  (at level 10, m at level 100, k at level 200,
   format "'[v' 'do!'  m  'in' '/' k ']'") : kernel_scope.
#[global] Open Scope kernel_scope.

(** [for (i = 0; i < n; i++) body(i)], the state carrying the effects. *)
Fixpoint for_up {S} (n : nat) (i : Z) (body : Z -> ST S unit) : ST S unit :=
  match n with
  | O => ret tt
  | Datatypes.S n' => do! body i in for_up n' (i + 1) body
  end.

(** ** Lemmas on widths *)

Lemma pow2_pos w : 0 <= w -> 0 < 2 ^ w.
Proof. intros. apply Z.pow_pos_nonneg; lia. Qed.

Lemma wrap_range w z : 0 <= w -> 0 <= wrap w z < 2 ^ w.
Proof. intros. apply Z.mod_pos_bound. by apply pow2_pos. Qed.

Lemma wrap_small w z : in_width w z -> wrap w z = z.
Proof. apply Z.mod_small. Qed.

Lemma wrap_idem w z : 0 <= w -> wrap w (wrap w z) = wrap w z.
Proof. intros. apply wrap_small, wrap_range; done. Qed.

Lemma wrap_land w z : 0 <= w -> wrap w z = Z.land z (Z.ones w).
Proof. intros. by rewrite Z.land_ones. Qed.

Lemma swrap_small w z : 0 < w -> - 2 ^ (w - 1) <= z < 2 ^ (w - 1) -> swrap w z = z.
Proof.
  intros Hw Hz. unfold swrap.
  assert (2 ^ w = 2 * 2 ^ (w - 1)) as Hp.
  { rewrite <- Z.pow_succ_r by lia. f_equal. lia. }
  rewrite Hp. destruct (Z_lt_le_dec z 0).
  - replace (z mod (2 * 2 ^ (w - 1))) with (z + 2 * 2 ^ (w - 1)).
    2: { apply Z.mod_unique with (-1); lia. }
    destruct (Z.ltb_spec (z + 2 * 2 ^ (w - 1)) (2 ^ (w - 1))); lia.
  - rewrite Z.mod_small by lia.
    destruct (Z.ltb_spec z (2 ^ (w - 1))); lia.
Qed.

Lemma PTR_ERR_PTR e : - MAX_ERRNO <= e < 0 -> PTR_ERR (PTR e) = e.
Proof.
  unfold PTR_ERR, PTR, wrap, swrap, MAX_ERRNO. intros.
  rewrite Z.mod_mod by lia. change (2 ^ (64 - 1)) with 9223372036854775808.
  change (2 ^ 64) with 18446744073709551616.
  replace (e mod 18446744073709551616) with (e + 18446744073709551616).
  2: { apply Z.mod_unique with (-1); lia. }
  destruct (Z.ltb_spec (e + 18446744073709551616) 9223372036854775808); lia.
Qed.

Lemma IS_ERR_PTR e : - MAX_ERRNO <= e < 0 -> IS_ERR (PTR e) = true.
Proof.
  unfold IS_ERR, PTR, wrap, MAX_ERRNO. intros. apply Z.leb_le.
  change (2 ^ 64) with 18446744073709551616.
  rewrite <- (Z.mod_unique (- (4095)) 18446744073709551616 (-1)
    (18446744073709551616 - 4095)) by lia.
  rewrite <- (Z.mod_unique e 18446744073709551616 (-1)
    (e + 18446744073709551616)) by lia. lia.
Qed.

(** ** Lemmas on alignment *)

Lemma ldiff_land a m : Z.ldiff a m = a - Z.land a m.
Proof.
  assert (a = Z.ldiff a m + Z.land a m) as H; [|lia].
  rewrite Z.add_nocarry_lxor.
  - apply Z.bits_inj'. intros i Hi.
    rewrite Z.lxor_spec, Z.ldiff_spec, Z.land_spec.
    by destruct (Z.testbit a i), (Z.testbit m i).
  - apply Z.bits_inj'. intros i Hi.
    rewrite Z.land_spec, Z.ldiff_spec, Z.land_spec, Z.bits_0.
    by destruct (Z.testbit a i), (Z.testbit m i).
Qed.

Lemma land_upper a m : 0 <= m -> Z.land a m <= m.
Proof.
  intros Hm. pose proof (ldiff_land m a) as H.
  assert (0 <= Z.ldiff m a) by (apply Z.ldiff_nonneg; lia).
  rewrite (Z.land_comm m a) in H. lia.
Qed.

Lemma land_nonneg a m : 0 <= m -> 0 <= Z.land a m.
Proof. intros. apply Z.land_nonneg. by right. Qed.

Lemma ldiff_pow2 x k : 0 <= k -> Z.ldiff x (2 ^ k - 1) = x - x mod 2 ^ k.
Proof.
  intros. rewrite ldiff_land.
  replace (2 ^ k - 1) with (Z.ones k) by (rewrite Z.ones_equiv; lia).
  by rewrite Z.land_ones.
Qed.

Lemma land_pow2 x k : 0 <= k -> Z.land x (2 ^ k - 1) = x mod 2 ^ k.
Proof.
  intros. replace (2 ^ k - 1) with (Z.ones k) by (rewrite Z.ones_equiv; lia).
  by rewrite Z.land_ones.
Qed.

(** Rounding up never moves below the argument and moves by less than the
    alignment, whatever the alignment is (it need not be a power of two). *)
Lemma ALIGN_UP_bounds x n :
  1 <= n -> 0 <= x -> x + n - 1 < 2 ^ 64 -> x <= ALIGN_UP x n <= x + n - 1.
Proof.
  intros. unfold ALIGN_UP, and_not.
  rewrite !wrap_small by (unfold in_width; lia). rewrite ldiff_land.
  pose proof (land_upper (x + n - 1) (n - 1)).
  pose proof (land_nonneg (x + n - 1) (n - 1)). lia.
Qed.

Lemma ALIGN_DOWN_pow2 x k :
  0 <= k <= 64 -> in_width 64 x -> ALIGN_DOWN x (2 ^ k) = x - x mod 2 ^ k.
Proof.
  intros Hk Hx. unfold ALIGN_DOWN, and_not.
  assert (2 ^ k <= 2 ^ 64) by (apply Z.pow_le_mono_r; lia).
  pose proof (pow2_pos k).
  rewrite !wrap_small by (unfold in_width in *; lia). apply ldiff_pow2; lia.
Qed.

Lemma ALIGN_UP_pow2 x k :
  0 <= k <= 64 -> 0 <= x -> x + 2 ^ k - 1 < 2 ^ 64 ->
  ALIGN_UP x (2 ^ k) = (x + 2 ^ k - 1) - (x + 2 ^ k - 1) mod 2 ^ k.
Proof.
  intros Hk Hx Hb. unfold ALIGN_UP, and_not. pose proof (pow2_pos k).
  rewrite !wrap_small by (unfold in_width; lia). apply ldiff_pow2; lia.
Qed.

Lemma ALIGN_UP_pow2_aligned x k :
  0 <= k <= 64 -> 0 <= x -> x + 2 ^ k - 1 < 2 ^ 64 ->
  ALIGN_UP x (2 ^ k) mod 2 ^ k = 0.
Proof.
  intros. rewrite ALIGN_UP_pow2 by done. pose proof (pow2_pos k).
  rewrite Zminus_mod, Z.mod_mod, Z.sub_diag by lia. apply Z.mod_0_l; lia.
Qed.

Lemma ALIGNED_pow2 x k :
  0 <= k <= 64 -> in_width 64 x -> ALIGNED x (2 ^ k) = true <-> x mod 2 ^ k = 0.
Proof.
  intros Hk Hx. unfold ALIGNED.
  assert (2 ^ k <= 2 ^ 64) by (apply Z.pow_le_mono_r; lia).
  pose proof (pow2_pos k).
  rewrite !wrap_small by (unfold in_width in *; lia).
  rewrite land_pow2, Z.eqb_eq by lia. done.
Qed.

Lemma align8 n : 0 <= n < 2 ^ 63 -> ALIGN_UP n 8 = (n + 7) / 8 * 8.
Proof.
  intros Hn. pose proof (ALIGN_UP_pow2 n 3 ltac:(lia) ltac:(lia) ltac:(lia)) as E.
  change (2 ^ 3) with 8 in E. rewrite E. replace (n + 8 - 1) with (n + 7) by lia.
  pose proof (Z.div_mod (n + 7) 8 ltac:(lia)). lia.
Qed.

(** ** Lemmas on the monad *)

Lemma bind_Ok {S A B} (m : ST S A) (k : A -> ST S B) s a s' :
  m s = Ok (a, s') -> bind m k s = k a s'.
Proof. unfold bind. by intros ->. Qed.

Lemma bind_inv {S A B} (m : ST S A) (k : A -> ST S B) s b s'' :
  bind m k s = Ok (b, s'') -> exists a s', m s = Ok (a, s') /\ k a s' = Ok (b, s'').
Proof. unfold bind. destruct (m s) as [[a s']| | |]; naive_solver. Qed.

Lemma bind_ext {S A B} (m : ST S A) (k k' : A -> ST S B) s :
  (forall a s', k a s' = k' a s') -> bind m k s = bind m k' s.
Proof. intros Hk. unfold bind. by destruct (m s) as [[]| | |]. Qed.

Lemma bind_assoc {S A B C} (m : ST S A) (k : A -> ST S B) (l : B -> ST S C) s :
  bind (bind m k) l s = bind m (fun x => bind (k x) l) s.
Proof. unfold bind. by destruct (m s) as [[]| | |]. Qed.

Lemma for_up_inv {S} (P : Z -> S -> Prop) body n :
  forall i s s',
  (forall j t t', i <= j < i + Z.of_nat n -> P j t -> body j t = Ok (tt, t') ->
    P (j + 1) t') ->
  P i s -> for_up n i body s = Ok (tt, s') -> P (i + Z.of_nat n) s'.
Proof.
  induction n as [|n IH]; intros i s s' Hstep HP Hrun.
  - injection Hrun as <-. by replace (i + Z.of_nat 0) with i by lia.
  - cbn [for_up] in Hrun. apply bind_inv in Hrun as ([] & t & Hb & Hr).
    replace (i + Z.of_nat (Datatypes.S n)) with (i + 1 + Z.of_nat n) by lia.
    eapply IH; [|by eapply Hstep; [..|exact Hb]; [lia|done]|exact Hr].
    intros j u u' Hj. apply Hstep. lia.
Qed.

Lemma for_up_total {S} (P : Z -> S -> Prop) body n :
  forall i s,
  (forall j t, i <= j < i + Z.of_nat n -> P j t ->
    exists t', body j t = Ok (tt, t') /\ P (j + 1) t') ->
  P i s -> exists s', for_up n i body s = Ok (tt, s') /\ P (i + Z.of_nat n) s'.
Proof.
  induction n as [|n IH]; intros i s Hstep HP.
  - exists s. by replace (i + Z.of_nat 0) with i by lia.
  - destruct (Hstep i s) as (t & Hb & HPt); [lia|done|].
    destruct (IH (i + 1) t) as (s' & Hr & HP').
    { intros j u Hj. apply Hstep. lia. }
    { done. }
    exists s'. cbn [for_up]. rewrite (bind_Ok _ _ _ _ _ Hb).
    split; [done|]. by replace (i + Z.of_nat (Datatypes.S n)) with (i + 1 + Z.of_nat n) by lia.
Qed.

(** ** The weakest preconditions *)

Section wp.
Context {S : Type}.
Implicit Types (E : Prop) (s : S).

Lemma wp_ret {A} E (a : A) (Q : A -> S -> Prop) s : Q a s -> wp E (ret a) Q s.
Proof. done. Qed.

Lemma wp_bind {A B} E (m : ST S A) (k : A -> ST S B) Q s :
  wp E m (fun a s' => wp E (k a) Q s') s -> wp E (bind m k) Q s.
Proof. unfold wp, bind. by destruct (m s) as [[a s']| | |]. Qed.

Lemma wp_mono {A} (E E' : Prop) (m : ST S A) (Q Q' : A -> S -> Prop) s :
  wp E m Q s -> (E -> E') -> (forall a s', Q a s' -> Q' a s') -> wp E' m Q' s.
Proof. unfold wp. destruct (m s) as [[a s']| | |]; naive_solver. Qed.

Lemma wp_bind_mono {A B} E (m : ST S A) (k : A -> ST S B) (R : A -> S -> Prop) Q s :
  wp E m R s -> (forall a s', R a s' -> wp E (k a) Q s') -> wp E (bind m k) Q s.
Proof. intros Hm Hk. apply wp_bind. by eapply wp_mono. Qed.

Lemma wp_run {A} E (m : ST S A) (Q : A -> S -> Prop) s a s' :
  m s = Ok (a, s') -> Q a s' -> wp E m Q s.
Proof. unfold wp. by intros ->. Qed.

Lemma wp_load {A} E (f : S -> option A) (Q : A -> S -> Prop) s a :
  f s = Some a -> Q a s -> wp E (load f) Q s.
Proof. unfold wp, load. by intros ->. Qed.

Lemma wp_store E (f : S -> option S) (Q : unit -> S -> Prop) s s' :
  f s = Some s' -> Q tt s' -> wp E (store f) Q s.
Proof. unfold wp, store. by intros ->. Qed.

Lemma wp_gets {A} E (f : S -> A) (Q : A -> S -> Prop) s : Q (f s) s -> wp E (gets f) Q s.
Proof. done. Qed.

Lemma wp_modify E (f : S -> S) (Q : unit -> S -> Prop) s : Q tt (f s) -> wp E (modify f) Q s.
Proof. done. Qed.

Lemma wp_panic {A} (E : Prop) (Q : A -> S -> Prop) s : E -> wp E panic Q s.
Proof. done. Qed.

Lemma wp_lift {T A} E (proj : S -> T) (inj : T -> S -> S) (m : ST T A) Q s :
  wp E m (fun a t => Q a (inj t s)) (proj s) -> wp E (lift proj inj m) Q s.
Proof. unfold wp, lift. by destruct (m (proj s)) as [[]| | |]. Qed.

(** An invariant [I j] of the loop counter and the state. *)
Lemma wp_for_up E (I : Z -> S -> Prop) body n : forall i s,
  (forall j t, i <= j < i + Z.of_nat n -> I j t -> wp E (body j) (fun _ t' => I (j + 1) t') t) ->
  I i s -> wp E (for_up n i body) (fun _ s' => I (i + Z.of_nat n) s') s.
Proof.
  induction n as [|n IH]; intros i s Hstep HI; cbn [for_up].
  - apply wp_ret. by replace (i + Z.of_nat 0) with i by lia.
  - eapply wp_bind_mono; [apply Hstep; [lia|done]|]. cbn. intros _ t Ht.
    replace (i + Z.of_nat (Datatypes.S n)) with (i + 1 + Z.of_nat n) by lia.
    apply IH; [|done]. intros j u Hj. apply Hstep. lia.
Qed.

Lemma wp_total {A} (m : ST S A) (Q : A -> S -> Prop) s :
  wp False m Q s <-> exists a s', m s = Ok (a, s') /\ Q a s'.
Proof.
  unfold wp. split.
  - destruct (m s) as [[a s']| | |]; try done. intros HQ. by exists a, s'.
  - by intros (a & s' & -> & HQ).
Qed.

Lemma wp_no_panic {A} E (m : ST S A) (Q : A -> S -> Prop) s :
  wp E m Q s -> ~ E -> exists a s', m s = Ok (a, s') /\ Q a s'.
Proof. unfold wp. destruct (m s) as [[a s']| | |]; try done. intros HQ _. by exists a, s'. Qed.

End wp.

(** ** Lemmas on filtered lists *)

Lemma filter_ext_in {A} (P Q : A -> Prop) `{!forall x, Decision (P x)}
    `{!forall x, Decision (Q x)} (l : list A) :
  (forall x, x ∈ l -> P x <-> Q x) -> filter P l = filter Q l.
Proof.
  induction l as [|y l IH]; intros Hpq; [done|]. rewrite !filter_cons.
  pose proof (Hpq y ltac:(set_solver)).
  rewrite IH by set_solver. do 2 case_decide; tauto || done.
Qed.

Lemma filter_all {A} (P : A -> Prop) `{!forall x, Decision (P x)} (l : list A) :
  (forall x, x ∈ l -> P x) -> filter P l = l.
Proof.
  induction l as [|x l IH]; intros Hall; [done|].
  rewrite filter_cons_True by set_solver. rewrite IH; set_solver.
Qed.

(** A filter that drops an element is shorter. *)
Lemma length_filter_lt {A} (P : A -> Prop) `{!forall x, Decision (P x)} (l : list A) x :
  x ∈ l -> ~ P x -> (length (filter P l) < length l)%nat.
Proof.
  intros Hx HP. apply list_elem_of_split in Hx as (l1 & l2 & ->).
  rewrite filter_app, filter_cons_False, !length_app by done. cbn.
  pose proof (length_filter P l1). pose proof (length_filter P l2). lia.
Qed.

(** Changing the predicate at one element of a duplicate-free list. *)
Lemma length_filter_flip {A} (P Q : A -> Prop) `{!forall x, Decision (P x)}
    `{!forall x, Decision (Q x)} x (l : list A) :
  NoDup l -> x ∈ l -> P x -> ~ Q x -> (forall y, y <> x -> y ∈ l -> P y <-> Q y) ->
  length (filter P l) = S (length (filter Q l)).
Proof.
  intros Hnd Hx HP HQ Heq. apply list_elem_of_split in Hx as (l1 & l2 & ->).
  apply NoDup_app in Hnd as (_ & Hd & Hnd2). apply NoDup_cons in Hnd2 as [Hx2 _].
  rewrite !filter_app, filter_cons_True, filter_cons_False by done.
  rewrite (filter_ext_in P Q l1), (filter_ext_in P Q l2), !length_app; [cbn; lia|..].
  - intros y Hy. apply Heq; [set_solver|set_solver].
  - intros y Hy. apply Heq; [set_solver|set_solver].
Qed.

(** ** Shared automation

    [st_step] peels one layer of a monadic computation found in a hypothesis
    and names the intermediate results; [st_simpl] evaluates the primitive
    operations of the monad. *)

Ltac st_simpl :=
  unfold ret, gets, get, modify, panic, fault, no_fuel, load, store in *; simplify_eq/=.

Ltac st_step :=
  match goal with
  | H : bind _ _ _ = Ok _ |- _ =>
      let a := fresh "a" in let s := fresh "s" in
      let H1 := fresh H in
      apply bind_inv in H as (a & s & H1 & H)
  | H : ret _ _ = Ok _ |- _ => unfold ret in H; injection H; clear H; intros; subst
  | H : panic _ = Ok _ |- _ => discriminate H
  | H : fault _ = Ok _ |- _ => discriminate H
  end.

(** Case analysis on the boolean comparisons of integers in the context. *)
Ltac case_Z :=
  repeat match goal with
  | |- context [ ?a <? ?b ] => destruct (Z.ltb_spec a b)
  | |- context [ ?a <=? ?b ] => destruct (Z.leb_spec a b)
  | |- context [ ?a =? ?b ] => destruct (Z.eqb_spec a b)
  | H : context [ ?a <? ?b ] |- _ => destruct (Z.ltb_spec a b)
  | H : context [ ?a <=? ?b ] |- _ => destruct (Z.leb_spec a b)
  | H : context [ ?a =? ?b ] |- _ => destruct (Z.eqb_spec a b)
  end.

Create HintDb kernel.
#[export] Hint Resolve wrap_range land_nonneg land_upper pow2_pos : kernel.
#[export] Hint Extern 3 (_ <= _) => lia : kernel.
#[export] Hint Extern 3 (_ < _) => lia : kernel.
