(* ===== verification/ListHead.v ===== *)
(** Intrusive doubly linked lists ([include/misc/list.h]).

    The store holds the [next] and [prev] field of every [struct list_head]
    by the address of the structure; each operation is the sequence of field
    accesses of the C function.  [is_list] relates a list head to the list of
    the addresses of the nodes linked behind it, and the refinement lemmas
    give each operation its meaning on that list. *)

From S2P Require Import Prelude.

Record lstore := LStore { lnext : gmap Z Z; lprev : gmap Z Z }.

Definition get_next (a : Z) : ST lstore Z := load (fun st => lnext st !! a).
Definition get_prev (a : Z) : ST lstore Z := load (fun st => lprev st !! a).

(** A store through a pointer to no live [list_head] is a fault. *)
Definition set_next (a v : Z) : ST lstore unit :=
  store (fun st => match lnext st !! a with
                   | Some _ => Some (LStore (<[a := v]> (lnext st)) (lprev st))
                   | None => None
                   end).
Definition set_prev (a v : Z) : ST lstore unit :=
  store (fun st => match lprev st !! a with
                   | Some _ => Some (LStore (lnext st) (<[a := v]> (lprev st)))
                   | None => None
                   end).

Definition INIT_LIST_HEAD (list : Z) : ST lstore unit :=
  do! set_next list list in set_prev list list.

Definition list_empty (head : Z) : ST lstore bool :=
  let! n := get_next head in ret (n =? head).

Definition __list_add (new prev next : Z) : ST lstore unit :=
  do! set_prev next new in
  do! set_next new next in
  do! set_prev new prev in
  set_next prev new.

Definition list_add (new head : Z) : ST lstore unit :=
  let! n := get_next head in __list_add new head n.

Definition list_add_tail (new head : Z) : ST lstore unit :=
  let! p := get_prev head in __list_add new p head.

Definition __list_del (prev next : Z) : ST lstore unit :=
  do! set_prev next prev in
  set_next prev next.

Definition list_del (entry : Z) : ST lstore unit :=
  let! p := get_prev entry in
  let! n := get_next entry in
  __list_del p n.

Definition list_move (new head : Z) : ST lstore unit :=
  do! list_del new in list_add new head.

(** [list_for_each(pos, head)]: the nodes the loop visits, in order, with
    [fuel] iterations at most.  [list_for_each_entry] is the same loop on the
    structures that embed the nodes. *)
Fixpoint list_for_each (fuel : nat) (pos head : Z) : ST lstore (list Z) :=
  match fuel with
  | O => no_fuel
  | S fuel' =>
      if pos =? head then ret []
      else
        let! n := get_next pos in
        let! rest := list_for_each fuel' n head in
        ret (pos :: rest)
  end.

(** [list_for_each_entry_reverse]: the same loop through the [prev] field. *)
Fixpoint list_for_each_reverse (fuel : nat) (pos head : Z) : ST lstore (list Z) :=
  match fuel with
  | O => no_fuel
  | S fuel' =>
      if pos =? head then ret []
      else
        let! p := get_prev pos in
        let! rest := list_for_each_reverse fuel' p head in
        ret (pos :: rest)
  end.

(** ** Representation

    [chain st l]: consecutive addresses of [l] point at each other. *)

Fixpoint chain (st : lstore) (l : list Z) : Prop :=
  match l with
  | a :: ((b :: _) as l') => lnext st !! a = Some b /\ lprev st !! b = Some a /\ chain st l'
  | _ => True
  end.

(** A head [h] and its nodes [xs] form one cycle of distinct addresses. *)
Definition is_list (st : lstore) (h : Z) (xs : list Z) : Prop :=
  NoDup (h :: xs) /\ chain st (h :: xs ++ [h]).

(** The address is a live [list_head] (both fields readable). *)
Definition allocated (st : lstore) (a : Z) : Prop :=
  is_Some (lnext st !! a) /\ is_Some (lprev st !! a).

(** [st'] differs from [st] only at the addresses of [xs]. *)
Definition same_except (xs : list Z) (st st' : lstore) : Prop :=
  forall a, a ∉ xs -> lnext st' !! a = lnext st !! a /\ lprev st' !! a = lprev st !! a.

(** ** Abstract lists

    Where the discipline of [is_list] is respected, a head is the list of
    its nodes and the operations are these functions; the components whose
    invariants are stated over lists use them. *)

Module AList.

Definition list_add {A} (x : A) (l : list A) : list A := x :: l.

Definition list_add_tail {A} (x : A) (l : list A) : list A := l ++ [x].

(** Unlink one node: the nodes are distinct, so the first occurrence. *)
Fixpoint list_del (x : Z) (l : list Z) : list Z :=
  match l with
  | [] => []
  | y :: l' => if y =? x then l' else y :: list_del x l'
  end.

(** [list_add_tail(new, pos)] with [pos] a node: insertion before [pos];
    [None] is the head itself. *)
Fixpoint insert_before (x : Z) (pos : option Z) (l : list Z) : list Z :=
  match l with
  | [] => [x]
  | y :: l' =>
      if decide (pos = Some y) then x :: y :: l' else y :: insert_before x pos l'
  end.

Lemma list_del_notin x l : x ∉ l -> list_del x l = l.
Proof.
  induction l as [|y l IH]; [done|]. intros Hx. cbn.
  destruct (Z.eqb_spec y x); [set_solver|]. rewrite IH; set_solver.
Qed.

Lemma list_del_middle x l1 l2 : x ∉ l1 -> list_del x (l1 ++ x :: l2) = l1 ++ l2.
Proof.
  induction l1 as [|y l1 IH]; intros Hx; cbn.
  - by rewrite Z.eqb_refl.
  - destruct (Z.eqb_spec y x); [set_solver|]. rewrite IH; set_solver.
Qed.

Lemma elem_of_list_del x y l : NoDup l -> y ∈ list_del x l <-> y ∈ l /\ y <> x.
Proof.
  induction l as [|z l IH]; intros Hnd; [set_solver|].
  apply NoDup_cons in Hnd as [Hz Hnd]. cbn.
  destruct (Z.eqb_spec z x) as [->|Hne]; [set_solver|].
  rewrite !elem_of_cons, IH by done. set_solver.
Qed.

Lemma list_del_sublist x l : sublist (list_del x l) l.
Proof.
  induction l as [|y l IH]; cbn; [constructor|].
  destruct (Z.eqb_spec y x); [by constructor|by constructor].
Qed.

Lemma NoDup_list_del x l : NoDup l -> NoDup (list_del x l).
Proof. intros. eapply sublist_NoDup; [done|apply list_del_sublist]. Qed.

Lemma length_list_del x l : x ∈ l -> length l = S (length (list_del x l)).
Proof.
  induction l as [|y l IH]; [set_solver|]. intros Hx. cbn.
  destruct (Z.eqb_spec y x); [done|]. cbn. rewrite IH; [done|set_solver].
Qed.

Lemma list_del_comm x y l : list_del x (list_del y l) = list_del y (list_del x l).
Proof.
  induction l as [|z l IH]; [done|]. cbn.
  destruct (Z.eqb_spec z y) as [Ey|Ny], (Z.eqb_spec z x) as [Ex|Nx]; cbn.
  - congruence.
  - by destruct (Z.eqb_spec z y).
  - by destruct (Z.eqb_spec z x).
  - destruct (Z.eqb_spec z y), (Z.eqb_spec z x); try done. by rewrite IH.
Qed.

Lemma list_del_perm x l : x ∈ l -> l ≡ₚ x :: list_del x l.
Proof.
  induction l as [|y l IH]; [set_solver|]. intros Hx. cbn.
  destruct (Z.eqb_spec y x) as [->|]; [done|].
  rewrite (IH ltac:(set_solver)) at 1. apply Permutation_swap.
Qed.

End AList.

(** ** Sequences of operations on one list *)

Inductive list_op : Type :=
  | OpAdd (n : Z)
  | OpAddTail (n : Z)
  | OpDel (n : Z).

Definition op_node (o : list_op) : Z :=
  match o with OpAdd n | OpAddTail n | OpDel n => n end.

(** The C call an operation stands for. *)
Definition run_op (h : Z) (o : list_op) : ST lstore unit :=
  match o with
  | OpAdd n => list_add n h
  | OpAddTail n => list_add_tail n h
  | OpDel n => list_del n
  end.

Fixpoint run_ops (h : Z) (ops : list list_op) : ST lstore unit :=
  match ops with
  | [] => ret tt
  | o :: ops' => do! run_op h o in run_ops h ops'
  end.

(** Its meaning on the abstract list. *)
Definition abs_op (o : list_op) (xs : list Z) : list Z :=
  match o with
  | OpAdd n => AList.list_add n xs
  | OpAddTail n => AList.list_add_tail n xs
  | OpDel n => AList.list_del n xs
  end.

Definition abs_ops (ops : list list_op) (xs : list Z) : list Z :=
  fold_left (fun ys o => abs_op o ys) ops xs.

(** The calling discipline: a node is added only while it is off the list
    and deleted only while it is on it. *)
Definition op_ok (h : Z) (o : list_op) (xs : list Z) : Prop :=
  match o with
  | OpAdd n | OpAddTail n => n ∉ h :: xs
  | OpDel n => n ∈ xs
  end.

Fixpoint ops_ok (h : Z) (ops : list list_op) (xs : list Z) : Prop :=
  match ops with
  | [] => True
  | o :: ops' => op_ok h o xs /\ ops_ok h ops' (abs_op o xs)
  end.

(** ** Chains *)

Lemma chain_cons2 st a b l :
  chain st (a :: b :: l) <->
  lnext st !! a = Some b /\ lprev st !! b = Some a /\ chain st (b :: l).
Proof. done. Qed.

Lemma chain_app st l1 a l2 :
  chain st (l1 ++ a :: l2) <-> chain st (l1 ++ [a]) /\ chain st (a :: l2).
Proof.
  induction l1 as [|x [|y l1] IH]; [naive_solver| |].
  - cbn [app] in *. rewrite !chain_cons2. naive_solver.
  - cbn [app] in *. rewrite !chain_cons2. naive_solver.
Qed.

(** A chain depends on the [next] field of all its nodes but the last and on
    the [prev] field of all but the first. *)
Lemma chain_frame st st' a l :
  (forall x, x ∈ removelast (a :: l) -> lnext st' !! x = lnext st !! x) ->
  (forall x, x ∈ l -> lprev st' !! x = lprev st !! x) ->
  chain st (a :: l) -> chain st' (a :: l).
Proof.
  revert a. induction l as [|b l IH]; intros a Hn Hp; [done|].
  rewrite !chain_cons2. intros (H1 & H2 & H3). split; [|split].
  - rewrite Hn; [done|]. cbn. set_solver.
  - rewrite Hp; [done|]. set_solver.
  - apply IH; [|set_solver|done]. intros x Hx. apply Hn.
    destruct l; cbn [removelast] in *; set_solver.
Qed.

Lemma removelast_snoc {A} (l : list A) x : removelast (l ++ [x]) = l.
Proof. apply removelast_last. Qed.

(** The neighbours of the gap between [ys] and [zs] on the cycle of [h]. *)
Definition gap_prev (h : Z) (ys : list Z) : Z := List.last ys h.
Definition gap_next (h : Z) (zs : list Z) : Z := List.hd h zs.

Lemma last_cons_default {A} (y : A) ys d : List.last (y :: ys) d = List.last ys y.
Proof.
  revert y d. induction ys as [|z ys IH]; intros y d; [done|].
  change (List.last (z :: ys) d = List.last (z :: ys) y). by rewrite !IH.
Qed.

Lemma gap_prev_split h ys : exists l, h :: ys = l ++ [gap_prev h ys].
Proof.
  unfold gap_prev. revert h. induction ys as [|y ys IH]; intros h.
  - by exists [].
  - destruct (IH y) as [l Hl]. exists (h :: l).
    rewrite last_cons_default. cbn. by rewrite <- Hl.
Qed.

Lemma gap_next_split h zs : exists l, zs ++ [h] = gap_next h zs :: l.
Proof. destruct zs as [|z zs]; [by exists []|]. by exists (zs ++ [h]). Qed.

Lemma gap_prev_in h ys : gap_prev h ys ∈ h :: ys.
Proof. destruct (gap_prev_split h ys) as [l ->]. set_solver. Qed.

Lemma gap_next_in h zs : gap_next h zs ∈ h :: zs.
Proof. destruct zs; set_solver. Qed.

(** The chain of a list seen from a gap: the part before, the link across it
    and the part after. *)
Lemma is_list_gap st h ys zs :
  is_list st h (ys ++ zs) <->
  NoDup (h :: ys ++ zs) /\ chain st (h :: ys) /\
  lnext st !! gap_prev h ys = Some (gap_next h zs) /\
  lprev st !! gap_next h zs = Some (gap_prev h ys) /\
  chain st (zs ++ [h]).
Proof.
  unfold is_list.
  destruct (gap_prev_split h ys) as [l Hl], (gap_next_split h zs) as [m Hm].
  assert (h :: (ys ++ zs) ++ [h] = l ++ gap_prev h ys :: gap_next h zs :: m) as ->.
  { rewrite <- app_assoc, Hm, app_comm_cons, Hl, <- app_assoc. done. }
  rewrite Hl, Hm, chain_app, chain_cons2. naive_solver.
Qed.

(** [set_solver] on the membership facts of the context only. *)
Ltac mem_solver :=
  repeat match goal with
  | H : ?P |- _ =>
      lazymatch P with
      | _ ∈ _ => fail
      | _ ∉ _ => fail
      | NoDup _ => fail
      | _ /\ _ => fail
      | forall x, x ∈ _ -> _ => fail
      | _ <> _ => fail
      | _ => clear H
      end
  end; set_solver.

(** The two parts stay chains when only the fields at the gap change. *)
Lemma chain_before st st' h ys :
  NoDup (h :: ys) ->
  (forall x, x ∈ h :: ys -> x <> gap_prev h ys -> lnext st' !! x = lnext st !! x) ->
  (forall x, x ∈ ys -> lprev st' !! x = lprev st !! x) ->
  chain st (h :: ys) -> chain st' (h :: ys).
Proof.
  intros Hnd Hn Hp. apply chain_frame; [|done]. intros x Hx.
  destruct (gap_prev_split h ys) as [l Hl]. rewrite Hl, removelast_snoc in Hx. rewrite Hl in Hnd.
  apply NoDup_app in Hnd as (_ & Hd & _). apply Hn; [rewrite Hl; mem_solver|].
  intros ->. apply (Hd _ Hx). mem_solver.
Qed.

Lemma chain_after st st' h zs :
  NoDup (h :: zs) ->
  (forall x, x ∈ zs -> lnext st' !! x = lnext st !! x) ->
  (forall x, x ∈ h :: zs -> x <> gap_next h zs -> lprev st' !! x = lprev st !! x) ->
  chain st (zs ++ [h]) -> chain st' (zs ++ [h]).
Proof.
  intros Hnd Hn Hp. destruct (gap_next_split h zs) as [m Hm].
  assert (NoDup (gap_next h zs :: m)) as Hndq.
  { rewrite <- Hm. apply NoDup_app. apply NoDup_cons in Hnd as [??]. split; [done|]. split; [mem_solver|]. apply NoDup_singleton. }
  rewrite Hm. apply chain_frame.
  - intros x Hx. rewrite <- Hm, removelast_snoc in Hx. by apply Hn.
  - intros x Hx. apply NoDup_cons in Hndq as [Hq _]. apply Hp; [|by intros ->].
    assert (x ∈ zs ++ [h]) by (rewrite Hm; mem_solver). mem_solver.
Qed.

Lemma chain_lnext st a b l : chain st (a :: b :: l) -> is_Some (lnext st !! a).
Proof. rewrite chain_cons2. naive_solver. Qed.

Lemma is_list_head_allocated st h xs : is_list st h xs -> allocated st h.
Proof.
  intros Hl. split.
  - rewrite <- (app_nil_l xs) in Hl. apply is_list_gap in Hl as (_ & _ & H & _).
    by eexists.
  - rewrite <- (app_nil_r xs) in Hl. apply is_list_gap in Hl as (_ & _ & _ & H & _).
    by eexists.
Qed.

Lemma is_list_node st h ys x zs :
  is_list st h (ys ++ x :: zs) ->
  lnext st !! x = Some (gap_next h zs) /\ lprev st !! x = Some (gap_prev h ys).
Proof.
  intros Hl. split.
  - replace (ys ++ x :: zs) with ((ys ++ [x]) ++ zs) in Hl by by rewrite <- app_assoc.
    apply is_list_gap in Hl as (_ & _ & H & _).
    unfold gap_prev in H. by rewrite List.last_last in H.
  - apply is_list_gap in Hl as (_ & _ & _ & H & _). done.
Qed.

Lemma is_list_allocated st h xs a : is_list st h xs -> a ∈ h :: xs -> allocated st a.
Proof.
  intros Hl Ha. apply elem_of_cons in Ha as [->|Ha].
  - by eapply is_list_head_allocated.
  - apply list_elem_of_split in Ha as (ys & zs & ->).
    apply is_list_node in Hl as [Hn Hp]. by split; eexists.
Qed.

(** ** Refinement of the operations *)

Lemma set_next_run a v st :
  is_Some (lnext st !! a) ->
  set_next a v st = Ok (tt, LStore (<[a := v]> (lnext st)) (lprev st)).
Proof. intros [w Hw]. unfold set_next, store. by rewrite Hw. Qed.

Lemma set_prev_run a v st :
  is_Some (lprev st !! a) ->
  set_prev a v st = Ok (tt, LStore (lnext st) (<[a := v]> (lprev st))).
Proof. intros [w Hw]. unfold set_prev, store. by rewrite Hw. Qed.

Lemma get_next_run a v st : lnext st !! a = Some v -> get_next a st = Ok (v, st).
Proof. intros Hw. unfold get_next, load. by rewrite Hw. Qed.

Lemma get_prev_run a v st : lprev st !! a = Some v -> get_prev a st = Ok (v, st).
Proof. intros Hw. unfold get_prev, load. by rewrite Hw. Qed.

Lemma is_Some_insert (m : gmap Z Z) a b v : is_Some (m !! a) -> is_Some (<[b := v]> m !! a).
Proof. intros. rewrite lookup_insert. case_decide; [by eexists|done]. Qed.
#[export] Hint Resolve is_Some_insert : kernel.

Lemma INIT_LIST_HEAD_is_list st h :
  allocated st h ->
  exists st', INIT_LIST_HEAD h st = Ok (tt, st') /\ is_list st' h [] /\
              same_except [h] st st'.
Proof.
  intros [Hn Hp]. unfold INIT_LIST_HEAD.
  rewrite (bind_Ok _ _ _ _ _ (set_next_run _ _ _ Hn)), set_prev_run by done.
  eexists. split; [done|]. split.
  - split; [by apply NoDup_singleton|]. cbn. rewrite !lookup_insert_eq. done.
  - intros a Ha. cbn. rewrite !lookup_insert_ne by set_solver. done.
Qed.

Lemma list_empty_correct st h xs :
  is_list st h xs -> list_empty h st = Ok (bool_decide (xs = []), st).
Proof.
  intros Hl. pose proof Hl as [Hnd _]. rewrite <- (app_nil_l xs) in Hl.
  apply is_list_gap in Hl as (_ & _ & H & _). unfold list_empty.
  rewrite (bind_Ok _ _ _ _ _ (get_next_run _ _ _ H)). unfold ret. do 2 f_equal.
  destruct xs as [|x xs]; cbn; [by rewrite Z.eqb_refl|].
  apply Z.eqb_neq. intros ->. apply NoDup_cons in Hnd as [? _]. set_solver.
Qed.

(** Linking a fresh node between two neighbours. *)
Lemma __list_add_gap st h n ys zs :
  is_list st h (ys ++ zs) -> n ∉ h :: ys ++ zs -> allocated st n ->
  exists st', __list_add n (gap_prev h ys) (gap_next h zs) st = Ok (tt, st') /\
    is_list st' h (ys ++ n :: zs) /\ same_except (n :: h :: ys ++ zs) st st'.
Proof.
  intros Hl Hn Ha.
  destruct (gap_prev_split h ys) as [l Hl'], (gap_next_split h zs) as [m Hm].
  apply is_list_gap in Hl as Hg.
  pose proof (gap_prev_in h ys) as Hp. pose proof (gap_next_in h zs) as Hq.
  remember (gap_prev h ys) as p eqn:Ep. remember (gap_next h zs) as q eqn:Eq.
  assert (n <> p) as Hnp by (clear -Hn Hp; mem_solver).
  assert (n <> q) as Hnq by (clear -Hn Hq; mem_solver).
  assert (allocated st p) as [Hpn Hpp] by (eapply is_list_allocated; [done|mem_solver]).
  assert (allocated st q) as [Hqn Hqp] by (eapply is_list_allocated; [done|mem_solver]).
  destruct Ha as [Han Hap]. unfold __list_add.
  rewrite (bind_Ok _ _ _ _ _ (set_prev_run _ _ _ Hqp)).
  erewrite bind_Ok by (apply set_next_run; cbn; eauto with kernel).
  erewrite bind_Ok by (apply set_prev_run; cbn; eauto with kernel).
  rewrite set_next_run by (cbn; eauto with kernel). cbn.
  eexists. split; [done|]. destruct Hg as (Hnd & Hc1 & _ & _ & Hc2).
  split; [|intros x Hx; cbn; rewrite !lookup_insert_ne by mem_solver; done].
  rewrite app_comm_cons in Hnd, Hn. pose proof Hnd as (Hnd1 & Hdis & Hnd2)%NoDup_app.
  pose proof Hnd1 as [Hh _]%NoDup_cons.
  assert (NoDup (h :: zs)) as Hndh by (apply NoDup_cons; split; [mem_solver|done]).
  assert (forall x, x ∈ ys -> q <> x) as Hqys by (clear -Hq Hdis Hh; mem_solver).
  assert (forall x, x ∈ zs -> p <> x) as Hpzs by (clear -Hp Hdis Hndh; apply NoDup_cons in Hndh; mem_solver).
  assert (forall x, x ∈ h :: ys ++ zs -> n <> x) as Hne by (clear -Hn; mem_solver).
  apply is_list_gap. rewrite <- Ep. change (gap_next h (n :: zs)) with n. rewrite <- app_comm_cons, Hm, chain_cons2, <- Hm.
  split_and!.
  - rewrite app_comm_cons. apply NoDup_app. split; [done|]. split; [mem_solver|]. apply NoDup_cons. mem_solver.
  - eapply chain_before; [done|intros x Hx Hxp|intros x Hx|exact Hc1]; cbn [lnext lprev];
      rewrite !lookup_insert_ne by first [apply Hne; clear -Hx; mem_solver|subst; by auto]; done.
  - cbn. by rewrite lookup_insert_eq.
  - cbn. by rewrite lookup_insert_eq.
  - cbn. by rewrite lookup_insert_ne, lookup_insert_eq by done.
  - cbn. by rewrite lookup_insert_ne, lookup_insert_eq by done.
  - eapply chain_after; [done|intros x Hx|intros x Hx Hxq|exact Hc2]; cbn [lnext lprev];
      rewrite !lookup_insert_ne by first [apply Hne; clear -Hx; mem_solver|subst; by auto]; done.
Qed.

(** [list_add] inserts at the front. *)
Lemma list_add_refines st h n xs :
  is_list st h xs -> n ∉ h :: xs -> allocated st n ->
  exists st', list_add n h st = Ok (tt, st') /\
    is_list st' h (AList.list_add n xs) /\ same_except (n :: h :: xs) st st'.
Proof.
  intros Hl Hn Ha. unfold list_add.
  destruct (__list_add_gap st h n [] xs Hl Hn Ha) as (st' & Hr & H).
  apply (is_list_gap _ _ []) in Hl as (_ & _ & Hx & _).
  rewrite (bind_Ok _ _ _ _ _ (get_next_run _ _ _ Hx)). by exists st'.
Qed.

(** [list_add_tail] inserts at the back, and before the node it is given. *)
Lemma list_add_tail_refines st h n xs :
  is_list st h xs -> n ∉ h :: xs -> allocated st n ->
  exists st', list_add_tail n h st = Ok (tt, st') /\
    is_list st' h (AList.list_add_tail n xs) /\ same_except (n :: h :: xs) st st'.
Proof.
  intros Hl Hn Ha. unfold list_add_tail. rewrite <- (app_nil_r xs) in Hl, Hn.
  destruct (__list_add_gap st h n xs [] Hl Hn Ha) as (st' & Hr & Hl' & Hs).
  apply is_list_gap in Hl as (_ & _ & _ & Hx & _).
  rewrite (bind_Ok _ _ _ _ _ (get_prev_run _ _ _ Hx)). exists st'.
  rewrite app_nil_r in Hs. done.
Qed.

Lemma list_add_tail_before_refines st h n ys z zs :
  is_list st h (ys ++ z :: zs) -> n ∉ h :: ys ++ z :: zs -> allocated st n ->
  exists st', list_add_tail n z st = Ok (tt, st') /\
    is_list st' h (ys ++ n :: z :: zs) /\ same_except (n :: h :: ys ++ z :: zs) st st'.
Proof.
  intros Hl Hn Ha. unfold list_add_tail.
  destruct (__list_add_gap st h n ys (z :: zs) Hl Hn Ha) as (st' & Hr & H).
  apply is_list_node in Hl as [_ Hx].
  rewrite (bind_Ok _ _ _ _ _ (get_prev_run _ _ _ Hx)). by exists st'.
Qed.

(** [list_del] unlinks the node, leaves its own fields alone, and unlinking
    it a second time at once changes nothing. *)
Lemma list_del_gap st h x ys zs :
  is_list st h (ys ++ x :: zs) ->
  exists st', list_del x st = Ok (tt, st') /\ is_list st' h (ys ++ zs) /\
    same_except (h :: ys ++ zs) st st' /\ list_del x st' = Ok (tt, st').
Proof.
  intros Hl. pose proof (is_list_node _ _ _ _ _ Hl) as [Hxn Hxp].
  assert (x ∉ h :: ys ++ zs) as Hx.
  { destruct Hl as [Hnd _]. apply NoDup_cons in Hnd as [Hh Hnd].
    apply NoDup_app in Hnd as (_ & Hd & Hnd). apply NoDup_cons in Hnd as [??].
    mem_solver. }
  destruct (gap_next_split h zs) as [m Hm]. pose proof (gap_prev_in h ys) as Hp. pose proof (gap_next_in h zs) as Hq.
  pose proof Hl as (Hnd & Hc1 & _ & _ & Hc2)%is_list_gap.
  remember (gap_prev h ys) as p eqn:Ep. remember (gap_next h zs) as q eqn:Eq.
  assert (allocated st p) as [Hpn Hpp] by (eapply is_list_allocated; [done|mem_solver]).
  assert (allocated st q) as [Hqn Hqp] by (eapply is_list_allocated; [done|mem_solver]).
  unfold list_del at 1. rewrite (bind_Ok _ _ _ _ _ (get_prev_run _ _ _ Hxp)).
  rewrite (bind_Ok _ _ _ _ _ (get_next_run _ _ _ Hxn)). unfold __list_del.
  erewrite bind_Ok by (apply set_prev_run; done).
  rewrite set_next_run by done. cbn. eexists. split; [done|].
  assert (x <> p) as Hxp' by (clear -Hx Hp; mem_solver).
  assert (x <> q) as Hxq' by (clear -Hx Hq; mem_solver).
  split; [|split].
  - rewrite app_comm_cons in Hnd. pose proof Hnd as (Hnd1 & Hdis & Hnd2)%NoDup_app.
    apply NoDup_cons in Hnd2 as [_ Hnd2]. pose proof Hnd1 as [Hh _]%NoDup_cons.
    assert (NoDup (h :: zs)) as Hndh by (apply NoDup_cons; split; [mem_solver|done]).
    assert (forall x, x ∈ ys -> q <> x) as Hqys by (clear -Hq Hdis Hh; mem_solver).
    assert (forall x, x ∈ zs -> p <> x) as Hpzs by (clear -Hp Hdis Hndh; apply NoDup_cons in Hndh; mem_solver).
    rewrite <- app_comm_cons, Hm in Hc2. apply chain_cons2 in Hc2 as (_ & _ & Hc2). rewrite <- Hm in Hc2.
    apply is_list_gap. rewrite <- Ep, <- Eq. cbn [lnext lprev]. rewrite !lookup_insert_eq.
    split_and!; [|  |done|done|].
    + rewrite app_comm_cons. apply NoDup_app. mem_solver.
    + eapply chain_before; [done|intros y Hy Hyp|intros y Hy|exact Hc1]; cbn [lnext lprev]; rewrite lookup_insert_ne; subst; auto.
    + eapply chain_after; [done|intros y Hy|intros y Hy Hyq|exact Hc2]; cbn [lnext lprev]; rewrite lookup_insert_ne; subst; auto.
  - intros y Hy. cbn. rewrite !lookup_insert_ne by mem_solver. done.
  - unfold list_del.
    erewrite bind_Ok by (apply get_prev_run; cbn; rewrite lookup_insert_ne; done).
    erewrite bind_Ok by (apply get_next_run; cbn; rewrite lookup_insert_ne; done).
    unfold __list_del.
    erewrite bind_Ok by (apply set_prev_run; cbn; eauto with kernel).
    rewrite set_next_run by (cbn; eauto with kernel). cbn.
    by rewrite !insert_insert_eq.
Qed.

(** ** Traversals *)

Lemma list_for_each_suffix st h ys zs :
  is_list st h (ys ++ zs) ->
  list_for_each (S (length zs)) (gap_next h zs) h st = Ok (zs, st).
Proof.
  revert ys. induction zs as [|z zs IH]; intros ys Hl; cbn [list_for_each gap_next].
  - cbn. by rewrite Z.eqb_refl.
  - assert (z <> h) as Hzh.
    { destruct Hl as [Hnd _]. apply NoDup_cons in Hnd as [? _]. set_solver. }
    cbn. destruct (Z.eqb_spec z h); [done|].
    pose proof (is_list_node _ _ _ _ _ Hl) as [Hn _].
    rewrite (bind_Ok _ _ _ _ _ (get_next_run _ _ _ Hn)).
    erewrite bind_Ok; [done|]. apply (IH (ys ++ [z])). by rewrite <- app_assoc.
Qed.

(** Walking a list forward visits its nodes in order and terminates. *)
Lemma list_for_each_visits st h xs n :
  is_list st h xs -> lnext st !! h = Some n ->
  list_for_each (S (length xs)) n h st = Ok (xs, st).
Proof.
  intros Hl Hn. pose proof (list_for_each_suffix st h [] xs Hl) as H.
  pose proof (proj1 (is_list_gap st h [] xs) Hl) as (_ & _ & Hg & _).
  change (gap_prev h []) with h in Hg. rewrite Hn in Hg. injection Hg as ->. done.
Qed.

Lemma list_for_each_reverse_prefix st h ys zs :
  is_list st h (ys ++ zs) ->
  list_for_each_reverse (S (length ys)) (gap_prev h ys) h st = Ok (reverse ys, st).
Proof.
  revert zs. induction ys as [|y ys IH] using rev_ind; intros zs Hl.
  - cbn. by rewrite Z.eqb_refl.
  - assert (y <> h) as Hyh.
    { destruct Hl as [Hnd _]. apply NoDup_cons in Hnd as [? _]. set_solver. }
    rewrite <- app_assoc in Hl. pose proof (is_list_node _ _ _ _ _ Hl) as [_ Hp].
    rewrite length_app, Nat.add_comm. unfold gap_prev at 1. rewrite List.last_last.
    cbn [list_for_each_reverse length Nat.add].
    destruct (Z.eqb_spec y h); [done|].
    rewrite (bind_Ok _ _ _ _ _ (get_prev_run _ _ _ Hp)).
    erewrite bind_Ok; [|by eapply IH]. by rewrite reverse_snoc.
Qed.

Lemma list_for_each_reverse_visits st h xs p :
  is_list st h xs -> lprev st !! h = Some p ->
  list_for_each_reverse (S (length xs)) p h st = Ok (reverse xs, st).
Proof.
  intros Hl Hp. rewrite <- (app_nil_r xs) in Hl.
  pose proof (list_for_each_reverse_prefix st h xs [] Hl) as H.
  apply is_list_gap in Hl as (_ & _ & _ & Hg & _).
  change (gap_next h []) with h in Hg. rewrite Hp in Hg. injection Hg as ->. done.
Qed.

(** ** The simulation *)

Lemma same_except_allocated xs st st' a :
  same_except xs st st' -> (forall x, x ∈ xs -> allocated st' x) ->
  allocated st a -> allocated st' a.
Proof.
  intros Hs Hx Ha. destruct (decide (a ∈ xs)) as [Hin|Hin]; [by apply Hx|].
  destruct (Hs a Hin) as [H1 H2]. unfold allocated. by rewrite H1, H2.
Qed.

Lemma run_op_refines st h o xs :
  is_list st h xs -> allocated st (op_node o) -> op_ok h o xs ->
  exists st', run_op h o st = Ok (tt, st') /\ is_list st' h (abs_op o xs) /\
    forall a, allocated st a -> allocated st' a.
Proof.
  intros Hl Ha Hok. destruct o as [n|n|n]; cbn in *.
  - destruct (list_add_refines st h n xs) as (st' & Hr & Hl' & Hs); [done..|].
    exists st'. do 2 (split; [done|]). intros a.
    eapply same_except_allocated; [exact Hs|]. intros x Hx.
    eapply is_list_allocated; [exact Hl'|]. unfold AList.list_add. set_solver.
  - destruct (list_add_tail_refines st h n xs) as (st' & Hr & Hl' & Hs); [done..|].
    exists st'. do 2 (split; [done|]). intros a.
    eapply same_except_allocated; [exact Hs|]. intros x Hx.
    eapply is_list_allocated; [exact Hl'|]. unfold AList.list_add_tail. set_solver.
  - apply list_elem_of_split in Hok as (ys & zs & ->).
    destruct (list_del_gap st h n ys zs) as (st' & Hr & Hl' & Hs & _); [done|].
    exists st'. split; [done|].
    rewrite AList.list_del_middle.
    2: { destruct Hl as [Hnd _]. apply NoDup_cons in Hnd as [_ Hnd].
         apply NoDup_app in Hnd. set_solver. }
    split; [done|]. intros a. eapply same_except_allocated; [exact Hs|].
    intros x Hx. by eapply is_list_allocated.
Qed.

Lemma run_ops_refines ops : forall st h xs,
  is_list st h xs -> (forall o, o ∈ ops -> allocated st (op_node o)) ->
  ops_ok h ops xs ->
  exists st', run_ops h ops st = Ok (tt, st') /\ is_list st' h (abs_ops ops xs).
Proof.
  induction ops as [|o ops IH]; intros st h xs Hl Ha Hok.
  - by exists st.
  - destruct Hok as [Ho Hok].
    destruct (run_op_refines st h o xs) as (st1 & Hr & Hl1 & Ha1); [done| |done|].
    { apply Ha. set_solver. }
    destruct (IH st1 h (abs_op o xs)) as (st2 & Hr2 & Hl2); [done| |done|].
    { intros o' Ho'. apply Ha1, Ha. set_solver. }
    exists st2. cbn. by rewrite (bind_Ok _ _ _ _ _ Hr).
Qed.

(** [C6] Simulation of [list.h]: starting from a well-formed list, every
    sequence of [list_add], [list_add_tail] and [list_del] calls that adds
    nodes only while they are off the list and deletes them only while they
    are on it runs without a fault, and both traversals of the resulting
    pointer structure visit exactly the nodes of the abstract list, in order
    (respectively in reverse order), and terminate. *)
Theorem list_ops_simulation st h xs ops :
  is_list st h xs -> (forall o, o ∈ ops -> allocated st (op_node o)) ->
  ops_ok h ops xs ->
  exists st' n p, run_ops h ops st = Ok (tt, st') /\
    get_next h st' = Ok (n, st') /\ get_prev h st' = Ok (p, st') /\
    list_for_each (S (length (abs_ops ops xs))) n h st' = Ok (abs_ops ops xs, st') /\
    list_for_each_reverse (S (length (abs_ops ops xs))) p h st' =
      Ok (reverse (abs_ops ops xs), st').
Proof.
  intros Hl Ha Hok. destruct (run_ops_refines ops st h xs Hl Ha Hok) as (st' & Hr & Hl').
  destruct (is_list_head_allocated _ _ _ Hl') as [[n Hn] [p Hp]].
  exists st', n, p. split; [done|]. split; [by apply get_next_run|].
  split; [by apply get_prev_run|].
  split; [by apply list_for_each_visits|by apply list_for_each_reverse_visits].
Qed.

(** A head at 100 and three free nodes, and a run that exercises every
    operation. *)
Definition sample_store : lstore :=
  LStore (<[100 := 100]> (<[8 := 0]> (<[16 := 0]> {[24 := 0]})))
         (<[100 := 100]> (<[8 := 0]> (<[16 := 0]> {[24 := 0]}))).

Lemma list_ops_simulation_witness :
  exists st' n p,
    run_ops 100 [OpAdd 8; OpAddTail 16; OpAdd 24; OpDel 8] sample_store = Ok (tt, st') /\
    get_next 100 st' = Ok (n, st') /\ get_prev 100 st' = Ok (p, st') /\
    list_for_each 3 n 100 st' = Ok ([24; 16], st') /\
    list_for_each_reverse 3 p 100 st' = Ok (reverse [24; 16], st').
Proof.
  apply (list_ops_simulation sample_store 100 [] [OpAdd 8; OpAddTail 16; OpAdd 24; OpDel 8]).
  - split; [apply NoDup_singleton|]. vm_compute. done.
  - intros o Ho. repeat (apply elem_of_cons in Ho as [->|Ho];
      [split; vm_compute; by eexists|]). by apply elem_of_nil in Ho.
  - cbn. set_solver by lia.
Defined.

(** Deleting a node twice in a row is harmless: the second [list_del]
    rewrites the neighbours with the values they already hold (the sequence
    [vma_remove] performs before it frees the node). *)
Theorem list_del_twice st h x ys zs :
  is_list st h (ys ++ x :: zs) ->
  exists st', list_del x st = Ok (tt, st') /\ list_del x st' = Ok (tt, st') /\
    is_list st' h (AList.list_del x (ys ++ x :: zs)).
Proof.
  intros Hl. destruct (list_del_gap st h x ys zs Hl) as (st' & H1 & H2 & _ & H3).
  exists st'. rewrite AList.list_del_middle; [done|].
  destruct Hl as [Hnd _]. apply NoDup_cons in Hnd as [_ Hnd].
  apply NoDup_app in Hnd. set_solver.
Qed.

Lemma list_del_twice_witness :
  exists st',
    list_del 8 (LStore (<[100 := 8]> {[8 := 100]}) (<[100 := 8]> {[8 := 100]})) = Ok (tt, st') /\
    list_del 8 st' = Ok (tt, st') /\ is_list st' 100 [].
Proof.
  apply (list_del_twice _ 100 8 [] []). split; [|vm_compute; done].
  apply NoDup_cons. split; [set_solver by lia|apply NoDup_singleton].
Defined.
