(* ===== verification/ListFamily.v ===== *)
(** Several circular lists in one store.

    A family is a finite map from list heads to their nodes.  The operations
    of [misc/list.h] change one list of a family and leave the others as they
    are; components that keep several lists reason with these rules instead of
    framing each list by hand. *)

From S2P Require Import Prelude ListHead.

Record family (st : lstore) (F : gmap Z (list Z)) : Prop := {
  fam_list h xs : F !! h = Some xs -> is_list st h xs;
  fam_apart h xs h' xs' a :
    F !! h = Some xs -> F !! h' = Some xs' -> a ∈ h :: xs -> a ∈ h' :: xs' -> h = h'
}.

(** The address is neither a head nor a node of the family. *)
Definition loose (F : gmap Z (list Z)) (a : Z) : Prop := forall h xs, F !! h = Some xs -> a ∉ h :: xs.

Lemma loose_lookup F a : loose F a -> F !! a = None.
Proof. intros Hl. destruct (F !! a) as [xs|] eqn:Ha; [|done]. destruct (Hl _ _ Ha). left. Qed.

Lemma family_empty st : family st ∅.
Proof. split; intros *; by rewrite lookup_empty. Qed.

Lemma is_list_frame ys st st' h xs :
  is_list st h xs -> same_except ys st st' -> (forall x, x ∈ ys -> x ∉ h :: xs) -> is_list st' h xs.
Proof.
  intros [Hnd Hc] Hs Hd. split; [done|]. eapply chain_frame; [| |exact Hc].
  - intros a Ha. apply Hs. intros Hy. apply (Hd a Hy). by rewrite app_comm_cons, removelast_snoc in Ha.
  - intros a Ha. apply Hs. intros Hy. apply (Hd a Hy). cbn in Ha. set_solver.
Qed.

(** One list replaced; the nodes of the new one come from the old one and from
    loose addresses. *)
Lemma family_update st st' F h xs xs' ys :
  family st F -> F !! h = Some xs -> is_list st' h xs' -> same_except ys st st' ->
  (forall a, a ∈ ys -> a ∈ h :: xs \/ loose F a) ->
  (forall a, a ∈ xs' -> a ∈ xs \/ loose F a) -> family st' (<[h := xs']> F).
Proof.
  intros [Hl Ha] Hh Hl' Hs Hys Hxs.
  assert (forall k ks a, F !! k = Some ks -> k <> h -> a ∈ k :: ks -> a ∉ h :: xs') as Hd.
  { intros k ks a Hk Hne Hin [->|Hx]%elem_of_cons; [by apply Hne; symmetry; eapply (Ha h xs k ks); [..|left|]|].
    destruct (Hxs a Hx) as [Hx'|Hx']; [|by apply (Hx' k ks)].
    apply Hne. symmetry. by eapply (Ha h xs k ks); [..|right|]. }
  split.
  - intros k ks [[<- <-]|[Hne Hk]]%lookup_insert_Some; [done|]. eapply is_list_frame; [by apply Hl|exact Hs|].
    intros a Hy Hin. destruct (Hys a Hy) as [Hx|Hx]; [|by apply (Hx k ks)]. apply Hne. by eapply (Ha h xs k ks).
  - intros k ks k' ks' a [[<- <-]|[Hne Hk]]%lookup_insert_Some [[<- <-]|[Hne' Hk']]%lookup_insert_Some Hin Hin'.
    + done.
    + exfalso. by eapply (Hd k' ks' a).
    + exfalso. by eapply (Hd k ks a).
    + by eapply (Ha k ks k' ks').
Qed.

Lemma list_del_family st F h ys x zs :
  family st F -> F !! h = Some (ys ++ x :: zs) ->
  exists st', list_del x st = Ok (tt, st') /\ family st' (<[h := ys ++ zs]> F) /\
    loose (<[h := ys ++ zs]> F) x /\ (forall a, allocated st a -> allocated st' a).
Proof.
  intros HF Hh. pose proof (fam_list _ _ HF _ _ Hh) as Hl.
  destruct (list_del_gap st h x ys zs Hl) as (st' & Hr & Hl' & Hs & _). exists st'. split; [done|]. split; [|split].
  - eapply family_update; [done|exact Hh|exact Hl'|exact Hs|intros a Ha; left; set_solver|intros a Ha; left; set_solver].
  - intros k ks [[<- <-]|[Hne Hk]]%lookup_insert_Some Hin.
    + destruct Hl as [Hnd _]. rewrite app_comm_cons in Hnd. apply NoDup_app in Hnd as (_ & Hn & [Hz _]%NoDup_cons).
      rewrite app_comm_cons in Hin. apply elem_of_app in Hin as [Hin|Hin]; [|done]. apply (Hn x Hin). left.
    + apply Hne. eapply (fam_apart _ _ HF); [exact Hh|exact Hk| |exact Hin]. set_solver.
  - intros a Ha. eapply same_except_allocated; [exact Hs| |exact Ha].
    intros b Hb. eapply is_list_allocated; [exact Hl'|done].
Qed.

(** Unlinking a list head that is alone changes nothing. *)
Lemma list_del_alone st F x :
  family st F -> F !! x = Some [] -> list_del x st = Ok (tt, st) /\ family st (delete x F) /\ loose (delete x F) x.
Proof.
  intros HF Hx. pose proof (fam_list _ _ HF _ _ Hx) as Hl. split; [|split; [split|]].
  - pose proof Hl as (_ & Hn & Hp & _). cbn in Hn, Hp. unfold list_del, __list_del.
    rewrite (bind_Ok _ _ _ _ _ (get_prev_run _ _ _ Hp)), (bind_Ok _ _ _ _ _ (get_next_run _ _ _ Hn)).
    rewrite (bind_Ok _ _ _ _ _ (set_prev_run _ _ _ ltac:(by eexists))), set_next_run by by eexists.
    destruct st as [nx pv]; cbn in *. by rewrite !insert_id.
  - intros h xs [_ Hh]%lookup_delete_Some. by apply (fam_list _ _ HF).
  - intros h xs h' xs' a [_ Hh]%lookup_delete_Some [_ Hh']%lookup_delete_Some. by apply (fam_apart _ _ HF h xs h' xs' a).
  - intros h xs [Hne Hh]%lookup_delete_Some Hin. apply Hne.
    eapply (fam_apart _ _ HF); [exact Hx|exact Hh|left|done].
Qed.

Lemma list_add_family st F h xs x :
  family st F -> F !! h = Some xs -> loose F x -> allocated st x ->
  exists st', list_add x h st = Ok (tt, st') /\ family st' (<[h := x :: xs]> F) /\
    (forall a, allocated st a -> allocated st' a).
Proof.
  intros HF Hh Hx Ha. pose proof (fam_list _ _ HF _ _ Hh) as Hl.
  destruct (list_add_refines st h x xs Hl) as (st' & Hr & Hl' & Hs); [by apply Hx|done|].
  exists st'. split; [done|]. split.
  - eapply family_update; [done|exact Hh|exact Hl'|exact Hs| |].
    + intros a [->|Hin]%elem_of_cons; [by right|by left].
    + intros a [->|Hin]%elem_of_cons; [by right|by left].
  - intros a Hal. eapply same_except_allocated; [exact Hs| |exact Hal].
    intros b Hb. eapply is_list_allocated; [exact Hl'|]. unfold AList.list_add. set_solver.
Qed.

Lemma list_add_tail_family st F h xs x :
  family st F -> F !! h = Some xs -> loose F x -> allocated st x ->
  exists st', list_add_tail x h st = Ok (tt, st') /\ family st' (<[h := xs ++ [x]]> F) /\
    (forall a, allocated st a -> allocated st' a).
Proof.
  intros HF Hh Hx Ha. pose proof (fam_list _ _ HF _ _ Hh) as Hl.
  destruct (list_add_tail_refines st h x xs Hl) as (st' & Hr & Hl' & Hs); [by apply Hx|done|].
  exists st'. split; [done|]. split.
  - eapply family_update; [done|exact Hh|exact Hl'|exact Hs| |].
    + intros a [->|Hin]%elem_of_cons; [by right|by left].
    + intros a [Hin|Hin]%elem_of_app; [by left|right]. apply list_elem_of_singleton in Hin. by subst.
  - intros a Hal. eapply same_except_allocated; [exact Hs| |exact Hal].
    intros b Hb. eapply is_list_allocated; [exact Hl'|]. unfold AList.list_add_tail. set_solver.
Qed.

(** A new list. *)
Lemma INIT_LIST_HEAD_family st F h :
  family st F -> loose F h -> allocated st h ->
  exists st', INIT_LIST_HEAD h st = Ok (tt, st') /\ family st' (<[h := []]> F) /\
    (forall a, allocated st a -> allocated st' a).
Proof.
  intros HF Hh Ha. destruct (INIT_LIST_HEAD_is_list st h Ha) as (st' & Hr & Hl & Hs).
  exists st'. split; [done|]. split; [split|].
  - intros k ks [[<- <-]|[Hne Hk]]%lookup_insert_Some; [done|].
    eapply is_list_frame; [by apply (fam_list _ _ HF)|exact Hs|]. intros x ->%list_elem_of_singleton. by eapply Hh.
  - intros k ks k' ks' a [[<- <-]|[Hne Hk]]%lookup_insert_Some [[<- <-]|[Hne' Hk']]%lookup_insert_Some Hin Hin'.
    + done.
    + apply list_elem_of_singleton in Hin as ->. by destruct (Hh _ _ Hk').
    + apply list_elem_of_singleton in Hin' as ->. by destruct (Hh _ _ Hk).
    + by eapply (fam_apart _ _ HF).
  - intros a Hal. eapply same_except_allocated; [exact Hs| |exact Hal].
    intros x ->%list_elem_of_singleton. by eapply is_list_head_allocated.
Qed.

(** Unlinking a node and linking it again at either end. *)
Lemma list_move_family st F h ys x zs :
  family st F -> F !! h = Some (ys ++ x :: zs) ->
  exists st', list_move x h st = Ok (tt, st') /\ family st' (<[h := x :: ys ++ zs]> F) /\
    (forall a, allocated st a -> allocated st' a).
Proof.
  intros HF Hh. destruct (list_del_family st F h ys x zs HF Hh) as (st1 & Hr1 & HF1 & Hx & Ha1).
  assert (allocated st x) as Hax.
  { eapply is_list_allocated; [by apply (fam_list _ _ HF)|]. set_solver. }
  destruct (list_add_family st1 _ h (ys ++ zs) x HF1) as (st2 & Hr2 & HF2 & Ha2); [apply lookup_insert_eq|done|auto|].
  exists st2. unfold list_move. rewrite (bind_Ok _ _ _ _ _ Hr1), insert_insert_eq in *. split; [done|]. split; [done|auto].
Qed.

Lemma list_move_tail_family st F h ys x zs :
  family st F -> F !! h = Some (ys ++ x :: zs) ->
  exists st', (do! list_del x in list_add_tail x h) st = Ok (tt, st') /\ family st' (<[h := ys ++ zs ++ [x]]> F) /\
    (forall a, allocated st a -> allocated st' a).
Proof.
  intros HF Hh. destruct (list_del_family st F h ys x zs HF Hh) as (st1 & Hr1 & HF1 & Hx & Ha1).
  assert (allocated st x) as Hax.
  { eapply is_list_allocated; [by apply (fam_list _ _ HF)|]. set_solver. }
  destruct (list_add_tail_family st1 _ h (ys ++ zs) x HF1) as (st2 & Hr2 & HF2 & Ha2); [apply lookup_insert_eq|done|auto|].
  exists st2. rewrite (bind_Ok _ _ _ _ _ Hr1), insert_insert_eq, <- app_assoc in *. split; [done|]. split; [done|auto].
Qed.
