(* ===== verification/Bits.v ===== *)
(** Bit-level arithmetic: the logarithm of [include/misc/math.h] that the
    buddy allocator rounds sizes with, and the byte swaps of
    [include/misc/endian.h] behind the big-endian loads of the hash
    functions. *)

From S2P Require Import Prelude.

(** ** [include/misc/math.h] *)

(** One step of the search for the highest bit:
    [if (value >= bound) { log2_result += k; value >>= k; }]. *)
Definition log2_step (bound k : Z) (rv : Z * Z) : Z * Z :=
  let '(r, value) := rv in
  if bound <=? value then (r + k, Z.shiftr value k) else (r, value).

Definition log2_ceil (size : Z) : Z :=
  if size =? 0 then -1
  else
    let rv := (0, size) in
    let rv := log2_step 0x100000000 32 rv in
    let rv := log2_step 0x10000 16 rv in
    let rv := log2_step 0x100 8 rv in
    let rv := log2_step 0x10 4 rv in
    let rv := log2_step 0x4 2 rv in
    let '(log2_result, value) := rv in
    let log2_result := if 0x2 <=? value then log2_result + 1 else log2_result in
    if negb (Z.land size (size - 1) =? 0) then log2_result + 1 else log2_result.

(** ** [include/misc/endian.h] *)

Definition swap16 (x : Z) : Z :=
  u16 (Z.lor (Z.land (Z.shiftl x 8) 0xff00) (Z.land (Z.shiftr x 8) 0x00ff)).

Definition swap32 (x : Z) : Z :=
  Z.lor (Z.lor (Z.lor
    (Z.land (u32 (Z.shiftl x 24)) 0xff000000)
    (Z.land (u32 (Z.shiftl x 8)) 0x00ff0000))
    (Z.land (Z.shiftr x 8) 0x0000ff00))
    (Z.land (Z.shiftr x 24) 0x000000ff).

Definition swap64 (x : Z) : Z :=
  Z.lor (Z.lor (Z.lor (Z.lor (Z.lor (Z.lor (Z.lor
    (Z.land (u64 (Z.shiftl x 56)) 0xff00000000000000)
    (Z.land (u64 (Z.shiftl x 40)) 0x00ff000000000000))
    (Z.land (u64 (Z.shiftl x 24)) 0x0000ff0000000000))
    (Z.land (u64 (Z.shiftl x 8)) 0x000000ff00000000))
    (Z.land (Z.shiftr x 8) 0x00000000ff000000))
    (Z.land (Z.shiftr x 24) 0x0000000000ff0000))
    (Z.land (Z.shiftr x 40) 0x000000000000ff00))
    (Z.land (Z.shiftr x 56) 0x00000000000000ff).

(** On the little-endian target the big-endian conversions swap. *)
Definition be32_to_cpu (x : Z) : Z := swap32 x.
Definition be64_to_cpu (x : Z) : Z := swap64 x.

(** A load of consecutive bytes as a little-endian number (the machine's
    [u32] or [u64] load), and its inverse. *)
Fixpoint le_load (bs : list Z) : Z :=
  match bs with
  | [] => 0
  | b :: bs' => b + 256 * le_load bs'
  end.

Fixpoint le_store (n : nat) (x : Z) : list Z :=
  match n with
  | O => []
  | S n' => x mod 256 :: le_store n' (x / 256)
  end.

(** The number whose big-endian encoding is [bs]. *)
Definition be_load (bs : list Z) : Z := le_load (reverse bs).

(** A list of byte values. *)
Definition bytes (bs : list Z) : Prop := Forall (in_width 8) bs.

(** ** Powers of two *)

Lemma log2_up_step size :
  0 < size -> Z.land size (size - 1) = 0 <-> size = 2 ^ Z.log2 size.
Proof.
  intros Hs. pose proof (Z.log2_spec size Hs) as [Hlo Hhi].
  pose proof (Z.log2_nonneg size) as Hk. split.
  - intros Hz. destruct (decide (size = 2 ^ Z.log2 size)) as [|Hne]; [done|exfalso].
    assert (Z.log2 (size - 1) = Z.log2 size) as Hk1 by (apply Z.log2_unique; lia).
    assert (Z.testbit (Z.land size (size - 1)) (Z.log2 size) = true) as Hb.
    { rewrite Z.land_spec. apply andb_true_intro. split; [by apply Z.bit_log2|].
      rewrite <- Hk1. apply Z.bit_log2. pose proof (pow2_pos (Z.log2 size)). lia. }
    by rewrite Hz, Z.bits_0 in Hb.
  - intros ->. rewrite land_pow2 by done. apply Z.mod_same. by apply Z.pow_nonzero.
Qed.

(** A number is a power of two iff clearing its lowest set bit leaves 0. *)
Lemma land_pred_pow2 size :
  0 < size -> (Z.land size (size - 1) =? 0) = bool_decide (size = 2 ^ Z.log2 size).
Proof.
  intros. apply Bool.eq_true_iff_eq. rewrite Z.eqb_eq, bool_decide_eq_true.
  by apply log2_up_step.
Qed.

Lemma log2_step_spec b k r v :
  0 <= k -> b = 2 ^ k -> 0 < v < 2 ^ (2 * k) ->
  let '(r', v') := log2_step b k (r, v) in
  r' + Z.log2 v' = r + Z.log2 v /\ 0 < v' < 2 ^ k.
Proof.
  intros Hk -> Hv. unfold log2_step. destruct (Z.leb_spec (2 ^ k) v) as [Hge|Hlt].
  - rewrite Z.log2_shiftr by lia.
    assert (k <= Z.log2 v) by (by apply Z.log2_le_pow2; lia).
    split; [lia|]. rewrite Z.shiftr_div_pow2 by lia. pose proof (pow2_pos k).
    split.
    + apply Z.div_str_pos. lia.
    + apply Z.div_lt_upper_bound; [lia|]. rewrite <- Z.pow_add_r by lia.
      replace (k + k) with (2 * k) by lia. lia.
  - lia.
Qed.

Lemma log2_ceil_up size : 0 < size < 2 ^ 64 -> log2_ceil size = Z.log2_up size.
Proof.
  intros Hs. unfold log2_ceil. destruct (Z.eqb_spec size 0); [lia|].
  pose proof (log2_step_spec 0x100000000 32 0 size ltac:(lia) eq_refl Hs) as H1.
  destruct (log2_step 0x100000000 32 (0, size)) as [r1 v1].
  destruct H1 as [E1 B1].
  pose proof (log2_step_spec 0x10000 16 r1 v1 ltac:(lia) eq_refl B1) as H2.
  destruct (log2_step 0x10000 16 (r1, v1)) as [r2 v2].
  destruct H2 as [E2 B2].
  pose proof (log2_step_spec 0x100 8 r2 v2 ltac:(lia) eq_refl B2) as H3.
  destruct (log2_step 0x100 8 (r2, v2)) as [r3 v3].
  destruct H3 as [E3 B3].
  pose proof (log2_step_spec 0x10 4 r3 v3 ltac:(lia) eq_refl B3) as H4.
  destruct (log2_step 0x10 4 (r3, v3)) as [r4 v4].
  destruct H4 as [E4 B4].
  pose proof (log2_step_spec 0x4 2 r4 v4 ltac:(lia) eq_refl B4) as H5.
  destruct (log2_step 0x4 2 (r4, v4)) as [r5 v5].
  destruct H5 as [E5 B5].
  assert ((if 2 <=? v5 then r5 + 1 else r5) = Z.log2 size) as ->.
  { change (2 ^ 2) with 4 in B5.
    assert (v5 = 1 \/ v5 = 2 \/ v5 = 3) as [-> | [-> | ->]] by lia; cbn in E5 |- *; lia. }
  rewrite land_pred_pow2 by lia. pose proof (Z.log2_spec size) as Hl.
  pose proof (Z.log2_nonneg size).
  case_bool_decide as Hp; cbn [negb].
  - rewrite Hp at 2. by rewrite Z.log2_up_pow2.
  - symmetry. apply Z.log2_up_unique; [lia|].
    replace (Z.pred (Z.log2 size + 1)) with (Z.log2 size) by lia. lia.
Qed.

(** [log2_ceil] is the ceiling of the binary logarithm on every nonzero
    [size_t]: the result is the least [r] with [size <= 2^r]. *)
Theorem log2_ceil_correct size :
  0 < size < 2 ^ 64 ->
  log2_ceil size = Z.log2_up size /\
  size <= 2 ^ log2_ceil size /\
  (forall r, 0 <= r -> size <= 2 ^ r -> log2_ceil size <= r).
Proof.
  intros Hs. rewrite log2_ceil_up by done.
  split; [done|]. split.
  - destruct (decide (size = 1)) as [->|]; [done|]. apply Z.log2_up_spec. lia.
  - intros r Hr Hle. apply Z.log2_up_le_pow2; lia.
Qed.

Lemma log2_ceil_correct_witness :
  log2_ceil 4097 = 13 /\ 4097 <= 2 ^ log2_ceil 4097 /\
  (forall r, 0 <= r -> 4097 <= 2 ^ r -> log2_ceil 4097 <= r).
Proof. apply (log2_ceil_correct 4097). lia. Defined.

(** ** Bytes *)

Lemma bytes_cons b bs : bytes (b :: bs) <-> 0 <= b < 256 /\ bytes bs.
Proof. unfold bytes, in_width. rewrite Forall_cons. done. Qed.

Lemma le_load_range bs : bytes bs -> 0 <= le_load bs < 256 ^ Z.of_nat (length bs).
Proof.
  induction bs as [|b bs IH]; intros Hb; [cbn; lia|].
  apply bytes_cons in Hb as [Hb Hbs]. specialize (IH Hbs). cbn [le_load length].
  rewrite Nat2Z.inj_succ, Z.pow_succ_r by lia. lia.
Qed.

Lemma length_le_store n x : length (le_store n x) = n.
Proof. revert x. induction n; intros x; cbn; [done|]. by rewrite IHn. Qed.

Lemma le_store_bytes n x : bytes (le_store n x).
Proof.
  revert x. induction n; intros x; cbn; [constructor|]. apply bytes_cons.
  split; [apply Z.mod_pos_bound; lia|done].
Qed.

Lemma le_store_load bs : bytes bs -> le_store (length bs) (le_load bs) = bs.
Proof.
  induction bs as [|b bs IH]; intros Hb; [done|].
  apply bytes_cons in Hb as [Hb Hbs]. cbn [length le_store le_load]. f_equal.
  - symmetry. apply Z.mod_unique with (le_load bs); lia.
  - rewrite <- (Z.div_unique _ 256 (le_load bs) b) by lia. by apply IH.
Qed.

Lemma le_load_store n x : 0 <= x < 256 ^ Z.of_nat n -> le_load (le_store n x) = x.
Proof.
  revert x. induction n as [|n IH]; intros x Hx; cbn [le_load le_store].
  - cbn in Hx. lia.
  - rewrite Nat2Z.inj_succ, Z.pow_succ_r in Hx by lia. rewrite IH.
    + pose proof (Z.div_mod x 256). lia.
    + split; [apply Z.div_pos; lia|]. apply Z.div_lt_upper_bound; lia.
Qed.

(** Masking a shifted word selects one byte of it. *)
Lemma land_byte_shl x a b :
  0 <= a <= b -> Z.land (Z.shiftl x a) (Z.shiftl 255 b) =
  Z.shiftl (Z.shiftr x (b - a) mod 256) b.
Proof.
  intros. change 256 with (2 ^ 8). rewrite <- Z.land_ones by lia.
  change 255 with (Z.ones 8). apply Z.bits_inj'. intros i Hi.
  rewrite Z.land_spec, !Z.shiftl_spec, Z.land_spec by lia.
  destruct (Z_lt_le_dec i b).
  - rewrite (Z.testbit_neg_r (Z.ones 8)) by lia. by rewrite !andb_false_r.
  - rewrite Z.shiftr_spec by lia. do 2 f_equal. lia.
Qed.

Lemma land_byte_shr x a b :
  0 <= a -> 0 <= b -> Z.land (Z.shiftr x a) (Z.shiftl 255 b) =
  Z.shiftl (Z.shiftr x (b + a) mod 256) b.
Proof.
  intros. change 256 with (2 ^ 8). rewrite <- Z.land_ones by lia.
  change 255 with (Z.ones 8). apply Z.bits_inj'. intros i Hi.
  rewrite Z.land_spec, !Z.shiftl_spec, Z.land_spec, Z.shiftr_spec by lia.
  destruct (Z_lt_le_dec i b).
  - rewrite (Z.testbit_neg_r (Z.ones 8)) by lia. by rewrite !andb_false_r.
  - rewrite Z.shiftr_spec by lia. do 2 f_equal. lia.
Qed.

Lemma land_wrap w x m : 0 <= w -> 0 <= m < 2 ^ w -> Z.land (wrap w x) m = Z.land x m.
Proof.
  intros Hw Hm. rewrite wrap_land, <- Z.land_assoc by done. f_equal.
  rewrite Z.land_comm, Z.land_ones by done. by apply Z.mod_small.
Qed.


(** A multiple of [2^k] and a value below [2^k] may be added instead of or-ed. *)
Lemma lor_hi_lo h l k :
  0 <= k -> 0 <= l < 2 ^ k -> h mod 2 ^ k = 0 -> Z.lor h l = h + l.
Proof.
  intros Hk Hl Hh. rewrite Z.add_nocarry_lxor, Z.lxor_lor; [done| |].
  all: apply Z.bits_inj'; intros i Hi; rewrite Z.land_spec, Z.bits_0.
  all: destruct (Z_lt_le_dec i k).
  1,3: rewrite <- (Z.mod_pow2_bits_low h k i), Hh, Z.bits_0 by lia; done.
  all: rewrite <- (Z.mod_small l (2 ^ k)), Z.mod_pow2_bits_high by lia;
    by rewrite andb_false_r.
Qed.

Lemma le_load_app bs cs :
  le_load (bs ++ cs) = le_load bs + 256 ^ Z.of_nat (length bs) * le_load cs.
Proof.
  induction bs as [|b bs IH]; cbn [le_load app length]; [lia|].
  rewrite IH, Nat2Z.inj_succ, Z.pow_succ_r by lia. lia.
Qed.

Ltac byte_mod :=
  repeat match goal with
  | |- context [?x mod 256] =>
      lazymatch goal with
      | H : 0 <= x mod 256 < 256 |- _ => fail
      | _ => pose proof (Z.mod_pos_bound x 256 ltac:(lia))
      end
  end.

(** Or-ing a byte below a sum of higher bytes. *)
Lemma lor_byte h b k :
  0 <= k -> h mod 2 ^ (k + 8) = 0 -> Z.lor h (Z.shiftl (b mod 256) k) =
  h + 2 ^ k * (b mod 256).
Proof.
  intros Hk Hh. pose proof (Z.mod_pos_bound b 256 ltac:(lia)). pose proof (pow2_pos k Hk).
  rewrite Z.shiftl_mul_pow2, (Z.mul_comm _ (2 ^ k)) by lia.
  apply lor_hi_lo with (k + 8); [lia| |done].
  rewrite Z.pow_add_r by lia. change (2 ^ 8) with 256. nia.
Qed.

Lemma mod_add_pow2 h b k j :
  0 <= j <= k -> h mod 2 ^ (k + 8) = 0 -> (h + 2 ^ k * b) mod 2 ^ j = 0.
Proof.
  intros Hj Hh. pose proof (pow2_pos j). apply Z.mod_divide in Hh as [c ->].
  2: { apply Z.pow_nonzero; lia. }
  apply Z.mod_divide; [lia|].
  exists (c * 2 ^ (k + 8 - j) + 2 ^ (k - j) * b).
  rewrite Z.mul_add_distr_r, <- Z.mul_assoc, <- Z.pow_add_r by lia.
  rewrite Z.mul_shuffle0, <- Z.pow_add_r by lia. do 3 f_equal; lia.
Qed.

(** Assembling the bytes [bs] from the most significant position [8 * n]
    downwards. *)
Fixpoint or_bytes (acc : Z) (bs : list Z) : Z :=
  match bs with
  | [] => acc
  | b :: bs' => or_bytes (Z.lor acc (Z.shiftl (b mod 256) (8 * Z.of_nat (length bs')))) bs'
  end.

Lemma or_bytes_be acc bs :
  acc mod 2 ^ (8 * Z.of_nat (length bs)) = 0 ->
  or_bytes acc bs = acc + be_load (map (fun b => b mod 256) bs).
Proof.
  revert acc. induction bs as [|b bs IH]; intros acc Hacc; cbn [or_bytes map].
  - unfold be_load. cbn. lia.
  - cbn [length] in Hacc.
    replace (8 * Z.of_nat (S (length bs))) with (8 * Z.of_nat (length bs) + 8) in Hacc by lia.
    rewrite lor_byte by (done || lia). rewrite IH by (apply mod_add_pow2; [lia|done]).
    unfold be_load. rewrite reverse_cons, le_load_app, length_reverse, length_map.
    change 256 with (2 ^ 8) at 4. rewrite <- Z.pow_mul_r by lia. cbn [le_load]. lia.
Qed.

Lemma mod_mod_div_bytes n x : map (fun b => b mod 256) (le_store n x) = le_store n x.
Proof.
  revert x. induction n as [|n IH]; intros x; cbn [le_store map]; [done|].
  rewrite IH. f_equal. by rewrite Z.mod_mod.
Qed.

(** The 32-bit and 64-bit swaps reverse the bytes of their argument. *)
Lemma swap32_bytes x : swap32 x = be_load (le_store 4 x).
Proof.
  rewrite <- mod_mod_div_bytes, <- (Z.add_0_l (be_load _)).
  rewrite <- (or_bytes_be 0) by done.
  cbn [le_store or_bytes length Z.of_nat Pos.of_succ_nat Pos.succ Z.mul Pos.mul].
  unfold swap32. rewrite !land_wrap by (cbn; lia).
  change 0xff000000 with (Z.shiftl 255 24). change 0x00ff0000 with (Z.shiftl 255 16).
  change 0x0000ff00 with (Z.shiftl 255 8). change 0x000000ff with (Z.shiftl 255 0).
  rewrite !land_byte_shl, !land_byte_shr by lia.
  rewrite Z.lor_0_l, !Z.mod_mod, !Z.div_div by lia.
  rewrite !Z.shiftr_div_pow2 by lia.
  change (2 ^ (24 - 24)) with 1. by rewrite Z.div_1_r.
Qed.

Lemma swap64_bytes x : swap64 x = be_load (le_store 8 x).
Proof.
  rewrite <- mod_mod_div_bytes, <- (Z.add_0_l (be_load _)).
  rewrite <- (or_bytes_be 0) by done.
  cbn [le_store or_bytes length Z.of_nat Pos.of_succ_nat Pos.succ Z.mul Pos.mul].
  unfold swap64. rewrite !land_wrap by (cbn; lia).
  change 0xff00000000000000 with (Z.shiftl 255 56).
  change 0x00ff000000000000 with (Z.shiftl 255 48).
  change 0x0000ff0000000000 with (Z.shiftl 255 40).
  change 0x000000ff00000000 with (Z.shiftl 255 32).
  change 0x00000000ff000000 with (Z.shiftl 255 24).
  change 0x0000000000ff0000 with (Z.shiftl 255 16).
  change 0x000000000000ff00 with (Z.shiftl 255 8).
  change 0x00000000000000ff with (Z.shiftl 255 0).
  rewrite !land_byte_shl, !land_byte_shr by lia.
  rewrite Z.lor_0_l, !Z.mod_mod, !Z.div_div by lia.
  rewrite !Z.shiftr_div_pow2 by lia.
  change (2 ^ (56 - 56)) with 1. by rewrite Z.div_1_r.
Qed.

Lemma bytes_reverse bs : bytes bs -> bytes (reverse bs).
Proof. unfold bytes. by rewrite Forall_reverse. Qed.

(** Reading four (eight) bytes and swapping is the big-endian load. *)
Lemma be32_to_cpu_load bs :
  bytes bs -> length bs = 4%nat -> be32_to_cpu (le_load bs) = be_load bs.
Proof.
  intros Hb Hlen. unfold be32_to_cpu.
  by rewrite swap32_bytes, <- Hlen, le_store_load.
Qed.

Lemma be64_to_cpu_load bs :
  bytes bs -> length bs = 8%nat -> be64_to_cpu (le_load bs) = be_load bs.
Proof.
  intros Hb Hlen. unfold be64_to_cpu.
  by rewrite swap64_bytes, <- Hlen, le_store_load.
Qed.

Lemma be_load_involutive n x :
  0 <= x < 256 ^ Z.of_nat n -> be_load (le_store n (be_load (le_store n x))) = x.
Proof.
  intros Hx. unfold be_load.
  pose proof (le_store_load (reverse (le_store n x))) as H.
  rewrite length_reverse, length_le_store in H.
  rewrite H by (apply bytes_reverse, le_store_bytes).
  by rewrite reverse_involutive, le_load_store.
Qed.

(** The byte swaps are the exact byte reversals: on any 32-bit (64-bit)
    word loaded from memory bytes, [be32_to_cpu] ([be64_to_cpu]) yields the
    number those bytes encode in big-endian order, and swapping twice is the
    identity. *)
Theorem byte_swap_correct bs4 bs8 :
  bytes bs4 -> length bs4 = 4%nat -> bytes bs8 -> length bs8 = 8%nat ->
  be32_to_cpu (le_load bs4) = be_load bs4 /\
  be64_to_cpu (le_load bs8) = be_load bs8 /\
  swap32 (swap32 (le_load bs4)) = le_load bs4 /\
  swap64 (swap64 (le_load bs8)) = le_load bs8.
Proof.
  intros H4 L4 H8 L8. split; [by apply be32_to_cpu_load|].
  split; [by apply be64_to_cpu_load|].
  pose proof (le_load_range bs4 H4) as R4. pose proof (le_load_range bs8 H8) as R8.
  rewrite L4 in R4. rewrite L8 in R8.
  rewrite !swap32_bytes, !swap64_bytes. split; by apply be_load_involutive.
Qed.

Lemma byte_swap_correct_witness :
  be32_to_cpu (le_load [1; 2; 3; 4]) = be_load [1; 2; 3; 4] /\
  be64_to_cpu (le_load [1; 2; 3; 4; 5; 6; 7; 8]) = be_load [1; 2; 3; 4; 5; 6; 7; 8] /\
  swap32 (swap32 (le_load [1; 2; 3; 4])) = le_load [1; 2; 3; 4] /\
  swap64 (swap64 (le_load [1; 2; 3; 4; 5; 6; 7; 8])) = le_load [1; 2; 3; 4; 5; 6; 7; 8].
Proof.
  apply byte_swap_correct; try done.
  all: repeat (apply bytes_cons; split; [lia|]); constructor.
Defined.
