(* ===== verification/Bitmap.v ===== *)
(** The bitmap of [include/misc/bitmap.h], used by the slab allocator for
    its objects and by the PLIC driver for its interrupt enables.

    A [struct bitmap] is its byte buffer and its length in bits; the
    operations run in the state monad over it, and an access outside the
    buffer is a fault. *)

From S2P Require Import Prelude.

Record bitmap := Bitmap { data : list Z; len : Z }.

Definition get_byte (i : Z) : ST bitmap Z := load (fun bm => data bm !! Z.to_nat i).

Definition set_byte (i v : Z) : ST bitmap unit :=
  store (fun bm => if decide (Z.to_nat i < length (data bm))%nat
                   then Some (Bitmap (<[Z.to_nat i := v]> (data bm)) (len bm))
                   else None).

Definition bitmap_get (bit_idx : Z) : ST bitmap Z :=
  let! n := gets len in
  if n <=? bit_idx then ret 0
  else
    let byte_idx := Z.shiftr bit_idx 3 in
    let bit_off := Z.land bit_idx 7 in
    let! b := get_byte byte_idx in
    ret (Z.land (Z.shiftr b bit_off) 1).

Definition bitmap_set (bit_idx : Z) : ST bitmap unit :=
  let! n := gets len in
  if n <=? bit_idx then ret tt
  else
    let byte_idx := Z.shiftr bit_idx 3 in
    let bit_off := Z.land bit_idx 7 in
    let! b := get_byte byte_idx in
    set_byte byte_idx (u8 (Z.lor b (Z.shiftl 1 bit_off))).

Definition bitmap_clear (bit_idx : Z) : ST bitmap unit :=
  let! n := gets len in
  if n <=? bit_idx then ret tt
  else
    let byte_idx := Z.shiftr bit_idx 3 in
    let bit_off := Z.land bit_idx 7 in
    let! b := get_byte byte_idx in
    set_byte byte_idx (u8 (and_not b (Z.shiftl 1 bit_off))).

Definition bitmap_flip (bit_idx : Z) : ST bitmap unit :=
  let! n := gets len in
  if n <=? bit_idx then ret tt
  else
    let byte_idx := Z.shiftr bit_idx 3 in
    let bit_off := Z.land bit_idx 7 in
    let! b := get_byte byte_idx in
    set_byte byte_idx (u8 (Z.lxor b (Z.shiftl 1 bit_off))).

Definition bitmap_assign (bit_idx val : Z) : ST bitmap unit :=
  if negb (val =? 0) then bitmap_set bit_idx else bitmap_clear bit_idx.

(** [while ((b & 1) == 0) { b >>= 1; off++; }] *)
Fixpoint low_bit_loop (fuel : nat) (b off : Z) : ST bitmap Z :=
  match fuel with
  | O => no_fuel
  | S fuel' =>
      if Z.land b 1 =? 0 then low_bit_loop fuel' (Z.shiftr b 1) (off + 1)
      else ret off
  end.

(** A byte has at most eight leading zero bits to skip. *)
Definition BYTE_FUEL : nat := 8.

(** The scan over the bytes after the first one, [n] of them starting at
    [i]: [for (i = byte_idx + 1; i < (len + 7) >> 3; i++)]. *)
Fixpoint scan_set (n : nat) (i : Z) : ST bitmap Z :=
  match n with
  | O => gets len
  | S n' =>
      let! b := get_byte i in
      if negb (b =? 0) then
        let! off := low_bit_loop BYTE_FUEL b 0 in
        let pos := Z.shiftl i 3 + off in
        let! l := gets len in
        ret (if pos <? l then pos else l)
      else scan_set n' (i + 1)
  end.

Definition bitmap_find_next_set (bit_idx : Z) : ST bitmap Z :=
  let! l := gets len in
  if l <=? bit_idx then ret l
  else
    let byte_idx := Z.shiftr bit_idx 3 in
    let bit_off := Z.land bit_idx 7 in
    let mask := u8 (Z.shiftl 0xff bit_off) in
    let! d := get_byte byte_idx in
    let b := Z.land d mask in
    if negb (b =? 0) then
      let! off := low_bit_loop BYTE_FUEL b 0 in
      ret (Z.shiftl byte_idx 3 + bit_off + off)
    else
      scan_set (Z.to_nat (Z.shiftr (l + 7) 3 - (byte_idx + 1))) (byte_idx + 1).

Fixpoint scan_clear (max_byte : Z) (n : nat) (i : Z) : ST bitmap Z :=
  match n with
  | O => gets len
  | S n' =>
      let! d := get_byte i in
      let b := u8 (Z.lnot d) in
      let! l := gets len in
      let tail_bits := Z.land l 7 in
      let b := if (i =? max_byte - 1) && negb (tail_bits =? 0)
               then Z.land b (Z.shiftl 1 tail_bits - 1) else b in
      if negb (b =? 0) then
        let! off := low_bit_loop BYTE_FUEL b 0 in
        ret (Z.shiftl i 3 + off)
      else scan_clear max_byte n' (i + 1)
  end.

Definition bitmap_find_next_clear (bit_idx : Z) : ST bitmap Z :=
  let! l := gets len in
  if l <=? bit_idx then ret l
  else
    let byte_idx := Z.shiftr bit_idx 3 in
    let bit_off := Z.land bit_idx 7 in
    let mask := u8 (Z.shiftl 0xff bit_off) in
    let! d := get_byte byte_idx in
    let b := Z.land (u8 (Z.lnot d)) mask in
    if negb (b =? 0) then
      let! off := low_bit_loop BYTE_FUEL b 0 in
      ret (Z.shiftl byte_idx 3 + bit_off + off)
    else
      let max_byte := Z.shiftr (l + 7) 3 in
      scan_clear max_byte (Z.to_nat (max_byte - (byte_idx + 1))) (byte_idx + 1).

(** ** Abstraction *)

(** Bit [i] of the buffer. *)
Definition bit (bm : bitmap) (i : Z) : bool :=
  Z.testbit (default 0 (data bm !! Z.to_nat (i / 8))) (i mod 8).

(** The buffer holds bytes, covers the length, and the bits past the length
    are clear (as [memset] leaves them and no operation changes). *)
Record wf (bm : bitmap) : Prop := {
  wf_bytes : Forall (in_width 8) (data bm);
  wf_len : 0 <= len bm < 2 ^ 61;
  wf_size : len bm <= 8 * Z.of_nat (length (data bm));
  wf_tail : forall i, len bm <= i -> bit bm i = false
}.

(** [r] is the first index from [from] whose bit is [v], or the length. *)
Definition first_bit (bm : bitmap) (v : bool) (from r : Z) : Prop :=
  from <= r <= len bm /\ (forall i, from <= i < r -> bit bm i = negb v) /\
  (r < len bm -> bit bm r = v).

(** The number of clear bits of the map. *)
Definition clear_count (bm : bitmap) : Z :=
  Z.of_nat (length (filter (fun i => bit bm i = false) (seqZ 0 (len bm)))).

(** ** Single bits *)

Lemma shiftr3 i : Z.shiftr i 3 = i / 8.
Proof. by rewrite Z.shiftr_div_pow2. Qed.

Lemma land7 i : Z.land i 7 = i mod 8.
Proof. apply (land_pow2 i 3). lia. Qed.

Lemma in_width_testbit w z i : 0 <= w <= i -> in_width w z -> Z.testbit z i = false.
Proof.
  intros Hi Hz. rewrite <- (Z.mod_small z (2 ^ w)) by done. apply Z.mod_pow2_bits_high. lia.
Qed.

Lemma get_byte_run bm i :
  0 <= i < Z.of_nat (length (data bm)) ->
  get_byte i bm = Ok (default 0 (data bm !! Z.to_nat i), bm).
Proof.
  intros Hi. unfold get_byte, load.
  destruct (data bm !! Z.to_nat i) eqn:E; [done|].
  apply lookup_ge_None in E. lia.
Qed.

Lemma set_byte_run bm i v :
  0 <= i < Z.of_nat (length (data bm)) ->
  set_byte i v bm = Ok (tt, Bitmap (<[Z.to_nat i := v]> (data bm)) (len bm)).
Proof. intros Hi. unfold set_byte, store. rewrite decide_True by lia. done. Qed.

Lemma byte_in_width bm i : wf bm -> in_width 8 (default 0 (data bm !! i)).
Proof.
  intros Hwf. destruct (data bm !! i) eqn:E; cbn; [|unfold in_width; lia].
  eapply Forall_lookup_1; [apply wf_bytes|]; done.
Qed.

Lemma wf_byte_idx bm i :
  wf bm -> 0 <= i < len bm -> 0 <= i / 8 < Z.of_nat (length (data bm)).
Proof.
  intros Hwf Hi. pose proof (wf_size bm Hwf). split; [apply Z.div_pos; lia|].
  apply Z.div_lt_upper_bound; lia.
Qed.

(** The bits of a bitmap whose byte [i / 8] was replaced. *)
Lemma bit_insert bm i v j :
  0 <= i -> 0 <= j -> 0 <= i / 8 < Z.of_nat (length (data bm)) ->
  bit (Bitmap (<[Z.to_nat (i / 8) := v]> (data bm)) (len bm)) j =
  if j / 8 =? i / 8 then Z.testbit v (j mod 8) else bit bm j.
Proof.
  intros Hi Hj Hlen. unfold bit. cbn [data len].
  pose proof (Z.div_pos j 8). destruct (Z.eqb_spec (j / 8) (i / 8)) as [->|Hne].
  - by rewrite list_lookup_insert_eq by lia.
  - by rewrite list_lookup_insert_ne by lia.
Qed.

Lemma testbit_1_shl k j : 0 <= k -> 0 <= j -> Z.testbit (Z.shiftl 1 k) j = (j =? k).
Proof.
  intros. rewrite Z.shiftl_1_l, Z.pow2_bits_eqb by done. apply Z.eqb_sym.
Qed.

(** A byte update that acts on bit [i mod 8] only acts on bit [i] only. *)
Lemma update_bit bm i v b :
  wf bm -> 0 <= i < len bm -> in_width 8 v ->
  (forall j, 0 <= j < 8 -> Z.testbit v j =
     if j =? i mod 8 then b else Z.testbit (default 0 (data bm !! Z.to_nat (i / 8))) j) ->
  let bm' := Bitmap (<[Z.to_nat (i / 8) := v]> (data bm)) (len bm) in
  wf bm' /\ forall j, 0 <= j -> bit bm' j = if j =? i then b else bit bm j.
Proof.
  intros Hwf Hi Hv Hbits bm'. pose proof (wf_byte_idx bm i Hwf Hi) as Hidx.
  assert (forall j, 0 <= j -> bit bm' j = if j =? i then b else bit bm j) as Hbit.
  { intros j Hj. subst bm'. rewrite bit_insert by lia.
    pose proof (Z.div_mod j 8). pose proof (Z.div_mod i 8).
    pose proof (Z.mod_pos_bound j 8). pose proof (Z.mod_pos_bound i 8).
    destruct (Z.eqb_spec (j / 8) (i / 8)) as [Heq|Hne].
    - rewrite Hbits by lia. unfold bit. rewrite Heq.
      destruct (Z.eqb_spec (j mod 8) (i mod 8)), (Z.eqb_spec j i); done || lia.
    - destruct (Z.eqb_spec j i); [congruence|done]. }
  split; [|done]. split; cbn.
  - apply Forall_insert; [by apply wf_bytes|done].
  - by apply wf_len.
  - rewrite length_insert. by apply wf_size.
  - intros j Hj. rewrite Hbit by lia. destruct (Z.eqb_spec j i); [lia|].
    by apply wf_tail.
Qed.

Lemma land1_testbit x k : 0 <= k -> Z.land (Z.shiftr x k) 1 = Z.b2z (Z.testbit x k).
Proof.
  intros. rewrite (land_pow2 _ 1) by lia. change (2 ^ 1) with 2.
  rewrite <- Z.bit0_mod, Z.shiftr_spec by lia. by rewrite Z.add_0_l.
Qed.

Lemma bitmap_get_correct bm i :
  wf bm -> 0 <= i -> bitmap_get i bm = Ok (Z.b2z (bit bm i), bm).
Proof.
  intros Hwf Hi. unfold bitmap_get, gets. unfold bind at 1.
  destruct (Z.leb_spec (len bm) i).
  - by rewrite wf_tail.
  - rewrite shiftr3, land7. pose proof (wf_byte_idx bm i Hwf ltac:(lia)).
    rewrite (bind_Ok _ _ _ _ _ (get_byte_run bm _ ltac:(done))).
    rewrite land1_testbit by (apply Z.mod_pos_bound; lia). done.
Qed.

(** The three updates, by the function of the bit they compute. *)
Definition bit_op (f : bool -> bool) (bm : bitmap) (i : Z) (m : ST bitmap unit) : Prop :=
  exists bm', m bm = Ok (tt, bm') /\ wf bm' /\ len bm' = len bm /\
    forall j, 0 <= j -> bit bm' j = if (j =? i) && (i <? len bm) then f (bit bm j) else bit bm j.

Lemma bit_op_intro f bm i (g : Z -> Z) :
  wf bm -> 0 <= i ->
  (forall b j, in_width 8 b -> 0 <= j < 8 ->
     Z.testbit (u8 (g b)) j = if j =? i mod 8 then f (Z.testbit b j) else Z.testbit b j) ->
  bit_op f bm i
    (let! n := gets len in
     if n <=? i then ret tt
     else let! b := get_byte (i / 8) in set_byte (i / 8) (u8 (g b))).
Proof.
  intros Hwf Hi Hg. unfold bit_op, gets. unfold bind at 1.
  destruct (Z.leb_spec (len bm) i).
  - exists bm. split; [done|]. split; [done|]. split; [done|]. intros j Hj.
    destruct (Z.ltb_spec i (len bm)); [lia|]. by rewrite andb_false_r.
  - pose proof (wf_byte_idx bm i Hwf ltac:(lia)) as Hidx.
    rewrite (bind_Ok _ _ _ _ _ (get_byte_run bm _ Hidx)), set_byte_run by done.
    pose proof (byte_in_width bm (Z.to_nat (i / 8)) Hwf) as Hb.
    destruct (update_bit bm i (u8 (g (default 0 (data bm !! Z.to_nat (i / 8)))))
      (f (bit bm i))) as [Hwf' Hbits]; [done|lia|apply wrap_range; lia| |].
    { intros j Hj. rewrite Hg by done. destruct (Z.eqb_spec j (i mod 8)) as [->|]; done. }
    eexists. do 3 (split; [done|]). intros j Hj. rewrite Hbits by done.
    destruct (Z.ltb_spec i (len bm)); [|lia]. rewrite andb_true_r.
    by destruct (Z.eqb_spec j i) as [->|].
Qed.

Lemma u8_testbit z j : 0 <= j < 8 -> Z.testbit (u8 z) j = Z.testbit z j.
Proof. intros. unfold wrap. apply Z.mod_pow2_bits_low. lia. Qed.

Ltac bit_op_tac :=
  rewrite shiftr3, land7; apply bit_op_intro; [done|done|];
  intros b j Hb Hj; rewrite u8_testbit by done;
  match goal with |- context [?i mod 8] =>
    pose proof (Z.mod_pos_bound i 8 ltac:(lia)) end.

Lemma bitmap_set_op bm i : wf bm -> 0 <= i -> bit_op (fun _ => true) bm i (bitmap_set i).
Proof.
  intros Hwf Hi. unfold bitmap_set.
  bit_op_tac. rewrite Z.lor_spec, testbit_1_shl by lia.
  by destruct (j =? i mod 8); rewrite ?orb_true_r, ?orb_false_r.
Qed.

Lemma bitmap_clear_op bm i : wf bm -> 0 <= i -> bit_op (fun _ => false) bm i (bitmap_clear i).
Proof.
  intros Hwf Hi. unfold bitmap_clear.
  bit_op_tac. unfold and_not. rewrite Z.ldiff_spec, testbit_1_shl by lia.
  by destruct (j =? i mod 8); rewrite ?andb_true_r, ?andb_false_r.
Qed.

Lemma bitmap_flip_op bm i : wf bm -> 0 <= i -> bit_op negb bm i (bitmap_flip i).
Proof.
  intros Hwf Hi. unfold bitmap_flip.
  bit_op_tac. rewrite Z.lxor_spec, testbit_1_shl by lia.
  by destruct (j =? i mod 8); rewrite ?xorb_true_r, ?xorb_false_r.
Qed.

(** The single-bit operations on a well-formed bitmap: reading returns
    the bit (0 past the end), setting, clearing, flipping and assigning change
    exactly the addressed bit and nothing past the end, and all of them keep
    the map well formed and its length. *)
Theorem bitmap_bit_ops_correct bm i v :
  wf bm -> 0 <= i ->
  bitmap_get i bm = Ok (Z.b2z (bit bm i), bm) /\
  bit_op (fun _ => true) bm i (bitmap_set i) /\
  bit_op (fun _ => false) bm i (bitmap_clear i) /\
  bit_op negb bm i (bitmap_flip i) /\
  bit_op (fun _ => negb (v =? 0)) bm i (bitmap_assign i v).
Proof.
  intros Hwf Hi. split; [by apply bitmap_get_correct|].
  split; [by apply bitmap_set_op|]. split; [by apply bitmap_clear_op|].
  split; [by apply bitmap_flip_op|]. unfold bitmap_assign.
  destruct (v =? 0); cbn [negb]; [by apply bitmap_clear_op|by apply bitmap_set_op].
Qed.

(** Eleven bits, of which 0 to 7, 8 and 10 are set. *)
Definition sample_bm : bitmap := Bitmap [0xff; 0x05] 11.

Lemma sample_bm_wf : wf sample_bm.
Proof.
  split; cbn; [|lia|lia|].
  - repeat constructor; done.
  - intros i Hi. unfold bit. cbn [data sample_bm].
    assert (1 <= i / 8) by (apply Z.div_le_lower_bound; lia).
    pose proof (Z.div_mod i 8). pose proof (Z.mod_pos_bound i 8).
    destruct (Z.eq_dec (i / 8) 1) as [E|E].
    + rewrite E. cbn.
      assert (i mod 8 = 3 \/ i mod 8 = 4 \/ i mod 8 = 5 \/ i mod 8 = 6 \/ i mod 8 = 7)
        as [-> | [-> | [-> | [-> | ->]]]] by lia; done.
    + rewrite lookup_ge_None_2 by (cbn; lia). apply Z.bits_0.
Qed.

Lemma bitmap_bit_ops_correct_witness :
  bitmap_get 9 sample_bm = Ok (Z.b2z (bit sample_bm 9), sample_bm) /\
  bit_op (fun _ => true) sample_bm 9 (bitmap_set 9) /\
  bit_op (fun _ => false) sample_bm 9 (bitmap_clear 9) /\
  bit_op negb sample_bm 9 (bitmap_flip 9) /\
  bit_op (fun _ => negb (1 =? 0)) sample_bm 9 (bitmap_assign 9 1).
Proof. apply (bitmap_bit_ops_correct sample_bm 9 1); [apply sample_bm_wf|lia]. Defined.

(** ** The searches *)

Lemma low_bit_loop_correct fuel : forall b off (bm : bitmap),
  0 < b < 2 ^ Z.of_nat fuel ->
  exists r, low_bit_loop fuel b off bm = Ok (off + r, bm) /\
    0 <= r < Z.of_nat fuel /\ Z.testbit b r = true /\
    forall j, 0 <= j < r -> Z.testbit b j = false.
Proof.
  induction fuel as [|fuel IH]; intros b off bm Hb; [cbn in Hb; lia|].
  rewrite Nat2Z.inj_succ, Z.pow_succ_r in Hb by lia. cbn [low_bit_loop].
  pose proof (land1_testbit b 0 ltac:(lia)) as H0. rewrite Z.shiftr_0_r in H0.
  rewrite H0. destruct (Z.testbit b 0) eqn:E0; cbn [Z.b2z Z.eqb].
  - exists 0. rewrite Z.add_0_r. split; [done|]. split; [lia|]. split; [done|]. lia.
  - assert (Z.shiftr b 1 = b / 2) as Hs by by rewrite Z.shiftr_div_pow2.
    pose proof (Z.div_mod b 2 ltac:(lia)) as Hd. rewrite <- Z.bit0_mod, E0 in Hd. cbn in Hd.
    destruct (IH (Z.shiftr b 1) (off + 1) bm) as (r & Hr & Hlt & Ht & Hf); [lia|].
    exists (1 + r). rewrite Hr. split; [do 2 f_equal; lia|]. split; [lia|].
    rewrite Z.shiftr_spec in Ht by lia. split; [by rewrite Z.add_comm|].
    intros j Hj. destruct (Z.eq_dec j 0) as [->|]; [done|].
    specialize (Hf (j - 1) ltac:(lia)). rewrite Z.shiftr_spec in Hf by lia.
    by replace (j - 1 + 1) with j in Hf by lia.
Qed.

(** On a nonzero byte the loop finds the lowest set bit within its fuel. *)
Lemma low_bit_byte b (bm : bitmap) :
  in_width 8 b -> (b =? 0) = false ->
  exists r, low_bit_loop BYTE_FUEL b 0 bm = Ok (r, bm) /\
    0 <= r < 8 /\ Z.testbit b r = true /\ forall j, 0 <= j < r -> Z.testbit b j = false.
Proof.
  unfold in_width. intros Hw Hz%Z.eqb_neq. apply (low_bit_loop_correct BYTE_FUEL).
  change (2 ^ Z.of_nat BYTE_FUEL) with 256. change (2 ^ 8) with 256 in Hw. lia.
Qed.

(** A byte with every bit below 8 clear is zero. *)
Lemma byte_zero_bits b j : (b =? 0) = true -> Z.testbit b j = false.
Proof. intros ->%Z.eqb_eq. apply Z.bits_0. Qed.

Lemma bit_of_byte bm i j :
  0 <= j < 8 ->
  bit bm (8 * i + j) = Z.testbit (default 0 (data bm !! Z.to_nat i)) j.
Proof.
  intros Hj. unfold bit.
  rewrite <- (Z.div_unique (8 * i + j) 8 i j), <- (Z.mod_unique (8 * i + j) 8 i j) by lia.
  done.
Qed.

Lemma split_byte i j : 8 * i <= j < 8 * i + 8 -> exists k, 0 <= k < 8 /\ j = 8 * i + k.
Proof. intros. exists (j - 8 * i). lia. Qed.

Lemma first_bit_here bm v i r :
  0 <= r < 8 -> 8 * i + r <= len bm ->
  bit bm (8 * i + r) = v ->
  (forall j, 0 <= j < r -> bit bm (8 * i + j) = negb v) ->
  first_bit bm v (8 * i) (8 * i + r).
Proof.
  intros Hr Hlen Ht Hf. split; [lia|]. split; [|done]. intros j Hj.
  destruct (split_byte i j) as (k & Hk & ->); [lia|]. apply Hf. lia.
Qed.

Lemma first_bit_skip bm v i r :
  8 * i < len bm ->
  (forall j, 0 <= j < 8 -> 8 * i + j < len bm -> bit bm (8 * i + j) = negb v) ->
  first_bit bm v (Z.min (8 * (i + 1)) (len bm)) r -> first_bit bm v (8 * i) r.
Proof.
  intros Hi Hf (Hr & Hbelow & Hat). split; [lia|]. split; [|done]. intros j Hj.
  destruct (Z_lt_le_dec j (8 * i + 8)) as [Hlt|Hge]; [|apply Hbelow; lia].
  destruct (split_byte i j) as (k & Hk & ->); [lia|]. apply Hf; lia.
Qed.

Lemma scan_set_correct n : forall bm i,
  wf bm -> 0 <= i -> n = Z.to_nat ((len bm + 7) / 8 - i) -> i <= (len bm + 7) / 8 ->
  exists r, scan_set n i bm = Ok (r, bm) /\ first_bit bm true (Z.min (8 * i) (len bm)) r.
Proof.
  induction n as [|n IH]; intros bm i Hwf Hi Hn Hmax.
  - exists (len bm). split; [done|].
    pose proof (Z.div_mod (len bm + 7) 8). pose proof (Z.mod_pos_bound (len bm + 7) 8).
    split; [lia|]. split; lia.
  - pose proof (wf_len bm Hwf). pose proof (wf_size bm Hwf) as Hsz.
    pose proof (Z.div_mod (len bm + 7) 8). pose proof (Z.mod_pos_bound (len bm + 7) 8).
    assert (8 * i < len bm) as Hlt by lia. rewrite Z.min_l by lia.
    cbn [scan_set]. rewrite (bind_Ok _ _ _ _ _ (get_byte_run bm i ltac:(lia))).
    pose proof (byte_in_width bm (Z.to_nat i) Hwf) as Hw.
    destruct (default 0 (data bm !! Z.to_nat i) =? 0) eqn:Ez; cbn [negb].
    + destruct (IH bm (i + 1)) as (r & Hr & Hfirst); [done|lia|lia|lia|].
      exists r. split; [done|]. apply first_bit_skip; [lia| |done].
      intros j Hj _. rewrite bit_of_byte by done. by apply byte_zero_bits.
    + destruct (low_bit_byte _ bm Hw Ez) as (r & Hr & Hlr & Ht & Hf).
      rewrite (bind_Ok _ _ _ _ _ Hr). unfold gets. unfold bind, ret.
      rewrite Z.shiftl_mul_pow2 by lia. change (2 ^ 3) with 8.
      assert (bit bm (8 * i + r) = true) as Hb by (rewrite bit_of_byte by lia; done).
      assert (8 * i + r < len bm).
      { destruct (Z_lt_le_dec (8 * i + r) (len bm)); [done|].
        rewrite (wf_tail bm Hwf) in Hb by lia. done. }
      exists (8 * i + r). destruct (Z.ltb_spec (i * 8 + r) (len bm)); [|lia].
      split; [do 2 f_equal; lia|]. apply first_bit_here; [lia|lia|done|].
      intros j Hj. rewrite bit_of_byte by lia. by apply Hf.
Qed.

Lemma u8_lnot_testbit d j : 0 <= j < 8 -> Z.testbit (u8 (Z.lnot d)) j = negb (Z.testbit d j).
Proof. intros. rewrite u8_testbit, Z.lnot_spec by lia. done. Qed.

Lemma u8_lnot_width d : in_width 8 (u8 (Z.lnot d)).
Proof. apply wrap_range. lia. Qed.

Lemma land_width b m : in_width 8 b -> in_width 8 (Z.land b m).
Proof.
  unfold in_width. intros. split; [apply Z.land_nonneg; lia|].
  pose proof (land_upper m b). rewrite Z.land_comm. lia.
Qed.

Lemma low_mask_testbit k j : 0 <= k -> 0 <= j -> Z.testbit (Z.shiftl 1 k - 1) j = (j <? k).
Proof.
  intros. rewrite Z.shiftl_1_l.
  replace (2 ^ k - 1) with (Z.ones k) by (rewrite Z.ones_equiv; lia).
  by apply Z.testbit_ones_nonneg.
Qed.

(** The complement of a byte, restricted to the bits below the length when
    the byte is the last one. *)
Lemma scan_clear_correct n : forall bm i,
  wf bm -> 0 <= i -> n = Z.to_nat ((len bm + 7) / 8 - i) -> i <= (len bm + 7) / 8 ->
  exists r, scan_clear (Z.shiftr (len bm + 7) 3) n i bm = Ok (r, bm) /\
    first_bit bm false (Z.min (8 * i) (len bm)) r.
Proof.
  induction n as [|n IH]; intros bm i Hwf Hi Hn Hmax.
  - exists (len bm). split; [done|].
    pose proof (Z.div_mod (len bm + 7) 8). pose proof (Z.mod_pos_bound (len bm + 7) 8).
    split; [lia|]. split; lia.
  - pose proof (wf_len bm Hwf). pose proof (wf_size bm Hwf) as Hsz.
    pose proof (Z.div_mod (len bm + 7) 8). pose proof (Z.mod_pos_bound (len bm + 7) 8).
    pose proof (Z.div_mod (len bm) 8). pose proof (Z.mod_pos_bound (len bm) 8).
    assert (8 * i < len bm) as Hlt by lia. rewrite Z.min_l by lia.
    cbn [scan_clear]. rewrite (bind_Ok _ _ _ _ _ (get_byte_run bm i ltac:(lia))).
    set (d := default 0 (data bm !! Z.to_nat i)).
    unfold gets at 1. unfold bind at 1. rewrite land7, shiftr3.
    set (last := (i =? (len bm + 7) / 8 - 1) && negb (len bm mod 8 =? 0)).
    set (b := if last then _ else _).
    assert (in_width 8 b) as Hw.
    { subst b. destruct last; [apply land_width|]; apply u8_lnot_width. }
    assert (forall j, 0 <= j < 8 -> 8 * i + j < len bm ->
              Z.testbit b j = negb (bit bm (8 * i + j))) as Hb.
    { intros j Hj Hjl. rewrite bit_of_byte by done. fold d. subst b.
      destruct last eqn:El; [|by apply u8_lnot_testbit].
      rewrite Z.land_spec, low_mask_testbit, u8_lnot_testbit by lia.
      subst last. apply andb_prop in El as [El%Z.eqb_eq El'%negb_true_iff%Z.eqb_neq].
      destruct (Z.ltb_spec j (len bm mod 8)); [by rewrite andb_true_r|lia]. }
    assert (forall j, 0 <= j < 8 -> Z.testbit b j = true -> 8 * i + j < len bm) as Hin.
    { intros j Hj Ht. destruct (Z_lt_le_dec (8 * i + j) (len bm)) as [|Hge]; [done|exfalso].
      subst b. destruct last eqn:El.
      - rewrite Z.land_spec, low_mask_testbit in Ht by lia.
        apply andb_prop in Ht as [_ Ht%Z.ltb_lt]. subst last.
        apply andb_prop in El as [El%Z.eqb_eq El'%negb_true_iff%Z.eqb_neq]. lia.
      - subst last. apply andb_false_iff in El as [El%Z.eqb_neq|El]; [lia|].
        apply negb_false_iff, Z.eqb_eq in El. lia. }
    clearbody b. destruct (b =? 0) eqn:Ez; cbn [negb].
    + destruct (IH bm (i + 1)) as (r & Hr & Hfirst); [done|lia|lia|lia|].
      rewrite shiftr3 in Hr. exists r. split; [done|].
      apply first_bit_skip; [lia| |done]. intros j Hj Hjl. specialize (Hb j Hj Hjl).
      rewrite byte_zero_bits in Hb by done. by destruct (bit bm (8 * i + j)).
    + destruct (low_bit_byte _ bm Hw Ez) as (r & Hr & Hlr & Ht & Hf).
      rewrite (bind_Ok _ _ _ _ _ Hr). unfold ret.
      rewrite Z.shiftl_mul_pow2 by lia. change (2 ^ 3) with 8.
      specialize (Hin r Hlr Ht). exists (8 * i + r).
      split; [do 2 f_equal; lia|]. apply first_bit_here; [lia|lia| |].
      * rewrite Hb in Ht by lia. by destruct (bit bm (8 * i + r)).
      * intros j Hj. specialize (Hf j Hj). rewrite Hb in Hf by lia.
        by destruct (bit bm (8 * i + j)).
Qed.

Lemma first_mask_aligned d : in_width 8 d -> Z.land d (u8 (Z.shiftl 0xff 0)) = d.
Proof.
  intros Hd. change (u8 (Z.shiftl 255 0)) with (Z.ones 8).
  rewrite Z.land_ones by lia. by apply Z.mod_small.
Qed.

Lemma aligned_index i : 0 <= i -> i mod 8 = 0 -> exists k, 0 <= k /\ i = 8 * k /\ i / 8 = k.
Proof.
  intros Hi Hm. exists (i / 8). pose proof (Z.div_mod i 8). pose proof (Z.div_pos i 8). lia.
Qed.

Lemma find_next_set_aligned bm i :
  wf bm -> 0 <= i < len bm -> i mod 8 = 0 ->
  exists r, bitmap_find_next_set i bm = Ok (r, bm) /\ first_bit bm true i r.
Proof.
  intros Hwf Hi Hmod. destruct (aligned_index i) as (k & Hk & Hik & Hdiv); [lia|done|].
  unfold bitmap_find_next_set. unfold gets at 1. unfold bind at 1.
  destruct (Z.leb_spec (len bm) i); [lia|].
  pose proof (wf_byte_idx bm i Hwf Hi) as Hidx. rewrite !shiftr3, land7, Hmod.
  rewrite (bind_Ok _ _ _ _ _ (get_byte_run bm _ Hidx)), Hdiv.
  pose proof (byte_in_width bm (Z.to_nat k) Hwf) as Hw.
  rewrite first_mask_aligned by done.
  destruct (default 0 (data bm !! Z.to_nat k) =? 0) eqn:Ez; cbn [negb].
  - destruct (scan_set_correct (Z.to_nat ((len bm + 7) / 8 - (k + 1))) bm (k + 1))
      as (r & Hr & Hfirst); [done|lia|done| |].
    { apply Z.div_le_lower_bound; lia. }
    exists r. split; [done|]. rewrite Hik. apply first_bit_skip; [lia| |done].
    intros j Hj _. rewrite bit_of_byte by done. by apply byte_zero_bits.
  - destruct (low_bit_byte _ bm Hw Ez) as (r & Hr & Hlr & Ht & Hf).
    rewrite (bind_Ok _ _ _ _ _ Hr). unfold ret.
    rewrite Z.shiftl_mul_pow2 by lia. change (2 ^ 3) with 8.
    assert (bit bm (8 * k + r) = true) as Hb by (rewrite bit_of_byte by lia; done).
    assert (8 * k + r < len bm).
    { destruct (Z_lt_le_dec (8 * k + r) (len bm)); [done|].
      rewrite (wf_tail bm Hwf) in Hb by lia. done. }
    exists (8 * k + r). rewrite Hik. split; [do 2 f_equal; lia|].
    apply first_bit_here; [lia|lia|done|].
    intros j Hj. rewrite bit_of_byte by lia. by apply Hf.
Qed.

Lemma find_next_clear_aligned bm i :
  wf bm -> 0 <= i < len bm -> i mod 8 = 0 ->
  exists r, bitmap_find_next_clear i bm = Ok (r, bm) /\ first_bit bm false i r.
Proof.
  intros Hwf Hi Hmod. destruct (aligned_index i) as (k & Hk & Hik & Hdiv); [lia|done|].
  unfold bitmap_find_next_clear. unfold gets at 1. unfold bind at 1.
  destruct (Z.leb_spec (len bm) i); [lia|].
  pose proof (wf_byte_idx bm i Hwf Hi) as Hidx. rewrite !(shiftr3 i), land7, Hmod.
  rewrite (bind_Ok _ _ _ _ _ (get_byte_run bm _ Hidx)), Hdiv.
  rewrite first_mask_aligned by apply u8_lnot_width.
  set (d := default 0 (data bm !! Z.to_nat k)).
  destruct (u8 (Z.lnot d) =? 0) eqn:Ez; cbn [negb].
  - destruct (scan_clear_correct (Z.to_nat ((len bm + 7) / 8 - (k + 1))) bm (k + 1))
      as (r & Hr & Hfirst); [done|lia|done| |].
    { apply Z.div_le_lower_bound; lia. }
    exists r. rewrite shiftr3 in *. split; [done|]. rewrite Hik.
    apply first_bit_skip; [lia| |done].
    intros j Hj _. rewrite bit_of_byte by done. fold d.
    pose proof (byte_zero_bits _ j Ez) as Hz. rewrite u8_lnot_testbit in Hz by done.
    by destruct (Z.testbit d j).
  - destruct (low_bit_byte _ bm (u8_lnot_width d) Ez) as (r & Hr & Hlr & Ht & Hf).
    rewrite (bind_Ok _ _ _ _ _ Hr). unfold ret.
    rewrite Z.shiftl_mul_pow2 by lia. change (2 ^ 3) with 8.
    assert (forall j, 0 <= j < r -> bit bm (8 * k + j) = true) as Hbelow.
    { intros j Hj. specialize (Hf j Hj). rewrite u8_lnot_testbit in Hf by lia.
      rewrite bit_of_byte by lia. fold d. by destruct (Z.testbit d j). }
    assert (8 * k + r <= len bm).
    { destruct (Z_lt_le_dec (len bm) (8 * k + r)); [|done].
      pose proof (wf_tail bm Hwf (len bm) ltac:(lia)) as Htail.
      destruct (split_byte k (len bm)) as (j & Hj & Ej); [lia|].
      rewrite Ej, Hbelow in Htail by lia. done. }
    exists (8 * k + r). rewrite Hik. split; [do 2 f_equal; lia|].
    apply first_bit_here; [lia|lia| |done].
    rewrite u8_lnot_testbit in Ht by lia. rewrite bit_of_byte by lia. fold d.
    by destruct (Z.testbit d r).
Qed.

(** [C7] Both searches, started at a byte boundary (the slab allocator always
    starts at 0), terminate without leaving the buffer and return the first
    index at or after the start whose bit has the wanted value, or the length
    of the map when there is none. *)
Theorem bitmap_find_next_correct bm i :
  wf bm -> 0 <= i < len bm -> i mod 8 = 0 ->
  (exists r, bitmap_find_next_set i bm = Ok (r, bm) /\ first_bit bm true i r) /\
  (exists r, bitmap_find_next_clear i bm = Ok (r, bm) /\ first_bit bm false i r).
Proof.
  intros. split; [by apply find_next_set_aligned|by apply find_next_clear_aligned].
Qed.

Lemma bitmap_find_next_correct_witness :
  (exists r, bitmap_find_next_set 0 sample_bm = Ok (r, sample_bm) /\
             first_bit sample_bm true 0 r) /\
  (exists r, bitmap_find_next_clear 0 sample_bm = Ok (r, sample_bm) /\
             first_bit sample_bm false 0 r).
Proof. apply (bitmap_find_next_correct sample_bm 0); [apply sample_bm_wf|cbn; lia|done]. Defined.

(** ** Searches that start inside a byte *)

Lemma start_mask_testbit d k j :
  0 <= k < 8 -> 0 <= j < 8 ->
  Z.testbit (Z.land d (u8 (Z.shiftl 0xff k))) j = Z.testbit d j && (k <=? j).
Proof.
  intros Hk Hj. rewrite Z.land_spec, u8_testbit, Z.shiftl_spec by lia.
  change 0xff with (Z.ones 8). destruct (Z.leb_spec k j).
  - rewrite Z.ones_spec_low by lia. done.
  - by rewrite (Z.testbit_neg_r (Z.ones 8)) by lia.
Qed.

Lemma low_bit_byte_eq b r (bm : bitmap) :
  in_width 8 b -> 0 <= r < 8 -> Z.testbit b r = true ->
  (forall j, 0 <= j < r -> Z.testbit b j = false) ->
  low_bit_loop BYTE_FUEL b 0 bm = Ok (r, bm) /\ (b =? 0) = false.
Proof.
  intros Hw Hr Ht Hf.
  assert ((b =? 0) = false) as Hz.
  { apply Z.eqb_neq. intros ->. by rewrite Z.bits_0 in Ht. }
  destruct (low_bit_byte b bm Hw Hz) as (r' & Hr' & Hlr & Ht' & Hf').
  assert (r' = r) as ->; [|done].
  destruct (Z.lt_trichotomy r r') as [Hl|[->|Hl]]; [|done|].
  - rewrite Hf' in Ht by lia. done.
  - rewrite Hf in Ht' by lia. done.
Qed.

Section unaligned_start.
Context (bm : bitmap) (i r : Z).
Context (Hwf : wf bm) (Hi : 0 <= i < len bm) (Hr : r < len bm) (Hsame : r / 8 = i / 8).

Let k := i / 8.

Lemma same_byte_bit j : 0 <= j < 8 ->
  bit bm (8 * k + j) = Z.testbit (default 0 (data bm !! Z.to_nat k)) j.
Proof using. apply bit_of_byte. Qed.

Lemma find_next_set_unaligned :
  first_bit bm true i r -> bitmap_find_next_set i bm = Ok (r + i mod 8, bm).
Proof using Hwf Hi Hr Hsame.
  intros (Hir & Hbelow & Hat).
  pose proof (Z.div_mod i 8). pose proof (Z.mod_pos_bound i 8).
  pose proof (Z.div_mod r 8). pose proof (Z.mod_pos_bound r 8).
  unfold bitmap_find_next_set. unfold gets at 1. unfold bind at 1.
  destruct (Z.leb_spec (len bm) i); [lia|].
  pose proof (wf_byte_idx bm i Hwf Hi) as Hidx. rewrite !shiftr3, land7.
  rewrite (bind_Ok _ _ _ _ _ (get_byte_run bm _ Hidx)). fold k.
  destruct (low_bit_byte_eq
    (Z.land (default 0 (data bm !! Z.to_nat k)) (u8 (Z.shiftl 255 (i mod 8)))) (r mod 8) bm)
    as [Hrun ->].
  - by apply land_width, byte_in_width.
  - lia.
  - rewrite start_mask_testbit, <- same_byte_bit by lia. apply andb_true_intro. split.
    + rewrite <- Hat by done. f_equal. unfold k. lia.
    + apply Z.leb_le. lia.
  - intros j Hj. rewrite start_mask_testbit, <- same_byte_bit by lia.
    destruct (Z.leb_spec (i mod 8) j); [|by rewrite andb_false_r].
    unfold k. rewrite Hbelow by lia. done.
  - cbn [negb]. rewrite (bind_Ok _ _ _ _ _ Hrun). unfold ret.
    rewrite Z.shiftl_mul_pow2 by lia. change (2 ^ 3) with 8. unfold k.
    do 2 f_equal. lia.
Qed.

Lemma find_next_clear_unaligned :
  first_bit bm false i r -> bitmap_find_next_clear i bm = Ok (r + i mod 8, bm).
Proof using Hwf Hi Hr Hsame.
  intros (Hir & Hbelow & Hat).
  pose proof (Z.div_mod i 8). pose proof (Z.mod_pos_bound i 8).
  pose proof (Z.div_mod r 8). pose proof (Z.mod_pos_bound r 8).
  unfold bitmap_find_next_clear. unfold gets at 1. unfold bind at 1.
  destruct (Z.leb_spec (len bm) i); [lia|].
  pose proof (wf_byte_idx bm i Hwf Hi) as Hidx. rewrite !shiftr3, land7.
  rewrite (bind_Ok _ _ _ _ _ (get_byte_run bm _ Hidx)). fold k.
  destruct (low_bit_byte_eq
    (Z.land (u8 (Z.lnot (default 0 (data bm !! Z.to_nat k)))) (u8 (Z.shiftl 255 (i mod 8))))
    (r mod 8) bm) as [Hrun ->].
  - by apply land_width, u8_lnot_width.
  - lia.
  - rewrite start_mask_testbit, u8_lnot_testbit, <- same_byte_bit by lia.
    apply andb_true_intro. split.
    + replace (8 * k + r mod 8) with r by (unfold k; lia). by rewrite Hat.
    + apply Z.leb_le. lia.
  - intros j Hj. rewrite start_mask_testbit, u8_lnot_testbit, <- same_byte_bit by lia.
    destruct (Z.leb_spec (i mod 8) j); [|by rewrite andb_false_r].
    unfold k. rewrite Hbelow by lia. done.
  - cbn [negb]. rewrite (bind_Ok _ _ _ _ _ Hrun). unfold ret.
    rewrite Z.shiftl_mul_pow2 by lia. change (2 ^ 3) with 8. unfold k.
    do 2 f_equal. lia.
Qed.

End unaligned_start.

(** A search started inside a byte is off by the start offset: when the
    sought bit [r] lies in the byte the search starts in, both functions
    return [r + (i & 7)], because the offset found in the unshifted byte is
    added to [bit_off] again.  The result is right only for aligned starts. *)
Theorem bitmap_find_next_unaligned bm i r v :
  wf bm -> 0 <= i < len bm -> r < len bm -> r / 8 = i / 8 -> first_bit bm v i r ->
  (if v then bitmap_find_next_set i bm else bitmap_find_next_clear i bm)
    = Ok (r + i mod 8, bm).
Proof.
  intros. destruct v; [by apply find_next_set_unaligned|by apply find_next_clear_unaligned].
Qed.

(** Bit 10 is the first set bit from 9, but the search returns 11. *)
Lemma bitmap_find_next_unaligned_witness :
  bitmap_find_next_set 9 sample_bm = Ok (10 + 9 mod 8, sample_bm).
Proof.
  apply (bitmap_find_next_unaligned sample_bm 9 10 true); [apply sample_bm_wf|cbn; lia|done|done|].
  split; [cbn; lia|]. split; [|done]. intros j Hj. by replace j with 9 by lia.
Defined.

(** ** Counting clear bits *)

Lemma clear_count_update bm bm' i b :
  len bm' = len bm -> 0 <= i < len bm -> bit bm i = negb b ->
  (forall j, 0 <= j -> bit bm' j = if j =? i then b else bit bm j) ->
  clear_count bm' = if b then clear_count bm - 1 else clear_count bm + 1.
Proof.
  intros Hlen Hi Hb Hbits. unfold clear_count. rewrite Hlen.
  assert (forall j, j <> i -> 0 <= j -> (bit bm' j = false <-> bit bm j = false)) as Hoth.
  { intros j Hj Hpos. rewrite Hbits by done. by destruct (Z.eqb_spec j i). }
  assert (bit bm' i = b) as Hbi by (rewrite Hbits by lia; by rewrite Z.eqb_refl).
  assert (forall j, j ∈ seqZ 0 (len bm) -> 0 <= j) as Hnn by (intros ? ?%elem_of_seqZ; lia).
  pose proof (NoDup_seqZ 0 (len bm)) as Hnd.
  assert (i ∈ seqZ 0 (len bm)) as Hin by (apply elem_of_seqZ; lia).
  destruct b; cbn in Hb.
  - pose proof (length_filter_flip (fun i => bit bm i = false) (fun i => bit bm' i = false)
      i _ Hnd Hin Hb) as H. rewrite H; [lia|by rewrite Hbi|].
    intros j Hj Hj'. symmetry. apply Hoth; [done|by apply Hnn].
  - pose proof (length_filter_flip (fun i => bit bm' i = false) (fun i => bit bm i = false)
      i _ Hnd Hin Hbi) as H. rewrite H; [lia|by rewrite Hb|].
    intros j Hj Hj'. apply Hoth; [done|by apply Hnn].
Qed.

(** A clear bit exists exactly when the count is positive. *)
Lemma clear_count_pos bm :
  0 < clear_count bm <-> exists i, 0 <= i < len bm /\ bit bm i = false.
Proof.
  unfold clear_count. split.
  - intros Hpos. destruct (filter _ _) as [|i l] eqn:E; [cbn in Hpos; lia|].
    assert (i ∈ filter (fun i => bit bm i = false) (seqZ 0 (len bm))) as Hin
      by (rewrite E; set_solver).
    apply list_elem_of_filter in Hin as [Hb Hin%elem_of_seqZ]. exists i. split; [lia|done].
  - intros (i & Hi & Hb).
    assert (i ∈ filter (fun i => bit bm i = false) (seqZ 0 (len bm))) as Hin.
    { apply list_elem_of_filter. split; [done|]. apply elem_of_seqZ. lia. }
    destruct (filter _ _); [by apply elem_of_nil in Hin|cbn; lia].
Qed.
