(* ===== verification/Pm.v ===== *)
(** Physical memory: the layout of [include/mm/layout.h] and the page
    descriptors of [src/mm/pm.c].

    The two symbols the linker provides are the members of the class
    [Layout]; what the linker script and the size of the kernel guarantee
    about them is the class [LayoutOk]. *)

From S2P Require Import Prelude.

Class Layout := { skernel : Z; ekernel : Z }.

Section layout.
Context `{Layout}.

Definition SBI_BASE : Z := PM_START.
Definition KERNEL_BASE : Z := ALIGN_DOWN skernel PAGE_SIZE.
Definition KERNEL_END : Z := ALIGN_UP ekernel PAGE_SIZE.
Definition EARLY_HEAP_BASE : Z := ALIGN_UP (KERNEL_END + PAGE_SIZE) PAGE_SIZE.
Definition EARLY_HEAP_END : Z := EARLY_HEAP_BASE + EARLY_HEAP_SIZE.
Definition BUDDY_SYSTEM_BASE : Z := ALIGN_UP EARLY_HEAP_END BUDDY_BLOB_SIZE.
Definition BUDDY_SYSTEM_END : Z := ALIGN_DOWN PM_END BUDDY_BLOB_SIZE.

End layout.

(** The kernel image lies in RAM and leaves room for a blob of the buddy
    system behind the early heap. *)
Class LayoutOk `{Layout} : Prop := {
  layout_order : PM_START <= skernel <= ekernel;
  layout_room : ekernel + 3 * PAGE_SIZE + 2 * BUDDY_BLOB_SIZE <= PM_END
}.

(** ** Page descriptors *)

Record page := Page { refs : Z; flags : Z; order : Z; private : Z }.

Definition PM_BUDDY : Z := 0x01.
Definition PM_SLAB : Z := 0x02.
Definition PM_STATIC : Z := 0x04.

(** [struct page pages[PAGE_NUM]] lives in the zero-initialised BSS. *)
Definition zero_page : page := Page 0 0 0 NULL.
Abbreviation page_table := (gmap Z page).

Definition page_at (t : page_table) (i : Z) : page := default zero_page (t !! i).

Definition get_page (i : Z) : ST page_table page :=
  load (fun t => if decide (0 <= i < PAGE_NUM) then Some (page_at t i) else None).

Definition upd_page (i : Z) (f : page -> page) : ST page_table unit :=
  store (fun t => if decide (0 <= i < PAGE_NUM)
                  then Some (<[i := f (page_at t i)]> t) else None).

Definition set_refs (v : Z) (p : page) : page := Page v (flags p) (order p) (private p).
Definition set_flags (v : Z) (p : page) : page := Page (refs p) v (order p) (private p).
Definition set_order (v : Z) (p : page) : page := Page (refs p) (flags p) v (private p).
Definition set_private (v : Z) (p : page) : page := Page (refs p) (flags p) (order p) v.

(** ** Addresses and indices *)

Definition addr2index (addr : Z) : Z :=
  if (PM_START <=? addr) && (addr <? PM_END) then (addr - PM_START) / PAGE_SIZE else -1.

Definition index2addr (index : Z) : Z :=
  if (0 <=? index) && (index <? PAGE_NUM) then PM_START + index * PAGE_SIZE else NULL.

(** [addr2page] as the index of the descriptor; [None] is the null pointer. *)
Definition addr2page (addr : Z) : option Z :=
  let index := addr2index addr in
  if index =? -1 then None else Some index.

(** [sizeof(struct page)] on rv64. *)
Definition sizeof_page : Z := 16.

(** The address of a descriptor in the array that starts at [pages], and the
    inverse function of the source on such addresses. *)
Definition page_addr (pages i : Z) : Z := pages + i * sizeof_page.

Definition page2addr (pages p : Z) : Z :=
  if (p =? NULL) || (p <? page_addr pages 0) || (page_addr pages (PAGE_NUM - 1) <? p)
     || negb (ALIGNED p sizeof_page)
  then NULL
  else index2addr ((p - page_addr pages 0) / sizeof_page).

(** ** Initialisation *)

(** [for (addr = lo; addr < hi; addr += PAGE_SIZE)] around the body of the
    four region loops of [pm_pages_init]: an address outside RAM ends the
    function with [-EINVAL]. *)
Fixpoint mark_region (n : nat) (addr : Z) (f : page -> page) : ST page_table (option Z) :=
  match n with
  | O => ret None
  | S n' =>
      let index := addr2index addr in
      if negb (index =? -1) then
        do! upd_page index f in mark_region n' (addr + PAGE_SIZE) f
      else ret (Some (- EINVAL))
  end.

(** The number of iterations of such a loop. *)
Definition region_pages (lo hi : Z) : nat := Z.to_nat ((hi - lo + PAGE_SIZE - 1) / PAGE_SIZE).

Definition mark_static (p : page) : page := set_flags PM_STATIC p.
Definition mark_buddy (p : page) : page :=
  set_private NULL (set_order (BUDDY_MAX_ORDER + 1) (set_flags (Z.lor PM_STATIC PM_BUDDY) p)).

Section init.
Context `{Layout}.

Definition pm_pages_init : ST page_table Z :=
  do! for_up (Z.to_nat PAGE_NUM) 0
        (fun i => upd_page i (fun p => set_flags 0 (set_refs 0 p))) in
  let! r := mark_region (region_pages SBI_BASE KERNEL_BASE) SBI_BASE mark_static in
  match r with Some e => ret e | None =>
  let! r := mark_region (region_pages KERNEL_BASE KERNEL_END) KERNEL_BASE mark_static in
  match r with Some e => ret e | None =>
  let! r := mark_region (region_pages EARLY_HEAP_BASE EARLY_HEAP_END) EARLY_HEAP_BASE
              mark_static in
  match r with Some e => ret e | None =>
  let! r := mark_region (region_pages BUDDY_SYSTEM_BASE BUDDY_SYSTEM_END)
              BUDDY_SYSTEM_BASE mark_buddy in
  match r with Some e => ret e | None => ret 0 end end end end.

(** What the loops establish, by the address of the page. *)
Definition boot_flags (a : Z) : Z :=
  if decide (SBI_BASE <= a < KERNEL_END \/ EARLY_HEAP_BASE <= a < EARLY_HEAP_END)
  then PM_STATIC
  else if decide (BUDDY_SYSTEM_BASE <= a < BUDDY_SYSTEM_END) then Z.lor PM_STATIC PM_BUDDY
  else 0.

End init.

(** The address of the page with descriptor [i]. *)
Definition page_base (i : Z) : Z := PM_START + i * PAGE_SIZE.

(** A layout as the linker produces it for [qemu_virt]. *)
Definition sample_layout : Layout := {| skernel := 0x80200000; ekernel := 0x8022a310 |}.

(** ** Layout facts *)

Lemma page_size_pow : PAGE_SIZE = 2 ^ 12.
Proof. done. Qed.

Lemma blob_size_pow : BUDDY_BLOB_SIZE = 2 ^ 23.
Proof. done. Qed.

Lemma mult_mod a n : 0 < n -> a mod n = 0 <-> exists k, a = n * k.
Proof.
  intros Hn. rewrite Z.mod_divide by lia. split; intros [k ->]; exists k; lia.
Qed.

Section facts.
Context `{HL : Layout} {HOk : LayoutOk}.

(** Every region boundary is page aligned, the regions do not overlap and lie
    in RAM; the buddy region is a nonempty run of aligned blobs. *)
Lemma layout_facts :
  PM_START <= KERNEL_BASE <= KERNEL_END /\ KERNEL_END + PAGE_SIZE <= EARLY_HEAP_BASE /\
  EARLY_HEAP_BASE < EARLY_HEAP_END /\ EARLY_HEAP_END <= BUDDY_SYSTEM_BASE /\
  BUDDY_SYSTEM_BASE + BUDDY_BLOB_SIZE <= BUDDY_SYSTEM_END /\ BUDDY_SYSTEM_END = PM_END /\
  KERNEL_BASE mod PAGE_SIZE = 0 /\ KERNEL_END mod PAGE_SIZE = 0 /\
  EARLY_HEAP_BASE mod PAGE_SIZE = 0 /\ EARLY_HEAP_END mod PAGE_SIZE = 0 /\
  BUDDY_SYSTEM_BASE mod BUDDY_BLOB_SIZE = 0 /\ BUDDY_SYSTEM_END mod BUDDY_BLOB_SIZE = 0.
Proof.
  destruct HOk as [Ho Hr].
  assert (PM_START = 2147483648 /\ PM_END = 2281701376 /\ PAGE_SIZE = 4096 /\
          BUDDY_BLOB_SIZE = 8388608) as (E1 & E2 & E3 & E4) by done.
  rewrite E1, E2, E3, E4 in *.
  unfold KERNEL_BASE. rewrite E3. change 4096 with (2 ^ 12).
  rewrite ALIGN_DOWN_pow2 by (unfold in_width; lia).
  assert (KERNEL_END = (ekernel + 2 ^ 12 - 1) - (ekernel + 2 ^ 12 - 1) mod 2 ^ 12) as EK.
  { unfold KERNEL_END. rewrite E3. apply (ALIGN_UP_pow2 _ 12); lia. }
  assert (KERNEL_END mod 2 ^ 12 = 0) as MK.
  { unfold KERNEL_END. rewrite E3. apply (ALIGN_UP_pow2_aligned _ 12); lia. }
  pose proof (Z.mod_pos_bound (ekernel + 2 ^ 12 - 1) (2 ^ 12) ltac:(lia)).
  assert (EARLY_HEAP_BASE = KERNEL_END + 2 ^ 12) as EH.
  { unfold EARLY_HEAP_BASE. rewrite E3. change 4096 with (2 ^ 12).
    rewrite (ALIGN_UP_pow2 (KERNEL_END + 2 ^ 12) 12) by lia.
    apply mult_mod in MK as [k MK]; [|lia]. rewrite MK.
    replace (2 ^ 12 * k + 2 ^ 12 + 2 ^ 12 - 1) with (2 ^ 12 - 1 + (k + 1) * 2 ^ 12) by lia.
    rewrite Z.mod_add by lia. change ((2 ^ 12 - 1) mod 2 ^ 12) with (2 ^ 12 - 1). lia. }
  assert (EARLY_HEAP_END = EARLY_HEAP_BASE + 2 ^ 12) as EE by done.
  assert (BUDDY_SYSTEM_END = 2281701376) as EB by done.
  pose proof (Z.mod_pos_bound skernel (2 ^ 12) ltac:(lia)).
  assert (2147483648 <= skernel - skernel mod 2 ^ 12) as HKB.
  { pose proof (Z.div_mod skernel (2 ^ 12) ltac:(lia)).
    assert (2147483648 / 2 ^ 12 <= skernel / 2 ^ 12) by (apply Z.div_le_mono; lia).
    change (2147483648 / 2 ^ 12) with 524288 in *. lia. }
  assert (BUDDY_SYSTEM_BASE = EARLY_HEAP_END + 2 ^ 23 - 1 -
            (EARLY_HEAP_END + 2 ^ 23 - 1) mod 2 ^ 23) as EBB.
  { unfold BUDDY_SYSTEM_BASE. rewrite E4. apply (ALIGN_UP_pow2 _ 23); lia. }
  assert (BUDDY_SYSTEM_BASE mod 2 ^ 23 = 0) as MBB.
  { unfold BUDDY_SYSTEM_BASE. rewrite E4. apply (ALIGN_UP_pow2_aligned _ 23); lia. }
  pose proof (Z.mod_pos_bound (EARLY_HEAP_END + 2 ^ 23 - 1) (2 ^ 23) ltac:(lia)).
  change 8388608 with (2 ^ 23).
  assert (EARLY_HEAP_BASE mod 2 ^ 12 = 0) as MEH.
  { rewrite EH, Z.add_mod, MK by lia. done. }
  repeat match goal with |- _ /\ _ => split end; try done; try lia.
  - rewrite Zminus_mod, Z.mod_mod, Z.sub_diag by lia. done.
  - rewrite EE, Z.add_mod, MEH by lia. done.
Qed.

End facts.

Lemma pages_per_ram : PAGE_NUM = 32768.
Proof. done. Qed.

(** Replace the memory constants by their numerals. *)
Ltac mem_nums :=
  change PM_START with 2147483648 in *; change PM_END with 2281701376 in *;
  change PAGE_SIZE with 4096 in *; change PAGE_NUM with 32768 in *;
  change BUDDY_BLOB_SIZE with 8388608 in *.

Lemma addr2index_in a :
  PM_START <= a < PM_END ->
  addr2index a = (a - PM_START) / PAGE_SIZE /\ 0 <= addr2index a < PAGE_NUM.
Proof.
  intros Ha. unfold addr2index.
  destruct (Z.leb_spec PM_START a), (Z.ltb_spec a PM_END); try lia. cbn [andb].
  mem_nums. split; [done|]. split; [apply Z.div_pos; lia|].
  apply Z.div_lt_upper_bound; lia.
Qed.

Lemma addr2page_in a :
  PM_START <= a < PM_END -> addr2page a = Some ((a - PM_START) / PAGE_SIZE).
Proof.
  intros Ha. unfold addr2page. destruct (addr2index_in a Ha) as [E Hb].
  rewrite E in *.
  destruct (Z.eqb_spec ((a - PM_START) / PAGE_SIZE) (-1)); [lia|done].
Qed.

Lemma addr2page_out a : ~ (PM_START <= a < PM_END) -> addr2page a = None.
Proof.
  intros Ha. unfold addr2page, addr2index.
  destruct (Z.leb_spec PM_START a), (Z.ltb_spec a PM_END); done || lia.
Qed.

(** Page descriptors and addresses correspond: for every address the
    descriptor found by [addr2page] exists exactly when the address is in RAM,
    and, with the descriptor array on a 16-byte boundary, [page2addr] of that
    descriptor is the address rounded down to its page. *)
Theorem page_addr_roundtrip pages a :
  0 < pages -> pages mod 16 = 0 -> pages + PAGE_NUM * sizeof_page <= 2 ^ 64 ->
  (addr2page a = None <-> ~ (PM_START <= a < PM_END)) /\
  (forall i, addr2page a = Some i ->
     page2addr pages (page_addr pages i) = ALIGN_DOWN a PAGE_SIZE).
Proof.
  intros Hp Hal Hfit.
  destruct (decide (PM_START <= a < PM_END)) as [Hin|Hout].
  2: { rewrite addr2page_out by done. done. }
  split; [by rewrite addr2page_in|]. intros i Hi.
  rewrite addr2page_in in Hi by done. injection Hi as <-.
  destruct (addr2index_in a Hin) as [Ei Hb]. rewrite Ei in Hb. clear Ei.
  set (i := (a - PM_START) / PAGE_SIZE) in *. unfold page2addr, page_addr, sizeof_page in *.
  rewrite pages_per_ram in *.
  assert (ALIGNED (pages + i * 16) 16 = true) as ->.
  { apply (ALIGNED_pow2 _ 4); [lia|unfold in_width; lia|].
    change (2 ^ 4) with 16. by rewrite Z.mod_add. }
  destruct (Z.eqb_spec (pages + i * 16) NULL); [unfold NULL in *; lia|].
  destruct (Z.ltb_spec (pages + i * 16) (pages + 0 * 16)); [lia|].
  destruct (Z.ltb_spec (pages + (32768 - 1) * 16) (pages + i * 16)); [lia|].
  cbn [orb negb]. replace (pages + i * 16 - (pages + 0 * 16)) with (i * 16) by lia.
  rewrite Z.div_mul by lia. unfold index2addr. rewrite pages_per_ram.
  destruct (Z.leb_spec 0 i), (Z.ltb_spec i 32768); try lia. cbn [andb].
  rewrite page_size_pow, ALIGN_DOWN_pow2; [|lia|unfold in_width; mem_nums; lia].
  subst i. rewrite page_size_pow. pose proof (Z.div_mod (a - PM_START) (2 ^ 12) ltac:(lia)) as Hd.
  assert ((a - PM_START) mod 2 ^ 12 = a mod 2 ^ 12) as Hm.
  { rewrite Zminus_mod. change (PM_START mod 2 ^ 12) with 0. by rewrite Z.sub_0_r, Z.mod_mod. }
  lia.
Qed.

Lemma page_addr_roundtrip_witness :
  (addr2page 0x80200123 = None <-> ~ (PM_START <= 0x80200123 < PM_END)) /\
  (forall i, addr2page 0x80200123 = Some i ->
     page2addr 0x80300000 (page_addr 0x80300000 i) = ALIGN_DOWN 0x80200123 PAGE_SIZE).
Proof. apply (page_addr_roundtrip 0x80300000 0x80200123); done. Defined.

(** ** What the initialisation leaves *)

Lemma addr2index_base i : 0 <= i < PAGE_NUM -> addr2index (page_base i) = i.
Proof.
  intros Hi. unfold page_base. destruct (addr2index_in (PM_START + i * PAGE_SIZE)) as [-> _].
  { mem_nums. lia. }
  replace (PM_START + i * PAGE_SIZE - PM_START) with (i * PAGE_SIZE) by lia.
  by apply Z.div_mul.
Qed.

Lemma page_at_insert t i j p : page_at (<[i := p]> t) j = if decide (j = i) then p else page_at t j.
Proof.
  unfold page_at. case_decide as E; [subst; by rewrite lookup_insert_eq|].
  by rewrite lookup_insert_ne.
Qed.

Lemma upd_page_ok i f t :
  0 <= i < PAGE_NUM -> upd_page i f t = Ok (tt, <[i := f (page_at t i)]> t).
Proof. intros Hi. unfold upd_page, store. by rewrite decide_True. Qed.

(** A region loop over [n] pages of RAM applies its body to exactly the
    descriptors of the region. *)
Lemma mark_region_spec f n : forall k t,
  0 <= k -> k + Z.of_nat n <= PAGE_NUM ->
  exists t', mark_region n (page_base k) f t = Ok (None, t') /\
    forall i, page_at t' i =
      if decide (k <= i < k + Z.of_nat n) then f (page_at t i) else page_at t i.
Proof.
  induction n as [|n IH]; intros k t Hk Hn; cbn [mark_region].
  - exists t. split; [done|]. intros i. rewrite decide_False by lia. done.
  - rewrite addr2index_base by lia. case_Z; [lia|]. cbn [negb].
    rewrite (bind_Ok _ _ _ _ _ (upd_page_ok k f t ltac:(lia))).
    replace (page_base k + PAGE_SIZE) with (page_base (k + 1)) by (unfold page_base; lia).
    destruct (IH (k + 1) (<[k := f (page_at t k)]> t)) as (t' & -> & Ht'); [lia|lia|].
    exists t'. split; [done|]. intros i. rewrite Ht', !page_at_insert.
    destruct (decide (i = k)) as [->|]; repeat case_decide; done || lia.
Qed.

(** The same for a region given by its page-aligned bounds. *)
Lemma mark_region_bounds f lo hi t :
  PM_START <= lo <= hi -> hi <= PM_END -> lo mod PAGE_SIZE = 0 -> hi mod PAGE_SIZE = 0 ->
  exists t', mark_region (region_pages lo hi) lo f t = Ok (None, t') /\
    forall i, page_at t' i =
      if decide (lo <= page_base i < hi) then f (page_at t i) else page_at t i.
Proof.
  intros Hlo Hhi Mlo Mhi.
  apply mult_mod in Mlo as [p ->]; [|done]. apply mult_mod in Mhi as [q ->]; [|done].
  assert (region_pages (PAGE_SIZE * p) (PAGE_SIZE * q) = Z.to_nat (q - p)) as ->.
  { unfold region_pages. f_equal. mem_nums.
    replace (4096 * q - 4096 * p + 4096 - 1) with (4095 + (q - p) * 4096) by lia.
    rewrite Z.div_add by lia. change (4095 / 4096) with 0. lia. }
  destruct (mark_region_spec f (Z.to_nat (q - p)) (p - 524288) t) as (t' & Hr & Ht').
  { mem_nums. lia. } { mem_nums. lia. }
  replace (page_base (p - 524288)) with (PAGE_SIZE * p) in Hr by (unfold page_base; mem_nums; lia).
  exists t'. split; [done|]. intros i. rewrite Ht'.
  apply decide_ext. unfold page_base. mem_nums. lia.
Qed.

Section pm_init.
Context `{HL : Layout} {HOk : LayoutOk}.

Lemma pm_pages_init_spec t :
  exists t', pm_pages_init t = Ok (0, t') /\
    forall i, 0 <= i < PAGE_NUM ->
      refs (page_at t' i) = 0 /\
      flags (page_at t' i) = boot_flags (page_base i) /\
      (BUDDY_SYSTEM_BASE <= page_base i < BUDDY_SYSTEM_END ->
         order (page_at t' i) = BUDDY_MAX_ORDER + 1 /\ private (page_at t' i) = NULL).
Proof.
  pose proof layout_facts as (F1 & F2 & F3 & F4 & F5 & F6 & M1 & M2 & M3 & M4 & M5 & M6).
  assert (HB : 0 < BUDDY_BLOB_SIZE) by done. assert (HP : 0 < PAGE_SIZE) by done.
  assert (Mblob : forall a, a mod BUDDY_BLOB_SIZE = 0 -> a mod PAGE_SIZE = 0).
  { intros a. rewrite !mult_mod by done. intros [k ->]. exists (2048 * k). mem_nums. lia. }
  unfold pm_pages_init.
  destruct (for_up_total (fun j u => forall i, 0 <= i < j ->
              refs (page_at u i) = 0 /\ flags (page_at u i) = 0)
     (fun i => upd_page i (fun p => set_flags 0 (set_refs 0 p))) (Z.to_nat PAGE_NUM) 0 t)
    as (t0 & E0 & H0).
  { intros j u Hj Hu. rewrite Z2Nat.id in Hj by done. rewrite upd_page_ok by done.
    eexists. split; [done|]. intros i Hi. rewrite page_at_insert.
    case_decide; [done|]. apply Hu. lia. }
  { intros; lia. }
  rewrite (bind_Ok _ _ _ _ _ E0), Z2Nat.id in * by done. unfold SBI_BASE.
  destruct (mark_region_bounds mark_static PM_START KERNEL_BASE t0) as (t1 & E1 & H1);
    [lia|lia|done|done|]. rewrite (bind_Ok _ _ _ _ _ E1).
  destruct (mark_region_bounds mark_static KERNEL_BASE KERNEL_END t1) as (t2 & E2 & H2);
    [lia|lia|done|done|]. rewrite (bind_Ok _ _ _ _ _ E2).
  destruct (mark_region_bounds mark_static EARLY_HEAP_BASE EARLY_HEAP_END t2)
    as (t3 & E3 & H3); [lia|lia|done|done|]. rewrite (bind_Ok _ _ _ _ _ E3).
  destruct (mark_region_bounds mark_buddy BUDDY_SYSTEM_BASE BUDDY_SYSTEM_END t3)
    as (t4 & E4 & H4); [lia|lia|auto|auto|]. rewrite (bind_Ok _ _ _ _ _ E4).
  exists t4. split; [done|]. intros i Hi. destruct (H0 i) as [R0 G0]; [lia|].
  unfold boot_flags, SBI_BASE.
  rewrite H4, H3, H2, H1. unfold mark_static, mark_buddy.
  clear - R0 G0 F1 F2 F3 F4 F5 F6 HB HP.
  generalize dependent (page_base i). intros a.
  repeat case_decide; cbn [refs flags order private set_refs set_flags set_order set_private];
    try lia; rewrite ?R0, ?G0; split_and!; reflexivity || lia || (intros; lia).
Qed.

(** [C9] [pm_pages_init] succeeds on every table of descriptors and leaves
    each page with no reference and the flags of its region: static for the
    firmware, the kernel image and the early heap, static and buddy for the
    buddy region (whose pages are also marked as inside a larger block and
    without slab), none for the rest. *)
Theorem pm_pages_init_correct t :
  exists t', pm_pages_init t = Ok (0, t') /\
    forall i, 0 <= i < PAGE_NUM ->
      refs (page_at t' i) = 0 /\
      flags (page_at t' i) = boot_flags (page_base i) /\
      (BUDDY_SYSTEM_BASE <= page_base i < BUDDY_SYSTEM_END ->
         order (page_at t' i) = BUDDY_MAX_ORDER + 1 /\ private (page_at t' i) = NULL).
Proof. exact (pm_pages_init_spec t). Qed.

End pm_init.

Lemma sample_layout_ok : @LayoutOk sample_layout.
Proof. split; [split|]; vm_compute; discriminate. Qed.

Lemma pm_pages_init_correct_witness :
  exists t', @pm_pages_init sample_layout ∅ = Ok (0, t') /\
    forall i, 0 <= i < PAGE_NUM ->
      refs (page_at t' i) = 0 /\
      flags (page_at t' i) = @boot_flags sample_layout (page_base i) /\
      (@BUDDY_SYSTEM_BASE sample_layout <= page_base i < @BUDDY_SYSTEM_END ->
         order (page_at t' i) = BUDDY_MAX_ORDER + 1 /\ private (page_at t' i) = NULL).
Proof. exact (@pm_pages_init_correct sample_layout sample_layout_ok ∅). Defined.
