(* ===== verification/Sync.v ===== *)
(** Interrupt masking and spinlocks: [intr_off]/[intr_on]/[restore_intr] of
    [src/trap/trap.c] and [src/sync/spinlock.c] (built with
    [SPINLOCK_DEBUG]).

    The operations appear twice: as functions on the state of one hart, which
    is how the other components use them, and as the atomic steps of any number
    of harts, for the mutual exclusion that the lock is there for. *)

From S2P Require Import Prelude.

(** ** Interrupt masking *)

(** The members of [struct cpu] that the masking functions use, with the
    [sstatus] register of the hart. *)
Record intr := Intr { sstatus : Z; intr_state : Z; intr_depth : Z }.

Definition SSTATUS_SIE : Z := Z.shiftl 1 1.

Definition intr_off : ST intr unit :=
  let! c := get in
  do! (if intr_depth c =? 0
       then modify (fun c => Intr (and_not (sstatus c) SSTATUS_SIE) (sstatus c) (intr_depth c))
       else ret tt) in
  modify (fun c => Intr (sstatus c) (intr_state c) (s32 (intr_depth c + 1))).

Definition intr_on : ST intr unit :=
  let! c := get in
  if intr_depth c <=? 0 then panic else
  do! modify (fun c => Intr (sstatus c) (intr_state c) (s32 (intr_depth c - 1))) in
  let! c := get in
  if intr_depth c =? 0
  then modify (fun c => Intr (intr_state c) (intr_state c) (intr_depth c))
  else ret tt.

Definition restore_intr (old : Z) : ST intr unit :=
  modify (fun _ => Intr old old 0).

(** Interrupts can be taken. *)
Definition intr_enabled (c : intr) : bool := Z.testbit (sstatus c) 1.

(** ** Spinlocks, as one hart uses them *)

Record spinlock := Lock { locked : Z; owner : Z }.

Definition SPINLOCK_INITIALIZER : spinlock := Lock 0 (u64 (-1)).

(** A hart that runs alone: its interrupt state and a lock. *)
Record hart_lock := HL { hl_intr : intr; hl_lock : spinlock }.

Definition on_intr {A} (m : ST intr A) : ST hart_lock A :=
  lift hl_intr (fun c s => HL c (hl_lock s)) m.

(** The exchange loop never ends when another hart holds the lock and no step
    of that hart is taken: [NoFuel]. *)
Definition spinlock_acquire_bare (hart : Z) : ST hart_lock unit :=
  let! l := gets hl_lock in
  if negb (locked l =? 0) && (owner l =? hart) then panic else
  do! on_intr intr_off in
  let! l := gets hl_lock in
  if locked l =? 0 then
    modify (fun s => HL (hl_intr s) (Lock 1 hart))
  else no_fuel.

Definition spinlock_release_bare (hart : Z) : ST hart_lock unit :=
  let! l := gets hl_lock in
  if locked l =? 0 then panic else
  if negb (owner l =? hart) then panic else
  do! modify (fun s => HL (hl_intr s) (Lock 0 (u64 (-1)))) in
  on_intr intr_on.

Definition spinlock_holding (hart : Z) (l : spinlock) : bool :=
  negb (locked l =? 0) && (owner l =? hart).

(** ** A hart with many locks *)

Inductive lock_op := Acquire (l : Z) | Release (l : Z).

Record hart := Hart { h_intr : intr; h_locks : gmap Z spinlock }.

Definition get_lock (s : hart) (l : Z) : spinlock :=
  default SPINLOCK_INITIALIZER (h_locks s !! l).

#[global] Arguments get_lock : simpl never.

Definition with_lock (l : Z) {A} (m : ST hart_lock A) : ST hart A :=
  lift (fun s => HL (h_intr s) (get_lock s l))
       (fun t s => Hart (hl_intr t) (<[l := hl_lock t]> (h_locks s))) m.

Definition run_lock_op (h : Z) (o : lock_op) : ST hart unit :=
  match o with
  | Acquire l => with_lock l (spinlock_acquire_bare h)
  | Release l => with_lock l (spinlock_release_bare h)
  end.

Fixpoint run_lock_ops (h : Z) (os : list lock_op) : ST hart unit :=
  match os with
  | [] => ret tt
  | o :: os => do! run_lock_op h o in run_lock_ops h os
  end.

(** The locks a hart holds after a sequence of operations, [None] when the
    sequence acquires a lock it holds or releases one it does not. *)
Fixpoint held_after (held : gset Z) (os : list lock_op) : option (gset Z) :=
  match os with
  | [] => Some held
  | Acquire l :: os => if decide (l ∈ held) then None else held_after ({[l]} ∪ held) os
  | Release l :: os => if decide (l ∈ held) then held_after (held ∖ {[l]}) os else None
  end.

(** ** The lock among several harts

    One constructor per access to the shared lock; the local variables of a
    hart are in its program counter. *)

Inductive pc :=
  | Outside
  | Checked                 (* past the debug check of acquire *)
  | Exchanged               (* the exchange returned 0 *)
  | Critical                (* acquire has returned *)
  | Releasing               (* past the two checks of release *)
  | Disowned                (* lock->owner = -1 has been executed *)
  | Panicked.

Record smp := SMP { the_lock : spinlock; at_pc : Z -> pc }.

Definition goto (h : Z) (p : pc) (f : Z -> pc) : Z -> pc :=
  fun k => if decide (k = h) then p else f k.

Inductive smp_step (h : Z) : smp -> smp -> Prop :=
  | step_check l f :
      f h = Outside ->
      smp_step h (SMP l f) (SMP l (goto h (if spinlock_holding h l then Panicked else Checked) f))
  | step_exchange_ok l f :
      f h = Checked -> locked l = 0 ->
      smp_step h (SMP l f) (SMP (Lock 1 (owner l)) (goto h Exchanged f))
  | step_exchange_fail l f :
      f h = Checked -> locked l <> 0 ->
      smp_step h (SMP l f) (SMP (Lock 1 (owner l)) f)
  | step_own l f :
      f h = Exchanged ->
      smp_step h (SMP l f) (SMP (Lock (locked l) h) (goto h Critical f))
  | step_release_check l f :
      f h = Critical ->
      smp_step h (SMP l f)
        (SMP l (goto h (if (locked l =? 0) || negb (owner l =? h) then Panicked else Releasing) f))
  | step_disown l f :
      f h = Releasing ->
      smp_step h (SMP l f) (SMP (Lock (locked l) (u64 (-1))) (goto h Disowned f))
  | step_unlock l f :
      f h = Disowned ->
      smp_step h (SMP l f) (SMP (Lock 0 (owner l)) (goto h Outside f)).

(** Any hart [0 <= h < n] may take the next step. *)
Definition smp_next (n : Z) (s s' : smp) : Prop := exists h, 0 <= h < n /\ smp_step h s s'.

Definition smp_init : smp := SMP SPINLOCK_INITIALIZER (fun _ => Outside).

(** The hart is between the successful exchange and the final store. *)
Definition inside (p : pc) : bool :=
  match p with Exchanged | Critical | Releasing | Disowned => true | _ => false end.

(** The hart owns the lock: the two assignments to [owner] enclose these. *)
Definition owning (p : pc) : bool :=
  match p with Critical | Releasing => true | _ => false end.

(** ** Masking *)

Lemma testbit_sie z : Z.testbit (and_not z SSTATUS_SIE) 1 = false.
Proof. unfold and_not. rewrite Z.ldiff_spec. by rewrite andb_false_r. Qed.

(** The state of a hart that runs with [n] open critical sections, entered
    with status [st]. *)
Definition intr_ok (st : Z) (n : nat) (c : intr) : Prop :=
  intr_depth c = Z.of_nat n /\
  match n with
  | O => sstatus c = st
  | _ => sstatus c = and_not st SSTATUS_SIE /\ intr_state c = st
  end.

Lemma intr_off_spec st n c :
  intr_ok st n c -> Z.of_nat n + 1 < 2 ^ 31 ->
  wp False intr_off (fun _ c' => intr_ok st (S n) c') c.
Proof.
  intros [Hd Hs] Hn. unfold intr_off, wp, bind, get. cbn. rewrite Hd.
  destruct n as [|n]; case_Z; try lia; unfold modify, ret, intr_ok; cbn;
    rewrite swrap_small by lia; split; try lia; naive_solver.
Qed.

Lemma intr_on_spec st n c :
  intr_ok st (S n) c -> Z.of_nat n + 1 < 2 ^ 31 ->
  wp False intr_on (fun _ c' => intr_ok st n c') c.
Proof.
  intros [Hd [Hs Hi]] Hn. unfold intr_on, wp, bind, get. rewrite Hd. case_Z; [lia|]. cbn.
  rewrite Hd, swrap_small by lia. unfold intr_ok.
  destruct n as [|n]; case_Z; try lia; cbn; split; done || lia.
Qed.

(** ** Nested critical sections of one hart *)

(** A hart that holds exactly the locks of [held] and entered the outermost
    section with status [st]. *)
Definition hart_ok (h st : Z) (held : gset Z) (s : hart) : Prop :=
  intr_ok st (size held) (h_intr s) /\
  forall l, get_lock s l = if decide (l ∈ held) then Lock 1 h else SPINLOCK_INITIALIZER.

Lemma get_lock_insert c m l x k :
  get_lock (Hart c (<[l := x]> m)) k = if decide (k = l) then x else default SPINLOCK_INITIALIZER (m !! k).
Proof.
  unfold get_lock. cbn. case_decide as E; [subst; by rewrite lookup_insert_eq|].
  by rewrite lookup_insert_ne.
Qed.

(** Acquiring a free lock and releasing a held one, inside [n] sections. *)
Lemma acquire_bare_spec h st n c :
  intr_ok st n c -> Z.of_nat n + 1 < 2 ^ 31 ->
  wp False (spinlock_acquire_bare h)
    (fun _ s => intr_ok st (S n) (hl_intr s) /\ hl_lock s = Lock 1 h)
    (HL c SPINLOCK_INITIALIZER).
Proof.
  intros Hi Hn. unfold spinlock_acquire_bare. apply wp_bind, wp_gets. cbn.
  apply wp_bind, wp_lift. eapply wp_mono; [by apply intr_off_spec|done|].
  cbn. intros [] c' Hc'. apply wp_bind, wp_gets. cbn. by apply wp_modify.
Qed.

Lemma release_bare_spec h st n c :
  intr_ok st (S n) c -> Z.of_nat n + 1 < 2 ^ 31 ->
  wp False (spinlock_release_bare h)
    (fun _ s => intr_ok st n (hl_intr s) /\ hl_lock s = SPINLOCK_INITIALIZER)
    (HL c (Lock 1 h)).
Proof.
  intros Hi Hn. unfold spinlock_release_bare. apply wp_bind, wp_gets. cbn.
  rewrite Z.eqb_refl. cbn. apply wp_bind, wp_modify, wp_lift. cbn.
  eapply wp_mono; [by apply intr_on_spec|done|]. done.
Qed.

Lemma acquire_spec h st held l s :
  hart_ok h st held s -> l ∉ held -> Z.of_nat (size held) + 1 < 2 ^ 31 ->
  wp False (run_lock_op h (Acquire l)) (fun _ s' => hart_ok h st ({[l]} ∪ held) s') s.
Proof.
  intros [Hi Hl] Hnl Hn. apply wp_lift. rewrite Hl, decide_False by done.
  eapply wp_mono; [by apply acquire_bare_spec|done|].
  intros [] [c' x] [Hc ->]; cbn in *. split; cbn.
  - by rewrite size_union, size_singleton by set_solver.
  - intros k. rewrite get_lock_insert. specialize (Hl k). unfold get_lock in Hl. rewrite Hl.
    repeat case_decide; set_solver.
Qed.

Lemma release_spec h st held l s :
  hart_ok h st held s -> l ∈ held -> Z.of_nat (size held) < 2 ^ 31 ->
  wp False (run_lock_op h (Release l)) (fun _ s' => hart_ok h st (held ∖ {[l]}) s') s.
Proof.
  intros [Hi Hl] Hin Hn. apply wp_lift. rewrite Hl, decide_True by done.
  assert (size held = S (size (held ∖ {[l]}))) as Hsz.
  { rewrite (union_difference_singleton_L l held) at 1 by done.
    by rewrite size_union, size_singleton by set_solver. }
  rewrite Hsz in Hi. eapply wp_mono; [apply release_bare_spec; [done|lia]|done|].
  intros [] [c' x] [Hc ->]; cbn in *. split; cbn; [done|].
  intros k. rewrite get_lock_insert. specialize (Hl k). unfold get_lock in Hl. rewrite Hl.
  repeat case_decide; set_solver.
Qed.

Lemma run_lock_ops_spec h st os : forall held held' s,
  hart_ok h st held s -> held_after held os = Some held' ->
  Z.of_nat (size held) + Z.of_nat (length os) < 2 ^ 31 ->
  wp False (run_lock_ops h os) (fun _ s' => hart_ok h st held' s') s.
Proof.
  induction os as [|[l|l] os IH]; intros held held' s Hok Ha Hn; cbn [run_lock_ops held_after length] in *.
  - by injection Ha as <-.
  - case_decide; [done|]. eapply wp_bind_mono; [apply (acquire_spec h st held); [done..|lia]|].
    cbn. intros [] s' Hs'. eapply IH; [done..|].
    rewrite size_union, size_singleton by set_solver. lia.
  - case_decide; [|done]. eapply wp_bind_mono; [apply (release_spec h st held); [done..|lia]|].
    cbn. intros [] s' Hs'. eapply IH; [done..|].
    assert (size (held ∖ {[l]}) <= size held)%nat by (apply subseteq_size; set_solver). lia.
Qed.

(** [C5] Critical sections of one hart nest, in any order of release: a
    sequence of operations that never acquires a lock the hart holds nor
    releases one it does not hold runs without panic and without spinning;
    while a lock is held interrupts are masked, and once all are released the
    status register is what it was. *)
Theorem critical_sections_nest h os held' s :
  Z.of_nat (length os) < 2 ^ 31 ->
  intr_depth (h_intr s) = 0 -> h_locks s = ∅ -> held_after ∅ os = Some held' ->
  exists s', run_lock_ops h os s = Ok (tt, s') /\
    (forall l, spinlock_holding h (get_lock s' l) = bool_decide (l ∈ held')) /\
    (held' <> ∅ -> intr_enabled (h_intr s') = false) /\
    (held' = ∅ -> sstatus (h_intr s') = sstatus (h_intr s) /\ intr_depth (h_intr s') = 0).
Proof.
  intros Hlen Hd Hm Ha.
  pose proof (run_lock_ops_spec h (sstatus (h_intr s)) os ∅ held' s) as Hrun.
  apply wp_total in Hrun as ([] & s' & Hr & [Hi Hl]); [|split|done|by rewrite size_empty].
  2: { rewrite size_empty. split; [by rewrite Hd|done]. }
  2: { intros l. unfold get_lock. by rewrite Hm, lookup_empty. }
  exists s'. split; [done|]. split_and!.
  - intros l. rewrite Hl. unfold spinlock_holding.
    case_decide; cbn; [rewrite Z.eqb_refl|]; symmetry;
      [by apply bool_decide_eq_true|by apply bool_decide_eq_false].
  - intros Hne. destruct Hi as [_ Hi]. destruct (size held') eqn:E.
    { apply size_empty_inv in E. by apply leibniz_equiv in E. }
    unfold intr_enabled. destruct Hi as [-> _]. apply testbit_sie.
  - intros ->. rewrite size_empty in Hi. destruct Hi as [-> ->]. done.
Qed.

Lemma critical_sections_nest_witness :
  exists s', run_lock_ops 0 [Acquire 1; Acquire 2; Release 1] (Hart (Intr 2 0 0) ∅) = Ok (tt, s') /\
    (forall l, spinlock_holding 0 (get_lock s' l) = bool_decide (l ∈ ({[2]} : gset Z))) /\
    (({[2]} : gset Z) <> ∅ -> intr_enabled (h_intr s') = false) /\
    (({[2]} : gset Z) = ∅ -> sstatus (h_intr s') = 2 /\ intr_depth (h_intr s') = 0).
Proof. apply (critical_sections_nest 0 _ {[2]} (Hart (Intr 2 0 0) ∅)); vm_compute; done. Defined.

(** ** Mutual exclusion *)


Record smp_inv (n : Z) (s : smp) : Prop := {
  inv_range h : at_pc s h <> Outside -> 0 <= h < n;
  inv_excl h k : inside (at_pc s h) -> inside (at_pc s k) -> h = k;
  inv_locked : locked (the_lock s) = 0 \/ exists h, inside (at_pc s h);
  inv_inside h : inside (at_pc s h) -> locked (the_lock s) = 1;
  inv_owner h : owning (at_pc s h) -> owner (the_lock s) = h;
  inv_owning h : 0 <= h < n -> owner (the_lock s) = h -> owning (at_pc s h);
  inv_calm h : at_pc s h <> Panicked
}.

Lemma goto_eq h p f : goto h p f h = p.
Proof. unfold goto. by rewrite decide_True. Qed.

Lemma goto_ne h k p f : k <> h -> goto h p f k = f k.
Proof. intros. unfold goto. by rewrite decide_False. Qed.

Lemma owning_inside p : owning p -> inside p.
Proof. by destruct p. Qed.

(** The hart that [owner] names is inside, so its program counter is known. *)
Ltac owner_is h :=
  match goal with
  | IW : (forall k, 0 <= k < _ -> owner _ = k -> Is_true (owning _)), Hf : ?f h = _ |- _ =>
      let E := fresh "E" in
      exfalso; assert (Is_true (owning (f h))) as E by (apply IW; done || congruence);
      by rewrite Hf in E
  end.

(** Case analysis on whether the hart asked about is the one that moved. *)
Ltac goto_cases :=
  repeat match goal with
  | H : context [goto ?h _ _ ?k] |- _ =>
      destruct (decide (k = h)) as [->|]; [rewrite !goto_eq in *|rewrite !(goto_ne h k) in * by done]
  | |- context [goto ?h _ _ ?k] =>
      destruct (decide (k = h)) as [->|]; [rewrite !goto_eq in *|rewrite !(goto_ne h k) in * by done]
  end.

Lemma smp_step_inv n h s s' :
  n <= u64 (-1) -> 0 <= h < n -> smp_inv n s -> smp_step h s s' -> smp_inv n s'.
Proof.
  intros Hn Hh [IR IE IL II IO IW IC] Hst.
  inversion Hst as [l f Hf|l f Hf Hl|l f Hf Hl|l f Hf|l f Hf|l f Hf|l f Hf]; subst s s'; cbn in *.
  - (* check *)
    assert (spinlock_holding h l = false) as ->.
    { unfold spinlock_holding. destruct (Z.eqb_spec (owner l) h) as [E|]; [|by rewrite andb_false_r].
      owner_is h. }
    split; cbn; intros; goto_cases; try done; eauto; try owner_is h.
    destruct IL as [|[k Hk]]; [by left|]. right. exists k. goto_cases; [by rewrite Hf in Hk|done].
  - (* successful exchange *)
    split; cbn; intros; goto_cases; try done; eauto; try owner_is h.
    + exfalso. assert (locked l = 1) by eauto. lia.
    + exfalso. assert (locked l = 1) by eauto. lia.
    + right. exists h. by rewrite goto_eq.
  - (* failed exchange *)
    split; cbn; eauto. destruct IL as [|IL]; [done|by right].
  - (* owner set *)
    assert (inside (f h)) as Hin by (by rewrite Hf).
    split; cbn; intros; goto_cases; try done; eauto; try congruence.
    + right. exists h. by rewrite goto_eq.
    + symmetry. eauto using owning_inside.
  - (* checks of release *)
    assert (inside (f h)) as Hin by (by rewrite Hf).
    assert (owner l = h) as Ho by (apply IO; by rewrite Hf).
    assert ((locked l =? 0) || negb (owner l =? h) = false) as ->.
    { by rewrite (II h Hin), Ho, Z.eqb_refl. }
    split; cbn; intros; goto_cases; try done; eauto.
    right. exists h. by rewrite goto_eq.
  - (* owner cleared *)
    assert (inside (f h)) as Hin by (by rewrite Hf).
    split; cbn; intros; goto_cases; try done; eauto; try lia.
    + right. exists h. by rewrite goto_eq.
    + exfalso. eauto using owning_inside.
  - (* lock released *)
    assert (inside (f h)) as Hin by (by rewrite Hf).
    split; cbn; intros; goto_cases; try done; eauto; try owner_is h.
    exfalso. eauto.
Qed.

Lemma smp_init_inv n : 0 <= n <= u64 (-1) -> smp_inv n smp_init.
Proof.
  intros Hn. split; cbn; try done; [by left|].
  intros h Hh E. exfalso. change (u64 (-1)) with 18446744073709551615 in *. lia.
Qed.

(** [C4] Mutual exclusion: in every state that any interleaving of the harts'
    accesses reaches, at most one hart is between its acquisition and its
    release, the lock records that hart while it is in the critical section,
    the lock word is set exactly while some hart is inside, and neither the
    recursion check of acquire nor the checks of release have fired. *)
Theorem spinlock_mutual_exclusion n s :
  0 <= n <= u64 (-1) -> rtc (smp_next n) smp_init s ->
  (forall h k, inside (at_pc s h) -> inside (at_pc s k) -> h = k) /\
  (forall h, at_pc s h = Critical -> owner (the_lock s) = h) /\
  (locked (the_lock s) <> 0 <-> exists h, inside (at_pc s h)) /\
  (forall h, at_pc s h <> Panicked).
Proof.
  intros Hn Hrun. assert (smp_inv n s) as [IR IE IL II IO IW IC].
  { eapply (rtc_ind_r (fun s => smp_inv n s) smp_init); [by apply smp_init_inv| |exact Hrun].
    intros t t' _ (h & Hh & Hst) Ht. by eapply smp_step_inv; [|exact Hh|..]; [lia|..]. }
  split_and!; [done|by intros h Hh; apply IO; rewrite Hh| |done].
  split; [by intros ?; destruct IL|intros [h Hh]]. rewrite (II h Hh). done.
Qed.

Lemma spinlock_mutual_exclusion_witness :
  let f := goto 1 Checked (goto 0 Exchanged (goto 0 Checked (fun _ => Outside))) in
  let s := SMP (Lock 1 (u64 (-1))) f in
  (forall h k, inside (at_pc s h) -> inside (at_pc s k) -> h = k) /\
  (forall h, at_pc s h = Critical -> owner (the_lock s) = h) /\
  (locked (the_lock s) <> 0 <-> exists h, inside (at_pc s h)) /\
  (forall h, at_pc s h <> Panicked).
Proof.
  apply (spinlock_mutual_exclusion 2); [vm_compute; split; discriminate|].
  eapply rtc_l; [exists 0; split; [lia|by apply (step_check 0 SPINLOCK_INITIALIZER (fun _ => Outside))]|].
  eapply rtc_l; [exists 0; split; [lia|by apply (step_exchange_ok 0)]|].
  eapply rtc_l; [exists 1; split; [lia|by apply (step_check 1)]|].
  apply rtc_refl.
Defined.
