(* ===== verification/Early.v ===== *)
(** The early heap, [src/mm/early.c], and the interface of the allocators
    that hold the metadata of the buddy system: [early_alloc] before
    [kalloc_init], [kmalloc] after it. *)

From S2P Require Import Prelude Pm.

(** ** The interface

    [own m X n]: the allocator in state [m] has handed out the live pointers
    [X], and its next [n] allocations succeed. *)

Class MetaAlloc (M : Type) := {
  meta_alloc : ST M Z;
  meta_free : Z -> ST M unit
}.

Class MetaAllocOk (M : Type) `{MetaAlloc M} (own : M -> gset Z -> nat -> Prop) : Prop := {
  meta_alloc_ok m X n :
    own m X n ->
    wp (n = O) meta_alloc
      (fun p m' => (p = NULL /\ n = O /\ own m' X O) \/
                   (p <> NULL /\ p ∉ X /\ own m' ({[p]} ∪ X) (pred n))) m;
  meta_free_ok m X n p :
    own m X n -> p ∈ X -> wp False (meta_free p) (fun _ m' => own m' (X ∖ {[p]}) n) m
}.

(** ** The bump allocator *)

Record early := Early { early_brk : Z; kalloc_inited : bool }.

(** [sizeof(struct mem_block)]: a pointer and a list head. *)
Definition sizeof_mem_block : Z := 24.

Section early.
Context `{Layout}.

Definition early_init : ST early unit :=
  modify (fun s => Early EARLY_HEAP_BASE (kalloc_inited s)).

Definition is_early_mem (s : early) (ptr : Z) : bool :=
  (EARLY_HEAP_BASE <=? ptr) && (ptr <? early_brk s).

Definition early_alloc (size : Z) : ST early Z :=
  let! s := get in
  if kalloc_inited s then panic else
  let size := ALIGN_UP size 8 in
  if EARLY_HEAP_END <=? u64 (early_brk s + size) then panic else
  let ptr := early_brk s in
  do! modify (fun s => Early (u64 (early_brk s + size)) (kalloc_inited s)) in
  ret ptr.

(** The requests of a client, in order. *)
Fixpoint early_allocs (sizes : list Z) : ST early (list Z) :=
  match sizes with
  | [] => ret []
  | n :: sizes =>
      let! p := early_alloc n in
      let! ps := early_allocs sizes in
      ret (p :: ps)
  end.

(** The metadata blocks of the buddy system during boot: [free_mem_block]
    ignores a block of the early heap. *)
Definition early_free (ptr : Z) : ST early unit :=
  let! s := get in
  if is_early_mem s ptr then ret tt else fault.

#[global] Instance early_meta : MetaAlloc early := {
  meta_alloc := early_alloc sizeof_mem_block;
  meta_free := early_free
}.

Definition early_own (s : early) (X : gset Z) (n : nat) : Prop :=
  kalloc_inited s = false /\ EARLY_HEAP_BASE <= early_brk s < EARLY_HEAP_END /\
  (forall x, x ∈ X -> EARLY_HEAP_BASE <= x < early_brk s) /\
  (n <> O -> early_brk s + sizeof_mem_block * Z.of_nat n < EARLY_HEAP_END).

(** Requests [ns] answered by [ps] in a heap that starts at [lo] and ends
    below [hi]: every answer is aligned, and the objects follow one another. *)
Fixpoint laid_out (lo hi : Z) (ns ps : list Z) : Prop :=
  match ns, ps with
  | [], [] => lo < hi
  | n :: ns, p :: ps => lo <= p /\ p mod 8 = 0 /\ laid_out (p + n) hi ns ps
  | _, _ => False
  end.

(** The heap that remains after rounding every request up to 8 bytes. *)
Fixpoint rounded (ns : list Z) : Z :=
  match ns with [] => 0 | n :: ns => (n + 7) / 8 * 8 + rounded ns end.

End early.

Section early_facts.
Context `{HL : Layout} {HOk : LayoutOk}.

Lemma heap_bounds : 0 < EARLY_HEAP_BASE /\ EARLY_HEAP_END < 2 ^ 32.
Proof.
  pose proof layout_facts as (?&?&?&?&?&E&_). rewrite E in *. mem_nums. lia.
Qed.

Lemma early_alloc_spec n s :
  kalloc_inited s = false -> EARLY_HEAP_BASE <= early_brk s < EARLY_HEAP_END ->
  0 <= n < 2 ^ 63 ->
  wp (EARLY_HEAP_END <= early_brk s + (n + 7) / 8 * 8) (early_alloc n)
    (fun p s' => p = early_brk s /\
       s' = Early (early_brk s + (n + 7) / 8 * 8) false /\ early_brk s' < EARLY_HEAP_END) s.
Proof.
  intros Hk Hb Hn. pose proof heap_bounds. unfold early_alloc. apply wp_bind, wp_gets.
  rewrite Hk, align8 by done. pose proof (Z.div_mod (n + 7) 8 ltac:(lia)).
  pose proof (Z.mod_pos_bound (n + 7) 8 ltac:(lia)).
  rewrite wrap_small by (unfold in_width; lia). case_Z; [by apply wp_panic|].
  apply wp_bind, wp_modify, wp_ret. rewrite wrap_small by (unfold in_width; lia). rewrite Hk. done.
Qed.

#[global] Instance early_meta_ok : MetaAllocOk early early_own.
Proof.
  split.
  - intros m X n (Hk & Hb & HX & Hn). pose proof heap_bounds.
    eapply wp_mono; [by apply early_alloc_spec|..]; unfold sizeof_mem_block in *.
    + change ((24 + 7) / 8 * 8) with 24. intros Hfull. destruct n; [done|]. lia.
    + intros p m' (-> & -> & Hlt). change ((24 + 7) / 8 * 8) with 24 in *. cbn in *.
      right. split_and!; [unfold NULL; lia| |].
      * intros Hin. apply HX in Hin. lia.
      * unfold early_own, sizeof_mem_block. cbn. split_and!; [done|lia|lia| |].
        -- intros x [->%elem_of_singleton|Hx]%elem_of_union; [lia|]. apply HX in Hx. lia.
        -- intros Hp. destruct n as [|n]; [done|]. lia.
  - intros m X n p (Hk & Hb & HX & Hn) Hp. cbn. unfold early_free.
    apply wp_bind, wp_gets. unfold is_early_mem. pose proof (HX _ Hp).
    case_Z; try lia. apply wp_ret. split_and!; [done|lia|lia|set_solver|done].
Qed.

Lemma early_allocs_spec ns : forall s,
  kalloc_inited s = false -> EARLY_HEAP_BASE <= early_brk s < EARLY_HEAP_END ->
  early_brk s mod 8 = 0 -> Forall (fun n => 0 < n < 2 ^ 63) ns ->
  wp (EARLY_HEAP_END <= early_brk s + rounded ns) (early_allocs ns)
    (fun ps s' => laid_out (early_brk s) EARLY_HEAP_END ns ps /\
       early_brk s' = early_brk s + rounded ns /\ early_brk s' < EARLY_HEAP_END /\
       Forall (fun p => is_early_mem s' p) ps) s.
Proof.
  assert (Hr : forall ns, Forall (fun n => 0 < n < 2 ^ 63) ns -> 0 <= rounded ns).
  { induction 1; cbn; [lia|]. pose proof (Z.div_pos (x + 7) 8). lia. }
  induction ns as [|n ns IH]; intros s Hk Hb Ha Hns; cbn [early_allocs rounded laid_out].
  - apply wp_ret. split_and!; [lia|lia|lia|done].
  - apply Forall_cons in Hns as [Hn Hns]. pose proof (Hr ns Hns).
    pose proof (Z.div_pos (n + 7) 8). pose proof (Z.div_mod (n + 7) 8 ltac:(lia)).
    pose proof (Z.mod_pos_bound (n + 7) 8 ltac:(lia)).
    apply wp_bind. eapply wp_mono; [apply early_alloc_spec; [done|done|lia]|lia|].
    intros p s1 (-> & -> & Hlt). cbn in Hlt. apply wp_bind.
    eapply wp_mono; [apply IH; cbn; [done|lia| |done]|cbn; lia|].
    { by rewrite Z.mod_add by lia. }
    cbn. intros ps s' (Hl & Hb' & Hlt' & Hps). apply wp_ret. split_and!; [lia|done| |lia|lia|].
    + destruct ns as [|m ns], ps as [|q ps]; cbn in *; try done; [lia|].
      destruct Hl as (? & ? & ?). split_and!; [lia|done|done].
    + constructor; [|done]. unfold is_early_mem. case_Z; cbn; done || lia.
Qed.

(** [C8] The early heap: a sequence of requests made before the allocator is
    switched off is answered in full, and panics only when the requests, each
    rounded up to eight bytes, do not fit below the end of the heap; the
    objects are eight-byte aligned, lie inside the heap and do not overlap,
    and [is_early_mem] recognises each nonempty one. *)
Theorem early_allocs_correct ns s :
  kalloc_inited s = false -> Forall (fun n => 0 < n < 2 ^ 63) ns ->
  wp (EARLY_HEAP_END <= EARLY_HEAP_BASE + rounded ns)
    (do! early_init in early_allocs ns)
    (fun ps s' => laid_out EARLY_HEAP_BASE EARLY_HEAP_END ns ps /\
       Forall (fun p => is_early_mem s' p) ps) s.
Proof.
  intros Hk Hns. pose proof layout_facts as (_ & _ & F3 & _ & _ & _ & _ & _ & M & _).
  assert (EARLY_HEAP_BASE mod 8 = 0) as M8.
  { apply mult_mod in M as [k ->]; [|done]. mem_nums.
    replace (4096 * k) with (512 * k * 8) by lia. by apply Z.mod_mul. }
  apply wp_bind, wp_modify. rewrite Hk.
  eapply wp_mono; [apply early_allocs_spec; cbn; [done|lia|done|done]|done|].
  cbn. intros ps s' (Hl & Hb & Hlt & Hps). done.
Qed.

End early_facts.

Lemma early_allocs_correct_witness :
  wp (@EARLY_HEAP_END sample_layout <= @EARLY_HEAP_BASE sample_layout + rounded [24; 13; 24])
    (do! @early_init sample_layout in @early_allocs sample_layout [24; 13; 24])
    (fun ps s' =>
       laid_out (@EARLY_HEAP_BASE sample_layout) (@EARLY_HEAP_END sample_layout) [24; 13; 24] ps /\
       Forall (fun p => @is_early_mem sample_layout s' p) ps) (Early 0 false).
Proof.
  apply (@early_allocs_correct sample_layout sample_layout_ok); [done|].
  repeat constructor; vm_compute; done.
Defined.
