(* ===== verification/Buddy.v ===== *)
(** The buddy allocator, [src/mm/buddy.c].

    The state holds the twelve free lists as lists of [struct mem_block]
    pointers (the pointer-level lists are those of [ListHead]), the [start]
    member of every live block, the page descriptors, the page counter, the
    lock, and the state of the metadata allocator behind the interface
    [MetaAlloc].

    The abstract view is a pair of finite maps from start address to order:
    the free blocks and the allocated ones. *)

From S2P Require Import Prelude Bits ListHead Pm Sync Early.

(** ** State *)

Record buddy (M : Type) := Buddy {
  free_list : gmap Z (list Z);     (* buddy_free_list[order], mem_block pointers *)
  blk_start : gmap Z Z;            (* mem_block -> start *)
  pages : page_table;
  buddy_free_pages : Z;
  buddy_inited : bool;
  meta : M;
  blk_lock : hart_lock
}.
Arguments Buddy {M}.
Arguments free_list {M}.
Arguments blk_start {M}.
Arguments pages {M}.
Arguments buddy_free_pages {M}.
Arguments buddy_inited {M}.
Arguments meta {M}.
Arguments blk_lock {M}.

Definition size2order (size : Z) : Z := u8 (log2_ceil size - PAGE_SHIFT).

Definition get_buddy_addr (addr order : Z) : Z := Z.lxor addr (Z.shiftl PAGE_SIZE order).

Section buddy.
Context {M : Type} `{MetaAlloc M} `{Layout}.
Implicit Types s : buddy M.

(** *** Access to the parts of the state *)

Definition set_free_list x s : buddy M :=
  Buddy x (blk_start s) (pages s) (buddy_free_pages s) (buddy_inited s) (meta s) (blk_lock s).
Definition set_blk_start x s : buddy M :=
  Buddy (free_list s) x (pages s) (buddy_free_pages s) (buddy_inited s) (meta s) (blk_lock s).
Definition set_pages x s : buddy M :=
  Buddy (free_list s) (blk_start s) x (buddy_free_pages s) (buddy_inited s) (meta s) (blk_lock s).
Definition set_free_pages x s : buddy M :=
  Buddy (free_list s) (blk_start s) (pages s) x (buddy_inited s) (meta s) (blk_lock s).
Definition set_inited x s : buddy M :=
  Buddy (free_list s) (blk_start s) (pages s) (buddy_free_pages s) x (meta s) (blk_lock s).
Definition set_meta x s : buddy M :=
  Buddy (free_list s) (blk_start s) (pages s) (buddy_free_pages s) (buddy_inited s) x (blk_lock s).
Definition set_blk_lock x s : buddy M :=
  Buddy (free_list s) (blk_start s) (pages s) (buddy_free_pages s) (buddy_inited s) (meta s) x.

Definition on_pages {A} (m : ST page_table A) : ST (buddy M) A := lift pages set_pages m.
Definition on_meta {A} (m : ST M A) : ST (buddy M) A := lift meta set_meta m.
Definition on_lock {A} (m : ST hart_lock A) : ST (buddy M) A := lift blk_lock set_blk_lock m.

(** The list of an order; the index is checked against the array. *)
Definition fl s (o : Z) : list Z := default [] (free_list s !! o).

Definition in_array (o : Z) : bool := (0 <=? o) && (o <=? BUDDY_MAX_ORDER).

Definition upd_fl (o : Z) (f : list Z -> list Z) : ST (buddy M) unit :=
  store (fun s => if in_array o then Some (set_free_list (<[o := f (fl s o)]> (free_list s)) s)
                  else None).

Definition get_fl (o : Z) : ST (buddy M) (list Z) :=
  load (fun s => if in_array o then Some (fl s o) else None).

(** [list_del(&block->list)]: the node leaves whichever list it is in; a
    node in no list is an access through stale pointers. *)
Definition listed (b : Z) s : bool :=
  existsb (fun o => bool_decide (b ∈ fl s o)) (seqZ 0 (BUDDY_MAX_ORDER + 1)).

Definition del_block (b : Z) : ST (buddy M) unit :=
  store (fun s => if listed b s then Some (set_free_list (AList.list_del b <$> free_list s) s)
                  else None).

(** [list_first_entry] of a list; of an empty one it is not a block. *)
Definition first_block (o : Z) : ST (buddy M) Z :=
  let! l := get_fl o in
  match l with b :: _ => ret b | [] => fault end.

Definition get_start (b : Z) : ST (buddy M) Z := load (fun s => blk_start s !! b).
Definition set_start (b a : Z) : ST (buddy M) unit :=
  modify (fun s => set_blk_start (<[b := a]> (blk_start s)) s).

(** [addr2page], used as a pointer that is dereferenced. *)
Definition page_of (a : Z) : ST (buddy M) Z :=
  match addr2page a with Some i => ret i | None => fault end.

(** *** Metadata blocks *)

Definition alloc_mem_block : ST (buddy M) Z := on_meta meta_alloc.

Definition free_mem_block (b : Z) : ST (buddy M) unit :=
  do! on_meta (meta_free b) in
  modify (fun s => set_blk_start (delete b (blk_start s)) s).

(** *** Initialisation *)

Fixpoint init_blobs (n : nat) (p : Z) : ST (buddy M) Z :=
  match n with
  | O => ret 0
  | S n =>
      match addr2page p with
      | None => ret (- EINVAL)
      | Some pg =>
          let! t := alloc_mem_block in
          if t =? NULL then panic else
          do! set_start t p in
          do! on_pages (upd_page pg (set_private t)) in
          do! on_pages (upd_page pg (set_order BUDDY_MAX_ORDER)) in
          do! modify (fun s =>
                set_free_pages (u64 (buddy_free_pages s + Z.shiftl 1 BUDDY_MAX_ORDER)) s) in
          do! upd_fl BUDDY_MAX_ORDER (AList.list_add_tail t) in
          init_blobs n (p + BUDDY_BLOB_SIZE)
      end
  end.

Definition blob_num : nat := Z.to_nat ((BUDDY_SYSTEM_END - BUDDY_SYSTEM_BASE) / BUDDY_BLOB_SIZE).

Definition buddy_init : ST (buddy M) Z :=
  do! for_up (Z.to_nat (BUDDY_MAX_ORDER + 1)) 0 (fun i => upd_fl i (fun _ => [])) in
  let! r := init_blobs blob_num BUDDY_SYSTEM_BASE in
  if r =? 0 then
    do! modify (set_inited true) in ret 0
  else ret r.

(** *** Merging *)

(** The scan of one free list for a block whose buddy is free: the block, its
    page, the buddy's page and the buddy. *)
Fixpoint find_pair (l : list Z) (i : Z) : ST (buddy M) (option (Z * Z * Z * Z)) :=
  match l with
  | [] => ret None
  | block :: l =>
      let! a := get_start block in
      let! page := page_of a in
      let! pg := on_pages (get_page page) in
      let! buddy_page := page_of (get_buddy_addr a (order pg)) in
      let! bpg := on_pages (get_page buddy_page) in
      if (private bpg =? NULL) || negb (order bpg =? i) then find_pair l i
      else ret (Some (block, page, buddy_page, private bpg))
  end.

Definition merge_pair (block page buddy_page buddy_block : Z) : ST (buddy M) unit :=
  do! del_block block in
  do! del_block buddy_block in
  let! a := get_start block in
  let! b := get_start buddy_block in
  if b <? a then
    do! free_mem_block block in
    do! on_pages (upd_page page (set_private NULL)) in
    do! on_pages (upd_page page (set_order (BUDDY_MAX_ORDER + 1))) in
    do! on_pages (upd_page buddy_page (fun p => set_order (u8 (order p + 1)) p)) in
    let! p := on_pages (get_page buddy_page) in
    upd_fl (order p) (AList.list_add buddy_block)
  else
    do! free_mem_block buddy_block in
    do! on_pages (upd_page buddy_page (set_private NULL)) in
    do! on_pages (upd_page buddy_page (set_order (BUDDY_MAX_ORDER + 1))) in
    do! on_pages (upd_page page (fun p => set_order (u8 (order p + 1)) p)) in
    let! p := on_pages (get_page page) in
    upd_fl (order p) (AList.list_add block).

(** The [while] loop over the list of order [i]: one scan per iteration. *)
Fixpoint merge_level (fuel : nat) (i : Z) : ST (buddy M) unit :=
  match fuel with
  | O => no_fuel
  | S fuel =>
      let! l := get_fl i in
      let! r := find_pair l i in
      match r with
      | Some (block, page, buddy_page, buddy_block) =>
          do! merge_pair block page buddy_page buddy_block in
          merge_level fuel i
      | None => ret tt
      end
  end.

Definition merge_blocks (order : Z) : ST (buddy M) unit :=
  for_up (Z.to_nat order) 0 (fun i =>
    let! l := get_fl i in
    match l with
    | [] => ret tt
    | _ => merge_level (S (length l)) i
    end).

(** *** Splitting *)

Fixpoint find_source (fuel : nat) (source_order : Z) : ST (buddy M) Z :=
  match fuel with
  | O => no_fuel
  | S fuel =>
      if source_order <=? BUDDY_MAX_ORDER then
        let! l := get_fl source_order in
        match l with
        | [] => find_source fuel (u8 (source_order + 1))
        | _ => ret source_order
        end
      else ret source_order
  end.

Definition split_one (o : Z) : ST (buddy M) unit :=
  let! block := first_block o in
  let! a := get_start block in
  let! page := page_of a in
  let! pg := on_pages (get_page page) in
  if negb (order pg =? o) then panic else
  do! del_block block in
  let new_order := u8 (o - 1) in
  let! buddy_block := alloc_mem_block in
  if buddy_block =? NULL then panic else
  do! on_pages (upd_page page (set_order new_order)) in
  do! set_start buddy_block (get_buddy_addr a new_order) in
  let! buddy_page := page_of (get_buddy_addr a new_order) in
  do! on_pages (upd_page buddy_page (set_order new_order)) in
  do! on_pages (upd_page buddy_page (set_private buddy_block)) in
  do! upd_fl new_order (AList.list_add_tail block) in
  upd_fl new_order (AList.list_add_tail buddy_block).

(** [for (order = source_order; order > target_order; order--)]. *)
Fixpoint split_down (n : nat) (o : Z) : ST (buddy M) unit :=
  match n with
  | O => ret tt
  | S n => do! split_one o in split_down n (u8 (o - 1))
  end.

Definition split_blocks (target_order : Z) : ST (buddy M) unit :=
  let! source_order := find_source (Z.to_nat BUDDY_MAX_ORDER + 2) (u8 (target_order + 1)) in
  if BUDDY_MAX_ORDER <? source_order then ret tt
  else split_down (Z.to_nat (source_order - target_order)) source_order.

(** *** Allocation *)

Definition buddy_alloc_inner (o : Z) : ST (buddy M) Z :=
  let! block := first_block o in
  let! a := get_start block in
  let! page := page_of a in
  let! pg := on_pages (get_page page) in
  if negb (order pg =? o) then panic else
  do! on_pages (upd_page page (set_private NULL)) in
  do! del_block block in
  do! free_mem_block block in
  do! modify (fun s => set_free_pages (u64 (buddy_free_pages s - Z.shiftl 1 o)) s) in
  ret a.

Definition is_empty (o : Z) : ST (buddy M) bool :=
  let! l := get_fl o in ret (match l with [] => true | _ => false end).

Definition buddy_alloc_nolock (size : Z) : ST (buddy M) Z :=
  let o := size2order size in
  let! e := is_empty o in
  if negb e then buddy_alloc_inner o else
  do! merge_blocks o in
  let! e := is_empty o in
  if negb e then buddy_alloc_inner o else
  do! split_blocks o in
  let! e := is_empty o in
  if negb e then buddy_alloc_inner o else
  ret NULL.

Definition buddy_alloc (hart size : Z) : ST (buddy M) Z :=
  if (size <? PAGE_SIZE) || (BUDDY_BLOB_SIZE <? size) then ret NULL else
  let! l := gets (fun s => hl_lock (blk_lock s)) in
  if spinlock_holding hart l then buddy_alloc_nolock size else
  do! on_lock (spinlock_acquire_bare hart) in
  let! addr := buddy_alloc_nolock size in
  do! on_lock (spinlock_release_bare hart) in
  ret addr.

Definition buddy_free (hart addr : Z) : ST (buddy M) unit :=
  let page := addr2page addr in
  let! block := alloc_mem_block in
  if block =? NULL then panic else
  do! set_start block addr in
  let! page := match page with Some i => ret i | None => fault end in
  do! on_pages (upd_page page (set_private block)) in
  do! on_lock (spinlock_acquire_bare hart) in
  let! pg := on_pages (get_page page) in
  do! modify (fun s => set_free_pages (u64 (buddy_free_pages s + Z.shiftl 1 (order pg))) s) in
  let! pg := on_pages (get_page page) in
  do! upd_fl (order pg) (AList.list_add block) in
  on_lock (spinlock_release_bare hart).

End buddy.
