(* ===== verification/BuddySpec.v ===== *)
(** What the buddy allocator promises, on its abstract view: two finite maps
    from start address to order, the free and the allocated blocks.

    Splitting and merging are steps between such views; they change no byte's
    status.  [merged_complete] is the reason why merging the smaller orders is
    enough before a request is refused. *)

From S2P Require Import Prelude Bits ListHead Pm Sync Early Buddy.

Record blocks := Blocks { bfree : gmap Z Z; balloc : gmap Z Z }.

(** Bytes in a block of order [o]. *)
Definition bsize (o : Z) : Z := PAGE_SIZE * 2 ^ o.

(** Pages in the blocks of a map. *)
Definition pages_in (F : gmap Z Z) : Z := map_fold (fun _ o n => 2 ^ o + n) 0 F.

(** The address [x] lies in a block of the map. *)
Definition covered (F : gmap Z Z) (x : Z) : Prop :=
  exists a o, F !! a = Some o /\ a <= x < a + bsize o.

(** No two blocks of order [j] in the map are buddies. *)
Definition merged (F : gmap Z Z) (j : Z) : Prop :=
  forall a, F !! a = Some j -> F !! get_buddy_addr a j <> Some j.

Inductive bstep : blocks -> blocks -> Prop :=
  | bstep_split F A a o :
      0 <= o -> F !! a = Some (o + 1) ->
      bstep (Blocks F A) (Blocks (<[a := o]> (<[a + bsize o := o]> F)) A)
  | bstep_merge F A a o :
      o < BUDDY_MAX_ORDER -> a mod bsize (o + 1) = 0 ->
      F !! a = Some o -> F !! (a + bsize o) = Some o ->
      bstep (Blocks F A) (Blocks (<[a := o + 1]> (delete (a + bsize o) F)) A).

(** A block moves from the free map to the allocated one, and back. *)
Definition take (a o : Z) (B : blocks) : blocks :=
  Blocks (delete a (bfree B)) (<[a := o]> (balloc B)).
Definition give (a o : Z) (B : blocks) : blocks :=
  Blocks (<[a := o]> (bfree B)) (delete a (balloc B)).

Definition is_blk (B : blocks) (a o : Z) : Prop :=
  bfree B !! a = Some o \/ balloc B !! a = Some o.

Section spec.
Context `{HL : Layout} {HOk : LayoutOk}.

Definition blk_ok (a o : Z) : Prop :=
  0 <= o <= BUDDY_MAX_ORDER /\ a mod bsize o = 0 /\
  BUDDY_SYSTEM_BASE <= a /\ a + bsize o <= BUDDY_SYSTEM_END.

Record binv (B : blocks) : Prop := {
  bi_ok a o : is_blk B a o -> blk_ok a o;
  bi_excl a o o' : bfree B !! a = Some o -> balloc B !! a = Some o' -> False;
  bi_disj a o a' o' : is_blk B a o -> is_blk B a' o' -> a <> a' ->
    a + bsize o <= a' \/ a' + bsize o' <= a
}.

End spec.

(** ** Sizes and buddies *)

Lemma bsize_pow o : 0 <= o -> bsize o = 2 ^ (12 + o).
Proof. intros. unfold bsize. rewrite page_size_pow, Z.pow_add_r by lia. done. Qed.

Lemma bsize_max : bsize BUDDY_MAX_ORDER = BUDDY_BLOB_SIZE.
Proof. vm_compute. reflexivity. Qed.

Lemma bsize_pos o : 0 <= o -> 4096 <= bsize o.
Proof.
  intros. unfold bsize. change PAGE_SIZE with 4096. pose proof (pow2_pos o). nia.
Qed.

Lemma bsize_succ o : 0 <= o -> bsize (o + 1) = 2 * bsize o.
Proof. intros. unfold bsize. rewrite Z.pow_add_r by lia. lia. Qed.

(** Multiples of a size are multiples of the smaller ones. *)
Lemma bsize_divide j o : 0 <= j <= o -> exists q, 1 <= q /\ bsize o = bsize j * q.
Proof.
  intros. exists (2 ^ (o - j)). split; [pose proof (pow2_pos (o - j)); lia|].
  unfold bsize. replace o with (j + (o - j)) at 1 by lia. rewrite Z.pow_add_r by lia. lia.
Qed.

Lemma bsize_mono j o : 0 <= j <= o -> bsize j <= bsize o.
Proof.
  intros H. destruct (bsize_divide j o H) as (q & Hq & ->). pose proof (bsize_pos j). nia.
Qed.

Lemma mod_bsize_mono j o a : 0 <= j <= o -> a mod bsize o = 0 -> a mod bsize j = 0.
Proof.
  intros H. pose proof (bsize_pos j ltac:(lia)). pose proof (bsize_pos o ltac:(lia)).
  rewrite !mult_mod by lia. intros [k ->].
  destruct (bsize_divide j o H) as (q & Hq & ->). exists (q * k). lia.
Qed.

(** Aligned intervals that meet are nested. *)
Lemma aligned_nested a j a' o :
  0 <= j <= o -> a mod bsize j = 0 -> a' mod bsize o = 0 ->
  a < a' + bsize o -> a' < a + bsize j -> a' <= a /\ a + bsize j <= a' + bsize o.
Proof.
  intros H Ha Ha' H1 H2. pose proof (bsize_pos j ltac:(lia)). pose proof (bsize_pos o ltac:(lia)).
  apply (mod_bsize_mono j o) in Ha' as Haj; [|done].
  apply mult_mod in Ha as [p ->]; [|lia]. apply mult_mod in Haj as [q Eq]; [|lia].
  destruct (bsize_divide j o H) as (r & Hr & Er). rewrite Er, Eq in *.
  assert (p < q + r) by nia. assert (q < p + 1) by nia. nia.
Qed.

Lemma lxor_1 q : Z.lxor q 1 = if Z.even q then q + 1 else q - 1.
Proof.
  assert (forall k, Z.lxor (2 * k) 1 = 2 * k + 1) as H.
  { intros k. rewrite Z.add_nocarry_lxor; [done|].
    change 1 with (Z.ones 1). rewrite Z.land_ones by lia.
    change (2 ^ 1) with 2. rewrite Z.mul_comm. by apply Z.mod_mul. }
  destruct (Z.even q) eqn:E.
  - apply Z.even_spec in E as [k ->]. apply H.
  - rewrite <- Z.negb_odd in E. apply negb_false_iff, Z.odd_spec in E as [k ->].
    rewrite <- H, Z.lxor_assoc, Z.lxor_nilpotent, Z.lxor_0_r, H. lia.
Qed.

(** The buddy of an aligned block is the other half of the enclosing block. *)
Lemma buddy_addr_cases a o :
  0 <= o -> a mod bsize o = 0 ->
  (a mod bsize (o + 1) = 0 /\ get_buddy_addr a o = a + bsize o) \/
  ((a - bsize o) mod bsize (o + 1) = 0 /\ get_buddy_addr a o = a - bsize o).
Proof.
  intros Ho Ha. pose proof (bsize_pos o Ho). pose proof (bsize_pos (o + 1) ltac:(lia)).
  apply mult_mod in Ha as [q ->]; [|lia].
  assert (get_buddy_addr (bsize o * q) o = bsize o * Z.lxor q 1) as ->.
  { unfold get_buddy_addr. rewrite page_size_pow, Z.shiftl_mul_pow2, <- Z.pow_add_r by lia.
    rewrite bsize_pow by lia.
    rewrite <- (Z.mul_1_l (2 ^ (12 + o))) at 2.
    rewrite !(Z.mul_comm (2 ^ (12 + o))).
    rewrite <- !Z.shiftl_mul_pow2 by lia. by rewrite Z.shiftl_lxor. }
  rewrite lxor_1, !mult_mod, bsize_succ by lia. destruct (Z.even q) eqn:E.
  - left. apply Z.even_spec in E as [k ->]. split; [exists k; lia|lia].
  - right. rewrite <- Z.negb_odd in E. apply negb_false_iff, Z.odd_spec in E as [k ->].
    split; [exists k; lia|lia].
Qed.

(** ** Counting pages *)

Lemma pages_in_insert F a o : F !! a = None -> pages_in (<[a := o]> F) = 2 ^ o + pages_in F.
Proof.
  intros Hn. unfold pages_in. rewrite map_fold_insert_L; [done| |done]. intros. lia.
Qed.

Lemma pages_in_delete F a o : F !! a = Some o -> pages_in (delete a F) = pages_in F - 2 ^ o.
Proof.
  intros Ha. rewrite <- (insert_delete_id F a o Ha) at 2.
  rewrite pages_in_insert by apply lookup_delete_eq. lia.
Qed.

Lemma pages_in_update F a o o' :
  F !! a = Some o -> pages_in (<[a := o']> F) = pages_in F - 2 ^ o + 2 ^ o'.
Proof.
  intros Ha. rewrite <- (insert_delete_eq F a o'), pages_in_insert by apply lookup_delete_eq.
  rewrite (pages_in_delete F a o Ha). lia.
Qed.

Lemma pages_in_empty : pages_in ∅ = 0.
Proof. apply map_fold_empty. Qed.

Lemma pages_in_nonneg F : 0 <= pages_in F.
Proof.
  induction F as [|a o F Hn IH] using map_ind; [by rewrite pages_in_empty|].
  rewrite pages_in_insert by done. pose proof (Z.pow_nonneg 2 o ltac:(lia)). lia.
Qed.

(** ** The invariant *)

Section inv.
Context `{HL : Layout} {HOk : LayoutOk}.

Lemma binv_free_disj B a o a' o' :
  binv B -> bfree B !! a = Some o -> bfree B !! a' = Some o' -> a <> a' ->
  a + bsize o <= a' \/ a' + bsize o' <= a.
Proof. intros HB ??. by apply (bi_disj B HB); left. Qed.

(** Splitting a free block keeps the blocks well formed and apart. *)
Lemma split_binv F A a o :
  0 <= o -> F !! a = Some (o + 1) -> binv (Blocks F A) ->
  binv (Blocks (<[a := o]> (<[a + bsize o := o]> F)) A).
Proof.
  intros Ho Ha HB.
  assert (blk_ok a (o + 1)) as (O1 & O2 & O3 & O4) by (apply (bi_ok _ HB); by left).
  pose proof (bsize_pos o Ho). rewrite bsize_succ in O4 by lia.
  assert (a mod bsize o = 0) as Ma by (apply (mod_bsize_mono o (o + 1)); [lia|done]).
  assert ((a + bsize o) mod bsize o = 0) as Mb.
  { apply mult_mod in Ma as [k ->]; [|lia]. apply mult_mod; [lia|]. exists (k + 1). lia. }
  assert (Hcase : forall x ox, is_blk (Blocks (<[a := o]> (<[a + bsize o := o]> F)) A) x ox ->
    (x = a /\ ox = o) \/ (x = a + bsize o /\ ox = o) \/ (x <> a /\ is_blk (Blocks F A) x ox)).
  { intros x ox [Hx|Hx]; cbn in Hx.
    - apply lookup_insert_Some in Hx as [[<- <-]|[Hne Hx]]; [by left|].
      apply lookup_insert_Some in Hx as [[<- <-]|[Hne' Hx]]; [by right; left|].
      right; right. split; [done|by left].
    - right; right. split; [|by right]. intros ->. by eapply (bi_excl _ HB). }
  assert (Hd : forall x ox, x <> a -> is_blk (Blocks F A) x ox ->
    x + bsize ox <= a \/ a + 2 * bsize o <= x).
  { intros x ox Hne Hx. rewrite <- bsize_succ by lia.
    apply (bi_disj _ HB); [done|by left|done]. }
  split.
  - intros x ox [[-> ->]|[[-> ->]|[_ Hx]]]%Hcase; [..|by apply (bi_ok _ HB)];
      (split_and!; [lia|lia|done|lia|lia]).
  - intros x ox ox' Hx Hx'. cbn in Hx, Hx'.
    apply lookup_insert_Some in Hx as [[<- <-]|[Hne Hx]]; [by eapply (bi_excl _ HB)|].
    apply lookup_insert_Some in Hx as [[<- <-]|[Hne' Hx]]; [|by eapply (bi_excl _ HB)].
    pose proof (Hd (a + bsize o) ox' ltac:(lia) ltac:(by right)). 
    assert (blk_ok (a + bsize o) ox') as (?&?&_) by (apply (bi_ok _ HB); by right).
    pose proof (bsize_pos ox'). lia.
  - intros x ox y oy Hx Hy Hxy.
    apply Hcase in Hx as [[-> ->]|[[-> ->]|[Nx Hx]]]; apply Hcase in Hy as [[-> ->]|[[-> ->]|[Ny Hy]]];
      try lia; try (pose proof (Hd _ _ Ny Hy); lia); try (pose proof (Hd _ _ Nx Hx); lia).
    by apply (bi_disj _ HB).
Qed.

(** So does merging two neighbours. *)
Lemma merge_binv F A a o :
  o < BUDDY_MAX_ORDER -> a mod bsize (o + 1) = 0 -> F !! a = Some o -> F !! (a + bsize o) = Some o ->
  binv (Blocks F A) -> binv (Blocks (<[a := o + 1]> (delete (a + bsize o) F)) A).
Proof.
  intros Ho Hm Ha Hb HB.
  assert (blk_ok a o) as (O1 & O2 & O3 & O4) by (apply (bi_ok _ HB); by left).
  assert (blk_ok (a + bsize o) o) as (P1 & P2 & P3 & P4) by (apply (bi_ok _ HB); by left).
  pose proof (bsize_pos o ltac:(lia)).
  assert (Hcase : forall x ox, is_blk (Blocks (<[a := o + 1]> (delete (a + bsize o) F)) A) x ox ->
    (x = a /\ ox = o + 1) \/ (x <> a /\ x <> a + bsize o /\ is_blk (Blocks F A) x ox)).
  { intros x ox [Hx|Hx]; cbn in Hx.
    - apply lookup_insert_Some in Hx as [[<- <-]|[Hne Hx]]; [by left|].
      apply lookup_delete_Some in Hx as [Hne' Hx]. right. split_and!; [done|done|by left].
    - right. split_and!; [intros ->; exact (bi_excl _ HB _ _ _ Ha Hx)|
        intros ->; exact (bi_excl _ HB _ _ _ Hb Hx)|by right]. }
  assert (Hd : forall x ox, x <> a -> x <> a + bsize o -> is_blk (Blocks F A) x ox ->
    x + bsize ox <= a \/ a + 2 * bsize o <= x).
  { intros x ox Hne Hne' Hx.
    destruct (bi_disj _ HB x ox a o) as [?|?]; [done|by left|done|lia|].
    destruct (bi_disj _ HB x ox (a + bsize o) o) as [?|?]; [done|by left|done| |lia].
    assert (blk_ok x ox) as (?&_) by (by apply (bi_ok _ HB)).
    pose proof (bsize_pos ox). lia. }
  split.
  - intros x ox [[-> ->]|(_ & _ & Hx)]%Hcase; [|by apply (bi_ok _ HB)].
    unfold blk_ok. rewrite bsize_succ in * by lia. split_and!; lia.
  - intros x ox ox' Hx Hx'. cbn in Hx, Hx'.
    apply lookup_insert_Some in Hx as [[<- <-]|[Hne Hx]]; [exact (bi_excl _ HB _ _ _ Ha Hx')|].
    apply lookup_delete_Some in Hx as [_ Hx]. exact (bi_excl _ HB _ _ _ Hx Hx').
  - intros x ox y oy Hx Hy Hxy.
    apply Hcase in Hx as [[-> ->]|(Nx & Nx' & Hx)]; apply Hcase in Hy as [[-> ->]|(Ny & Ny' & Hy)];
      rewrite ?bsize_succ by lia;
      try lia; try (pose proof (Hd _ _ Ny Ny' Hy); lia); try (pose proof (Hd _ _ Nx Nx' Hx); lia).
    by apply (bi_disj _ HB).
Qed.

Lemma bstep_binv B B' : bstep B B' -> binv B -> binv B'.
Proof. intros [F A a o Ho Ha|F A a o Ho Hm Ha Hb]; [by apply split_binv|by apply merge_binv]. Qed.

(** A step of the allocator on its own leaves the allocated blocks, the bytes
    that are free and their number alone. *)
Lemma bstep_frame B B' :
  bstep B B' -> binv B ->
  balloc B' = balloc B /\ pages_in (bfree B') = pages_in (bfree B) /\
  (forall x, covered (bfree B') x <-> covered (bfree B) x).
Proof.
  intros [F A a o Ho Ha|F A a o Ho Hm Ha Hb] HB; cbn; (split; [done|]).
  - pose proof (bsize_pos o Ho). pose proof (bsize_succ o Ho) as Hs.
    assert (F !! (a + bsize o) = None) as Hn.
    { apply eq_None_not_Some. intros [o' Hx].
      pose proof (binv_free_disj _ _ _ _ _ HB Ha Hx).
      assert (blk_ok (a + bsize o) o') as (?&_) by (apply (bi_ok _ HB); by left).
      pose proof (bsize_pos o'). lia. }
    split.
    { rewrite (pages_in_update _ a (o + 1)) by (by rewrite lookup_insert_ne by lia).
      rewrite pages_in_insert, Z.pow_add_r by done || lia. lia. }
    intros x. split.
    + intros (b & ob & Hx & Hr).
      apply lookup_insert_Some in Hx as [[<- <-]|[Hne Hx]]; [exists a, (o + 1); split; [done|lia]|].
      apply lookup_insert_Some in Hx as [[<- <-]|[Hne' Hx]]; [exists a, (o + 1); split; [done|lia]|].
      by exists b, ob.
    + intros (b & ob & Hx & Hr). destruct (decide (b = a)) as [->|].
      * rewrite Ha in Hx. injection Hx as <-. destruct (decide (x < a + bsize o)).
        -- exists a, o. rewrite lookup_insert_eq. split; [done|lia].
        -- exists (a + bsize o), o. rewrite lookup_insert_ne, lookup_insert_eq by lia.
           split; [done|lia].
      * exists b, ob. rewrite lookup_insert_ne by congruence.
        rewrite lookup_insert_ne; [done|]. intros E. rewrite E in Hn. congruence.
  - assert (blk_ok a o) as (O1 & _) by (apply (bi_ok _ HB); by left).
    pose proof (bsize_pos o ltac:(lia)). pose proof (bsize_succ o ltac:(lia)) as Hs.
    split.
    { rewrite (pages_in_update _ a o) by (by rewrite lookup_delete_ne by lia).
      rewrite (pages_in_delete _ _ o) by done. rewrite Z.pow_add_r by lia. lia. }
    intros x. split.
    + intros (b & ob & Hx & Hr).
      apply lookup_insert_Some in Hx as [[<- <-]|[Hne Hx]].
      * destruct (decide (x < a + bsize o)); [exists a, o|exists (a + bsize o), o]; split; done || lia.
      * apply lookup_delete_Some in Hx as [_ Hx]. by exists b, ob.
    + intros (b & ob & Hx & Hr).
      destruct (decide (b = a)) as [->|]; [|destruct (decide (b = a + bsize o)) as [->|]].
      * exists a, (o + 1). rewrite lookup_insert_eq. split; [done|]. simplify_eq. lia.
      * exists a, (o + 1). rewrite lookup_insert_eq. split; [done|]. simplify_eq. lia.
      * exists b, ob. by rewrite lookup_insert_ne, lookup_delete_ne by done.
Qed.

Lemma bsteps_frame B B' :
  rtc bstep B B' -> binv B ->
  binv B' /\ balloc B' = balloc B /\ pages_in (bfree B') = pages_in (bfree B) /\
  (forall x, covered (bfree B') x <-> covered (bfree B) x).
Proof.
  induction 1 as [B|B B1 B2 H1 _ IH]; intros HB; [done|].
  destruct (bstep_frame _ _ H1 HB) as (E1 & E2 & E3).
  destruct (IH (bstep_binv _ _ H1 HB)) as (F0 & F1 & F2 & F3).
  split_and!; [done|congruence|congruence|]. intros x. by rewrite F3, E3.
Qed.

Lemma take_binv B a o : binv B -> bfree B !! a = Some o -> binv (take a o B).
Proof.
  intros HB Ha.
  assert (Hi : forall x ox, is_blk (take a o B) x ox -> is_blk B x ox).
  { intros x ox [Hx|Hx]; cbn in Hx.
    - apply lookup_delete_Some in Hx as [_ Hx]. by left.
    - apply lookup_insert_Some in Hx as [[<- <-]|[_ Hx]]; [by left|by right]. }
  split.
  - intros x ox Hx. by apply (bi_ok _ HB), Hi.
  - intros x ox ox' Hx Hx'. cbn in *. apply lookup_delete_Some in Hx as [Hne Hx].
    rewrite lookup_insert_ne in Hx' by done. by eapply (bi_excl _ HB).
  - intros x ox y oy Hx Hy. apply (bi_disj _ HB); by apply Hi.
Qed.

Lemma give_binv B a o : binv B -> balloc B !! a = Some o -> binv (give a o B).
Proof.
  intros HB Ha.
  assert (Hi : forall x ox, is_blk (give a o B) x ox -> is_blk B x ox).
  { intros x ox [Hx|Hx]; cbn in Hx.
    - apply lookup_insert_Some in Hx as [[<- <-]|[_ Hx]]; [by right|by left].
    - apply lookup_delete_Some in Hx as [_ Hx]. by right. }
  split.
  - intros x ox Hx. by apply (bi_ok _ HB), Hi.
  - intros x ox ox' Hx Hx'. cbn in *. apply lookup_delete_Some in Hx' as [Hne Hx'].
    rewrite lookup_insert_ne in Hx by done. by eapply (bi_excl _ HB).
  - intros x ox y oy Hx Hy. apply (bi_disj _ HB); by apply Hi.
Qed.

(** Taking a block removes exactly its bytes from the free ones. *)
Lemma take_covered B a o x :
  binv B -> bfree B !! a = Some o ->
  covered (bfree (take a o B)) x <-> covered (bfree B) x /\ ~ (a <= x < a + bsize o).
Proof.
  intros HB Ha. unfold take; cbn. split.
  - intros (b & k & Hb & Hx). apply lookup_delete_Some in Hb as [Hne Hb].
    split; [by exists b, k|]. pose proof (binv_free_disj _ _ _ _ _ HB Ha Hb Hne). lia.
  - intros [(b & k & Hb & Hx) Hn]. exists b, k. split; [|done].
    apply lookup_delete_Some. split; [intros <-; simplify_eq; done|done].
Qed.

Lemma give_covered B a o x :
  bfree B !! a = None ->
  covered (bfree (give a o B)) x <-> covered (bfree B) x \/ a <= x < a + bsize o.
Proof.
  intros Ha. unfold give; cbn. split.
  - intros (b & k & [[<- <-]|[_ Hb]]%lookup_insert_Some & Hx); [by right|left; by exists b, k].
  - intros [(b & k & Hb & Hx)|Hx].
    + exists b, k. rewrite lookup_insert_ne by congruence. done.
    + exists a, o. by rewrite lookup_insert_eq.
Qed.

(** When no two buddies below order [k] are free, every aligned region of
    order at most [k] that is free throughout lies in one free block. *)
Lemma merged_complete B k :
  binv B -> (forall j, 0 <= j < k -> merged (bfree B) j) ->
  forall j, 0 <= j -> j <= k -> forall a, a mod bsize j = 0 ->
  (forall x, a <= x < a + bsize j -> covered (bfree B) x) ->
  exists b o, bfree B !! b = Some o /\ j <= o /\ b <= a /\ a + bsize j <= b + bsize o.
Proof.
  intros HB Hm. apply (natlike_ind (fun j => j <= k -> forall a, a mod bsize j = 0 ->
    (forall x, a <= x < a + bsize j -> covered (bfree B) x) ->
    exists b o, bfree B !! b = Some o /\ j <= o /\ b <= a /\ a + bsize j <= b + bsize o)).
  - intros _ a Ha Hc. pose proof (bsize_pos 0 ltac:(lia)).
    destruct (Hc a ltac:(lia)) as (b & o & Hb & Hr).
    assert (blk_ok b o) as (O1 & O2 & _) by (apply (bi_ok _ HB); by left).
    destruct (aligned_nested a 0 b o) as [? ?]; try done; try lia. exists b, o.
    split_and!; done || lia.
  - intros j Hj IH Hjk a Ha Hc. replace (Z.succ j) with (j + 1) in * by lia.
    pose proof (bsize_pos j Hj). pose proof (bsize_succ j Hj) as Hs.
    assert (a mod bsize j = 0) as Ha' by (apply (mod_bsize_mono j (j + 1)); [lia|done]).
    destruct (IH ltac:(lia) a Ha') as (b & o & Hb & Ho & Hb1 & Hb2).
    { intros x Hx. apply Hc. lia. }
    assert (blk_ok b o) as (O1 & O2 & _) by (apply (bi_ok _ HB); by left).
    destruct (decide (o = j)) as [->|Hne].
    2: { destruct (aligned_nested a (j + 1) b o) as [? ?]; try done; try lia.
         exists b, o. split_and!; done || lia. }
    destruct (IH ltac:(lia) (a + bsize j)) as (c & o & Hcc & Hco & Hc1 & Hc2).
    { apply mult_mod in Ha' as [q ->]; [|lia]. apply mult_mod; [lia|]. exists (q + 1). lia. }
    { intros x Hx. apply Hc. lia. }
    assert (blk_ok c o) as (Q1 & Q2 & _) by (apply (bi_ok _ HB); by left).
    destruct (decide (o = j)) as [->|Hne].
    2: { destruct (aligned_nested a (j + 1) c o) as [? ?]; try done; try lia.
         exists c, o. split_and!; done || lia. }
    replace b with a in * by lia. replace c with (a + bsize j) in * by lia.
    destruct (Hm j ltac:(lia) a Hb). destruct (buddy_addr_cases a j Hj Ha') as [[_ ->]|[Hlo _]]; [done|].
    exfalso. rewrite Hs in *. apply mult_mod in Ha as [p ->]; [|lia].
    apply mult_mod in Hlo as [q Hlo]; [|lia]. 
    assert (2 * p - 1 = 2 * q) by (apply (Z.mul_reg_l _ _ (bsize j)); lia). lia.
Qed.

(** The buddy of a block below the largest order lies in the buddy region. *)
Lemma buddy_in_region a o :
  blk_ok a o -> o < BUDDY_MAX_ORDER ->
  BUDDY_SYSTEM_BASE <= get_buddy_addr a o /\
  get_buddy_addr a o + bsize o <= BUDDY_SYSTEM_END /\ get_buddy_addr a o mod bsize o = 0.
Proof.
  intros (O1 & O2 & O3 & O4) Ho.
  pose proof layout_facts as (_&_&_&_&_&_&_&_&_&_&MB&ME).
  rewrite <- bsize_max in *.
  apply (mod_bsize_mono (o + 1)) in MB; [|lia]. apply (mod_bsize_mono (o + 1)) in ME; [|lia].
  pose proof (bsize_pos o ltac:(lia)). rewrite bsize_succ in MB, ME by lia.
  apply mult_mod in MB as [p Ep]; [|lia]. apply mult_mod in ME as [q Eq]; [|lia].
  rewrite Ep, Eq in *.
  destruct (buddy_addr_cases a o ltac:(lia) O2) as [[Hm ->]|[Hm ->]];
    rewrite bsize_succ in Hm by lia; apply mult_mod in Hm as [r Er]; try lia.
  - rewrite Er in *. assert (r < q) by nia. split_and!; [nia|nia|].
    apply mult_mod; [lia|]. exists (2 * r + 1). lia.
  - replace a with (2 * bsize o * r + bsize o) in * by lia.
    replace (2 * bsize o * r + bsize o - bsize o) with (bsize o * (2 * r)) by lia.
    assert (p < r + 1) by nia. split_and!; [nia|nia|]. apply mult_mod; [lia|]. by exists (2 * r).
Qed.

End inv.
