(* ===== verification/BuddyCore.v ===== *)
(** The representation of the abstract blocks by free lists, metadata blocks
    and page descriptors, independent of the monadic code: how the
    representation changes when a block is attached to a list or detached. *)

From S2P Require Import Prelude Bits ListHead Pm Sync Early Buddy BuddySpec.

(** Update of the descriptors, indexed by page address. *)
Definition pg_upd (a : Z) (p : page) (PG : Z -> page) : Z -> page :=
  fun x => if decide (x = a) then p else PG x.

(** The free lists without one block, and with one more. *)
Definition fl_del (b : Z) (FL : Z -> list Z) : Z -> list Z := fun o => AList.list_del b (FL o).
Definition fl_add (o b : Z) (FL : Z -> list Z) : Z -> list Z :=
  fun k => if decide (k = o) then b :: FL k else FL k.

Section core.
Context `{HL : Layout}.

(** The address of a page of the buddy region. *)
Definition rpage (a : Z) : Prop :=
  a mod PAGE_SIZE = 0 /\ BUDDY_SYSTEM_BASE <= a < BUDDY_SYSTEM_END.

Record core (FL : Z -> list Z) (BS : gmap Z Z) (PG : Z -> page) (F A : gmap Z Z) : Prop := {
  c_free a o : F !! a = Some o <-> exists b, b ∈ FL o /\ BS !! b = Some a;
  c_fl o b : b ∈ FL o -> 0 <= o <= BUDDY_MAX_ORDER /\ b <> NULL /\
    exists a, BS !! b = Some a /\ rpage a /\ order (PG a) = o /\ private (PG a) = b;
  c_nodup o : NoDup (FL o);
  c_alloc a o : A !! a = Some o -> rpage a /\ order (PG a) = o /\ private (PG a) = NULL;
  c_priv a : rpage a -> private (PG a) <> NULL ->
    exists o, private (PG a) ∈ FL o /\ BS !! private (PG a) = Some a
}.

Lemma core_ext FL FL' BS PG PG' F A :
  (forall o, FL' o ≡ₚ FL o) -> (forall a, rpage a -> PG' a = PG a) ->
  core FL BS PG F A -> core FL' BS PG' F A.
Proof.
  intros EF EP [C1 C2 C3 C4 C5]. split.
  - intros a o. rewrite C1. by setoid_rewrite EF.
  - intros o b Hb. rewrite EF in Hb. destruct (C2 o b Hb) as (? & ? & a & ? & Ha & ?).
    split_and!; [lia|lia|done|]. exists a. by rewrite EP.
  - intros o. by rewrite EF.
  - intros a o Ha. destruct (C4 a o Ha) as (? & ?). by rewrite EP.
  - intros a Ha. rewrite EP by done. intros Hp. destruct (C5 a Ha Hp) as (o & ? & ?).
    exists o. by rewrite EF.
Qed.

(** A free block: its order is that of its list, its page points to it. *)
Lemma core_block FL BS PG F A a o :
  core FL BS PG F A -> F !! a = Some o ->
  rpage a /\ 0 <= o <= BUDDY_MAX_ORDER /\ order (PG a) = o /\ private (PG a) <> NULL /\
  private (PG a) ∈ FL o /\ BS !! private (PG a) = Some a.
Proof.
  intros C Ha. apply (c_free _ _ _ _ _ C) in Ha as (b & Hb & Hs).
  destruct (c_fl _ _ _ _ _ C o b Hb) as (? & ? & a' & Hs' & ? & ? & <-).
  rewrite Hs in Hs'. injection Hs' as <-. done.
Qed.

Lemma core_listed FL BS PG F A b o :
  core FL BS PG F A -> b ∈ FL o ->
  exists a, BS !! b = Some a /\ F !! a = Some o /\ rpage a /\ 0 <= o <= BUDDY_MAX_ORDER /\
    order (PG a) = o /\ private (PG a) = b /\ b <> NULL.
Proof.
  intros C Hb. destruct (c_fl _ _ _ _ _ C o b Hb) as (? & ? & a & Hs & ? & ? & ?).
  exists a. split_and!; try done; try lia. apply (c_free _ _ _ _ _ C). by exists b.
Qed.

(** The page of a block's buddy tells whether the buddy is free. *)
Lemma core_free_page FL BS PG F A a o :
  core FL BS PG F A -> rpage a ->
  F !! a = Some o <-> private (PG a) <> NULL /\ order (PG a) = o.
Proof.
  intros C Ha. split.
  - intros Hf. destruct (core_block _ _ _ _ _ _ _ C Hf) as (_ & _ & ? & ? & _). done.
  - intros [Hp Ho]. destruct (c_priv _ _ _ _ _ C a Ha Hp) as (o' & Hb & Hs).
    destruct (core_listed _ _ _ _ _ _ _ C Hb) as (a' & Hs' & Hf & _ & _ & Ho' & _).
    rewrite Hs in Hs'. injection Hs' as <-. by rewrite <- Ho, Ho'.
Qed.

Lemma elem_of_fl_del b FL o x :
  NoDup (FL o) -> x ∈ fl_del b FL o <-> x ∈ FL o /\ x <> b.
Proof. apply AList.elem_of_list_del. Qed.

Lemma elem_of_fl_add o b FL k x :
  x ∈ fl_add o b FL k <-> (k = o /\ x = b) \/ x ∈ FL k.
Proof. unfold fl_add. case_decide; set_solver. Qed.

Lemma pg_upd_eq a p PG : pg_upd a p PG a = p.
Proof. unfold pg_upd. by rewrite decide_True. Qed.

Lemma pg_upd_ne a p PG x : x <> a -> pg_upd a p PG x = PG x.
Proof. intros. unfold pg_upd. by rewrite decide_False. Qed.

(** Detaching a free block: unlinked, its metadata dropped, its page without
    metadata (and of any order). *)
Lemma core_detach FL BS PG F A a o p :
  core FL BS PG F A -> F !! a = Some o -> A !! a = None -> private p = NULL ->
  core (fl_del (private (PG a)) FL) (delete (private (PG a)) BS) (pg_upd a p PG) (delete a F) A.
Proof.
  intros C Ha HA Hp. destruct (core_block _ _ _ _ _ _ _ C Ha) as (Hr & Ho & Ho' & Hn & Hb & Hs).
  set (b := private (PG a)) in *.
  assert (Hother : forall k x, x ∈ FL k -> x <> b -> exists c, BS !! x = Some c /\ c <> a /\
    F !! c = Some k /\ rpage c /\ order (PG c) = k /\ private (PG c) = x).
  { intros k x Hx Hne. destruct (core_listed _ _ _ _ _ _ _ C Hx) as (c & Hc & Hf & Hrc & _ & ? & E & _).
    exists c. split_and!; try done. intros ->. done. }
  split.
  - intros c k. rewrite lookup_delete_Some, (c_free _ _ _ _ _ C). split.
    + intros (Hne & x & Hx & Hxs). exists x.
      assert (x <> b) by (intros ->; congruence).
      rewrite elem_of_fl_del, lookup_delete_ne by (done || apply (c_nodup _ _ _ _ _ C)). done.
    + intros (x & Hx & Hxs). apply elem_of_fl_del in Hx as [Hx Hxb]; [|apply (c_nodup _ _ _ _ _ C)].
      apply lookup_delete_Some in Hxs as [_ Hxs].
      destruct (Hother k x Hx Hxb) as (c' & Hc' & Hne & _). split; [congruence|by exists x].
  - intros k x Hx. apply elem_of_fl_del in Hx as [Hx Hxb]; [|apply (c_nodup _ _ _ _ _ C)].
    destruct (c_fl _ _ _ _ _ C k x Hx) as (? & ? & _).
    destruct (Hother k x Hx Hxb) as (c & ? & ? & _ & ?). split_and!; [lia|lia|done|].
    exists c. by rewrite lookup_delete_ne, pg_upd_ne by done.
  - intros k. apply AList.NoDup_list_del, (c_nodup _ _ _ _ _ C).
  - intros c k Hc. rewrite pg_upd_ne by congruence. by apply (c_alloc _ _ _ _ _ C).
  - intros c Hc. destruct (decide (c = a)) as [->|Hne]; [by rewrite pg_upd_eq, Hp|].
    rewrite pg_upd_ne by done. intros Hpc. destruct (c_priv _ _ _ _ _ C c Hc Hpc) as (k & Hk & Hks).
    assert (private (PG c) <> b) by (intros E; congruence).
    exists k. rewrite elem_of_fl_del, lookup_delete_ne by (done || apply (c_nodup _ _ _ _ _ C)). done.
Qed.

(** Attaching a block that is neither free nor allocated, with fresh
    metadata. *)
Lemma core_attach FL BS PG F A a o p :
  core FL BS PG F A -> rpage a -> 0 <= o <= BUDDY_MAX_ORDER ->
  F !! a = None -> A !! a = None ->
  BS !! private p = None -> private p <> NULL -> order p = o ->
  core (fl_add o (private p) FL) (<[private p := a]> BS) (pg_upd a p PG) (<[a := o]> F) A.
Proof.
  intros C Hr Ho HF HA Hf Hn Hop. set (b := private p) in *.
  assert (Hother : forall k x, x ∈ FL k -> x <> b /\ exists c, BS !! x = Some c /\ c <> a /\
    rpage c /\ order (PG c) = k /\ private (PG c) = x /\ 0 <= k <= BUDDY_MAX_ORDER /\ x <> NULL).
  { intros k x Hx. destruct (core_listed _ _ _ _ _ _ _ C Hx) as (c & Hc & Hfc & ? & ? & ? & ? & ?).
    split; [congruence|]. exists c. split_and!; try done; try lia. congruence. }
  split.
  - intros c k. rewrite lookup_insert_Some. split.
    + intros [[<- <-]|[Hne Hc]].
      * exists b. rewrite elem_of_fl_add, lookup_insert_eq. naive_solver.
      * apply (c_free _ _ _ _ _ C) in Hc as (x & Hx & Hxs). exists x.
        destruct (Hother k x Hx) as [? _]. rewrite elem_of_fl_add, lookup_insert_ne by done. auto.
    + intros (x & Hx & Hxs). apply elem_of_fl_add in Hx as [[-> ->]|Hx].
      * rewrite lookup_insert_eq in Hxs. injection Hxs as <-. by left.
      * destruct (Hother k x Hx) as (? & c' & Hc' & ? & _).
        rewrite lookup_insert_ne in Hxs by done. right. split; [congruence|].
        apply (c_free _ _ _ _ _ C). by exists x.
  - intros k x Hx. apply elem_of_fl_add in Hx as [[-> ->]|Hx].
    + split_and!; [lia|lia|done|]. exists a. by rewrite lookup_insert_eq, pg_upd_eq.
    + destruct (Hother k x Hx) as (? & c & ? & ? & ? & ? & ? & ? & ?).
      split_and!; [lia|lia|done|]. exists c. by rewrite lookup_insert_ne, pg_upd_ne by done.
  - intros k. unfold fl_add. case_decide as E; [|apply (c_nodup _ _ _ _ _ C)].
    apply NoDup_cons. split; [|apply (c_nodup _ _ _ _ _ C)]. intros Hin. by apply Hother in Hin as [? _].
  - intros c k Hc. rewrite pg_upd_ne by congruence. by apply (c_alloc _ _ _ _ _ C).
  - intros c Hc. destruct (decide (c = a)) as [->|Hne].
    + rewrite pg_upd_eq. intros _. exists o. rewrite elem_of_fl_add, lookup_insert_eq. auto.
    + rewrite pg_upd_ne by done. intros Hp. destruct (c_priv _ _ _ _ _ C c Hc Hp) as (k & Hk & Hks).
      destruct (Hother k _ Hk) as [? _]. exists k. rewrite elem_of_fl_add, lookup_insert_ne by done. auto.
Qed.

(** A page without metadata becomes the start of an allocated block of the
    order it records, and back. *)
Lemma core_take FL BS PG F A a o :
  core FL BS PG F A -> rpage a -> private (PG a) = NULL -> order (PG a) = o ->
  core FL BS PG F (<[a := o]> A).
Proof.
  intros [C1 C2 C3 C4 C5] Hr Hp Ho. split; try done.
  intros c k [[<- <-]|[_ Hc]]%lookup_insert_Some; [done|by apply C4].
Qed.

Lemma core_drop FL BS PG F A a : core FL BS PG F A -> core FL BS PG F (delete a A).
Proof.
  intros [C1 C2 C3 C4 C5]. split; try done.
  intros c k [_ Hc]%lookup_delete_Some. by apply C4.
Qed.

(** The lower block of a pair of buddies absorbs the upper one. *)
Lemma core_merge FL BS PG F A l u i :
  core FL BS PG F A -> F !! l = Some i -> F !! u = Some i -> l <> u ->
  A !! l = None -> A !! u = None -> i < BUDDY_MAX_ORDER ->
  let lb := private (PG l) in let ub := private (PG u) in
  core (fl_add (i + 1) lb (fl_del lb (fl_del ub FL))) (delete ub BS)
    (pg_upd l (set_order (i + 1) (PG l))
       (pg_upd u (set_order (BUDDY_MAX_ORDER + 1) (set_private NULL (PG u))) PG))
    (<[l := i + 1]> (delete u F)) A.
Proof.
  intros C Hl Hu Hne Al Au Hi lb ub.
  destruct (core_block _ _ _ _ _ _ _ C Hl) as (Hrl & Hol & _ & Hnl & _ & Hsl). fold lb in Hnl, Hsl.
  pose proof (core_detach _ _ _ _ _ u i (set_order (BUDDY_MAX_ORDER + 1) (set_private NULL (PG u)))
    C Hu Au eq_refl) as C1. fold ub in C1.
  assert (lb <> ub) as Hbne.
  { intros E. destruct (core_block _ _ _ _ _ _ _ C Hu) as (_ & _ & _ & _ & _ & Hsu).
    fold ub in Hsu. congruence. }
  assert (delete u F !! l = Some i) as Hl1 by (by rewrite lookup_delete_ne).
  pose proof (core_detach _ _ _ _ _ l i (set_private NULL (PG l)) C1 Hl1 Al eq_refl) as C2.
  rewrite pg_upd_ne in C2 by done. fold lb in C2.
  pose proof (core_attach _ _ _ _ _ l (i + 1) (set_order (i + 1) (PG l)) C2 Hrl ltac:(lia)
    ltac:(apply lookup_delete_eq) Al ltac:(apply lookup_delete_eq) Hnl eq_refl) as C3.
  change (private (set_order (i + 1) (PG l))) with lb in C3.
  rewrite !insert_delete_eq, (insert_id (delete ub BS)) in C3 by (by rewrite lookup_delete_ne).
  eapply core_ext; [done| |exact C3]. intros x _. unfold pg_upd. by repeat case_decide.
Qed.

(** A block of order [o + 1] is halved; [nb] is the metadata of its upper
    half. *)
Lemma core_split FL BS PG F A a u o nb :
  core FL BS PG F A -> F !! a = Some (o + 1) -> F !! u = None -> 0 <= o ->
  A !! a = None -> A !! u = None -> rpage u -> BS !! nb = None -> nb <> NULL ->
  let b := private (PG a) in
  core (fl_add o nb (fl_add o b (fl_del b FL))) (<[nb := u]> BS)
    (pg_upd u (set_private nb (set_order o (PG u))) (pg_upd a (set_order o (PG a)) PG))
    (<[a := o]> (<[u := o]> F)) A.
Proof.
  intros C Ha Hu Ho Aa Au Hru Hf Hn b.
  assert (a <> u) as Hne by (intros ->; congruence).
  destruct (core_block _ _ _ _ _ _ _ C Ha) as (Hra & Hoa & _ & Hnb & _ & Hsa). fold b in Hnb, Hsa.
  pose proof (core_detach _ _ _ _ _ a (o + 1) (set_private NULL (PG a)) C Ha Aa eq_refl) as C1.
  fold b in C1.
  pose proof (core_attach _ _ _ _ _ a o (set_order o (PG a)) C1 Hra ltac:(lia)
    ltac:(apply lookup_delete_eq) Aa ltac:(apply lookup_delete_eq) Hnb eq_refl) as C2.
  change (private (set_order o (PG a))) with b in C2.
  rewrite !insert_delete_eq, (insert_id BS) in C2 by done.
  assert (<[a := o]> F !! u = None) as Hu2 by (by rewrite lookup_insert_ne).
  pose proof (core_attach _ _ _ _ _ u o (set_private nb (set_order o (PG u))) C2 Hru ltac:(lia)
    Hu2 Au Hf Hn eq_refl) as C3.
  rewrite insert_insert_ne in C3 by done.
  eapply core_ext; [done| |exact C3]. intros x _. unfold pg_upd. by repeat case_decide.
Qed.

(** A free block is handed out. *)
Lemma core_alloc FL BS PG F A a o :
  core FL BS PG F A -> F !! a = Some o -> A !! a = None ->
  core (fl_del (private (PG a)) FL) (delete (private (PG a)) BS)
    (pg_upd a (set_private NULL (PG a)) PG) (delete a F) (<[a := o]> A).
Proof.
  intros C Ha HA. destruct (core_block _ _ _ _ _ _ _ C Ha) as (Hr & _ & Ho & _).
  apply core_take; [by apply core_detach with o|done|..]; by rewrite pg_upd_eq.
Qed.

(** A block comes back. *)
Lemma core_give FL BS PG F A a o nb :
  core FL BS PG F A -> A !! a = Some o -> F !! a = None -> 0 <= o <= BUDDY_MAX_ORDER ->
  BS !! nb = None -> nb <> NULL ->
  core (fl_add o nb FL) (<[nb := a]> BS) (pg_upd a (set_private nb (PG a)) PG)
    (<[a := o]> F) (delete a A).
Proof.
  intros C HA HF Ho Hf Hn. destruct (c_alloc _ _ _ _ _ C a o HA) as (Hr & Hop & _).
  apply (core_attach _ _ _ _ _ a o (set_private nb (PG a))); try done;
    [by apply core_drop|apply lookup_delete_eq].
Qed.

End core.
