(* ===== verification/BuddyProof.v ===== *)
(** The code of the buddy allocator implements its abstract specification:
    merging and splitting are abstract steps, allocation takes a free block of
    the least sufficient order or there is none, freeing gives it back. *)

From S2P Require Import Prelude Bits ListHead Pm Sync Early Buddy BuddySpec BuddyCore.

(** The descriptor of the page at an address. *)
Definition pgat {M} (s : buddy M) (a : Z) : page := page_at (pages s) (addr2index a).

Section rep.
Context `{HL : Layout} {HOk : LayoutOk} {M : Type} `{HM : MetaAlloc M}
  {own : M -> gset Z -> nat -> Prop} {HMOk : MetaAllocOk M own}.
Implicit Types s : buddy M.

(** The concrete state represents the blocks [B], the metadata allocator
    having room for [n] more blocks. *)
Record rep s (B : blocks) (n : nat) : Prop := {
  rep_core : core (fl s) (blk_start s) (pgat s) (bfree B) (balloc B);
  rep_inv : binv B;
  rep_meta : own (meta s) (dom (blk_start s)) n;
  rep_count : buddy_free_pages s = pages_in (bfree B);
  rep_total : pages_in (bfree B) + pages_in (balloc B) = Z.of_nat blob_num * 2 ^ BUDDY_MAX_ORDER
}.

(** What no operation on the blocks touches. *)
Definition same_rest s s' : Prop :=
  blk_lock s' = blk_lock s /\ buddy_inited s' = buddy_inited s.

(** ** Small facts *)

Lemma rpage_ram a : rpage a -> PM_START <= a < PM_END.
Proof.
  intros [_ Ha]. pose proof layout_facts as (F1 & F2 & F3 & F4 & F5 & F6 & _). mem_nums. lia.
Qed.

Lemma blk_rpage a o : blk_ok a o -> rpage a.
Proof.
  intros (O1 & O2 & O3 & O4). pose proof (bsize_pos o ltac:(lia)). split; [|lia].
  replace PAGE_SIZE with (bsize 0) by done. by apply (mod_bsize_mono 0 o); [lia|].
Qed.

Lemma page_of_rpage a : rpage a -> addr2page a = Some (addr2index a).
Proof.
  intros Ha%rpage_ram. rewrite addr2page_in by done. by destruct (addr2index_in a Ha) as [-> _].
Qed.

Lemma rpage_index a : rpage a -> 0 <= addr2index a < PAGE_NUM.
Proof. intros Ha%rpage_ram. by apply addr2index_in. Qed.

Lemma rpage_inj a b : rpage a -> rpage b -> addr2index a = addr2index b -> a = b.
Proof.
  intros Ha Hb. pose proof (rpage_ram a Ha) as Ra. pose proof (rpage_ram b Hb) as Rb.
  destruct (addr2index_in a Ra) as [-> _]. destruct (addr2index_in b Rb) as [-> _].
  destruct Ha as [Ma _], Hb as [Mb _].
  apply mult_mod in Ma as [p ->]; [|done]. apply mult_mod in Mb as [q ->]; [|done]. mem_nums.
  replace (4096 * p - 2147483648) with ((p - 524288) * 4096) by lia.
  replace (4096 * q - 2147483648) with ((q - 524288) * 4096) by lia.
  rewrite !Z.div_mul by lia. lia.
Qed.

Lemma page_at_upd t a x p :
  rpage a -> rpage x ->
  page_at (<[addr2index a := p]> t) (addr2index x) = if decide (x = a) then p else page_at t (addr2index x).
Proof.
  intros Ha Hx. rewrite page_at_insert. case_decide as E.
  - rewrite decide_True; [done|]. by apply rpage_inj.
  - rewrite decide_False; [done|]. congruence.
Qed.

Lemma fl_insert (m : gmap Z (list Z)) o l k :
  default [] (<[o := l]> m !! k) = if decide (k = o) then l else default [] (m !! k).
Proof. case_decide as E; [subst; by rewrite lookup_insert_eq|by rewrite lookup_insert_ne]. Qed.

Lemma fl_fmap_del (m : gmap Z (list Z)) b k :
  default [] ((AList.list_del b <$> m) !! k) = AList.list_del b (default [] (m !! k)).
Proof. rewrite lookup_fmap. by destruct (m !! k). Qed.

(** ** The primitive operations *)

Lemma in_array_ok o : 0 <= o <= BUDDY_MAX_ORDER -> in_array o = true.
Proof. intros. unfold in_array. by case_Z; try lia. Qed.

Lemma wp_get_fl E o (Q : list Z -> buddy M -> Prop) s :
  0 <= o <= BUDDY_MAX_ORDER -> Q (fl s o) s -> wp E (get_fl o) Q s.
Proof. intros Ho HQ. eapply wp_load; [by rewrite in_array_ok|done]. Qed.

Lemma wp_upd_fl E o f (Q : unit -> buddy M -> Prop) s :
  0 <= o <= BUDDY_MAX_ORDER ->
  Q tt (set_free_list (<[o := f (fl s o)]> (free_list s)) s) -> wp E (upd_fl o f) Q s.
Proof. intros Ho HQ. eapply wp_store; [by rewrite in_array_ok|done]. Qed.

Lemma wp_del_block E b o (Q : unit -> buddy M -> Prop) s :
  0 <= o <= BUDDY_MAX_ORDER -> b ∈ fl s o ->
  Q tt (set_free_list (AList.list_del b <$> free_list s) s) -> wp E (del_block b) Q s.
Proof.
  intros Ho Hb HQ. eapply wp_store; [|done]. cbn.
  assert (listed b s = true) as ->; [|done]. unfold listed. apply existsb_exists. exists o. split.
  - apply list_elem_of_In, elem_of_seqZ. lia.
  - by apply bool_decide_eq_true.
Qed.

Lemma wp_get_start E b a (Q : Z -> buddy M -> Prop) s :
  blk_start s !! b = Some a -> Q a s -> wp E (get_start b) Q s.
Proof. intros Hb HQ. by eapply wp_load. Qed.

Lemma wp_page_of E a (Q : Z -> buddy M -> Prop) s :
  rpage a -> Q (addr2index a) s -> wp E (page_of a) Q s.
Proof. intros Ha HQ. unfold page_of. by rewrite page_of_rpage. Qed.

Lemma wp_get_page E a (Q : page -> buddy M -> Prop) s :
  rpage a -> Q (pgat s a) s -> wp E (on_pages (get_page (addr2index a))) Q s.
Proof.
  intros Ha HQ. apply wp_lift. eapply wp_load; [rewrite decide_True by (by apply rpage_index); done|].
  cbn. by destruct s.
Qed.

Lemma wp_upd_page E a f (Q : unit -> buddy M -> Prop) s :
  rpage a -> Q tt (set_pages (<[addr2index a := f (pgat s a)]> (pages s)) s) ->
  wp E (on_pages (upd_page (addr2index a) f)) Q s.
Proof.
  intros Ha HQ. apply wp_lift. eapply wp_store; [rewrite decide_True by (by apply rpage_index); done|].
  done.
Qed.

Lemma wp_free_mem_block E b X n (Q : unit -> buddy M -> Prop) s :
  own (meta s) X n -> b ∈ X ->
  (forall m', own m' (X ∖ {[b]}) n ->
    Q tt (set_blk_start (delete b (blk_start s)) (set_meta m' s))) ->
  wp E (free_mem_block b) Q s.
Proof.
  intros Ho Hb HQ. apply wp_bind, wp_lift.
  eapply wp_mono; [by apply meta_free_ok|done|]. cbn. intros [] m' Hm'.
  by apply wp_modify, HQ.
Qed.

Lemma wp_alloc_mem_block X n (Q : Z -> buddy M -> Prop) s :
  own (meta s) X n ->
  (forall p m', own m' X O -> p = NULL -> n = O -> Q p (set_meta m' s)) ->
  (forall p m', p <> NULL -> p ∉ X -> own m' ({[p]} ∪ X) (pred n) -> Q p (set_meta m' s)) ->
  wp (n = O) alloc_mem_block Q s.
Proof.
  intros Ho H1 H2. apply wp_lift. eapply wp_mono; [by apply meta_alloc_ok|done|].
  cbn. intros p m' [(-> & -> & ?)|(? & ? & ?)]; auto.
Qed.

(** *** Facts about free blocks in a represented state *)

Lemma rep_block s B n a o :
  rep s B n -> bfree B !! a = Some o ->
  rpage a /\ 0 <= o <= BUDDY_MAX_ORDER /\ order (pgat s a) = o /\ private (pgat s a) <> NULL /\
  private (pgat s a) ∈ fl s o /\ blk_start s !! private (pgat s a) = Some a.
Proof. intros R. apply (core_block _ _ _ _ _ _ _ (rep_core _ _ _ R)). Qed.

Lemma rep_listed s B n b o :
  rep s B n -> b ∈ fl s o ->
  exists a, blk_start s !! b = Some a /\ bfree B !! a = Some o /\ rpage a /\
    0 <= o <= BUDDY_MAX_ORDER /\ order (pgat s a) = o /\ private (pgat s a) = b /\ b <> NULL.
Proof. intros R. apply (core_listed _ _ _ _ _ _ _ (rep_core _ _ _ R)). Qed.

Lemma free_not_alloc B a o : binv B -> bfree B !! a = Some o -> balloc B !! a = None.
Proof.
  intros HB Ha. apply eq_None_not_Some. intros [o' Ho']. by eapply (bi_excl _ HB).
Qed.

Lemma free_blk_ok B a o : binv B -> bfree B !! a = Some o -> blk_ok a o.
Proof. intros HB Ha. apply (bi_ok _ HB). by left. Qed.

(** The number of pages of any block is small. *)
Lemma order_bound o : 0 <= o <= BUDDY_MAX_ORDER -> 0 < 2 ^ o <= 2048.
Proof.
  intros Ho. split; [apply pow2_pos; lia|].
  change 2048 with (2 ^ BUDDY_MAX_ORDER). apply Z.pow_le_mono_r; lia.
Qed.

Lemma order_succ o : 0 <= o <= BUDDY_MAX_ORDER -> in_width 8 (o + 1).
Proof. change BUDDY_MAX_ORDER with 11. unfold in_width. lia. Qed.

Lemma order_pred o : 0 < o <= BUDDY_MAX_ORDER -> in_width 8 (o - 1).
Proof. change BUDDY_MAX_ORDER with 11. unfold in_width. lia. Qed.

(** ** Merging one pair *)

(** The views before and after merging at order [i] agree below [i]. *)
Definition same_below (i : Z) (B B' : blocks) : Prop :=
  forall j a, j < i -> bfree B' !! a = Some j <-> bfree B !! a = Some j.

Lemma same_below_refl i B : same_below i B B.
Proof. done. Qed.

Lemma same_below_trans i B1 B2 B3 : same_below i B1 B2 -> same_below i B2 B3 -> same_below i B1 B3.
Proof. intros H1 H2 j a Hj. etrans; [by apply H2|by apply H1]. Qed.

(** The state that merging leaves, however it is reached. *)
Lemma rep_merge s B n l u i s' :
  rep s B n -> bfree B !! l = Some i -> bfree B !! u = Some i -> u = l + bsize i ->
  l mod bsize (i + 1) = 0 -> i < BUDDY_MAX_ORDER ->
  let lb := private (pgat s l) in let ub := private (pgat s u) in
  (forall o, fl s' o ≡ₚ fl_add (i + 1) lb (fl_del lb (fl_del ub (fl s))) o) ->
  blk_start s' = delete ub (blk_start s) ->
  (forall a, rpage a -> pgat s' a = pg_upd l (set_order (i + 1) (pgat s l))
    (pg_upd u (set_order (BUDDY_MAX_ORDER + 1) (set_private NULL (pgat s u))) (pgat s)) a) ->
  own (meta s') (dom (blk_start s) ∖ {[ub]}) n ->
  buddy_free_pages s' = buddy_free_pages s -> same_rest s s' ->
  exists B', bstep B B' /\ rep s' B' n /\ same_rest s s' /\
    (length (fl s' i) < length (fl s i))%nat /\ same_below i B B'.
Proof.
  intros R Hl Hu -> Hlm Hi lb ub EF EB EP Hown Hc Hrest. destruct B as [F A]; cbn [bfree balloc] in *.
  pose proof (rep_inv _ _ _ R) as HB.
  destruct (free_blk_ok _ _ _ HB Hl) as (Ho & _). pose proof (bsize_pos i ltac:(lia)).
  exists (Blocks (<[l := i + 1]> (delete (l + bsize i) F)) A).
  assert (bstep (Blocks F A) (Blocks (<[l := i + 1]> (delete (l + bsize i) F)) A)) as Hst
    by (by apply bstep_merge).
  destruct (bstep_frame _ _ Hst HB) as (_ & Hp & _). cbn [bfree] in Hp.
  destruct (rep_block _ _ _ _ _ R Hl) as (_ & _ & _ & _ & Hlb & _).
  destruct (rep_block _ _ _ _ _ R Hu) as (_ & _ & _ & _ & Hub & Hus).
  split_and!; [done| |done| |].
  - split; cbn [bfree balloc].
    + eapply core_ext; [exact EF|exact EP|]. rewrite EB.
      apply core_merge; [apply (rep_core _ _ _ R)|done|done|lia|..|done].
      * by apply (free_not_alloc (Blocks F A) l i).
      * by apply (free_not_alloc (Blocks F A) (l + bsize i) i).
    + by apply (bstep_binv (Blocks F A)).
    + rewrite EB, dom_delete_L. done.
    + rewrite Hc, Hp. apply (rep_count _ _ _ R).
    + rewrite Hp. apply (rep_total _ _ _ R).
  - rewrite EF. unfold fl_add, fl_del. rewrite decide_False by lia.
    rewrite (AList.length_list_del ub (fl s i)) by done.
    pose proof (sublist_length _ _ (AList.list_del_sublist lb (AList.list_del ub (fl s i)))). lia.
  - intros j a Hj. cbn [bfree]. destruct (decide (a = l)) as [->|].
    { rewrite lookup_insert_eq, Hl. split; intros; simplify_eq; lia. }
    rewrite lookup_insert_ne by done.
    destruct (decide (a = l + bsize i)) as [->|]; [|by rewrite lookup_delete_ne].
    rewrite lookup_delete_eq, Hu. split; intros; simplify_eq; lia.
Qed.

(** The descriptor of a page after the updates of a branch. *)
Lemma pgat_upd s a x p :
  rpage a -> rpage x ->
  page_at (<[addr2index a := p]> (pages s)) (addr2index x) = pg_upd a p (pgat s) x.
Proof. intros. unfold pg_upd. by rewrite page_at_upd. Qed.

(** Compute the descriptors of pages after a series of updates. *)
Ltac pg_simp :=
  unfold pgat; cbn [pages set_pages set_free_list set_blk_start set_meta set_free_pages set_inited];
  repeat first
    [ rewrite page_at_upd by done
    | rewrite decide_True by done
    | rewrite decide_False by done ];
  cbn [order private set_order set_private];
  repeat match goal with
  | |- context [page_at (pages ?t) (addr2index ?x)] =>
      change (page_at (pages t) (addr2index x)) with (pgat t x)
  end.

Lemma merge_pair_spec s B n i a :
  rep s B n -> i < BUDDY_MAX_ORDER ->
  bfree B !! a = Some i -> bfree B !! get_buddy_addr a i = Some i ->
  wp False
    (merge_pair (private (pgat s a)) (addr2index a) (addr2index (get_buddy_addr a i))
       (private (pgat s (get_buddy_addr a i))))
    (fun _ s' => exists B', bstep B B' /\ rep s' B' n /\ same_rest s s' /\
       (length (fl s' i) < length (fl s i))%nat /\ same_below i B B') s.
Proof.
  intros R Hi Ha Hb. pose proof (rep_inv _ _ _ R) as HB. set (b := get_buddy_addr a i) in *.
  destruct (free_blk_ok _ _ _ HB Ha) as (Hio & Hal & _). pose proof (bsize_pos i ltac:(lia)).
  destruct (rep_block _ _ _ _ _ R Ha) as (Hra & _ & Hoa & Hna & Hla & Hsa).
  destruct (rep_block _ _ _ _ _ R Hb) as (Hrb & _ & Hob & Hnb & Hlb & Hsb).
  assert (a <> b) as Hne.
  { unfold b. destruct (buddy_addr_cases a i ltac:(lia) Hal) as [[_ ->]|[_ ->]]; lia. }
  assert (private (pgat s b) <> private (pgat s a)) as Hbne by congruence.
  unfold merge_pair. apply wp_bind. eapply wp_del_block; [exact Hio|exact Hla|].
  apply wp_bind. eapply (wp_del_block _ _ i); [exact Hio| |].
  { unfold fl; cbn. rewrite fl_fmap_del. apply AList.elem_of_list_del; [|done].
    apply (c_nodup _ _ _ _ _ (rep_core _ _ _ R)). }
  apply wp_bind. eapply wp_get_start; [exact Hsa|].
  apply wp_bind. eapply wp_get_start; [exact Hsb|].
  pose proof (rep_meta _ _ _ R) as Hm.
  destruct (Z.ltb_spec b a) as [Hlt|Hge].
  - apply wp_bind. eapply (wp_free_mem_block _ _ (dom (blk_start s))); [exact Hm|by apply elem_of_dom|].
    intros m' Hm'. apply wp_bind, wp_upd_page; [done|]. apply wp_bind, wp_upd_page; [done|].
    apply wp_bind, wp_upd_page; [done|]. apply wp_bind, wp_get_page; [done|]. pg_simp.
    rewrite Hob, wrap_small by (by apply order_succ). apply wp_upd_fl; [lia|].
    eapply (rep_merge s B n b a i); try done.
    + destruct (buddy_addr_cases a i ltac:(lia) Hal) as [[_ E]|[_ E]]; unfold b in *; lia.
    + destruct (buddy_addr_cases a i ltac:(lia) Hal) as [[_ E]|[E1 E]]; unfold b in *; [lia|].
      by rewrite E.
    + intros o. unfold fl, fl_add, fl_del; cbn. rewrite fl_insert. unfold fl; cbn.
      case_decide as E; [subst o|]; by rewrite !fl_fmap_del.
    + intros x Hx. pg_simp. unfold pg_upd. by repeat case_decide; subst.
  - apply wp_bind. eapply (wp_free_mem_block _ _ (dom (blk_start s))); [exact Hm|by apply elem_of_dom|].
    intros m' Hm'. apply wp_bind, wp_upd_page; [done|]. apply wp_bind, wp_upd_page; [done|].
    apply wp_bind, wp_upd_page; [done|]. apply wp_bind, wp_get_page; [done|]. pg_simp.
    rewrite Hoa, wrap_small by (by apply order_succ). apply wp_upd_fl; [lia|].
    eapply (rep_merge s B n a b i); try done.
    + destruct (buddy_addr_cases a i ltac:(lia) Hal) as [[_ E]|[_ E]]; unfold b in *; lia.
    + by destruct (buddy_addr_cases a i ltac:(lia) Hal) as [[? E]|[E1 E]]; unfold b in *; [|lia].
    + intros o. unfold fl, fl_add, fl_del; cbn. rewrite fl_insert. unfold fl; cbn.
      case_decide as E; [subst o|]; by rewrite !fl_fmap_del, AList.list_del_comm.
    + intros x Hx. pg_simp. unfold pg_upd. by repeat case_decide; subst.
Qed.

(** ** Merging *)

Lemma find_pair_spec s B n i l :
  rep s B n -> i < BUDDY_MAX_ORDER -> (forall b, b ∈ l -> b ∈ fl s i) ->
  wp False (find_pair l i)
    (fun r s' => s' = s /\
       match r with
       | Some (block, page, buddy_page, buddy_block) =>
           exists a, bfree B !! a = Some i /\ bfree B !! get_buddy_addr a i = Some i /\
             block = private (pgat s a) /\ page = addr2index a /\
             buddy_page = addr2index (get_buddy_addr a i) /\
             buddy_block = private (pgat s (get_buddy_addr a i))
       | None => forall b a, b ∈ l -> blk_start s !! b = Some a ->
           bfree B !! get_buddy_addr a i <> Some i
       end) s.
Proof.
  intros R Hi. induction l as [|b l IH]; intros Hl; cbn [find_pair].
  { apply wp_ret. split; [done|]. intros b a Hb. by apply elem_of_nil in Hb. }
  destruct (rep_listed _ _ _ _ _ R (Hl b ltac:(set_solver))) as (a & Hs & Hf & Hr & Ho & Hoa & Hp & Hn).
  destruct (buddy_in_region a i) as (G1 & G2 & G3);
    [by apply (free_blk_ok B), (rep_inv _ _ _ R) || apply (free_blk_ok _ _ _ (rep_inv _ _ _ R) Hf)|done|].
  assert (rpage (get_buddy_addr a i)) as Hrb.
  { apply (blk_rpage _ i). split_and!; done || lia. }
  apply wp_bind. eapply wp_get_start; [done|]. apply wp_bind, wp_page_of; [done|].
  apply wp_bind, wp_get_page; [done|]. rewrite Hoa.
  apply wp_bind, wp_page_of; [done|]. apply wp_bind, wp_get_page; [done|].
  pose proof (core_free_page _ _ _ _ _ _ i (rep_core _ _ _ R) Hrb) as Hfree.
  destruct (Z.eqb_spec (private (pgat s (get_buddy_addr a i))) NULL) as [E1|E1]; cbn [orb];
    [|destruct (Z.eqb_spec (order (pgat s (get_buddy_addr a i))) i) as [E2|E2]; cbn [negb]].
  2: { apply wp_ret. split; [done|]. exists a. split_and!; try done. by apply Hfree. }
  all: eapply wp_mono; [apply IH; set_solver|done|];
    intros r s' [-> Hr']; split; [done|]; destruct r as [[[[??]?]?]|]; [done|];
    intros b' a' [->|Hb']%elem_of_cons Hs'; [|by apply (Hr' b')];
    assert (a' = a) as -> by congruence; intros [? ?]%Hfree; congruence.
Qed.

Lemma merge_level_spec fuel : forall s B n i,
  rep s B n -> 0 <= i < BUDDY_MAX_ORDER -> (length (fl s i) < fuel)%nat ->
  wp False (merge_level fuel i)
    (fun _ s' => exists B', rtc bstep B B' /\ rep s' B' n /\ same_rest s s' /\
       same_below i B B' /\ merged (bfree B') i) s.
Proof.
  induction fuel as [|fuel IH]; intros s B n i R Hi Hf; [lia|]. cbn [merge_level].
  apply wp_bind, wp_get_fl; [lia|].
  eapply wp_bind_mono; [apply (find_pair_spec s B n); [done|lia|done]|].
  intros [[[[block page] bp] bb]|] s' [-> Hr].
  - destruct Hr as (a & Ha & Hb & -> & -> & -> & ->).
    eapply wp_bind_mono; [apply (merge_pair_spec s B n); [done|lia|done..]|].
    intros _ s1 (B1 & Hst & R1 & Hrest & Hlen & Hlow).
    eapply wp_mono; [apply (IH s1 B1 n); [done|done|lia]|done|].
    intros _ s2 (B2 & Hst2 & R2 & Hrest2 & Hlow2 & Hm). exists B2.
    split_and!; [by eapply rtc_l|done| |by eapply same_below_trans|done].
    destruct Hrest as [? ?], Hrest2 as [? ?]. split; congruence.
  - apply wp_ret. exists B. split_and!; [done|done|done|apply same_below_refl|].
    intros a Ha. destruct (rep_block _ _ _ _ _ R Ha) as (_ & _ & _ & _ & Hb & Hs).
    by apply (Hr (private (pgat s a))).
Qed.

Lemma merged_same_below i j B B' :
  j < i -> same_below i B B' -> merged (bfree B) j -> merged (bfree B') j.
Proof.
  intros Hj Hs Hm a Ha Hb. apply Hs in Ha; [|done]. apply Hs in Hb; [|done]. by apply (Hm a).
Qed.

Lemma merge_blocks_spec s B n o :
  rep s B n -> 0 <= o <= BUDDY_MAX_ORDER ->
  wp False (merge_blocks o)
    (fun _ s' => exists B', rtc bstep B B' /\ rep s' B' n /\ same_rest s s' /\
       forall j, 0 <= j < o -> merged (bfree B') j) s.
Proof.
  intros R Ho. unfold merge_blocks.
  eapply wp_mono; [apply (wp_for_up False (fun i s' =>
     exists B', rtc bstep B B' /\ rep s' B' n /\ same_rest s s' /\
       forall j, 0 <= j < i -> merged (bfree B') j))|done|].
  - rewrite Z2Nat.id by lia. intros i t Hi (B1 & Hst & R1 & Hrest & Hm).
    apply wp_bind, wp_get_fl; [lia|]. destruct (fl t i) as [|b l] eqn:El.
    + apply wp_ret. exists B1. split_and!; [done..|]. intros j Hj.
      destruct (decide (j = i)) as [->|]; [|apply Hm; lia].
      intros a Ha. destruct (rep_block _ _ _ _ _ R1 Ha) as (_ & _ & _ & _ & Hb & _).
      rewrite El in Hb. by apply elem_of_nil in Hb.
    + eapply wp_mono; [apply (merge_level_spec _ t B1 n); [done|lia|rewrite El; cbn; lia]|done|].
      intros _ s' (B2 & Hst2 & R2 & Hrest2 & Hlow & Hmi). exists B2.
      split_and!; [by etrans|done|destruct Hrest as [? ?], Hrest2 as [? ?]; split; congruence|].
      intros j Hj. destruct (decide (j = i)) as [->|]; [done|].
      eapply merged_same_below; [|done|apply Hm]; lia.
  - exists B. split_and!; [done|done|done|lia].
  - cbn. rewrite Z2Nat.id by lia. done.
Qed.

(** ** Splitting *)

Lemma find_source_spec fuel : forall s o,
  0 <= o <= BUDDY_MAX_ORDER + 1 -> BUDDY_MAX_ORDER + 1 - o < Z.of_nat fuel ->
  wp False (find_source fuel o)
    (fun r s' => s' = s /\ o <= r <= BUDDY_MAX_ORDER + 1 /\
       (r <= BUDDY_MAX_ORDER -> fl s r <> []) /\
       (forall j, o <= j < r -> fl s j = [])) s.
Proof.
  induction fuel as [|fuel IH]; intros s o Ho Hf; [lia|]. cbn [find_source].
  destruct (Z.leb_spec o BUDDY_MAX_ORDER) as [Hle|Hgt].
  - apply wp_bind, wp_get_fl; [lia|]. destruct (fl s o) as [|b l] eqn:El.
    + rewrite wrap_small by (apply order_succ; lia).
      eapply wp_mono; [apply IH; lia|done|]. intros r s' (-> & Hr & Hne & Hall).
      split_and!; [done|lia|lia|done|]. intros j Hj.
      destruct (decide (j = o)) as [->|]; [done|]. apply Hall. lia.
    + apply wp_ret. split_and!; [done|lia|lia|by rewrite El|]. intros j Hj. lia.
  - apply wp_ret. split_and!; [done|lia|lia|lia|]. intros j Hj. lia.
Qed.

Lemma nonempty_block s B n o :
  rep s B n -> fl s o <> [] ->
  exists b l a, fl s o = b :: l /\ blk_start s !! b = Some a /\ bfree B !! a = Some o /\ rpage a /\
    0 <= o <= BUDDY_MAX_ORDER /\ order (pgat s a) = o /\ private (pgat s a) = b /\ b <> NULL.
Proof.
  intros R Hne. destruct (fl s o) as [|b l] eqn:El; [done|]. exists b, l.
  destruct (rep_listed _ _ _ b o R) as (a & Ha); [rewrite El; set_solver|]. exists a. done.
Qed.

Lemma wp_first_block E o b l (Q : Z -> buddy M -> Prop) s :
  0 <= o <= BUDDY_MAX_ORDER -> fl s o = b :: l -> Q b s -> wp E (first_block o) Q s.
Proof. intros Ho El HQ. apply wp_bind, wp_get_fl; [done|]. by rewrite El. Qed.

(** The state that halving a block leaves. *)
Lemma rep_split s B n a o nb s' :
  rep s B n -> bfree B !! a = Some (o + 1) -> 0 <= o ->
  nb <> NULL -> nb ∉ dom (blk_start s) ->
  let u := a + bsize o in let b := private (pgat s a) in
  (forall k, fl s' k ≡ₚ fl_add o nb (fl_add o b (fl_del b (fl s))) k) ->
  blk_start s' = <[nb := u]> (blk_start s) ->
  (forall x, rpage x -> pgat s' x = pg_upd u (set_private nb (set_order o (pgat s u)))
     (pg_upd a (set_order o (pgat s a)) (pgat s)) x) ->
  own (meta s') ({[nb]} ∪ dom (blk_start s)) (pred n) ->
  buddy_free_pages s' = buddy_free_pages s -> same_rest s s' ->
  exists B', bstep B B' /\ rep s' B' (pred n) /\ same_rest s s' /\ fl s' o <> [].
Proof.
  intros R Ha Ho Hn Hd u b EF EB EP Hown Hc Hrest. destruct B as [F A]; cbn [bfree balloc] in *.
  pose proof (rep_inv _ _ _ R) as HB. pose proof (bsize_pos o Ho). pose proof (bsize_succ o Ho).
  destruct (free_blk_ok _ _ _ HB Ha) as (Hoo & Hal & Hlo & Hhi).
  exists (Blocks (<[a := o]> (<[u := o]> F)) A).
  assert (bstep (Blocks F A) (Blocks (<[a := o]> (<[u := o]> F)) A)) as Hst
    by (by apply bstep_split).
  destruct (bstep_frame _ _ Hst HB) as (_ & Hp & _). cbn [bfree] in Hp.
  assert (blk_ok u o) as Huo.
  { apply (bi_ok _ (bstep_binv _ _ Hst HB)). left. cbn. rewrite lookup_insert_ne, lookup_insert_eq; [done|].
    unfold u. lia. }
  assert (F !! u = None /\ A !! u = None) as [Fu Au].
  { split; apply eq_None_not_Some; intros [k Hk];
      assert (is_blk (Blocks F A) u k) as Hblk by (by (left + right));
      destruct (bi_disj _ HB a (o + 1) u k) as [?|?]; try done; try (by left); unfold u in *; try lia;
      destruct (bi_ok _ HB _ _ Hblk) as [? _]; pose proof (bsize_pos k); lia. }
  split_and!; [done| |done|].
  - split; cbn [bfree balloc].
    + eapply core_ext; [exact EF|exact EP|]. rewrite EB.
      apply core_split; [apply (rep_core _ _ _ R)|done|done|done| |done| | |done].
      * by apply (free_not_alloc (Blocks F A) a (o + 1)).
      * by apply (blk_rpage _ o).
      * by apply not_elem_of_dom.
    + by apply (bstep_binv (Blocks F A)).
    + rewrite EB, dom_insert_L. done.
    + rewrite Hc, Hp. apply (rep_count _ _ _ R).
    + rewrite Hp. apply (rep_total _ _ _ R).
  - specialize (EF o). unfold fl_add in EF. rewrite decide_True in EF by done.
    intros E. rewrite E in EF. by apply Permutation_nil in EF.
Qed.

Lemma split_one_spec s B n o :
  rep s B n -> 0 < o -> fl s o <> [] ->
  wp (n = O) (split_one o)
    (fun _ s' => exists B', bstep B B' /\ rep s' B' (pred n) /\ same_rest s s' /\ fl s' (o - 1) <> []) s.
Proof.
  intros R Ho Hne. destruct (nonempty_block s B n o R Hne)
    as (b & l & a & El & Hs & Hf & Hr & Hom & Hoa & Hpa & Hbn).
  pose proof (rep_inv _ _ _ R) as HB. pose proof (bsize_pos (o - 1) ltac:(lia)).
  destruct (free_blk_ok _ _ _ HB Hf) as (_ & Hal & Hlo & Hhi).
  pose proof (bsize_succ (o - 1) ltac:(lia)) as Hsz. replace (o - 1 + 1) with o in Hsz by lia.
  assert (a mod bsize (o - 1) = 0) as Hal' by (apply (mod_bsize_mono (o - 1) o); [lia|done]).
  assert (get_buddy_addr a (o - 1) = a + bsize (o - 1)) as Hbud.
  { destruct (buddy_addr_cases a (o - 1) ltac:(lia) Hal') as [[_ E]|[E _]]; [done|exfalso].
    replace (o - 1 + 1) with o in E by lia. rewrite Hsz in *.
    apply mult_mod in Hal as [p Hp]; [|lia]. apply mult_mod in E as [q Hq]; [|lia].
    assert (2 * p - 1 = 2 * q) by (apply (Z.mul_reg_l _ _ (bsize (o - 1))); lia). lia. }
  set (u := a + bsize (o - 1)) in *.
  assert (rpage u) as Hru.
  { apply (blk_rpage _ (o - 1)). split_and!; try (unfold u; lia).
    apply mult_mod in Hal' as [p Hp]; [|lia]. apply mult_mod; [lia|]. exists (p + 1). unfold u. lia. }
  assert (u <> a) as Hua by (unfold u; lia).
  unfold split_one. apply wp_bind. eapply wp_first_block; [done|done|].
  apply wp_bind. eapply wp_get_start; [done|]. apply wp_bind, wp_page_of; [done|].
  apply wp_bind, wp_get_page; [done|]. rewrite Hoa, Z.eqb_refl. cbn [negb].
  apply wp_bind. eapply (wp_del_block _ _ o); [done|rewrite El; set_solver|].
  rewrite wrap_small by (apply order_pred; lia). rewrite Hbud.
  apply wp_bind. eapply wp_alloc_mem_block; [apply (rep_meta _ _ _ R)|..].
  { intros p m' _ -> ->. by apply wp_panic. }
  intros nb m' Hnb Hfresh Hown. destruct (Z.eqb_spec nb NULL); [done|].
  apply wp_bind, wp_upd_page; [done|]. apply wp_bind, wp_modify.
  apply wp_bind, wp_page_of; [done|]. apply wp_bind, wp_upd_page; [done|].
  apply wp_bind, wp_upd_page; [done|]. apply wp_bind, wp_upd_fl; [lia|]. apply wp_upd_fl; [lia|].
  eapply (rep_split s B n a (o - 1) nb); try done.
  - by replace (o - 1 + 1) with o by lia.
  - lia.
  - rewrite Hpa. intros k. unfold fl, fl_add, fl_del; cbn.
    rewrite !fl_insert. case_decide as E; [subst k|by rewrite fl_fmap_del].
    rewrite !decide_True, fl_fmap_del by done. unfold AList.list_add_tail.
    by rewrite <- !Permutation_cons_append.
  - intros x Hx. fold u. clearbody u. pg_simp. unfold pg_upd. by repeat case_decide; subst.
Qed.

Lemma split_down_spec k : forall s B n o,
  rep s B n -> Z.of_nat k <= o -> fl s o <> [] ->
  wp (n < k)%nat (split_down k o)
    (fun _ s' => exists B', rtc bstep B B' /\ rep s' B' (n - k) /\ same_rest s s' /\
       fl s' (o - Z.of_nat k) <> []) s.
Proof.
  induction k as [|k IH]; intros s B n o R Ho Hne; cbn [split_down].
  - apply wp_ret. exists B. rewrite Nat.sub_0_r, Z.sub_0_r. done.
  - apply wp_bind. eapply wp_mono; [apply (split_one_spec s B n); [done|lia|done]|lia|].
    intros _ s1 (B1 & Hst & R1 & Hrest & Hne1).
    destruct (nonempty_block s B n o R Hne) as (_ & _ & _ & _ & _ & _ & _ & Hom & _).
    rewrite wrap_small by (apply order_pred; lia).
    eapply wp_mono; [apply (IH s1 B1 (pred n)); [done|lia|done]|lia|].
    intros _ s2 (B2 & Hst2 & R2 & Hrest2 & Hne2). exists B2. split_and!.
    + by eapply rtc_l.
    + by replace (n - S k)%nat with (pred n - k)%nat by lia.
    + destruct Hrest as [? ?], Hrest2 as [? ?]; split; congruence.
    + by replace (o - Z.of_nat (S k)) with (o - 1 - Z.of_nat k) by lia.
Qed.

(** The metadata blocks that a request of order [o] may need: one for each
    time a block of the largest order is split. *)
Definition split_cost (o : Z) : nat := Z.to_nat (BUDDY_MAX_ORDER - o).

Lemma split_cost_max o : 0 <= o -> (split_cost o <= 11)%nat.
Proof. intros Ho. unfold split_cost. change BUDDY_MAX_ORDER with 11. lia. Qed.

(** Splitting finds a block of the target order, unless no larger block is
    free, and then nothing happens. *)
Lemma split_blocks_spec s B n o :
  rep s B n -> 0 <= o <= BUDDY_MAX_ORDER ->
  wp (n < split_cost o)%nat (split_blocks o)
    (fun _ s' => exists B' n', rtc bstep B B' /\ rep s' B' n' /\ (n - split_cost o <= n')%nat /\ same_rest s s' /\
       (fl s' o <> [] \/ s' = s /\ B' = B /\ n' = n /\ forall j, o < j <= BUDDY_MAX_ORDER -> fl s j = [])) s.
Proof.
  intros R Ho. unfold split_blocks. rewrite wrap_small by (by apply order_succ).
  apply wp_bind. eapply wp_mono; [apply find_source_spec; [lia|]|done|].
  { change BUDDY_MAX_ORDER with 11 in *. cbn. lia. }
  intros r s' (-> & Hr & Hne & Hall).
  destruct (Z.ltb_spec BUDDY_MAX_ORDER r) as [Hgt|Hle].
  - apply wp_ret. exists B, n. split_and!; [done|done|lia|done|]. right. split_and!; [done|done|done|].
    intros j Hj. apply Hall. lia.
  - eapply wp_mono; [apply (split_down_spec _ s B n); [done|lia|by apply Hne]|..].
    + unfold split_cost. lia.
    + intros _ s1 (B1 & Hst & R1 & Hrest & Hne1). exists B1, (n - Z.to_nat (r - o))%nat.
      split_and!; [done|done|unfold split_cost; lia|done|].
      left. rewrite Z2Nat.id in Hne1 by lia. by replace (r - (r - o)) with o in Hne1 by lia.
Qed.

(** ** Handing out a block *)

Lemma blob_num_small : Z.of_nat blob_num <= 16.
Proof.
  unfold blob_num. pose proof layout_facts as (F1 & F2 & F3 & F4 & F5 & F6 & _).
  rewrite F6 in *. mem_nums.
  rewrite Z2Nat.id by (apply Z.div_pos; lia).
  change 16 with ((2281701376 - 2147483648) / 8388608). apply Z.div_le_mono; lia.
Qed.

Lemma pages_small B s n : rep s B n -> 0 <= pages_in (bfree B) <= 2 ^ 40.
Proof.
  intros R. split; [apply pages_in_nonneg|].
  pose proof (rep_total _ _ _ R) as Ht. pose proof (pages_in_nonneg (balloc B)).
  pose proof blob_num_small. change (2 ^ BUDDY_MAX_ORDER) with 2048 in Ht. lia.
Qed.

Lemma alloc_inner_spec s B n o :
  rep s B n -> fl s o <> [] ->
  wp False (buddy_alloc_inner o)
    (fun a s' => bfree B !! a = Some o /\ a <> NULL /\ rep s' (take a o B) n /\ same_rest s s') s.
Proof.
  intros R Hne. destruct (nonempty_block s B n o R Hne)
    as (b & l & a & El & Hs & Hf & Hr & Hom & Hoa & Hpa & Hbn).
  pose proof (rep_inv _ _ _ R) as HB. pose proof (free_not_alloc _ _ _ HB Hf) as Hna.
  unfold buddy_alloc_inner. apply wp_bind. eapply wp_first_block; [done|done|].
  apply wp_bind. eapply wp_get_start; [done|]. apply wp_bind, wp_page_of; [done|].
  apply wp_bind, wp_get_page; [done|]. rewrite Hoa, Z.eqb_refl. cbn [negb].
  apply wp_bind, wp_upd_page; [done|]. apply wp_bind.
  eapply (wp_del_block _ _ o); [done|change (b ∈ fl s o); rewrite El; set_solver|].
  apply wp_bind. eapply (wp_free_mem_block _ _ (dom (blk_start s))); [apply (rep_meta _ _ _ R)|by apply elem_of_dom|].
  intros m' Hm'. apply wp_bind, wp_modify, wp_ret.
  pose proof (order_bound o Hom). pose proof (pages_small B s n R).
  pose proof (pages_in_delete _ _ _ Hf) as Hpd. pose proof (pages_in_nonneg (delete a (bfree B))).
  split_and!; [done|pose proof (rpage_ram a Hr); unfold NULL; mem_nums; lia| |done].
  split.
  - pose proof (core_alloc _ _ _ _ _ a o (rep_core _ _ _ R) Hf Hna) as C. rewrite Hpa in C.
    eapply core_ext; [| |exact C].
    + intros k. unfold fl, fl_del; cbn. by rewrite fl_fmap_del.
    + intros x Hx. pg_simp. unfold pg_upd. by repeat case_decide; subst.
  - by apply take_binv.
  - cbn. by rewrite dom_delete_L.
  - cbn. rewrite (rep_count _ _ _ R), Z.shiftl_1_l, Hpd, wrap_small; [done|]. unfold in_width. lia.
  - cbn. rewrite Hpd, pages_in_insert by done. pose proof (rep_total _ _ _ R). lia.
Qed.

End rep.
