(* ===== verification/BuddyTop.v ===== *)
(** The entry points of the buddy allocator: what [buddy_init], [buddy_alloc]
    and [buddy_free] promise to their callers, and runs from boot. *)

From S2P Require Import Prelude Bits ListHead Pm Sync Early Buddy BuddySpec BuddyCore BuddyProof.

(** The lock is free and the hart is outside critical sections, with
    interrupt status [st]. *)
Definition lock_free {M} (st : Z) (s : buddy M) : Prop :=
  intr_ok st 0 (hl_intr (blk_lock s)) /\ hl_lock (blk_lock s) = SPINLOCK_INITIALIZER.

(** No block of order [o] could be carved out of the free memory. *)
Definition none_free (F : gmap Z Z) (o : Z) : Prop :=
  forall a, a mod bsize o = 0 -> ~ (forall x, a <= x < a + bsize o -> covered F x).

Section top.
Context `{Layout}.

(** The first [k] blobs of the region, as free blocks of the largest order. *)
Fixpoint blobs (k : nat) : gmap Z Z :=
  match k with
  | O => ∅
  | S k => <[BUDDY_SYSTEM_BASE + Z.of_nat k * BUDDY_BLOB_SIZE := BUDDY_MAX_ORDER]> (blobs k)
  end.

(** The state in which the kernel calls [buddy_init]. *)
Definition boot_buddy {M} (m : M) (t : page_table) (st : Z) : buddy M :=
  Buddy ∅ ∅ t 0 false m (HL (Intr st 0 0) SPINLOCK_INITIALIZER).

(** One request of a client, which frees only what it holds. *)
Inductive request := Alloc (size : Z) | Free (addr : Z).

Fixpoint serve {M} `{MetaAlloc M} (hart : Z) (rs : list request) : ST (buddy M) (list Z) :=
  match rs with
  | [] => ret []
  | Alloc size :: rs =>
      let! p := buddy_alloc hart size in
      let! ps := serve hart rs in ret (p :: ps)
  | Free a :: rs => do! buddy_free hart a in serve hart rs
  end.

End top.

(** ** Runs from boot *)

(** The early heap just after [early_init], and the allocator after
    [buddy_init] on it. *)
Definition boot_early : early := Early (@EARLY_HEAP_BASE sample_layout) false.

Definition booted : buddy early :=
  match @buddy_init early (@early_meta sample_layout) sample_layout (boot_buddy boot_early ∅ 0) with
  | Ok (_, s) => s
  | _ => boot_buddy boot_early ∅ 0
  end.

Section facts.
Context `{HL : Layout} {HOk : LayoutOk} {M : Type} `{HM : MetaAlloc M}
  {own : M -> gset Z -> nat -> Prop} {HMOk : MetaAllocOk M own}.
Implicit Types s : buddy M.
Notation rep := (rep (own := own)).

Lemma size2order_spec size :
  PAGE_SIZE <= size <= BUDDY_BLOB_SIZE ->
  0 <= size2order size <= BUDDY_MAX_ORDER /\ size <= bsize (size2order size) /\
  (0 < size2order size -> bsize (size2order size - 1) < size).
Proof.
  mem_nums. intros Hs. unfold size2order. rewrite log2_ceil_up by lia.
  assert (12 <= Z.log2_up size <= 23) as Hr.
  { split; [apply (Z.log2_up_le_mono 4096)|apply (Z.log2_up_le_mono _ 8388608)]; lia. }
  change PAGE_SHIFT with 12. change BUDDY_MAX_ORDER with 11.
  rewrite wrap_small by (unfold in_width; lia). pose proof (Z.log2_up_spec size ltac:(lia)) as Hl.
  rewrite bsize_pow by lia. replace (12 + (Z.log2_up size - 12)) with (Z.log2_up size) by lia.
  split_and!; [lia|lia|lia|]. intros Ho. rewrite bsize_pow by lia.
  replace (12 + (Z.log2_up size - 12 - 1)) with (Z.pred (Z.log2_up size)) by lia. lia.
Qed.

(** ** Allocation *)

(** The free blocks in list [o], as the code tests them. *)
Lemma wp_is_empty E o (Q : bool -> buddy M -> Prop) s :
  0 <= o <= BUDDY_MAX_ORDER -> (fl s o <> [] -> Q false s) -> (fl s o = [] -> Q true s) ->
  wp E (is_empty o) Q s.
Proof.
  intros Ho H1 H2. apply wp_bind, wp_get_fl; [done|]. apply wp_ret. destruct (fl s o); auto.
Qed.

(** The outcome of a request for order [o] in view [B]. *)
Definition alloc_post (B : blocks) (o r : Z) (B' : blocks) : Prop :=
  (r <> NULL /\ exists B1, rtc bstep B B1 /\ bfree B1 !! r = Some o /\ B' = take r o B1) \/
  (r = NULL /\ rtc bstep B B' /\ none_free (bfree B') o).

Lemma no_blocks_none_free s B n o :
  rep s B n -> 0 <= o <= BUDDY_MAX_ORDER -> (forall j, 0 <= j < o -> merged (bfree B) j) ->
  (forall j, o <= j <= BUDDY_MAX_ORDER -> fl s j = []) -> none_free (bfree B) o.
Proof.
  intros R Ho Hm Hnil a Ha Hc.
  destruct (merged_complete B o (rep_inv _ _ _ R) Hm o ltac:(lia) ltac:(lia) a Ha Hc)
    as (b & k & Hb & Hk & _).
  destruct (rep_block _ _ _ _ _ R Hb) as (_ & Hkm & _ & _ & Hin & _).
  rewrite Hnil in Hin by lia. by apply elem_of_nil in Hin.
Qed.

Lemma alloc_nolock_spec s B n size :
  rep s B n -> PAGE_SIZE <= size <= BUDDY_BLOB_SIZE ->
  wp (n < split_cost (size2order size))%nat (buddy_alloc_nolock size)
    (fun r s' => exists B' n', rep s' B' n' /\ (n - split_cost (size2order size) <= n')%nat /\ (r = NULL -> n' = n) /\ same_rest s s' /\
       alloc_post B (size2order size) r B') s.
Proof.
  intros R Hs. destruct (size2order_spec size Hs) as (Ho & _ & _). unfold buddy_alloc_nolock.
  set (o := size2order size) in *.
  apply wp_bind, wp_is_empty; [done|intros Hne|intros Hnil]; cbn [negb].
  { eapply wp_mono; [by apply (alloc_inner_spec s B n)|done|].
    intros r s' (Hr & Hn & R' & Hrest). exists (take r o B), n. split_and!; [done|lia|done|done|].
    left. split; [done|]. by exists B. }
  eapply wp_bind_mono; [eapply wp_mono; [by apply (merge_blocks_spec s B n)|done|exact (fun _ _ H => H)]|].
  intros _ s1 (B1 & Hst & R1 & Hrest & Hm).
  apply wp_bind, wp_is_empty; [done|intros Hne|intros Hnil1]; cbn [negb].
  { eapply wp_mono; [by apply (alloc_inner_spec s1 B1 n)|done|].
    intros r s' (Hr & Hn & R' & Hrest'). exists (take r o B1), n. split_and!; [done|lia|done| |].
    - destruct Hrest as [? ?], Hrest' as [? ?]; split; congruence.
    - left. split; [done|]. by exists B1. }
  eapply wp_bind_mono; [by apply (split_blocks_spec s1 B1 n)|].
  intros _ s2 (B2 & n2 & Hst2 & R2 & Hn2 & Hrest2 & Hcase).
  assert (same_rest s s2) as Hrest3 by (destruct Hrest as [? ?], Hrest2 as [? ?]; split; congruence).
  apply wp_bind, wp_is_empty; [done|intros Hne|intros Hnil2]; cbn [negb].
  { eapply wp_mono; [by apply (alloc_inner_spec s2 B2 n2)|done|].
    intros r s' (Hr & Hn & R' & Hrest'). exists (take r o B2), n2. split_and!; [done|lia|done| |].
    - destruct Hrest3 as [? ?], Hrest' as [? ?]; split; congruence.
    - left. split; [done|]. exists B2. split; [by etrans|done]. }
  apply wp_ret. exists B2, n2. split_and!; [done|done|by destruct Hcase as [?|(_ & _ & -> & _)]|done|]. right.
  split_and!; [done|by etrans|]. destruct Hcase as [?|(-> & -> & _ & Hall)]; [done|].
  eapply (no_blocks_none_free s1); [done..|].
  intros j Hj. destruct (decide (j = o)) as [->|]; [done|]. apply Hall. lia.
Qed.

Lemma lock_acquire st hart s (Q : unit -> buddy M -> Prop) E :
  lock_free st s ->
  (forall l, intr_ok st 1 (hl_intr l) -> hl_lock l = Lock 1 hart -> Q tt (set_blk_lock l s)) ->
  wp E (on_lock (spinlock_acquire_bare hart)) Q s.
Proof.
  intros [Hi Hl] HQ. apply wp_lift. destruct (blk_lock s) as [c x]. cbn in *. subst x.
  eapply wp_mono; [by apply (acquire_bare_spec _ st 0)|done|]. intros [] l [? ?]. auto.
Qed.

Lemma lock_release st hart s (Q : unit -> buddy M -> Prop) E :
  intr_ok st 1 (hl_intr (blk_lock s)) -> hl_lock (blk_lock s) = Lock 1 hart ->
  (forall l, intr_ok st 0 (hl_intr l) -> hl_lock l = SPINLOCK_INITIALIZER -> Q tt (set_blk_lock l s)) ->
  wp E (on_lock (spinlock_release_bare hart)) Q s.
Proof.
  intros Hi Hl HQ. apply wp_lift. destruct (blk_lock s) as [c x]. cbn in *. subst x.
  eapply wp_mono; [by apply (release_bare_spec _ st 0)|done|]. intros [] l [? ?]. auto.
Qed.

Lemma rep_lock s B n l : rep s B n -> rep (set_blk_lock l s) B n.
Proof. intros [C ? ? ? ?]. split; try done. Qed.

Lemma alloc_cost_spec st hart s B n size :
  rep s B n -> lock_free st s -> PAGE_SIZE <= size <= BUDDY_BLOB_SIZE ->
  wp (n < split_cost (size2order size))%nat (buddy_alloc hart size)
    (fun r s' => exists B' n', rep s' B' n' /\ (n - split_cost (size2order size) <= n')%nat /\ (r = NULL -> n' = n) /\ lock_free st s' /\ buddy_inited s' = buddy_inited s /\
       alloc_post B (size2order size) r B') s.
Proof.
  intros R Hl Hs. unfold buddy_alloc.
  destruct (Z.ltb_spec size PAGE_SIZE), (Z.ltb_spec BUDDY_BLOB_SIZE size); try lia. cbn [orb].
  apply wp_bind, wp_gets. rewrite (proj2 Hl). cbn.
  apply wp_bind. eapply lock_acquire; [done|]. intros l Hl1 Hl2.
  apply wp_bind. eapply wp_mono; [apply alloc_nolock_spec; [by apply rep_lock|done]|done|].
  intros r s1 (B1 & n1 & R1 & Hn & Hnull & [Hrest Hi] & Hp).
  apply wp_bind. eapply lock_release; [by rewrite Hrest|by rewrite Hrest|].
  intros l' Hi' Hl'. apply wp_ret. exists B1, n1. split_and!; [by apply rep_lock|done|done|done|done|done].
Qed.

Lemma alloc_spec st hart s B n size :
  rep s B n -> lock_free st s -> PAGE_SIZE <= size <= BUDDY_BLOB_SIZE ->
  wp (n < 11)%nat (buddy_alloc hart size)
    (fun r s' => exists B' n', rep s' B' n' /\ (n - 11 <= n')%nat /\ lock_free st s' /\
       alloc_post B (size2order size) r B') s.
Proof.
  intros R Hl Hs. destruct (size2order_spec size Hs) as ((Ho & _) & _).
  pose proof (split_cost_max (size2order size) Ho).
  eapply wp_mono; [by apply (alloc_cost_spec st hart s B n size)|lia|].
  intros r s' (B' & n' & R' & Hn & _ & Hl' & _ & Hp). exists B', n'. split_and!; [done|lia|done|done].
Qed.

(** ** Freeing *)

Lemma blk_order_u8 o : 0 <= o <= BUDDY_MAX_ORDER -> 0 <= o <= 11.
Proof. done. Qed.

Lemma free_spec st hart s B n a o :
  rep s B n -> lock_free st s -> balloc B !! a = Some o ->
  wp (n = O) (buddy_free hart a)
    (fun _ s' => rep s' (give a o B) (pred n) /\ lock_free st s') s.
Proof.
  intros R Hl Ha. pose proof (rep_inv _ _ _ R) as HB.
  destruct (c_alloc _ _ _ _ _ (rep_core _ _ _ R) a o Ha) as (Hr & Hoa & Hpa).
  assert (blk_ok a o) as (Ho & _) by (apply (bi_ok _ HB); by right).
  assert (bfree B !! a = None) as Hnf.
  { apply eq_None_not_Some. intros [o' Ho']. by eapply (bi_excl _ HB). }
  assert (forall nb s', pages s' = <[addr2index a := set_private nb (pgat s a)]> (pages s) ->
    order (pgat s' a) = o) as Hord.
  { intros nb s' E. unfold pgat. by rewrite E, page_at_upd, decide_True. }
  unfold buddy_free. rewrite page_of_rpage by done.
  apply wp_bind. eapply wp_alloc_mem_block; [apply (rep_meta _ _ _ R)|..].
  { intros p m' _ -> ->. by apply wp_panic. }
  intros nb m' Hnb Hfresh Hown. destruct (Z.eqb_spec nb NULL); [done|].
  apply wp_bind, wp_modify, wp_bind, wp_ret, wp_bind, wp_upd_page; [done|].
  apply wp_bind. eapply lock_acquire; [done|]. intros l Hl1 Hl2.
  apply wp_bind, wp_get_page; [done|]. apply wp_bind, wp_modify.
  apply wp_bind, wp_get_page; [done|]. rewrite !(Hord nb) by done.
  apply wp_bind, wp_upd_fl; [done|].
  eapply lock_release; [exact Hl1|exact Hl2|]. intros l' Hl1' Hl2'. split; [|done].
  pose proof (order_bound o Ho). pose proof (pages_small B s n R).
  split.
  - eapply core_ext; [| |apply (core_give _ _ _ _ _ a o nb (rep_core _ _ _ R) Ha Hnf Ho)];
      [| |by apply not_elem_of_dom|done].
    + intros k. unfold fl, fl_add; cbn. rewrite fl_insert. by case_decide; subst.
    + intros x Hx. unfold pgat. cbn. by rewrite page_at_upd.
  - by apply give_binv.
  - cbn. by rewrite dom_insert_L.
  - cbn. rewrite (rep_count _ _ _ R), Z.shiftl_1_l, pages_in_insert, wrap_small; [lia| |done].
    unfold in_width. lia.
  - cbn. rewrite pages_in_insert, (pages_in_delete _ _ o) by done.
    pose proof (rep_total _ _ _ R). lia.
Qed.

(** ** Initialisation *)

Lemma blobs_lookup k a o :
  blobs k !! a = Some o <->
  o = BUDDY_MAX_ORDER /\ exists i, 0 <= i < Z.of_nat k /\ a = BUDDY_SYSTEM_BASE + i * BUDDY_BLOB_SIZE.
Proof.
  induction k as [|k IH]; cbn [blobs].
  - rewrite lookup_empty. split; [done|]. intros (_ & i & Hi & _). lia.
  - rewrite lookup_insert_Some, IH. split.
    + intros [[<- <-]|(Hne & -> & i & Hi & ->)]; (split; [done|]);
        [exists (Z.of_nat k); lia|exists i; lia].
    + intros (-> & i & Hi & ->). destruct (decide (i = Z.of_nat k)) as [->|]; [by left|right].
      split; [mem_nums; lia|]. split; [done|]. exists i. lia.
Qed.

Lemma blob_num_mult p q :
  BUDDY_SYSTEM_BASE = BUDDY_BLOB_SIZE * p -> BUDDY_SYSTEM_END = BUDDY_BLOB_SIZE * q ->
  Z.of_nat blob_num = Z.max 0 (q - p).
Proof.
  intros Ep Eq. unfold blob_num. rewrite Ep, Eq.
  replace (BUDDY_BLOB_SIZE * q - BUDDY_BLOB_SIZE * p) with ((q - p) * BUDDY_BLOB_SIZE) by lia.
  rewrite Z.div_mul by (unfold BUDDY_BLOB_SIZE; discriminate). lia.
Qed.

Lemma blob_region i :
  0 <= i < Z.of_nat blob_num -> blk_ok (BUDDY_SYSTEM_BASE + i * BUDDY_BLOB_SIZE) BUDDY_MAX_ORDER.
Proof.
  intros Hi. pose proof layout_facts as (_&_&_&_&F5&_&_&_&_&_&MB&ME).
  assert (0 < BUDDY_BLOB_SIZE) as Hp by reflexivity.
  apply mult_mod in MB as [p Ep]; [|exact Hp]. apply mult_mod in ME as [q Eq]; [|exact Hp].
  rewrite (blob_num_mult p q Ep Eq) in Hi. unfold blk_ok. rewrite bsize_max, Ep, Eq.
  generalize dependent BUDDY_BLOB_SIZE. intros. rewrite mult_mod by lia.
  split_and!; [discriminate|discriminate|exists (p + i); lia|nia|nia].
Qed.

Lemma blobs_binv k : (k <= blob_num)%nat -> binv (Blocks (blobs k) ∅).
Proof.
  intros Hk. split.
  - intros a o [Ha|Ha]; cbn in Ha; [|by rewrite lookup_empty in Ha].
    apply blobs_lookup in Ha as (-> & i & Hi & ->). apply blob_region. lia.
  - intros a o o' _ Ha. cbn in Ha. by rewrite lookup_empty in Ha.
  - intros a o a' o' [Ha|Ha] [Ha'|Ha'] Hne; cbn in Ha, Ha'; rewrite ?lookup_empty in *; try done.
    apply blobs_lookup in Ha as (-> & i & Hi & ->). apply blobs_lookup in Ha' as (-> & j & Hj & ->).
    rewrite bsize_max. mem_nums.
    assert (i <> j) by (intros ->; done). lia.
Qed.

Lemma blobs_pages k : pages_in (blobs k) = Z.of_nat k * 2 ^ BUDDY_MAX_ORDER.
Proof.
  induction k as [|k IH]; cbn [blobs]; [by rewrite pages_in_empty|].
  rewrite pages_in_insert, IH; [lia|]. apply eq_None_not_Some. intros [o Ho].
  apply blobs_lookup in Ho as (_ & i & Hi & E). mem_nums. lia.
Qed.

(** What the loop keeps: the first [k] blobs are represented. *)
Record init_inv (st : Z) (k : nat) s (n : nat) : Prop := {
  ii_core : core (fl s) (blk_start s) (pgat s) (blobs k) ∅;
  ii_meta : own (meta s) (dom (blk_start s)) n;
  ii_count : buddy_free_pages s = pages_in (blobs k);
  ii_lock : lock_free st s
}.

Lemma init_blobs_spec st n : forall k s m,
  init_inv st k s m -> (k + n <= blob_num)%nat ->
  wp (m < n)%nat (init_blobs n (BUDDY_SYSTEM_BASE + Z.of_nat k * BUDDY_BLOB_SIZE))
    (fun r s' => r = 0 /\ init_inv st (k + n) s' (m - n)) s.
Proof.
  induction n as [|n IH]; intros k s m I Hk; cbn [init_blobs].
  - apply wp_ret. by rewrite Nat.add_0_r, Nat.sub_0_r.
  - pose proof (blob_region (Z.of_nat k) ltac:(lia)) as Hblk. pose proof (blk_rpage _ _ Hblk) as Hr.
    set (p := BUDDY_SYSTEM_BASE + Z.of_nat k * BUDDY_BLOB_SIZE) in *.
    assert (blobs k !! p = None) as Hnone.
    { apply eq_None_not_Some. intros [o Ho]. apply blobs_lookup in Ho as (_ & i & Hi & E).
      unfold p in E. mem_nums. lia. }
    rewrite page_of_rpage by done. apply wp_bind.
    eapply wp_mono; [eapply wp_alloc_mem_block; [apply (ii_meta _ _ _ _ I)|..]|lia|exact (fun _ _ H => H)].
    { intros t m' _ -> ->. apply wp_panic. lia. }
    intros nb m' Hnb Hfresh Hown. cbv beta. destruct (Z.eqb_spec nb NULL); [done|].
    apply wp_bind, wp_modify, wp_bind, wp_upd_page; [done|]. apply wp_bind, wp_upd_page; [done|].
    apply wp_bind, wp_modify, wp_bind, wp_upd_fl; [done|].
    replace (p + BUDDY_BLOB_SIZE) with (BUDDY_SYSTEM_BASE + Z.of_nat (S k) * BUDDY_BLOB_SIZE)
      by (unfold p; lia).
    eapply wp_mono; [apply (IH (S k) _ (pred m)); [|lia]|lia|].
    2: { intros r s' [-> I']. split; [done|]. replace (k + S n)%nat with (S k + n)%nat by lia.
         by replace (m - S n)%nat with (pred m - n)%nat by lia. }
    split.
    + cbn [blobs]. fold p. eapply core_ext; [| |apply (core_attach _ _ _ _ _ p BUDDY_MAX_ORDER
        (set_order BUDDY_MAX_ORDER (set_private nb (pgat s p))) (ii_core _ _ _ _ I))]; try done.
      * intros j. unfold fl, fl_add; cbn. rewrite fl_insert. unfold fl; cbn.
        case_decide; [subst|done]. unfold AList.list_add_tail. by rewrite <- Permutation_cons_append.
      * intros x Hx. unfold pgat; cbn. rewrite !page_at_upd by done. unfold pg_upd.
        case_decide; [|done]. by rewrite decide_True by done.
      * by apply not_elem_of_dom.
    + cbn. by rewrite dom_insert_L.
    + cbn [buddy_free_pages set_free_list set_free_pages set_pages set_blk_start set_meta].
      rewrite (ii_count _ _ _ _ I), Z.shiftl_1_l, !blobs_pages. rewrite wrap_small; [lia|].
      pose proof blob_num_small. change (2 ^ BUDDY_MAX_ORDER) with 2048. unfold in_width. lia.
    + apply (ii_lock _ _ _ _ I).
Qed.

Lemma clear_lists s :
  exists s', for_up (Z.to_nat (BUDDY_MAX_ORDER + 1)) 0 (fun i => upd_fl i (fun _ => [])) s = Ok (tt, s') /\
    (forall o, 0 <= o <= BUDDY_MAX_ORDER -> fl s' o = []) /\
    (forall o, ~ (0 <= o <= BUDDY_MAX_ORDER) -> fl s' o = fl s o) /\
    blk_start s' = blk_start s /\ pages s' = pages s /\ meta s' = meta s /\
    buddy_free_pages s' = buddy_free_pages s /\ blk_lock s' = blk_lock s.
Proof.
  destruct (for_up_total (fun i s' => (forall o, 0 <= o < i -> fl s' o = []) /\
      (forall o, ~ (0 <= o <= BUDDY_MAX_ORDER) -> fl s' o = fl s o) /\
      blk_start s' = blk_start s /\ pages s' = pages s /\ meta s' = meta s /\
      buddy_free_pages s' = buddy_free_pages s /\ blk_lock s' = blk_lock s)
    (fun i => upd_fl i (fun _ => [])) (Z.to_nat (BUDDY_MAX_ORDER + 1)) 0 s) as (s' & Hr & H1 & H2).
  - intros j t Hj (H1 & H2 & H3). change (Z.of_nat (Z.to_nat (BUDDY_MAX_ORDER + 1))) with 12 in Hj.
    unfold upd_fl, store. rewrite in_array_ok by (change BUDDY_MAX_ORDER with 11; lia).
    change BUDDY_MAX_ORDER with 11 in *. eexists. split; [done|]. split; [|split; [|done]].
    + intros o Ho. unfold fl; cbn. rewrite fl_insert. case_decide; [done|]. apply H1. lia.
    + intros o Ho. rewrite <- H2 by done. unfold fl; cbn. rewrite fl_insert.
      case_decide; [lia|done].
  - split_and!; try done. intros o Ho. lia.
  - exists s'. split; [done|]. split; [|done]. intros o Ho. apply H1.
    change (Z.of_nat (Z.to_nat (BUDDY_MAX_ORDER + 1))) with 12. change BUDDY_MAX_ORDER with 11 in *. lia.
Qed.

Lemma init_spec st m t n :
  own m ∅ n -> (forall a, rpage a -> private (page_at t (addr2index a)) = NULL) ->
  wp (n < blob_num)%nat buddy_init
    (fun r s' => r = 0 /\ buddy_inited s' = true /\ lock_free st s' /\
       rep s' (Blocks (blobs blob_num) ∅) (n - blob_num)) (boot_buddy m t st).
Proof.
  intros Hown Ht. unfold buddy_init.
  destruct (clear_lists (boot_buddy m t st)) as (s1 & E1 & Hin & Hout & Hbs & Hpg & Hm & Hc & Hl).
  apply wp_bind. eapply wp_run; [exact E1|]. apply wp_bind.
  assert (Hnil : forall o, fl s1 o = []).
  { intros o. destruct (decide (0 <= o <= BUDDY_MAX_ORDER)); [by apply Hin|by rewrite Hout]. }
  assert (init_inv st 0 s1 n) as I.
  { split.
    - cbn [blobs]. split.
      + intros a o. rewrite lookup_empty. split; [done|]. intros (b & Hb & _).
        rewrite Hnil in Hb. by apply elem_of_nil in Hb.
      + intros o b Hb. rewrite Hnil in Hb. by apply elem_of_nil in Hb.
      + intros o. rewrite Hnil. constructor.
      + intros a o Ha. by rewrite lookup_empty in Ha.
      + intros a Ha Hp. destruct Hp. unfold pgat. rewrite Hpg. by apply Ht.
    - rewrite Hm, Hbs. cbn. by rewrite dom_empty_L.
    - by rewrite Hc.
    - unfold lock_free. by rewrite Hl. }
  pose proof (init_blobs_spec st blob_num 0 s1 n I ltac:(lia)) as Hloop.
  rewrite Nat.add_0_l, Z.mul_0_l, Z.add_0_r in Hloop.
  eapply wp_mono; [exact Hloop|exact (fun H => H)|]. clear Hloop I.
  intros r s2 [-> [C I2 I3 I4]]. rewrite Z.eqb_refl.
  apply wp_bind, wp_modify, wp_ret. split; [done|]. split; [done|]. split; [exact I4|].
  split; [exact C|by apply blobs_binv|exact I2|exact I3|]. cbn [bfree balloc].
  by rewrite blobs_pages, pages_in_empty, Z.add_0_r.
Qed.

(** ** The contracts *)



Lemma blobs_covered x :
  covered (blobs blob_num) x <-> BUDDY_SYSTEM_BASE <= x < BUDDY_SYSTEM_END.
Proof.
  pose proof layout_facts as (_&_&_&_&F5&_&_&_&_&_&MB&ME).
  assert (0 < BUDDY_BLOB_SIZE) as Hp by reflexivity.
  apply mult_mod in MB as [p Ep]; [|exact Hp]. apply mult_mod in ME as [q Eq]; [|exact Hp].
  unfold covered. setoid_rewrite blobs_lookup. rewrite (blob_num_mult p q Ep Eq), Ep, Eq in *. split.
  - intros (a & o & (-> & i & Hi & ->) & Hx). rewrite bsize_max in Hx.
    generalize dependent BUDDY_BLOB_SIZE. intros. nia.
  - intros Hx. exists (BUDDY_BLOB_SIZE * (x / BUDDY_BLOB_SIZE)), BUDDY_MAX_ORDER.
    rewrite bsize_max. clear Ep Eq. generalize dependent BUDDY_BLOB_SIZE. intros z; intros.
    pose proof (Z.div_mod x z ltac:(lia)). pose proof (Z.mod_pos_bound x z ltac:(lia)).
    split; [|lia]. split; [done|]. exists (x / z - p). split; [nia|lia].
Qed.

(** [C3] [buddy_init] on the page table that [pm_pages_init] leaves: with room
    for the metadata it succeeds, no block is allocated, every byte of the
    buddy region and no other is free, and the page counter is the size of
    the region. *)
Theorem buddy_init_correct st m t n :
  own m ∅ n -> (forall a, rpage a -> private (page_at t (addr2index a)) = NULL) ->
  wp (n < blob_num)%nat buddy_init
    (fun r s' => r = 0 /\ buddy_inited s' = true /\ lock_free st s' /\
       exists B, rep s' B (n - blob_num) /\ balloc B = ∅ /\
         (forall x, covered (bfree B) x <-> BUDDY_SYSTEM_BASE <= x < BUDDY_SYSTEM_END) /\
         buddy_free_pages s' * PAGE_SIZE = BUDDY_SYSTEM_END - BUDDY_SYSTEM_BASE)
    (boot_buddy m t st).
Proof.
  intros Hown Ht. eapply wp_mono; [by apply (init_spec st m t n)|exact (fun H => H)|].
  intros r s' (-> & Hin & Hl & R). split; [done|]. split; [done|]. split; [done|].
  exists (Blocks (blobs blob_num) ∅). split; [done|]. split; [done|]. split; [apply blobs_covered|].
  rewrite (rep_count _ _ _ R). cbn [bfree]. rewrite blobs_pages.
  pose proof layout_facts as (_&_&_&_&F5&_&_&_&_&_&MB&ME).
  assert (0 < BUDDY_BLOB_SIZE) as Hp by reflexivity.
  apply mult_mod in MB as [p Ep]; [|exact Hp]. apply mult_mod in ME as [q Eq]; [|exact Hp].
  rewrite (blob_num_mult p q Ep Eq), Ep, Eq in *. change (2 ^ BUDDY_MAX_ORDER) with 2048.
  mem_nums. lia.
Qed.

End facts.

Lemma boot_early_own : @early_own sample_layout boot_early ∅ 160.
Proof.
  split; [reflexivity|]. split; [vm_compute; split; [discriminate|reflexivity]|].
  split; [set_solver|]. intros _. vm_compute. reflexivity.
Qed.

Lemma empty_private `{Layout} a : rpage a -> private (page_at ∅ (addr2index a)) = NULL.
Proof. reflexivity. Qed.

Lemma sample_blobs : @blob_num sample_layout = 15%nat.
Proof. vm_compute. reflexivity. Qed.

Lemma booted_rep :
  exists B n, @rep sample_layout early (@early_own sample_layout) booted B n /\ (11 <= n)%nat /\
    lock_free 0 booted.
Proof.
  pose proof (@init_spec sample_layout sample_layout_ok early (@early_meta sample_layout)
    (@early_own sample_layout) (@early_meta_ok sample_layout sample_layout_ok) 0 boot_early ∅ 160
    boot_early_own (@empty_private sample_layout)) as H. rewrite sample_blobs in H.
  assert (~ (160 < 15)%nat) as Hn by lia. pose proof (wp_no_panic _ _ _ _ H Hn) as H1. clear H.
  destruct H1 as (r & s & E & _ & _ & Hl & R).
  unfold booted. rewrite E. eexists _, _. split; [exact R|]. split; [lia|exact Hl].
Qed.

(** The first allocation after boot, run by the code. *)
Lemma booted_alloc :
  match @buddy_alloc early (@early_meta sample_layout) 0 8192 booted with
  | Ok (r, _) => r = 0x80800000
  | _ => False
  end.
Proof. vm_compute. reflexivity. Qed.

Lemma buddy_init_correct_witness :
  wp (160 < @blob_num sample_layout)%nat
    (@buddy_init early (@early_meta sample_layout) sample_layout)
    (fun r s' => r = 0 /\ buddy_inited s' = true /\ lock_free 0 s' /\
       exists B, @rep sample_layout early (@early_own sample_layout) s' B (160 - @blob_num sample_layout)
         /\ balloc B = ∅ /\
         (forall x, covered (bfree B) x <->
            @BUDDY_SYSTEM_BASE sample_layout <= x < BUDDY_SYSTEM_END) /\
         buddy_free_pages s' * PAGE_SIZE = BUDDY_SYSTEM_END - @BUDDY_SYSTEM_BASE sample_layout)
    (boot_buddy boot_early ∅ 0).
Proof.
  exact (@buddy_init_correct sample_layout sample_layout_ok early (@early_meta sample_layout)
    (@early_own sample_layout) (@early_meta_ok sample_layout sample_layout_ok) 0 boot_early ∅ 160
    boot_early_own (@empty_private sample_layout)).
Defined.


(** A state with an allocated block. *)
Lemma booted_allocated :
  exists s B n, @rep sample_layout early (@early_own sample_layout) s B n /\ lock_free 0 s /\
    balloc B !! 0x80800000 = Some 1.
Proof.
  destruct booted_rep as (B & n & R & Hn & Hl).
  pose proof (@alloc_spec sample_layout sample_layout_ok early (@early_meta sample_layout)
    (@early_own sample_layout) (@early_meta_ok sample_layout sample_layout_ok) 0 0 booted B n 8192 R Hl
    ltac:(split; discriminate)) as H.
  assert (~ (n < 11)%nat) as Hn' by lia. pose proof (wp_no_panic _ _ _ _ H Hn') as H1. clear H.
  destruct H1 as (r & s & E & B' & n' & R' & _ & Hl' & Hp). pose proof booted_alloc as Hb.
  rewrite E in Hb. subst r. exists s, B', n'. split; [exact R'|]. split; [exact Hl'|].
  destruct Hp as [(_ & B1 & _ & _ & ->)|(Hr & _)]; [|discriminate].
  apply lookup_insert_eq.
Qed.

