(* ===== verification/Sha2.v ===== *)
(** The SHA-2 hash functions, [src/misc/sha2.c].

    The compression functions are translated as they are; the buffering of
    [update] and [final], which the source writes out once per word size, is
    one set of definitions over the block size [bs], the offset [lenpos] of the
    length field and the compression function.  The specification is the
    padding and chaining of FIPS 180-4. *)

From S2P Require Import Prelude Bits.

(** ** Functions on words *)

Definition ROTR32 (x n : Z) : Z := Z.lor (Z.shiftr x n) (u32 (Z.shiftl x (32 - n))).
Definition CH32 (x y z : Z) : Z := Z.lxor (Z.land x y) (Z.land (Z.lxor x (Z.ones 32)) z).
Definition MAJ32 (x y z : Z) : Z := Z.lxor (Z.lxor (Z.land x y) (Z.land x z)) (Z.land y z).

Definition EP0_32 (x : Z) : Z := Z.lxor (Z.lxor (ROTR32 x 2) (ROTR32 x 13)) (ROTR32 x 22).
Definition EP1_32 (x : Z) : Z := Z.lxor (Z.lxor (ROTR32 x 6) (ROTR32 x 11)) (ROTR32 x 25).
Definition SIG0_32 (x : Z) : Z := Z.lxor (Z.lxor (ROTR32 x 7) (ROTR32 x 18)) (Z.shiftr x 3).
Definition SIG1_32 (x : Z) : Z := Z.lxor (Z.lxor (ROTR32 x 17) (ROTR32 x 19)) (Z.shiftr x 10).

Definition ROTR64 (x n : Z) : Z := Z.lor (Z.shiftr x n) (u64 (Z.shiftl x (64 - n))).
Definition CH64 (x y z : Z) : Z := Z.lxor (Z.land x y) (Z.land (Z.lxor x (Z.ones 64)) z).
Definition MAJ64 (x y z : Z) : Z := Z.lxor (Z.lxor (Z.land x y) (Z.land x z)) (Z.land y z).

Definition EP0_64 (x : Z) : Z := Z.lxor (Z.lxor (ROTR64 x 28) (ROTR64 x 34)) (ROTR64 x 39).
Definition EP1_64 (x : Z) : Z := Z.lxor (Z.lxor (ROTR64 x 14) (ROTR64 x 18)) (ROTR64 x 41).
Definition SIG0_64 (x : Z) : Z := Z.lxor (Z.lxor (ROTR64 x 1) (ROTR64 x 8)) (Z.shiftr x 7).
Definition SIG1_64 (x : Z) : Z := Z.lxor (Z.lxor (ROTR64 x 19) (ROTR64 x 61)) (Z.shiftr x 6).

(** ** Constants *)

(** The table holds two 32-bit constants per literal. *)
Definition halves (l : list Z) : list Z :=
  flat_map (fun x => [Z.shiftr x 32; u32 x]) l.

Definition sha256_k : list Z := halves
  [0x428a2f9871374491; 0xb5c0fbcfe9b5dba5; 0x3956c25b59f111f1; 0x923f82a4ab1c5ed5;
   0xd807aa9812835b01; 0x243185be550c7dc3; 0x72be5d7480deb1fe; 0x9bdc06a7c19bf174;
   0xe49b69c1efbe4786; 0x0fc19dc6240ca1cc; 0x2de92c6f4a7484aa; 0x5cb0a9dc76f988da;
   0x983e5152a831c66d; 0xb00327c8bf597fc7; 0xc6e00bf3d5a79147; 0x06ca635114292967;
   0x27b70a852e1b2138; 0x4d2c6dfc53380d13; 0x650a7354766a0abb; 0x81c2c92e92722c85;
   0xa2bfe8a1a81a664b; 0xc24b8b70c76c51a3; 0xd192e819d6990624; 0xf40e3585106aa070;
   0x19a4c1161e376c08; 0x2748774c34b0bcb5; 0x391c0cb34ed8aa4a; 0x5b9cca4f682e6ff3;
   0x748f82ee78a5636f; 0x84c878148cc70208; 0x90befffaa4506ceb; 0xbef9a3f7c67178f2].

Definition sha512_k : list Z :=
  [0x428a2f98d728ae22; 0x7137449123ef65cd; 0xb5c0fbcfec4d3b2f;
   0xe9b5dba58189dbbc; 0x3956c25bf348b538; 0x59f111f1b605d019;
   0x923f82a4af194f9b; 0xab1c5ed5da6d8118; 0xd807aa98a3030242;
   0x12835b0145706fbe; 0x243185be4ee4b28c; 0x550c7dc3d5ffb4e2;
   0x72be5d74f27b896f; 0x80deb1fe3b1696b1; 0x9bdc06a725c71235;
   0xc19bf174cf692694; 0xe49b69c19ef14ad2; 0xefbe4786384f25e3;
   0x0fc19dc68b8cd5b5; 0x240ca1cc77ac9c65; 0x2de92c6f592b0275;
   0x4a7484aa6ea6e483; 0x5cb0a9dcbd41fbd4; 0x76f988da831153b5;
   0x983e5152ee66dfab; 0xa831c66d2db43210; 0xb00327c898fb213f;
   0xbf597fc7beef0ee4; 0xc6e00bf33da88fc2; 0xd5a79147930aa725;
   0x06ca6351e003826f; 0x142929670a0e6e70; 0x27b70a8546d22ffc;
   0x2e1b21385c26c926; 0x4d2c6dfc5ac42aed; 0x53380d139d95b3df;
   0x650a73548baf63de; 0x766a0abb3c77b2a8; 0x81c2c92e47edaee6;
   0x92722c851482353b; 0xa2bfe8a14cf10364; 0xa81a664bbc423001;
   0xc24b8b70d0f89791; 0xc76c51a30654be30; 0xd192e819d6ef5218;
   0xd69906245565a910; 0xf40e35855771202a; 0x106aa07032bbd1b8;
   0x19a4c116b8d2d0c8; 0x1e376c085141ab53; 0x2748774cdf8eeb99;
   0x34b0bcb5e19b48a8; 0x391c0cb3c5c95a63; 0x4ed8aa4ae3418acb;
   0x5b9cca4f7763e373; 0x682e6ff3d6b2b8a3; 0x748f82ee5defb2fc;
   0x78a5636f43172f60; 0x84c87814a1f0ab72; 0x8cc702081a6439ec;
   0x90befffa23631e28; 0xa4506cebde82bde9; 0xbef9a3f7b2c67915;
   0xc67178f2e372532b; 0xca273eceea26619c; 0xd186b8c721c0c207;
   0xeada7dd6cde0eb1e; 0xf57d4f7fee6ed178; 0x06f067aa72176fba;
   0x0a637dc5a2c898a6; 0x113f9804bef90dae; 0x1b710b35131c471b;
   0x28db77f523047d84; 0x32caab7b40c72493; 0x3c9ebe0a15c9bebc;
   0x431d67c49c100d4c; 0x4cc5d4becb3e42b6; 0x597f299cfc657e2a;
   0x5fcb6fab3ad6faec; 0x6c44198c4a475817].

(** [ctx->state], eight words. *)
Record regs := Regs { ra : Z; rb : Z; rc : Z; rd : Z; re : Z; rf : Z; rg : Z; rh : Z }.

Definition regs_of (l : list Z) : regs :=
  Regs (nth 0 l 0) (nth 1 l 0) (nth 2 l 0) (nth 3 l 0) (nth 4 l 0) (nth 5 l 0) (nth 6 l 0)
    (nth 7 l 0).

Definition to_list (v : regs) : list Z := [ra v; rb v; rc v; rd v; re v; rf v; rg v; rh v].

Definition regs_add (w : Z) (u v : regs) : regs :=
  Regs (wrap w (ra u + ra v)) (wrap w (rb u + rb v)) (wrap w (rc u + rc v)) (wrap w (rd u + rd v))
    (wrap w (re u + re v)) (wrap w (rf u + rf v)) (wrap w (rg u + rg v)) (wrap w (rh u + rh v)).

Definition sha224_init_state : regs := regs_of
  [0xc1059ed8; 0x367cd507; 0x3070dd17; 0xf70e5939; 0xffc00b31; 0x68581511;
   0x64f98fa7; 0xbefa4fa4].

Definition sha256_init_state : regs := regs_of
  [0x6a09e667; 0xbb67ae85; 0x3c6ef372; 0xa54ff53a; 0x510e527f; 0x9b05688c;
   0x1f83d9ab; 0x5be0cd19].

Definition sha384_init_state : regs := regs_of
  [0xcbbb9d5dc1059ed8; 0x629a292a367cd507; 0x9159015a3070dd17;
   0x152fecd8f70e5939; 0x67332667ffc00b31; 0x8eb44a8768581511;
   0xdb0c2e0d64f98fa7; 0x47b5481dbefa4fa4].

Definition sha512_init_state : regs := regs_of
  [0x6a09e667f3bcc908; 0xbb67ae8584caa73b; 0x3c6ef372fe94f82b;
   0xa54ff53a5f1d36f1; 0x510e527fade682d1; 0x9b05688c2b3e6c1f;
   0x1f83d9abfb41bd6b; 0x5be0cd19137e2179].

(** ** Compression *)

(** One round on the working variables, with the constant and the schedule
    word of the round. *)
Definition sha256_round (v : regs) (kw : Z * Z) : regs :=
  let t1 := u32 (rh v + EP1_32 (re v) + CH32 (re v) (rf v) (rg v) + fst kw + snd kw) in
  let t2 := u32 (EP0_32 (ra v) + MAJ32 (ra v) (rb v) (rc v)) in
  Regs (u32 (t1 + t2)) (ra v) (rb v) (rc v) (u32 (rd v + t1)) (re v) (rf v) (rg v).

(** The words of a block, and the [n] words the message schedule adds. *)
Definition sha256_words (data : list Z) : list Z :=
  map (fun i => be32_to_cpu (le_load (take 4 (drop (4 * i) data)))) (seq 0 16).

Fixpoint sha256_schedule (n : nat) (w : list Z) : list Z :=
  match n with
  | O => w
  | S n =>
      let i := length w in
      sha256_schedule n (w ++ [u32 (SIG1_32 (nth (i - 2) w 0) + nth (i - 7) w 0 +
                                  SIG0_32 (nth (i - 15) w 0) + nth (i - 16) w 0)])
  end.

Definition sha256_transform (state : regs) (data : list Z) : regs :=
  let w := sha256_schedule 48 (sha256_words data) in
  regs_add 32 state (fold_left sha256_round (combine sha256_k w) state).

(** One round on the working variables, with the constant and the schedule
    word of the round. *)
Definition sha512_round (v : regs) (kw : Z * Z) : regs :=
  let t1 := u64 (rh v + EP1_64 (re v) + CH64 (re v) (rf v) (rg v) + fst kw + snd kw) in
  let t2 := u64 (EP0_64 (ra v) + MAJ64 (ra v) (rb v) (rc v)) in
  Regs (u64 (t1 + t2)) (ra v) (rb v) (rc v) (u64 (rd v + t1)) (re v) (rf v) (rg v).

(** The words of a block, and the [n] words the message schedule adds. *)
Definition sha512_words (data : list Z) : list Z :=
  map (fun i => be64_to_cpu (le_load (take 8 (drop (8 * i) data)))) (seq 0 16).

Fixpoint sha512_schedule (n : nat) (w : list Z) : list Z :=
  match n with
  | O => w
  | S n =>
      let i := length w in
      sha512_schedule n (w ++ [u64 (SIG1_64 (nth (i - 2) w 0) + nth (i - 7) w 0 +
                                  SIG0_64 (nth (i - 15) w 0) + nth (i - 16) w 0)])
  end.

Definition sha512_transform (state : regs) (data : list Z) : regs :=
  let w := sha512_schedule 64 (sha512_words data) in
  regs_add 64 state (fold_left sha512_round (combine sha512_k w) state).


(** ** Buffering *)

(** [memcpy(buf + off, xs, length xs)]. *)
Definition write_at (off : nat) (xs buf : list Z) : list Z :=
  take off buf ++ xs ++ drop (off + length xs) buf.

Section buffering.
Context (bs : nat) (tr : regs -> list Z -> regs).

(** [while (len >= bs) { transform(ctx, p); p += bs; len -= bs; }]. *)
Fixpoint whole_blocks (fuel : nat) (h : regs) (p : list Z) : regs * list Z :=
  match fuel with
  | O => (h, p)
  | S fuel =>
      if (bs <=? length p)%nat then whole_blocks fuel (tr h (take bs p)) (drop bs p) else (h, p)
  end.

Definition rest_update (h : regs) (buf p : list Z) : regs * list Z :=
  let '(h, p) := whole_blocks (length p) h p in
  (h, match p with [] => buf | _ => write_at 0 p buf end).

Definition buffer_update (buf_used : nat) (h : regs) (buf p : list Z) : regs * list Z :=
  if (buf_used =? 0)%nat then rest_update h buf p else
  let buf_avail := (bs - buf_used)%nat in
  if (length p <? buf_avail)%nat then (h, write_at buf_used p buf) else
  let buf := write_at buf_used (take buf_avail p) buf in
  rest_update (tr h buf) buf (drop buf_avail p).

Definition buffer_final (lenpos buf_used : nat) (h : regs) (buf lenbytes : list Z) : regs :=
  let buf := write_at buf_used [0x80] buf in
  let buf_used := S buf_used in
  let '(h, buf, buf_used) :=
    if (lenpos <? buf_used)%nat then
      let buf := write_at buf_used (repeat 0 (bs - buf_used)) buf in (tr h buf, buf, O)
    else (h, buf, buf_used) in
  let buf := write_at buf_used (repeat 0 (lenpos - buf_used)) buf in
  tr h (write_at lenpos lenbytes buf).

(** *** Specification: chaining over the padded message *)

Fixpoint feed (k : nat) (h : regs) (m : list Z) : regs :=
  match k with O => h | S k => feed k (tr h (take bs m)) (drop bs m) end.

Definition zero_pad (lenpos : nat) (n : nat) : nat := (bs + lenpos - S n mod bs) mod bs.

Definition padded (lenpos : nat) (m lenbytes : list Z) : list Z :=
  m ++ [0x80] ++ repeat 0 (zero_pad lenpos (length m)) ++ lenbytes.

Definition hash_spec (lenpos : nat) (h : regs) (m lenbytes : list Z) : regs :=
  let p := padded lenpos m lenbytes in feed (length p / bs) h p.

(** The context represents the message [m] received so far. *)
Definition absorbed (h0 : regs) (m : list Z) (h : regs) (buf : list Z) : Prop :=
  h = feed (length m / bs) h0 m /\ length buf = bs /\
  take (length m mod bs) buf = drop (bs * (length m / bs)) m.

End buffering.

(** Big-endian bytes of a word. *)
Definition be_store (n : nat) (x : Z) : list Z := reverse (le_store n x).

(** ** The contexts and the interface *)

Record sha256_ctx := Ctx256 { state256 : regs; count256 : Z; buf256 : list Z }.
Record sha512_ctx := Ctx512 { state512 : regs; count_lo : Z; count_hi : Z; buf512 : list Z }.

Definition sha224_init (ctx : sha256_ctx) : sha256_ctx := Ctx256 sha224_init_state 0 (buf256 ctx).
Definition sha256_init (ctx : sha256_ctx) : sha256_ctx := Ctx256 sha256_init_state 0 (buf256 ctx).
Definition sha384_init (ctx : sha512_ctx) : sha512_ctx := Ctx512 sha384_init_state 0 0 (buf512 ctx).
Definition sha512_init (ctx : sha512_ctx) : sha512_ctx := Ctx512 sha512_init_state 0 0 (buf512 ctx).

Definition sha256_update (ctx : sha256_ctx) (data : list Z) : sha256_ctx :=
  let len := Z.of_nat (length data) in
  let buf_used := Z.to_nat (Z.land (count256 ctx) 0x3f) in
  let '(h, buf) := buffer_update 64 sha256_transform buf_used (state256 ctx) (buf256 ctx) data in
  Ctx256 h (u64 (count256 ctx + len)) buf.

Definition sha224_update (ctx : sha256_ctx) (data : list Z) : sha256_ctx := sha256_update ctx data.

Definition sha512_update (ctx : sha512_ctx) (data : list Z) : sha512_ctx :=
  let len := Z.of_nat (length data) in
  let buf_used := Z.to_nat (Z.land (count_lo ctx) 0x7f) in
  let lo := u64 (count_lo ctx + len) in
  let hi := if lo <? len then u64 (count_hi ctx + 1) else count_hi ctx in
  let '(h, buf) := buffer_update 128 sha512_transform buf_used (state512 ctx) (buf512 ctx) data in
  Ctx512 h lo hi buf.

Definition sha384_update (ctx : sha512_ctx) (data : list Z) : sha512_ctx := sha512_update ctx data.

Definition sha256_final (ctx : sha256_ctx) : list Z :=
  let buf_used := Z.to_nat (Z.land (count256 ctx) 0x3f) in
  let bit_count := u64 (Z.shiftl (count256 ctx) 3) in
  let h := buffer_final 64 sha256_transform 56 buf_used (state256 ctx) (buf256 ctx)
             (be_store 8 bit_count) in
  flat_map (be_store 4) (to_list h).

Definition sha224_final (ctx : sha256_ctx) : list Z := take 28 (sha256_final ctx).

Definition sha512_final (ctx : sha512_ctx) : list Z :=
  let buf_used := Z.to_nat (Z.land (count_lo ctx) 0x7f) in
  let bit_count_low := u64 (Z.shiftl (count_lo ctx) 3) in
  let bit_count_high := Z.lor (u64 (Z.shiftl (count_hi ctx) 3)) (Z.shiftr (count_lo ctx) 61) in
  let h := buffer_final 128 sha512_transform 112 buf_used (state512 ctx) (buf512 ctx)
             (be_store 8 bit_count_high ++ be_store 8 bit_count_low) in
  flat_map (be_store 8) (to_list h).

Definition sha384_final (ctx : sha512_ctx) : list Z := take 48 (sha512_final ctx).

(** An uninitialised context: whatever is on the stack. *)
Definition sha224 (ctx : sha256_ctx) (data : list Z) : list Z :=
  sha224_final (sha224_update (sha224_init ctx) data).
Definition sha256 (ctx : sha256_ctx) (data : list Z) : list Z :=
  sha256_final (sha256_update (sha256_init ctx) data).
Definition sha384 (ctx : sha512_ctx) (data : list Z) : list Z :=
  sha384_final (sha384_update (sha384_init ctx) data).
Definition sha512 (ctx : sha512_ctx) (data : list Z) : list Z :=
  sha512_final (sha512_update (sha512_init ctx) data).

(** The digests of the standard on a message given at once. *)
Definition sha256_spec (h : regs) (m : list Z) : list Z :=
  flat_map (be_store 4)
    (to_list (hash_spec 64 sha256_transform 56 h m (be_store 8 (8 * Z.of_nat (length m))))).

Definition sha512_spec (h : regs) (m : list Z) : list Z :=
  flat_map (be_store 8)
    (to_list (hash_spec 128 sha512_transform 112 h m (be_store 16 (8 * Z.of_nat (length m))))).

(** ** Lemmas on chaining *)

Lemma write_at_length off xs buf :
  (off + length xs <= length buf)%nat -> length (write_at off xs buf) = length buf.
Proof. intros H. unfold write_at. rewrite !length_app, length_take, length_drop. lia. Qed.

(** Writing at the end of the used part. *)
Lemma write_at_take off xs buf :
  (off <= length buf)%nat -> take (off + length xs) (write_at off xs buf) = take off buf ++ xs.
Proof.
  intros H. unfold write_at. rewrite app_assoc.
  rewrite take_app_le by (rewrite length_app, length_take; lia).
  apply take_ge. rewrite length_app, length_take. lia.
Qed.

Section chaining.
Context (bs : nat) (tr : regs -> list Z -> regs) (Hbs : (0 < bs)%nat).
Notation feed := (feed bs tr).
Notation absorbed := (absorbed bs tr).

Lemma feed_add j k h m : feed (j + k) h m = feed k (feed j h m) (drop (bs * j) m).
Proof.
  revert h m. induction j as [|j IH]; intros h m; cbn.
  - by rewrite Nat.mul_0_r, drop_0.
  - rewrite IH, drop_drop. do 2 f_equal. lia.
Qed.

Lemma feed_prefix k h m d : (bs * k <= length m)%nat -> feed k h (m ++ d) = feed k h m.
Proof.
  revert h m. induction k as [|k IH]; intros h m Hk; cbn; [done|].
  rewrite take_app_le, drop_app_le by lia. apply IH. rewrite length_drop. lia.
Qed.

Lemma whole_blocks_spec fuel h p :
  (length p <= fuel)%nat ->
  whole_blocks bs tr fuel h p = (feed (length p / bs) h p, drop (bs * (length p / bs)) p).
Proof.
  revert h p. induction fuel as [|fuel IH]; intros h p Hf; cbn.
  - assert (length p = 0%nat) as -> by lia. rewrite Nat.Div0.div_0_l, Nat.mul_0_r. by rewrite drop_0.
  - destruct (Nat.leb_spec bs (length p)) as [Hle|Hgt].
    + rewrite IH by (rewrite length_drop; lia). rewrite length_drop, drop_drop.
      assert (length p / bs = S ((length p - bs) / bs))%nat as ->.
      { replace (length p) with ((length p - bs) + 1 * bs)%nat at 1 by lia.
        rewrite Nat.div_add by lia. lia. }
      cbn. f_equal. f_equal. lia.
    + rewrite Nat.div_small by lia. by rewrite Nat.mul_0_r, drop_0.
Qed.

(** The parts of a message: whole blocks and the rest. *)
Lemma div_parts (m : list Z) :
  (length m = bs * (length m / bs) + length m mod bs /\ length m mod bs < bs)%nat.
Proof. split; [apply Nat.div_mod; lia|apply Nat.mod_upper_bound; lia]. Qed.

Lemma rest_update_spec h0 m h buf p :
  (length m mod bs = 0)%nat -> h = feed (length m / bs) h0 m -> length buf = bs ->
  absorbed h0 (m ++ p) (fst (rest_update bs tr h buf p)) (snd (rest_update bs tr h buf p)).
Proof.
  intros Hm -> Hb. unfold rest_update. rewrite whole_blocks_spec by done.
  destruct (div_parts m) as [Em _]. destruct (div_parts p) as [Ep Hp]. rewrite Hm, Nat.add_0_r in Em.
  assert (length (m ++ p) / bs = length m / bs + length p / bs)%nat as Ed.
  { rewrite length_app, Em, Nat.mul_comm, Nat.div_add_l by lia. by rewrite Nat.mul_comm, <- Em. }
  assert (length (m ++ p) mod bs = length p mod bs)%nat as Er.
  { rewrite length_app, Em, Nat.add_comm, (Nat.mul_comm bs), Nat.Div0.mod_add. done. }
  assert (drop (bs * (length m / bs)) (m ++ p) = p) as Edrop.
  { rewrite drop_app_ge by lia. rewrite <- Em, Nat.sub_diag. done. }
  set (r := drop (bs * (length p / bs)) p).
  assert (length r = length p mod bs)%nat as Hr by (unfold r; rewrite length_drop; lia).
  unfold absorbed. cbn [fst snd]. rewrite Ed, Er. split_and!.
  - by rewrite feed_add, feed_prefix, Edrop by lia.
  - destruct r as [|z r'] eqn:E; [done|]. rewrite <- E in *. rewrite write_at_length; lia.
  - rewrite Nat.mul_add_distr_l, <- drop_drop, Edrop. fold r.
    destruct r as [|z r'] eqn:E; [by rewrite <- Hr|]. rewrite <- E in *.
    rewrite <- Hr. by apply (write_at_take 0 r buf); lia.
Qed.

Lemma buffer_update_spec h0 m h buf p :
  absorbed h0 m h buf ->
  let u := buffer_update bs tr (length m mod bs) h buf p in absorbed h0 (m ++ p) (fst u) (snd u).
Proof.
  intros (-> & Hb & Ht) u. subst u. unfold buffer_update.
  destruct (div_parts m) as [Em Hm]. set (used := (length m mod bs)%nat) in *.
  destruct (Nat.eqb_spec used 0) as [Hz|Hnz]; [by apply rest_update_spec|].
  destruct (Nat.ltb_spec (length p) (bs - used)) as [Hlt|Hge].
  - assert (length (m ++ p) / bs = length m / bs)%nat as Ed.
    { symmetry. apply (Nat.div_unique _ _ _ (used + length p)); [lia|]. rewrite length_app. lia. }
    assert (length (m ++ p) mod bs = used + length p)%nat as Er.
    { symmetry. apply (Nat.mod_unique _ _ (length m / bs)); [lia|]. rewrite length_app. lia. }
    unfold absorbed. cbn [fst snd]. rewrite Ed, Er. split_and!.
    + by rewrite feed_prefix by lia.
    + rewrite write_at_length; lia.
    + rewrite write_at_take, Ht, drop_app_le by lia. done.
  - set (buf' := write_at used (take (bs - used) p) buf).
    assert (length (take (bs - used) p) = bs - used)%nat as Hlt by (rewrite length_take; lia).
    assert (buf' = drop (bs * (length m / bs)) m ++ take (bs - used) p) as Hbuf.
    { rewrite <- Ht. subst buf'. unfold write_at. rewrite Hlt.
      replace (used + (bs - used))%nat with bs by lia. rewrite (drop_ge buf bs), app_nil_r; [done|lia]. }
    replace (m ++ p) with ((m ++ take (bs - used) p) ++ drop (bs - used) p)
      by (rewrite <- app_assoc; by rewrite take_drop).
    assert (length (m ++ take (bs - used) p) = bs * S (length m / bs))%nat as El.
    { rewrite length_app, Hlt. lia. }
    apply rest_update_spec.
    + rewrite El, Nat.mul_comm. apply Nat.Div0.mod_mul.
    + rewrite El, Nat.mul_comm, Nat.div_mul by lia.
      replace (S (length m / bs)) with (length m / bs + 1)%nat by lia.
      rewrite feed_add, feed_prefix by lia. cbn. f_equal.
      rewrite drop_app_le, <- Hbuf by lia. symmetry. apply take_ge.
      subst buf'. rewrite write_at_length; rewrite ?Hlt; lia.
    + subst buf'. rewrite write_at_length; rewrite ?Hlt; lia.
Qed.

(** The number of zero bytes, by whether the length field still fits in the
    block of the 0x80 byte. *)
Lemma zero_pad_fits lenpos n used :
  (used < bs)%nat -> (used = n mod bs)%nat -> (lenpos < bs)%nat ->
  zero_pad bs lenpos n =
    if (lenpos <? S used)%nat then (bs - S used + lenpos)%nat else (lenpos - S used)%nat.
Proof.
  intros Hu E Hl. unfold zero_pad.
  assert (S n mod bs = S used mod bs)%nat as ->.
  { rewrite (Nat.div_mod n bs) at 1 by lia. rewrite <- E.
    replace (S (bs * (n / bs) + used)) with (S used + (n / bs) * bs)%nat by lia.
    apply Nat.Div0.mod_add. }
  destruct (Nat.ltb_spec lenpos (S used)) as [Hlt|Hge].
  - destruct (decide (S used = bs)) as [Eb|].
    + rewrite Eb, Nat.Div0.mod_same, Nat.sub_diag, Nat.sub_0_r.
      replace (bs + lenpos)%nat with (lenpos + 1 * bs)%nat by lia.
      rewrite Nat.Div0.mod_add, Nat.mod_small; lia.
    + rewrite (Nat.mod_small (S used)) by lia. rewrite Nat.mod_small; lia.
  - rewrite (Nat.mod_small (S used)) by lia.
    replace (bs + lenpos - S used)%nat with (lenpos - S used + 1 * bs)%nat by lia.
    rewrite Nat.Div0.mod_add, Nat.mod_small; lia.
Qed.

(** Filling a buffer from [off] to its end. *)
Lemma write_at_fill off xs buf :
  (off + length xs = length buf)%nat -> write_at off xs buf = take off buf ++ xs.
Proof. intros H. unfold write_at. by rewrite (drop_ge buf), app_nil_r by lia. Qed.

(** Chaining over whole blocks followed by one or two more. *)
Lemma feed_blocks h m q b1 b2 :
  (length m = bs * q)%nat -> length b1 = bs -> length b2 = bs ->
  feed (length (m ++ b1) / bs) h (m ++ b1) = tr (feed q h m) b1 /\
  feed (length (m ++ b1 ++ b2) / bs) h (m ++ b1 ++ b2) = tr (tr (feed q h m) b1) b2.
Proof.
  intros Lm L1 L2. rewrite !length_app, Lm, L1, L2.
  replace (bs * q + bs)%nat with ((q + 1) * bs)%nat by lia.
  replace (bs * q + (bs + bs))%nat with ((q + 2) * bs)%nat by lia. rewrite !Nat.div_mul by lia.
  rewrite !feed_add, !feed_prefix, !drop_app_ge, Lm, Nat.sub_diag, !drop_0 by lia. cbn.
  rewrite (take_app_le b1), (take_ge b1), (drop_app_ge b1), L1, Nat.sub_diag, drop_0 by lia.
  by rewrite (take_ge b2) by lia.
Qed.

Lemma buffer_final_spec lenpos h0 m h buf lb :
  absorbed h0 m h buf -> (0 < lenpos < bs)%nat -> (lenpos + length lb = bs)%nat ->
  buffer_final bs tr lenpos (length m mod bs) h buf lb = hash_spec bs tr lenpos h0 m lb.
Proof.
  intros (-> & Hb & Ht) Hpos Hlb. unfold buffer_final, hash_spec, padded.
  destruct (div_parts m) as [Em Hm]. rewrite (zero_pad_fits lenpos _ _ Hm eq_refl ltac:(lia)).
  set (used := (length m mod bs)%nat) in *. set (q := (length m / bs)%nat) in *.
  set (r := drop (bs * q) m) in *.
  assert (length r = used) as Hr by (unfold r; rewrite length_drop; lia).
  assert (length (take (bs * q) m) = bs * q)%nat as Lt by (rewrite length_take; lia).
  assert (feed q h0 m = feed q h0 (take (bs * q) m)) as ->.
  { rewrite <- (take_drop (bs * q) m) at 1. apply feed_prefix. lia. }
  assert (take (S used) (write_at used [128] buf) = r ++ [128]) as E80.
  { rewrite <- Ht. replace (S used) with (used + length [128%Z])%nat by (cbn; lia).
    by rewrite write_at_take by lia. }
  assert (length (write_at used [128] buf) = bs) as L80 by (rewrite write_at_length; cbn; lia).
  assert (forall l, m ++ l = take (bs * q) m ++ r ++ l) as Emr.
  { intros l. unfold r. by rewrite app_assoc, take_drop. }
  rewrite Emr. clear Emr.
  destruct (Nat.ltb_spec lenpos (S used)) as [Hlt|Hge].
  - rewrite write_at_fill, E80 by (rewrite repeat_length; lia). rewrite repeat_app.
    set (b1 := (r ++ [128]) ++ repeat 0 (bs - S used)).
    assert (length b1 = bs) as L1 by (subst b1; rewrite !length_app, repeat_length; cbn; lia).
    rewrite write_at_fill by (rewrite write_at_length; rewrite ?repeat_length; lia).
    pose proof (write_at_take 0 (repeat 0 (lenpos - 0)) b1 ltac:(lia)) as E.
    rewrite repeat_length, Nat.sub_0_r in E. rewrite Nat.sub_0_r. cbn [Nat.add] in E.
    rewrite E, take_0. cbn [app].
    pose proof (feed_blocks h0 _ q b1 (repeat 0 lenpos ++ lb) Lt L1
      ltac:(rewrite length_app, repeat_length; lia)) as [_ <-].
    subst b1. by rewrite <- !app_assoc.
  - pose proof (write_at_take (S used) (repeat 0 (lenpos - S used)) (write_at used [128] buf)
      ltac:(lia)) as E. rewrite repeat_length in E.
    replace (S used + (lenpos - S used))%nat with lenpos in E by lia.
    rewrite write_at_fill, E, E80 by (rewrite write_at_length; rewrite ?repeat_length; lia).
    set (b := ((r ++ [128]) ++ _) ++ lb).
    pose proof (feed_blocks h0 _ q b b Lt
      ltac:(subst b; rewrite !length_app, repeat_length; cbn; lia)
      ltac:(subst b; rewrite !length_app, repeat_length; cbn; lia)) as [<- _].
    subst b. by rewrite <- !app_assoc.
Qed.

End chaining.

(** ** Lengths and counters *)

Lemma le_store_app n k x :
  le_store (n + k) x = le_store n x ++ le_store k (x / 256 ^ Z.of_nat n).
Proof.
  revert x. induction n as [|n IH]; intros x; cbn [Nat.add le_store app].
  - by rewrite Z.div_1_r.
  - rewrite IH, Z.div_div by (try apply Z.pow_pos_nonneg; lia).
    replace (Z.of_nat (S n)) with (Z.of_nat n + 1) by lia. rewrite Z.pow_add_r by lia.
    by rewrite (Z.mul_comm (256 ^ _)).
Qed.

Lemma le_store_mod n x k : Z.of_nat n * 8 <= k -> le_store n (x mod 2 ^ k) = le_store n x.
Proof.
  revert x k. induction n as [|n IH]; intros x k Hk; cbn [le_store]; [done|].
  assert (2 ^ k = 256 * 2 ^ (k - 8)) as E.
  { change 256 with (2 ^ 8). rewrite <- Z.pow_add_r by lia. f_equal. lia. }
  pose proof (pow2_pos (k - 8) ltac:(lia)). f_equal.
  - rewrite E. apply Z.mod_mod_divide. exists (2 ^ (k - 8)). lia.
  - rewrite E, Z.rem_mul_r by lia.
    replace (x mod 256 + 256 * ((x / 256) mod 2 ^ (k - 8)))
      with (((x / 256) mod 2 ^ (k - 8)) * 256 + x mod 256) by lia.
    rewrite Z.div_add_l by lia. rewrite (Z.div_small (x mod 256)) by (apply Z.mod_pos_bound; lia).
    rewrite Z.add_0_r. apply IH. lia.
Qed.

(** The fill level of the buffer, read off the counter. *)
Lemma buf_used_spec (n : nat) k w :
  0 <= k <= w -> Z.to_nat (Z.land (wrap w (Z.of_nat n)) (2 ^ k - 1)) = (n mod Z.to_nat (2 ^ k))%nat.
Proof.
  intros Hk. pose proof (pow2_pos k ltac:(lia)). rewrite land_pow2 by lia. unfold wrap.
  rewrite Z.mod_mod_divide.
  2: { exists (2 ^ (w - k)). rewrite <- Z.pow_add_r by lia. f_equal. lia. }
  rewrite <- (Z2Nat.id (2 ^ k)) at 1 by lia. by rewrite <- Nat2Z.inj_mod, Nat2Z.id.
Qed.

(** The contexts after receiving [m]. *)
Definition ctx256_ok (h0 : regs) (m : list Z) (ctx : sha256_ctx) : Prop :=
  absorbed 64 sha256_transform h0 m (state256 ctx) (buf256 ctx) /\
  count256 ctx = u64 (Z.of_nat (length m)).

Definition ctx512_ok (h0 : regs) (m : list Z) (ctx : sha512_ctx) : Prop :=
  absorbed 128 sha512_transform h0 m (state512 ctx) (buf512 ctx) /\
  count_lo ctx = u64 (Z.of_nat (length m)) /\
  count_hi ctx = u64 (Z.of_nat (length m) / 2 ^ 64).

Lemma sha256_update_ok h0 m d ctx : ctx256_ok h0 m ctx -> ctx256_ok h0 (m ++ d) (sha256_update ctx d).
Proof.
  intros [Ha Hc]. unfold sha256_update. rewrite Hc. change 0x3f with (2 ^ 6 - 1).
  rewrite buf_used_spec by lia. change (Z.to_nat (2 ^ 6)) with 64%nat.
  pose proof (buffer_update_spec 64 sha256_transform ltac:(lia) h0 m _ _ d Ha) as H. cbn zeta in H.
  destruct (buffer_update _ _ _ _ _) as [h b]. split; [done|]. cbn.
  unfold wrap. by rewrite Z.add_mod_idemp_l, length_app, Nat2Z.inj_add by lia.
Qed.

Lemma sha256_updates_ok h0 chunks : forall m ctx,
  ctx256_ok h0 m ctx -> ctx256_ok h0 (m ++ concat chunks) (fold_left sha256_update chunks ctx).
Proof.
  induction chunks as [|d chunks IH]; intros m ctx H; cbn; [by rewrite app_nil_r|].
  rewrite app_assoc. apply IH. by apply sha256_update_ok.
Qed.

Lemma sha256_final_ok h0 m ctx : ctx256_ok h0 m ctx -> sha256_final ctx = sha256_spec h0 m.
Proof.
  intros [Ha Hc]. unfold sha256_final, sha256_spec. rewrite Hc. change 0x3f with (2 ^ 6 - 1).
  rewrite buf_used_spec by lia. change (Z.to_nat (2 ^ 6)) with 64%nat.
  rewrite (buffer_final_spec 64 sha256_transform ltac:(lia) 56 h0 m) by (done || lia).
  do 3 f_equal. unfold be_store, wrap. rewrite Z.shiftl_mul_pow2, Zmult_mod_idemp_l by lia.
  rewrite le_store_mod by lia. do 2 f_equal. lia.
Qed.

Lemma carry64 a len :
  0 <= a -> 0 <= len < 2 ^ 64 ->
  (if u64 (u64 a + len) <? len then u64 (u64 (a / 2 ^ 64) + 1) else u64 (a / 2 ^ 64)) =
  u64 ((a + len) / 2 ^ 64).
Proof.
  intros Ha Hl. unfold wrap. set (M := 2 ^ 64) in *. assert (0 < M) by done.
  pose proof (Z.div_mod a M ltac:(lia)) as E. pose proof (Z.mod_pos_bound a M ltac:(lia)) as B.
  set (q := a / M) in *. set (r := a mod M) in *.
  assert (a + len = M * q + (r + len)) as -> by lia.
  destruct (Z_lt_le_dec (r + len) M).
  - rewrite (Z.mod_small (r + len)) by lia. case_Z; [lia|].
    f_equal. rewrite Z.mul_comm, Z.div_add_l, Z.div_small by lia. lia.
  - replace ((r + len) mod M) with (r + len - M) by (apply Z.mod_unique with 1; lia).
    case_Z; [|lia]. rewrite Z.add_mod_idemp_l by lia. f_equal.
    replace (M * q + (r + len)) with ((q + 1) * M + (r + len - M)) by lia.
    rewrite Z.div_add_l, Z.div_small by lia. lia.
Qed.

Lemma sha512_update_ok h0 m d ctx :
  Z.of_nat (length d) < 2 ^ 64 -> ctx512_ok h0 m ctx -> ctx512_ok h0 (m ++ d) (sha512_update ctx d).
Proof.
  intros Hd (Ha & Hlo & Hhi). unfold sha512_update. rewrite Hlo, Hhi. change 0x7f with (2 ^ 7 - 1).
  rewrite buf_used_spec by lia. change (Z.to_nat (2 ^ 7)) with 128%nat.
  pose proof (buffer_update_spec 128 sha512_transform ltac:(lia) h0 m _ _ d Ha) as H. cbn zeta in H.
  destruct (buffer_update _ _ _ _ _) as [h b]. split_and!; [done|..]; cbn [count_lo count_hi].
  - unfold wrap. by rewrite Z.add_mod_idemp_l, length_app, Nat2Z.inj_add by lia.
  - rewrite carry64 by lia. by rewrite length_app, Nat2Z.inj_add.
Qed.

Lemma sha512_updates_ok h0 chunks : forall m ctx,
  Forall (fun d => Z.of_nat (length d) < 2 ^ 64) chunks ->
  ctx512_ok h0 m ctx -> ctx512_ok h0 (m ++ concat chunks) (fold_left sha512_update chunks ctx).
Proof.
  induction chunks as [|d chunks IH]; intros m ctx Hc H; cbn; [by rewrite app_nil_r|].
  apply Forall_cons in Hc as [Hd Hc]. rewrite app_assoc. apply IH; [done|].
  by apply sha512_update_ok.
Qed.

(** The two words of the 128-bit length field. *)
Lemma length_field n :
  0 <= n ->
  be_store 8 (Z.lor (u64 (Z.shiftl (u64 (n / 2 ^ 64)) 3)) (Z.shiftr (u64 n) 61)) ++
    be_store 8 (u64 (Z.shiftl (u64 n) 3)) = be_store 16 (8 * n).
Proof.
  intros Hn. unfold be_store. rewrite <- reverse_app. f_equal.
  change 16%nat with (8 + 8)%nat. rewrite (le_store_app 8 8 (8 * n)). change (256 ^ Z.of_nat 8) with (2 ^ 64).
  rewrite !Z.shiftl_mul_pow2, Z.shiftr_div_pow2 by lia. change (2 ^ 3) with 8. unfold wrap. f_equal.
  - rewrite Zmult_mod_idemp_l, le_store_mod by lia. f_equal. lia.
  - rewrite Zmult_mod_idemp_l.
    assert (8 * n / 2 ^ 64 = n / 2 ^ 64 * 8 + n mod 2 ^ 64 / 2 ^ 61) as ->.
    { pose proof (Z.div_mod n (2 ^ 64) ltac:(lia)) as E. rewrite E at 1.
      replace (8 * (2 ^ 64 * (n / 2 ^ 64) + n mod 2 ^ 64))
        with ((n / 2 ^ 64 * 8) * 2 ^ 64 + 8 * (n mod 2 ^ 64)) by lia.
      rewrite Z.div_add_l by lia. f_equal. change (2 ^ 64) with (8 * 2 ^ 61) at 2.
      rewrite Z.div_mul_cancel_l by lia. done. }
    rewrite <- (le_store_mod 8 (n / 2 ^ 64 * 8 + _) 64) by lia.
    set (q := n / 2 ^ 64). pose proof (Z.mod_pos_bound n (2 ^ 64) ltac:(lia)) as B.
    set (r := n mod 2 ^ 64 / 2 ^ 61).
    assert (0 <= r < 8) as Hr.
    { subst r. split; [apply Z.div_pos; lia|apply Z.div_lt_upper_bound; lia]. }
    assert ((q * 8) mod 2 ^ 64 = 8 * (q mod 2 ^ 61)) as Eq.
    { change (2 ^ 64) with (8 * 2 ^ 61). rewrite (Z.mul_comm q), Z.mul_mod_distr_l by lia. lia. }
    rewrite Z.add_mod, Eq by lia. rewrite (Z.mod_small r) by lia.
    pose proof (Z.mod_pos_bound q (2 ^ 61) ltac:(lia)).
    rewrite (Z.mod_small (8 * _ + r)) by lia. rewrite (Z.mul_comm 8).
    rewrite (lor_hi_lo _ r 3); [done|lia|change (2 ^ 3) with 8; lia|by apply Z.mod_mul].
Qed.

Lemma sha512_final_ok h0 m ctx : ctx512_ok h0 m ctx -> sha512_final ctx = sha512_spec h0 m.
Proof.
  intros (Ha & Hlo & Hhi). unfold sha512_final, sha512_spec. rewrite Hlo, Hhi.
  change 0x7f with (2 ^ 7 - 1). rewrite buf_used_spec by lia.
  change (Z.to_nat (2 ^ 7)) with 128%nat. rewrite length_field by lia.
  by rewrite (buffer_final_spec 128 sha512_transform ltac:(lia) 112 h0 m) by (done || lia).
Qed.

Lemma sha256_init_ok ctx :
  length (buf256 ctx) = 64%nat ->
  ctx256_ok sha256_init_state [] (sha256_init ctx) /\ ctx256_ok sha224_init_state [] (sha224_init ctx).
Proof. intros Hb. split; (split; [|done]); unfold absorbed; cbn; by rewrite Hb. Qed.

Lemma sha512_init_ok ctx :
  length (buf512 ctx) = 128%nat ->
  ctx512_ok sha512_init_state [] (sha512_init ctx) /\ ctx512_ok sha384_init_state [] (sha384_init ctx).
Proof. intros Hb. split; (split; [|done]); unfold absorbed; cbn; by rewrite Hb. Qed.

(** [C13] Streaming SHA-2: whatever the context held and however the message is
    cut into chunks, init, updates and final produce the digest of the
    standard for the concatenated message (padded with 0x80, zeros and the bit
    length in 64 or 128 bits), for the four variants; the one-shot functions
    are the case of one chunk. *)
Theorem sha2_streaming c256 c512 chunks :
  length (buf256 c256) = 64%nat -> length (buf512 c512) = 128%nat ->
  Forall (fun d => Z.of_nat (length d) < 2 ^ 64) chunks ->
  sha256_final (fold_left sha256_update chunks (sha256_init c256)) =
    sha256_spec sha256_init_state (concat chunks) /\
  sha224_final (fold_left sha224_update chunks (sha224_init c256)) =
    take 28 (sha256_spec sha224_init_state (concat chunks)) /\
  sha512_final (fold_left sha512_update chunks (sha512_init c512)) =
    sha512_spec sha512_init_state (concat chunks) /\
  sha384_final (fold_left sha384_update chunks (sha384_init c512)) =
    take 48 (sha512_spec sha384_init_state (concat chunks)).
Proof.
  intros H1 H2 Hc. destruct (sha256_init_ok c256 H1) as [I1 I2].
  destruct (sha512_init_ok c512 H2) as [I3 I4]. unfold sha224_final, sha384_final.
  split_and!; [| |  |].
  - by apply sha256_final_ok, (sha256_updates_ok _ chunks []).
  - f_equal. by apply sha256_final_ok, (sha256_updates_ok _ chunks []).
  - by apply sha512_final_ok, (sha512_updates_ok _ chunks []).
  - f_equal. by apply sha512_final_ok, (sha512_updates_ok _ chunks []).
Qed.

Lemma sha2_streaming_witness :
  sha256_final (fold_left sha256_update [[97]; [98; 99]]
      (sha256_init (Ctx256 sha256_init_state 7 (repeat 1 64)))) =
    sha256_spec sha256_init_state [97; 98; 99] /\
  sha224_final (fold_left sha224_update [[97]; [98; 99]]
      (sha224_init (Ctx256 sha256_init_state 7 (repeat 1 64)))) =
    take 28 (sha256_spec sha224_init_state [97; 98; 99]) /\
  sha512_final (fold_left sha512_update [[97]; [98; 99]]
      (sha512_init (Ctx512 sha512_init_state 7 7 (repeat 1 128)))) =
    sha512_spec sha512_init_state [97; 98; 99] /\
  sha384_final (fold_left sha384_update [[97]; [98; 99]]
      (sha384_init (Ctx512 sha512_init_state 7 7 (repeat 1 128)))) =
    take 48 (sha512_spec sha384_init_state [97; 98; 99]).
Proof.
  apply (sha2_streaming (Ctx256 sha256_init_state 7 (repeat 1 64))
    (Ctx512 sha512_init_state 7 7 (repeat 1 128)) [[97]; [98; 99]]); [done|done|].
  repeat constructor.
Defined.

(** The published test vectors for the message "abc", computed by the
    code. *)
Theorem sha2_test_vectors c256 c512 :
  length (buf256 c256) = 64%nat -> length (buf512 c512) = 128%nat ->
  be_load (sha224 c256 [97; 98; 99]) =
    0x23097d223405d8228642a477bda255b32aadbce4bda0b3f7e36c9da7 /\
  be_load (sha256 c256 [97; 98; 99]) =
    0xba7816bf8f01cfea414140de5dae2223b00361a396177a9cb410ff61f20015ad /\
  be_load (sha384 c512 [97; 98; 99]) =
    0xcb00753f45a35e8bb5a03d699ac65007272c32ab0eded1631a8b605a43ff5bed8086072ba1e7cc2358baeca134c825a7
  /\ be_load (sha512 c512 [97; 98; 99]) =
    0xddaf35a193617abacc417349ae20413112e6fa4e89a97ea20a9eeee64b55d39a2192992a274fc1a836ba3c23a3feebbd454d4423643ce80e2a9ac94fa54ca49f.
Proof.
  intros H1 H2. destruct (sha256_init_ok c256 H1) as [I1 I2].
  destruct (sha512_init_ok c512 H2) as [I3 I4].
  unfold sha224, sha256, sha384, sha512, sha224_final, sha384_final, sha224_update, sha384_update.
  rewrite (sha256_final_ok _ _ _ (sha256_update_ok _ _ [97; 98; 99] _ I1)).
  rewrite (sha256_final_ok _ _ _ (sha256_update_ok _ _ [97; 98; 99] _ I2)).
  rewrite (sha512_final_ok _ _ _ (sha512_update_ok _ _ [97; 98; 99] _ eq_refl I3)).
  rewrite (sha512_final_ok _ _ _ (sha512_update_ok _ _ [97; 98; 99] _ eq_refl I4)).
  vm_compute. done.
Qed.

Lemma sha2_test_vectors_witness :
  be_load (sha224 (Ctx256 sha256_init_state 7 (repeat 1 64)) [97; 98; 99]) =
    0x23097d223405d8228642a477bda255b32aadbce4bda0b3f7e36c9da7.
Proof.
  apply (sha2_test_vectors (Ctx256 sha256_init_state 7 (repeat 1 64))
    (Ctx512 sha512_init_state 7 7 (repeat 1 128))); done.
Defined.
