(* ===== verification/Slab.v ===== *)
(** The slab allocator, [src/mm/slab.c].

    A heap holds the caches, the slabs (by the address of their blob) with
    their bitmaps, the interrupt state of the hart, and the page allocator
    behind the interface [BlobAlloc].  The intrusive lists of a cache are lists
    of slab addresses. *)

From S2P Require Import Prelude ListHead Bitmap Pm Sync.

(** ** The interface to the page allocator

    [own b X]: the allocator in state [b] has handed out the blobs [X];
    [tight b]: it may be out of memory for its own metadata, in which case it
    panics. *)

(** The descriptors differ in their flags only. *)
Definition flags_only (t t' : page_table) : Prop :=
  forall i, refs (page_at t' i) = refs (page_at t i) /\ order (page_at t' i) = order (page_at t i) /\
    private (page_at t' i) = private (page_at t i).

Class BlobAlloc (B : Type) := {
  blob_inited : B -> bool;
  blob_alloc : ST B Z;
  blob_free : Z -> ST B unit;
  blob_pages : B -> page_table;
  set_blob_pages : page_table -> B -> B
}.

Class BlobAllocOk (B : Type) `{BlobAlloc B} (own : B -> gset Z -> Prop) (tight : B -> Prop) : Prop := {
  blob_alloc_ok b X :
    own b X ->
    wp (tight b) blob_alloc
      (fun r b' => (r = NULL /\ own b' X) \/
         (r ∉ X /\ r mod SLAB_BLOB_SIZE = 0 /\ PM_START <= r /\ r + SLAB_BLOB_SIZE <= PM_END /\
          own b' ({[r]} ∪ X))) b;
  blob_flags_ok b X t : own b X -> flags_only (blob_pages b) t -> own (set_blob_pages t b) X;
  blob_pages_set b t : blob_pages (set_blob_pages t b) = t
}.

(** ** State *)

Definition SLAB_MAGIC : Z := 0x51AB.

Record kmem_cache := KMem {
  obj_size : Z; alloc_size : Z; c_total : Z; c_free : Z; low : Z; high : Z; expanding : bool;
  c_lock : spinlock; slabs_full : list Z; slabs_partial : list Z; slabs_free : list Z
}.

Record slab := Slab {
  kmem : Z; bm : bitmap; s_total : Z; s_free : Z; offset : Z; magic : Z
}.

Record heap (B : Type) := Heap {
  caches : gmap Z kmem_cache;
  slabs : gmap Z slab;
  blobs : B;
  h_intr : intr
}.
Arguments Heap {B}.
Arguments caches {B}.
Arguments slabs {B}.
Arguments blobs {B}.
Arguments h_intr {B}.

(** [sizeof(struct slab)] and the offset of its flexible array on rv64. *)
Definition sizeof_slab : Z := 56.
Definition offsetof_bm_data : Z := 54.

Definition object_num (obj_size : Z) : Z :=
  let D := u64 (u32 (8 * obj_size + 1)) in
  let N := u64 (8 * (SLAB_BLOB_SIZE - sizeof_slab) - 7) in
  u32 (N / D).

Definition slab_empty (s : slab) : bool := s_total s =? s_free s.

Definition SLAB_ALIGN_DOWN (a : Z) : Z := ALIGN_DOWN a SLAB_BLOB_SIZE.

(** [bitmap_size] and [offset] of a new slab. *)
Definition bitmap_size (total : Z) : Z := u32 (ALIGN_UP total 8 / 8).
Definition slab_offset (c : kmem_cache) : Z :=
  u32 (ALIGN_UP (sizeof_slab + bitmap_size (object_num (alloc_size c))) (obj_size c)).

(** The address that [slab_alloc] computes for an object. *)
Definition obj_addr (s : Z) (sl : slab) (c : kmem_cache) (idx : Z) : Z :=
  u64 (s + offset sl + u32 (idx * alloc_size c)).

Section slab.
Context {B : Type} `{BlobAlloc B}.
Implicit Types h : heap B.

(** *** Access to the state *)

Definition set_caches x h : heap B := Heap x (slabs h) (blobs h) (h_intr h).
Definition set_slabs x h : heap B := Heap (caches h) x (blobs h) (h_intr h).
Definition set_blobs x h : heap B := Heap (caches h) (slabs h) x (h_intr h).
Definition set_intr x h : heap B := Heap (caches h) (slabs h) (blobs h) x.

Definition get_cache (K : Z) : ST (heap B) kmem_cache := load (fun h => caches h !! K).
Definition get_slab (s : Z) : ST (heap B) slab := load (fun h => slabs h !! s).

Definition upd_cache (K : Z) (f : kmem_cache -> kmem_cache) : ST (heap B) unit :=
  store (fun h => c ← caches h !! K; Some (set_caches (<[K := f c]> (caches h)) h)).
Definition upd_slab (s : Z) (f : slab -> slab) : ST (heap B) unit :=
  store (fun h => x ← slabs h !! s; Some (set_slabs (<[s := f x]> (slabs h)) h)).

Definition on_blobs {A} (m : ST B A) : ST (heap B) A := lift blobs set_blobs m.

(** An operation on the bitmap of a slab. *)
Definition on_bm {A} (s : Z) (m : ST bitmap A) : ST (heap B) A :=
  let! x := get_slab s in
  match m (bm x) with
  | Ok (a, b) =>
      do! upd_slab s (fun x => Slab (kmem x) b (s_total x) (s_free x) (offset x) (magic x)) in ret a
  | Panic => panic
  | Fault => fault
  | NoFuel => no_fuel
  end.

(** Take [s] out of the lists of a cache, for [list_move]. *)
Definition unlink (s : Z) (c : kmem_cache) : kmem_cache :=
  KMem (obj_size c) (alloc_size c) (c_total c) (c_free c) (low c) (high c) (expanding c) (c_lock c)
    (AList.list_del s (slabs_full c)) (AList.list_del s (slabs_partial c))
    (AList.list_del s (slabs_free c)).
Definition set_full f (c : kmem_cache) : kmem_cache :=
  KMem (obj_size c) (alloc_size c) (c_total c) (c_free c) (low c) (high c) (expanding c) (c_lock c)
    (f (slabs_full c)) (slabs_partial c) (slabs_free c).
Definition set_partial f (c : kmem_cache) : kmem_cache :=
  KMem (obj_size c) (alloc_size c) (c_total c) (c_free c) (low c) (high c) (expanding c) (c_lock c)
    (slabs_full c) (f (slabs_partial c)) (slabs_free c).
Definition set_free_list f (c : kmem_cache) : kmem_cache :=
  KMem (obj_size c) (alloc_size c) (c_total c) (c_free c) (low c) (high c) (expanding c) (c_lock c)
    (slabs_full c) (slabs_partial c) (f (slabs_free c)).
Definition add_counts t f (c : kmem_cache) : kmem_cache :=
  KMem (obj_size c) (alloc_size c) (u64 (c_total c + t)) (u64 (c_free c + f)) (low c) (high c)
    (expanding c) (c_lock c) (slabs_full c) (slabs_partial c) (slabs_free c).
Definition set_expanding b (c : kmem_cache) : kmem_cache :=
  KMem (obj_size c) (alloc_size c) (c_total c) (c_free c) (low c) (high c) b (c_lock c)
    (slabs_full c) (slabs_partial c) (slabs_free c).
Definition set_lock l (c : kmem_cache) : kmem_cache :=
  KMem (obj_size c) (alloc_size c) (c_total c) (c_free c) (low c) (high c) (expanding c) l
    (slabs_full c) (slabs_partial c) (slabs_free c).
Definition set_s_free f (x : slab) : slab :=
  Slab (kmem x) (bm x) (s_total x) (f (s_free x)) (offset x) (magic x).

(** [spinlock_acquire(&kmem->lock)] and [spinlock_release]. *)
Definition with_lock (K : Z) (m : ST hart_lock unit) : ST (heap B) unit :=
  let! c := get_cache K in
  let! i := gets h_intr in
  match m (HL i (c_lock c)) with
  | Ok (_, l) =>
      do! upd_cache K (set_lock (hl_lock l)) in
      modify (set_intr (hl_intr l))
  | Panic => panic
  | Fault => fault
  | NoFuel => no_fuel
  end.

(** *** Slabs *)

(** [for (p = 0; p < SLAB_BLOB_SIZE; p += PAGE_SIZE)] over the flags of the
    blob's pages; a page outside RAM is a null dereference in [slab_init] and
    a panic in [slab_destroy]. *)
Fixpoint blob_flags (n : nat) (a : Z) (f : page -> page) : ST page_table bool :=
  match n with
  | O => ret true
  | S n =>
      match addr2page a with
      | Some i => do! upd_page i f in blob_flags n (a + PAGE_SIZE) f
      | None => ret false
      end
  end.

Definition on_pages {A} (m : ST page_table A) : ST (heap B) A :=
  on_blobs (lift blob_pages set_blob_pages m).

Definition slab_init (K blob : Z) : ST (heap B) unit :=
  let! ok := on_pages (blob_flags 16 blob (fun p => set_flags (Z.lor (flags p) PM_SLAB) p)) in
  if negb ok then fault else
  let! c := get_cache K in
  let total := object_num (alloc_size c) in
  let x := Slab K (Bitmap (repeat 0 (Z.to_nat (bitmap_size total))) total) total total
             (slab_offset c) SLAB_MAGIC in
  do! modify (fun h => set_slabs (<[blob := x]> (slabs h)) h) in
  upd_cache K (set_partial (AList.list_add_tail blob)).

Definition slab_destroy (s : Z) : ST (heap B) unit :=
  let! ok := on_pages (blob_flags 16 s (fun p => set_flags (and_not (flags p) PM_SLAB) p)) in
  if negb ok then panic else
  let! x := get_slab s in
  do! upd_cache (kmem x) (unlink s) in
  do! modify (fun h => set_slabs (delete s (slabs h)) h) in
  on_blobs (blob_free s).

Definition slab_alloc (s : Z) : ST (heap B) Z :=
  do! upd_slab s (set_s_free (fun n => u32 (n - 1))) in
  let! x := get_slab s in
  do! (if s_free x =? 0
       then upd_cache (kmem x) (fun c => set_full (AList.list_add s) (unlink s c))
       else ret tt) in
  let! i := on_bm s (bitmap_find_next_clear 0) in
  let idx := u32 i in
  if idx =? len (bm x) then panic else
  do! on_bm s (bitmap_set idx) in
  let! x := get_slab s in
  let! c := get_cache (kmem x) in
  ret (obj_addr s x c idx).

Definition slab_free (addr : Z) : ST (heap B) unit :=
  let s := SLAB_ALIGN_DOWN addr in
  let! x := get_slab s in
  if negb (magic x =? SLAB_MAGIC) then panic else
  let obj_offset := u32 (addr - s) in
  if obj_offset <? offset x then panic else
  let! c := get_cache (kmem x) in
  let idx := u32 ((obj_offset - offset x) / alloc_size c) in
  if s_total x <=? idx then panic else
  let! b := on_bm s (bitmap_get idx) in
  if b =? 0 then ret tt else
  if s_free x =? s_total x then panic else
  do! (if s_free x =? 0
       then upd_cache (kmem x) (fun c => set_partial (AList.list_add s) (unlink s c))
       else ret tt) in
  do! on_bm s (bitmap_clear idx) in
  upd_slab s (set_s_free (fun n => u32 (n + 1))).

(** *** Caches *)

Definition kmem_cache_init (K size : Z) (with_initial_alloc : bool) : ST (heap B) Z :=
  let a := u32 (ALIGN_UP size 8) in
  let n := object_num a in
  do! modify (fun h => set_caches (<[K := KMem (u32 size) a 0 0 n (u32 (2 * n)) false
                                       SPINLOCK_INITIALIZER [] [] []]> (caches h)) h) in
  if negb with_initial_alloc then ret 0 else
  let! i := gets (fun h => blob_inited (blobs h)) in
  if negb i then panic else
  let! s := on_blobs blob_alloc in
  if s =? NULL then ret (- ENOMEM) else
  do! slab_init K s in
  let! x := get_slab s in
  do! upd_cache K (add_counts (s_total x) (s_free x)) in
  ret 0.

(** The refill at the start of an allocation; [false] is the early return of
    the null pointer. *)
Definition refill (K : Z) : ST (heap B) bool :=
  let! c := get_cache K in
  if negb (expanding c) && (c_free c <? low c) then
    match slabs_free c with
    | s :: _ =>
        do! upd_cache K (fun c => set_partial (AList.list_add s) (unlink s c)) in
        let! x := get_slab s in
        do! upd_cache K (add_counts (s_total x) (s_free x)) in
        ret true
    | [] =>
        do! upd_cache K (set_expanding true) in
        let! s := on_blobs blob_alloc in
        do! upd_cache K (set_expanding false) in
        if s =? NULL then
          let! c := get_cache K in ret (0 <? c_free c)
        else
          do! slab_init K s in
          let! x := get_slab s in
          do! upd_cache K (add_counts (s_total x) (s_free x)) in
          ret true
    end
  else ret true.

Definition kmem_cache_alloc_nolock (K : Z) : ST (heap B) Z :=
  let! go := refill K in
  if negb go then ret NULL else
  let! c := get_cache K in
  if c_free c =? 0 then ret NULL else
  match slabs_partial c with
  | [] => fault
  | s :: _ =>
      let! mem := slab_alloc s in
      do! upd_cache K (add_counts 0 (-1)) in
      ret mem
  end.

Definition kmem_cache_alloc (hart K : Z) : ST (heap B) Z :=
  if K =? NULL then panic else
  let! c := get_cache K in
  if spinlock_holding hart (c_lock c) then kmem_cache_alloc_nolock K else
  do! with_lock K (spinlock_acquire_bare hart) in
  let! mem := kmem_cache_alloc_nolock K in
  do! with_lock K (spinlock_release_bare hart) in
  ret mem.

Definition kmem_cache_free (hart addr : Z) : ST (heap B) unit :=
  let! x := get_slab (SLAB_ALIGN_DOWN addr) in
  let K := kmem x in
  let! c := get_cache K in
  if spinlock_holding hart (c_lock c) then
    do! slab_free addr in upd_cache K (add_counts 0 1)
  else
    do! with_lock K (spinlock_acquire_bare hart) in
    do! slab_free addr in
    do! upd_cache K (add_counts 0 1) in
    with_lock K (spinlock_release_bare hart).

(** [list_for_each_entry_safe] over the partial slabs. *)
Fixpoint flush_loop (K : Z) (l : list Z) : ST (heap B) unit :=
  match l with
  | [] => ret tt
  | s :: l =>
      let! x := get_slab s in
      do! (if slab_empty x
           then upd_cache K (fun c => set_free_list (AList.list_add s) (unlink s c))
           else ret tt) in
      flush_loop K l
  end.

Definition kmem_cache_flush (hart K : Z) : ST (heap B) unit :=
  if K =? NULL then panic else
  do! with_lock K (spinlock_acquire_bare hart) in
  let! c := get_cache K in
  if c_free c <? high c then ret tt else
  do! flush_loop K (slabs_partial c) in
  with_lock K (spinlock_release_bare hart).

End slab.
