(* ===== verification/SlabProof.v ===== *)
(** Correctness of the slab allocator: the invariant of a cache, and what
    allocating and freeing an object do to the set of allocated objects. *)

From S2P Require Import Prelude ListHead Bitmap Pm Sync Slab.

(** ** The invariant *)

(** An object of a slab is allocated: its bit is set. *)
Definition allocated {B} (h : heap B) (s idx : Z) : Prop :=
  exists x, slabs h !! s = Some x /\ 0 <= idx < s_total x /\ bit (bm x) idx = true.

(** Free objects of the slabs of a list. *)
Fixpoint free_sum (sl : gmap Z slab) (l : list Z) : Z :=
  match l with
  | [] => 0
  | s :: l => match sl !! s with Some x => s_free x | None => 0 end + free_sum sl l
  end.

Record slab_ok (c : kmem_cache) (x : slab) : Prop := {
  so_wf : wf (bm x);
  so_len : len (bm x) = s_total x;
  so_total : s_total x = object_num (alloc_size c);
  so_free : s_free x = clear_count (bm x);
  so_offset : offset x = slab_offset c;
  so_magic : magic x = SLAB_MAGIC
}.

(** The sizes of a cache: a slab holds an object, and every object starts
    inside the blob, behind the bitmap. *)
Record sizes_ok (c : kmem_cache) : Prop := {
  sz_alloc : 8 <= alloc_size c < 2 ^ 16;
  sz_some : 0 < object_num (alloc_size c) < 2 ^ 16;
  sz_offset : 0 <= slab_offset c;
  sz_start : slab_offset c + (object_num (alloc_size c) - 1) * alloc_size c < SLAB_BLOB_SIZE
}.

Definition blob_addr (s : Z) : Prop :=
  s mod SLAB_BLOB_SIZE = 0 /\ PM_START <= s /\ s + SLAB_BLOB_SIZE <= PM_END.

Record cache_ok {B} (h : heap B) (K : Z) (c : kmem_cache) : Prop := {
  co_cache : caches h !! K = Some c;
  co_sizes : sizes_ok c;
  co_partial s : s ∈ slabs_partial c ->
    exists x, slabs h !! s = Some x /\ kmem x = K /\ slab_ok c x /\ 0 < s_free x;
  co_full s : s ∈ slabs_full c ->
    exists x, slabs h !! s = Some x /\ kmem x = K /\ slab_ok c x /\ s_free x = 0;
  co_nodup : NoDup (slabs_partial c ++ slabs_full c);
  co_all s x : slabs h !! s = Some x -> kmem x = K -> s ∈ slabs_partial c ++ slabs_full c;
  co_flushed : slabs_free c = [];
  co_idle : expanding c = false;
  co_count : c_free c = free_sum (slabs h) (slabs_partial c);
  co_addr s : s ∈ dom (slabs h) -> blob_addr s
}.

(** The cache and the page allocator agree on the blobs in use; the lock of
    the cache is free and the hart is outside critical sections. *)
Definition heap_ok {B} (own : B -> gset Z -> Prop) (K : Z) (c : kmem_cache) (h : heap B) : Prop :=
  cache_ok h K c /\ own (blobs h) (dom (slabs h)).

Definition unlocked {B} (st : Z) (c : kmem_cache) (h : heap B) : Prop :=
  c_lock c = SPINLOCK_INITIALIZER /\ intr_ok st 0 (h_intr h).

(** What an operation on cache [K] leaves alone: the other caches and their
    slabs. *)
Definition frame {B} (K : Z) (h h' : heap B) : Prop :=
  (forall K', K' <> K -> caches h' !! K' = caches h !! K') /\
  (forall s x, kmem x <> K -> slabs h' !! s = Some x <-> slabs h !! s = Some x).

Lemma frame_refl {B} K (h : heap B) : frame K h h.
Proof. by split. Qed.

Lemma frame_trans {B} K (h1 h2 h3 : heap B) : frame K h1 h2 -> frame K h2 h3 -> frame K h1 h3.
Proof.
  intros [A1 A2] [B1 B2]. split.
  - intros K' HK. rewrite B1 by done. by apply A1.
  - intros s x HK. rewrite B2 by done. by apply A2.
Qed.

(** An update of the cache and of one of its slabs, or a new slab of it. *)
Lemma frame_update {B} K (h : heap B) c s x b i :
  (forall y, slabs h !! s = Some y -> kmem y = K) -> kmem x = K ->
  frame K h (Heap (<[K := c]> (caches h)) (<[s := x]> (slabs h)) b i).
Proof.
  intros Hs Hx. split; cbn.
  - intros K' HK. by rewrite lookup_insert_ne.
  - intros t y Hy. rewrite lookup_insert_Some. split; [intros [[_ <-]|[_ ?]]; done|].
    intros Ht. right. split; [|done]. intros <-. by apply Hs in Ht.
Qed.

Lemma frame_cache {B} K (h : heap B) c b i : frame K h (Heap (<[K := c]> (caches h)) (slabs h) b i).
Proof. split; cbn; [|done]. intros K' HK. by rewrite lookup_insert_ne. Qed.

(** Another cache keeps its invariant. *)
Lemma frame_cache_ok {B} K K' (h h' : heap B) c :
  frame K h h' -> K' <> K -> (forall s, s ∈ dom (slabs h') -> blob_addr s) ->
  cache_ok h K' c -> cache_ok h' K' c.
Proof.
  intros [F1 F2] HK Ha [C1 C2 C3 C4 C5 C6 C7 C8 C9 C10].
  assert (Hf : forall s x, kmem x = K' -> slabs h' !! s = Some x <-> slabs h !! s = Some x).
  { intros s x E. apply F2. by rewrite E. }
  split; try done.
  - by rewrite F1.
  - intros s Hs. destruct (C3 s Hs) as (x & ? & ? & ?). exists x. by rewrite Hf.
  - intros s Hs. destruct (C4 s Hs) as (x & ? & ? & ?). exists x. by rewrite Hf.
  - intros s x Hx E. apply (C6 s x); [by apply Hf|done].
  - rewrite C9. clear -C3 Hf. induction (slabs_partial c) as [|s l IH]; cbn; [done|].
    destruct (C3 s ltac:(set_solver)) as (x & Hx & E & _). rewrite Hx, (proj2 (Hf s x E) Hx).
    rewrite IH; [done|]. intros t Ht. apply C3. set_solver.
Qed.

(** ** Sums of free objects *)

Lemma free_sum_update sl s x x' l :
  sl !! s = Some x -> NoDup l ->
  free_sum (<[s := x']> sl) l = free_sum sl l + (if decide (s ∈ l) then s_free x' - s_free x else 0).
Proof.
  intros Hx. induction l as [|t l IH]; intros Hnd; cbn [free_sum].
  { rewrite decide_False by set_solver. lia. }
  apply NoDup_cons in Hnd as [Ht Hnd]. rewrite IH by done.
  destruct (decide (t = s)) as [->|Hne].
  - rewrite lookup_insert_eq, Hx, (decide_False (P := s ∈ l)), decide_True by set_solver. lia.
  - rewrite lookup_insert_ne by done.
    destruct (decide (s ∈ l)); [rewrite decide_True by set_solver|rewrite decide_False by set_solver]; lia.
Qed.

Lemma free_sum_fresh sl s x l : s ∉ l -> free_sum (<[s := x]> sl) l = free_sum sl l.
Proof.
  induction l as [|t l IH]; intros Hs; cbn [free_sum]; [done|].
  rewrite IH by set_solver. rewrite lookup_insert_ne by set_solver. done.
Qed.

Lemma free_sum_app sl l l' : free_sum sl (l ++ l') = free_sum sl l + free_sum sl l'.
Proof. induction l as [|t l IH]; cbn [free_sum app]; [lia|rewrite IH; lia]. Qed.

Lemma free_sum_del sl s x l :
  sl !! s = Some x -> s ∈ l -> free_sum sl (AList.list_del s l) = free_sum sl l - s_free x.
Proof.
  intros Hx. induction l as [|t l IH]; intros Hs; [set_solver|]. cbn [AList.list_del free_sum].
  destruct (Z.eqb_spec t s) as [->|Hne]; [rewrite Hx; lia|].
  cbn [free_sum]. rewrite IH by set_solver. lia.
Qed.

(** The number of blobs in RAM bounds the lists, so the counters do not wrap. *)
Lemma blob_count (l : list Z) : NoDup l -> Forall blob_addr l -> Z.of_nat (length l) <= 2048.
Proof.
  intros Hnd Hl.
  assert (length (map (fun s => (s / SLAB_BLOB_SIZE)%Z) l) <= length (seqZ 32768 2048))%nat as Hle.
  { apply submseteq_length, NoDup_submseteq.
    - clear -Hnd Hl. induction Hl as [|s l Hs Hl IH]; cbn; [constructor|].
      apply NoDup_cons in Hnd as [Hs' Hnd]. apply NoDup_cons. split; [|by apply IH].
      intros (t & Et & Ht)%list_elem_of_fmap. rewrite Forall_forall in Hl.
      specialize (Hl t Ht). destruct Hs as (Ms & _), Hl as (Mt & _).
      pose proof (Z.div_mod s SLAB_BLOB_SIZE ltac:(done)).
      pose proof (Z.div_mod t SLAB_BLOB_SIZE ltac:(done)). apply Hs'.
      replace s with t by congruence. done.
    - intros q (s & -> & Hs)%list_elem_of_fmap. rewrite Forall_forall in Hl.
      destruct (Hl s Hs) as (Ms & Hlo & Hhi). apply elem_of_seqZ.
      change SLAB_BLOB_SIZE with 65536 in *. mem_nums. split.
      + apply Z.div_le_lower_bound; lia.
      + apply Z.div_lt_upper_bound; lia. }
  rewrite length_map, length_seqZ in Hle. lia.
Qed.

Lemma clear_count_bounds b : 0 <= len b -> 0 <= clear_count b <= len b.
Proof.
  intros Hl. unfold clear_count. split; [lia|].
  pose proof (length_filter (fun i => bit b i = false) (seqZ 0 (len b))) as Hf.
  rewrite length_seqZ in Hf. lia.
Qed.

Lemma slab_free_bounds c x : slab_ok c x -> sizes_ok c -> 0 <= s_free x <= s_total x /\ 0 < s_total x < 2 ^ 16.
Proof.
  intros [W L T F _ _] [_ S _ _]. rewrite F, <- L.
  pose proof (clear_count_bounds (bm x) ltac:(destruct (wf_len _ W); lia)). lia.
Qed.

Section proof.
Context {B : Type} `{HB : BlobAlloc B} {own : B -> gset Z -> Prop}
  {tight : B -> Prop} {HBOk : BlobAllocOk B own tight}.
Implicit Types h : heap B.

Lemma free_sum_bounds h K c :
  cache_ok h K c -> 0 <= c_free c < 2 ^ 28 /\ (0 < c_free c -> slabs_partial c <> []).
Proof.
  intros [_ Hsz Hp _ Hnd _ _ _ Hcnt Haddr]. rewrite Hcnt. split; [|intros Hpos E; rewrite E in Hpos; cbn in Hpos; lia].
  apply NoDup_app in Hnd as (Hnd & _ & _).
  assert (Forall blob_addr (slabs_partial c)) as Hb.
  { apply Forall_forall. intros s Hs. destruct (Hp s Hs) as (x & Hx & _). apply Haddr.
    apply elem_of_dom. by exists x. }
  pose proof (blob_count _ Hnd Hb) as Hlen. clear Hb Hnd Hcnt.
  assert (0 <= free_sum (slabs h) (slabs_partial c) <= 65536 * Z.of_nat (length (slabs_partial c)))
    as Hsum; [|lia].
  clear Hlen. induction (slabs_partial c) as [|s l IH]; cbn [free_sum length]; [lia|].
  destruct (Hp s ltac:(set_solver)) as (x & -> & _ & Hx & _).
  pose proof (slab_free_bounds c x Hx Hsz).
  assert (0 <= free_sum (slabs h) l <= 65536 * Z.of_nat (length l)); [|lia].
  apply IH. intros t Ht. apply Hp. set_solver.
Qed.

(** ** Primitive operations *)

Lemma wp_get_cache E K c (Q : kmem_cache -> heap B -> Prop) h :
  caches h !! K = Some c -> Q c h -> wp E (get_cache K) Q h.
Proof. intros Hc HQ. by eapply wp_load. Qed.

Lemma wp_get_slab E s x (Q : slab -> heap B -> Prop) h :
  slabs h !! s = Some x -> Q x h -> wp E (get_slab s) Q h.
Proof. intros Hx HQ. by eapply wp_load. Qed.

Lemma wp_upd_cache E K c f (Q : unit -> heap B -> Prop) h :
  caches h !! K = Some c -> Q tt (set_caches (<[K := f c]> (caches h)) h) -> wp E (upd_cache K f) Q h.
Proof. intros Hc HQ. eapply wp_store; [|done]. cbn. by rewrite Hc. Qed.

Lemma wp_upd_slab E s x f (Q : unit -> heap B -> Prop) h :
  slabs h !! s = Some x -> Q tt (set_slabs (<[s := f x]> (slabs h)) h) -> wp E (upd_slab s f) Q h.
Proof. intros Hc HQ. eapply wp_store; [|done]. cbn. by rewrite Hc. Qed.

(** A read of the bitmap, and a write. *)
Lemma wp_on_bm {A} E s x (m : ST bitmap A) a b (Q : A -> heap B -> Prop) h :
  slabs h !! s = Some x -> m (bm x) = Ok (a, b) ->
  Q a (set_slabs (<[s := Slab (kmem x) b (s_total x) (s_free x) (offset x) (magic x)]> (slabs h)) h) ->
  wp E (on_bm s m) Q h.
Proof.
  intros Hx Hm HQ. unfold on_bm. apply wp_bind. eapply wp_get_slab; [done|]. rewrite Hm.
  apply wp_bind. eapply wp_upd_slab; [done|]. by apply wp_ret.
Qed.

Lemma wp_on_bm_read {A} E s x (m : ST bitmap A) a (Q : A -> heap B -> Prop) h :
  slabs h !! s = Some x -> m (bm x) = Ok (a, bm x) -> Q a h -> wp E (on_bm s m) Q h.
Proof.
  intros Hx Hm HQ. eapply wp_on_bm; [done|done|].
  destruct x as [K b t f o g]. cbn. rewrite insert_id by done. by destruct h.
Qed.

(** ** One slab *)

(** The lists of a cache after its slab [s] went from [n] free objects to
    [n'], as [slab_alloc] and [slab_free] move it. *)
Definition relink (s : Z) (was_full is_full : bool) (c : kmem_cache) : kmem_cache :=
  if is_full then set_full (AList.list_add s) (unlink s c)
  else if was_full then set_partial (AList.list_add s) (unlink s c) else c.

(** A slab with a free object: the index the allocation takes, and the bitmap
    afterwards. *)
Lemma free_index b0 : wf b0 -> 0 < clear_count b0 ->
  exists r b, bitmap_find_next_clear 0 b0 = Ok (r, b0) /\ 0 <= r < len b0 /\ bit b0 r = false /\
    bitmap_set r b0 = Ok (tt, b) /\ wf b /\ len b = len b0 /\
    (forall j, 0 <= j -> bit b j = if j =? r then true else bit b0 j).
Proof.
  intros W Hpos. apply clear_count_pos in Hpos as (i & Hi & Hb).
  destruct (find_next_clear_aligned b0 0 W ltac:(lia) eq_refl) as (r & Hr & Hr1 & Hr2 & Hr3).
  assert (r < len b0) as Hrl by (destruct (Z_lt_le_dec r (len b0)); [done|]; rewrite Hr2 in Hb by lia; done).
  destruct (bitmap_set_op b0 r W ltac:(lia)) as (b & Hset & Hbwf & Hblen & Hbits).
  exists r, b. split_and!; try done; [lia|by apply Hr3|]. intros j Hj. rewrite Hbits by done.
  destruct (Z.ltb_spec r (len b0)); [|lia]. by rewrite andb_true_r.
Qed.

(** The part of [slab_alloc] after the slab has moved between the lists. *)
Lemma slab_take E K c x1 s h r b (n : Z) :
  slabs h !! s = Some x1 -> caches h !! K = Some c -> kmem x1 = K -> n = len (bm x1) -> n < 2 ^ 32 ->
  bitmap_find_next_clear 0 (bm x1) = Ok (r, bm x1) -> 0 <= r < n -> bitmap_set r (bm x1) = Ok (tt, b) ->
  wp E (let! i := on_bm s (bitmap_find_next_clear 0) in
        let idx := u32 i in
        if idx =? n then panic else
        do! on_bm s (bitmap_set idx) in
        let! x := get_slab s in
        let! c := get_cache (kmem x) in
        ret (obj_addr s x c idx))
    (fun a h' => a = obj_addr s x1 c r /\
       h' = set_slabs (<[s := Slab K b (s_total x1) (s_free x1) (offset x1) (magic x1)]> (slabs h)) h) h.
Proof.
  intros Hs Hc HK Hn Hw Hf Hr Hset. apply wp_bind. eapply wp_on_bm_read; [exact Hs|exact Hf|].
  cbv beta zeta. rewrite wrap_small by (unfold in_width; lia). destruct (Z.eqb_spec r n); [lia|].
  apply wp_bind. eapply wp_on_bm; [exact Hs|exact Hset|].
  apply wp_bind. eapply wp_get_slab; [cbn; apply lookup_insert_eq|].
  apply wp_bind. eapply wp_get_cache; [cbn [kmem]; rewrite HK; exact Hc|]. apply wp_ret. by rewrite HK.
Qed.

Lemma slab_alloc_spec E h K c s x :
  caches h !! K = Some c -> slabs h !! s = Some x -> kmem x = K -> slab_ok c x -> sizes_ok c ->
  0 < s_free x ->
  wp E (slab_alloc s)
    (fun r h' => exists idx b, r = obj_addr s x c idx /\ 0 <= idx < s_total x /\
       bit (bm x) idx = false /\ wf b /\ len b = len (bm x) /\
       (forall j, 0 <= j -> bit b j = if j =? idx then true else bit (bm x) j) /\
       h' = Heap (<[K := relink s false (s_free x =? 1) c]> (caches h))
              (<[s := Slab K b (s_total x) (s_free x - 1) (offset x) (magic x)]> (slabs h))
              (blobs h) (h_intr h)) h.
Proof.
  intros Hc Hx HK Hok Hsz Hpos. destruct (slab_free_bounds c x Hok Hsz) as [Hf Ht].
  destruct Hok as [W L T F O Mg]. unfold slab_alloc.
  apply wp_bind. eapply wp_upd_slab; [done|]. unfold set_s_free.
  rewrite wrap_small by (unfold in_width; lia).
  apply wp_bind. eapply wp_get_slab; [cbn; apply lookup_insert_eq|]. cbn [s_free kmem bm].
  destruct (free_index (bm x) W ltac:(lia)) as (r & b & Hr & Hri & Hrb & Hset & Hbwf & Hblen & Hbits).
  set (x1 := Slab (kmem x) (bm x) (s_total x) (s_free x - 1) (offset x) (magic x)).
  set (h1 := set_slabs (<[s := x1]> (slabs h)) h).
  assert (caches h1 !! kmem x = Some c) as Hc1 by (cbn; by rewrite HK).
  assert (slabs h1 !! s = Some x1) as Hs1 by apply lookup_insert_eq.
  apply wp_bind. destruct (Z.eqb_spec (s_free x - 1) 0) as [Ez|Nz].
  - eapply wp_upd_cache; [exact Hc1|]. cbv beta.
    eapply wp_mono; [eapply (slab_take _ K _ x1 s _ r b); [exact Hs1|cbn; rewrite HK; apply lookup_insert_eq|done|done|lia|done..]|done|].
    intros a h' [-> ->]. exists r, b. split_and!; try done; try lia.
    destruct (Z.eqb_spec (s_free x) 1); [|lia]. cbn. by rewrite HK, insert_insert_eq.
  - apply wp_ret. eapply wp_mono; [eapply (slab_take _ K c x1 s h1 r b); [done|by rewrite <- HK|done|done|lia|done..]|done|].
    intros a h' [-> ->]. exists r, b. split_and!; try done; try lia.
    destruct (Z.eqb_spec (s_free x) 1); [lia|]. cbn. by rewrite (insert_id (caches h)), insert_insert_eq.
Qed.

(** The address of an object leads back to its slab and its index. *)
Lemma obj_addr_spec s x c idx :
  blob_addr s -> slab_ok c x -> sizes_ok c -> 0 <= idx < s_total x ->
  obj_addr s x c idx = s + slab_offset c + idx * alloc_size c /\
  SLAB_ALIGN_DOWN (obj_addr s x c idx) = s /\
  u32 (obj_addr s x c idx - s) = slab_offset c + idx * alloc_size c.
Proof.
  intros (Ms & Hlo & Hhi) [W L T F O _] [A S Of St] Hi.
  change SLAB_BLOB_SIZE with 65536 in *. mem_nums.
  assert (0 <= idx * alloc_size c) by nia.
  assert (slab_offset c + idx * alloc_size c < 65536).
  { assert (idx * alloc_size c <= (object_num (alloc_size c) - 1) * alloc_size c); [|lia].
    apply Z.mul_le_mono_nonneg_r; lia. }
  assert (obj_addr s x c idx = s + slab_offset c + idx * alloc_size c) as ->.
  { unfold obj_addr. rewrite O, (wrap_small 32), wrap_small by (unfold in_width; lia). lia. }
  split; [done|]. split.
  - unfold SLAB_ALIGN_DOWN. change SLAB_BLOB_SIZE with (2 ^ 16).
    rewrite ALIGN_DOWN_pow2 by (unfold in_width; lia).
    apply mult_mod in Ms as [q ->]; [|lia]. change (2 ^ 16) with 65536.
    replace (65536 * q + slab_offset c + idx * alloc_size c)
      with (slab_offset c + idx * alloc_size c + q * 65536) by lia.
    rewrite Z.mod_add, Z.mod_small by lia. lia.
  - rewrite wrap_small; [lia|unfold in_width; lia].
Qed.

Lemma slab_free_spec E h K c s x idx :
  caches h !! K = Some c -> slabs h !! s = Some x -> kmem x = K -> slab_ok c x -> sizes_ok c ->
  blob_addr s -> 0 <= idx < s_total x ->
  wp E (slab_free (obj_addr s x c idx))
    (fun _ h' =>
       if bit (bm x) idx then
         exists b, wf b /\ len b = len (bm x) /\
           (forall j, 0 <= j -> bit b j = if j =? idx then false else bit (bm x) j) /\
           h' = Heap (<[K := relink s (s_free x =? 0) false c]> (caches h))
                  (<[s := Slab K b (s_total x) (s_free x + 1) (offset x) (magic x)]> (slabs h))
                  (blobs h) (h_intr h)
       else h' = h) h.
Proof.
  intros Hc Hx HK Hok Hsz Hs Hi. destruct (slab_free_bounds c x Hok Hsz) as [Hf Ht].
  destruct (obj_addr_spec s x c idx Hs Hok Hsz Hi) as (_ & Hdown & Hoff).
  pose proof Hok as [W L T F O Mg]. pose proof Hsz as [A _ Of _]. unfold slab_free.
  cbv zeta. rewrite Hdown, Hoff. apply wp_bind. eapply wp_get_slab; [done|].
  rewrite Mg, Z.eqb_refl. cbn [negb]. rewrite O.
  destruct (Z.ltb_spec (slab_offset c + idx * alloc_size c) (slab_offset c)); [nia|].
  apply wp_bind. eapply wp_get_cache; [by rewrite HK|].
  replace (slab_offset c + idx * alloc_size c - slab_offset c) with (idx * alloc_size c) by lia.
  rewrite Z.div_mul, wrap_small by (unfold in_width; lia).
  destruct (Z.leb_spec (s_total x) idx); [lia|]. apply wp_bind.
  eapply wp_on_bm_read; [done|apply bitmap_get_correct; [done|lia]|].
  destruct (bit (bm x) idx) eqn:Hbit; cbn [Z.b2z Z.eqb]; [|by apply wp_ret].
  assert (s_free x < s_total x) as Hlt.
  { destruct (Z_lt_le_dec (s_free x) (s_total x)) as [|Hge]; [done|exfalso].
    assert (clear_count (bm x) = len (bm x)) as E1 by lia. unfold clear_count in E1.
    pose proof (length_seqZ 0 (len (bm x))) as E2.
    pose proof (length_filter_lt (fun i => bit (bm x) i = false) (seqZ 0 (len (bm x))) idx) as E3.
    rewrite E2 in E3. lapply E3; [|apply elem_of_seqZ; lia]. intros E4. lapply E4; [lia|congruence]. }
  destruct (Z.eqb_spec (s_free x) (s_total x)); [lia|].
  destruct (bitmap_clear_op (bm x) idx W ltac:(lia)) as (b & Hset & Hbwf & Hblen & Hbits).
  assert (Hb' : forall j, 0 <= j -> bit b j = if j =? idx then false else bit (bm x) j).
  { intros j Hj. rewrite Hbits by done. destruct (Z.ltb_spec idx (len (bm x))); [|lia].
    by rewrite andb_true_r. }
  assert (Htail : forall h', slabs h' = slabs h ->
    wp E (do! on_bm s (bitmap_clear idx) in upd_slab s (set_s_free (fun n => u32 (n + 1))))
      (fun _ h'' => h'' =
         set_slabs (<[s := Slab K b (s_total x) (s_free x + 1) (slab_offset c) SLAB_MAGIC]> (slabs h)) h') h').
  { intros h' Hs'. apply wp_bind. eapply wp_on_bm; [by rewrite Hs'|exact Hset|].
    eapply wp_upd_slab; [cbn; apply lookup_insert_eq|]. rewrite Hs'. unfold set_s_free.
    cbn [kmem s_total s_free offset magic bm]. rewrite wrap_small by (unfold in_width; lia).
    cbn [slabs set_slabs]. rewrite insert_insert_eq, HK, O, Mg. by destruct h'. }
  apply wp_bind. destruct (Z.eqb_spec (s_free x) 0) as [Ez|Nz].
  - eapply wp_upd_cache; [by rewrite HK|]. eapply wp_mono; [by apply Htail|done|].
    intros [] h' ->. exists b. split_and!; try done. rewrite HK. done.
  - apply wp_ret. eapply wp_mono; [by apply Htail|done|].
    intros [] h' ->. exists b. split_and!; try done. cbn [relink].
    rewrite (insert_id (caches h)) by done. by destruct h.
Qed.

(** ** The invariant across a change of one slab *)

Lemma slab_offset_same c c' :
  alloc_size c' = alloc_size c -> obj_size c' = obj_size c -> slab_offset c' = slab_offset c.
Proof. intros Ha Hobj. unfold slab_offset. rewrite Ha, Hobj. reflexivity. Qed.

Lemma slab_ok_same c c' x :
  alloc_size c' = alloc_size c -> obj_size c' = obj_size c -> slab_ok c x -> slab_ok c' x.
Proof.
  intros Ha Hobj [W L T F O Mg].
  split; [exact W|exact L|rewrite Ha; exact T|exact F| |exact Mg].
  by rewrite (slab_offset_same c c' Ha Hobj).
Qed.

Lemma sizes_ok_same c c' :
  alloc_size c' = alloc_size c -> obj_size c' = obj_size c -> sizes_ok c -> sizes_ok c'.
Proof.
  intros Ha Hobj [S1 S2 S3 S4]. pose proof (slab_offset_same c c' Ha Hobj) as E.
  split; rewrite ?E, ?Ha; assumption.
Qed.

Lemma relink_sizes s wf_ isf c :
  alloc_size (relink s wf_ isf c) = alloc_size c /\ obj_size (relink s wf_ isf c) = obj_size c /\
  c_free (relink s wf_ isf c) = c_free c /\ expanding (relink s wf_ isf c) = expanding c /\
  slabs_free (relink s wf_ isf c) =
    if isf || wf_ then AList.list_del s (slabs_free c) else slabs_free c.
Proof. by destruct wf_, isf. Qed.

(** Membership in the lists after a slab has been moved. *)
Lemma relink_lists s x x' c :
  NoDup (slabs_partial c ++ slabs_full c) -> s ∈ slabs_partial c ++ slabs_full c ->
  0 <= s_free x -> 0 <= s_free x' -> (0 < s_free x \/ 0 < s_free x') ->
  (s ∈ slabs_partial c <-> 0 < s_free x) ->
  let c' := relink s (s_free x =? 0) (s_free x' =? 0) c in
  NoDup (slabs_partial c' ++ slabs_full c') /\
  (forall t, t ∈ slabs_partial c' <-> (t = s /\ 0 < s_free x') \/ (t <> s /\ t ∈ slabs_partial c)) /\
  (forall t, t ∈ slabs_full c' <-> (t = s /\ s_free x' = 0) \/ (t <> s /\ t ∈ slabs_full c)).
Proof.
  intros Hnd Hin Hx Hx' Hor Hp. apply NoDup_app in Hnd as Hnd3. destruct Hnd3 as (N1 & N12 & N2).
  assert (s ∈ slabs_full c <-> s_free x = 0) as Hf.
  { apply elem_of_app in Hin. split; [intros Hs|intros E].
    - destruct (Z_lt_le_dec 0 (s_free x)) as [Hlt|]; [|lia]. apply Hp in Hlt. by apply N12 in Hlt.
    - destruct Hin as [Hin|]; [|done]. apply Hp in Hin. lia. }
  unfold relink. destruct (Z.eqb_spec (s_free x') 0) as [E'|E'];
    [|destruct (Z.eqb_spec (s_free x) 0) as [E|E]]; cbn zeta;
    cbn [slabs_partial slabs_full set_full set_partial unlink]; unfold AList.list_add.
  - assert (s ∉ slabs_full c) as Hsf by (rewrite Hf; lia). split_and!.
    + apply NoDup_app. split_and!; [by apply AList.NoDup_list_del|..].
      * intros t Ht. apply AList.elem_of_list_del in Ht as [Ht Hne]; [|done].
        rewrite AList.list_del_notin by done. apply N12 in Ht. set_solver.
      * rewrite AList.list_del_notin by done. by apply NoDup_cons.
    + intros t. rewrite AList.elem_of_list_del by done. split; [naive_solver|].
      intros [[-> ?]|]; [lia|naive_solver].
    + intros t. rewrite elem_of_cons, AList.elem_of_list_del by done. naive_solver.
  - assert (s ∉ slabs_partial c) as Hsp by (rewrite Hp; lia). split_and!.
    + apply NoDup_app. rewrite (AList.list_del_notin s (slabs_partial c)) by done. split_and!.
      * by apply NoDup_cons.
      * intros t [->|Ht]%elem_of_cons; rewrite AList.elem_of_list_del by done; [naive_solver|].
        apply N12 in Ht. naive_solver.
      * by apply AList.NoDup_list_del.
    + intros t. rewrite elem_of_cons, AList.elem_of_list_del by done.
      split; [intros [->|[? ?]]; [left; split; [done|lia]|by right]|naive_solver].
    + intros t. rewrite AList.elem_of_list_del by done. split; [naive_solver|].
      intros [[-> ?]|]; [lia|naive_solver].
  - assert (0 < s_free x) as Hpos by lia. split_and!; [done|..].
    + intros t. destruct (decide (t = s)) as [->|]; [|naive_solver].
      rewrite Hp. split; [intros; left; split; [done|lia]|lia].
    + intros t. destruct (decide (t = s)) as [->|]; [|naive_solver].
      rewrite Hf. split; [lia|intros [[_ ?]|[? _]]; done || lia].
Qed.

Lemma relink_sum sl s x x' c :
  NoDup (slabs_partial c ++ slabs_full c) -> s ∈ slabs_partial c ++ slabs_full c ->
  sl !! s = Some x -> 0 <= s_free x -> 0 <= s_free x' ->
  (s ∈ slabs_partial c <-> 0 < s_free x) ->
  free_sum (<[s := x']> sl) (slabs_partial (relink s (s_free x =? 0) (s_free x' =? 0) c)) =
    free_sum sl (slabs_partial c) + (s_free x' - s_free x).
Proof.
  intros Hnd Hin Hx H0 H0' Hp. apply NoDup_app in Hnd as (N1 & N12 & N2). unfold relink.
  destruct (Z.eqb_spec (s_free x') 0) as [E'|E']; [|destruct (Z.eqb_spec (s_free x) 0) as [E|E]];
    cbn [slabs_partial set_full set_partial unlink]; unfold AList.list_add.
  - destruct (decide (s ∈ slabs_partial c)) as [Hs|Hs].
    + rewrite free_sum_fresh by (rewrite AList.elem_of_list_del by done; naive_solver).
      rewrite (free_sum_del sl s x) by done. lia.
    + rewrite AList.list_del_notin, free_sum_fresh by done. rewrite Hp in Hs. lia.
  - assert (s ∉ slabs_partial c) as Hsp by (rewrite Hp; lia).
    rewrite AList.list_del_notin by done. cbn [free_sum]. rewrite lookup_insert_eq, free_sum_fresh by done. lia.
  - rewrite (free_sum_update sl s x x') by done. rewrite decide_True by (apply Hp; lia). done.
Qed.

Lemma cache_slab h K c s x :
  cache_ok h K c -> slabs h !! s = Some x -> kmem x = K -> slab_ok c x.
Proof.
  intros C Hx HK. pose proof (co_all _ _ _ C s x Hx HK) as [Hs|Hs]%elem_of_app;
    [destruct (co_partial _ _ _ C s Hs) as (y & Hy & _ & ? & _)|
     destruct (co_full _ _ _ C s Hs) as (y & Hy & _ & ? & _)]; congruence.
Qed.

(** A slab of the cache is on the partial list when it has a free object. *)
Lemma slab_partial_iff h K c s x :
  cache_ok h K c -> slabs h !! s = Some x -> kmem x = K ->
  (s ∈ slabs_partial c <-> 0 < s_free x) /\ 0 <= s_free x < 2 ^ 16.
Proof.
  intros C Hx HK. pose proof (cache_slab h K c s x C Hx HK) as Hok.
  pose proof (slab_free_bounds c x Hok (co_sizes _ _ _ C)). split; [split|lia].
  - intros Hs. destruct (co_partial _ _ _ C s Hs) as (y & Hy & _ & _ & ?). congruence.
  - intros Hpos. pose proof (co_all _ _ _ C s x Hx HK) as [|Hs]%elem_of_app; [done|].
    destruct (co_full _ _ _ C s Hs) as (y & Hy & _ & _ & Hz). rewrite Hx in Hy. injection Hy as <-. lia.
Qed.

Lemma free_sum_nonneg c (m : gmap Z slab) q :
  sizes_ok c -> (forall t, t ∈ q -> exists y, m !! t = Some y /\ slab_ok c y) -> 0 <= free_sum m q.
Proof.
  intros Hsz. induction q as [|t q IH]; intros Hq; cbn [free_sum]; [lia|].
  destruct (Hq t ltac:(set_solver)) as (y & -> & Hy). pose proof (slab_free_bounds c y Hy Hsz).
  assert (0 <= free_sum m q); [apply IH; intros; apply Hq; set_solver|lia].
Qed.

Lemma relink_ok h K c s x x' l i :
  cache_ok h K c -> slabs h !! s = Some x -> kmem x = K -> kmem x' = K -> slab_ok c x' ->
  (0 < s_free x \/ 0 < s_free x') ->
  let c' := add_counts 0 (s_free x' - s_free x) (relink s (s_free x =? 0) (s_free x' =? 0) c) in
  cache_ok (Heap (<[K := set_lock l c']> (caches h)) (<[s := x']> (slabs h)) (blobs h) i) K (set_lock l c').
Proof.
  intros C Hx HK HK' Hok' Hor c'. pose proof (free_sum_bounds h K c C) as [Hcb _].
  destruct (slab_partial_iff h K c s x C Hx HK) as [Hp Hb].
  destruct C as [C1 C2 C3 C4 C5 C6 C7 C8 C9 C10].
  pose proof (C6 s x Hx HK) as Hin.
  assert (0 <= s_free x' < 2 ^ 16) as Hb' by (pose proof (slab_free_bounds c x' Hok' C2); lia).
  destruct (relink_lists s x x' c C5 Hin ltac:(lia) ltac:(lia) Hor Hp) as (L1 & L2 & L3).
  pose proof (relink_sum (slabs h) s x x' c C5 Hin Hx ltac:(lia) ltac:(lia) Hp) as Hsum.
  destruct (relink_sizes s (s_free x =? 0) (s_free x' =? 0) c) as (R1 & R2 & R3 & R4 & R5).
  set (r := relink s (s_free x =? 0) (s_free x' =? 0) c) in *.
  assert (Hsame : forall y, slab_ok c y -> slab_ok (set_lock l c') y).
  { intros y. by apply slab_ok_same. }
  split; cbn [caches slabs set_lock c' add_counts slabs_partial slabs_full slabs_free expanding c_free].
  - apply lookup_insert_eq.
  - by apply (sizes_ok_same c).
  - intros t Ht. apply L2 in Ht as [[-> Hpos]|[Hne Ht]].
    + exists x'. rewrite lookup_insert_eq. auto.
    + destruct (C3 t Ht) as (y & Hy & ? & ? & ?). exists y. rewrite lookup_insert_ne by done. auto.
  - intros t Ht. apply L3 in Ht as [[-> Hpos]|[Hne Ht]].
    + exists x'. rewrite lookup_insert_eq. auto.
    + destruct (C4 t Ht) as (y & Hy & ? & ? & ?). exists y. rewrite lookup_insert_ne by done. auto.
  - done.
  - intros t y Hy Hky. rewrite elem_of_app, L2, L3. destruct (decide (t = s)) as [->|Hne].
    + destruct (Z_lt_le_dec 0 (s_free x')); [left; left; done|right; left; split; [done|lia]].
    + rewrite lookup_insert_ne in Hy by done. specialize (C6 t y Hy Hky).
      apply elem_of_app in C6 as [|]; auto.
  - rewrite R5, C7. by destruct (_ || _).
  - congruence.
  - rewrite R3, Hsum, <- C9. apply wrap_small. unfold in_width.
    assert (0 <= free_sum (<[s := x']> (slabs h)) (slabs_partial r)); [|lia].
    rewrite Hsum, <- C9. destruct (Z_lt_le_dec 0 (s_free x)) as [Hpos|]; [|lia].
    apply Hp in Hpos. rewrite C9. pose proof (free_sum_del _ _ _ _ Hx Hpos) as Hd.
    assert (0 <= free_sum (slabs h) (AList.list_del s (slabs_partial c))); [|lia].
    apply (free_sum_nonneg c); [done|]. intros t Ht.
    destruct (C3 t) as (y & ? & _ & ? & _); [|by exists y].
    eapply elem_of_submseteq; [exact Ht|]. apply sublist_submseteq, AList.list_del_sublist.
  - intros t. rewrite dom_insert_L. intros [->%elem_of_singleton|Ht]%elem_of_union; apply C10;
      [by apply elem_of_dom_2 in Hx|done].
Qed.

(** Only the lock and the interrupt state change. *)
Lemma cache_ok_lock h K c l i :
  cache_ok h K c ->
  cache_ok (Heap (<[K := set_lock l c]> (caches h)) (slabs h) (blobs h) i) K (set_lock l c).
Proof.
  intros [C1 C2 C3 C4 C5 C6 C7 C8 C9 C10].
  assert (Hsame : forall y, slab_ok c y -> slab_ok (set_lock l c) y) by (intros y; by apply slab_ok_same).
  split; cbn [caches slabs set_lock slabs_partial slabs_full slabs_free expanding c_free]; try done.
  - apply lookup_insert_eq.
  - by apply (sizes_ok_same c).
  - intros s Hs. destruct (C3 s Hs) as (x & ? & ? & ? & ?). exists x. auto.
  - intros s Hs. destruct (C4 s Hs) as (x & ? & ? & ? & ?). exists x. auto.
Qed.

Lemma wp_with_lock_acquire E st hart K c (Q : unit -> heap B -> Prop) h :
  caches h !! K = Some c -> unlocked st c h ->
  (forall i, intr_ok st 1 i ->
    Q tt (Heap (<[K := set_lock (Lock 1 hart) c]> (caches h)) (slabs h) (blobs h) i)) ->
  wp E (with_lock K (spinlock_acquire_bare hart)) Q h.
Proof.
  intros Hc [Hl Hi] HQ. unfold with_lock. apply wp_bind. eapply wp_get_cache; [done|].
  apply wp_bind, wp_gets. rewrite Hl.
  pose proof (acquire_bare_spec hart st 0 (h_intr h) Hi ltac:(lia)) as Ha.
  apply wp_total in Ha as ([] & l & -> & Hl1 & Hl2).
  apply wp_bind. eapply wp_upd_cache; [done|]. apply wp_modify. rewrite Hl2. by apply HQ.
Qed.

Lemma wp_with_lock_release E st hart K c (Q : unit -> heap B -> Prop) h :
  caches h !! K = Some c -> c_lock c = Lock 1 hart -> intr_ok st 1 (h_intr h) ->
  (forall i, intr_ok st 0 i ->
    Q tt (Heap (<[K := set_lock SPINLOCK_INITIALIZER c]> (caches h)) (slabs h) (blobs h) i)) ->
  wp E (with_lock K (spinlock_release_bare hart)) Q h.
Proof.
  intros Hc Hl Hi HQ. unfold with_lock. apply wp_bind. eapply wp_get_cache; [done|].
  apply wp_bind, wp_gets. rewrite Hl.
  pose proof (release_bare_spec hart st 0 (h_intr h) Hi ltac:(lia)) as Ha.
  apply wp_total in Ha as ([] & l & -> & Hl1 & Hl2).
  apply wp_bind. eapply wp_upd_cache; [done|]. apply wp_modify. rewrite Hl2. by apply HQ.
Qed.

Lemma set_lock_twice l l' c : set_lock l (set_lock l' c) = set_lock l c.
Proof. done. Qed.

(** The objects after an update of one slab. *)
Lemma allocated_update h s x x' b idx cs i :
  slabs h !! s = Some x -> s_total x' = s_total x -> 0 <= idx < s_total x ->
  (forall j, 0 <= j -> bit (bm x') j = if j =? idx then b else bit (bm x) j) ->
  forall t j, allocated (Heap cs (<[s := x']> (slabs h)) (blobs h) i) t j <->
    if decide (t = s /\ j = idx) then b = true else allocated h t j.
Proof.
  intros Hx Ht Hi Hb t j. unfold allocated; cbn [slabs].
  destruct (decide (t = s)) as [->|Hne].
  - setoid_rewrite lookup_insert_eq. destruct (decide (j = idx)) as [->|Hj].
    + rewrite decide_True by done. split.
      * intros (y & [= <-] & Hr & Hbit). by rewrite Hb, Z.eqb_refl in Hbit by lia.
      * intros ->. exists x'. rewrite Hb, Z.eqb_refl, Ht by lia. done.
    + rewrite decide_False by naive_solver. split.
      * intros (y & [= <-] & Hr & Hbit). exists x. rewrite Ht in Hr.
        rewrite Hb in Hbit by lia. destruct (Z.eqb_spec j idx); done.
      * intros (y & Hy & Hr & Hbit). rewrite Hx in Hy. injection Hy as <-. exists x'.
        rewrite Ht, Hb by lia. destruct (Z.eqb_spec j idx); done.
  - rewrite decide_False by naive_solver. by setoid_rewrite lookup_insert_ne.
Qed.

(** ** Freeing *)

(** A slab whose bitmap and free count change together. *)
Lemma slab_ok_update c x b idx v n :
  slab_ok c x -> wf b -> len b = len (bm x) -> 0 <= idx < s_total x -> bit (bm x) idx = negb v ->
  (forall j, 0 <= j -> bit b j = if j =? idx then v else bit (bm x) j) ->
  n = (if v then s_free x - 1 else s_free x + 1) ->
  slab_ok c (Slab (kmem x) b (s_total x) n (offset x) (magic x)).
Proof.
  intros [W L T F O Mg] Hwf Hlen Hi Hbit Hb ->. split; try done; cbn; [by rewrite Hlen|].
  pose proof (clear_count_update (bm x) b idx v Hlen ltac:(lia) Hbit Hb) as Hc. destruct v; cbn in Hc; lia.
Qed.

Lemma cache_free_spec E st hart K c h s x idx :
  heap_ok own K c h -> unlocked st c h -> slabs h !! s = Some x -> kmem x = K ->
  0 <= idx < s_total x -> bit (bm x) idx = true ->
  wp E (kmem_cache_free hart (obj_addr s x c idx))
    (fun _ h' => exists c', heap_ok own K c' h' /\ unlocked st c' h' /\ c_free c' = c_free c + 1 /\
       frame K h h' /\
       (forall t j, allocated h' t j <-> allocated h t j /\ ~ (t = s /\ j = idx))) h.
Proof.
  intros [C Hown] Hl Hx HK Hi Hbit. pose proof (cache_slab h K c s x C Hx HK) as Hok.
  pose proof (co_sizes _ _ _ C) as Hsz. destruct (slab_free_bounds c x Hok Hsz) as [Hf Ht].
  assert (blob_addr s) as Hs by (apply (co_addr _ _ _ C), elem_of_dom; by exists x).
  destruct (obj_addr_spec s x c idx Hs Hok Hsz Hi) as (_ & Hdown & _).
  pose proof (free_sum_bounds h K c C) as [Hcb _].
  unfold kmem_cache_free. rewrite Hdown. apply wp_bind. eapply wp_get_slab; [done|]. rewrite HK.
  apply wp_bind. eapply wp_get_cache; [apply (co_cache _ _ _ C)|].
  destruct Hl as [Hlk Hint] eqn:El. rewrite Hlk. cbn [spinlock_holding locked SPINLOCK_INITIALIZER Z.eqb negb andb].
  apply wp_bind. eapply wp_with_lock_acquire; [apply (co_cache _ _ _ C)|done|]. intros i Hi1.
  set (c1 := set_lock (Lock 1 hart) c).
  apply wp_bind. eapply wp_mono.
  { apply (slab_free_spec _ _ K c1 s x idx); [apply lookup_insert_eq|done|done| | |done|done].
    - by apply (slab_ok_same c).
    - by apply (sizes_ok_same c). }
  { exact (fun H => H). }
  cbn [caches slabs blobs h_intr]. rewrite Hbit.
  intros [] h' (b & Hwf & Hlen & Hbits & ->). rewrite insert_insert_eq.
  set (x' := Slab K b (s_total x) (s_free x + 1) (offset x) (magic x)).
  assert (slab_ok c x') as Hok' by (subst x'; rewrite <- HK; by apply (slab_ok_update c x b idx false)).
  pose proof (relink_ok h K c s x x' SPINLOCK_INITIALIZER i C Hx HK eq_refl Hok' ltac:(cbn; lia)) as C'.
  replace (s_free x' - s_free x) with 1 in C' by (cbn; lia).
  replace (s_free x' =? 0) with false in C' by (symmetry; apply Z.eqb_neq; cbn; lia).
  apply wp_bind. eapply wp_upd_cache; [cbn; apply lookup_insert_eq|].
  cbn [caches set_caches]. rewrite insert_insert_eq.
  eapply wp_with_lock_release; [cbn; apply lookup_insert_eq| |exact Hi1|].
  { unfold relink. by destruct (s_free x =? 0). }
  intros i' Hi'. cbn [caches slabs blobs set_caches]. rewrite insert_insert_eq.
  set (cc := set_lock _ _). exists (set_lock SPINLOCK_INITIALIZER (add_counts 0 1 (relink s (s_free x =? 0) false c))).
  assert (cc = set_lock SPINLOCK_INITIALIZER (add_counts 0 1 (relink s (s_free x =? 0) false c))) as ->.
  { subst cc. unfold relink. by destruct (s_free x =? 0). }
  split; [split|split; [by split|split; [|split]]].
  - apply (cache_ok_lock _ K _ SPINLOCK_INITIALIZER i') in C'. cbn in C'.
    by rewrite insert_insert_eq in C'.
  - cbn. by rewrite dom_insert_lookup_L by (by eexists).
  - cbn [c_free set_lock add_counts].
    destruct (relink_sizes s (s_free x =? 0) false c) as (_ & _ & -> & _).
    apply wrap_small. unfold in_width. lia.
  - apply frame_update; [|done]. intros y Hy. congruence.
  - intros t j. rewrite (allocated_update h s x x' false idx) by done.
    case_decide; [split; [done|tauto]|tauto].
Qed.

(** ** A new slab *)

Lemma zero_bits n total j : bit (Bitmap (repeat 0 n) total) j = false.
Proof.
  unfold bit. cbn [data]. destruct (repeat 0 n !! Z.to_nat (j / 8)) eqn:E; cbn; [|apply Z.testbit_0_l].
  apply list_elem_of_lookup_2, list_elem_of_In, repeat_spec in E as ->. apply Z.testbit_0_l.
Qed.

Lemma zero_bitmap_wf total :
  0 < total < 2 ^ 16 ->
  let b := Bitmap (repeat 0 (Z.to_nat (bitmap_size total))) total in
  wf b /\ clear_count b = total.
Proof.
  intros Ht b. assert (bitmap_size total = (total + 7) / 8) as Hsz.
  { unfold bitmap_size. rewrite align8, Z.div_mul by lia. apply wrap_small. unfold in_width.
    pose proof (Z.div_mod (total + 7) 8 ltac:(lia)). pose proof (Z.mod_pos_bound (total + 7) 8 ltac:(lia)).
    lia. }
  split.
  - split; subst b; cbn [data len].
    + apply Forall_forall. intros x Hx. apply list_elem_of_In, repeat_spec in Hx as ->. done.
    + lia.
    + rewrite repeat_length, Hsz. pose proof (Z.div_mod (total + 7) 8 ltac:(lia)).
      pose proof (Z.mod_pos_bound (total + 7) 8 ltac:(lia)). lia.
    + intros i _. apply zero_bits.
  - unfold clear_count. rewrite filter_all by (intros; apply zero_bits).
    rewrite length_seqZ. subst b. cbn [len]. lia.
Qed.

Lemma new_slab_ok K c :
  sizes_ok c ->
  let total := object_num (alloc_size c) in
  slab_ok c (Slab K (Bitmap (repeat 0 (Z.to_nat (bitmap_size total))) total) total total
               (slab_offset c) SLAB_MAGIC).
Proof.
  intros [_ S _ _] total. destruct (zero_bitmap_wf total S) as [Hw Hc].
  split; [exact Hw|reflexivity|reflexivity|exact (eq_sym Hc)|reflexivity|reflexivity].
Qed.

Lemma flags_only_refl t : flags_only t t.
Proof. done. Qed.

Lemma blob_flags_spec f : (forall p, refs (f p) = refs p /\ order (f p) = order p /\ private (f p) = private p) ->
  forall n a t, a mod PAGE_SIZE = 0 -> PM_START <= a -> a + Z.of_nat n * PAGE_SIZE <= PM_END ->
  exists t', blob_flags n a f t = Ok (true, t') /\ flags_only t t'.
Proof.
  intros Hf. induction n as [|n IH]; intros a t Ma Hlo Hhi; cbn [blob_flags].
  - exists t. split; [done|apply flags_only_refl].
  - assert (PM_START <= a < PM_END) as Hin by (mem_nums; lia).
    rewrite addr2page_in by done. destruct (addr2index_in a Hin) as [E Hb]. rewrite E in Hb.
    rewrite (bind_Ok _ _ _ _ _ (upd_page_ok _ f t Hb)).
    set (i := (a - PM_START) / PAGE_SIZE) in *.
    destruct (IH (a + PAGE_SIZE) (<[i := f (page_at t i)]> t)) as (t' & Hr & Hfl).
    { apply mult_mod in Ma as [q ->]; [|done]. apply mult_mod; [done|]. exists (q + 1). lia. }
    { mem_nums. lia. } { mem_nums. lia. }
    exists t'. split; [done|]. intros j. destruct (Hfl j) as (E1 & E2 & E3).
    rewrite page_at_insert in E1, E2, E3. destruct (Hf (page_at t i)) as (F1 & F2 & F3).
    case_decide; subst; rewrite E1, E2, E3; done.
Qed.

Lemma slab_init_spec E K c blob h :
  heap_ok own K c h -> blob_addr blob -> blob ∉ dom (slabs h) ->
  forall b', own b' ({[blob]} ∪ dom (slabs h)) ->
  let total := object_num (alloc_size c) in
  let x := Slab K (Bitmap (repeat 0 (Z.to_nat (bitmap_size total))) total) total total
             (slab_offset c) SLAB_MAGIC in
  wp E (slab_init K blob)
    (fun _ h' => exists b'', own b'' ({[blob]} ∪ dom (slabs h)) /\
       h' = Heap (<[K := set_partial (AList.list_add_tail blob) c]> (caches h))
              (<[blob := x]> (slabs h)) b'' (h_intr h)) (set_blobs b' h).
Proof.
  intros [C _] (Mb & Hlo & Hhi) Hnd b' Hown total x. unfold slab_init.
  destruct (blob_flags_spec (fun p => set_flags (Z.lor (flags p) PM_SLAB) p) (fun _ => conj eq_refl (conj eq_refl eq_refl))
    16 blob (blob_pages b')) as (t' & Hr & Hfl).
  { change SLAB_BLOB_SIZE with (PAGE_SIZE * 16) in Mb. apply mult_mod in Mb as [q ->]; [|done].
    apply mult_mod; [done|]. exists (16 * q). lia. }
  { done. } { change SLAB_BLOB_SIZE with (Z.of_nat 16 * PAGE_SIZE) in Hhi. done. }
  apply wp_bind. apply wp_lift, wp_lift. cbn [blobs set_blobs]. eapply wp_run; [exact Hr|]. cbn [negb].
  apply wp_bind. eapply wp_get_cache; [apply (co_cache _ _ _ C)|].
  apply wp_bind, wp_modify. eapply wp_upd_cache; [apply (co_cache _ _ _ C)|].
  exists (set_blob_pages t' b'). split; [by apply blob_flags_ok|]. reflexivity.
Qed.

(** The cache after it has received a new slab. *)
Lemma new_slab_cache_ok h K c blob (b' : B) :
  cache_ok h K c -> blob_addr blob -> blob ∉ dom (slabs h) ->
  let total := object_num (alloc_size c) in
  let x := Slab K (Bitmap (repeat 0 (Z.to_nat (bitmap_size total))) total) total total
             (slab_offset c) SLAB_MAGIC in
  let c' := add_counts total total (set_partial (AList.list_add_tail blob) c) in
  cache_ok (Heap (<[K := c']> (caches h)) (<[blob := x]> (slabs h)) b' (h_intr h)) K c'.
Proof.
  intros C Hb Hnd total x c'. pose proof (free_sum_bounds h K c C) as [Hcb _].
  destruct C as [C1 C2 C3 C4 C5 C6 C7 C8 C9 C10].
  assert (forall t, t ∈ slabs_partial c ++ slabs_full c -> t <> blob) as Hfresh.
  { intros t [Ht|Ht]%elem_of_app ->; apply Hnd, elem_of_dom;
      [destruct (C3 _ Ht) as (y & -> & _)|destruct (C4 _ Ht) as (y & -> & _)]; done. }
  assert (Hsame : forall y, slab_ok c y -> slab_ok c' y) by (intros y; by apply slab_ok_same).
  assert (0 < total < 2 ^ 16) as Htot by apply (sz_some _ C2).
  assert (slab_ok c x) as Hxok by exact (new_slab_ok K c C2).
  assert (kmem x = K /\ s_free x = total) as [HxK Hxf] by (split; reflexivity).
  clearbody x. clearbody total.
  split; cbn [caches slabs c' add_counts set_partial slabs_partial slabs_full slabs_free expanding c_free];
    unfold AList.list_add_tail; try done.
  - apply lookup_insert_eq.
  - by apply (sizes_ok_same c).
  - intros t [Ht|Ht]%elem_of_app.
    + destruct (C3 t Ht) as (y & ? & ? & ? & ?). exists y. rewrite lookup_insert_ne; [auto|].
      symmetry. apply Hfresh. set_solver.
    + apply list_elem_of_singleton in Ht as ->. exists x. rewrite lookup_insert_eq.
      split_and!; [done|done|by apply Hsame|lia].
  - intros t Ht. destruct (C4 t Ht) as (y & ? & ? & ? & ?). exists y.
    rewrite lookup_insert_ne; [auto|]. symmetry. apply Hfresh. set_solver.
  - rewrite <- app_assoc. apply NoDup_app in C5 as (N1 & N2 & N3). apply NoDup_app. split_and!; [done|..].
    + intros t Ht. rewrite elem_of_app, list_elem_of_singleton. intros [->|Hf]; [|by apply (N2 t)].
      apply (Hfresh blob); [set_solver|done].
    + apply NoDup_cons. split; [|done]. intros Hf. apply (Hfresh blob); [set_solver|done].
  - intros t y Hy Hky. rewrite !elem_of_app, list_elem_of_singleton.
    apply lookup_insert_Some in Hy as [[E _]|[Hne Hy]]; [left; right; by rewrite E|].
    specialize (C6 t y Hy Hky). apply elem_of_app in C6 as [|]; auto.
  - rewrite free_sum_app, free_sum_fresh.
    2: { intros Hf. apply (Hfresh blob); [set_solver|done]. }
    cbn [free_sum]. rewrite lookup_insert_eq. rewrite Hxf, <- C9, wrap_small; [lia|].
    unfold in_width. lia.
  - intros t. rewrite dom_insert_L. intros [->%elem_of_singleton|Ht]%elem_of_union; [done|by apply C10].
Qed.

(** ** Allocating *)

Lemma set_expanding_id c : expanding c = false -> set_expanding false (set_expanding true c) = c.
Proof. destruct c. cbn. by intros ->. Qed.

(** What a refill does: it can only add free objects. *)
Definition refilled (c : kmem_cache) (K : Z) h (go : bool) h' (c' : kmem_cache) : Prop :=
  heap_ok own K c' h' /\ c_lock c' = c_lock c /\ h_intr h' = h_intr h /\
  alloc_size c' = alloc_size c /\ obj_size c' = obj_size c /\ c_free c <= c_free c' /\ frame K h h' /\
  (forall t j, allocated h' t j <-> allocated h t j) /\ (go = false -> c_free c' = 0).

(** A fresh blob becomes a slab of the cache. *)
Lemma grow_spec {A} (v : A) E K c r b' h :
  heap_ok own K c h -> r ∉ dom (slabs h) -> blob_addr r -> own b' ({[r]} ∪ dom (slabs h)) ->
  wp E (do! slab_init K r in let! x := get_slab r in
        do! upd_cache K (add_counts (s_total x) (s_free x)) in ret v)
    (fun a h' => a = v /\ exists c', heap_ok own K c' h' /\ c_lock c' = c_lock c /\
       h_intr h' = h_intr h /\ alloc_size c' = alloc_size c /\ obj_size c' = obj_size c /\
       c_free c' = c_free c + object_num (alloc_size c) /\ frame K h h' /\
       (forall t j, allocated h' t j <-> allocated h t j) /\ dom (slabs h') = {[r]} ∪ dom (slabs h)) (set_blobs b' h).
Proof.
  intros [C Hown] Hfresh Hb Hown'.
  apply wp_bind. eapply wp_mono; [apply (slab_init_spec _ K c r h); [by split|done|done|exact Hown']
    |exact (fun H => H)|].
  intros [] h' (b'' & Hown'' & ->). cbv beta.
  apply wp_bind. eapply wp_get_slab; [cbn; apply lookup_insert_eq|].
  apply wp_bind. eapply wp_upd_cache; [cbn; apply lookup_insert_eq|]. apply wp_ret.
  cbn [s_total s_free caches set_caches]. rewrite insert_insert_eq.
  split; [done|]. eexists. split; [split|].
  - apply (new_slab_cache_ok h K c r b'' C); done.
  - cbn. by rewrite dom_insert_L.
  - split; [done|]. split; [done|]. split; [done|]. split; [done|]. split; [|split; [|split]].
    + cbn [c_free add_counts set_partial]. pose proof (free_sum_bounds h K c C) as [? _].
      pose proof (sz_some _ (co_sizes _ _ _ C)). rewrite wrap_small; [lia|unfold in_width; lia].
    + apply frame_update; [|done]. intros y Hy. exfalso. apply Hfresh, elem_of_dom. by exists y.
    + intros t j. unfold allocated; cbn [slabs set_caches].
      destruct (decide (t = r)) as [->|Hne]; [|by setoid_rewrite lookup_insert_ne].
      setoid_rewrite lookup_insert_eq. split.
      { intros (y & Ey & _ & Hbit). apply Some_inj in Ey.
        rewrite <- Ey in Hbit. cbn [bm] in Hbit. by rewrite zero_bits in Hbit. }
      { intros (y & Hy & _). exfalso. apply Hfresh, elem_of_dom. by exists y. }
    + cbn. by rewrite dom_insert_L.
Qed.

Lemma refill_spec h K c :
  heap_ok own K c h ->
  wp (tight (blobs h)) (refill K) (fun go h' => exists c', refilled c K h go h' c') h.
Proof.
  intros [C Hown]. unfold refill. apply wp_bind. eapply wp_get_cache; [apply (co_cache _ _ _ C)|].
  rewrite (co_idle _ _ _ C), (co_flushed _ _ _ C). cbn [negb andb].
  destruct (Z.ltb_spec (c_free c) (low c)) as [Hlow|Hhigh].
  2: { apply wp_ret. exists c. unfold refilled. split_and!; [split; done|done..|lia|apply frame_refl|done|done]. }
  apply wp_bind. eapply wp_upd_cache; [apply (co_cache _ _ _ C)|].
  apply wp_bind, wp_lift. cbn [blobs set_caches].
  eapply wp_mono; [by apply blob_alloc_ok|exact (fun H => H)|]. intros r b' Hr. cbv beta.
  apply wp_bind. eapply wp_upd_cache; [cbn; apply lookup_insert_eq|].
  cbn [caches set_caches set_blobs]. rewrite insert_insert_eq, set_expanding_id by apply (co_idle _ _ _ C).
  rewrite insert_id by apply (co_cache _ _ _ C).
  change (set_caches (caches h) _) with (set_blobs b' h).
  destruct Hr as [[-> Hown']|(Hfresh & Mr & Hlo & Hhi & Hown')].
  - rewrite Z.eqb_refl. apply wp_bind. eapply wp_get_cache; [apply (co_cache _ _ _ C)|]. apply wp_ret.
    exists c. unfold refilled. split_and!; [split; [destruct C; split; done|done]|done..|lia|by split|done|].
    pose proof (free_sum_bounds h K c C) as [? _]. case_Z; [done|lia].
  - destruct (Z.eqb_spec r NULL) as [->|Hn]; [mem_nums; unfold NULL in *; lia|].
    eapply wp_mono; [by apply (grow_spec true _ K c r b' h)|exact (fun H => H)|].
    intros go h' (-> & c' & ? & ? & ? & ? & ? & Ef & ? & ? & _). exists c'. unfold refilled.
    pose proof (sz_some _ (co_sizes _ _ _ C)). split_and!; try done. lia.
Qed.

(** The allocation under the lock of the cache. *)
Definition alloc_result (K : Z) (c : kmem_cache) h (r : Z) h' (c' : kmem_cache) : Prop :=
  heap_ok own K c' h' /\ frame K h h' /\ alloc_size c' = alloc_size c /\ obj_size c' = obj_size c /\
  ((r = NULL /\ c_free c = 0 /\ c_free c' = 0 /\ forall t j, allocated h' t j <-> allocated h t j) \/
   (exists s idx x, r = s + slab_offset c + idx * alloc_size c /\ slabs h' !! s = Some x /\ kmem x = K /\
      0 <= idx < object_num (alloc_size c) /\ ~ allocated h s idx /\
      (c_free c <> 0 -> c_free c - 1 <= c_free c') /\
      forall t j, allocated h' t j <-> allocated h t j \/ (t = s /\ j = idx))).

Lemma take_object h K c c1 h1 :
  refilled c K h true h1 c1 -> c_free c1 <> 0 ->
  wp (tight (blobs h))
    match slabs_partial c1 with
    | [] => fault
    | s :: _ => let! mem := slab_alloc s in do! upd_cache K (add_counts 0 (-1)) in ret mem
    end
    (fun r h' => exists c', alloc_result K c h r h' c' /\ c_lock c' = c_lock c /\ h_intr h' = h_intr h) h1.
Proof.
  intros ([C Hown] & Hlk & Hint & Ha & Hob & Hle & Hfr & Hal & _) Hnz.
  pose proof (free_sum_bounds h1 K c1 C) as [Hcb Hne].
  destruct (slabs_partial c1) as [|s l] eqn:El; [by destruct Hne; [lia|]|].
  assert (s ∈ slabs_partial c1) as Hs by (rewrite El; set_solver).
  destruct (co_partial _ _ _ C s Hs) as (x & Hx & HK & Hok & Hpos).
  pose proof (co_sizes _ _ _ C) as Hsz. destruct (slab_free_bounds c1 x Hok Hsz) as [Hf Ht].
  assert (blob_addr s) as Hsb by (apply (co_addr _ _ _ C), elem_of_dom; by exists x).
  apply wp_bind. eapply wp_mono; [apply (slab_alloc_spec _ h1 K c1 s x (co_cache _ _ _ C) Hx HK Hok Hsz Hpos)
    |exact (fun H => H)|].
  intros r h' (idx & b & -> & Hi & Hbit & Hwf & Hlen & Hbits & ->). cbv beta.
  set (x' := Slab K b (s_total x) (s_free x - 1) (offset x) (magic x)).
  assert (slab_ok c1 x') as Hok' by (subst x'; rewrite <- HK; by apply (slab_ok_update c1 x b idx true)).
  pose proof (relink_ok h1 K c1 s x x' (c_lock c1) (h_intr h1) C Hx HK eq_refl Hok' ltac:(cbn; lia)) as C'. cbv zeta in C'.
  replace (s_free x' - s_free x) with (-1) in C' by (cbn; lia).
  replace (s_free x =? 0) with false in C' by (symmetry; apply Z.eqb_neq; lia).
  replace (s_free x' =? 0) with (s_free x =? 1) in C' by (cbn; do 2 case_Z; lia).
  apply wp_bind. eapply wp_upd_cache; [cbn; apply lookup_insert_eq|]. cbn [caches set_caches].
  rewrite insert_insert_eq. apply wp_ret.
  set (rl := relink s false (s_free x =? 1) c1) in *.
  assert (set_lock (c_lock c1) (add_counts 0 (-1) rl) = add_counts 0 (-1) rl) as Erl.
  { subst rl. unfold relink. by destruct (s_free x =? 1), c1. }
  rewrite Erl in C'. exists (add_counts 0 (-1) rl).
  destruct (relink_sizes s false (s_free x =? 1) c1) as (R1 & R2 & R3 & _). fold rl in R1, R2, R3.
  destruct (obj_addr_spec s x c1 idx Hsb Hok Hsz Hi) as (-> & _).
  split; [split; [split|split; [|split; [|split; [|right]]]]|split; [|done]].
  - exact C'.
  - cbn. by rewrite dom_insert_lookup_L by (by eexists).
  - eapply frame_trans; [exact Hfr|]. apply frame_update; [|done]. intros y Hy. congruence.
  - cbn [alloc_size add_counts]. congruence.
  - cbn [obj_size add_counts]. congruence.
  - exists s, idx, x'. rewrite Ha, (slab_offset_same c c1 Ha Hob). split_and!; [done|apply lookup_insert_eq|done|lia| | | |].
    + rewrite <- Ha, <- (so_total _ _ Hok). lia.
    + rewrite <- Hal. intros (y & Hy & _ & Hb). rewrite Hx in Hy. injection Hy as <-. congruence.
    + intros _. cbn [c_free add_counts]. rewrite R3, wrap_small; [lia|unfold in_width; lia].
    + intros t j. unfold set_caches. cbn [slabs blobs h_intr].
      rewrite (allocated_update h1 s x x' true idx) by done.
      case_decide; [split; [by right|done]|]. rewrite Hal. tauto.
  - rewrite <- Hlk, <- Erl. done.
Qed.

Lemma cache_alloc_nolock_spec h K c :
  heap_ok own K c h ->
  wp (tight (blobs h)) (kmem_cache_alloc_nolock K)
    (fun r h' => exists c', alloc_result K c h r h' c' /\ c_lock c' = c_lock c /\ h_intr h' = h_intr h) h.
Proof.
  intros Hok. unfold kmem_cache_alloc_nolock. apply wp_bind.
  eapply wp_mono; [by apply refill_spec|exact (fun H => H)|]. intros go h1 [c1 R]. cbv beta.
  pose proof R as (Hok1 & Hlk & Hint & Ha & Hob & Hle & Hfr & Hal & Hgo).
  destruct Hok as [C _], Hok1 as [C1 Hown1].
  pose proof (free_sum_bounds h K c C) as [Hcb _].
  assert (c_free c1 = 0 -> exists c', alloc_result K c h NULL h1 c' /\ c_lock c' = c_lock c /\ h_intr h1 = h_intr h).
  { intros E. exists c1. split; [split_and!; [by split|done|done|done|left]|done].
    split_and!; [done|lia|done|done]. }
  destruct go; cbn [negb]; [|apply wp_ret; auto].
  apply wp_bind. eapply wp_get_cache; [apply (co_cache _ _ _ C1)|].
  destruct (Z.eqb_spec (c_free c1) 0); [apply wp_ret; auto|by apply take_object].
Qed.

Lemma cache_alloc_spec st hart K c h :
  heap_ok own K c h -> unlocked st c h -> K <> NULL ->
  wp (tight (blobs h)) (kmem_cache_alloc hart K)
    (fun r h' => exists c', alloc_result K c h r h' c' /\ unlocked st c' h') h.
Proof.
  intros [C Hown] [Hlk Hint] HK. unfold kmem_cache_alloc.
  destruct (Z.eqb_spec K NULL); [done|].
  apply wp_bind. eapply wp_get_cache; [apply (co_cache _ _ _ C)|].
  rewrite Hlk. cbn [spinlock_holding locked SPINLOCK_INITIALIZER Z.eqb negb andb].
  apply wp_bind. eapply wp_with_lock_acquire; [apply (co_cache _ _ _ C)|by split|]. intros i Hi1.
  set (c1 := set_lock (Lock 1 hart) c).
  pose proof (cache_ok_lock h K c (Lock 1 hart) i C) as C1. fold c1 in C1.
  apply wp_bind. eapply wp_mono; [by apply (cache_alloc_nolock_spec _ K c1)|exact (fun H => H)|].
  intros r h' (c' & ([C' Hown'] & Hfr & Ea & Eb & Hr) & Hl' & Hi'). cbv beta.
  apply wp_bind. eapply wp_with_lock_release; [apply (co_cache _ _ _ C')|done|by rewrite Hi'|].
  intros i' Hi2. apply wp_ret. exists (set_lock SPINLOCK_INITIALIZER c').
  assert (slab_offset c1 = slab_offset c) as Eo by (by apply slab_offset_same).
  rewrite Eo in Hr. clear Eo. cbn [alloc_size c_free set_lock c1] in Hr.
  split; [|by split]. split; [split; [by apply cache_ok_lock|done]|].
  split; [|split; [done|split; [done|exact Hr]]].
  eapply frame_trans; [|apply frame_cache]. eapply frame_trans; [apply frame_cache|exact Hfr].
Qed.

End proof.
