(* ===== verification/SlabTop.v ===== *)
(** The slab allocator on the buddy allocator: the instance of the interface
    [BlobAlloc] that the kernel uses, and what [kmem_cache_alloc] and
    [kmem_cache_free] promise. *)

From S2P Require Import Prelude Bits ListHead Bitmap Pm Sync Early.
From S2P Require Import Buddy BuddySpec BuddyCore BuddyProof BuddyTop Slab SlabProof.

(** [buddy_alloc(SLAB_BLOB_SIZE)] and [buddy_free] as the page allocator of
    the slabs, on hart [hart]. *)
Definition buddy_blobs {M} `{MetaAlloc M} `{Layout} (hart : Z) : BlobAlloc (buddy M) := {|
  blob_inited := buddy_inited;
  blob_alloc := buddy_alloc hart SLAB_BLOB_SIZE;
  blob_free := buddy_free hart;
  blob_pages := Buddy.pages;
  set_blob_pages := Buddy.set_pages
|}.

(** The cache that [kmem_cache_init] makes for objects of [size] bytes. *)
Definition new_cache (size : Z) : kmem_cache :=
  let a := u32 (ALIGN_UP size 8) in
  let n := object_num a in
  KMem (u32 size) a 0 0 n (u32 (2 * n)) false SPINLOCK_INITIALIZER [] [] [].

(** The address of object [idx] of the slab at [s]. *)
Definition object_at (c : kmem_cache) (s idx : Z) : Z := s + slab_offset c + idx * alloc_size c.

(** The cache with its lock held by a hart. *)
Definition locked_by (hart : Z) (c : kmem_cache) : kmem_cache := set_lock (Lock 1 hart) c.

(** The kernel heap after [buddy_init], without caches. *)
Definition boot_heap : heap (buddy early) := Heap ∅ ∅ booted (Intr 0 0 0).

(** The same with a cache of 64-byte objects at address 16, without slabs. *)
Definition cache64 : kmem_cache := new_cache 64.
Definition cache_heap : heap (buddy early) := Heap {[16 := cache64]} ∅ booted (Intr 0 0 0).

(** A session with a cache of 4096-byte objects: two objects are allocated
    and freed, the cache is flushed, and an object is allocated. *)
Definition flush_session {B} `{BlobAlloc B} (hart : Z) : ST (heap B) Z :=
  let! _ := kmem_cache_init 16 4096 true in
  let! a := kmem_cache_alloc hart 16 in
  let! b := kmem_cache_alloc hart 16 in
  do! kmem_cache_free hart a in
  do! kmem_cache_free hart b in
  do! kmem_cache_flush hart 16 in
  kmem_cache_alloc hart 16.

Section buddy_instance.
Context `{HL : Layout} {HOk : LayoutOk} {M : Type} `{HM : MetaAlloc M}
  {mown : M -> gset Z -> nat -> Prop} {HMOk : MetaAllocOk M mown}.
Implicit Types b : buddy M.
Notation rep := (rep (own := mown)).

(** The blobs [X] are allocated blocks of 64 KiB. *)
Definition buddy_own b (X : gset Z) : Prop :=
  exists Bk n st, rep b Bk n /\ lock_free st b /\ forall a, a ∈ X -> balloc Bk !! a = Some 4.

(** Fewer than eleven metadata blocks are left. *)
Definition buddy_tight b : Prop := ~ exists Bk n, rep b Bk n /\ (11 <= n)%nat.

Lemma blob_order : size2order SLAB_BLOB_SIZE = 4 /\ bsize 4 = SLAB_BLOB_SIZE.
Proof. split; vm_compute; reflexivity. Qed.

Lemma alloc_no_panic b hart Bk n st size Q :
  PAGE_SIZE <= size <= BUDDY_BLOB_SIZE ->
  rep b Bk n -> lock_free st b -> wp (n < 11)%nat (buddy_alloc hart size) Q b ->
  wp (buddy_tight b) (buddy_alloc hart size) Q b.
Proof.
  intros Hs R Hl Hw. unfold wp in *.
  destruct (buddy_alloc hart size b) as [[r b']| | |] eqn:E; [done| |done|done].
  intros (Bk' & n' & R' & Hn').
  pose proof (alloc_spec st hart b Bk' n' size R' Hl Hs) as Ha.
  unfold wp in Ha. rewrite E in Ha. lia.
Qed.

Lemma core_flags FL BS PG PG' F A :
  (forall a, rpage a -> order (PG' a) = order (PG a) /\ private (PG' a) = private (PG a)) ->
  core FL BS PG F A -> core FL BS PG' F A.
Proof.
  intros EP [C1 C2 C3 C4 C5]. split; [done| |done|..].
  - intros o b Hb. destruct (C2 o b Hb) as (? & ? & a & ? & Ha & ? & ?).
    split_and!; [lia|lia|done|]. exists a. destruct (EP a Ha) as [-> ->]. done.
  - intros a o Ha. destruct (C4 a o Ha) as (Hr & ? & ?). by destruct (EP a Hr) as [-> ->].
  - intros a Ha. destruct (EP a Ha) as [_ ->]. auto.
Qed.

Lemma rep_flags b Bk n t : rep b Bk n -> flags_only (Buddy.pages b) t -> rep (Buddy.set_pages t b) Bk n.
Proof.
  intros [C ? ? ? ?] Hfl. split; try done. eapply core_flags; [|exact C].
  intros a _. destruct (Hfl (addr2index a)) as (_ & E1 & E2). by split.
Qed.

Lemma buddy_blobs_ok hart :
  @BlobAllocOk (buddy M) (buddy_blobs hart) buddy_own buddy_tight.
Proof.
  split.
  - intros b X (Bk & n & st & R & Hl & HX).
    pose proof (alloc_spec st hart b Bk n SLAB_BLOB_SIZE R Hl ltac:(split; discriminate)) as Hw.
    apply (alloc_no_panic b hart Bk n st SLAB_BLOB_SIZE _ ltac:(split; discriminate) R Hl).
    eapply wp_mono; [exact Hw|exact (fun H => H)|]. clear Hw. intros r b' (Bk' & n' & R' & _ & Hl' & Hp).
    destruct blob_order as [Eo Es]. rewrite Eo in Hp.
    destruct Hp as [(Hr & B1 & Hs & Hf & ->)|(-> & Hs & _)].
    + right. pose proof (bsteps_frame _ _ Hs) as Hfr. pose proof (rep_inv _ _ _ R) as HB.
      destruct (Hfr HB) as (HB1 & Ea & _).
      destruct (bi_ok _ HB1 r 4 (or_introl Hf)) as (_ & Hm & Hlo & Hhi). rewrite Es in Hm, Hhi.
      pose proof layout_facts as (F1 & F2 & F3 & F4 & F5 & F6 & _).
      split; [|split; [exact Hm|split; [|split]]].
      * intros Hx. apply HX in Hx. rewrite <- Ea in Hx. by apply (bi_excl _ HB1 _ _ _ Hf Hx).
      * mem_nums. lia.
      * mem_nums. lia.
      * exists (BuddySpec.take r 4 B1), n', st. split; [exact R'|]. split; [exact Hl'|].
        intros a [->%elem_of_singleton|Ha]%elem_of_union; cbn; [apply lookup_insert_eq|].
        destruct (decide (a = r)) as [->|]; [by rewrite lookup_insert_eq|].
        rewrite lookup_insert_ne, Ea by done. auto.
    + left. split; [done|]. exists Bk', n', st. split; [exact R'|]. split; [exact Hl'|].
      destruct (bsteps_frame _ _ Hs (rep_inv _ _ _ R)) as (_ & -> & _). done.
  - intros b X t (Bk & n & st & R & Hl & HX) Hfl. exists Bk, n, st. split; [by apply rep_flags|]. split; [exact Hl|exact HX].
  - done.
Qed.

End buddy_instance.

(** ** Contracts of the caches *)

Section contracts.
Context {B : Type} `{HB : BlobAlloc B} {own : B -> gset Z -> Prop}
  {tight : B -> Prop} {HBOk : BlobAllocOk B own tight}.
Implicit Types h : heap B.

(** A cache without slabs, in a heap without slabs. *)
Lemma empty_cache_ok K size h :
  caches h !! K = Some (new_cache size) -> slabs h = ∅ -> sizes_ok (new_cache size) ->
  cache_ok h K (new_cache size).
Proof.
  intros Hc Hs Hsz. split; rewrite ?Hs; try done; cbn [slabs_partial slabs_full new_cache].
  - intros s Hin. by apply not_elem_of_nil in Hin.
  - intros s Hin. by apply not_elem_of_nil in Hin.
  - constructor.
Qed.

(** A heap on which an allocation succeeds leads to one with an allocated
    object. *)
Lemma alloc_leads st hart K c h :
  heap_ok own K c h -> unlocked st c h -> K <> NULL -> ~ tight (blobs h) ->
  match kmem_cache_alloc hart K h with Ok (r, _) => r <> NULL | _ => True end ->
  exists c h s x idx, heap_ok own K c h /\ unlocked st c h /\ slabs h !! s = Some x /\ kmem x = K /\
    0 <= idx < s_total x /\ bit (bm x) idx = true.
Proof.
  intros Hok Hl HK Ht Hf. pose proof (cache_alloc_spec st hart K c h Hok Hl HK) as Hw.
  pose proof (wp_no_panic _ _ _ _ Hw Ht) as (r & h' & E & c' & (Hok' & _ & _ & _ & Hr) & Hl'). rewrite E in Hf.
  destruct Hr as [(Hr & _)|(s & idx & x & _ & Hx & HKx & _ & _ & _ & Ha)]; [done|].
  destruct (proj2 (Ha s idx) (or_intror (conj eq_refl eq_refl))) as (y & Hy & Hi & Hb).
  exists c', h', s, y, idx. rewrite Hx in Hy. injection Hy as <-. done.
Qed.



(** [C12] Freeing an allocated object, given by its address: that object alone
    becomes free, the counter grows by one, the slab returns to the partial
    list if it was full, and the lock is free again; nothing panics. *)
Theorem kmem_cache_free_correct st hart K c h s x idx :
  heap_ok own K c h -> unlocked st c h -> slabs h !! s = Some x -> kmem x = K ->
  0 <= idx < s_total x -> bit (bm x) idx = true ->
  wp False (kmem_cache_free hart (object_at c s idx))
    (fun _ h' => exists c', heap_ok own K c' h' /\ unlocked st c' h' /\ c_free c' = c_free c + 1 /\
       frame K h h' /\ (forall t j, allocated h' t j <-> allocated h t j /\ ~ (t = s /\ j = idx))) h.
Proof.
  intros Hok Hl Hx HK Hi Hb. pose proof (cache_slab h K c s x (proj1 Hok) Hx HK) as Hs.
  unfold object_at. destruct (obj_addr_spec s x c idx) as (<- & _); try done.
  - apply (co_addr _ _ _ (proj1 Hok)), elem_of_dom. by exists x.
  - apply (co_sizes _ _ _ (proj1 Hok)).
  - by apply (cache_free_spec False st hart K c h s x idx).
Qed.

(** A flush of a cache with fewer than [high] free objects changes
    nothing but returns with the lock of the cache held and the hart inside a
    critical section. *)
Theorem kmem_cache_flush_keeps_lock st hart K c h :
  caches h !! K = Some c -> unlocked st c h -> K <> NULL -> c_free c < high c ->
  wp False (kmem_cache_flush hart K)
    (fun _ h' => intr_ok st 1 (h_intr h') /\ slabs h' = slabs h /\ blobs h' = blobs h /\
       caches h' = <[K := locked_by hart c]> (caches h)) h.
Proof.
  intros Hc Hl HK Hlt. unfold kmem_cache_flush. destruct (Z.eqb_spec K NULL); [done|].
  apply wp_bind. eapply wp_with_lock_acquire; [done|done|]. intros i Hi.
  apply wp_bind. eapply wp_get_cache; [apply lookup_insert_eq|].
  cbn [c_free high set_lock]. destruct (Z.ltb_spec (c_free c) (high c)); [|lia].
  by apply wp_ret.
Qed.

End contracts.

(** A flush leaves the objects of the slabs it sets aside in the count of
    free objects: in a session of a booted kernel that allocates and frees two
    objects and then flushes, the next allocation finds the count positive and
    the list of partial slabs empty, and takes the list head for a slab. *)
Theorem flush_then_alloc_faults :
  @flush_session _ (@buddy_blobs early (@early_meta sample_layout) sample_layout 0) 0 boot_heap = Fault.
Proof. vm_compute. reflexivity. Qed.

(** ** Runs on the booted kernel *)

Section runs.
#[local] Existing Instance sample_layout.
#[local] Existing Instance sample_layout_ok.
#[local] Existing Instance early_meta.

Abbreviation blobs0 := (buddy_blobs (M := early) 0).
Abbreviation own0 := (buddy_own (mown := early_own)).
Abbreviation tight0 := (buddy_tight (mown := early_own)).

Lemma booted_own : own0 booted ∅.
Proof.
  destruct booted_rep as (B & n & R & _ & Hl). exists B, n, 0. split; [exact R|].
  split; [exact Hl|]. intros a Ha. by apply not_elem_of_empty in Ha.
Qed.

Lemma cache_heap_roomy : ~ tight0 (blobs cache_heap).
Proof. unfold cache_heap. cbn [blobs]. destruct booted_rep as (B & n & R & Hn & _). intros Ht. apply Ht. by exists B, n. Qed.

Lemma sizes64 : sizes_ok cache64.
Proof. split; vm_compute; repeat split; discriminate. Qed.

Lemma cache_heap_ok : heap_ok own0 16 cache64 cache_heap.
Proof.
  split; [|exact booted_own]. apply empty_cache_ok; [apply lookup_singleton_eq|done|exact sizes64].
Qed.

Lemma cache_heap_unlocked : unlocked 0 cache64 cache_heap.
Proof. split; [done|]. vm_compute. repeat split; discriminate. Qed.



(** The first allocation succeeds. *)
Lemma first_object :
  match @kmem_cache_alloc _ blobs0 0 16 cache_heap with Ok (r, _) => r <> NULL | _ => True end.
Proof. vm_compute. discriminate. Qed.

Lemma allocated_state :
  exists c h s x idx, heap_ok own0 16 c h /\ unlocked 0 c h /\ slabs h !! s = Some x /\ kmem x = 16 /\
    0 <= idx < s_total x /\ bit (bm x) idx = true.
Proof.
  apply (@alloc_leads _ blobs0 own0 tight0 (buddy_blobs_ok 0) 0 0 16 cache64 cache_heap cache_heap_ok
    cache_heap_unlocked ltac:(discriminate) cache_heap_roomy first_object).
Qed.

Lemma kmem_cache_free_correct_witness :
  exists c h s idx, allocated h s idx /\
  wp False (@kmem_cache_free _ 0 (object_at c s idx))
    (fun _ h' => exists c', heap_ok own0 16 c' h' /\ unlocked 0 c' h' /\ c_free c' = c_free c + 1 /\
       frame 16 h h' /\ (forall t j, allocated h' t j <-> allocated h t j /\ ~ (t = s /\ j = idx))) h.
Proof.
  destruct allocated_state as (c & h & s & x & idx & Hok & Hl & Hx & HK & Hi & Hb).
  exists c, h, s, idx. split; [by exists x|].
  exact (@kmem_cache_free_correct _ blobs0 own0 tight0 (buddy_blobs_ok 0) 0 0 16 c h s x idx Hok Hl Hx HK Hi Hb).
Defined.

Lemma kmem_cache_flush_keeps_lock_witness :
  c_free cache64 < high cache64 /\
  wp False (@kmem_cache_flush (buddy early) 0 16)
    (fun _ h' => intr_ok 0 1 (h_intr h') /\ slabs h' = slabs cache_heap /\ blobs h' = blobs cache_heap /\
       caches h' = <[16 := locked_by 0 cache64]> (caches cache_heap)) cache_heap.
Proof.
  assert (c_free cache64 < high cache64) as Hlt by (vm_compute; reflexivity).
  split; [exact Hlt|].
  apply (kmem_cache_flush_keeps_lock 0 0 16 cache64 cache_heap
    (lookup_singleton_eq _ _) cache_heap_unlocked ltac:(discriminate) Hlt).
Defined.

End runs.
