(* ===== verification/Kalloc.v ===== *)
(** The general allocator, [src/mm/kalloc.c]: [kmalloc] and its relatives over
    the pools of slab caches and the buddy allocator.

    The state adds the bytes of the memory handed out to the kernel heap.  The
    addresses of the array [kalloc_mem_pool] are a parameter. *)

From S2P Require Import Prelude Bits ListHead Bitmap Pm Sync Early.
From S2P Require Import Buddy BuddySpec BuddyCore BuddyProof BuddyTop Slab SlabProof SlabTop.

Definition MEM_OBJ_SIZES : list Z :=
  [8; 16; 24; 32; 48; 64; 96; 128; 192; 256; 384; 512; 768; 1024; 1536; 2048; 3072; 4096].

Definition KALLOC_MEM_POOL_NUM : Z := Z.of_nat (length MEM_OBJ_SIZES).

Definition mem_obj_size (i : Z) : Z := nth (Z.to_nat i) MEM_OBJ_SIZES 0.

Definition KALLOC_MAX_MEM_OBJ_SIZE : Z := mem_obj_size (KALLOC_MEM_POOL_NUM - 1).

(** The loop of [size2index] from index [i], with [n] tests left. *)
Fixpoint size2index_loop (n : nat) (i size : Z) : Z :=
  match n with
  | O => i
  | S n => if size <=? mem_obj_size i then i else size2index_loop n (i + 1) size
  end.

Definition size2index (size : Z) : Z :=
  size2index_loop (Z.to_nat (KALLOC_MEM_POOL_NUM - 1)) 0 size.

(** The kernel heap and the bytes of memory. *)
Record kstate (M : Type) := KState { kheap : heap (buddy M); ram : gmap Z Z }.
Arguments KState {M}.
Arguments kheap {M}.
Arguments ram {M}.

(** [memset(ptr, c, n)] on memory. *)
Fixpoint fill (n : nat) (ptr c : Z) (m : gmap Z Z) : gmap Z Z :=
  match n with
  | O => m
  | S n => fill n (ptr + 1) c (<[ptr := c]> m)
  end.

Section kalloc.
Context {M : Type} `{HM : MetaAlloc M} `{HL : Layout} (pool : Z -> Z -> Z) (hart : Z).
#[local] Existing Instance buddy_blobs.
#[local] Instance blobs_here : BlobAlloc (buddy M) := buddy_blobs hart.

Definition set_kheap (h : heap (buddy M)) (s : kstate M) : kstate M := KState h (ram s).
Definition on_heap {A} (m : ST (heap (buddy M)) A) : ST (kstate M) A := lift kheap set_kheap m.

(** [kalloc_mem_pool[size2index(size)][r_tp()]]. *)
Definition pool_of (size : Z) : Z := pool (size2index size) hart.

Definition kmalloc (size : Z) : ST (kstate M) Z :=
  if size =? 0 then ret NULL else
  if size <=? KALLOC_MAX_MEM_OBJ_SIZE then on_heap (kmem_cache_alloc hart (pool_of size))
  else if size <=? Z.shiftl PAGE_SIZE BUDDY_MAX_ORDER then on_heap (on_blobs (buddy_alloc hart size))
  else ret NULL.

Definition kzalloc (size : Z) : ST (kstate M) Z :=
  let! ptr := kmalloc size in
  do! (if ptr =? NULL then ret tt
       else modify (fun s => KState (kheap s) (fill (Z.to_nat size) ptr 0 (ram s)))) in
  ret ptr.

Definition kcalloc (nitems size : Z) : ST (kstate M) Z :=
  if negb (nitems =? 0) && ((2 ^ 64 - 1) / nitems <? size) then ret NULL
  else kzalloc (u64 (nitems * size)).

(** Addresses outside the buddy region are refused with a warning. *)
Definition kfree (addr : Z) : ST (kstate M) unit :=
  match addr2page (ALIGN_DOWN addr PAGE_SIZE) with
  | None => ret tt
  | Some i =>
      let! p := on_heap (on_blobs (Buddy.on_pages (get_page i))) in
      if Z.land (flags p) PM_BUDDY =? 0 then ret tt else
      if negb (Z.land (flags p) PM_SLAB =? 0) then on_heap (kmem_cache_free hart addr)
      else on_heap (on_blobs (buddy_free hart addr))
  end.

Definition krealloc (ptr size : Z) : ST (kstate M) Z :=
  do! kfree ptr in kmalloc size.

End kalloc.

(** [kalloc_init] runs on the early heap, which also holds the names of the
    caches; what [snprintf] writes there is not modelled. *)
Section init.
Context `{HL : Layout} (pool : Z -> Z -> Z) (hart : Z).
#[local] Instance early_blobs : BlobAlloc (buddy early) := buddy_blobs hart.

Definition on_early {A} (m : ST early A) : ST (kstate early) A :=
  on_heap (on_blobs (Buddy.on_meta m)).

Definition kalloc_init : ST (kstate early) unit :=
  do! for_up (Z.to_nat CPU_NUM) 0 (fun i =>
    for_up (Z.to_nat KALLOC_MEM_POOL_NUM) 0 (fun j =>
      let! _ := on_early (early_alloc 24) in
      let! _ := on_heap (kmem_cache_init (pool j i) (mem_obj_size j) true) in
      ret tt)) in
  on_early (modify (fun e => Early (early_brk e) true)).

End init.
