(* ===== verification/KallocProof.v ===== *)
(** Correctness of the general allocator: size classes, the layout of their
    slabs, and what [kmalloc], [kzalloc] and [kcalloc] return. *)

From S2P Require Import Prelude Bits ListHead Bitmap Pm Sync Early.
From S2P Require Import Buddy BuddySpec BuddyCore BuddyProof BuddyTop Slab SlabProof SlabTop Kalloc.

(** The classes whose last object does not fit the blob. *)
Definition overrun (size : Z) : bool := (size =? 24) || (size =? 48).

(** The bytes [lo, hi) lie in the blob at [s]. *)
Definition inside_blob (s lo hi : Z) : Prop := s <= lo /\ hi <= s + SLAB_BLOB_SIZE.

(** ** Size classes *)

Lemma size2index_loop_spec n : forall i size, 0 <= i ->
  let r := size2index_loop n i size in
  i <= r <= i + Z.of_nat n /\ (forall j, i <= j < r -> mem_obj_size j < size) /\
  (r < i + Z.of_nat n -> size <= mem_obj_size r).
Proof.
  induction n as [|n IH]; intros i size Hi; cbn [size2index_loop].
  - cbn zeta. split_and!; lia.
  - destruct (Z.leb_spec size (mem_obj_size i)) as [Hle|Hgt]; cbn zeta.
    + split; [lia|]. split; [lia|done].
    + destruct (IH (i + 1) size ltac:(lia)) as (I1 & I2 & I3). split; [lia|]. split.
      * intros j Hj. destruct (decide (j = i)) as [->|]; [done|]. apply I2. lia.
      * intros Hr. apply I3. lia.
Qed.

(** [size2index] gives the least size class that holds a request of at
    most 4096 bytes, and the last class for a larger one. *)
Theorem size2index_correct size :
  let i := size2index size in
  0 <= i < KALLOC_MEM_POOL_NUM /\ (forall j, 0 <= j < i -> mem_obj_size j < size) /\
  (size <= KALLOC_MAX_MEM_OBJ_SIZE <-> size <= mem_obj_size i).
Proof.
  destruct (size2index_loop_spec (Z.to_nat (KALLOC_MEM_POOL_NUM - 1)) 0 size ltac:(lia)) as (H1 & H2 & H3).
  fold (size2index size) in *. cbn zeta.
  change (Z.of_nat (Z.to_nat (KALLOC_MEM_POOL_NUM - 1))) with (KALLOC_MEM_POOL_NUM - 1) in *.
  split; [lia|]. split; [exact H2|]. unfold KALLOC_MAX_MEM_OBJ_SIZE. split.
  - intros Hs. destruct (Z_lt_le_dec (size2index size) (KALLOC_MEM_POOL_NUM - 1)) as [Hl|Hg].
    + apply H3. lia.
    + by replace (size2index size) with (KALLOC_MEM_POOL_NUM - 1) by lia.
  - intros Hs. etrans; [exact Hs|].
    assert (Forall (fun x => x <= mem_obj_size (KALLOC_MEM_POOL_NUM - 1)) MEM_OBJ_SIZES) as Hall
      by (repeat constructor; discriminate).
    rewrite Forall_forall in Hall. apply Hall. unfold mem_obj_size at 1.
    apply list_elem_of_In, nth_In. change (length MEM_OBJ_SIZES) with (Z.to_nat KALLOC_MEM_POOL_NUM). lia.
Qed.

Lemma class_in i : 0 <= i < KALLOC_MEM_POOL_NUM -> mem_obj_size i ∈ MEM_OBJ_SIZES.
Proof.
  intros Hi. apply list_elem_of_In, nth_In.
  change (length MEM_OBJ_SIZES) with (Z.to_nat KALLOC_MEM_POOL_NUM). lia.
Qed.

(** The layout of one class, and of all of them. *)
Definition class_ok (size : Z) : Prop :=
  let c := new_cache size in
  sizes_ok c /\ alloc_size c = size /\
  (if overrun size then slab_offset c + object_num size * size = SLAB_BLOB_SIZE + 16
   else slab_offset c + object_num size * size <= SLAB_BLOB_SIZE).

Lemma class_layouts : Forall class_ok MEM_OBJ_SIZES.
Proof.
  repeat (apply Forall_cons; split; [split; [split; vm_compute; repeat split; discriminate|
    split; vm_compute; reflexivity || discriminate]|]).
  constructor.
Qed.

(** The slabs of every size class hold at least one object, all objects
    start behind the bitmap and inside the blob, and the objects end inside
    the blob, except for the classes of 24 and 48 bytes: their last object ends
    sixteen bytes behind the blob. *)
Theorem class_layout :
  Forall (fun size => let c := new_cache size in
    sizes_ok c /\ alloc_size c = size /\
    (if overrun size then slab_offset c + object_num size * size = SLAB_BLOB_SIZE + 16
     else slab_offset c + object_num size * size <= SLAB_BLOB_SIZE)) MEM_OBJ_SIZES.
Proof.
  exact class_layouts.
Qed.

Section proof.
Context `{HL : Layout} {HOk : LayoutOk} {M : Type} `{HM : MetaAlloc M}
  {mown : M -> gset Z -> nat -> Prop} {HMOk : MetaAllocOk M mown}
  (pool : Z -> Z -> Z) (hart : Z).
#[local] Instance blobs_inst : BlobAlloc (buddy M) := buddy_blobs hart.
Notation own := (buddy_own (mown := mown)).
Notation tight := (buddy_tight (mown := mown)).
Notation rep := (rep (own := mown)).

#[local] Instance blobs_inst_ok : BlobAllocOk (buddy M) own tight := buddy_blobs_ok hart.

(** All pools of the hart are in order, with their locks free. *)
Definition pools_ok (st : Z) (s : kstate M) : Prop :=
  forall j, 0 <= j < KALLOC_MEM_POOL_NUM ->
    exists c, heap_ok own (pool j hart) c (kheap s) /\ unlocked st c (kheap s) /\
      obj_size c = mem_obj_size j /\ alloc_size c = mem_obj_size j.

(** The addresses of the pools are distinct and not null. *)
Definition pool_addrs : Prop :=
  forall j, 0 <= j < KALLOC_MEM_POOL_NUM -> pool j hart <> NULL /\
    forall j', 0 <= j' < KALLOC_MEM_POOL_NUM -> pool j' hart = pool j hart -> j' = j.

Lemma sizes_class c j :
  0 <= j < KALLOC_MEM_POOL_NUM -> obj_size c = mem_obj_size j -> alloc_size c = mem_obj_size j ->
  slab_offset c = slab_offset (new_cache (mem_obj_size j)) /\ class_ok (mem_obj_size j).
Proof.
  intros Hj Eo Ea. pose proof class_layouts as Hall. rewrite Forall_forall in Hall.
  specialize (Hall _ (class_in j Hj)). split; [|done]. destruct Hall as (_ & E & _).
  apply slab_offset_same; [by rewrite E|]. rewrite Eo. unfold new_cache. cbn [obj_size].
  symmetry. apply wrap_small. assert (Forall (in_width 32) MEM_OBJ_SIZES) as Hw
    by (repeat constructor; discriminate). rewrite Forall_forall in Hw. by apply Hw, class_in.
Qed.

(** An allocation of a buddy block keeps the caches in order. *)
Lemma buddy_step st h size :
  (exists K c, heap_ok own K c h /\ unlocked st c h) -> PAGE_SIZE <= size <= BUDDY_BLOB_SIZE ->
  wp (tight (blobs h)) (on_blobs (buddy_alloc hart size))
    (fun r h' => caches h' = caches h /\ slabs h' = slabs h /\ h_intr h' = h_intr h /\
       own (blobs h') (dom (slabs h)) /\
       (r = NULL \/ exists B n B' n', rep (blobs h) B n /\ rep (blobs h') B' n' /\
          balloc B !! r = None /\ balloc B' = <[r := size2order size]> (balloc B) /\
          size <= bsize (size2order size))) h.
Proof.
  intros (K & c & [_ (B & n & st' & R & Hl & HX)] & _) Hs. apply wp_lift.
  apply (alloc_no_panic (blobs h) hart B n st' size _ Hs R Hl).
  eapply wp_mono; [exact (alloc_spec st' hart (blobs h) B n size R Hl Hs)|exact (fun H => H)|].
  intros r b' (B' & n' & R' & _ & Hl' & Hp). cbn [set_blobs caches slabs h_intr blobs].
  split; [done|]. split; [done|]. split; [done|].
  pose proof (rep_inv _ _ _ R) as HB.
  destruct Hp as [(Hr & B1 & Hst & Hf & ->)|(-> & Hst & _)].
  - destruct (bsteps_frame _ _ Hst HB) as (HB1 & Ea & _).
    assert (balloc B !! r = None) as Hnone.
    { rewrite <- Ea. apply eq_None_not_Some. intros [o Ho]. by apply (bi_excl _ HB1 _ _ _ Hf Ho). }
    split.
    + exists (take r (size2order size) B1), n', st'. split; [exact R'|]. split; [exact Hl'|].
      intros a Ha. cbn. rewrite lookup_insert_ne, Ea; [auto|]. intros <-.
      apply HX in Ha. congruence.
    + right. exists B, n, (take r (size2order size) B1), n'.
      split; [done|]. split; [done|]. split; [done|]. split; [cbn; by rewrite Ea|].
      by destruct (size2order_spec size Hs) as (_ & ? & _).
  - destruct (bsteps_frame _ _ Hst HB) as (_ & Ea & _). split; [|by left].
    exists B', n', st'. split; [exact R'|]. split; [exact Hl'|]. by rewrite Ea.
Qed.

Lemma pools_nonempty st s : pools_ok st s -> exists K c, heap_ok own K c (kheap s) /\ unlocked st c (kheap s).
Proof. intros Hp. destruct (Hp 0 ltac:(done)) as (c & H1 & H2 & _). eauto. Qed.

(** The object of the slab allocator returned for a request. *)
Definition fresh_object (size : Z) (s : kstate M) (r : Z) (s' : kstate M) : Prop :=
  let n := mem_obj_size (size2index size) in
  exists sl idx, blob_addr sl /\ 0 <= idx < object_num n /\ r = object_at (new_cache n) sl idx /\
    size <= n /\ (overrun n = false \/ idx < object_num n - 1 -> inside_blob sl r (r + size)) /\
    ~ allocated (kheap s) sl idx /\
    forall t j, allocated (kheap s') t j <-> allocated (kheap s) t j \/ (t = sl /\ j = idx).

(** The block of the buddy allocator returned for a request. *)
Definition fresh_block (size : Z) (s : kstate M) (r : Z) (s' : kstate M) : Prop :=
  exists B n B' n', rep (blobs (kheap s)) B n /\ rep (blobs (kheap s')) B' n' /\
    balloc B !! r = None /\ balloc B' = <[r := size2order size]> (balloc B) /\
    size <= bsize (size2order size) /\
    forall t j, allocated (kheap s') t j <-> allocated (kheap s) t j.

Lemma object_inside n sl idx size :
  class_ok n -> 0 <= idx < object_num n -> size <= n -> 8 <= n ->
  overrun n = false \/ idx < object_num n - 1 ->
  let r := object_at (new_cache n) sl idx in inside_blob sl r (r + size).
Proof.
  intros (Hsz & Ea & Hend) Hi Hs Hn Hcase. cbn zeta. unfold object_at, inside_blob. rewrite Ea.
  pose proof (sz_offset _ Hsz). split; [nia|].
  assert (0 <= n) as Hn0 by lia.
  destruct (overrun n) eqn:Eo.
  - destruct Hcase as [|Hl]; [done|].
    assert (24 <= n) by (unfold overrun in Eo; apply orb_prop in Eo as [E|E]; apply Z.eqb_eq in E; lia).
    assert ((idx + 1) * n <= (object_num n - 1) * n) by (apply Z.mul_le_mono_nonneg_r; lia). lia.
  - assert ((idx + 1) * n <= object_num n * n) by (apply Z.mul_le_mono_nonneg_r; lia). lia.
Qed.

Lemma kmalloc_object st size s :
  pools_ok st s -> pool_addrs -> 0 < size <= KALLOC_MAX_MEM_OBJ_SIZE ->
  wp (tight (blobs (kheap s))) (on_heap (kmem_cache_alloc hart (pool_of pool hart size)))
    (fun r s' => pools_ok st s' /\ ram s' = ram s /\ (r = NULL \/ fresh_object size s r s')) s.
Proof.
  intros Hp Ha Hs. destruct (size2index_correct size) as (Hj & _ & Hfit).
  set (j := size2index size) in *. unfold pool_of. fold j.
  destruct (Hp j Hj) as (c & Hok & Hl & Eo & Ea). destruct (Ha j Hj) as [Hn Hinj].
  destruct (sizes_class c j Hj Eo Ea) as [Eoff Hcl].
  apply wp_lift. eapply wp_mono; [by apply (cache_alloc_spec st hart (pool j hart) c)|exact (fun H => H)|].
  intros r h' (c' & (Hok' & Hfr & Ea' & Eo' & Hr) & Hl'). cbn [set_kheap kheap ram].
  pose proof (co_sizes _ _ _ (proj1 Hok)) as Hsz.
  split; [|split; [done|]].
  - intros j' Hj'. cbn [kheap]. destruct (decide (j' = j)) as [->|Hne].
    { exists c'. split_and!; [done|done|congruence|congruence]. }
    destruct (Hp j' Hj') as (d & [Cd _] & [Ld _] & Eod & Ead). exists d.
    destruct Hl' as [_ Hi']. split; [split|split; [by split|done]].
    + eapply frame_cache_ok; [exact Hfr| |apply (co_addr _ _ _ (proj1 Hok'))|exact Cd].
      intros E. apply Hne. by apply Hinj.
    + apply Hok'.
  - destruct Hr as [(-> & _)|(sl & idx & x & -> & Hx & HK & Hi & Hna & _ & Hall)]; [by left|right].
    assert (slab_offset c + idx * alloc_size c = slab_offset (new_cache (mem_obj_size j)) +
      idx * alloc_size (new_cache (mem_obj_size j))) as Eobj.
    { rewrite Eoff, Ea. destruct Hcl as (_ & -> & _). done. }
    unfold fresh_object. fold j. rewrite Ea in Hi. exists sl, idx.
    assert (size <= mem_obj_size j) as Hle by (apply Hfit; lia).
    split; [apply (co_addr _ _ _ (proj1 Hok')), elem_of_dom; by exists x|].
    split; [done|]. split; [unfold object_at; lia|]. split; [done|]. split; [|by split].
    intros Hc. assert (object_at (new_cache (mem_obj_size j)) sl idx = sl + slab_offset c + idx * alloc_size c)
      as <- by (unfold object_at; lia).
    apply object_inside; try done. rewrite <- Ea. pose proof (sz_alloc _ Hsz). lia.
Qed.

Lemma kmalloc_block st size s :
  pools_ok st s -> PAGE_SIZE <= size <= BUDDY_BLOB_SIZE ->
  wp (tight (blobs (kheap s))) (on_heap (on_blobs (buddy_alloc hart size)))
    (fun r s' => pools_ok st s' /\ ram s' = ram s /\ (r = NULL \/ fresh_block size s r s')) s.
Proof.
  intros Hp Hs. apply wp_lift.
  eapply wp_mono; [apply (buddy_step st); [by apply pools_nonempty|done]|exact (fun H => H)|].
  intros r h' (Ec & Es & Ei & Hown & Hr). cbn [set_kheap kheap ram]. split; [|split; [done|]].
  - intros j Hj. destruct (Hp j Hj) as (c & [C _] & [L I] & E). exists c. split; [split|split; [split|done]].
    + apply (frame_cache_ok (pool j hart + 1) _ (kheap s)); [split; intros; cbn; by rewrite ?Ec, ?Es|lia| |done].
      cbn. rewrite Es. apply (co_addr _ _ _ C).
    + cbn. by rewrite Es.
    + done.
    + cbn. by rewrite Ei.
  - destruct Hr as [->|(B & n & B' & n' & ? & ? & ? & ? & ?)]; [by left|right].
    exists B, n, B', n'. split_and!; try done. intros t i. unfold allocated. cbn. by rewrite Es.
Qed.

Lemma kmalloc_spec st size s :
  pools_ok st s -> pool_addrs -> 0 <= size ->
  wp (tight (blobs (kheap s))) (kmalloc pool hart size)
    (fun r s' => pools_ok st s' /\ ram s' = ram s /\
       if (size =? 0) || (BUDDY_BLOB_SIZE <? size) then r = NULL /\ s' = s
       else if size <=? KALLOC_MAX_MEM_OBJ_SIZE then r = NULL \/ fresh_object size s r s'
       else r = NULL \/ fresh_block size s r s') s.
Proof.
  intros Hp Ha Hs. unfold kmalloc. change (Z.shiftl PAGE_SIZE BUDDY_MAX_ORDER) with BUDDY_BLOB_SIZE.
  destruct (Z.eqb_spec size 0); cbn [orb]; [by apply wp_ret|].
  assert (KALLOC_MAX_MEM_OBJ_SIZE = PAGE_SIZE /\ PAGE_SIZE <= BUDDY_BLOB_SIZE) as [E1 E2] by by split.
  destruct (Z.leb_spec size KALLOC_MAX_MEM_OBJ_SIZE) as [Hle|Hgt].
  - destruct (Z.ltb_spec BUDDY_BLOB_SIZE size); [lia|].
    apply kmalloc_object; [done|done|lia].
  - destruct (Z.leb_spec size BUDDY_BLOB_SIZE), (Z.ltb_spec BUDDY_BLOB_SIZE size); try lia.
    + apply kmalloc_block; [done|lia].
    + by apply wp_ret.
Qed.


(** The bytes written by [memset]. *)
Lemma fill_lookup n : forall ptr c m a,
  fill n ptr c m !! a = if decide (ptr <= a < ptr + Z.of_nat n) then Some c else m !! a.
Proof.
  induction n as [|n IH]; intros ptr c m a; cbn [fill].
  - rewrite decide_False by lia. done.
  - rewrite IH. destruct (decide (a = ptr)) as [->|Hne].
    + rewrite decide_False, lookup_insert_eq, decide_True by lia. done.
    + rewrite lookup_insert_ne by done. repeat case_decide; try done; lia.
Qed.


End proof.

(** ** A heap with empty pools *)

Definition pools (j _ : Z) : Z := 1000 + j.

Definition pool_caches : gmap Z kmem_cache :=
  list_to_map ((fun j => (pools j 0, new_cache (mem_obj_size j))) <$> seqZ 0 KALLOC_MEM_POOL_NUM).

Definition pools_heap : kstate early :=
  KState (Heap pool_caches ∅ booted (Intr 0 0 0)) ∅.

Section runs.
#[local] Existing Instance sample_layout.
#[local] Existing Instance sample_layout_ok.
#[local] Existing Instance early_meta.
Abbreviation own0 := (buddy_own (mown := early_own)).
Abbreviation tight0 := (buddy_tight (mown := early_own)).
Abbreviation pools0 := (pools_ok (mown := early_own) pools 0 0).

Lemma pools_heap_ok : pools0 pools_heap.
Proof.
  intros j Hj. exists (new_cache (mem_obj_size j)).
  assert (caches (kheap pools_heap) !! pools j 0 = Some (new_cache (mem_obj_size j))) as Hlook.
  { cbn [kheap caches pools_heap]. unfold pool_caches. apply elem_of_list_to_map_1.
    - rewrite <- list_fmap_compose. apply NoDup_fmap; [|apply NoDup_seqZ].
      intros x y. unfold pools. cbn. lia.
    - apply list_elem_of_fmap. exists j. split; [done|]. apply elem_of_seqZ. lia. }
  pose proof class_layouts as Hall. rewrite Forall_forall in Hall.
  destruct (Hall _ (class_in j Hj)) as (Hsz & Ea & _).
  split; [split; [|exact booted_own]|split; [split; [done|]|split; [|done]]].
  - apply empty_cache_ok; done.
  - vm_compute. repeat split; discriminate.
  - unfold new_cache. cbn [obj_size]. apply wrap_small.
    assert (Forall (in_width 32) MEM_OBJ_SIZES) as Hw by (repeat constructor; discriminate).
    rewrite Forall_forall in Hw. by apply Hw, class_in.
Qed.

Lemma pools_addrs : pool_addrs pools 0.
Proof. intros j Hj. unfold pools, NULL. split; [lia|]. intros j' Hj'. lia. Qed.



End runs.
