(* ===== verification/PmInit.v ===== *)
(** The start of memory management, [pm_init] of [src/mm/pm.c]: page
    descriptors, early heap, buddy allocator and the pools of [kmalloc] are set
    up one after the other, each on what the one before it leaves. *)

From S2P Require Import Prelude Bits ListHead Bitmap Pm Sync Early.
From S2P Require Import Buddy BuddySpec BuddyCore BuddyProof BuddyTop Slab SlabProof SlabTop Kalloc KallocProof.

(** ** Operations *)

(** No code adds to it: the free list of single pages is commented out. *)
Definition single_free_pages : Z := 0.

Definition collect_free_pages : Z := 0.

Section ops.
Context `{HL : Layout} {M : Type}.

Definition page_alloc (flags : Z) : ST (kstate M) Z := panic.
Definition page_free (addr : Z) : ST (kstate M) Z := panic.

Definition get_free_pages_num : ST (kstate M) Z :=
  gets (fun s => u64 (buddy_free_pages (blobs (kheap s)) + single_free_pages)).

Definition pm_init (pool : Z -> Z -> Z) (hart : Z) : ST (kstate early) Z :=
  let! r := on_heap (on_blobs (Buddy.on_pages pm_pages_init)) in
  if negb (r =? 0) then ret r else
  do! on_early early_init in
  let! r := on_heap (on_blobs buddy_init) in
  if negb (r =? 0) then ret r else
  do! kalloc_init pool hart in
  let r := collect_free_pages in
  if negb (r =? 0) then ret r else
  ret 0.

End ops.

(** The state in which the kernel calls [pm_init]: the buddy allocator as the
    bss holds it, no slab. *)
Definition boot_kernel (cs : gmap Z kmem_cache) (m : early) (t : page_table) (st : Z) (mem : gmap Z Z) : kstate early :=
  KState (Heap cs ∅ (boot_buddy m t st) (Intr st 0 0)) mem.

(** Once [kalloc_inited] is set the metadata of the buddy allocator comes from
    another allocator, in state [m]. *)
Definition hand_over {M} (m : M) (b : buddy early) : buddy M :=
  Buddy (free_list b) (blk_start b) (pages b) (buddy_free_pages b) (buddy_inited b) m (blk_lock b).
Definition hand_over_heap {M} (m : M) (s : kstate early) : kstate M :=
  KState (Heap (caches (kheap s)) (slabs (kheap s)) (hand_over m (blobs (kheap s))) (h_intr (kheap s))) (ram s).

(** ** The page allocator during boot *)

Section proof.
Context `{HL : Layout} {HOk : LayoutOk} (hart : Z).
#[local] Instance boot_blobs : BlobAlloc (buddy early) := buddy_blobs hart.
Abbreviation rep := (rep (own := early_own)).
Abbreviation tight := (buddy_tight (mown := early_own)).

(** The blobs [X] are the allocated blocks, and every byte of the region is free
    or in one of them. *)
Record blobs_only (Bk : blocks) (X : gset Z) : Prop := {
  bo_inv : binv Bk;
  bo_alloc : balloc Bk = gset_to_gmap 4 X;
  bo_cover x : BUDDY_SYSTEM_BASE <= x < BUDDY_SYSTEM_END ->
    covered (bfree Bk) x \/ exists a, a ∈ X /\ a <= x < a + SLAB_BLOB_SIZE
}.

(** The early heap has room for [N] metadata blocks, less seven for each
    blob. *)
Definition boot_own (st : Z) (N : nat) (b : buddy early) (X : gset Z) : Prop :=
  exists Bk n, rep b Bk n /\ lock_free st b /\ buddy_inited b = true /\ blobs_only Bk X /\ (N <= n + 7 * size X)%nat.

Lemma blob_in (X : gset Z) a : gset_to_gmap 4 X !! a = Some 4 <-> a ∈ X.
Proof. rewrite lookup_gset_to_gmap_Some. naive_solver. Qed.

Lemma pages_in_blobs (X : gset Z) : pages_in (gset_to_gmap 4 X) = 16 * Z.of_nat (size X).
Proof.
  induction X as [|a X Ha IH] using set_ind_L; [done|].
  rewrite gset_to_gmap_union_singleton, pages_in_insert, IH by by apply lookup_gset_to_gmap_None.
  rewrite size_union, size_singleton by set_solver. change (2 ^ 4) with 16. lia.
Qed.

(** With fewer than 128 blobs handed out, one of the first 128 places for a
    blob is free. *)
Lemma free_place (X : gset Z) lo : (size X < 128)%nat -> exists i, 0 <= i < 128 /\ lo + i * SLAB_BLOB_SIZE ∉ X.
Proof.
  intros Hs. destruct (decide (Forall (fun i => lo + i * SLAB_BLOB_SIZE ∈ X) (seqZ 0 128))) as [Hall|Hex].
  - exfalso. assert (size (list_to_set ((fun i => lo + i * SLAB_BLOB_SIZE) <$> seqZ 0 128) : gset Z) = 128%nat) as Hsz.
    { rewrite size_list_to_set; [by rewrite length_fmap|]. apply NoDup_fmap; [|apply NoDup_seqZ].
      intros x y. change SLAB_BLOB_SIZE with 65536. lia. }
    assert (list_to_set ((fun i => lo + i * SLAB_BLOB_SIZE) <$> seqZ 0 128) ⊆ X) as Hsub.
    { intros x [i [-> Hi]]%elem_of_list_to_set%list_elem_of_fmap. by rewrite Forall_forall in Hall; apply Hall. }
    apply subseteq_size in Hsub. lia.
  - apply not_Forall_Exists in Hex; [|intros i; apply _]. apply Exists_exists in Hex as (i & Hi%elem_of_seqZ & Hn).
    exists i. split; [lia|done].
Qed.

Lemma blob_free_somewhere Bk X : blobs_only Bk X -> (size X < 128)%nat -> ~ none_free (bfree Bk) 4.
Proof.
  intros [HB HA Hc] Hs Hn. destruct (free_place X BUDDY_SYSTEM_BASE Hs) as (i & Hi & Hout).
  destruct blob_order as [_ Es]. set (a := BUDDY_SYSTEM_BASE + i * SLAB_BLOB_SIZE) in *.
  pose proof layout_facts as (_ & _ & _ & _ & F5 & _ & _ & _ & _ & _ & MB & _).
  assert (a mod SLAB_BLOB_SIZE = 0) as Ma.
  { unfold a. rewrite Z.mod_add by done. change BUDDY_BLOB_SIZE with (SLAB_BLOB_SIZE * 128) in MB.
    apply mult_mod in MB as [q ->]; [|done]. apply mult_mod; [done|]. exists (128 * q). lia. }
  apply (Hn a); [by rewrite Es|]. rewrite Es. intros x Hx.
  destruct (Hc x) as [?|(c & HcX & Hcx)]; [unfold a in *; mem_nums; change SLAB_BLOB_SIZE with 65536 in *; lia|done|].
  exfalso. apply Hout. assert (c mod SLAB_BLOB_SIZE = 0) as Mc.
  { rewrite <- Es. assert (balloc Bk !! c = Some 4) as Hb by (rewrite HA; by apply blob_in).
    by destruct (bi_ok _ HB c 4 (or_intror Hb)) as (_ & ? & _). }
  apply mult_mod in Ma as [p Ep]; [|done]. apply mult_mod in Mc as [q Eq]; [|done].
  assert (a = c) as ->; [|done]. change SLAB_BLOB_SIZE with 65536 in *. lia.
Qed.

(** Abstract steps keep what is allocated and covered. *)
Lemma blobs_only_steps Bk B1 X : blobs_only Bk X -> rtc bstep Bk B1 -> blobs_only B1 X.
Proof.
  intros [HB HA Hc] Hst. destruct (bsteps_frame _ _ Hst HB) as (HB1 & EA & _ & EC).
  split; [done|congruence|]. intros x Hx. rewrite EC. by apply Hc.
Qed.

Lemma blobs_only_take Bk X r :
  blobs_only Bk X -> bfree Bk !! r = Some 4 ->
  r ∉ X /\ blobs_only (take r 4 Bk) ({[r]} ∪ X).
Proof.
  intros [HB HA Hc] Hr. destruct blob_order as [_ Es]. split.
  - intros HX. apply (bi_excl _ HB r 4 4 Hr). rewrite HA. by apply blob_in.
  - split; [by apply take_binv|cbn; by rewrite HA, gset_to_gmap_union_singleton|].
    intros x Hx. rewrite take_covered, Es by done. destruct (Hc x Hx) as [Hf|(a & Ha & Hax)].
    + destruct (decide (r <= x < r + SLAB_BLOB_SIZE)); [right; exists r|by left]. split; [set_solver|done].
    + right. exists a. split; [set_solver|done].
Qed.

(** A request for a blob is answered, unless 128 are in use. *)
Lemma boot_alloc st N b X :
  boot_own st N b X ->
  wp (tight b) (buddy_alloc hart SLAB_BLOB_SIZE)
    (fun r b' => (r = NULL /\ (128 <= size X)%nat /\ boot_own st N b' X) \/
       (r ∉ X /\ blob_addr r /\ boot_own st N b' ({[r]} ∪ X))) b.
Proof.
  intros (Bk & n & R & Hl & Hi & HX & HN). destruct blob_order as [Eo Es].
  apply (alloc_no_panic b hart Bk n st SLAB_BLOB_SIZE _ ltac:(split; discriminate) R Hl).
  pose proof (alloc_cost_spec st hart b Bk n SLAB_BLOB_SIZE R Hl ltac:(split; discriminate)) as Hw.
  rewrite Eo in Hw. change (split_cost 4) with 7%nat in Hw. eapply wp_mono; [exact Hw|lia|]. clear Hw.
  intros r b' (B' & n' & R' & Hn & Hnull & Hl' & Hi' & Hp).
  destruct Hp as [(Hr & B1 & Hst & Hf & ->)|(-> & Hst & Hnone)].
  - right. pose proof (blobs_only_steps _ _ _ HX Hst) as H1. destruct (blobs_only_take _ _ _ H1 Hf) as [Hfresh H2].
    split; [done|]. split.
    + destruct (bi_ok _ (bo_inv _ _ H1) r 4 (or_introl Hf)) as (_ & Hm & Hlo & Hhi). rewrite Es in *.
      pose proof layout_facts as (F1 & F2 & F3 & F4 & F5 & F6 & _). split; [done|]. mem_nums. lia.
    + exists (take r 4 B1), n'. split_and!; [done|done|congruence|done|]. rewrite size_union, size_singleton by set_solver. lia.
  - left. pose proof (blobs_only_steps _ _ _ HX Hst) as H1. split; [done|]. split.
    + destruct (decide (size X < 128)%nat) as [Hs|]; [|lia]. by destruct (blob_free_somewhere _ _ H1 Hs).
    + exists B', n'. split_and!; [done|done|congruence|done|]. rewrite Hnull by done. lia.
Qed.

#[local] Instance boot_blobs_ok st N : BlobAllocOk (buddy early) (boot_own st N) tight.
Proof.
  split.
  - intros b X Ho. eapply wp_mono; [by apply boot_alloc|done|].
    intros r b' [(-> & _ & ?)|(? & (? & ? & ?) & ?)]; [by left|by right].
  - intros b X t (Bk & n & R & Hrest) Hfl. exists Bk, n. split; [by apply rep_flags|exact Hrest].
  - done.
Qed.

(** ** One pool *)

Lemma cache_step st N K size h :
  sizes_ok (new_cache size) -> boot_own st N (blobs h) (dom (slabs h)) ->
  (7 * base.size (dom (slabs h)) + 11 <= N)%nat -> (base.size (dom (slabs h)) < 128)%nat ->
  (forall s, s ∈ dom (slabs h) -> blob_addr s) -> (forall s x, slabs h !! s = Some x -> kmem x <> K) ->
  wp False (kmem_cache_init K size true)
    (fun r h' => exists c' b, r = 0 /\ heap_ok (boot_own st N) K c' h' /\ c_lock c' = SPINLOCK_INITIALIZER /\
       h_intr h' = h_intr h /\ alloc_size c' = alloc_size (new_cache size) /\ obj_size c' = obj_size (new_cache size) /\
       c_free c' = object_num (alloc_size c') /\ frame K h h' /\
       b ∉ dom (slabs h) /\ dom (slabs h') = {[b]} ∪ dom (slabs h)) h.
Proof.
  intros Hsz Hown HN Hs Haddr Hnew. unfold kmem_cache_init. fold (new_cache size). set (c := new_cache size) in *.
  apply wp_bind, wp_modify. cbn [negb]. set (h1 := set_caches _ h).
  assert (heap_ok (boot_own st N) K c h1) as Hok.
  { split; [|done]. split; cbn [caches slabs set_caches c new_cache slabs_partial slabs_full slabs_free]; try done.
    - apply lookup_insert_eq.
    - intros s ?%not_elem_of_nil. done.
    - intros s ?%not_elem_of_nil. done.
    - constructor.
    - intros s x Hx HK. by destruct (Hnew s x Hx). }
  pose proof Hown as (Bk & n & R & _ & Hi & _ & Hn).
  apply wp_bind, wp_gets. change (blob_inited (blobs h1)) with (buddy_inited (blobs h)). rewrite Hi. cbn [negb].
  apply wp_bind, wp_lift. eapply wp_mono; [exact (boot_alloc st N (blobs h) _ Hown)| |].
  { intros Ht. apply Ht. exists Bk, n. split; [done|lia]. }
  intros r b' [(_ & ? & _)|(Hfresh & Ha & Hown')]; [lia|]. cbv beta.
  destruct (Z.eqb_spec r NULL) as [->|_]; [destruct Ha as (_ & ? & _); mem_nums; unfold NULL in *; lia|].
  eapply wp_mono; [by apply (grow_spec 0 _ K c r b' h1)|exact (fun H => H)|].
  intros v h' (-> & c' & Hok' & El & Eh & Ea & Eo & Ef & Hfr & _ & Ed). exists c', r.
  split_and!; [done|done|by rewrite El|done|done|done|by rewrite Ef, Ea|..|done|done].
  eapply frame_trans; [exact (frame_cache K h c (blobs h) (h_intr h))|exact Hfr].
Qed.

(** The name of a cache takes the room of one metadata block. *)
Lemma early_own_less m X Y n : early_own m X n -> Y ⊆ X -> early_own m Y n.
Proof. intros (? & ? & HX & ?) Hs. split; [done|]. split; [done|]. split; [|done]. intros x Hx. by apply HX, Hs. Qed.

Lemma name_step st N X s :
  boot_own st (S N) (blobs (kheap s)) X -> (7 * size X <= N)%nat ->
  wp False (on_early (early_alloc 24))
    (fun _ s' => exists m', s' = set_kheap (set_blobs (Buddy.set_meta m' (blobs (kheap s))) (kheap s)) s /\
       boot_own st N (blobs (kheap s')) X) s.
Proof.
  intros (Bk & n & R & Hl & Hi & HX & HN) Hs. destruct R as [C HB Hm Hc Ht]. apply wp_lift, wp_lift, wp_lift.
  eapply wp_mono; [exact (meta_alloc_ok (meta (blobs (kheap s))) _ n Hm)|lia|].
  intros p m' [(_ & -> & _)|(_ & _ & Hm')]; [lia|]. exists m'. split; [done|].
  exists Bk, (pred n). split; [|split_and!; [done|done|done|lia]]. split; try done. cbn.
  eapply early_own_less; [exact Hm'|]. set_solver.
Qed.

(** ** The pools *)

Definition pool_done (pool : Z -> Z -> Z) (h : heap (buddy early)) (i : Z) : Prop :=
  exists c, cache_ok h (pool i 0) c /\ c_lock c = SPINLOCK_INITIALIZER /\
    obj_size c = mem_obj_size i /\ alloc_size c = mem_obj_size i /\ c_free c = object_num (mem_obj_size i).

Record boot_inv (pool : Z -> Z -> Z) (st : Z) (N : nat) (j : nat) (s : kstate early) : Prop := {
  bv_own : boot_own st (N - j) (blobs (kheap s)) (dom (slabs (kheap s)));
  bv_size : size (dom (slabs (kheap s))) = j;
  bv_intr : h_intr (kheap s) = Intr st 0 0;
  bv_addr a : a ∈ dom (slabs (kheap s)) -> blob_addr a;
  bv_kmem a x : slabs (kheap s) !! a = Some x -> exists i, 0 <= i < Z.of_nat j /\ kmem x = pool i 0;
  bv_done i : 0 <= i < Z.of_nat j -> pool_done pool (kheap s) i
}.

Lemma class_sizes j : 0 <= j < KALLOC_MEM_POOL_NUM ->
  sizes_ok (new_cache (mem_obj_size j)) /\ alloc_size (new_cache (mem_obj_size j)) = mem_obj_size j /\
  obj_size (new_cache (mem_obj_size j)) = mem_obj_size j.
Proof.
  intros Hj. pose proof class_layouts as Hall. rewrite Forall_forall in Hall.
  destruct (Hall _ (class_in j Hj)) as (Hsz & Ea & _). split_and!; [done|done|].
  unfold new_cache. cbn [obj_size]. apply wrap_small.
  assert (Forall (in_width 32) MEM_OBJ_SIZES) as Hw by (repeat constructor; discriminate).
  rewrite Forall_forall in Hw. by apply Hw, class_in.
Qed.

Lemma pool_step pool st N j s :
  pool_addrs pool 0 -> Z.of_nat j < KALLOC_MEM_POOL_NUM -> (8 * j + 12 <= N)%nat -> boot_inv pool st N j s ->
  wp False (let! _ := on_early (early_alloc 24) in
            let! _ := on_heap (kmem_cache_init (pool (Z.of_nat j) 0) (mem_obj_size (Z.of_nat j)) true) in ret tt)
    (fun _ s' => boot_inv pool st N (S j) s' /\ ram s' = ram s) s.
Proof.
  intros Hpool Hj HN I. destruct (class_sizes (Z.of_nat j) ltac:(lia)) as (Hsz & _).
  pose proof (bv_own _ _ _ _ _ I) as Hown. replace (N - j)%nat with (S (N - S j)) in Hown by lia.
  pose proof (bv_size _ _ _ _ _ I) as Esz. eapply wp_bind_mono; [apply name_step; [exact Hown|lia]|].
  intros _ s1 (m' & -> & Hown1). destruct s as [[cs sl b i] mem].
  cbn [kheap slabs blobs caches h_intr ram set_kheap set_blobs] in *.
  assert (KALLOC_MEM_POOL_NUM = 18) as Enum by reflexivity.
  apply wp_bind, wp_lift. eapply wp_mono; [eapply (cache_step st (N - S j)); [exact Hsz|exact Hown1|cbn; lia|cbn; lia|apply (bv_addr _ _ _ _ _ I)|]|done|].
  { intros a x Hx HK. apply (bv_kmem _ _ _ _ _ I) in Hx as (k & Hk & E). rewrite HK in E.
    destruct (Hpool k ltac:(lia)) as [_ Hinj]. specialize (Hinj (Z.of_nat j) ltac:(lia) E). lia. }
  intros r h' (c' & bl & _ & [Hok Hown'] & Hlock & Hintr & Ha' & Ho' & Hf & Hfr & Hfresh & Hdom).
  destruct (class_sizes (Z.of_nat j) ltac:(lia)) as (_ & Ea & Eo). rewrite Ea in Ha'. rewrite Eo in Ho'. rewrite Ha' in Hf.
  clear Ea Eo. cbn [kheap slabs blobs caches h_intr ram set_kheap set_blobs] in *.
  apply wp_ret. split; [|done].
  assert (forall a, a ∈ dom (slabs h') -> blob_addr a) as Haddr by apply (co_addr _ _ _ Hok).
  split; cbn.
  - exact Hown'.
  - rewrite Hdom, size_union, size_singleton by set_solver. lia.
  - rewrite Hintr. apply (bv_intr _ _ _ _ _ I).
  - exact Haddr.
  - intros a x Hx. destruct (decide (kmem x = pool (Z.of_nat j) 0)) as [E|Hne]; [exists (Z.of_nat j); split; [lia|done]|].
    apply (proj2 Hfr) in Hx; [|done]. apply (bv_kmem _ _ _ _ _ I) in Hx as (k & Hk & E). exists k. split; [lia|done].
  - intros k Hk. destruct (decide (k = Z.of_nat j)) as [->|Hne].
    + exists c'. by split_and!.
    + destruct (bv_done _ _ _ _ _ I k ltac:(lia)) as (c & Hc & Hrest). exists c. split; [|done].
      eapply frame_cache_ok; [exact Hfr| |exact Haddr|].
      * intros E. destruct (Hpool (Z.of_nat j) ltac:(lia)) as [_ Hinj]. specialize (Hinj k ltac:(lia) E). lia.
      * destruct Hc. by split.
Qed.

Lemma kalloc_init_spec pool st N s :
  pool_addrs pool 0 -> (8 * 17 + 12 <= N)%nat -> boot_inv pool st N 0 s ->
  wp False (kalloc_init pool hart)
    (fun _ s' => exists s1, boot_inv pool st N 18 s1 /\ ram s1 = ram s /\
       s' = set_kheap (set_blobs (Buddy.set_meta (Early (early_brk (meta (blobs (kheap s1)))) true) (blobs (kheap s1))) (kheap s1)) s1) s.
Proof.
  intros Hpool HN I. unfold kalloc_init. change (Z.to_nat CPU_NUM) with 1%nat. cbn [for_up].
  apply wp_bind, wp_bind.
  pose proof (wp_for_up False (fun j s' => boot_inv pool st N (Z.to_nat j) s' /\ ram s' = ram s)
    (fun j => let! _ := on_early (early_alloc 24) in
              let! _ := on_heap (kmem_cache_init (pool j 0) (mem_obj_size j) true) in ret tt)
    (Z.to_nat KALLOC_MEM_POOL_NUM) 0 s) as Hloop.
  eapply wp_mono; [apply Hloop|done|].
  - intros j t Hj [It Hram]. change (Z.of_nat (Z.to_nat KALLOC_MEM_POOL_NUM)) with 18 in Hj.
    pose proof (pool_step pool st N (Z.to_nat j) t Hpool ltac:(change KALLOC_MEM_POOL_NUM with 18; lia) ltac:(lia) It) as Hs.
    rewrite Z2Nat.id in Hs by lia. eapply wp_mono; [exact Hs|done|]. intros _ t' [It' Hram'].
    replace (Z.to_nat (j + 1)) with (S (Z.to_nat j)) by lia. by rewrite Hram', Hram.
  - by split.
  - intros _ s1 [I1 Hram]. apply wp_ret, wp_lift, wp_lift, wp_lift, wp_modify. by exists s1.
Qed.

(** ** What [pm_init] leaves *)

Lemma rep_hand_over {M} `{MetaAlloc M} {mown : M -> gset Z -> nat -> Prop} (m : M) b Bk n n' :
  rep b Bk n -> mown m (dom (blk_start b)) n' -> BuddyProof.rep (own := mown) (hand_over m b) Bk n'.
Proof. intros [C ? ? ? ?] Hm. by split. Qed.

Lemma pools_hand_over {M} `{MetaAlloc M} {mown : M -> gset Z -> nat -> Prop} pool st N s (m : M) n' mem :
  boot_inv pool st N 18 s -> mown m (dom (blk_start (blobs (kheap s)))) n' ->
  pools_ok (mown := mown) pool 0 st
    (KState (Heap (caches (kheap s)) (slabs (kheap s)) (hand_over m (blobs (kheap s))) (h_intr (kheap s))) mem).
Proof.
  intros I Hm j Hj. destruct (bv_done _ _ _ _ _ I j Hj) as (c & Hc & Hlock & Eo & Ea & _).
  destruct (bv_own _ _ _ _ _ I) as (Bk & n & R & Hl & _ & HX & _). exists c.
  split; [split|split; [split; [done|]|done]].
  - destruct Hc. by split.
  - exists Bk, n', st. split; [by eapply rep_hand_over|]. split; [exact Hl|].
    intros a Ha. rewrite (bo_alloc _ _ HX). by apply blob_in.
  - cbn. by rewrite (bv_intr _ _ _ _ _ I).
Qed.

Lemma free_pages_left pool st N s : boot_inv pool st N 18 s ->
  buddy_free_pages (blobs (kheap s)) = Z.of_nat blob_num * 2048 - 18 * 16.
Proof.
  intros I. destruct (bv_own _ _ _ _ _ I) as (Bk & n & R & _ & _ & HX & _).
  pose proof (rep_total _ _ _ R) as Ht. rewrite (bo_alloc _ _ HX), pages_in_blobs, (bv_size _ _ _ _ _ I) in Ht.
  rewrite (rep_count _ _ _ R). change (2 ^ BUDDY_MAX_ORDER) with 2048 in Ht. lia.
Qed.

Lemma rpage_base a : rpage a -> 0 <= addr2index a < PAGE_NUM /\ page_base (addr2index a) = a.
Proof.
  intros Ha. pose proof (rpage_index a Ha) as Hi. split; [done|].
  pose proof (rpage_ram a Ha) as Hr. destruct (addr2index_in a Hr) as [E _]. rewrite E. destruct Ha as [Hm _].
  unfold page_base. mem_nums. pose proof (Z.div_mod (a - 2147483648) 4096 ltac:(lia)).
  assert ((a - 2147483648) mod 4096 = 0); [|lia].
  rewrite Zminus_mod, Hm. done.
Qed.

Lemma boot_inv_start pool st b h mem :
  rep b (Blocks (BuddyTop.blobs blob_num) ∅) (170 - blob_num) -> lock_free st b -> buddy_inited b = true ->
  slabs h = ∅ -> blobs h = b -> h_intr h = Intr st 0 0 -> boot_inv pool st 154 0 (KState h mem).
Proof.
  intros R Hl Hi Es Eb Eh. pose proof blob_num_small. split; cbn.
  - rewrite Es, Eb, dom_empty_L. exists (Blocks (BuddyTop.blobs blob_num) ∅), (170 - blob_num)%nat.
    split; [exact R|]. split; [exact Hl|]. split; [exact Hi|]. split; [|rewrite size_empty; lia].
    split; [exact (rep_inv _ _ _ R)|by rewrite gset_to_gmap_empty|]. intros x Hx. left. by apply blobs_covered.
  - by rewrite Es, dom_empty_L, size_empty.
  - done.
  - rewrite Es, dom_empty_L. by intros a ?%not_elem_of_empty.
  - intros a x. by rewrite Es, lookup_empty.
  - lia.
Qed.

(** The page of the early heap holds 170 metadata blocks. *)
Lemma early_fresh : early_own (Early EARLY_HEAP_BASE false) ∅ 170.
Proof.
  pose proof layout_facts as (_ & _ & F3 & _). split; [done|]. cbn [early_brk]. split; [lia|].
  split; [intros x Hx; by apply not_elem_of_empty in Hx|]. intros _. unfold EARLY_HEAP_END, sizeof_mem_block.
  change EARLY_HEAP_SIZE with 4096. lia.
Qed.

(** [pm_init] to the call of [kalloc_init]. *)
Lemma pm_init_starts pool cs m t st mem (Q : Z -> kstate early -> Prop) :
  kalloc_inited m = false ->
  (forall s, boot_inv pool st 154 0 s -> ram s = mem ->
     wp False (kalloc_init pool hart) (fun _ s' => Q 0 s') s) ->
  wp False (pm_init pool hart) Q (boot_kernel cs m t st mem).
Proof.
  destruct m as [brk ki]. cbn [kalloc_inited]. intros -> HQ. unfold pm_init. destruct (pm_pages_init_spec t) as (t' & Hr & Hpages).
  apply wp_bind, wp_lift, wp_lift, wp_lift. cbn [boot_kernel kheap Slab.blobs boot_buddy Buddy.pages].
  eapply wp_run; [exact Hr|]. cbn [Z.eqb negb].
  apply wp_bind, wp_lift, wp_lift, wp_lift, wp_modify, wp_bind, wp_lift, wp_lift.
  pose proof (init_spec st _ t' 170 early_fresh) as Hinit. pose proof blob_num_small.
  eapply wp_mono; [apply Hinit|lia|].
  { intros a Ha. destruct (rpage_base a Ha) as [Hi Hb]. apply (Hpages _ Hi). rewrite Hb. apply Ha. }
  intros r b (-> & Hi & Hl & R). cbn [Z.eqb negb]. apply wp_bind.
  eapply wp_mono; [apply HQ; [by eapply boot_inv_start|done]|done|]. intros u s' H'. apply wp_ret. exact H'.
Qed.

End proof.

(** [C16] The start of memory management, as a whole: whatever the page
    descriptors hold, and wherever the kernel image ends, [pm_init] succeeds
    without panic or fault.  The page of the early heap is enough for the
    metadata of the buddy allocator and the names of the caches; every pool of
    [kmalloc] has its cache, unlocked, with the objects of one slab free; the
    rest of the buddy region is free and counted; and with any allocator for
    further metadata, in a state where it holds the blocks handed out so far,
    the pools satisfy the invariant that [kmalloc] needs. *)
Theorem pm_init_correct `{HL : Layout} {HOk : LayoutOk} pool cs m t st mem :
  kalloc_inited m = false -> pool_addrs pool 0 ->
  wp False (pm_init pool 0)
    (fun r s' => r = 0 /\ kalloc_inited (meta (Slab.blobs (kheap s'))) = true /\ ram s' = mem /\
       (forall i, 0 <= i < KALLOC_MEM_POOL_NUM -> exists c,
          caches (kheap s') !! pool i 0 = Some c /\ c_lock c = SPINLOCK_INITIALIZER /\
          alloc_size c = mem_obj_size i /\ c_free c = object_num (mem_obj_size i)) /\
       get_free_pages_num s' = Ok (Z.of_nat blob_num * 2048 - 18 * 16, s') /\
       forall (M : Type) (HM : MetaAlloc M) (mown : M -> gset Z -> nat -> Prop) (m' : M) n',
         mown m' (dom (blk_start (Slab.blobs (kheap s')))) n' ->
         pools_ok (mown := mown) pool 0 st (hand_over_heap m' s'))
    (boot_kernel cs m t st mem).
Proof.
  intros Hm Hpool. apply pm_init_starts; [done|]. intros s I Hram.
  eapply wp_mono; [apply (kalloc_init_spec 0 pool st 154); [exact Hpool|lia|exact I]|done|].
  intros _ s' (s1 & I1 & Hram1 & ->). pose proof (free_pages_left _ _ _ _ I1) as Hfree.
  split; [done|]. split; [done|]. split; [by rewrite <- Hram|]. split; [|split].
  - intros i Hi. destruct (bv_done _ _ _ _ _ I1 i Hi) as (c & Hc & ? & ? & ? & ?). exists c.
    split; [apply (co_cache _ _ _ Hc)|done].
  - pose proof blob_num_small. unfold get_free_pages_num, gets.
    cbn [kheap Slab.blobs set_kheap set_blobs Buddy.set_meta buddy_free_pages].
    rewrite Hfree. do 2 f_equal. unfold single_free_pages. rewrite Z.add_0_r. apply wrap_small. unfold in_width.
    pose proof layout_facts as (_ & _ & _ & _ & F5 & _).
    assert (1 <= Z.of_nat blob_num); [|lia]. unfold blob_num. mem_nums.
    rewrite Z2Nat.id by (apply Z.div_pos; lia). apply Z.div_le_lower_bound; lia.
  - intros M HM mown m' n' Hm'. exact (pools_hand_over pool st 154 s1 m' n' _ I1 Hm').
Qed.

Lemma pm_init_correct_witness :
  wp False (@pm_init sample_layout pools 0)
    (fun r s' => r = 0 /\ kalloc_inited (meta (Slab.blobs (kheap s'))) = true /\ ram s' = ∅ /\
       (forall i, 0 <= i < KALLOC_MEM_POOL_NUM -> exists c,
          caches (kheap s') !! pools i 0 = Some c /\ c_lock c = SPINLOCK_INITIALIZER /\
          alloc_size c = mem_obj_size i /\ c_free c = object_num (mem_obj_size i)) /\
       get_free_pages_num s' = Ok (Z.of_nat (@blob_num sample_layout) * 2048 - 18 * 16, s') /\
       forall (M : Type) (HM : MetaAlloc M) (mown : M -> gset Z -> nat -> Prop) (m' : M) n',
         mown m' (dom (blk_start (Slab.blobs (kheap s')))) n' ->
         pools_ok (HL := sample_layout) (mown := mown) pools 0 0 (hand_over_heap m' s'))
    (boot_kernel ∅ (Early 0 false) ∅ 0 ∅).
Proof. exact (@pm_init_correct sample_layout sample_layout_ok pools ∅ (Early 0 false) ∅ 0 ∅ eq_refl pools_addrs). Defined.
