(* ===== verification/CString.v ===== *)
(** Memory and string functions, [src/misc/string.c].

    Memory is a finite map from addresses to bytes ([char] is unsigned on
    RISC-V); an access outside it is a fault.  A loop that is bounded only by
    the data gets the number of mapped bytes as fuel, which is enough because
    every iteration reads another byte. *)

From S2P Require Import Prelude.

Abbreviation mem := (gmap Z Z).

Definition ld (p : Z) : ST mem Z := load (fun m => m !! p).
Definition st (p c : Z) : ST mem unit :=
  store (fun m => match m !! p with Some _ => Some (<[p := u8 c]> m) | None => None end).

Definition fuelled {A} (f : nat -> ST mem A) : ST mem A :=
  let! n := gets size in f (S n).

(** ** Blocks of memory *)

(** [for (i = 0; i < n; i++) d[i] = s[i]] from index [i], [n] bytes to go. *)
Fixpoint copy_up (n : nat) (d s i : Z) : ST mem unit :=
  match n with
  | O => ret tt
  | S n => let! c := ld (s + i) in do! st (d + i) c in copy_up n d s (i + 1)
  end.

(** [for (i = n; i > 0; i--) d[i - 1] = s[i - 1]]. *)
Fixpoint copy_down (n : nat) (d s : Z) : ST mem unit :=
  match n with
  | O => ret tt
  | S n => let! c := ld (s + Z.of_nat n) in do! st (d + Z.of_nat n) c in copy_down n d s
  end.

Definition memcpy (dest src n : Z) : ST mem Z :=
  do! copy_up (Z.to_nat n) dest src 0 in ret dest.

Definition memmove (dest src n : Z) : ST mem Z :=
  do! (if dest <? src then copy_up (Z.to_nat n) dest src 0
       else if src <? dest then copy_down (Z.to_nat n) dest src else ret tt) in
  ret dest.

Fixpoint memset_loop (n : nat) (p ch i : Z) : ST mem unit :=
  match n with
  | O => ret tt
  | S n => do! st (p + i) ch in memset_loop n p ch (i + 1)
  end.

Definition memset (s c n : Z) : ST mem Z :=
  do! memset_loop (Z.to_nat n) s (u8 c) 0 in ret s.

Fixpoint memcmp_loop (n : nat) (p1 p2 i : Z) : ST mem Z :=
  match n with
  | O => ret 0
  | S n =>
      let! a := ld (p1 + i) in
      let! b := ld (p2 + i) in
      if negb (a =? b) then ret (a - b) else memcmp_loop n p1 p2 (i + 1)
  end.

Definition memcmp (s1 s2 n : Z) : ST mem Z := memcmp_loop (Z.to_nat n) s1 s2 0.

Fixpoint memchr_loop (n : nat) (p ch i : Z) : ST mem Z :=
  match n with
  | O => ret NULL
  | S n => let! a := ld (p + i) in if a =? ch then ret (p + i) else memchr_loop n p ch (i + 1)
  end.

Definition memchr (s c n : Z) : ST mem Z := memchr_loop (Z.to_nat n) s (u8 c) 0.

(** ** Lengths *)

Fixpoint strlen_loop (fuel : nat) (s len : Z) : ST mem Z :=
  match fuel with
  | O => no_fuel
  | S fuel => let! c := ld (s + len) in if c =? 0 then ret len else strlen_loop fuel s (len + 1)
  end.

Definition strlen (s : Z) : ST mem Z := fuelled (fun n => strlen_loop n s 0).

(** The bound [maxlen] is the number of iterations. *)
Fixpoint strnlen_loop (n : nat) (s len : Z) : ST mem Z :=
  match n with
  | O => ret len
  | S n => let! c := ld (s + len) in if c =? 0 then ret len else strnlen_loop n s (len + 1)
  end.

Definition strnlen (s maxlen : Z) : ST mem Z := strnlen_loop (Z.to_nat maxlen) s 0.

(** ** Copying strings *)

Fixpoint strcpy_loop (fuel : nat) (dest src i : Z) : ST mem Z :=
  match fuel with
  | O => no_fuel
  | S fuel =>
      let! c := ld (src + i) in
      if c =? 0 then ret i else do! st (dest + i) c in strcpy_loop fuel dest src (i + 1)
  end.

Definition strcpy (dest src : Z) : ST mem Z :=
  let! i := fuelled (fun n => strcpy_loop n dest src 0) in
  do! st (dest + i) 0 in ret dest.

(** The first loop of [strncpy] and [strncat]; [n] is the rest of the bound. *)
Fixpoint strncpy_loop (n : nat) (dest src i : Z) : ST mem Z :=
  match n with
  | O => ret i
  | S n =>
      let! c := ld (src + i) in
      if c =? 0 then ret i else do! st (dest + i) c in strncpy_loop n dest src (i + 1)
  end.

Definition strncpy (dest src n : Z) : ST mem Z :=
  let! i := strncpy_loop (Z.to_nat n) dest src 0 in
  do! memset_loop (Z.to_nat (n - i)) dest 0 i in ret dest.

Definition strcat (dest src : Z) : ST mem Z :=
  let! dest_len := strlen dest in
  let! i := fuelled (fun n => strcpy_loop n (dest + dest_len) src 0) in
  do! st (dest + dest_len + i) 0 in ret dest.

Definition strncat (dest src n : Z) : ST mem Z :=
  let! dest_len := strlen dest in
  let! i := strncpy_loop (Z.to_nat n) (dest + dest_len) src 0 in
  do! st (dest + dest_len + i) 0 in ret dest.

(** ** Comparison *)

Fixpoint strcmp_loop (fuel : nat) (s1 s2 : Z) : ST mem Z :=
  match fuel with
  | O => no_fuel
  | S fuel =>
      let! a := ld s1 in
      if a =? 0 then let! b := ld s2 in ret (a - b) else
      let! b := ld s2 in
      if a =? b then strcmp_loop fuel (s1 + 1) (s2 + 1) else ret (a - b)
  end.

Definition strcmp (s1 s2 : Z) : ST mem Z := fuelled (fun n => strcmp_loop n s1 s2).

(** [while (n > 1 && ...)]; [n] is the rest of the bound minus one. *)
Fixpoint strncmp_loop (n : nat) (s1 s2 : Z) : ST mem Z :=
  let! a := ld s1 in
  match n with
  | S n =>
      if a =? 0 then let! b := ld s2 in ret (a - b) else
      let! b := ld s2 in
      if a =? b then strncmp_loop n (s1 + 1) (s2 + 1) else ret (a - b)
  | O => let! b := ld s2 in ret (a - b)
  end.

Definition strncmp (s1 s2 n : Z) : ST mem Z :=
  if n =? 0 then ret 0 else strncmp_loop (Z.to_nat (n - 1)) s1 s2.

(** ** Searching *)

Fixpoint strchr_loop (fuel : nat) (s ch : Z) : ST mem Z :=
  match fuel with
  | O => no_fuel
  | S fuel =>
      let! a := ld s in
      if a =? ch then ret s else if a =? 0 then ret NULL else strchr_loop fuel (s + 1) ch
  end.

Definition strchr (s c : Z) : ST mem Z := fuelled (fun n => strchr_loop n s (u8 c)).

Fixpoint strrchr_loop (fuel : nat) (s ch last : Z) : ST mem Z :=
  match fuel with
  | O => no_fuel
  | S fuel =>
      let! a := ld s in
      let last := if a =? ch then s else last in
      if a =? 0 then ret last else strrchr_loop fuel (s + 1) ch last
  end.

Definition strrchr (s c : Z) : ST mem Z := fuelled (fun n => strrchr_loop n s (u8 c) NULL).

(** [for (i = 0; i <= haystack_len - needle_len; i++)], [n] starts to go. *)
Fixpoint strstr_loop (n : nat) (haystack needle needle_len i : Z) : ST mem Z :=
  match n with
  | O => ret NULL
  | S n =>
      let! r := memcmp (haystack + i) needle needle_len in
      if r =? 0 then ret (haystack + i) else strstr_loop n haystack needle needle_len (i + 1)
  end.

Definition strstr (haystack needle : Z) : ST mem Z :=
  let! c := ld needle in
  if c =? 0 then ret haystack else
  let! needle_len := strlen needle in
  let! haystack_len := strlen haystack in
  if haystack_len <? needle_len then ret NULL else
  strstr_loop (Z.to_nat (haystack_len - needle_len + 1)) haystack needle needle_len 0.

(** The scan of [strspn] ([want] true) and [strcspn] ([want] false): the
    pointer at which it stops. *)
Fixpoint span_loop (fuel : nat) (want : bool) (s set : Z) : ST mem Z :=
  match fuel with
  | O => no_fuel
  | S fuel =>
      let! a := ld s in
      if a =? 0 then ret s else
      let! r := strchr set a in
      if Bool.eqb (negb (r =? NULL)) want then span_loop fuel want (s + 1) set else ret s
  end.

Definition span (want : bool) (s set : Z) : ST mem Z := fuelled (fun n => span_loop n want s set).

Definition strspn (s accept : Z) : ST mem Z := let! p := span true s accept in ret (p - s).
Definition strcspn (s reject : Z) : ST mem Z := let! p := span false s reject in ret (p - s).

Definition strpbrk (s accept : Z) : ST mem Z :=
  let! p := span false s accept in
  let! a := ld p in
  ret (if a =? 0 then NULL else p).

(** ** Tokens *)

(** The state of [strtok]: memory and the static pointer [last]. *)
Record tokst := TokSt { tmem : mem; tok_last : Z }.

Definition set_tmem (m : mem) (s : tokst) : tokst := TokSt m (tok_last s).
Definition on_mem {A} (m : ST mem A) : ST tokst A := lift tmem set_tmem m.
Definition set_last (p : Z) : ST tokst unit := modify (fun s => TokSt (tmem s) p).

Definition strtok (str delim : Z) : ST tokst Z :=
  do! (if negb (str =? NULL) then set_last str else ret tt) in
  let! last := gets tok_last in
  if last =? NULL then ret NULL else
  let! last := on_mem (span true last delim) in
  let! c := on_mem (ld last) in
  if c =? 0 then do! set_last NULL in ret NULL else
  let token := last in
  let! last := on_mem (span false last delim) in
  let! c := on_mem (ld last) in
  do! (if negb (c =? 0) then do! on_mem (st last 0) in set_last (last + 1)
       else set_last NULL) in
  ret token.

(** A caller that collects the tokens of a string. *)
Fixpoint strtok_all (fuel : nat) (str delim : Z) : ST tokst (list Z) :=
  match fuel with
  | O => no_fuel
  | S fuel =>
      let! t := strtok str delim in
      if t =? NULL then ret [] else let! l := strtok_all fuel NULL delim in ret (t :: l)
  end.
