(* ===== verification/CStringProof.v ===== *)
(** What the memory and string functions do, stated on C strings: a string
    [l] at [p] is a sequence of non-zero bytes followed by a zero byte. *)

From S2P Require Import Prelude CString.

(** ** Strings in memory *)

Fixpoint cstr (m : mem) (p : Z) (l : list Z) : Prop :=
  match l with
  | [] => m !! p = Some 0
  | c :: l => m !! p = Some c /\ 0 < c < 256 /\ cstr m (p + 1) l
  end.

Fixpoint bytes_at (m : mem) (p : Z) (l : list Z) : Prop :=
  match l with
  | [] => True
  | c :: l => m !! p = Some c /\ in_width 8 c /\ bytes_at m (p + 1) l
  end.

Definition mapped (m : mem) (p n : Z) : Prop := forall a, p <= a < p + n -> is_Some (m !! a).

Fixpoint write_bytes (p : Z) (l : list Z) (m : mem) : mem :=
  match l with
  | [] => m
  | c :: l => write_bytes (p + 1) l (<[p := c]> m)
  end.

(** ** Specifications on lists *)

(** The first index at which a byte occurs, and the last. *)
Fixpoint index_of (c : Z) (l : list Z) : option nat :=
  match l with
  | [] => None
  | x :: l => if x =? c then Some O else S <$> index_of c l
  end.

Fixpoint last_index_of (c : Z) (l : list Z) : option nat :=
  match l with
  | [] => None
  | x :: l => match last_index_of c l with
              | Some i => Some (S i)
              | None => if x =? c then Some O else None
              end
  end.

(** The difference of the first bytes that differ; a string that ends is
    followed by zero. *)
Fixpoint str_cmp (l1 l2 : list Z) : Z :=
  match l1, l2 with
  | [], [] => 0
  | [], b :: _ => - b
  | a :: _, [] => a
  | a :: l1, b :: l2 => if a =? b then str_cmp l1 l2 else a - b
  end.

Fixpoint prefix_len (P : Z -> bool) (l : list Z) : nat :=
  match l with
  | [] => O
  | c :: l => if P c then S (prefix_len P l) else O
  end.

Definition mem_of (set : list Z) (c : Z) : bool := bool_decide (c ∈ set).

Definition addr_of (p : Z) (o : option nat) : Z :=
  match o with Some i => p + Z.of_nat i | None => NULL end.

(** The words of a string between delimiters, with their offsets. *)
Fixpoint words (fuel : nat) (D : Z -> bool) (p : Z) (l : list Z) : list (Z * list Z) :=
  match fuel with
  | O => []
  | S fuel =>
      let k := prefix_len D l in
      let rest := drop k l in
      match rest with
      | [] => []
      | _ =>
          let n := prefix_len (fun c => negb (D c)) rest in
          (p + Z.of_nat k, take n rest) ::
          words fuel D (p + Z.of_nat k + Z.of_nat n + 1) (drop (S n) rest)
      end
  end.

(** ** Steps *)

Lemma ld_ok {A} m p c (k : Z -> ST mem A) : m !! p = Some c -> bind (ld p) k m = k c m.
Proof. intros H. unfold bind, ld, load. by rewrite H. Qed.

Lemma st_ok {A} m p c (k : unit -> ST mem A) :
  is_Some (m !! p) -> in_width 8 c -> bind (st p c) k m = k tt (<[p := c]> m).
Proof. intros [x H] Hc. unfold bind, st, store. by rewrite H, wrap_small. Qed.

Lemma bind_run {S A B} (f : ST S A) (k : A -> ST S B) s a s' :
  f s = Ok (a, s') -> bind f k s = k a s'.
Proof. intros H. unfold bind. by rewrite H. Qed.

(** ** Facts on strings *)

Lemma cstr_head m p l : cstr m p l -> exists c, m !! p = Some c.
Proof. destruct l; cbn; [eauto|intros (? & _); eauto]. Qed.

Lemma cstr_mapped m p l : cstr m p l -> mapped m p (Z.of_nat (length l) + 1).
Proof.
  revert p. induction l as [|c l IH]; intros p; cbn [cstr length].
  - intros H a Ha. replace a with p by lia. by exists 0.
  - intros (H & _ & Hl) a Ha. destruct (decide (a = p)) as [->|]; [by exists c|].
    apply (IH (p + 1) Hl). lia.
Qed.

Lemma mapped_size m p n : mapped m p n -> (Z.to_nat n <= size m)%nat.
Proof.
  intros Hm. rewrite <- size_dom.
  assert (list_to_set (seqZ p n) ⊆ dom m) as Hsub.
  { intros a Ha. apply elem_of_list_to_set, elem_of_seqZ in Ha. by apply elem_of_dom, Hm. }
  apply subseteq_size in Hsub. rewrite size_list_to_set in Hsub by apply NoDup_seqZ.
  by rewrite length_seqZ in Hsub.
Qed.

Lemma cstr_fuel m p l : cstr m p l -> (length l < S (size m))%nat.
Proof. intros H. apply cstr_mapped, mapped_size in H. lia. Qed.

Lemma cstr_bytes m p l : cstr m p l <-> bytes_at m p (l ++ [0]) /\ Forall (fun c => 0 < c < 256) l.
Proof.
  revert p. induction l as [|c l IH]; intros p; cbn [cstr app bytes_at].
  - split; [intros H; split; [by split_and!|constructor]|by intros ((? & _) & _)].
  - rewrite IH, Forall_cons. assert (0 < c < 256 -> in_width 8 c) by (unfold in_width; lia). tauto.
Qed.

Lemma bytes_at_app m p l1 l2 :
  bytes_at m p (l1 ++ l2) <-> bytes_at m p l1 /\ bytes_at m (p + Z.of_nat (length l1)) l2.
Proof.
  revert p. induction l1 as [|c l1 IH]; intros p; cbn [app bytes_at length].
  - rewrite Z.add_0_r. tauto.
  - rewrite IH. replace (p + 1 + Z.of_nat (length l1)) with (p + Z.of_nat (S (length l1))) by lia. tauto.
Qed.

Lemma bytes_at_ext m m' p l :
  (forall a, p <= a < p + Z.of_nat (length l) -> m' !! a = m !! a) -> bytes_at m p l -> bytes_at m' p l.
Proof.
  revert p. induction l as [|c l IH]; intros p He; cbn [bytes_at length] in *; [done|].
  intros (H1 & H2 & H3). rewrite He by lia. split; [done|]. split; [done|].
  apply IH; [|done]. intros a Ha. apply He. lia.
Qed.

Lemma cstr_ext m m' p l :
  (forall a, p <= a <= p + Z.of_nat (length l) -> m' !! a = m !! a) -> cstr m p l -> cstr m' p l.
Proof.
  intros He. rewrite !cstr_bytes. intros [Hb Hf]. split; [|done]. eapply bytes_at_ext; [|done].
  intros a. rewrite length_app. cbn. intros Ha. apply He. lia.
Qed.

Lemma write_bytes_out p l m a :
  ~ (p <= a < p + Z.of_nat (length l)) -> write_bytes p l m !! a = m !! a.
Proof.
  revert p m. induction l as [|c l IH]; intros p m Ha; cbn [write_bytes length] in *; [done|].
  rewrite IH by lia. apply lookup_insert_ne. lia.
Qed.

Lemma write_bytes_app p l1 l2 m :
  write_bytes p (l1 ++ l2) m = write_bytes (p + Z.of_nat (length l1)) l2 (write_bytes p l1 m).
Proof.
  revert p m. induction l1 as [|c l1 IH]; intros p m; cbn [app write_bytes length].
  - by rewrite Z.add_0_r.
  - rewrite IH. f_equal. lia.
Qed.

Lemma write_bytes_at p l m : Forall (in_width 8) l -> bytes_at (write_bytes p l m) p l.
Proof.
  revert p m. induction l as [|c l IH]; intros p m Hl; cbn [write_bytes bytes_at]; [done|].
  apply Forall_cons in Hl as [Hc Hl]. rewrite write_bytes_out by lia.
  rewrite lookup_insert_eq. split; [done|]. split; [done|]. by apply IH.
Qed.

Lemma write_bytes_mapped p l m q n : mapped m q n -> mapped (write_bytes p l m) q n.
Proof.
  revert p m. induction l as [|c l IH]; intros p m Hm; cbn [write_bytes]; [done|].
  apply IH. intros a Ha. rewrite lookup_insert. case_decide; [eauto|by apply Hm].
Qed.

Lemma bytes_width m p l : bytes_at m p l -> Forall (in_width 8) l.
Proof.
  revert p. induction l as [|c l IH]; intros p; cbn; [constructor|].
  intros (_ & ? & ?). constructor; eauto.
Qed.

(** Two ranges that do not meet. *)
Definition apart (p n q k : Z) : Prop := p + n <= q \/ q + k <= p.

Lemma apart_sym p n q k : apart p n q k -> apart q k p n.
Proof. unfold apart. lia. Qed.

(** ** Blocks *)

(** Copying upwards is right when no byte is overwritten before it is read. *)
Lemma copy_up_spec l : forall m d s i,
  bytes_at m (s + i) l -> mapped m (d + i) (Z.of_nat (length l)) ->
  d <= s \/ s + i + Z.of_nat (length l) <= d + i ->
  copy_up (length l) d s i m = Ok (tt, write_bytes (d + i) l m).
Proof.
  induction l as [|c l IH]; intros m d s i Hb Hm Hor; cbn [copy_up length bytes_at write_bytes] in *; [done|].
  destruct Hb as (Hc & Hw & Hb). rewrite (ld_ok _ _ c) by done.
  rewrite st_ok by (done || apply Hm; lia).
  replace (d + i + 1) with (d + (i + 1)) by lia. apply IH.
  - replace (s + (i + 1)) with (s + i + 1) by lia. eapply bytes_at_ext; [|exact Hb].
    intros a Ha. apply lookup_insert_ne. lia.
  - intros a Ha. rewrite lookup_insert. case_decide; [eauto|apply Hm; lia].
  - lia.
Qed.

Lemma copy_down_spec l : forall m d s,
  bytes_at m s l -> mapped m d (Z.of_nat (length l)) -> s <= d \/ d + Z.of_nat (length l) <= s ->
  copy_down (length l) d s m = Ok (tt, write_bytes d l m).
Proof.
  induction l as [|c l IH] using rev_ind; intros m d s Hb Hm Hor; [done|].
  rewrite length_app in *. cbn [length] in *. rewrite Nat.add_1_r in *. cbn [copy_down].
  apply bytes_at_app in Hb as [Hb Hc]. cbn [bytes_at] in Hc. destruct Hc as (Hc & Hw & _).
  rewrite (ld_ok _ _ c) by done. rewrite st_ok by (done || apply Hm; lia).
  rewrite IH.
  - rewrite write_bytes_app. cbn [write_bytes]. do 2 f_equal. apply map_eq. intros a.
    destruct (decide (a = d + Z.of_nat (length l))) as [->|Hne].
    + rewrite write_bytes_out by lia. by rewrite !lookup_insert_eq.
    + rewrite (lookup_insert_ne (write_bytes d l m)) by done.
      destruct (decide (d <= a < d + Z.of_nat (length l))) as [Hin|Hout].
      * clear -Hin Hne. revert d m Hin Hne. induction l as [|x l IH]; intros d m Hin Hne; cbn [length] in *; [lia|].
        cbn [write_bytes]. destruct (decide (a = d)) as [->|].
        { rewrite !write_bytes_out by lia. by rewrite !lookup_insert_eq. }
        rewrite (insert_insert_ne m) by lia.
        replace (d + Z.of_nat (S (length l))) with (d + 1 + Z.of_nat (length l)) in * by lia.
        apply IH; lia.
      * rewrite !write_bytes_out by done. by rewrite lookup_insert_ne.
  - eapply bytes_at_ext; [|exact Hb]. intros a Ha. apply lookup_insert_ne. lia.
  - intros a Ha. rewrite lookup_insert. case_decide; [eauto|apply Hm; lia].
  - lia.
Qed.

Lemma write_same m p l : bytes_at m p l -> write_bytes p l m = m.
Proof.
  revert p m. induction l as [|c l IH]; intros p m; cbn; [done|]. intros (Hc & _ & Hb).
  rewrite insert_id by done. by apply IH.
Qed.

Lemma memset_loop_spec n : forall m p c i,
  in_width 8 c -> mapped m (p + i) (Z.of_nat n) ->
  memset_loop n p c i m = Ok (tt, write_bytes (p + i) (repeat c n) m).
Proof.
  induction n as [|n IH]; intros m p c i Hc Hm; cbn [memset_loop repeat write_bytes]; [done|].
  rewrite st_ok by (done || apply Hm; lia). rewrite IH.
  - do 3 f_equal. lia.
  - done.
  - intros a Ha. rewrite lookup_insert. case_decide; [eauto|apply Hm; lia].
Qed.

Lemma memcmp_loop_spec l1 : forall l2 m s1 s2 i,
  bytes_at m (s1 + i) l1 -> bytes_at m (s2 + i) l2 -> length l1 = length l2 ->
  memcmp_loop (length l1) s1 s2 i m = Ok (str_cmp l1 l2, m).
Proof.
  induction l1 as [|a l1 IH]; intros [|b l2] m s1 s2 i H1 H2 Hl; try done.
  cbn [length memcmp_loop bytes_at str_cmp] in *. destruct H1 as (H1 & _ & Hb1), H2 as (H2 & _ & Hb2).
  rewrite (ld_ok _ _ a), (ld_ok _ _ b) by done. destruct (Z.eqb_spec a b) as [|]; cbn [negb]; [|done].
  rewrite <- Z.add_assoc in Hb1, Hb2. apply IH; [done|done|congruence].
Qed.

Lemma memchr_loop_spec l : forall m p ch i,
  bytes_at m (p + i) l -> memchr_loop (length l) p ch i m = Ok (addr_of (p + i) (index_of ch l), m).
Proof.
  induction l as [|a l IH]; intros m p ch i Hb; cbn [length memchr_loop bytes_at index_of] in *; [done|].
  destruct Hb as (Ha & _ & Hb). rewrite (ld_ok _ _ a) by done. destruct (Z.eqb_spec a ch) as [|].
  - cbn. by rewrite Z.add_0_r.
  - rewrite <- Z.add_assoc in Hb. rewrite IH by done. destruct (index_of ch l); cbn; [|done].
    do 2 f_equal. lia.
Qed.

(** [C17] The block functions: [memmove] copies also between overlapping
    blocks, [memcpy] when the destination starts before the source or the
    blocks are disjoint, [memset] fills with the low byte of its argument,
    [memcmp] gives the difference of the first differing bytes and [memchr] the
    first occurrence; no other byte changes. *)
Theorem block_functions_correct m d s c l l' :
  let n := Z.of_nat (length l) in
  bytes_at m s l -> bytes_at m d l' -> length l' = length l ->
  memmove d s n m = Ok (d, write_bytes d l m) /\
  (d <= s \/ s + n <= d -> memcpy d s n m = Ok (d, write_bytes d l m)) /\
  memset d c n m = Ok (d, write_bytes d (repeat (u8 c) (length l)) m) /\
  memcmp s d n m = Ok (str_cmp l l', m) /\
  memchr s c n m = Ok (addr_of s (index_of (u8 c) l), m).
Proof.
  cbn zeta. intros Hs Hd Hl. set (n := Z.of_nat (length l)).
  assert (mapped m d n) as Hm.
  { subst n. rewrite <- Hl. clear Hs Hl. revert d Hd. induction l' as [|x l' IH]; intros d Hd a Ha; cbn in *; [lia|].
    destruct Hd as (? & _ & Hd). destruct (decide (a = d)) as [->|]; [eauto|]. apply (IH (d + 1)); [done|lia]. }
  assert (Z.to_nat n = length l) as En by (subst n; lia).
  assert (d <= s \/ s + n <= d -> copy_up (length l) d s 0 m = Ok (tt, write_bytes d l m)) as Hup.
  { intros Hor. pose proof (copy_up_spec l m d s 0) as H. rewrite !Z.add_0_r in H. apply H; [done|done|lia]. }
  split_and!.
  - unfold memmove. rewrite En. destruct (Z.ltb_spec d s).
    + by rewrite (bind_run _ _ _ _ _ (Hup ltac:(lia))).
    + destruct (Z.ltb_spec s d).
      * by rewrite (bind_run _ _ _ _ _ (copy_down_spec l m d s Hs Hm ltac:(lia))).
      * replace s with d in * by lia. by rewrite (write_same m d l Hs).
  - intros Hor. unfold memcpy. rewrite En. by rewrite (bind_run _ _ _ _ _ (Hup Hor)).
  - unfold memset. rewrite En. pose proof (memset_loop_spec (length l) m d (u8 c) 0) as H.
    rewrite Z.add_0_r in H. erewrite bind_run; [done|]. apply H; [apply wrap_range; lia|done].
  - unfold memcmp. rewrite En. apply memcmp_loop_spec; by rewrite ?Z.add_0_r.
  - unfold memchr. rewrite En, memchr_loop_spec; rewrite Z.add_0_r; done.
Qed.

(** ** Lengths and searches *)

Lemma fuelled_run {A} (f : nat -> ST mem A) m r : f (S (size m)) m = r -> fuelled f m = r.
Proof. done. Qed.

Lemma strlen_loop_spec l : forall fuel m p k,
  cstr m (p + k) l -> (length l < fuel)%nat ->
  strlen_loop fuel p k m = Ok (k + Z.of_nat (length l), m).
Proof.
  induction l as [|c l IH]; intros [|fuel] m p k H Hf; cbn [strlen_loop cstr length] in *; try lia.
  - rewrite (ld_ok _ _ 0) by done. cbn. by rewrite Z.add_0_r.
  - destruct H as (Hc & Hr & H). rewrite (ld_ok _ _ c) by done. destruct (Z.eqb_spec c 0); [lia|].
    rewrite <- Z.add_assoc in H. rewrite IH by (done || lia). do 2 f_equal. lia.
Qed.

Lemma strlen_run m p l : cstr m p l -> strlen p m = Ok (Z.of_nat (length l), m).
Proof.
  intros H. apply fuelled_run. rewrite (strlen_loop_spec l); [done|by rewrite Z.add_0_r|by eapply cstr_fuel].
Qed.

Lemma strnlen_loop_spec l : forall n m p k,
  cstr m (p + k) l -> strnlen_loop n p k m = Ok (k + Z.of_nat (Nat.min n (length l)), m).
Proof.
  induction l as [|c l IH]; intros [|n] m p k H; cbn [strnlen_loop cstr length] in *.
  1,3: cbn; by rewrite Z.add_0_r.
  - rewrite (ld_ok _ _ 0) by done. cbn. by rewrite Z.add_0_r.
  - destruct H as (Hc & Hr & H). rewrite (ld_ok _ _ c) by done. destruct (Z.eqb_spec c 0); [lia|].
    rewrite <- Z.add_assoc in H. rewrite IH by done. do 2 f_equal. lia.
Qed.

Lemma strchr_loop_spec l : forall fuel m p ch,
  cstr m p l -> (length l < fuel)%nat ->
  strchr_loop fuel p ch m = Ok (addr_of p (index_of ch (l ++ [0])), m).
Proof.
  induction l as [|c l IH]; intros [|fuel] m p ch H Hf; cbn [strchr_loop cstr length app index_of] in *; try lia.
  - rewrite (ld_ok _ _ 0) by done. destruct (Z.eqb_spec 0 ch); cbn; by rewrite ?Z.add_0_r.
  - destruct H as (Hc & Hr & H). rewrite (ld_ok _ _ c) by done. destruct (Z.eqb_spec c ch); cbn.
    { by rewrite Z.add_0_r. }
    destruct (Z.eqb_spec c 0); [lia|]. rewrite IH by (done || lia).
    destruct (index_of ch (l ++ [0])); cbn; [|done]. do 2 f_equal. lia.
Qed.

Lemma strchr_run m p l c : cstr m p l -> strchr p c m = Ok (addr_of p (index_of (u8 c) (l ++ [0])), m).
Proof. intros H. apply fuelled_run, strchr_loop_spec; [done|by eapply cstr_fuel]. Qed.

(** [last] is the result so far. *)
Lemma strrchr_loop_spec l : forall fuel m p ch last,
  cstr m p l -> (length l < fuel)%nat ->
  strrchr_loop fuel p ch last m =
    Ok (match last_index_of ch (l ++ [0]) with Some i => p + Z.of_nat i | None => last end, m).
Proof.
  induction l as [|c l IH]; intros [|fuel] m p ch last H Hf; cbn [strrchr_loop cstr length app last_index_of] in *; try lia.
  - rewrite (ld_ok _ _ 0) by done. cbn zeta. rewrite Z.eqb_refl.
    destruct (0 =? ch); cbn [Z.of_nat]; by rewrite ?Z.add_0_r.
  - destruct H as (Hc & Hr & H). rewrite (ld_ok _ _ c) by done. destruct (Z.eqb_spec c 0); [lia|].
    cbn zeta. rewrite IH by (done || lia). destruct (last_index_of ch (l ++ [0])) as [i|].
    + do 2 f_equal. lia.
    + destruct (Z.eqb_spec c ch); by rewrite ?Z.add_0_r.
Qed.

Lemma index_of_in c l : index_of c l = None <-> c ∉ l.
Proof.
  induction l as [|x l IH]; cbn; [split; [intros _; apply not_elem_of_nil|done]|].
  rewrite not_elem_of_cons, <- IH. destruct (Z.eqb_spec x c); [naive_solver|].
  rewrite fmap_None. naive_solver.
Qed.

(** Whether [strchr] finds a byte of a string in a set. *)
Lemma strchr_member m q set c : 0 < q -> cstr m q set -> 0 < c < 256 ->
  exists r, strchr q c m = Ok (r, m) /\ negb (r =? NULL) = mem_of set c.
Proof.
  intros Hq Hs Hc. eexists. split; [by apply strchr_run|]. rewrite wrap_small by (unfold in_width; lia).
  unfold mem_of. case_bool_decide as Hin.
  - destruct (index_of c (set ++ [0])) eqn:E.
    + cbn. destruct (Z.eqb_spec (q + Z.of_nat n) NULL) as [E0|]; [unfold NULL in *; lia|done].
    + apply index_of_in in E. set_solver.
  - destruct (index_of c (set ++ [0])) eqn:E; [exfalso|done].
    assert (c ∉ set ++ [0]) as Hn%index_of_in; [|congruence].
    rewrite elem_of_app, list_elem_of_singleton. intros [|]; [done|lia].
Qed.

Lemma span_loop_spec q set want l : forall fuel m p,
  0 < q -> cstr m q set -> cstr m p l -> (length l < fuel)%nat ->
  span_loop fuel want p q m =
    Ok (p + Z.of_nat (prefix_len (fun c => Bool.eqb (mem_of set c) want) l), m).
Proof.
  intros fuel m p Hq Hs. revert fuel p.
  induction l as [|c l IH]; intros [|fuel] p H Hf; cbn [span_loop cstr length prefix_len] in *; try lia.
  - rewrite (ld_ok _ _ 0) by done. cbn. by rewrite Z.add_0_r.
  - destruct H as (Hc & Hr & H). rewrite (ld_ok _ _ c) by done. destruct (Z.eqb_spec c 0); [lia|].
    destruct (strchr_member m q set c Hq Hs Hr) as (r & Hrun & E). rewrite (bind_run _ _ _ _ _ Hrun), E.
    destruct (Bool.eqb (mem_of set c) want); [|cbn; by rewrite Z.add_0_r].
    rewrite IH by (done || lia). do 2 f_equal. lia.
Qed.

Lemma span_run m q set want p l :
  0 < q -> cstr m q set -> cstr m p l ->
  span want p q m = Ok (p + Z.of_nat (prefix_len (fun c => Bool.eqb (mem_of set c) want) l), m).
Proof. intros Hq Hs Hp. apply fuelled_run, (span_loop_spec q set want l); [done|done|done|by eapply cstr_fuel]. Qed.

Lemma prefix_len_le P l : (prefix_len P l <= length l)%nat.
Proof. induction l as [|c l IH]; cbn; [lia|]. destruct (P c); lia. Qed.

(** The byte at an offset of a string. *)
Lemma cstr_at m p l k :
  cstr m p l -> (k <= length l)%nat ->
  m !! (p + Z.of_nat k) = Some (nth k l 0) /\ ((k < length l)%nat -> nth k l 0 <> 0).
Proof.
  revert p k. induction l as [|c l IH]; intros p k H Hk; cbn [cstr length] in *.
  - replace k with O by lia. rewrite Z.add_0_r. split; [done|cbn; lia].
  - destruct H as (Hc & Hr & H). destruct k as [|k].
    + rewrite Z.add_0_r. cbn [nth]. split; [done|lia].
    + destruct (IH (p + 1) k H ltac:(lia)) as [E1 E2].
      replace (p + Z.of_nat (S k)) with (p + 1 + Z.of_nat k) by lia. cbn [nth].
      split; [done|]. intros ?. apply E2. lia.
Qed.

(** The first occurrence of a string in another. *)
Fixpoint find_sub (nd h : list Z) : option nat :=
  if decide (take (length nd) h = nd) then Some O
  else match h with [] => None | _ :: h => S <$> find_sub nd h end.

Lemma find_sub_short nd h : (length h < length nd)%nat -> find_sub nd h = None.
Proof.
  induction h as [|x h IH]; cbn [find_sub length]; intros Hl; case_decide as E.
  - apply (f_equal length) in E. rewrite length_take in E. cbn in E. lia.
  - done.
  - apply (f_equal length) in E. rewrite length_take in E. cbn [length] in E. lia.
  - rewrite IH by lia. done.
Qed.

Lemma str_cmp_eq l1 : forall l2, length l1 = length l2 -> str_cmp l1 l2 = 0 <-> l1 = l2.
Proof.
  induction l1 as [|a l1 IH]; intros [|b l2] Hl; cbn in *; try done.
  destruct (Z.eqb_spec a b) as [->|Hne].
  - rewrite IH by lia. split; [by intros ->|by intros [= ->]].
  - split; [lia|]. intros [= ? ?]. done.
Qed.

Lemma cstr_prefix m p l k : (k <= length l)%nat -> cstr m p l -> bytes_at m p (take k l).
Proof.
  intros Hk [H _]%cstr_bytes. rewrite <- (take_drop k l), <- app_assoc in H.
  by apply bytes_at_app in H as [H _].
Qed.

Lemma strstr_loop_spec m q nd h : forall p k,
  cstr m q nd -> cstr m (p + k) h ->
  strstr_loop (S (length h) - length nd) p q (Z.of_nat (length nd)) k m =
    Ok (addr_of (p + k) (find_sub nd h), m).
Proof.
  induction h as [|x h IH]; intros p k Hq Hp.
  - destruct nd as [|y nd]; [|by rewrite find_sub_short by (cbn; lia)].
    cbn [find_sub length take]. rewrite decide_True by done. cbn. by rewrite ?Z.add_0_r.
  - destruct (decide (length (x :: h) < length nd)%nat) as [Hlt|Hge].
    { rewrite find_sub_short by done. by replace (S (length (x :: h)) - length nd)%nat with O by lia. }
    replace (S (length (x :: h)) - length nd)%nat with (S (S (length h) - length nd)) by (cbn [length] in *; lia).
    cbn [strstr_loop]. assert (length (take (length nd) (x :: h)) = length nd) as Hlen.
    { rewrite length_take. lia. }
    assert (memcmp (p + k) q (Z.of_nat (length nd)) m = Ok (str_cmp (take (length nd) (x :: h)) nd, m)) as Hcmp.
    { unfold memcmp. rewrite Nat2Z.id. rewrite <- Hlen at 1. apply memcmp_loop_spec; rewrite ?Z.add_0_r.
      - apply cstr_prefix; [lia|done].
      - pose proof (cstr_prefix m q nd (length nd) ltac:(done) Hq) as H. by rewrite take_ge in H.
      - done. }
    rewrite (bind_run _ _ _ _ _ Hcmp). cbn [find_sub].
    destruct (Z.eqb_spec (str_cmp (take (length nd) (x :: h)) nd) 0) as [E|E].
    + apply str_cmp_eq in E; [|done]. rewrite decide_True by done. cbn. by rewrite Z.add_0_r.
    + rewrite decide_False by (intros E'; by apply E, str_cmp_eq).
      cbn [cstr] in Hp. destruct Hp as (_ & _ & Hp). rewrite <- Z.add_assoc in Hp. rewrite IH by done.
      destruct (find_sub nd h); cbn; [|done]. do 2 f_equal. lia.
Qed.

Lemma strcmp_loop_spec l1 : forall l2 fuel m p q,
  cstr m p l1 -> cstr m q l2 -> (length l1 < fuel)%nat ->
  strcmp_loop fuel p q m = Ok (str_cmp l1 l2, m).
Proof.
  induction l1 as [|a l1 IH]; intros l2 [|fuel] m p q H1 H2 Hf; cbn [strcmp_loop cstr length] in *; try lia.
  - rewrite (ld_ok _ _ 0) by done. rewrite Z.eqb_refl.
    destruct l2 as [|b l2]; cbn [cstr str_cmp] in *; [|destruct H2 as (H2 & _)];
      rewrite (ld_ok _ _ _ _ H2); unfold ret; do 2 f_equal; lia.
  - destruct H1 as (Ha & Hra & H1). rewrite (ld_ok _ _ a) by done. destruct (Z.eqb_spec a 0); [lia|].
    destruct l2 as [|b l2]; cbn [cstr str_cmp] in *.
    + rewrite (ld_ok _ _ _ _ H2). destruct (Z.eqb_spec a 0); [lia|]. unfold ret. do 2 f_equal; lia.
    + destruct H2 as (Hb & _ & H2). rewrite (ld_ok _ _ _ _ Hb).
      destruct (Z.eqb_spec a b); [|done]. apply IH; [done|done|lia].
Qed.

Lemma strncmp_loop_spec n : forall l1 l2 m p q,
  cstr m p l1 -> cstr m q l2 ->
  strncmp_loop n p q m = Ok (str_cmp (take (S n) l1) (take (S n) l2), m).
Proof.
  induction n as [|n IH]; intros l1 l2 m p q H1 H2; cbn [strncmp_loop].
  - destruct l1 as [|a l1], l2 as [|b l2]; cbn [cstr take str_cmp] in *.
    + by rewrite (ld_ok _ _ _ _ H1), (ld_ok _ _ _ _ H2).
    + rewrite (ld_ok _ _ _ _ H1), (ld_ok _ _ _ _ (proj1 H2)). unfold ret; do 2 f_equal; lia.
    + rewrite (ld_ok _ _ _ _ (proj1 H1)), (ld_ok _ _ _ _ H2). unfold ret; do 2 f_equal; lia.
    + rewrite (ld_ok _ _ _ _ (proj1 H1)), (ld_ok _ _ _ _ (proj1 H2)). unfold ret.
      destruct (Z.eqb_spec a b); do 2 f_equal; rewrite ?take_0; cbn [str_cmp]; lia.
  - destruct l1 as [|a l1]; cbn [cstr] in H1.
    + rewrite (ld_ok _ _ _ _ H1), Z.eqb_refl.
      destruct l2 as [|b l2]; cbn [cstr] in H2; [|destruct H2 as (H2 & _)];
        rewrite (ld_ok _ _ _ _ H2); unfold ret; cbn [take str_cmp]; do 2 f_equal; lia.
    + destruct H1 as (Ha & Hra & H1). rewrite (ld_ok _ _ _ _ Ha). destruct (Z.eqb_spec a 0); [lia|].
      destruct l2 as [|b l2]; cbn [cstr] in H2.
      * rewrite (ld_ok _ _ _ _ H2). destruct (Z.eqb_spec a 0); [lia|]. unfold ret. cbn [take str_cmp].
        do 2 f_equal; lia.
      * destruct H2 as (Hb & _ & H2). rewrite (ld_ok _ _ _ _ Hb).
        change (take (S (S n)) (a :: l1)) with (a :: take (S n) l1).
        change (take (S (S n)) (b :: l2)) with (b :: take (S n) l2). cbn [str_cmp].
        destruct (Z.eqb_spec a b); [|done]. by apply IH.
Qed.

(** [C18] The functions that read strings: on strings [l] at [p] and [l'] at
    [q] they terminate, leave memory alone and give the length, the bounded
    length, the difference of the first differing bytes (of the first [n] in
    [strncmp]), the first and the last occurrence of a byte (the terminator
    included) or null, the first occurrence of [l'] in [l] or null, the lengths
    of the longest prefixes of [l] inside and outside of the set [l'], and the
    first byte of [l] in the set or null. *)
Theorem string_reads_correct m p q l l' c n :
  0 < p -> 0 < q -> cstr m p l -> cstr m q l' -> 0 <= n ->
  let outside := prefix_len (fun x => Bool.eqb (mem_of l' x) false) l in
  strlen p m = Ok (Z.of_nat (length l), m) /\
  strnlen p n m = Ok (Z.min n (Z.of_nat (length l)), m) /\
  strcmp p q m = Ok (str_cmp l l', m) /\
  strncmp p q n m = Ok (str_cmp (take (Z.to_nat n) l) (take (Z.to_nat n) l'), m) /\
  strchr p c m = Ok (addr_of p (index_of (u8 c) (l ++ [0])), m) /\
  strrchr p c m = Ok (addr_of p (last_index_of (u8 c) (l ++ [0])), m) /\
  strstr p q m = Ok (addr_of p (find_sub l' l), m) /\
  strspn p q m = Ok (Z.of_nat (prefix_len (fun x => Bool.eqb (mem_of l' x) true) l), m) /\
  strcspn p q m = Ok (Z.of_nat outside, m) /\
  strpbrk p q m = Ok (if decide (outside = length l) then NULL else p + Z.of_nat outside, m).
Proof.
  intros Hp0 Hq0 Hp Hq Hn outside. split_and!.
  - by apply strlen_run.
  - unfold strnlen. rewrite (strnlen_loop_spec l) by (by rewrite Z.add_0_r). do 2 f_equal. lia.
  - apply fuelled_run, strcmp_loop_spec; [done|done|by eapply cstr_fuel].
  - unfold strncmp. destruct (Z.eqb_spec n 0) as [->|]; [done|].
    rewrite (strncmp_loop_spec _ l l') by done. by replace (S (Z.to_nat (n - 1))) with (Z.to_nat n) by lia.
  - by apply strchr_run.
  - apply fuelled_run. rewrite (strrchr_loop_spec l) by (done || by eapply cstr_fuel). done.
  - unfold strstr. destruct l' as [|x l']; cbn [cstr] in Hq.
    + rewrite (ld_ok _ _ _ _ Hq), Z.eqb_refl.
      destruct l; cbn [find_sub length take]; rewrite decide_True by done; cbn; by rewrite ?Z.add_0_r.
    + destruct Hq as (Hx & Hr & Hq'). rewrite (ld_ok _ _ _ _ Hx). destruct (Z.eqb_spec x 0); [lia|].
      assert (cstr m q (x :: l')) as Hq by done.
      rewrite (bind_run _ _ _ _ _ (strlen_run _ _ _ Hq)), (bind_run _ _ _ _ _ (strlen_run _ _ _ Hp)).
      destruct (Z.ltb_spec (Z.of_nat (length l)) (Z.of_nat (length (x :: l')))).
      * by rewrite find_sub_short by lia.
      * replace (Z.to_nat _) with (S (length l) - length (x :: l'))%nat by lia.
        rewrite (strstr_loop_spec m q (x :: l') l) by (by rewrite ?Z.add_0_r). by rewrite Z.add_0_r.
  - unfold strspn. rewrite (bind_run _ _ _ _ _ (span_run m q l' true p l Hq0 Hq Hp)).
    unfold ret; do 2 f_equal; lia.
  - unfold strcspn. rewrite (bind_run _ _ _ _ _ (span_run m q l' false p l Hq0 Hq Hp)).
    unfold ret. do 2 f_equal. fold outside. lia.
  - unfold strpbrk. rewrite (bind_run _ _ _ _ _ (span_run m q l' false p l Hq0 Hq Hp)). fold outside.
    destruct (cstr_at m p l outside Hp) as (Hlook & Hle); [apply prefix_len_le|].
    rewrite (ld_ok _ _ _ _ Hlook). unfold ret. do 2 f_equal.
    assert (outside <= length l)%nat by apply prefix_len_le. case_decide as E.
    + by rewrite E, nth_overflow.
    + assert (nth outside l 0 <> 0) as Hnz by (apply Hle; lia). by destruct (Z.eqb_spec (nth outside l 0) 0).
Qed.

(** ** Copies *)

Lemma mapped_insert m p n a c : mapped m p n -> mapped (<[a := c]> m) p n.
Proof. intros H x Hx. rewrite lookup_insert. case_decide; [eauto|by apply H]. Qed.

Lemma mapped_sub m p n q k : mapped m p n -> p <= q -> q + k <= p + n -> mapped m q k.
Proof. intros H H1 H2 a Ha. apply H. lia. Qed.

(** The next byte of a string is copied behind the part already written. *)
Lemma cstr_insert m a c p l :
  ~ (p <= a <= p + Z.of_nat (length l)) -> cstr m p l -> cstr (<[a := c]> m) p l.
Proof. intros Ha. apply cstr_ext. intros x Hx. apply lookup_insert_ne. lia. Qed.

Lemma strcpy_loop_spec l : forall fuel m d s i,
  cstr m (s + i) l -> mapped m (d + i) (Z.of_nat (length l)) -> (length l < fuel)%nat ->
  apart (s + i) (Z.of_nat (length l) + 1) (d + i) (Z.of_nat (length l)) ->
  strcpy_loop fuel d s i m = Ok (i + Z.of_nat (length l), write_bytes (d + i) l m).
Proof.
  unfold apart. induction l as [|c l IH]; intros [|fuel] m d s i H Hm Hf Ha;
    cbn [strcpy_loop cstr length write_bytes] in *; try lia.
  - rewrite (ld_ok _ _ 0) by done. cbn. by rewrite Z.add_0_r.
  - destruct H as (Hc & Hr & H). rewrite (ld_ok _ _ c) by done. destruct (Z.eqb_spec c 0); [lia|].
    rewrite st_ok by (unfold in_width; lia || apply Hm; lia). rewrite <- Z.add_assoc in H.
    rewrite IH; [do 2 f_equal; [lia|f_equal; lia]| | |lia|lia].
    + apply cstr_insert; [lia|done].
    + apply mapped_insert. eapply mapped_sub; [exact Hm|lia|lia].
Qed.

Lemma strncpy_loop_spec n : forall l m d s i,
  cstr m (s + i) l -> mapped m (d + i) (Z.of_nat (length (take n l))) ->
  apart (s + i) (Z.of_nat (length l) + 1) (d + i) (Z.of_nat (length (take n l))) ->
  strncpy_loop n d s i m = Ok (i + Z.of_nat (length (take n l)), write_bytes (d + i) (take n l) m).
Proof.
  unfold apart. induction n as [|n IH]; intros [|c l] m d s i H Hm Ha;
    cbn [strncpy_loop cstr take length write_bytes] in *; try by rewrite Z.add_0_r.
  - rewrite (ld_ok _ _ 0) by done. cbn. by rewrite Z.add_0_r.
  - destruct H as (Hc & Hr & H). rewrite (ld_ok _ _ c) by done. destruct (Z.eqb_spec c 0); [lia|].
    rewrite st_ok by (unfold in_width; lia || apply Hm; lia). rewrite <- Z.add_assoc in H.
    rewrite (IH l); [do 2 f_equal; [lia|f_equal; lia]| | |lia].
    + apply cstr_insert; [lia|done].
    + apply mapped_insert. eapply mapped_sub; [exact Hm|lia|lia].
Qed.

(** The final terminator. *)
Lemma st_end {A} m d l (k : unit -> ST mem A) :
  mapped m d (Z.of_nat (length l) + 1) ->
  bind (st (d + Z.of_nat (length l)) 0) k (write_bytes d l m) = k tt (write_bytes d (l ++ [0]) m).
Proof.
  intros Hm. rewrite st_ok; [by rewrite write_bytes_app| |done].
  apply (write_bytes_mapped _ _ _ _ _ Hm). lia.
Qed.

Lemma cstr_write m d l : Forall (fun c => 0 < c < 256) l -> cstr (write_bytes d (l ++ [0]) m) d l.
Proof.
  intros Hl. apply cstr_bytes. split; [|done]. apply write_bytes_at. apply Forall_app. split.
  - eapply Forall_impl; [exact Hl|]. cbn. unfold in_width. lia.
  - by repeat constructor.
Qed.

Lemma cstr_nonzero m p l : cstr m p l -> Forall (fun c => 0 < c < 256) l.
Proof. by intros [_ ?]%cstr_bytes. Qed.

Lemma cstr_append m d ld l :
  cstr m d ld -> Forall (fun c => 0 < c < 256) l ->
  cstr (write_bytes (d + Z.of_nat (length ld)) (l ++ [0]) m) d (ld ++ l).
Proof.
  intros H Hl. pose proof (cstr_write m (d + Z.of_nat (length ld)) l Hl) as Hw.
  apply cstr_bytes in H as [H Hd], Hw as [Hw _]. apply cstr_bytes.
  split; [|by apply Forall_app]. rewrite <- app_assoc. apply bytes_at_app. split; [|done].
  apply bytes_at_app in H as [H _]. eapply bytes_at_ext; [|exact H].
  intros a Ha. apply write_bytes_out. lia.
Qed.

(** [C19] The functions that copy strings, on a source [l] at [s] and a
    destination [ld] at [d] with enough mapped memory apart from the source:
    [strcpy] writes [l] and its terminator, [strcat] appends them to [ld],
    [strncpy] writes exactly [n] bytes, the first [n] of [l] padded with
    zeros, and [strncat] appends the first [n] bytes of [l] and a terminator. *)
Theorem string_copies_correct m d s l ld n :
  let k := Z.of_nat (length ld + length l) + 1 in
  0 <= n -> cstr m s l -> cstr m d ld -> mapped m d (Z.max n k) ->
  apart s (Z.of_nat (length l) + 1) d (Z.max n k) ->
  let e := d + Z.of_nat (length ld) in
  let ln := take (Z.to_nat n) l in
  strcpy d s m = Ok (d, write_bytes d (l ++ [0]) m) /\ cstr (write_bytes d (l ++ [0]) m) d l /\
  strcat d s m = Ok (d, write_bytes e (l ++ [0]) m) /\
  cstr (write_bytes e (l ++ [0]) m) d (ld ++ l) /\
  strncpy d s n m = Ok (d, write_bytes d (ln ++ repeat 0 (Z.to_nat n - length l)) m) /\
  strncat d s n m = Ok (d, write_bytes e (ln ++ [0]) m) /\
  cstr (write_bytes e (ln ++ [0]) m) d (ld ++ ln).
Proof.
  intros k Hn Hs Hd Hm Ha e ln. subst k. unfold apart in Ha.
  pose proof (cstr_nonzero _ _ _ Hs) as Hnz.
  assert (length ln <= length l)%nat as Hln by (subst ln; rewrite length_take; lia).
  assert (Z.of_nat (length ln) <= n) as Hln' by (subst ln; rewrite length_take; lia).
  assert (Forall (fun c => 0 < c < 256) ln) as Hnz' by by apply Forall_take.
  split_and!.
  - unfold strcpy. erewrite bind_run.
    2: { apply fuelled_run, (strcpy_loop_spec l); rewrite ?Z.add_0_r;
         [done|eapply mapped_sub; [exact Hm|lia|lia]|by eapply cstr_fuel|unfold apart; lia]. }
    rewrite Z.add_0_r, Z.add_0_l, st_end; [done|]. eapply mapped_sub; [exact Hm|lia|lia].
  - by apply cstr_write.
  - unfold strcat. rewrite (bind_run _ _ _ _ _ (strlen_run _ _ _ Hd)). fold e. erewrite bind_run.
    2: { apply fuelled_run, (strcpy_loop_spec l); rewrite ?Z.add_0_r; subst e;
         [done|eapply mapped_sub; [exact Hm|lia|lia]|by eapply cstr_fuel|unfold apart; lia]. }
    rewrite Z.add_0_r, Z.add_0_l, st_end; [done|]. eapply mapped_sub; [exact Hm|lia|lia].
  - by apply cstr_append.
  - unfold strncpy. erewrite bind_run.
    2: { apply (strncpy_loop_spec _ l); rewrite ?Z.add_0_r; fold ln;
         [done|eapply mapped_sub; [exact Hm|lia|lia]|unfold apart; lia]. }
    fold ln. rewrite Z.add_0_l, Z.add_0_r, write_bytes_app.
    assert (Z.to_nat (n - Z.of_nat (length ln)) = (Z.to_nat n - length l)%nat) as ->
      by (subst ln; rewrite length_take; lia).
    erewrite bind_run; [done|]. apply memset_loop_spec; [done|].
    apply write_bytes_mapped. subst ln. rewrite length_take in *. eapply mapped_sub; [exact Hm|lia|lia].
  - unfold strncat. rewrite (bind_run _ _ _ _ _ (strlen_run _ _ _ Hd)). fold e. erewrite bind_run.
    2: { apply (strncpy_loop_spec _ l); rewrite ?Z.add_0_r; fold ln; subst e;
         [done|eapply mapped_sub; [exact Hm|lia|lia]|unfold apart; lia]. }
    fold ln. rewrite Z.add_0_r, Z.add_0_l, st_end; [done|]. subst e. eapply mapped_sub; [exact Hm|lia|lia].
  - by apply cstr_append.
Qed.

(** ** Tokens *)

Lemma prefix_len_ext P P' l : (forall c, P c = P' c) -> prefix_len P l = prefix_len P' l.
Proof. intros H. induction l as [|c l IH]; cbn; [done|]. by rewrite H, IH. Qed.

Lemma cstr_drop m p l k : (k <= length l)%nat -> cstr m p l -> cstr m (p + Z.of_nat k) (drop k l).
Proof.
  revert p k. induction l as [|c l IH]; intros p [|k] Hk H; cbn [length drop] in *; try lia;
    rewrite ?Z.add_0_r; try done.
  destruct H as (_ & _ & H). replace (p + Z.of_nat (S k)) with (p + 1 + Z.of_nat k) by lia.
  apply IH; [lia|done].
Qed.

(** Writing a zero into a string ends it there. *)
Lemma cstr_cut m p l k :
  (k < length l)%nat -> cstr m p l -> cstr (<[p + Z.of_nat k := 0]> m) p (take k l).
Proof.
  intros Hk H. pose proof (cstr_nonzero _ _ _ H) as Hnz. apply cstr_bytes.
  split; [|by apply Forall_take]. apply bytes_at_app. split.
  - eapply bytes_at_ext; [|apply cstr_prefix; [|exact H]; lia].
    intros a. rewrite length_take. intros Ha. apply lookup_insert_ne. lia.
  - rewrite length_take, Nat.min_l by lia. cbn. rewrite lookup_insert_eq. by split_and!.
Qed.

Lemma on_mem_run {A} (f : ST mem A) m last a m' :
  f m = Ok (a, m') -> on_mem f (TokSt m last) = Ok (a, TokSt m' last).
Proof. intros H. unfold on_mem, lift. cbn [tmem]. by rewrite H. Qed.

(** One token, the scan starting at [p]. *)
Lemma strtok_step m q set p l str last :
  0 < p -> 0 < q -> cstr m p l -> cstr m q set -> (str = p \/ str = NULL /\ last = p) ->
  let D := mem_of set in
  let k := prefix_len D l in
  let rest := drop k l in
  let n := prefix_len (fun c => negb (D c)) rest in
  strtok str q (TokSt m last) =
    if decide (rest = []) then Ok (NULL, TokSt m NULL)
    else Ok (p + Z.of_nat k, if decide (n = length rest) then TokSt m NULL
       else TokSt (<[p + Z.of_nat k + Z.of_nat n := 0]> m) (p + Z.of_nat k + Z.of_nat n + 1)).
Proof.
  intros Hp0 Hq0 Hp Hq Hstr D k rest n. unfold strtok.
  assert (bind (if negb (str =? NULL) then set_last str else ret tt)
    (fun _ => gets tok_last) (TokSt m last) = Ok (p, TokSt m p)) as E0.
  { destruct Hstr as [->|[-> ->]]; [|done].
    destruct (Z.eqb_spec p NULL); [unfold NULL in *; lia|done]. }
  rewrite <- bind_assoc. rewrite (bind_run _ _ _ _ _ E0).
  destruct (Z.eqb_spec p NULL); [unfold NULL in *; lia|].
  pose proof (span_run m q set true p l Hq0 Hq Hp) as E1.
  rewrite (prefix_len_ext _ D) in E1 by (intros c; unfold D; by destruct (mem_of set c)). fold k in E1.
  rewrite (bind_run _ _ _ _ _ (on_mem_run _ _ p _ _ E1)).
  assert (k <= length l)%nat as Hk by apply prefix_len_le.
  pose proof (cstr_drop m p l k Hk Hp) as Hrest. fold rest in Hrest.
  assert (Hld : forall a c, m !! a = Some c -> on_mem (ld a) (TokSt m p) = Ok (c, TokSt m p)).
  { intros a c Hc. apply on_mem_run. unfold ld, load. by rewrite Hc. }
  destruct (cstr_at m (p + Z.of_nat k) rest 0 Hrest ltac:(lia)) as [Hhead Hnz]. rewrite Z.add_0_r in Hhead.
  rewrite (bind_run _ _ _ _ _ (Hld _ _ Hhead)).
  destruct (decide (rest = [])) as [E|Hne]; [by rewrite E|].
  assert (0 < length rest)%nat as Hlen by (destruct rest; [done|cbn; lia]).
  destruct (Z.eqb_spec (nth 0 rest 0) 0) as [E|_]; [by apply Hnz in Hlen|]. cbn zeta.
  pose proof (span_run m q set false (p + Z.of_nat k) rest Hq0 Hq Hrest) as E2.
  rewrite (prefix_len_ext _ (fun c => negb (D c))) in E2
    by (intros c; unfold D; by destruct (mem_of set c)). fold n in E2.
  rewrite (bind_run _ _ _ _ _ (on_mem_run _ _ p _ _ E2)).
  assert (n <= length rest)%nat as Hn by apply prefix_len_le.
  destruct (cstr_at m (p + Z.of_nat k) rest n Hrest Hn) as [Hend Hnz'].
  rewrite (bind_run _ _ _ _ _ (Hld _ _ Hend)). destruct (decide (n = length rest)) as [E|Hlt].
  - by rewrite nth_overflow by lia.
  - destruct (Z.eqb_spec (nth n rest 0) 0) as [E|_]; [exfalso; apply Hnz'; [lia|done]|]. cbn [negb].
    rewrite bind_assoc.
    rewrite (bind_run _ _ _ tt (TokSt (<[p + Z.of_nat k + Z.of_nat n := 0]> m) p)); [done|].
    apply on_mem_run. unfold st, store. by rewrite Hend.
Qed.

Lemma words_nil fuel D p : words fuel D p [] = [].
Proof. by destruct fuel. Qed.

Lemma strtok_all_spec q set fuel : forall m p l str last,
  0 < p -> 0 < q -> cstr m p l -> cstr m q set -> (str = p \/ str = NULL /\ last = p) ->
  apart p (Z.of_nat (length l) + 1) q (Z.of_nat (length set) + 1) -> (length l < fuel)%nat ->
  exists m', strtok_all fuel str q (TokSt m last) =
      Ok (fst <$> words fuel (mem_of set) p l, TokSt m' NULL) /\
    (forall a w, (a, w) ∈ words fuel (mem_of set) p l -> cstr m' a w) /\
    (forall a, ~ (p <= a < p + Z.of_nat (length l)) -> m' !! a = m !! a).
Proof.
  unfold apart. induction fuel as [|fuel IH]; intros m p l str last Hp0 Hq0 Hp Hq Hstr Ha Hf; [lia|].
  pose proof (strtok_step m q set p l str last Hp0 Hq0 Hp Hq Hstr) as Hs. cbn zeta in Hs.
  cbn [strtok_all words]. set (D := mem_of set) in *. set (k := prefix_len D l) in *.
  assert (k <= length l)%nat as Hk by apply prefix_len_le.
  pose proof (cstr_drop m p l k Hk Hp) as Hrest. pose proof (length_drop l k) as Hld.
  set (rest := drop k l) in *. set (n := prefix_len (fun c => negb (D c)) rest) in *.
  assert (n <= length rest)%nat as Hn by apply prefix_len_le.
  destruct (decide (rest = [])) as [E|Hne].
  { rewrite (bind_run _ _ _ _ _ Hs), Z.eqb_refl. exists m. rewrite E.
    split; [done|]. split; [intros a w Hin; by apply not_elem_of_nil in Hin|done]. }
  rewrite (bind_run _ _ _ _ _ Hs). destruct (Z.eqb_spec (p + Z.of_nat k) NULL); [unfold NULL in *; lia|].
  assert (0 < length rest)%nat as Hlen by (destruct rest; [done|cbn; lia]).
  set (W := words fuel D (p + Z.of_nat k + Z.of_nat n + 1) (drop (S n) rest)).
  assert (Hm : match rest with [] => [] | _ :: _ => (p + Z.of_nat k, take n rest) :: W end =
    (p + Z.of_nat k, take n rest) :: W) by (by destruct rest). rewrite Hm.
  destruct (decide (n = length rest)) as [En|Hlt].
  - assert (W = []) as -> by (subst W; rewrite drop_ge by lia; apply words_nil).
    destruct fuel as [|fuel]; [lia|]. exists m. split; [done|]. split; [|done].
    intros a w [= -> ->]%list_elem_of_singleton. by rewrite En, take_ge by done.
  - set (e := p + Z.of_nat k + Z.of_nat n) in *. set (m1 := <[e := 0]> m).
    assert (cstr m1 (e + 1) (drop (S n) rest)) as H1.
    { pose proof (cstr_drop m _ rest (S n) ltac:(lia) Hrest) as H.
      replace (p + Z.of_nat k + Z.of_nat (S n)) with (e + 1) in H by lia.
      apply cstr_insert; [lia|done]. }
    assert (length (drop (S n) rest) = length rest - S n)%nat as Hl2 by apply length_drop.
    destruct (IH m1 (e + 1) (drop (S n) rest) NULL (e + 1)) as (m' & Hr & Hw & Hout);
      [lia|lia|done|apply cstr_insert; [lia|done]|by right|lia|lia|].
    fold W in Hr, Hw. rewrite (bind_run _ _ _ _ _ Hr). exists m'. split; [done|]. split.
    + intros a w [[= -> ->]|Hin]%elem_of_cons; [|by apply Hw].
      eapply cstr_ext; [|by apply (cstr_cut m _ rest n ltac:(lia))]. fold e. intros a Hin.
      rewrite length_take in Hin. apply Hout. lia.
    + intros a Hnin. rewrite Hout by lia. apply lookup_insert_ne. lia.
Qed.

(** The words are not empty and hold no delimiter. *)
Lemma take_prefix_len P l : Forall (fun c => P c = true) (take (prefix_len P l) l).
Proof. induction l as [|c l IH]; cbn; [constructor|]. destruct (P c) eqn:E; by repeat constructor. Qed.

Lemma drop_prefix_len P l x rest : drop (prefix_len P l) l = x :: rest -> P x = false.
Proof.
  induction l as [|c l IH]; cbn; [done|]. destruct (P c) eqn:E; [exact IH|].
  intros [= -> ->]. done.
Qed.

Lemma words_inside set fuel : forall p l a w,
  (a, w) ∈ words fuel (mem_of set) p l -> w <> [] /\ Forall (fun c => c ∉ set) w.
Proof.
  induction fuel as [|fuel IH]; intros p l a w; cbn [words]; [intros H; by apply not_elem_of_nil in H|].
  destruct (drop (prefix_len (mem_of set) l) l) as [|x rest] eqn:E; [intros H; by apply not_elem_of_nil in H|].
  apply drop_prefix_len in E. intros [[= -> ->]|Hin]%elem_of_cons; [|by apply IH in Hin].
  cbn [prefix_len]. rewrite E. cbn [negb take]. split; [done|].
  unfold mem_of in E. apply bool_decide_eq_false in E. constructor; [done|].
  eapply Forall_impl; [apply take_prefix_len|]. cbn. intros c Hc.
  apply negb_true_iff in Hc. by apply bool_decide_eq_false in Hc.
Qed.

(** [C20] Calling [strtok] on a string and then on null until it returns null
    gives, in order, the maximal runs of bytes outside the delimiter set, each
    left as a terminated string in place; only bytes of the string are
    written, and a further call returns null again. *)
Theorem strtok_correct m p q l set last :
  0 < p -> 0 < q -> cstr m p l -> cstr m q set ->
  apart p (Z.of_nat (length l) + 1) q (Z.of_nat (length set) + 1) ->
  let W := words (S (length l)) (mem_of set) p l in
  exists m', strtok_all (S (length l)) p q (TokSt m last) = Ok (fst <$> W, TokSt m' NULL) /\
    (forall a w, (a, w) ∈ W -> cstr m' a w /\ w <> [] /\ Forall (fun c => c ∉ set) w) /\
    (forall a, ~ (p <= a < p + Z.of_nat (length l)) -> m' !! a = m !! a) /\
    strtok NULL q (TokSt m' NULL) = Ok (NULL, TokSt m' NULL).
Proof.
  intros Hp0 Hq0 Hp Hq Ha W.
  destruct (strtok_all_spec q set (S (length l)) m p l p last) as (m' & Hr & Hw & Hout);
    [done|done|done|done|by left|done|lia|].
  exists m'. split; [done|]. split; [|by split]. intros a w Hin. split; [by apply Hw|].
  by apply words_inside in Hin.
Qed.

(** ** Witnesses *)

(** The string [",ab,c"] at 100, the string [","] at 200, and 16 mapped bytes
    from 300 on that hold an empty string. *)
Definition sample_mem : mem :=
  write_bytes 300 (repeat 0 16) (write_bytes 200 [44; 0] (write_bytes 100 [44; 97; 98; 44; 99; 0] ∅)).

Lemma sample_text : cstr sample_mem 100 [44; 97; 98; 44; 99].
Proof. vm_compute. repeat split; try reflexivity; discriminate. Qed.

Lemma sample_delim : cstr sample_mem 200 [44].
Proof. vm_compute. repeat split; try reflexivity; discriminate. Qed.

Lemma sample_room : mapped sample_mem 300 16.
Proof.
  assert (Forall (fun a => is_Some (sample_mem !! a)) (seqZ 300 16)) as H.
  { vm_compute. repeat constructor; eexists; reflexivity. }
  rewrite Forall_forall in H. intros a Ha. apply H, elem_of_seqZ. lia.
Qed.

Lemma block_functions_correct_witness :
  exists m, let n := Z.of_nat (length [97; 98; 44]) in
  memmove 102 101 n m = Ok (102, write_bytes 102 [97; 98; 44] m) /\
  (102 <= 101 \/ 101 + n <= 102 -> memcpy 102 101 n m = Ok (102, write_bytes 102 [97; 98; 44] m)) /\
  memset 102 300 n m = Ok (102, write_bytes 102 (repeat (u8 300) 3) m) /\
  memcmp 101 102 n m = Ok (str_cmp [97; 98; 44] [98; 44; 99], m) /\
  memchr 101 300 n m = Ok (addr_of 101 (index_of (u8 300) [97; 98; 44]), m).
Proof.
  exists sample_mem. apply (block_functions_correct sample_mem 102 101 300 [97; 98; 44] [98; 44; 99]).
  - vm_compute. repeat split; try reflexivity; discriminate.
  - vm_compute. repeat split; try reflexivity; discriminate.
  - reflexivity.
Defined.

Lemma string_reads_correct_witness :
  exists m l l', strstr 100 200 m = Ok (addr_of 100 (find_sub l' l), m) /\ l' = [44] /\
  strlen 100 m = Ok (Z.of_nat (length l), m).
Proof.
  exists sample_mem, [44; 97; 98; 44; 99], [44].
  destruct (string_reads_correct sample_mem 100 200 [44; 97; 98; 44; 99] [44] 99 3)
    as (H1 & _ & _ & _ & _ & _ & H7 & _);
    [reflexivity|reflexivity|exact sample_text|exact sample_delim|discriminate|].
  split; [exact H7|]. split; [reflexivity|exact H1].
Defined.

Lemma string_copies_correct_witness :
  exists m, strcpy 300 100 m = Ok (300, write_bytes 300 ([44; 97; 98; 44; 99] ++ [0]) m).
Proof.
  exists sample_mem.
  destruct (string_copies_correct sample_mem 300 100 [44; 97; 98; 44; 99] [] 9) as (H & _).
  - discriminate.
  - exact sample_text.
  - vm_compute. reflexivity.
  - eapply mapped_sub; [exact sample_room|discriminate|vm_compute; discriminate].
  - left. vm_compute. discriminate.
  - exact H.
Defined.

Lemma strtok_correct_witness :
  exists m', strtok_all 6 100 200 (TokSt sample_mem 0) = Ok ([101; 104], TokSt m' NULL) /\
    cstr m' 101 [97; 98] /\ cstr m' 104 [99].
Proof.
  destruct (strtok_correct sample_mem 100 200 [44; 97; 98; 44; 99] [44] 0) as (m' & H1 & H2 & _);
    [reflexivity|reflexivity|exact sample_text|exact sample_delim|left; vm_compute; discriminate|].
  assert (words (S (length [44; 97; 98; 44; 99])) (mem_of [44]) 100 [44; 97; 98; 44; 99] =
    [(101, [97; 98]); (104, [99])]) as E by (vm_compute; reflexivity).
  rewrite E in H1, H2. exists m'. split; [exact H1|].
  split; apply H2; [left|right; left].
Defined.
