(* ===== verification/Alloc.v ===== *)
(** The interface of [kmalloc] and [kfree] to the components that keep their
    nodes in dynamic memory: [own a X] says that in state [a] the live objects
    are [X].  An allocation may always fail. *)

From stdpp Require Import gmultiset.
From S2P Require Import Prelude.

Class KAlloc (A : Type) := {
  ka_alloc : Z -> ST A Z;
  ka_free : Z -> ST A unit
}.

Class KAllocOk (A : Type) `{KAlloc A} (own : A -> gset Z -> Prop) : Prop := {
  ka_alloc_ok a X n :
    own a X ->
    wp False (ka_alloc n)
      (fun p a' => (p = NULL /\ own a' X) \/ (0 < p /\ p ∉ X /\ own a' ({[p]} ∪ X))) a;
  ka_free_ok a X p :
    own a X -> p ∈ X -> wp False (ka_free p) (fun _ a' => own a' (X ∖ {[p]})) a
}.

(** ** An instance

    Addresses are handed out in increasing order; [budget] allocations
    succeed. *)

Record bump := Bump { next : Z; budget : nat; live : gset Z }.

Definition bump_alloc (n : Z) : ST bump Z :=
  let! b := get in
  match budget b with
  | O => ret NULL
  | S k =>
      do! modify (fun _ => Bump (next b + Z.max 1 n) k ({[next b]} ∪ live b)) in
      ret (next b)
  end.

(** Freeing what is not live is an error of the client. *)
Definition bump_free (p : Z) : ST bump unit :=
  store (fun b => if decide (p ∈ live b) then Some (Bump (next b) (budget b) (live b ∖ {[p]})) else None).

Definition bump_own (b : bump) (X : gset Z) : Prop :=
  live b = X /\ 0 < next b /\ forall x, x ∈ X -> x < next b.

#[global] Instance bump_kalloc : KAlloc bump := { ka_alloc := bump_alloc; ka_free := bump_free }.

#[global] Instance bump_kalloc_ok : KAllocOk bump bump_own.
Proof.
  split.
  - intros b X n (<- & Hn & HX). cbn. unfold bump_alloc. apply wp_bind, wp_gets. destruct (budget b) eqn:E.
    + apply wp_ret. left. by split_and!.
    + apply wp_bind, wp_modify, wp_ret. right. split; [done|]. split.
      * intros Hin. apply HX in Hin. lia.
      * split; [done|]. cbn. split; [lia|].
        intros x [->%elem_of_singleton|Hx]%elem_of_union; [lia|]. apply HX in Hx. lia.
  - intros b X p (<- & Hn & HX) Hp. cbn. eapply wp_store; [by rewrite decide_True|].
    split; [done|]. split; [done|]. cbn. intros x Hx. apply HX. set_solver.
Qed.

(** An allocation with both outcomes, and a release. *)
Section wp.
Context {A : Type} `{KAlloc A} {own : A -> gset Z -> Prop} {HOk : KAllocOk A own}.

Lemma wp_ka_alloc a X n (Q : Z -> A -> Prop) :
  own a X -> (forall a', own a' X -> Q NULL a') ->
  (forall p a', 0 < p -> p ∉ X -> own a' ({[p]} ∪ X) -> Q p a') -> wp False (ka_alloc n) Q a.
Proof.
  intros Ho H1 H2. eapply wp_mono; [by apply ka_alloc_ok|done|].
  intros p a' [[-> ?]|(? & ? & ?)]; auto.
Qed.

Lemma wp_ka_free a X p (Q : unit -> A -> Prop) :
  own a X -> p ∈ X -> (forall a', own a' (X ∖ {[p]}) -> Q tt a') -> wp False (ka_free p) Q a.
Proof.
  intros Ho Hp HQ. eapply wp_mono; [by eapply ka_free_ok|done|]. intros [] a' Ha. by apply HQ.
Qed.

(** The live objects as a multiset without repetitions, so that a structure
    owns the sum of the addresses of its parts. *)
Definition owns (a : A) (X : gmultiset Z) : Prop :=
  (forall x, multiplicity x X <= 1)%nat /\ own a (dom X).

Lemma wp_owns_alloc a X n (Q : Z -> A -> Prop) :
  owns a X -> (forall a', owns a' X -> Q NULL a') ->
  (forall p a', 0 < p -> owns a' ({[+ p +]} ⊎ X) -> Q p a') -> wp False (ka_alloc n) Q a.
Proof.
  intros [Hm Ho] H1 H2. eapply wp_ka_alloc; [exact Ho|intros a' Ha; apply H1; by split|].
  intros p a' Hp Hfresh Ha. apply H2; [done|]. split.
  - intros x. rewrite gmultiset_elem_of_dom, elem_of_multiplicity in Hfresh. specialize (Hm x).
    rewrite multiplicity_disj_union, multiplicity_singleton. case_decide; [subst x|]; lia.
  - replace (dom ({[+ p +]} ⊎ X)) with ({[p]} ∪ dom X); [done|]. apply set_eq. intros x.
    rewrite elem_of_union, !gmultiset_elem_of_dom, elem_of_singleton. multiset_solver.
Qed.

Lemma wp_owns_free a X p (Q : unit -> A -> Prop) :
  owns a ({[+ p +]} ⊎ X) -> (forall a', owns a' X -> Q tt a') -> wp False (ka_free p) Q a.
Proof.
  intros [Hm Ho] HQ. eapply wp_ka_free; [exact Ho| |].
  { rewrite gmultiset_elem_of_dom. multiset_solver. }
  intros a' Ha. apply HQ. split.
  - intros x. specialize (Hm x). rewrite multiplicity_disj_union in Hm. lia.
  - replace (dom X) with (dom ({[+ p +]} ⊎ X) ∖ {[p]}); [done|]. apply set_eq. intros x.
    rewrite elem_of_difference, !gmultiset_elem_of_dom, elem_of_singleton.
    specialize (Hm x). rewrite !elem_of_multiplicity, multiplicity_disj_union in *.
    rewrite multiplicity_singleton in *. case_decide; [subst x|].
    + split; [intros []; done|intros; lia].
    + split; [intros []; lia|intros; split; [lia|done]].
Qed.

End wp.
Arguments owns {A} own a X.

(** ** Blocks with their sizes

    The same interface for clients that rely on the blocks being disjoint:
    [own a X] says that the live blocks are the [X !! p] bytes at each [p]. *)

Definition apart_from (p n : Z) (X : gmap Z Z) : Prop :=
  X !! p = None /\ forall q k, X !! q = Some k -> p + n <= q \/ q + k <= p.

Class KBlocks (A : Type) `{KAlloc A} (own : A -> gmap Z Z -> Prop) : Prop := {
  kb_alloc a X n :
    0 < n -> own a X ->
    wp False (ka_alloc n)
      (fun p a' => (p = NULL /\ own a' X) \/ (0 < p /\ apart_from p n X /\ own a' (<[p := n]> X))) a;
  kb_free a X p :
    own a X -> is_Some (X !! p) -> wp False (ka_free p) (fun _ a' => own a' (delete p X)) a;
  kb_pos a X p : own a X -> is_Some (X !! p) -> 0 < p
}.

Definition bump_blocks (b : bump) (X : gmap Z Z) : Prop :=
  live b = dom X /\ 0 < next b /\ forall p n, X !! p = Some n -> 0 < p /\ p + n <= next b /\ p < next b.

#[global] Instance bump_kblocks : KBlocks bump bump_blocks.
Proof.
  split.
  - intros b X n Hn (Hl & Hb & HX). cbn. unfold bump_alloc. apply wp_bind, wp_gets. destruct (budget b) eqn:E.
    + apply wp_ret. left. by split_and!.
    + apply wp_bind, wp_modify, wp_ret. right. split; [done|].
      assert (X !! next b = None) as Hf.
      { destruct (X !! next b) eqn:E'; [|done]. apply HX in E'. lia. }
      split; [split; [done|]; intros q k Hq; apply HX in Hq; lia|].
      split; [|split]; cbn; [by rewrite dom_insert_L, Hl|lia|].
      intros p m [[<- <-]|[_ Hp]]%lookup_insert_Some; [lia|]. apply HX in Hp. lia.
  - intros b X p (Hl & Hb & HX) Hp. cbn. eapply wp_store; [rewrite decide_True; [done|]|].
    { rewrite Hl. by apply elem_of_dom. }
    split; [|split]; cbn; [by rewrite dom_delete_L, Hl|done|].
    intros q m [_ Hq]%lookup_delete_Some. by apply HX.
  - intros b X p (_ & _ & HX) [n Hn]. apply HX in Hn. lia.
Qed.

Section blocks.
Context {A : Type} `{KAlloc A} {own : A -> gmap Z Z -> Prop} {HB : KBlocks A own}.

Lemma wp_kb_alloc a X n (Q : Z -> A -> Prop) :
  own a X -> 0 < n -> (forall a', own a' X -> Q NULL a') ->
  (forall p a', 0 < p -> apart_from p n X -> own a' (<[p := n]> X) -> Q p a') -> wp False (ka_alloc n) Q a.
Proof.
  intros Ho Hn H1 H2. eapply wp_mono; [by apply kb_alloc|done|].
  intros p a' [[-> ?]|(? & ? & ?)]; auto.
Qed.

(** Freeing the block that was allocated last. *)
Lemma wp_kb_free a X p n (Q : unit -> A -> Prop) :
  own a (<[p := n]> X) -> X !! p = None -> (forall a', own a' X -> Q tt a') -> wp False (ka_free p) Q a.
Proof.
  intros Ho Hp HQ. eapply wp_mono; [eapply kb_free; [exact Ho|rewrite lookup_insert_eq; by eexists]|done|].
  intros [] a' Ha. rewrite delete_insert_id in Ha by done. by apply HQ.
Qed.

End blocks.
