(* ===== verification/Hashtable.v ===== *)
(** The hash table, [src/misc/hashtable.c] and [include/misc/hashtable.h].

    The state holds the buckets as lists of node addresses (the pointer-level
    lists are those of [ListHead]), the members of every live node, and the
    allocator behind [KAlloc]. *)

From S2P Require Import Prelude Bits ListHead Alloc.

Record hash_node := HNode { key : Z; value : Z }.

Record hashtable (A : Type) := Ht {
  ht_base : Z;                       (* the address of the bucket array *)
  buckets : gmap Z (list Z);         (* index -> node addresses *)
  ht_size : Z;
  count : Z;
  nodes : gmap Z hash_node;
  ht_alloc : A
}.
Arguments Ht {A}.
Arguments ht_base {A}.
Arguments buckets {A}.
Arguments ht_size {A}.
Arguments count {A}.
Arguments nodes {A}.
Arguments ht_alloc {A}.

(** FNV-1a over the eight bytes of a pointer. *)
Fixpoint hash_bytes (n : nat) (hash k : Z) : Z :=
  match n with
  | O => hash
  | S n => hash_bytes n (u32 (Z.lxor hash (Z.land k 0xFF) * 0x01000193)) (Z.shiftr k 8)
  end.

Definition hash_ptr (k size : Z) : Z := Z.land (hash_bytes 8 0x811C9DC5 k) (u64 (size - 1)).

(** [sizeof(struct list_head)] and [sizeof(struct hash_node)]. *)
Definition sizeof_list_head : Z := 16.
Definition sizeof_hash_node : Z := 32.

Section hashtable.
Context {A : Type} `{KAlloc A}.
Implicit Types s : hashtable A.

Definition set_base x s : hashtable A := Ht x (buckets s) (ht_size s) (count s) (nodes s) (ht_alloc s).
Definition set_buckets x s : hashtable A := Ht (ht_base s) x (ht_size s) (count s) (nodes s) (ht_alloc s).
Definition set_size x s : hashtable A := Ht (ht_base s) (buckets s) x (count s) (nodes s) (ht_alloc s).
Definition set_count x s : hashtable A := Ht (ht_base s) (buckets s) (ht_size s) x (nodes s) (ht_alloc s).
Definition set_nodes x s : hashtable A := Ht (ht_base s) (buckets s) (ht_size s) (count s) x (ht_alloc s).
Definition set_ht_alloc x s : hashtable A := Ht (ht_base s) (buckets s) (ht_size s) (count s) (nodes s) x.

Definition ht_kmalloc (n : Z) : ST (hashtable A) Z := lift ht_alloc set_ht_alloc (ka_alloc n).
Definition ht_kfree (p : Z) : ST (hashtable A) unit := lift ht_alloc set_ht_alloc (ka_free p).

(** [kcalloc]; the zeros are overwritten by the list heads. *)
Definition ht_kcalloc (nitems size : Z) : ST (hashtable A) Z :=
  if negb (nitems =? 0) && ((2 ^ 64 - 1) / nitems <? size) then ret NULL
  else ht_kmalloc (u64 (nitems * size)).

Definition get_bucket (i : Z) : ST (hashtable A) (list Z) := load (fun s => buckets s !! i).
Definition upd_bucket (i : Z) (f : list Z -> list Z) : ST (hashtable A) unit :=
  store (fun s => l ← buckets s !! i; Some (set_buckets (<[i := f l]> (buckets s)) s)).
Definition get_node (p : Z) : ST (hashtable A) hash_node := load (fun s => nodes s !! p).
Definition set_node (p : Z) (n : hash_node) : ST (hashtable A) unit :=
  modify (fun s => set_nodes (<[p := n]> (nodes s)) s).

(** [kfree] of a node ends its life. *)
Definition free_node (p : Z) : ST (hashtable A) unit :=
  do! ht_kfree p in modify (fun s => set_nodes (delete p (nodes s)) s).

Definition hashtable_init (size : Z) : ST (hashtable A) Z :=
  if (size =? 0) || negb (Z.land size (u64 (size - 1)) =? 0) then ret (- EINVAL) else
  let! b := ht_kcalloc size sizeof_list_head in
  do! modify (set_base b) in
  if b =? NULL then ret (- ENOMEM) else
  do! for_up (Z.to_nat size) 0 (fun i => modify (fun s => set_buckets (<[i := []]> (buckets s)) s)) in
  do! modify (set_size size) in
  do! modify (set_count 0) in
  ret 0.

(** [list_for_each_entry] up to the node with the key. *)
Fixpoint find_node (l : list Z) (k : Z) : ST (hashtable A) (option Z) :=
  match l with
  | [] => ret None
  | p :: l => let! n := get_node p in if key n =? k then ret (Some p) else find_node l k
  end.

Definition hashtable_insert (k v : Z) : ST (hashtable A) Z :=
  let! size := gets ht_size in
  let idx := hash_ptr k size in
  let! l := get_bucket idx in
  let! f := find_node l k in
  match f with
  | Some p => do! set_node p (HNode k v) in ret 0
  | None =>
      let! p := ht_kmalloc sizeof_hash_node in
      if p =? NULL then ret (- ENOMEM) else
      do! set_node p (HNode k v) in
      do! upd_bucket idx (AList.list_add p) in
      do! modify (fun s => set_count (u64 (count s + 1)) s) in
      ret 0
  end.

Definition hashtable_lookup (k : Z) : ST (hashtable A) Z :=
  let! size := gets ht_size in
  let! l := get_bucket (hash_ptr k size) in
  let! f := find_node l k in
  match f with
  | Some p => let! n := get_node p in ret (value n)
  | None => ret NULL
  end.

Definition hashtable_delete (k : Z) : ST (hashtable A) Z :=
  let! size := gets ht_size in
  let idx := hash_ptr k size in
  let! l := get_bucket idx in
  let! f := find_node l k in
  match f with
  | Some p =>
      let! n := get_node p in
      do! upd_bucket idx (AList.list_del p) in
      do! free_node p in
      do! modify (fun s => set_count (u64 (count s - 1)) s) in
      ret (value n)
  | None => ret NULL
  end.

(** The inner loop of [hashtable_destroy] over the nodes [l] of bucket [i]. *)
Fixpoint destroy_bucket (l : list Z) (i : Z) : ST (hashtable A) unit :=
  match l with
  | [] => ret tt
  | p :: l => do! upd_bucket i (AList.list_del p) in do! free_node p in destroy_bucket l i
  end.

Definition hashtable_destroy : ST (hashtable A) unit :=
  let! size := gets ht_size in
  do! for_up (Z.to_nat size) 0 (fun i => let! l := get_bucket i in destroy_bucket l i) in
  let! b := gets ht_base in
  do! ht_kfree b in
  do! modify (set_base NULL) in
  do! modify (set_size 0) in
  modify (set_count 0).

End hashtable.

(** ** Clients *)

Inductive hop := HInsert (k v : Z) | HLookup (k : Z) | HDelete (k : Z).

Definition run_hop {A} `{KAlloc A} (o : hop) : ST (hashtable A) Z :=
  match o with
  | HInsert k v => hashtable_insert k v
  | HLookup k => hashtable_lookup k
  | HDelete k => hashtable_delete k
  end.

Fixpoint run_hops {A} `{KAlloc A} (l : list hop) : ST (hashtable A) (list Z) :=
  match l with
  | [] => ret []
  | o :: l => let! r := run_hop o in let! rs := run_hops l in ret (r :: rs)
  end.

(** The life of a table: initialisation, operations, destruction. *)
Definition session {A} `{KAlloc A} (size : Z) (l : list hop) : ST (hashtable A) (Z * list Z) :=
  let! r := hashtable_init size in
  if negb (r =? 0) then ret (r, []) else
  let! rs := run_hops l in
  do! hashtable_destroy in
  ret (r, rs).

(** The operations on a finite map; an insertion of a new key may fail. *)
Inductive hop_spec : gmap Z Z -> hop -> Z -> gmap Z Z -> Prop :=
  | hop_insert m k v : hop_spec m (HInsert k v) 0 (<[k := v]> m)
  | hop_nomem m k v : m !! k = None -> hop_spec m (HInsert k v) (- ENOMEM) m
  | hop_lookup m k : hop_spec m (HLookup k) (default NULL (m !! k)) m
  | hop_delete m k : hop_spec m (HDelete k) (default NULL (m !! k)) (delete k m).

Inductive hops_spec : gmap Z Z -> list hop -> list Z -> gmap Z Z -> Prop :=
  | hops_nil m : hops_spec m [] [] m
  | hops_cons m o r m1 l rs m2 :
      hop_spec m o r m1 -> hops_spec m1 l rs m2 -> hops_spec m (o :: l) (r :: rs) m2.

Definition empty_table {A} (a : A) : hashtable A := Ht NULL ∅ 0 0 ∅ a.

(** ** Representation of a finite map *)

Section proof.
Context {A : Type} `{KAlloc A} {own : A -> gset Z -> Prop} {HOk : KAllocOk A own}.
Implicit Types s : hashtable A.

Record ht_rep s (m : gmap Z Z) : Prop := {
  hr_size : exists k, 0 <= k < 64 /\ ht_size s = 2 ^ k;
  hr_buckets i : is_Some (buckets s !! i) <-> 0 <= i < ht_size s;
  hr_nodes i l p : buckets s !! i = Some l -> p ∈ l ->
    exists n, nodes s !! p = Some n /\ hash_ptr (key n) (ht_size s) = i;
  hr_nodup i l : buckets s !! i = Some l -> NoDup l;
  hr_listed p n : nodes s !! p = Some n ->
    exists l, buckets s !! hash_ptr (key n) (ht_size s) = Some l /\ p ∈ l;
  hr_inj p p' n n' : nodes s !! p = Some n -> nodes s !! p' = Some n' -> key n = key n' -> p = p';
  hr_map k v : m !! k = Some v <-> exists p, nodes s !! p = Some (HNode k v);
  hr_count : count s = u64 (Z.of_nat (size m));
  hr_own : own (ht_alloc s) ({[ht_base s]} ∪ dom (nodes s));
  hr_base : ht_base s ∉ dom (nodes s)
}.

Lemma hash_ptr_range k n : 0 <= k < 64 -> 0 <= hash_ptr n (2 ^ k) < 2 ^ k.
Proof.
  intros Hk. unfold hash_ptr. pose proof (pow2_pos k ltac:(lia)).
  assert (2 ^ k <= 2 ^ 63) by (apply Z.pow_le_mono_r; lia).
  rewrite wrap_small by (unfold in_width; lia).
  replace (2 ^ k - 1) with (Z.ones k) by (rewrite Z.ones_equiv; lia).
  rewrite Z.land_ones by lia. apply Z.mod_pos_bound. lia.
Qed.

(** The test for a power of two. *)
Lemma pow2_test size :
  in_width 64 size ->
  (size =? 0) || negb (Z.land size (u64 (size - 1)) =? 0) = false ->
  exists k, 0 <= k < 64 /\ size = 2 ^ k.
Proof.
  unfold in_width. intros Hw Ht. destruct (Z.eqb_spec size 0) as [|Hnz]; [done|]. cbn [orb] in Ht.
  rewrite wrap_small in Ht by (unfold in_width; lia). apply negb_false_iff in Ht.
  rewrite land_pred_pow2 in Ht by lia. apply bool_decide_eq_true in Ht.
  exists (Z.log2 size). split; [|done]. split; [apply Z.log2_nonneg|]. apply Z.log2_lt_pow2; lia.
Qed.

Lemma ht_find_node_spec k l s :
  (forall p, p ∈ l -> is_Some (nodes s !! p)) ->
  exists o, find_node l k s = Ok (o, s) /\
    match o with
    | Some p => p ∈ l /\ exists v, nodes s !! p = Some (HNode k v)
    | None => forall p n, p ∈ l -> nodes s !! p = Some n -> key n <> k
    end.
Proof.
  induction l as [|q l IH]; intros Hl; cbn [find_node].
  - exists None. split; [done|]. intros p n Hp. by apply not_elem_of_nil in Hp.
  - destruct (Hl q ltac:(set_solver)) as [[kq vq] Hq].
    unfold get_node, load, bind. rewrite Hq. cbn [key]. destruct (Z.eqb_spec kq k) as [->|Hne].
    + exists (Some q). split; [done|]. split; [set_solver|]. by exists vq.
    + destruct IH as (o & Ho & Hspec); [intros p Hp; apply Hl; set_solver|].
      exists o. split; [exact Ho|]. destruct o as [p|].
      * destruct Hspec as [? ?]. split; [set_solver|done].
      * intros p n [->|Hp]%elem_of_cons Hn; [|by eapply Hspec].
        rewrite Hq in Hn. by injection Hn as <-.
Qed.

(** The search of an operation: the bucket, and what is found there. *)
Lemma ht_search_spec s m k :
  ht_rep s m ->
  let idx := hash_ptr k (ht_size s) in
  exists l o, buckets s !! idx = Some l /\ find_node l k s = Ok (o, s) /\
    match o with
    | Some p => p ∈ l /\ exists v, nodes s !! p = Some (HNode k v) /\ m !! k = Some v
    | None => m !! k = None
    end.
Proof.
  intros R idx. destruct (hr_size _ _ R) as (e & He & Hsize).
  assert (0 <= idx < ht_size s) as Hidx by (subst idx; rewrite Hsize; by apply hash_ptr_range).
  apply (hr_buckets _ _ R) in Hidx as [l Hl].
  destruct (ht_find_node_spec k l s) as (o & Ho & Hspec).
  { intros p Hp. destruct (hr_nodes _ _ R idx l p Hl Hp) as (n & -> & _). done. }
  exists l, o. split; [done|]. split; [done|]. destruct o as [p|].
  - destruct Hspec as [Hp (v & Hv)]. split; [done|]. exists v. split; [done|].
    apply (hr_map _ _ R). by exists p.
  - apply eq_None_not_Some. intros [v Hv]. apply (hr_map _ _ R) in Hv as [p Hp].
    destruct (hr_listed _ _ R p _ Hp) as (l' & Hl' & Hin). cbn [key] in Hl'. fold idx in Hl'.
    rewrite Hl in Hl'. injection Hl' as <-. by apply (Hspec p _ Hin Hp).
Qed.

Lemma ht_count_add n : u64 (u64 n + 1) = u64 (n + 1).
Proof. unfold u64, wrap. rewrite Zplus_mod_idemp_l. done. Qed.

Lemma ht_count_sub n : u64 (u64 n - 1) = u64 (n - 1).
Proof. unfold u64, wrap. rewrite Zminus_mod_idemp_l. done. Qed.

Lemma bind_find l k s o (f : option Z -> ST (hashtable A) Z) E Q :
  find_node l k s = Ok (o, s) -> wp E (f o) Q s -> wp E (bind (find_node l k) f) Q s.
Proof. intros Hf HQ. apply wp_bind. by eapply wp_run. Qed.

Lemma wp_get_bucket E i l (Q : list Z -> hashtable A -> Prop) s :
  buckets s !! i = Some l -> Q l s -> wp E (get_bucket i) Q s.
Proof. intros Hl HQ. by eapply wp_load. Qed.

Lemma wp_upd_bucket E i l f (Q : unit -> hashtable A -> Prop) s :
  buckets s !! i = Some l -> Q tt (set_buckets (<[i := f l]> (buckets s)) s) -> wp E (upd_bucket i f) Q s.
Proof. intros Hl HQ. eapply wp_store; [|done]. cbn. by rewrite Hl. Qed.

Lemma wp_kmalloc n X (Q : Z -> hashtable A -> Prop) s :
  own (ht_alloc s) X -> (forall a, own a X -> Q NULL (set_ht_alloc a s)) ->
  (forall p a, 0 < p -> p ∉ X -> own a ({[p]} ∪ X) -> Q p (set_ht_alloc a s)) ->
  wp False (ht_kmalloc n) Q s.
Proof. intros Ho H1 H2. apply wp_lift. by eapply wp_ka_alloc. Qed.

(** A bucket is replaced. *)
Lemma is_Some_insert_iff (B : gmap Z (list Z)) i l l' j :
  B !! i = Some l -> is_Some (<[i := l']> B !! j) <-> is_Some (B !! j).
Proof. intros Hl. rewrite lookup_insert. case_decide; [subst; rewrite Hl; split; eauto|done]. Qed.

Lemma ht_rep_update s m p k v v0 :
  ht_rep s m -> nodes s !! p = Some (HNode k v0) ->
  ht_rep (set_nodes (<[p := HNode k v]> (nodes s)) s) (<[k := v]> m).
Proof.
  intros R Hp. pose proof R as [R1 R2 R3 R4 R5 R6 R7 R8 R9 R10].
  assert (Hk : forall q n, <[p := HNode k v]> (nodes s) !! q = Some n ->
    exists n', nodes s !! q = Some n' /\ key n' = key n).
  { intros q n [[<- <-]|[_ ?]]%lookup_insert_Some; eauto. }
  assert (dom (<[p := HNode k v]> (nodes s)) = dom (nodes s)) as Hdom.
  { by apply dom_insert_lookup_L. }
  split; cbn [set_nodes ht_size buckets nodes count ht_alloc ht_base]; try done.
  - intros i l q Hl Hq. destruct (R3 i l q Hl Hq) as (n & Hn & Hi). rewrite lookup_insert.
    case_decide; [subst q; exists (HNode k v); split; [done|]; rewrite Hp in Hn; by injection Hn as <-|eauto].
  - intros q n Hq. destruct (Hk q n Hq) as (n' & Hn' & <-). eauto.
  - intros q q' n n' Hq Hq' E. destruct (Hk q n Hq) as (a & Ha & Ea), (Hk q' n' Hq') as (b & Hb & Eb).
    apply (R6 q q' a b Ha Hb). congruence.
  - intros k' v'. rewrite lookup_insert. case_decide as E.
    + subst k'. split; [intros [= <-]; exists p; by rewrite lookup_insert_eq|].
      intros [q Hq]. destruct (Hk q _ Hq) as (n & Hn & En). cbn [key] in En.
      assert (q = p) as -> by (eapply R6; [exact Hn|exact Hp|done]).
      rewrite lookup_insert_eq in Hq. by injection Hq as <-.
    + rewrite R7. split; intros [q Hq]; exists q.
      * rewrite lookup_insert_ne; [done|]. intros <-. rewrite Hp in Hq. by injection Hq as -> ->.
      * apply lookup_insert_Some in Hq as [[<- [= <- <-]]|[_ ?]]; done.
  - rewrite R8. assert (is_Some (m !! k)) as Hm.
    { exists v0. apply R7. by exists p. }
    rewrite map_size_insert. by destruct Hm as [? ->].
  - by rewrite Hdom.
  - by rewrite Hdom.
Qed.

Lemma ht_rep_add s m p k v l a :
  ht_rep s m -> m !! k = None -> buckets s !! hash_ptr k (ht_size s) = Some l ->
  p ∉ {[ht_base s]} ∪ dom (nodes s) -> own a ({[p]} ∪ ({[ht_base s]} ∪ dom (nodes s))) ->
  ht_rep (Ht (ht_base s) (<[hash_ptr k (ht_size s) := p :: l]> (buckets s)) (ht_size s)
    (u64 (count s + 1)) (<[p := HNode k v]> (nodes s)) a) (<[k := v]> m).
Proof.
  intros R Hk Hl Hp Ha. pose proof R as [R1 R2 R3 R4 R5 R6 R7 R8 R9 R10].
  assert (nodes s !! p = None) as Hn by (apply not_elem_of_dom; clear -Hp; set_solver).
  assert (Hnok : forall q n, nodes s !! q = Some n -> key n <> k).
  { intros q [k' v'] Hq. cbn. intros ->. assert (m !! k = Some v') by (apply R7; eauto). congruence. }
  assert (Hinl : forall i l' q, buckets s !! i = Some l' -> q ∈ l' -> q <> p).
  { intros i l' q Hl' Hq ->. destruct (R3 i l' p Hl' Hq) as (n & Hn' & _). congruence. }
  split; cbn [ht_size buckets nodes count ht_alloc ht_base]; [exact R1|..].
  - intros i. by rewrite (is_Some_insert_iff _ _ l).
  - intros i l' q [[<- <-]|[Hne Hl']]%lookup_insert_Some Hq.
    + apply elem_of_cons in Hq as [->|Hq]; [exists (HNode k v); by rewrite lookup_insert_eq|].
      rewrite lookup_insert_ne; [by eapply R3|]. intros <-. by eapply Hinl.
    + rewrite lookup_insert_ne; [by eapply R3|]. intros <-. by eapply Hinl.
  - intros i l' [[<- <-]|[_ Hl']]%lookup_insert_Some; [|by eapply R4].
    apply NoDup_cons. split; [|by eapply R4]. intros Hin. by eapply Hinl.
  - intros q n [[<- <-]|[Hne Hq]]%lookup_insert_Some; cbn [key].
    + exists (p :: l). rewrite lookup_insert_eq. split; [done|apply list_elem_of_here].
    + destruct (R5 q n Hq) as (l' & Hl' & Hin). rewrite lookup_insert. case_decide as E.
      * exists (p :: l). split; [done|]. rewrite <- E, Hl in Hl'. injection Hl' as <-. by apply list_elem_of_further.
      * eauto.
  - intros q q' n n' [[<- <-]|[Hne Hq]]%lookup_insert_Some [[<- <-]|[Hne' Hq']]%lookup_insert_Some E; cbn [key] in E.
    + done.
    + by apply Hnok in Hq'.
    + by apply Hnok in Hq.
    + by eapply R6.
  - intros k' v'. rewrite lookup_insert. case_decide as E.
    + subst k'. split; [intros [= <-]; exists p; by rewrite lookup_insert_eq|].
      intros [q [[_ [= ->]]|[_ Hq]]%lookup_insert_Some]; [done|]. by apply Hnok in Hq.
    + rewrite R7. split; intros [q Hq]; exists q.
      * rewrite lookup_insert_ne; [done|]. intros <-. congruence.
      * apply lookup_insert_Some in Hq as [[_ [= ? ?]]|[_ ?]]; done.
  - rewrite R8, ht_count_add, map_size_insert, Hk. f_equal. lia.
  - rewrite dom_insert_L. by replace ({[ht_base s]} ∪ ({[p]} ∪ dom (nodes s)))
      with ({[p]} ∪ ({[ht_base s]} ∪ dom (nodes s))) by (clear; set_solver).
  - clear -Hp R10. set_solver.
Qed.

Lemma ht_rep_del s m p k v l a :
  ht_rep s m -> buckets s !! hash_ptr k (ht_size s) = Some l -> p ∈ l -> nodes s !! p = Some (HNode k v) ->
  own a (({[ht_base s]} ∪ dom (nodes s)) ∖ {[p]}) ->
  ht_rep (Ht (ht_base s) (<[hash_ptr k (ht_size s) := AList.list_del p l]> (buckets s)) (ht_size s)
    (u64 (count s - 1)) (delete p (nodes s)) a) (delete k m).
Proof.
  intros R Hl Hpl Hp Ha. pose proof R as [R1 R2 R3 R4 R5 R6 R7 R8 R9 R10].
  pose proof (R4 _ _ Hl) as Hnd.
  assert (Hin : forall q, q ∈ AList.list_del p l <-> q ∈ l /\ q <> p) by (intros q; by apply AList.elem_of_list_del).
  assert (Hnok : forall q n, q <> p -> nodes s !! q = Some n -> key n <> k).
  { intros q n Hq Hn E. apply Hq. by eapply R6. }
  split; cbn [ht_size buckets nodes count ht_alloc ht_base]; [exact R1|..].
  - intros i. by rewrite (is_Some_insert_iff _ _ l).
  - intros i l' q [[<- <-]|[Hne Hl']]%lookup_insert_Some Hq.
    + apply Hin in Hq as [Hq Hne]. rewrite lookup_delete_ne by done. by eapply R3.
    + destruct (R3 i l' q Hl' Hq) as (n & Hn & Hi). exists n. rewrite lookup_delete_ne; [done|].
      intros <-. rewrite Hp in Hn. injection Hn as <-. done.
  - intros i l' [[<- <-]|[_ Hl']]%lookup_insert_Some; [by apply AList.NoDup_list_del|by eapply R4].
  - intros q n [Hne Hq]%lookup_delete_Some. destruct (R5 q n Hq) as (l' & Hl' & Hq').
    rewrite lookup_insert. case_decide as E; [|eauto].
    exists (AList.list_del p l). split; [done|]. apply Hin. rewrite <- E, Hl in Hl'. by injection Hl' as <-.
  - intros q q' n n' [_ Hq]%lookup_delete_Some [_ Hq']%lookup_delete_Some. by eapply R6.
  - intros k' v'. rewrite lookup_delete_Some, R7. split.
    + intros [Hne [q Hq]]. exists q. rewrite lookup_delete_ne; [done|]. intros <-. rewrite Hp in Hq. congruence.
    + intros [q [Hne Hq]%lookup_delete_Some]. split; [|eauto]. intros <-. by apply Hnok in Hq.
  - assert (m !! k = Some v) as Hm by (apply R7; eauto).
    rewrite R8, ht_count_sub, map_size_delete, Hm. f_equal.
    assert (size m <> 0)%nat; [|lia]. intros E. apply map_size_empty_inv in E. subst m. done.
  - rewrite dom_delete_L. replace ({[ht_base s]} ∪ dom (nodes s) ∖ {[p]})
      with (({[ht_base s]} ∪ dom (nodes s)) ∖ {[p]}); [done|].
    apply elem_of_dom_2 in Hp. clear -Hp R10. set_solver.
  - clear -R10. set_solver.
Qed.

(** ** The operations *)

Lemma ht_insert_spec s m k v :
  ht_rep s m ->
  wp False (hashtable_insert k v)
    (fun r s' => ht_size s' = ht_size s /\
       ((r = 0 /\ ht_rep s' (<[k := v]> m)) \/ (r = - ENOMEM /\ m !! k = None /\ ht_rep s' m))) s.
Proof.
  intros R. destruct (ht_search_spec s m k R) as (l & o & Hl & Hf & Ho).
  unfold hashtable_insert. apply wp_bind, wp_gets. cbn zeta.
  apply wp_bind. eapply wp_get_bucket; [done|]. eapply bind_find; [exact Hf|]. destruct o as [p|].
  - destruct Ho as (_ & v0 & Hp & _). apply wp_bind, wp_modify, wp_ret. split; [done|]. left. split; [done|].
    by eapply ht_rep_update.
  - apply wp_bind. eapply wp_kmalloc; [apply (hr_own _ _ R)|..].
    + intros a Ha. apply wp_ret. split; [done|]. right. split; [done|]. split; [done|].
      destruct R. by split.
    + intros p a Hp0 Hp Ha. destruct (Z.eqb_spec p NULL); [unfold NULL in *; lia|].
      apply wp_bind, wp_modify, wp_bind. eapply wp_upd_bucket; [done|].
      apply wp_bind, wp_modify, wp_ret. split; [done|]. left. split; [done|].
      exact (ht_rep_add s m p k v l a R Ho Hl Hp Ha).
Qed.

Lemma ht_lookup_spec s m k :
  ht_rep s m -> hashtable_lookup k s = Ok (default NULL (m !! k), s).
Proof.
  intros R. destruct (ht_search_spec s m k R) as (l & o & Hl & Hf & Ho).
  unfold hashtable_lookup, bind, gets, get_bucket, get_node, load. rewrite Hl, Hf. destruct o as [p|].
  - destruct Ho as (_ & v & -> & ->). done.
  - by rewrite Ho.
Qed.

Lemma ht_delete_spec s m k :
  ht_rep s m ->
  wp False (hashtable_delete k)
    (fun r s' => r = default NULL (m !! k) /\ ht_rep s' (delete k m)) s.
Proof.
  intros R. destruct (ht_search_spec s m k R) as (l & o & Hl & Hf & Ho).
  unfold hashtable_delete. apply wp_bind, wp_gets. cbn zeta.
  apply wp_bind. eapply wp_get_bucket; [done|]. eapply bind_find; [exact Hf|]. destruct o as [p|].
  - destruct Ho as (Hpl & v & Hp & Hm). apply wp_bind. eapply wp_load; [exact Hp|].
    apply wp_bind. eapply wp_upd_bucket; [done|]. apply wp_bind, wp_bind, wp_lift.
    eapply wp_ka_free; [apply (hr_own _ _ R)|apply elem_of_union_r, elem_of_dom; by eexists|]. intros a Ha.
    apply wp_modify, wp_bind, wp_modify, wp_ret. split; [by rewrite Hm|].
    exact (ht_rep_del s m p k v l a R Hl Hpl Hp Ha).
  - apply wp_ret. split; [by rewrite Ho|]. by rewrite delete_id.
Qed.

(** The allocator's share during [hashtable_destroy]: buckets from [i] on. *)
Record destroying s (i : Z) : Prop := {
  ds_buckets j : is_Some (buckets s !! j) <-> 0 <= j < ht_size s;
  ds_nodup j l : buckets s !! j = Some l -> NoDup l;
  ds_disj j j' l l' p : buckets s !! j = Some l -> buckets s !! j' = Some l' -> p ∈ l -> p ∈ l' -> j = j';
  ds_nodes p : p ∈ dom (nodes s) <-> exists j l, i <= j /\ buckets s !! j = Some l /\ p ∈ l;
  ds_own : own (ht_alloc s) ({[ht_base s]} ∪ dom (nodes s));
  ds_base : ht_base s ∉ dom (nodes s)
}.

Lemma destroy_bucket_spec l : forall s i,
  destroying s i -> buckets s !! i = Some l ->
  wp False (destroy_bucket l i)
    (fun _ s' => destroying s' i /\ buckets s' !! i = Some [] /\ ht_size s' = ht_size s /\ ht_base s' = ht_base s) s.
Proof.
  induction l as [|p l IH]; intros s i D Hl; cbn [destroy_bucket].
  { by apply wp_ret. }
  pose proof D as [D1 D2 D3 D4 D5 D6].
  assert (p ∈ dom (nodes s)) as Hp by (apply D4; exists i, (p :: l); split; [lia|]; split; [done|apply list_elem_of_here]).
  apply wp_bind. eapply wp_upd_bucket; [done|]. apply wp_bind, wp_bind, wp_lift.
  eapply wp_ka_free; [exact D5|by apply elem_of_union_r|]. intros a Ha. apply wp_modify.
  assert (AList.list_del p (p :: l) = l) as -> by (cbn; by rewrite Z.eqb_refl).
  eapply wp_mono; [apply IH|done|].
  - pose proof (D2 _ _ Hl) as Hnd. apply NoDup_cons in Hnd as [Hpl Hnd].
    assert (Hb : forall j l', <[i := l]> (buckets s) !! j = Some l' ->
      exists l2, buckets s !! j = Some l2 /\ (forall q, q ∈ l' -> q ∈ l2) /\ p ∉ l' /\
        (forall q, q ∈ l2 -> q <> p -> q ∈ l')).
    { intros j l' [[<- <-]|[Hne Hj]]%lookup_insert_Some.
      - exists (p :: l). split; [done|]. clear -Hpl. set_solver.
      - exists l'. split; [done|]. split; [done|]. split; [|done]. intros Hin. apply Hne.
        eapply (D3 i j _ _ p); [exact Hl|exact Hj|apply list_elem_of_here|done]. }
    split; cbn [set_nodes set_ht_alloc set_buckets buckets ht_size nodes ht_alloc ht_base].
    + intros j. by rewrite (is_Some_insert_iff _ _ (p :: l)).
    + intros j l' [[<- <-]|[_ ?]]%lookup_insert_Some; [done|by eapply D2].
    + intros j j' l1 l2 q H1 H2 Hq1 Hq2. destruct (Hb _ _ H1) as (m1 & ? & Hs1 & _), (Hb _ _ H2) as (m2 & ? & Hs2 & _).
      eapply (D3 j j' m1 m2 q); auto.
    + intros q. rewrite dom_delete_L, elem_of_difference, D4, elem_of_singleton. split.
      * intros [(j & l' & Hj & Hl' & Hq) Hne]. destruct (decide (j = i)) as [->|Hji].
        -- rewrite Hl in Hl'. injection Hl' as <-. exists i, l. rewrite lookup_insert_eq.
           split; [lia|]. split; [done|]. clear -Hq Hne. set_solver.
        -- exists j, l'. rewrite lookup_insert_ne by done. done.
      * intros (j & l' & Hj & Hl' & Hq). destruct (Hb _ _ Hl') as (l2 & Hl2 & Hs & Hpn & _).
        split; [exists j, l2; auto|]. intros ->. done.
    + rewrite dom_delete_L. replace ({[ht_base s]} ∪ dom (nodes s) ∖ {[p]})
        with (({[ht_base s]} ∪ dom (nodes s)) ∖ {[p]}); [done|clear -D6 Hp; set_solver].
    + clear -D6. set_solver.
  - cbn. by rewrite lookup_insert_eq.
  - intros [] s' (HD & Hn & E1 & E2). done.
Qed.

Lemma destroying_next s i : destroying s i -> buckets s !! i = Some [] -> destroying s (i + 1).
Proof.
  intros [D1 D2 D3 D4 D5 D6] Hl. split; try done. intros p. rewrite D4. split.
  - intros (j & l & Hj & Hl' & Hp). exists j, l. split; [|done]. destruct (decide (j = i)) as [->|]; [|lia].
    rewrite Hl in Hl'. injection Hl' as <-. by apply not_elem_of_nil in Hp.
  - intros (j & l & Hj & ?). exists j, l. split; [lia|done].
Qed.

Lemma ht_destroy_spec s m :
  ht_rep s m ->
  wp False hashtable_destroy
    (fun _ s' => own (ht_alloc s') ∅ /\ ht_size s' = 0 /\ count s' = 0 /\ nodes s' = ∅) s.
Proof.
  intros R. pose proof R as [R1 R2 R3 R4 R5 R6 R7 R8 R9 R10]. destruct R1 as (e & He & Hsz).
  pose proof (pow2_pos e ltac:(lia)) as Hpos.
  unfold hashtable_destroy. apply wp_bind, wp_gets. apply wp_bind.
  eapply wp_mono; [apply (wp_for_up False (fun i t => destroying t i /\ ht_size t = ht_size s))|done|].
  - intros i t Hi [D Es]. rewrite Z2Nat.id in Hi by lia.
    destruct (proj2 (ds_buckets _ _ D i)) as [l Hl]; [lia|].
    apply wp_bind. eapply wp_get_bucket; [done|].
    eapply wp_mono; [by apply destroy_bucket_spec|done|]. intros [] t' (D' & Hn & E1 & _).
    split; [by apply destroying_next|congruence].
  - split; [|done]. split; try done.
    + intros j j' l l' p Hj Hj' Hp Hp'. destruct (R3 _ _ _ Hj Hp) as (n & Hn & <-).
      destruct (R3 _ _ _ Hj' Hp') as (n' & Hn' & <-). congruence.
    + intros p. rewrite elem_of_dom. split.
      * intros [n Hn]. destruct (R5 p n Hn) as (l & Hl & Hp). exists (hash_ptr (key n) (ht_size s)), l.
        split; [|done]. rewrite Hsz. by apply hash_ptr_range.
      * intros (j & l & _ & Hl & Hp). destruct (R3 _ _ _ Hl Hp) as (n & Hn & _). by exists n.
  - intros [] t [D Es]. rewrite Z.add_0_l, Z2Nat.id in D by lia. cbv beta.
    assert (nodes t = ∅) as Hnodes.
    { apply dom_empty_inv_L, elem_of_equiv_empty_L. intros p Hp. apply (ds_nodes _ _ D) in Hp as (j & l & Hj & Hl & _).
      assert (0 <= j < ht_size t) by (apply (ds_buckets _ _ D); by exists l). lia. }
    pose proof (ds_own _ _ D) as Ho. rewrite Hnodes in Ho.
    apply wp_bind, wp_gets, wp_bind, wp_lift. eapply wp_ka_free; [exact Ho|by apply elem_of_union_l, elem_of_singleton|]. intros a Ha.
    apply wp_bind, wp_modify, wp_bind, wp_modify, wp_modify. cbn. split; [|done].
    replace (∅ : gset Z) with (({[ht_base t]} ∪ dom (∅ : gmap Z hash_node)) ∖ {[ht_base t]}); [done|].
    rewrite dom_empty_L. clear. set_solver.
Qed.

Lemma ht_init_spec s size :
  own (ht_alloc s) ∅ -> nodes s = ∅ -> buckets s = ∅ -> in_width 64 size ->
  wp False (hashtable_init size)
    (fun r s' => (r = 0 /\ ht_rep s' ∅ /\ ht_size s' = size) \/
       (r = - ENOMEM /\ own (ht_alloc s') ∅) \/
       (r = - EINVAL /\ s' = s /\ ~ exists k, 0 <= k < 64 /\ size = 2 ^ k)) s.
Proof.
  intros Ho Hn Hb Hw. unfold hashtable_init. destruct (_ || _) eqn:Et.
  { apply wp_ret. right. right. split; [done|]. split; [done|]. intros (k & Hk & ->).
    pose proof (pow2_pos k ltac:(lia)). destruct (Z.eqb_spec (2 ^ k) 0); [lia|]. cbn [orb] in Et.
    rewrite wrap_small in Et by (unfold in_width in *; lia).
    rewrite land_pred_pow2 in Et by lia. apply negb_true_iff, bool_decide_eq_false in Et.
    rewrite Z.log2_pow2 in Et by lia. done. }
  apply pow2_test in Et as Hp; [|done]. destruct Hp as (e & He & ->). pose proof (pow2_pos e ltac:(lia)) as Hpos.
  apply wp_bind. unfold ht_kcalloc. destruct (_ && _).
  { apply wp_ret, wp_bind, wp_modify, wp_ret. right. by left. }
  eapply wp_kmalloc; [exact Ho|..].
  { intros a Ha. apply wp_bind, wp_modify, wp_ret. right. by left. }
  intros p a Hp0 _ Ha. apply wp_bind, wp_modify. destruct (Z.eqb_spec p NULL); [unfold NULL in *; lia|].
  apply wp_bind. set (s1 := set_base p (set_ht_alloc a s)).
  eapply wp_mono; [apply (wp_for_up False (fun i t => nodes t = ∅ /\ ht_base t = p /\ ht_alloc t = a /\
    forall j, buckets t !! j = if decide (0 <= j < i) then Some [] else None))|done|].
  - intros i t Hi (T1 & T2 & T3 & T4). apply wp_modify. cbn. split_and!; try done. intros j.
    rewrite lookup_insert, T4. repeat case_decide; try done; lia.
  - split_and!; try done. intros j. cbn. rewrite Hb, decide_False by lia. done.
  - intros [] t (T1 & T2 & T3 & T4). rewrite Z.add_0_l, Z2Nat.id in T4 by lia. cbv beta.
    apply wp_bind, wp_modify, wp_bind, wp_modify, wp_ret. left. split; [done|]. split; [|done].
    split; cbn [set_count set_size ht_size buckets nodes count ht_alloc ht_base]; rewrite ?T1, ?T2, ?T3.
    + by exists e.
    + intros j. rewrite T4. case_decide; [by split; eauto|]. split; [by intros []|done].
    + intros i l q. rewrite T4. case_decide; [|done]. intros [= <-] Hq. by apply not_elem_of_nil in Hq.
    + intros i l. rewrite T4. case_decide; [|done]. intros [= <-]. constructor.
    + done.
    + done.
    + intros k v. rewrite lookup_empty. split; [done|]. by intros [q Hq].
    + done.
    + rewrite dom_empty_L. by rewrite union_empty_r_L in *.
    + rewrite dom_empty_L. apply not_elem_of_empty.
Qed.

Lemma ht_run_hop_spec s m o :
  ht_rep s m -> wp False (run_hop o) (fun r s' => exists m', hop_spec m o r m' /\ ht_rep s' m') s.
Proof.
  intros R. destruct o as [k v|k|k]; cbn [run_hop].
  - eapply wp_mono; [by apply ht_insert_spec|done|].
    intros r s' [_ [[-> R']|(-> & Hn & R')]]; eexists; (split; [|exact R']); by constructor.
  - eapply wp_run; [by apply ht_lookup_spec|]. exists m. split; [constructor|done].
  - eapply wp_mono; [by apply ht_delete_spec|done|].
    intros r s' [-> R']. eexists. split; [constructor|exact R'].
Qed.

Lemma ht_run_hops_spec l : forall s m,
  ht_rep s m -> wp False (run_hops l) (fun rs s' => exists m', hops_spec m l rs m' /\ ht_rep s' m') s.
Proof.
  induction l as [|o l IH]; intros s m R; cbn [run_hops].
  - apply wp_ret. exists m. split; [constructor|done].
  - eapply wp_bind_mono; [by apply ht_run_hop_spec|]. intros r s1 (m1 & H1 & R1).
    eapply wp_bind_mono; [by apply IH|]. intros rs s2 (m2 & H2 & R2).
    apply wp_ret. exists m2. split; [by econstructor|done].
Qed.

(** [C21] The hash table refines a finite map: in every session the table is
    created if its size is a power of two and memory suffices (or [-EINVAL] or
    [-ENOMEM] is returned), every operation answers as on a finite map, an
    insertion of a new key possibly failing without effect, and after
    [hashtable_destroy] all memory has been returned. *)
Theorem hashtable_refines_map a size ops :
  own a ∅ -> in_width 64 size ->
  wp False (session size ops)
    (fun '(r, rs) s' => own (ht_alloc s') ∅ /\
       ((r = 0 /\ (exists k, 0 <= k < 64 /\ size = 2 ^ k) /\ exists m, hops_spec ∅ ops rs m) \/
        (r = - ENOMEM) \/ (r = - EINVAL /\ ~ exists k, 0 <= k < 64 /\ size = 2 ^ k))) (empty_table a).
Proof.
  intros Ho Hw. unfold session. eapply wp_bind_mono; [by apply ht_init_spec|].
  intros r s [(-> & R & Es)|[(-> & Ho')|(-> & -> & Hn)]]; cbv beta.
  - rewrite Z.eqb_refl. cbn [negb]. eapply wp_bind_mono; [by apply ht_run_hops_spec|].
    intros rs s1 (m & Hm & R1). eapply wp_bind_mono; [by apply (ht_destroy_spec s1 m)|].
    intros [] s2 (Ho2 & _). apply wp_ret. split; [done|]. left. split; [done|]. split; [|by exists m].
    rewrite <- Es. apply (hr_size _ _ R).
  - apply wp_ret. split; [done|]. right. by left.
  - apply wp_ret. split; [done|]. right. right. by split.
Qed.

End proof.

Lemma hashtable_refines_map_witness :
  let ops := [HInsert 0x80400000 1; HInsert 0x80400040 2; HDelete 0x80400000; HLookup 0x80400040] in
  wp False (session 4 ops)
    (fun '(r, rs) s' => bump_own (ht_alloc s') ∅ /\
       ((r = 0 /\ (exists k, 0 <= k < 64 /\ 4 = 2 ^ k) /\ exists m, hops_spec ∅ ops rs m) \/
        (r = - ENOMEM) \/ (r = - EINVAL /\ ~ exists k, 0 <= k < 64 /\ 4 = 2 ^ k)))
    (empty_table (Bump 4096 3 ∅)).
Proof.
  apply (hashtable_refines_map (Bump 4096 3 ∅) 4).
  - split; [reflexivity|]. split; [reflexivity|]. intros x Hx. by apply not_elem_of_empty in Hx.
  - split; [discriminate|reflexivity].
Defined.
