(* ===== verification/Radix.v ===== *)
(** The radix tree, [src/misc/radix_tree.c].

    A tree is a value: a node carries its address, its members and the subtrees
    behind its four child pointers; the functions take the tree behind a
    [struct rxtree_node **] and return the tree that is there afterwards. *)

From S2P Require Import Prelude Alloc.

Definition RADIX_TREE_MAP_SHIFT : Z := 2.
Definition RADIX_TREE_MAP_SIZE : Z := Z.shiftl 1 RADIX_TREE_MAP_SHIFT.

Inductive rxtree_node :=
  | Null
  | Node (addr prefix : Z) (is_leaf : bool) (value : Z) (c0 c1 c2 c3 : rxtree_node).

(** [children[i]] of a node, and the node with another child there. *)
Definition child (i : Z) (t : rxtree_node) : rxtree_node :=
  match t with
  | Null => Null
  | Node _ _ _ _ c0 c1 c2 c3 => if i =? 0 then c0 else if i =? 1 then c1 else if i =? 2 then c2 else c3
  end.

Definition set_child (i : Z) (c t : rxtree_node) : rxtree_node :=
  match t with
  | Null => Null
  | Node a p l v c0 c1 c2 c3 =>
      if i =? 0 then Node a p l v c c1 c2 c3 else if i =? 1 then Node a p l v c0 c c2 c3
      else if i =? 2 then Node a p l v c0 c1 c c3 else Node a p l v c0 c1 c2 c
  end.

Definition is_null (t : rxtree_node) : bool := match t with Null => true | _ => false end.
Definition leaf (t : rxtree_node) : bool := match t with Node _ _ l _ _ _ _ _ => l | Null => false end.

(** [shift], [mask] and the index of a key at a depth. *)
Definition shift_of (depth : Z) : Z := 64 - (depth + 1) * RADIX_TREE_MAP_SHIFT.
Definition index_of (key depth : Z) : Z :=
  let shift := shift_of depth in
  let mask := u64 (Z.shiftl (RADIX_TREE_MAP_SIZE - 1) shift) in
  Z.shiftr (Z.land key mask) shift.

(** [sizeof(struct rxtree_node)]. *)
Definition sizeof_rxtree_node : Z := 56.

Record rxtree (A : Type) := Rx { rnode : rxtree_node; rx_alloc : A }.
Arguments Rx {A}.
Arguments rnode {A}.
Arguments rx_alloc {A}.

Section radix.
Context {A : Type} `{KAlloc A}.

Definition rxtree_node_alloc (prefix : Z) (is_leaf : bool) (value : Z) : ST A rxtree_node :=
  let! p := ka_alloc sizeof_rxtree_node in
  ret (if p =? NULL then Null else Node p prefix is_leaf value Null Null Null Null).

Fixpoint rxtree_node_free (node : rxtree_node) : ST A unit :=
  match node with
  | Null => ret tt
  | Node a _ _ _ c0 c1 c2 c3 =>
      do! rxtree_node_free c0 in
      do! rxtree_node_free c1 in
      do! rxtree_node_free c2 in
      do! rxtree_node_free c3 in
      ka_free a
  end.

(** [kfree] of the node alone. *)
Definition free_shell (node : rxtree_node) : ST A unit :=
  match node with Null => ka_free NULL | Node a _ _ _ _ _ _ _ => ka_free a end.

Fixpoint rxtree_insert_node (fuel : nat) (node : rxtree_node) (key value depth : Z) :
    ST A (Z * rxtree_node) :=
  match fuel with
  | O => no_fuel
  | S fuel =>
      match node with
      | Null =>
          let! n := rxtree_node_alloc key true value in
          ret (if is_null n then - ENOMEM else 0, n)
      | Node a prefix is_leaf v c0 c1 c2 c3 =>
          if is_leaf then
            if prefix =? key then ret (0, Node a prefix is_leaf value c0 c1 c2 c3) else
            let! parent := rxtree_node_alloc 0 false NULL in
            if is_null parent then ret (- ENOMEM, node) else
            if shift_of depth <? 0 then fault else
            let idx1 := index_of key depth in
            let idx2 := index_of prefix depth in
            if idx1 =? idx2 then
              let! '(r1, n1) := rxtree_insert_node fuel (child idx1 parent) key value (depth + 1) in
              let parent := set_child idx1 n1 parent in
              if negb (r1 =? 0) then do! rxtree_node_free parent in ret (- ENOMEM, node) else
              let! '(r2, n2) := rxtree_insert_node fuel (child idx2 parent) prefix v (depth + 1) in
              let parent := set_child idx2 n2 parent in
              if negb (r2 =? 0) then do! rxtree_node_free parent in ret (- ENOMEM, node) else
              do! free_shell parent in
              ret (0, Node a prefix false NULL (child 0 parent) (child 1 parent)
                        (child 2 parent) (child 3 parent))
            else
              let! n1 := rxtree_node_alloc key true value in
              let parent := set_child idx1 n1 parent in
              let! n2 := rxtree_node_alloc prefix true v in
              let parent := set_child idx2 n2 parent in
              if is_null n1 || is_null n2 then
                do! rxtree_node_free parent in ret (- ENOMEM, node)
              else ret (0, parent)
          else
            if shift_of depth <? 0 then fault else
            let index := index_of key depth in
            let! '(r, n) := rxtree_insert_node fuel (child index node) key value (depth + 1) in
            ret (r, set_child index n node)
      end
  end.

(** The loop descends one level per iteration. *)
Fixpoint rxtree_lookup_node (node : rxtree_node) (key depth : Z) : outcome Z :=
  match node with
  | Null => Ok NULL
  | Node _ prefix is_leaf v c0 c1 c2 c3 =>
      if is_leaf then Ok (if prefix =? key then v else NULL) else
      if shift_of depth <? 0 then Fault else
      let i := index_of key depth in
      if i =? 0 then rxtree_lookup_node c0 key (depth + 1)
      else if i =? 1 then rxtree_lookup_node c1 key (depth + 1)
      else if i =? 2 then rxtree_lookup_node c2 key (depth + 1)
      else rxtree_lookup_node c3 key (depth + 1)
  end.

(** The children that are not null: their number and the last of them. *)
Definition live_children (t : rxtree_node) : list rxtree_node :=
  filter (fun c => is_null c = false) [child 0 t; child 1 t; child 2 t; child 3 t].

(** What [rxtree_delete_node] does after a child has lost the key. *)
Definition collapse (current : rxtree_node) : ST A rxtree_node :=
  let l := live_children current in
  match l with
  | [c] => if leaf c then do! free_shell current in ret c else ret current
  | [] => do! free_shell current in ret Null
  | _ => ret current
  end.

Fixpoint rxtree_delete_node (node : rxtree_node) (key depth : Z) : ST A (Z * rxtree_node) :=
  match node with
  | Null => ret (- EINVAL, Null)
  | Node a prefix is_leaf v c0 c1 c2 c3 =>
      if is_leaf then
        if prefix =? key then do! ka_free a in ret (0, Null) else ret (- EINVAL, node)
      else
        if shift_of depth <? 0 then fault else
        let i := index_of key depth in
        let! '(r, n) := (if i =? 0 then rxtree_delete_node c0 key (depth + 1)
                         else if i =? 1 then rxtree_delete_node c1 key (depth + 1)
                         else if i =? 2 then rxtree_delete_node c2 key (depth + 1)
                         else rxtree_delete_node c3 key (depth + 1)) in
        let current := set_child i n node in
        if r =? 0 then let! c := collapse current in ret (r, c) else ret (r, current)
  end.

(** *** The interface functions *)

Definition on_rx (m : ST A (Z * rxtree_node)) : ST (rxtree A) Z :=
  fun s => match m (rx_alloc s) with
           | Ok ((r, n), a) => Ok (r, Rx n a)
           | Panic => Panic
           | Fault => Fault
           | NoFuel => NoFuel
           end.

Definition rxtree_init : ST (rxtree A) unit := modify (fun s => Rx Null (rx_alloc s)).

(** The recursion of an insertion is at most one level deeper than the 32
    digits of a key. *)
Definition rxtree_insert (key value : Z) : ST (rxtree A) Z :=
  fun s => on_rx (rxtree_insert_node 33 (rnode s) key value 0) s.

Definition rxtree_lookup (key : Z) : ST (rxtree A) Z :=
  fun s => match rxtree_lookup_node (rnode s) key 0 with
           | Ok v => Ok (v, s) | Panic => Panic | Fault => Fault | NoFuel => NoFuel
           end.

Definition rxtree_delete (key : Z) : ST (rxtree A) Z :=
  fun s => on_rx (rxtree_delete_node (rnode s) key 0) s.

Definition rxtree_free : ST (rxtree A) unit :=
  fun s => match rxtree_node_free (rnode s) (rx_alloc s) with
           | Ok (_, a) => Ok (tt, Rx Null a)
           | Panic => Panic
           | Fault => Fault
           | NoFuel => NoFuel
           end.

End radix.

(** ** Clients *)

Inductive rop := RInsert (k v : Z) | RLookup (k : Z) | RDelete (k : Z).

Definition run_rop {A} `{KAlloc A} (o : rop) : ST (rxtree A) Z :=
  match o with
  | RInsert k v => rxtree_insert k v
  | RLookup k => rxtree_lookup k
  | RDelete k => rxtree_delete k
  end.

Fixpoint run_rops {A} `{KAlloc A} (l : list rop) : ST (rxtree A) (list Z) :=
  match l with
  | [] => ret []
  | o :: l => let! r := run_rop o in let! rs := run_rops l in ret (r :: rs)
  end.

Definition rx_session {A} `{KAlloc A} (l : list rop) : ST (rxtree A) (list Z) :=
  do! rxtree_init in
  let! rs := run_rops l in
  do! rxtree_free in
  ret rs.

Definition rop_key (o : rop) : Z := match o with RInsert k _ | RLookup k | RDelete k => k end.

(** The operations on a finite map; the insertion of a new key may fail. *)
Inductive rop_spec : gmap Z Z -> rop -> Z -> gmap Z Z -> Prop :=
  | rop_insert m k v : rop_spec m (RInsert k v) 0 (<[k := v]> m)
  | rop_nomem m k v : m !! k = None -> rop_spec m (RInsert k v) (- ENOMEM) m
  | rop_lookup m k : rop_spec m (RLookup k) (default NULL (m !! k)) m
  | rop_delete m k v : m !! k = Some v -> rop_spec m (RDelete k) 0 (delete k m)
  | rop_absent m k : m !! k = None -> rop_spec m (RDelete k) (- EINVAL) m.

Inductive rops_spec : gmap Z Z -> list rop -> list Z -> gmap Z Z -> Prop :=
  | rops_nil m : rops_spec m [] [] m
  | rops_cons m o r m1 l rs m2 :
      rop_spec m o r m1 -> rops_spec m1 l rs m2 -> rops_spec m (o :: l) (r :: rs) m2.
