(* ===== verification/RadixProof.v ===== *)
(** The radix tree refines a finite map from keys to values; which memory its
    operations hold. *)

From stdpp Require Import gmultiset.
From S2P Require Import Prelude Alloc Radix.

(** ** Digits *)

(** The first [d] digits of a key. *)
Definition path (key d : Z) : Z := Z.shiftr key (64 - 2 * d).

Lemma index_of_spec key d :
  0 <= key -> 0 <= d < 32 ->
  0 <= index_of key d < 4 /\ path key (d + 1) = 4 * path key d + index_of key d.
Proof.
  intros Hk Hd. unfold index_of, path, shift_of. change RADIX_TREE_MAP_SHIFT with 2.
  change (RADIX_TREE_MAP_SIZE - 1) with 3. set (e := 64 - (d + 1) * 2).
  assert (0 <= e <= 62) as He by lia.
  replace (64 - 2 * (d + 1)) with e by lia. replace (64 - 2 * d) with (e + 2) by lia.
  assert (Z.shiftr (Z.land key (u64 (Z.shiftl 3 e))) e = Z.shiftr key e mod 4) as ->.
  { assert (0 <= Z.shiftl 3 e < 2 ^ 64) as Hw.
    { rewrite Z.shiftl_mul_pow2 by lia. assert (2 ^ e <= 2 ^ 62) by (apply Z.pow_le_mono_r; lia).
      pose proof (pow2_pos e ltac:(lia)). lia. }
    rewrite wrap_small by done. rewrite Z.shiftr_land, Z.shiftr_shiftl_l by lia.
    rewrite Z.sub_diag, Z.shiftl_0_r. change 3 with (Z.ones 2). by rewrite Z.land_ones by lia. }
  split; [apply Z.mod_pos_bound; lia|].
  assert (Z.shiftr key (e + 2) = Z.shiftr key e / 4) as ->.
  { rewrite <- Z.shiftr_shiftr by lia. by rewrite (Z.shiftr_div_pow2 _ 2) by lia. }
  apply Z.div_mod. lia.
Qed.

Lemma path_0 key : in_width 64 key -> path key 0 = 0.
Proof. intros Hk. unfold path. rewrite Z.shiftr_div_pow2 by lia. by apply Z.div_small. Qed.

Lemma path_32 key : path key 32 = key.
Proof. unfold path. by rewrite Z.shiftr_0_r. Qed.

Lemma path_pred key d : 0 <= key -> 0 <= d < 32 -> path key d = path key (d + 1) / 4.
Proof. intros Hk Hd. destruct (index_of_spec key d Hk Hd) as [Hi ->].
  apply (Z.div_unique _ 4 _ (index_of key d)); [by left|done]. Qed.

(** ** The invariant and the abstraction *)

(** A tree at depth [d] below the digits [q]. *)
Fixpoint wf (t : rxtree_node) (d q : Z) : Prop :=
  match t with
  | Null => True
  | Node _ p l _ c0 c1 c2 c3 =>
      if l then in_width 64 p /\ path p d = q /\ c0 = Null /\ c1 = Null /\ c2 = Null /\ c3 = Null
      else d < 32 /\ wf c0 (d + 1) (4 * q) /\ wf c1 (d + 1) (4 * q + 1) /\
        wf c2 (d + 1) (4 * q + 2) /\ wf c3 (d + 1) (4 * q + 3)
  end.

(** The value of a key. *)
Fixpoint find (t : rxtree_node) (k d : Z) : option Z :=
  match t with
  | Null => None
  | Node _ p l v c0 c1 c2 c3 =>
      if l then (if p =? k then Some v else None) else
      let i := index_of k d in
      if i =? 0 then find c0 k (d + 1) else if i =? 1 then find c1 k (d + 1)
      else if i =? 2 then find c2 k (d + 1) else find c3 k (d + 1)
  end.

Fixpoint addrs (t : rxtree_node) : gmultiset Z :=
  match t with
  | Null => ∅
  | Node a _ _ _ c0 c1 c2 c3 => {[+ a +]} ⊎ addrs c0 ⊎ addrs c1 ⊎ addrs c2 ⊎ addrs c3
  end.

Lemma digit_cases i : 0 <= i < 4 -> i = 0 \/ i = 1 \/ i = 2 \/ i = 3.
Proof. lia. Qed.

Lemma child_set_child i j c t :
  t <> Null -> 0 <= i < 4 -> 0 <= j < 4 -> child j (set_child i c t) = if decide (j = i) then c else child j t.
Proof.
  destruct t as [|a p l v c0 c1 c2 c3]; [done|]. intros _ Hi Hj.
  apply digit_cases in Hi as [->|[->|[->| ->]]], Hj as [->|[->|[->| ->]]]; done.
Qed.

Lemma set_child_id i t : 0 <= i < 4 -> set_child i (child i t) t = t.
Proof. destruct t; [done|]. intros Hi. by apply digit_cases in Hi as [->|[->|[->| ->]]]. Qed.

Lemma set_child_addrs i t : t <> Null -> 0 <= i < 4 ->
  exists R, addrs t = addrs (child i t) ⊎ R /\ forall c, addrs (set_child i c t) = addrs c ⊎ R.
Proof.
  destruct t as [|a p l v c0 c1 c2 c3]; [done|]. intros _ Hi.
  apply digit_cases in Hi as [->|[->|[->| ->]]]; cbn [addrs child set_child Z.eqb Pos.eqb].
  - exists ({[+ a +]} ⊎ addrs c1 ⊎ addrs c2 ⊎ addrs c3). split; [multiset_solver|intros c; cbn [addrs]; multiset_solver].
  - exists ({[+ a +]} ⊎ addrs c0 ⊎ addrs c2 ⊎ addrs c3). split; [multiset_solver|intros c; cbn [addrs]; multiset_solver].
  - exists ({[+ a +]} ⊎ addrs c0 ⊎ addrs c1 ⊎ addrs c3). split; [multiset_solver|intros c; cbn [addrs]; multiset_solver].
  - exists ({[+ a +]} ⊎ addrs c0 ⊎ addrs c1 ⊎ addrs c2). split; [multiset_solver|intros c; cbn [addrs]; multiset_solver].
Qed.

Lemma leaf_set_child i c t : leaf (set_child i c t) = leaf t.
Proof. destruct t; [done|]. cbn. by repeat case_match. Qed.

Lemma wf_inner t d q : t <> Null -> leaf t = false ->
  wf t d q <-> d < 32 /\ forall i, 0 <= i < 4 -> wf (child i t) (d + 1) (4 * q + i).
Proof.
  destruct t as [|a p l v c0 c1 c2 c3]; [done|]. cbn [leaf wf]. intros _ ->. split.
  - intros (Hd & W0 & W1 & W2 & W3). split; [done|]. intros i Hi.
    apply digit_cases in Hi as [->|[->|[->| ->]]]; cbn [child Z.eqb]; rewrite ?Z.add_0_r; assumption.
  - intros [Hd Hc]. split; [done|]. pose proof (Hc 0 ltac:(lia)) as H0. rewrite Z.add_0_r in H0.
    pose proof (Hc 1 ltac:(lia)). pose proof (Hc 2 ltac:(lia)). pose proof (Hc 3 ltac:(lia)). done.
Qed.

Lemma find_inner t k d : t <> Null -> leaf t = false -> 0 <= index_of k d < 4 ->
  find t k d = find (child (index_of k d) t) k (d + 1).
Proof.
  destruct t as [|a p l v c0 c1 c2 c3]; [done|]. cbn [leaf find]. intros _ -> Hi.
  apply digit_cases in Hi as [->|[->|[->| ->]]]; done.
Qed.

Lemma lookup_find t : forall k d q, in_width 64 k -> 0 <= d <= 32 -> wf t d q ->
  rxtree_lookup_node t k d = Ok (default NULL (find t k d)).
Proof.
  induction t as [|a p l v c0 IH0 c1 IH1 c2 IH2 c3 IH3]; intros k d q Hk Hd W; cbn [rxtree_lookup_node find]; [done|].
  destruct l; cbn [wf] in W; [by destruct (p =? k)|]. destruct W as (Hd' & W0 & W1 & W2 & W3).
  assert ((shift_of d <? 0) = false) as -> by (unfold shift_of; change RADIX_TREE_MAP_SHIFT with 2; lia).
  repeat case_match; eauto with lia.
Qed.

Lemma path_lower p d q i : 0 <= p -> 0 <= d < 32 -> 0 <= i < 4 -> path p (d + 1) = 4 * q + i -> path p d = q.
Proof.
  intros Hp Hd Hi E. rewrite path_pred, E by done. symmetry. by apply (Z.div_unique _ 4 _ i); [left|].
Qed.

Lemma path_child key d q : 0 <= key -> 0 <= d < 32 -> path key d = q -> path key (d + 1) = 4 * q + index_of key d.
Proof. intros Hk Hd <-. by destruct (index_of_spec key d Hk Hd) as [_ ->]. Qed.

(** Keys that agree on 32 digits are equal. *)
Lemma path_distinct k k' d q : path k d = q -> path k' d = q -> k <> k' -> d <= 32 -> d < 32.
Proof.
  intros E E' Hne Hd. destruct (Z.eq_dec d 32) as [->|]; [|lia]. rewrite path_32 in E, E'. congruence.
Qed.

Section proof.
Context {A : Type} `{KAlloc A} {own : A -> gset Z -> Prop} {HOk : KAllocOk A own}.
Notation owns := (owns own).

Lemma wp_node_alloc a Y p l v (Q : rxtree_node -> A -> Prop) :
  owns a Y -> (forall a', owns a' Y -> Q Null a') ->
  (forall x a', owns a' ({[+ x +]} ⊎ Y) -> Q (Node x p l v Null Null Null Null) a') ->
  wp False (rxtree_node_alloc p l v) Q a.
Proof.
  intros Ho H1 H2. apply wp_bind. eapply wp_owns_alloc; [exact Ho|..].
  - intros a' Ha. by apply wp_ret, H1.
  - intros x a' Hx Ha. apply wp_ret. destruct (Z.eqb_spec x NULL); [unfold NULL in *; lia|by apply H2].
Qed.

Lemma node_free_spec t : forall a Y (Q : unit -> A -> Prop),
  owns a (addrs t ⊎ Y) -> (forall a', owns a' Y -> Q tt a') -> wp False (rxtree_node_free t) Q a.
Proof.
  induction t as [|x p l v c0 IH0 c1 IH1 c2 IH2 c3 IH3]; intros a Y Q Ho HQ; cbn [rxtree_node_free addrs] in *.
  - apply wp_ret, HQ. by replace Y with (∅ ⊎ Y) by multiset_solver.
  - apply wp_bind. apply (IH0 _ ({[+ x +]} ⊎ addrs c1 ⊎ addrs c2 ⊎ addrs c3 ⊎ Y)); [by replace (addrs c0 ⊎ _) with
      ({[+ x +]} ⊎ addrs c0 ⊎ addrs c1 ⊎ addrs c2 ⊎ addrs c3 ⊎ Y) by multiset_solver|]. intros a1 Ha1.
    apply wp_bind. apply (IH1 _ ({[+ x +]} ⊎ addrs c2 ⊎ addrs c3 ⊎ Y)); [by replace (addrs c1 ⊎ _) with
      ({[+ x +]} ⊎ addrs c1 ⊎ addrs c2 ⊎ addrs c3 ⊎ Y) by multiset_solver|]. intros a2 Ha2.
    apply wp_bind. apply (IH2 _ ({[+ x +]} ⊎ addrs c3 ⊎ Y)); [by replace (addrs c2 ⊎ _) with
      ({[+ x +]} ⊎ addrs c2 ⊎ addrs c3 ⊎ Y) by multiset_solver|]. intros a3 Ha3.
    apply wp_bind. apply (IH3 _ ({[+ x +]} ⊎ Y)); [by replace (addrs c3 ⊎ _) with
      ({[+ x +]} ⊎ addrs c3 ⊎ Y) by multiset_solver|]. intros a4 Ha4.
    eapply wp_owns_free; [exact Ha4|exact HQ].
Qed.

(** Result of an insertion: done, the new tree holding the old memory and
    perhaps some that is lost; or out of memory and nothing has changed. *)
Definition inserted (t : rxtree_node) (key v d q : Z) (Y : gmultiset Z) (r : Z) (t' : rxtree_node) (a' : A) : Prop :=
  (r = 0 /\ wf t' d q /\ t' <> Null /\
   (forall k, in_width 64 k -> path k d = q -> find t' k d = if decide (k = key) then Some v else find t k d) /\
   exists Z, owns a' (addrs t' ⊎ Z ⊎ Y)) \/
  (r = - ENOMEM /\ t' = t /\ find t key d = None /\ owns a' (addrs t ⊎ Y)).

Lemma wf_leaf a p v d q : in_width 64 p -> path p d = q -> wf (Node a p true v Null Null Null Null) d q.
Proof. by cbn. Qed.

(** An inner node all of whose paths go through one child. *)
Lemma find_single x p v n i k d : 0 <= index_of k d < 4 -> 0 <= i < 4 ->
  find (set_child i n (Node x p false v Null Null Null Null)) k d =
    if decide (index_of k d = i) then find n k (d + 1) else None.
Proof.
  intros Hk Hi. rewrite find_inner by (by rewrite ?leaf_set_child || (cbn; by repeat case_match)).
  rewrite child_set_child by done. case_decide as E; [done|].
  apply digit_cases in Hk as [->|[->|[->| ->]]]; done.
Qed.

Lemma set_child_not_null i c t : t <> Null -> set_child i c t <> Null.
Proof. destruct t; [done|]. cbn. by repeat case_match. Qed.

Lemma wf_single x p v n i d q : d < 32 -> 0 <= i < 4 -> wf n (d + 1) (4 * q + i) ->
  wf (set_child i n (Node x p false v Null Null Null Null)) d q.
Proof.
  intros Hd Hi Hn. apply wf_inner; [by apply set_child_not_null|by rewrite leaf_set_child|].
  split; [done|]. intros j Hj. rewrite child_set_child by done. case_decide; [by subst|].
  apply digit_cases in Hj as [->|[->|[->| ->]]]; done.
Qed.

Lemma addrs_single x p v n i l : 0 <= i < 4 ->
  addrs (set_child i n (Node x p l v Null Null Null Null)) = addrs n ⊎ {[+ x +]}.
Proof. intros Hi. apply digit_cases in Hi as [->|[->|[->| ->]]]; cbn [addrs set_child Z.eqb Pos.eqb]; multiset_solver. Qed.

(** The node that takes over the children of the temporary parent. *)
Lemma takeover x p v n i a q w : 0 <= i < 4 ->
  let P := set_child i n (Node x p false v Null Null Null Null) in
  Node a q false w (child 0 P) (child 1 P) (child 2 P) (child 3 P) =
    set_child i n (Node a q false w Null Null Null Null).
Proof. intros Hi. by apply digit_cases in Hi as [->|[->|[->| ->]]]. Qed.

(** A leaf is split into the two leaves [key] and [prefix]: what the keys see. *)
Lemma find_split k key v p w (o : option Z) :
  key <> p -> (o = if decide (k = p) then Some w else if decide (k = key) then Some v else None) ->
  o = if decide (k = key) then Some v else if p =? k then Some w else None.
Proof. intros Hne ->. repeat case_decide; destruct (Z.eqb_spec p k); congruence. Qed.

(** An insertion behind a null pointer. *)
Lemma insert_null fuel key v d a Y (Q : Z * rxtree_node -> A -> Prop) :
  owns a Y -> (forall a', owns a' Y -> Q (- ENOMEM, Null) a') ->
  (forall y a', owns a' ({[+ y +]} ⊎ Y) -> Q (0, Node y key true v Null Null Null Null) a') ->
  wp False (rxtree_insert_node (S fuel) Null key v d) Q a.
Proof.
  intros Ho H1 H2. cbn [rxtree_insert_node]. apply wp_bind. eapply wp_node_alloc; [exact Ho|..].
  - intros a' Ha. by apply wp_ret, H1.
  - intros y a' Ha. by apply wp_ret, H2.
Qed.

Lemma addrs_leaf x p l v : addrs (Node x p l v Null Null Null Null) = {[+ x +]}.
Proof. cbn [addrs]. multiset_solver. Qed.

Lemma shift_ok d : d < 32 -> (shift_of d <? 0) = false.
Proof. unfold shift_of. change RADIX_TREE_MAP_SHIFT with 2. intros. apply Z.ltb_ge. lia. Qed.

Definition leaf_node (x p v : Z) : rxtree_node := Node x p true v Null Null Null Null.
Definition inner_node (x p v : Z) : rxtree_node := Node x p false v Null Null Null Null.

(** A leaf is replaced by an inner node that leads to both keys. *)
Lemma split_deep x p w key v d q n2 y Y Z2 a :
  in_width 64 key -> in_width 64 p -> 0 <= d < 32 -> path key d = q -> path p d = q -> key <> p ->
  index_of key d = index_of p d ->
  wf n2 (d + 1) (4 * q + index_of p d) ->
  (forall k, in_width 64 k -> path k (d + 1) = 4 * q + index_of p d ->
     find n2 k (d + 1) = if decide (k = p) then Some w else find (leaf_node y key v) k (d + 1)) ->
  owns a (addrs n2 ⊎ Z2 ⊎ ({[+ x +]} ⊎ Y)) ->
  inserted (leaf_node x p w) key v d q Y 0 (set_child (index_of p d) n2 (inner_node x p NULL)) a.
Proof.
  intros Hk Hp Hd Hkq Hpq Hne Ei W F Ho.
  assert (0 <= key /\ 0 <= p) as [Hk0 Hp0] by (unfold in_width in *; lia).
  destruct (index_of_spec p d Hp0 Hd) as [Hi _]. left. split; [done|].
  split; [by apply wf_single; [lia|..]|]. split; [by apply set_child_not_null|]. split.
  - intros k Hkw Hkp. assert (0 <= k) as Hkn by (unfold in_width in Hkw; lia).
    destruct (index_of_spec k d Hkn Hd) as [Hki _]. unfold inner_node. rewrite find_single by done.
    cbn [find leaf_node]. destruct (decide (index_of k d = index_of p d)) as [E|E].
    + rewrite F by (done || (rewrite <- E; by apply path_child)). cbn [find leaf_node].
      repeat case_decide; repeat case_match; try congruence; rewrite ?Z.eqb_eq, ?Z.eqb_neq in *; congruence.
    + rewrite decide_False by (intros ->; congruence).
      destruct (Z.eqb_spec p k) as [->|]; [done|done].
  - exists Z2. unfold inner_node. rewrite addrs_single by done.
    by replace (addrs n2 ⊎ {[+ x +]} ⊎ Z2 ⊎ Y) with (addrs n2 ⊎ Z2 ⊎ ({[+ x +]} ⊎ Y)) by multiset_solver.
Qed.

(** A leaf is replaced by an inner node with two leaves; the old leaf is lost. *)
Lemma split_here x p w key v d q y y1 y2 Y a :
  in_width 64 key -> in_width 64 p -> 0 <= d < 32 -> path key d = q -> path p d = q ->
  index_of key d <> index_of p d ->
  owns a ({[+ y2 +]} ⊎ ({[+ y1 +]} ⊎ ({[+ y +]} ⊎ ({[+ x +]} ⊎ Y)))) ->
  inserted (leaf_node x p w) key v d q Y 0
    (set_child (index_of p d) (leaf_node y2 p w)
       (set_child (index_of key d) (leaf_node y1 key v) (inner_node y 0 NULL))) a.
Proof.
  intros Hk Hp Hd Hkq Hpq Ei Ho.
  assert (0 <= key /\ 0 <= p) as [Hk0 Hp0] by (unfold in_width in *; lia).
  destruct (index_of_spec p d Hp0 Hd) as [Hi _], (index_of_spec key d Hk0 Hd) as [Hi' _].
  set (T1 := set_child (index_of key d) (leaf_node y1 key v) (inner_node y 0 NULL)).
  assert (T1 <> Null) as N1 by by apply set_child_not_null.
  assert (leaf T1 = false) as L1 by by apply (leaf_set_child _ _ (inner_node y 0 NULL)).
  assert (Hc : forall i, 0 <= i < 4 -> child i T1 = if decide (i = index_of key d) then leaf_node y1 key v else Null).
  { intros i Hi0. subst T1. rewrite child_set_child by done. case_decide; [done|].
    by apply digit_cases in Hi0 as [->|[->|[->| ->]]]. }
  left. split; [done|]. split; [|split; [by apply set_child_not_null|split]].
  - apply wf_inner; [by apply set_child_not_null|by rewrite leaf_set_child|]. split; [lia|].
    intros i Hi0. rewrite child_set_child by done. case_decide as E; [|rewrite Hc by done; case_decide as E'; [|done]].
    + subst i. apply wf_leaf; [done|]. by apply path_child.
    + subst i. apply wf_leaf; [done|]. by apply path_child.
  - intros k Hkw Hkp. assert (0 <= k) as Hkn by (unfold in_width in Hkw; lia).
    destruct (index_of_spec k d Hkn Hd) as [Hki _].
    rewrite find_inner by (by rewrite ?leaf_set_child || by apply set_child_not_null || done).
    rewrite child_set_child by done. cbn [find leaf_node].
    destruct (decide (index_of k d = index_of p d)) as [E|E].
    + rewrite (decide_False (P := k = key)) by (intros ->; congruence). done.
    + rewrite Hc by done. case_decide as E'; cbn [find leaf_node].
      * destruct (Z.eqb_spec key k), (Z.eqb_spec p k); case_decide; congruence.
      * rewrite decide_False by (intros ->; congruence). destruct (Z.eqb_spec p k); congruence.
  - exists {[+ x +]}. destruct (set_child_addrs (index_of p d) T1 N1 Hi) as (R & E1 & E2).
    rewrite E2. rewrite Hc, decide_False in E1 by (done || lia). cbn [addrs] in E1.
    subst T1. unfold inner_node in E1. rewrite addrs_single in E1 by done. unfold leaf_node in *. rewrite !addrs_leaf in *.
    replace ({[+ y2 +]} ⊎ R ⊎ {[+ x +]} ⊎ Y) with ({[+ y2 +]} ⊎ ({[+ y1 +]} ⊎ ({[+ y +]} ⊎ ({[+ x +]} ⊎ Y)))); [done|].
    replace R with ({[+ y1 +]} ⊎ {[+ y +]} : gmultiset Z) by (rewrite E1; multiset_solver).
    clear. multiset_solver.
Qed.

(** What is proved of an insertion with [fuel], for all trees. *)
Definition insert_ok (fuel : nat) : Prop := forall t key v d q a Y,
  wf t d q -> in_width 64 key -> path key d = q -> 0 <= d <= 32 -> (Z.to_nat (32 - d) < fuel)%nat ->
  owns a (addrs t ⊎ Y) ->
  wp False (rxtree_insert_node fuel t key v d) (fun '(r, t') a' => inserted t key v d q Y r t' a') a.

Lemma insert_at_null fuel key v d q a Y :
  in_width 64 key -> path key d = q -> owns a (addrs Null ⊎ Y) ->
  wp False (rxtree_insert_node (S fuel) Null key v d) (fun '(r, t') a' => inserted Null key v d q Y r t' a') a.
Proof.
  intros Hk Hq Ho. eapply insert_null; [exact Ho|..].
  - intros a' Ha. right. by split_and!.
  - intros y a' Ha. left. split; [done|]. split; [by apply wf_leaf|]. split; [done|]. split.
    + intros k _ _. cbn [find]. case_decide as E; destruct (Z.eqb_spec key k); congruence.
    + exists ∅. rewrite addrs_leaf. cbn [addrs] in Ha.
      by replace ({[+ y +]} ⊎ ∅ ⊎ Y) with ({[+ y +]} ⊎ (∅ ⊎ Y)) by (clear; multiset_solver).
Qed.

(** The value of a leaf is replaced. *)
Lemma insert_same x key w v d q a Y :
  in_width 64 key -> path key d = q -> owns a (addrs (leaf_node x key w) ⊎ Y) ->
  inserted (leaf_node x key w) key v d q Y 0 (leaf_node x key v) a.
Proof.
  intros Hk Hq Ho. left. split; [done|]. split; [by apply wf_leaf|]. split; [done|]. split.
  - intros k _ _. cbn [find leaf_node]. case_decide as E; destruct (Z.eqb_spec key k); congruence.
  - exists ∅. unfold leaf_node in *. rewrite addrs_leaf in *.
    by replace ({[+ x +]} ⊎ ∅ ⊎ Y) with ({[+ x +]} ⊎ Y) by (clear; multiset_solver).
Qed.

Lemma insert_back x p w key v d q Y a' :
  key <> p -> owns a' ({[+ x +]} ⊎ Y) -> inserted (leaf_node x p w) key v d q Y (- ENOMEM) (leaf_node x p w) a'.
Proof.
  intros Hne Ha. right. split; [done|]. split; [done|]. split.
  - cbn [find leaf_node]. by destruct (Z.eqb_spec p key).
  - unfold leaf_node. by rewrite addrs_leaf.
Qed.

(** The temporary parent is given up with what hangs below it. *)
Lemma free_parent n y i x p w key v d q Y a' :
  0 <= i < 4 -> key <> p -> owns a' (addrs n ⊎ ({[+ y +]} ⊎ ({[+ x +]} ⊎ Y))) ->
  wp False (do! rxtree_node_free (set_child i n (inner_node y 0 NULL)) in ret (- ENOMEM, leaf_node x p w))
    (fun '(r, t') a' => inserted (leaf_node x p w) key v d q Y r t' a') a'.
Proof.
  intros Hi Hne Ho. apply wp_bind.
  eapply (node_free_spec _ _ ({[+ x +]} ⊎ Y)); [|intros a4 Ha4; apply wp_ret; by apply insert_back].
  unfold inner_node. rewrite addrs_single by done.
  by replace (addrs n ⊎ {[+ y +]} ⊎ ({[+ x +]} ⊎ Y)) with (addrs n ⊎ ({[+ y +]} ⊎ ({[+ x +]} ⊎ Y)))
    by (clear; multiset_solver).
Qed.

Lemma free_parent2 n1 n2 i1 i2 y x p w key v d q Y a' :
  0 <= i1 < 4 -> 0 <= i2 < 4 -> i1 <> i2 -> key <> p ->
  owns a' (addrs n1 ⊎ addrs n2 ⊎ ({[+ y +]} ⊎ ({[+ x +]} ⊎ Y))) ->
  wp False (do! rxtree_node_free (set_child i2 n2 (set_child i1 n1 (inner_node y 0 NULL))) in
            ret (- ENOMEM, leaf_node x p w))
    (fun '(r, t') a' => inserted (leaf_node x p w) key v d q Y r t' a') a'.
Proof.
  intros Hi1 Hi2 Hii Hne Ha'. apply wp_bind. set (P0 := inner_node y 0 NULL).
  eapply (node_free_spec _ _ ({[+ x +]} ⊎ Y)); [|intros a4 Ha4; apply wp_ret; by apply insert_back].
  assert (set_child i1 n1 P0 <> Null) as N by by apply set_child_not_null.
  destruct (set_child_addrs i2 _ N Hi2) as (R & E1 & ->).
  rewrite child_set_child, decide_False in E1 by (done || lia).
  assert (child i2 P0 = Null) as Ec by (by apply digit_cases in Hi2 as [->|[->|[->| ->]]]).
  rewrite Ec in E1. unfold P0, inner_node in E1. rewrite addrs_single in E1 by done. cbn [addrs] in E1.
  replace R with (addrs n1 ⊎ {[+ y +]}) by (rewrite E1; clear; multiset_solver).
  by replace (addrs n2 ⊎ (addrs n1 ⊎ {[+ y +]}) ⊎ ({[+ x +]} ⊎ Y)) with
    (addrs n1 ⊎ addrs n2 ⊎ ({[+ y +]} ⊎ ({[+ x +]} ⊎ Y))) by (clear; multiset_solver).
Qed.

(** Both keys go on below the same child of the temporary parent [y]. *)
Lemma insert_deep fuel x p w key v d q a Y y i :
  insert_ok (S fuel) -> in_width 64 key -> in_width 64 p -> 0 <= d < 32 -> path key d = q -> path p d = q ->
  key <> p -> index_of key d = i -> index_of p d = i -> (Z.to_nat (32 - d) < S (S fuel))%nat ->
  owns a ({[+ y +]} ⊎ ({[+ x +]} ⊎ Y)) ->
  wp False
    (let parent := inner_node y 0 NULL in
     let! '(r1, n1) := rxtree_insert_node (S fuel) (child i parent) key v (d + 1) in
     let parent := set_child i n1 parent in
     if negb (r1 =? 0) then do! rxtree_node_free parent in ret (- ENOMEM, leaf_node x p w) else
     let! '(r2, n2) := rxtree_insert_node (S fuel) (child i parent) p w (d + 1) in
     let parent := set_child i n2 parent in
     if negb (r2 =? 0) then do! rxtree_node_free parent in ret (- ENOMEM, leaf_node x p w) else
     do! free_shell parent in
     ret (0, Node x p false NULL (child 0 parent) (child 1 parent) (child 2 parent) (child 3 parent)))
    (fun '(r, t') a' => inserted (leaf_node x p w) key v d q Y r t' a') a.
Proof.
  intros IH Hk Hp Hdd Hq Hpq Hne Eik Eip Hf Ho. cbv zeta.
  assert (0 <= key /\ 0 <= p) as [Hk0 Hp0] by (unfold in_width in *; lia).
  pose proof (path_child key d q Hk0 Hdd Hq) as Hkc. pose proof (path_child p d q Hp0 Hdd Hpq) as Hpc.
  destruct (index_of_spec p d Hp0 Hdd) as [Hi _]. rewrite Eik in Hkc. rewrite Eip in Hpc, Hi.
  assert (child i (inner_node y 0 NULL) = Null) as -> by (by apply digit_cases in Hi as [->|[->|[->| ->]]]).
  apply wp_bind. eapply insert_null; [exact Ho|..].
  - intros a2 Ha2. apply free_parent; [done|done|]. cbn [addrs].
    by replace (∅ ⊎ ({[+ y +]} ⊎ ({[+ x +]} ⊎ Y))) with ({[+ y +]} ⊎ ({[+ x +]} ⊎ Y)) by (clear; multiset_solver).
  - intros y1 a2 Ha2. cbv beta iota. change (negb (0 =? 0)) with false. cbv iota. apply wp_bind.
    fold (leaf_node y1 key v). set (n1 := leaf_node y1 key v) in *.
    assert (child i (set_child i n1 (inner_node y 0 NULL)) = n1) as -> by (by rewrite child_set_child, decide_True).
    assert (forall n, set_child i n (set_child i n1 (inner_node y 0 NULL)) = set_child i n (inner_node y 0 NULL)) as Hss.
    { intros n. by apply digit_cases in Hi as [->|[->|[->| ->]]]. }
    eapply wp_mono; [apply (IH n1 p w (d + 1) (4 * q + i) a2 ({[+ y +]} ⊎ ({[+ x +]} ⊎ Y)))|done|].
    1-5: first [by apply wf_leaf|done|lia].
    { unfold n1, leaf_node. by rewrite addrs_leaf. }
    intros [r2 n2] a3 [(-> & W2 & N2 & F2 & Z2 & Ha3)|(-> & -> & Fp & Ha3)]; cbv beta iota; rewrite Hss.
    + change (negb (0 =? 0)) with false. cbv iota. apply wp_bind.
      unfold inner_node in *. rewrite (takeover y 0 NULL n2 i x p NULL) by done.
      assert (free_shell (set_child i n2 (Node y 0 false NULL Null Null Null Null)) = ka_free y) as ->
        by (by apply digit_cases in Hi as [->|[->|[->| ->]]]).
      eapply (wp_owns_free _ (addrs n2 ⊎ Z2 ⊎ ({[+ x +]} ⊎ Y))).
      { by replace ({[+ y +]} ⊎ (addrs n2 ⊎ Z2 ⊎ ({[+ x +]} ⊎ Y))) with
          (addrs n2 ⊎ Z2 ⊎ ({[+ y +]} ⊎ ({[+ x +]} ⊎ Y))) by (clear; multiset_solver). }
      intros a4 Ha4. apply wp_ret. rewrite <- Eip.
      apply (split_deep x p w key v d q n2 y1 Y Z2 a4); rewrite ?Eip; done.
    + by apply free_parent.
Qed.

(** The keys part at this depth. *)
Lemma insert_part x p w key v d q a Y y :
  in_width 64 key -> in_width 64 p -> 0 <= d < 32 -> path key d = q -> path p d = q -> key <> p ->
  index_of key d <> index_of p d -> owns a ({[+ y +]} ⊎ ({[+ x +]} ⊎ Y)) ->
  wp False
    (let parent := inner_node y 0 NULL in
     let! n1 := rxtree_node_alloc key true v in
     let parent := set_child (index_of key d) n1 parent in
     let! n2 := rxtree_node_alloc p true w in
     let parent := set_child (index_of p d) n2 parent in
     if is_null n1 || is_null n2 then
       do! rxtree_node_free parent in ret (- ENOMEM, leaf_node x p w)
     else ret (0, parent))
    (fun '(r, t') a' => inserted (leaf_node x p w) key v d q Y r t' a') a.
Proof.
  intros Hk Hp Hdd Hq Hpq Hne Ei Ho. cbv zeta.
  assert (0 <= key /\ 0 <= p) as [Hk0 Hp0] by (unfold in_width in *; lia).
  destruct (index_of_spec key d Hk0 Hdd) as [Hi1 _], (index_of_spec p d Hp0 Hdd) as [Hi2 _].
  apply wp_bind. eapply wp_node_alloc; [exact Ho|..].
  - intros a2 Ha2. apply wp_bind. eapply wp_node_alloc; [exact Ha2|..].
    + intros a3 Ha3. cbn [is_null orb]. apply free_parent2; try done. cbn [addrs].
      by replace (∅ ⊎ ∅ ⊎ ({[+ y +]} ⊎ ({[+ x +]} ⊎ Y))) with ({[+ y +]} ⊎ ({[+ x +]} ⊎ Y)) by (clear; multiset_solver).
    + intros y2 a3 Ha3. cbn [is_null orb]. apply free_parent2; try done. rewrite addrs_leaf. cbn [addrs].
      by replace (∅ ⊎ {[+ y2 +]} ⊎ ({[+ y +]} ⊎ ({[+ x +]} ⊎ Y))) with
        ({[+ y2 +]} ⊎ ({[+ y +]} ⊎ ({[+ x +]} ⊎ Y))) by (clear; multiset_solver).
  - intros y1 a2 Ha2. apply wp_bind. eapply wp_node_alloc; [exact Ha2|..].
    + intros a3 Ha3. cbn [is_null orb]. apply free_parent2; try done. rewrite addrs_leaf. cbn [addrs].
      by replace ({[+ y1 +]} ⊎ ∅ ⊎ ({[+ y +]} ⊎ ({[+ x +]} ⊎ Y))) with
        ({[+ y1 +]} ⊎ ({[+ y +]} ⊎ ({[+ x +]} ⊎ Y))) by (clear; multiset_solver).
    + intros y2 a3 Ha3. cbn [is_null orb]. apply wp_ret. by apply split_here.
Qed.

(** Below an inner node, given the result of the insertion into its child. *)
Lemma insert_below t key v d q a1 Y n r R :
  t <> Null -> leaf t = false -> wf t d q -> in_width 64 key -> 0 <= d < 32 ->
  let i := index_of key d in
  addrs t = addrs (child i t) ⊎ R -> (forall c, addrs (set_child i c t) = addrs c ⊎ R) ->
  inserted (child i t) key v (d + 1) (4 * q + i) (R ⊎ Y) r n a1 ->
  inserted t key v d q Y r (set_child i n t) a1.
Proof.
  intros N Lf W Hk Hdd i E1 E2 Hin. apply (wf_inner t d q N Lf) in W as [Hd' Wc].
  assert (0 <= key) as Hk0 by (unfold in_width in Hk; lia).
  destruct (index_of_spec key d Hk0 Hdd) as [Hi _]. fold i in Hi.
  destruct Hin as [(-> & W1 & N1 & F1 & Z1 & Ha1)|(-> & -> & F1 & Ha1)].
  - left. split; [done|]. split; [|split; [by apply set_child_not_null|split]].
    + apply wf_inner; [by apply set_child_not_null|by rewrite leaf_set_child|]. split; [lia|].
      intros j Hj. rewrite child_set_child by done. case_decide; [by subst j|by apply Wc].
    + intros k Hkw Hkp. assert (0 <= k) as Hkn by (unfold in_width in Hkw; lia).
      destruct (index_of_spec k d Hkn Hdd) as [Hki _].
      rewrite (find_inner (set_child i n t)) by (by rewrite ?leaf_set_child || by apply set_child_not_null || done).
      rewrite child_set_child by done. rewrite (find_inner t) by done.
      destruct (decide (index_of k d = i)) as [Ej|Ej].
      * rewrite Ej, F1; [done|done|]. rewrite <- Ej. by apply path_child.
      * rewrite decide_False; [done|]. intros ->. by apply Ej.
    + exists Z1. rewrite E2. by replace (addrs n ⊎ R ⊎ Z1 ⊎ Y) with (addrs n ⊎ Z1 ⊎ (R ⊎ Y)) by (clear; multiset_solver).
  - right. split; [done|]. split; [by apply set_child_id|]. split; [by rewrite find_inner|].
    rewrite E1. by replace (addrs (child i t) ⊎ R ⊎ Y) with (addrs (child i t) ⊎ (R ⊎ Y)) by (clear; multiset_solver).
Qed.

Lemma insert_node_spec fuel : insert_ok fuel.
Proof.
  induction fuel as [|fuel IH]; intros t key v d q a Y W Hk Hq Hd Hf Ho; [lia|].
  assert (0 <= key) as Hk0 by (unfold in_width in Hk; lia).
  destruct t as [|x p [] w c0 c1 c2 c3]; [by apply insert_at_null|..]; cbn [rxtree_insert_node].
  - destruct W as (Hp & Hpq & -> & -> & -> & ->). fold (leaf_node x p w) in *.
    destruct (Z.eqb_spec p key) as [->|Hne]; [apply wp_ret; by apply insert_same|]. apply not_eq_sym in Hne.
    assert (d < 32) as Hd' by (eapply (path_distinct key p d q); [done|done|done|lia]).
    unfold leaf_node in Ho at 1. rewrite addrs_leaf in Ho.
    apply wp_bind. eapply wp_node_alloc; [exact Ho|intros a' Ha; apply wp_ret; by apply insert_back|].
    intros y a1 Ha1. cbn [is_null]. rewrite shift_ok by done. fold (inner_node y 0 NULL).
    destruct (Z.eqb_spec (index_of key d) (index_of p d)) as [Ei|Ei]; [|apply insert_part; by first [done|lia]].
    destruct fuel as [|fuel]; [lia|]. rewrite Ei.
    apply insert_deep; by first [done|lia].
  - set (t := Node x p false w c0 c1 c2 c3) in *.
    assert (t <> Null /\ leaf t = false) as [N Lf] by done. pose proof W as W0.
    apply (wf_inner t d q N Lf) in W as [Hd' Wc]. assert (0 <= d < 32) as Hdd by lia.
    rewrite shift_ok by done. destruct (index_of_spec key d Hk0 Hdd) as [Hi _].
    destruct (set_child_addrs (index_of key d) t N Hi) as (R & E1 & E2). apply wp_bind.
    eapply wp_mono; [apply (IH (child (index_of key d) t) key v (d + 1) (4 * q + index_of key d) a (R ⊎ Y))|done|].
    + by apply Wc.
    + done.
    + by apply path_child.
    + lia.
    + lia.
    + rewrite E1 in Ho. by replace (addrs (child (index_of key d) t) ⊎ (R ⊎ Y)) with
        (addrs (child (index_of key d) t) ⊎ R ⊎ Y) by (clear; multiset_solver).
    + intros [r n] a1 Hin. apply wp_ret. by apply (insert_below t key v d q a1 Y n r R).
Qed.

(** ** Deletion *)

Definition agree (t t' : rxtree_node) (d q : Z) : Prop :=
  forall k, in_width 64 k -> path k d = q -> find t' k d = find t k d.

(** The only child that is not null. *)
Lemma live_children_spec t : t <> Null ->
  match live_children t with
  | [] => forall i, 0 <= i < 4 -> child i t = Null
  | [c] => c <> Null /\ exists i, 0 <= i < 4 /\ child i t = c /\ forall j, 0 <= j < 4 -> j <> i -> child j t = Null
  | _ => True
  end.
Proof.
  destruct t as [|x p l v c0 c1 c2 c3]; [done|]. intros _. unfold live_children. cbn [child Z.eqb Pos.eqb].
  assert (Hex : forall i c, 0 <= i < 4 -> child i (Node x p l v c0 c1 c2 c3) = c ->
    (forall j, 0 <= j < 4 -> j <> i -> child j (Node x p l v c0 c1 c2 c3) = Null) ->
    exists i, 0 <= i < 4 /\ child i (Node x p l v c0 c1 c2 c3) = c /\
      forall j, 0 <= j < 4 -> j <> i -> child j (Node x p l v c0 c1 c2 c3) = Null) by (intros i c; by exists i).
  destruct c0, c1, c2, c3; cbn; try done; try (split; [done|]);
    first [ intros i Hi; by apply digit_cases in Hi as [->|[->|[->| ->]]]
          | apply (Hex 0); [done|done|]; intros j Hj Hne; apply digit_cases in Hj as [->|[->|[->| ->]]]; done
          | apply (Hex 1); [done|done|]; intros j Hj Hne; apply digit_cases in Hj as [->|[->|[->| ->]]]; done
          | apply (Hex 2); [done|done|]; intros j Hj Hne; apply digit_cases in Hj as [->|[->|[->| ->]]]; done
          | apply (Hex 3); [done|done|]; intros j Hj Hne; apply digit_cases in Hj as [->|[->|[->| ->]]]; done ].
Qed.

(** An inner node, one of whose children is [c] and the others null. *)
Lemma only_child_addrs t i c : t <> Null -> 0 <= i < 4 -> child i t = c ->
  (forall j, 0 <= j < 4 -> j <> i -> child j t = Null) ->
  exists a, free_shell t = ka_free (A := A) a /\ addrs t = {[+ a +]} ⊎ addrs c.
Proof.
  destruct t as [|x p l v c0 c1 c2 c3]; [done|]. intros _ Hi Hc Hj. exists x. split; [done|].
  pose proof (Hj 0 ltac:(lia)) as H0. pose proof (Hj 1 ltac:(lia)) as H1.
  pose proof (Hj 2 ltac:(lia)) as H2. pose proof (Hj 3 ltac:(lia)) as H3. clear Hj.
  cbn [child Z.eqb Pos.eqb] in *.
  apply digit_cases in Hi as [->|[->|[->| ->]]]; cbn [child Z.eqb Pos.eqb] in *;
    rewrite ?H0, ?H1, ?H2, ?H3 by done; subst; cbn [addrs]; clear; multiset_solver.
Qed.

Lemma collapse_spec t d q a Y :
  t <> Null -> leaf t = false -> wf t d q -> 0 <= d -> owns a (addrs t ⊎ Y) ->
  wp False (collapse t) (fun t' a' => wf t' d q /\ agree t t' d q /\ owns a' (addrs t' ⊎ Y)) a.
Proof.
  intros N Lf W Hd Ho. pose proof (live_children_spec t N) as Hl.
  pose proof (proj1 (wf_inner t d q N Lf) W) as [Hd' Wc]. assert (0 <= d < 32) as Hdd by lia.
  assert (Hfind : forall k, in_width 64 k -> find t k d = find (child (index_of k d) t) k (d + 1)).
  { intros k Hk. assert (0 <= k) as Hk0 by (unfold in_width in Hk; lia).
    destruct (index_of_spec k d Hk0 Hdd) as [Hi _]. by apply find_inner. }
  unfold collapse. destruct (live_children t) as [|c [|c' l]].
  - (* no child is left *)
    destruct (only_child_addrs t 0 Null) as (x & -> & Ea); [done|done|by apply Hl|intros j Hj _; by apply Hl|].
    rewrite Ea in Ho. cbn [addrs] in Ho.
    apply wp_bind. eapply (wp_owns_free _ (∅ ⊎ Y)).
    { by replace ({[+ x +]} ⊎ (∅ ⊎ Y)) with ({[+ x +]} ⊎ ∅ ⊎ Y) by (clear; multiset_solver). }
    intros a' Ha. apply wp_ret. split; [done|]. split; [|done].
    intros k Hk Hq. rewrite Hfind by done. rewrite Hl; [done|].
    apply index_of_spec; [unfold in_width in Hk; lia|done].
  - destruct Hl as (Nc & i & Hi & Hc & Hj). destruct (leaf c) eqn:Lc.
    + (* the leaf moves up *)
      destruct (only_child_addrs t i c N Hi Hc Hj) as (x & -> & Ea). rewrite Ea in Ho.
      apply wp_bind. eapply (wp_owns_free _ (addrs c ⊎ Y)).
      { by replace ({[+ x +]} ⊎ (addrs c ⊎ Y)) with ({[+ x +]} ⊎ addrs c ⊎ Y) by (clear; multiset_solver). }
      intros a' Ha. apply wp_ret. specialize (Wc i Hi). rewrite Hc in Wc.
      destruct c as [|y p [] v c0 c1 c2 c3]; [done| |done]. destruct Wc as (Hp & Hpq & Hcs).
      assert (0 <= p) as Hp0 by (unfold in_width in Hp; lia).
      split; [|split; [|done]].
      * split; [done|]. split; [by eapply path_lower|done].
      * intros k Hk Hq. assert (0 <= k) as Hk0 by (unfold in_width in Hk; lia). rewrite Hfind by done.
        destruct (index_of_spec k d Hk0 Hdd) as [Hki _].
        destruct (decide (index_of k d = i)) as [E|E]; [by rewrite E, Hc|].
        rewrite Hj by done. cbn [find]. destruct (Z.eqb_spec p k) as [->|]; [|done].
        exfalso. apply E. pose proof (path_child k d q Hk0 Hdd Hq). lia.
    + apply wp_ret. by split_and!.
  - apply wp_ret. by split_and!.
Qed.

(** What deleting below a position owes its caller. *)
Definition deleted (t : rxtree_node) (key d q : Z) (Y : gmultiset Z) (res : Z * rxtree_node) (a' : A) : Prop :=
  let '(r, t') := res in
  r = (if find t key d then 0 else - EINVAL) /\ wf t' d q /\
  (forall k, in_width 64 k -> path k d = q -> find t' k d = if decide (k = key) then None else find t k d) /\
  owns a' (addrs t' ⊎ Y).

Lemma delete_leaf x p v key d q a Y (t := Node x p true v Null Null Null Null) :
  in_width 64 p -> path p d = q -> owns a (addrs t ⊎ Y) ->
  wp False (rxtree_delete_node t key d) (deleted t key d q Y) a.
Proof.
  intros Hp Hpq Ho. subst t. rewrite addrs_leaf in Ho. cbn [rxtree_delete_node]. unfold deleted.
  destruct (Z.eqb_spec p key) as [->|Hne].
  - apply wp_bind. eapply wp_owns_free; [exact Ho|]. intros a' Ha. apply wp_ret. cbn [find].
    rewrite Z.eqb_refl. split; [done|]. split; [done|]. split.
    + intros k _ _. case_decide as E; [done|]. by destruct (Z.eqb_spec key k).
    + cbn [addrs]. by replace (∅ ⊎ Y) with Y by (clear; multiset_solver).
  - apply wp_ret. cbn [find]. destruct (Z.eqb_spec p key) as [|_]; [done|]. split; [done|].
    split; [by apply wf_leaf|]. split; [|by rewrite addrs_leaf].
    intros k _ _. case_decide as E; [subst k|done]. by destruct (Z.eqb_spec p key).
Qed.

(** An inner node whose child on the path of the key was replaced. *)
Lemma delete_rebuild t n key d q (i := index_of key d) (t1 := set_child i n t) :
  t <> Null -> leaf t = false -> wf t d q -> in_width 64 key -> 0 <= d < 32 ->
  wf n (d + 1) (4 * q + i) ->
  (forall k, in_width 64 k -> path k (d + 1) = 4 * q + i ->
     find n k (d + 1) = if decide (k = key) then None else find (child i t) k (d + 1)) ->
  t1 <> Null /\ leaf t1 = false /\ wf t1 d q /\
  (forall k, in_width 64 k -> path k d = q -> find t1 k d = if decide (k = key) then None else find t k d).
Proof.
  intros N Lf W Hk Hd W1 F1. assert (0 <= key) as Hk0 by (unfold in_width in Hk; lia).
  destruct (index_of_spec key d Hk0 Hd) as [Hi _]. fold i in Hi.
  assert (t1 <> Null) as N1 by by apply set_child_not_null.
  assert (leaf t1 = false) as L1 by (subst t1; by rewrite leaf_set_child).
  split; [done|]. split; [done|]. split.
  - apply wf_inner; [done|done|]. split; [lia|]. intros j Hj. subst t1. rewrite child_set_child by done.
    pose proof (proj1 (wf_inner t d q N Lf) W) as [_ Wc]. case_decide; [by subst j|by apply Wc].
  - intros k Hkw Hkp. assert (0 <= k) as Hkn by (unfold in_width in Hkw; lia).
    destruct (index_of_spec k d Hkn Hd) as [Hki _]. rewrite (find_inner t1), (find_inner t) by done.
    subst t1. rewrite child_set_child by done. destruct (decide (index_of k d = i)) as [Ej|Ej].
    + rewrite Ej, F1; [done|done|]. rewrite <- Ej. by apply path_child.
    + rewrite decide_False; [done|]. intros ->. by apply Ej.
Qed.

Lemma delete_node_spec t : forall key d q a Y,
  wf t d q -> in_width 64 key -> path key d = q -> 0 <= d <= 32 -> owns a (addrs t ⊎ Y) ->
  wp False (rxtree_delete_node t key d) (deleted t key d q Y) a.
Proof.
  induction t as [|x p l v c0 IH0 c1 IH1 c2 IH2 c3 IH3]; intros key d q a Y W Hk Hq Hd Ho.
  { apply wp_ret. split; [done|]. split; [done|]. split; [|done]. intros k _ _. by case_decide. }
  destruct l.
  { destruct W as (Hp & Hpq & -> & -> & -> & ->). by apply delete_leaf. }
  cbn [rxtree_delete_node].
  set (t := Node x p false v c0 c1 c2 c3) in *. assert (t <> Null /\ leaf t = false) as [N Lf] by done.
  pose proof (proj1 (wf_inner t d q N Lf) W) as [Hd' Wc]. assert (0 <= d < 32) as Hdd by lia.
  assert (0 <= key) as Hk0 by (unfold in_width in Hk; lia).
  rewrite shift_ok by done. destruct (index_of_spec key d Hk0 Hdd) as [Hi _].
  pose proof (path_child key d q Hk0 Hdd Hq) as Hkc.
  set (i := index_of key d) in *. cbv zeta.
  destruct (set_child_addrs i t N Hi) as (R & E1 & E2).
  assert (Hrec : wp False (rxtree_delete_node (child i t) key (d + 1))
    (deleted (child i t) key (d + 1) (4 * q + i) (R ⊎ Y)) a).
  { assert (owns a (addrs (child i t) ⊎ (R ⊎ Y))) as Ho'.
    { rewrite E1 in Ho. by replace (addrs (child i t) ⊎ (R ⊎ Y)) with (addrs (child i t) ⊎ R ⊎ Y) by (clear; multiset_solver). }
    specialize (Wc i Hi). clear E1 E2 Ho. apply digit_cases in Hi as [E|[E|[E|E]]]; rewrite E in *; cbn [child t Z.eqb Pos.eqb] in *.
    - apply IH0; first [done|lia]. - apply IH1; first [done|lia].
    - apply IH2; first [done|lia]. - apply IH3; first [done|lia]. }
  assert (Hsel : (if i =? 0 then rxtree_delete_node c0 key (d + 1) else if i =? 1 then rxtree_delete_node c1 key (d + 1)
      else if i =? 2 then rxtree_delete_node c2 key (d + 1) else rxtree_delete_node c3 key (d + 1)) =
    rxtree_delete_node (A := A) (child i t) key (d + 1)).
  { by apply digit_cases in Hi as [->|[->|[->| ->]]]. }
  rewrite Hsel. eapply wp_bind_mono; [exact Hrec|]. clear Hrec Hsel IH0 IH1 IH2 IH3.
  intros [r n] a1 (-> & W1 & F1 & Ha1). cbv beta iota zeta.
  destruct (delete_rebuild t n key d q N Lf W Hk Hdd W1 F1) as (N1 & L1 & Wt1 & Ft1).
  fold i in N1, L1, Wt1, Ft1. set (t1 := set_child i n t) in *.
  assert (owns a1 (addrs t1 ⊎ Y)) as Ho1.
  { subst t1. rewrite E2. by replace (addrs n ⊎ R ⊎ Y) with (addrs n ⊎ (R ⊎ Y)) by (clear; multiset_solver). }
  unfold deleted. rewrite (find_inner t key d N Lf Hi). fold i.
  destruct (find (child i t) key (d + 1)).
  - rewrite Z.eqb_refl. eapply wp_bind_mono; [by apply (collapse_spec t1 d q a1 Y); [..|lia|]|].
    intros c a2 (Wc2 & Fc & Ha2). apply wp_ret. split; [done|]. split; [done|]. split; [|done].
    intros k Hkw Hkp. rewrite Fc by done. by apply Ft1.
  - change (- EINVAL =? 0) with false. cbv iota. apply wp_ret. by split_and!.
Qed.

(** ** The tree as a finite map *)

(** The tree is well formed, holds the map, and owns its nodes; [lost] is the
    memory that insertions have given up. *)
Definition rx_rep (s : rxtree A) (m : gmap Z Z) : Prop :=
  wf (rnode s) 0 0 /\
  (forall k, in_width 64 k -> m !! k = find (rnode s) k 0) /\
  exists lost, owns (rx_alloc s) (addrs (rnode s) ⊎ lost).

Lemma wp_on_rx (m : rxtree A -> ST A (Z * rxtree_node)) (Q : Z -> rxtree A -> Prop) s :
  wp False (m s) (fun '(r, n) a => Q r (Rx n a)) (rx_alloc s) ->
  wp False (fun s => on_rx (m s) s) Q s.
Proof. unfold wp, on_rx. by destruct (m s (rx_alloc s)) as [[[r n] a]| | |]. Qed.

Lemma rx_insert_spec s m k v :
  rx_rep s m -> in_width 64 k ->
  wp False (rxtree_insert k v)
    (fun r s' => exists m', rop_spec m (RInsert k v) r m' /\ rx_rep s' m') s.
Proof.
  intros (W & F & lost & Ho) Hk. 
  assert (Z.to_nat (32 - 0) < 33)%nat as Hf by (apply Nat.ltb_lt; reflexivity).
  pose proof (insert_node_spec 33 (rnode s) k v 0 0 (rx_alloc s) lost W Hk (path_0 k Hk) ltac:(lia) Hf Ho) as Hi.
  unfold rxtree_insert. revert Hi. generalize (rxtree_insert_node (A := A) 33). intros ins Hi.
  apply (wp_on_rx (fun s => ins (rnode s) k v 0)).
  eapply wp_mono; [exact Hi|done|].
  intros [r t'] a' [(-> & W' & _ & F' & L & Ho')|(-> & -> & Hn & Ho')].
  - exists (<[k := v]> m). split; [constructor|]. split; [done|]. split.
    + intros k' Hk'. cbn [rnode]. rewrite F' by (first [done|by apply path_0]). rewrite lookup_insert.
      repeat case_decide; try congruence. by apply F.
    + exists (L ⊎ lost). cbn [rnode rx_alloc].
      by replace (addrs t' ⊎ (L ⊎ lost)) with (addrs t' ⊎ L ⊎ lost) by (clear; multiset_solver).
  - exists m. split; [constructor; by rewrite F|]. split; [done|]. split; [done|]. by exists lost.
Qed.

Lemma rx_lookup_spec s m k :
  rx_rep s m -> in_width 64 k -> rxtree_lookup k s = Ok (default NULL (m !! k), s).
Proof.
  intros (W & F & _) Hk. unfold rxtree_lookup. rewrite (lookup_find _ k 0 0) by (done || lia). by rewrite F.
Qed.

Lemma rx_delete_spec s m k :
  rx_rep s m -> in_width 64 k ->
  wp False (rxtree_delete k)
    (fun r s' => exists m', rop_spec m (RDelete k) r m' /\ rx_rep s' m') s.
Proof.
  intros (W & F & lost & Ho) Hk. apply (wp_on_rx (fun s => rxtree_delete_node (rnode s) k 0)).
  eapply wp_mono; [apply (delete_node_spec (rnode s) k 0 0 _ lost W Hk (path_0 k Hk)); [lia|exact Ho]|done|].
  intros [r t'] a' (-> & W' & F' & Ho'). rewrite <- F by done. exists (delete k m). split.
  - destruct (m !! k) eqn:E; [by econstructor|]. rewrite delete_id by done. by constructor.
  - split; [done|]. split; [|by exists lost]. intros k' Hk'. cbn [rnode].
    rewrite F' by (first [done|by apply path_0]). rewrite lookup_delete.
    repeat case_decide; try congruence. by apply F.
Qed.

Lemma rx_free_spec s m :
  rx_rep s m -> wp False rxtree_free (fun _ s' => rnode s' = Null /\ exists lost, owns (rx_alloc s') lost) s.
Proof.
  intros (_ & _ & lost & Ho).
  pose proof (node_free_spec (rnode s) (rx_alloc s) lost (fun _ a' => owns a' lost) Ho (fun a' Ha => Ha)) as Hf.
  unfold wp, rxtree_free in *. destruct (rxtree_node_free _ _) as [[[] a]| | |]; try done. split; [done|]. by exists lost.
Qed.

Lemma rx_run_spec l : forall s m,
  rx_rep s m -> Forall (fun o => in_width 64 (rop_key o)) l ->
  wp False (run_rops l) (fun rs s' => exists m', rops_spec m l rs m' /\ rx_rep s' m') s.
Proof.
  induction l as [|o l IH]; intros s m R Hl; cbn [run_rops].
  - apply wp_ret. exists m. split; [constructor|done].
  - apply Forall_cons in Hl as [Ho Hl].
    assert (wp False (run_rop o) (fun r s' => exists m', rop_spec m o r m' /\ rx_rep s' m') s) as Hop.
    { destruct o as [k v|k|k]; cbn [run_rop rop_key] in *.
      - by apply rx_insert_spec.
      - eapply wp_run; [by apply rx_lookup_spec|]. exists m. split; [constructor|done].
      - by apply rx_delete_spec. }
    eapply wp_bind_mono; [exact Hop|]. intros r s1 (m1 & H1 & R1).
    eapply wp_bind_mono; [by apply IH|]. intros rs s2 (m2 & H2 & R2).
    apply wp_ret. exists m2. split; [by econstructor|done].
Qed.

(** [C22] The radix tree refines a finite map: in a session that initialises a
    tree, runs any insertions, lookups and deletions on 64-bit keys and frees
    the tree, every operation terminates within the depth of a key and answers
    as on a finite map (an insertion of a new key possibly failing with
    [-ENOMEM] and no effect), no node is freed twice, and what remains live is
    only the memory that insertions have lost. *)
Theorem radix_refines_map a t0 ops :
  owns a ∅ -> Forall (fun o => in_width 64 (rop_key o)) ops ->
  wp False (rx_session ops)
    (fun rs s' => (exists m, rops_spec ∅ ops rs m) /\ rnode s' = Null /\ exists lost, owns (rx_alloc s') lost)
    (Rx t0 a).
Proof.
  intros Ho Hl. unfold rx_session. apply wp_bind, wp_modify.
  assert (rx_rep (Rx Null a) ∅) as R.
  { split; [done|]. split; [intros k _; apply lookup_empty|]. exists ∅. cbn [rnode rx_alloc addrs].
    by replace (∅ ⊎ ∅ : gmultiset Z) with (∅ : gmultiset Z) by multiset_solver. }
  eapply wp_bind_mono; [by apply rx_run_spec|]. intros rs s1 (m & Hm & R1).
  eapply wp_bind_mono; [by apply (rx_free_spec s1 m)|]. intros [] s2 (Hn & Hlost).
  apply wp_ret. split; [by exists m|done].
Qed.

End proof.

Lemma radix_refines_map_witness :
  let ops := [RInsert 1 10; RInsert (2 ^ 63) 20; RLookup 1; RDelete 1; RLookup (2 ^ 63)] in
  wp False (rx_session ops)
    (fun rs s' => (exists m, rops_spec ∅ ops rs m) /\ rnode s' = Null /\ exists lost, owns bump_own (rx_alloc s') lost)
    (Rx Null (Bump 4096 9 ∅)).
Proof.
  apply (radix_refines_map (Bump 4096 9 ∅) Null).
  - split; [intros x; rewrite multiplicity_empty; apply le_0_n|]. split; [reflexivity|]. split; [reflexivity|].
    intros x Hx. apply gmultiset_elem_of_dom in Hx. by apply gmultiset_not_elem_of_empty in Hx.
  - repeat constructor; discriminate.
Defined.

(** Splitting a leaf loses it: after two insertions that differ in their
    first digit the first leaf is reachable from nowhere, and [rxtree_free]
    leaves it allocated. *)
Theorem rxtree_split_leaks :
  exists rs s, rx_session [RInsert 0 10; RInsert (2 ^ 63) 20; RDelete 0; RDelete (2 ^ 63)] (Rx Null (Bump 4096 9 ∅))
    = Ok (rs, s) /\ rs = [0; 0; 0; 0] /\ rnode s = Null /\ 4096 ∈ live (rx_alloc s).
Proof. eexists _, _. split; [vm_compute; reflexivity|]. split; [reflexivity|]. split; [reflexivity|]. apply (bool_decide_unpack (4096 ∈ _)). vm_compute. exact I. Qed.
