(* ===== verification/Machine.v ===== *)
(** What the stateful components above the allocators share: a state with a
    running hart, its locks, and the store of every [struct list_head].

    The class [Machine] gives access to these parts of a component's state;
    the operations of [sync/spinlock.h] and [misc/list.h] and the rules to
    reason about them are stated once for every instance. *)

From S2P Require Import Prelude ListHead Sync.

Class Machine (S : Type) := {
  hart_of : S -> hart;
  set_hart : hart -> S -> S;
  cpu_of : S -> Z;                        (* the number of the hart, [r_tp()] *)
  links_of : S -> lstore;
  set_links : lstore -> S -> S
}.

Class MachineOk (S : Type) `{Machine S} : Prop := {
  hart_of_set h s : hart_of (set_hart h s) = h;
  cpu_of_set h s : cpu_of (set_hart h s) = cpu_of s;
  set_links_id s : set_links (links_of s) s = s
}.

(** A list has no more nodes than memory has list heads. *)
Lemma is_list_length st h xs : is_list st h xs -> (length xs < size (lnext st))%nat.
Proof.
  intros Hl. pose proof Hl as [Hnd _].
  assert (list_to_set (h :: xs) ⊆@{gset Z} dom (lnext st)) as Hs.
  { intros a Ha. apply elem_of_list_to_set in Ha. apply elem_of_dom.
    by destruct (is_list_allocated _ _ _ _ Hl Ha). }
  apply subseteq_size in Hs. rewrite size_list_to_set in Hs by done. rewrite size_dom in Hs. cbn in Hs. lia.
Qed.

Section machine.
Context {S : Type} {HM : Machine S}.
Implicit Types s : S.

(** ** Operations *)

Definition on_links {B} (m : ST lstore B) : ST S B := lift links_of set_links m.

Definition acquire (l : Z) : ST S unit :=
  fun s => lift hart_of set_hart (run_lock_op (cpu_of s) (Acquire l)) s.
Definition release (l : Z) : ST S unit :=
  fun s => lift hart_of set_hart (run_lock_op (cpu_of s) (Release l)) s.

(** [lock = SPINLOCK_INITIALIZER(...)]. *)
Definition lock_init (l : Z) : ST S unit :=
  modify (fun s => set_hart (Hart (h_intr (hart_of s)) (<[l := SPINLOCK_INITIALIZER]> (h_locks (hart_of s)))) s).

(** The members of a new object that are list nodes become readable; their
    content is left over from an earlier use of the memory, here 0. *)
Definition new_links (l : list Z) : ST S unit :=
  modify (fun s => set_links
    (foldr (fun a st => LStore (<[a := 0]> (lnext st)) (<[a := 0]> (lprev st))) (links_of s) l) s).
Definition free_links (l : list Z) : ST S unit :=
  modify (fun s => set_links
    (foldr (fun a st => LStore (delete a (lnext st)) (delete a (lprev st))) (links_of s) l) s).

(** [list_for_each_entry] with an early exit: the first node at which [found]
    holds.  A walk that comes back to the head passes every list head of the
    memory at most once. *)
Fixpoint find_from (fuel : nat) (found : Z -> ST S bool) (pos head : Z) : ST S (option Z) :=
  match fuel with
  | O => no_fuel
  | Datatypes.S fuel =>
      if pos =? head then ret None else
      let! b := found pos in
      if b then ret (Some pos) else
      let! n := on_links (get_next pos) in
      find_from fuel found n head
  end.

Definition walk_fuel : ST S nat := gets (fun s => Datatypes.S (size (lnext (links_of s)))).

Definition find_entry (found : Z -> ST S bool) (head : Z) : ST S (option Z) :=
  let! fuel := walk_fuel in
  let! n := on_links (get_next head) in
  find_from fuel found n head.

(** ** Locks *)

(** The hart holds exactly the locks [held], and entered its outermost
    critical section with the status register [st]. *)
Definition locks (st : Z) (held : gset Z) s : Prop := hart_ok (cpu_of s) st held (hart_of s).

Definition few (held : gset Z) : Prop := Z.of_nat (size held) + 2 < 2 ^ 31.

Lemma few_empty : few ∅.
Proof. done. Qed.

Lemma few_single l : few {[l]}.
Proof. unfold few. rewrite size_singleton. done. Qed.

Lemma wp_acquire st held l (Q : unit -> S -> Prop) s :
  locks st held s -> l ∉ held -> few held ->
  (forall h, hart_ok (cpu_of s) st ({[l]} ∪ held) h -> Q tt (set_hart h s)) ->
  wp False (acquire l) Q s.
Proof.
  intros Hl Hn Hf HQ. unfold acquire, wp, lift.
  pose proof (acquire_spec (cpu_of s) st held l (hart_of s) Hl Hn ltac:(unfold few in *; lia)) as Ha.
  unfold wp in Ha. destruct (run_lock_op _ _ _) as [[[] h]| | |]; [|done..]. by apply HQ.
Qed.

Lemma wp_release st held l (Q : unit -> S -> Prop) s :
  locks st ({[l]} ∪ held) s -> l ∉ held -> few held ->
  (forall h, hart_ok (cpu_of s) st held h -> Q tt (set_hart h s)) ->
  wp False (release l) Q s.
Proof.
  intros Hl Hn Hf HQ. unfold release, wp, lift.
  assert (Z.of_nat (size ({[l]} ∪ held)) < 2 ^ 31) as Hs.
  { rewrite size_union, size_singleton by set_solver. unfold few in Hf. lia. }
  pose proof (release_spec (cpu_of s) st _ l (hart_of s) Hl ltac:(set_solver) Hs) as Ha.
  replace (({[l]} ∪ held) ∖ {[l]}) with held in Ha by (clear -Hn; set_solver).
  unfold wp in Ha. destruct (run_lock_op _ _ _) as [[[] h]| | |]; [|done..]. by apply HQ.
Qed.

(** A critical section entered with no lock held. *)
Lemma wp_enter {B} st l (k : ST S B) (Q : B -> S -> Prop) s :
  locks st ∅ s ->
  (forall h, hart_ok (cpu_of s) st {[l]} h -> wp False k Q (set_hart h s)) ->
  wp False (do! acquire l in k) Q s.
Proof.
  intros Hl Hk. apply wp_bind. eapply wp_acquire; [exact Hl|set_solver|apply few_empty|].
  intros h Hh. apply Hk. by rewrite union_empty_r_L in Hh.
Qed.

Lemma wp_exit st l (Q : unit -> S -> Prop) s :
  locks st {[l]} s ->
  (forall h, hart_ok (cpu_of s) st ∅ h -> Q tt (set_hart h s)) ->
  wp False (release l) Q s.
Proof.
  intros Hl HQ. eapply (wp_release st ∅); [by rewrite union_empty_r_L|set_solver|apply few_empty|done].
Qed.

Lemma wp_leave {B} st l (k : ST S B) (Q : B -> S -> Prop) s :
  locks st {[l]} s ->
  (forall h, hart_ok (cpu_of s) st ∅ h -> wp False k Q (set_hart h s)) ->
  wp False (do! release l in k) Q s.
Proof. intros Hl HQ. apply wp_bind. by eapply wp_exit. Qed.

(** Acquiring a lock the hart holds is a panic. *)
Lemma acquire_held st held l s :
  locks st held s -> l ∈ held -> acquire l s = Panic.
Proof.
  intros [_ Hl] Hin. unfold acquire, lift, run_lock_op, with_lock, lift. rewrite Hl, decide_True by done.
  unfold spinlock_acquire_bare, bind, gets. cbn [hl_lock locked owner]. by rewrite Z.eqb_refl.
Qed.

(** ** Lists *)

Lemma wp_on_links {B} E (m : ST lstore B) b l (Q : B -> S -> Prop) s :
  m (links_of s) = Ok (b, l) -> Q b (set_links l s) -> wp E (on_links m) Q s.
Proof. intros Hm HQ. apply wp_lift. unfold wp. by rewrite Hm. Qed.

Context {HMOk : MachineOk S}.

Lemma get_next_on_links a b s :
  lnext (links_of s) !! a = Some b -> on_links (get_next a) s = Ok (b, s).
Proof. intros Hn. unfold on_links, lift. by rewrite (get_next_run _ _ _ Hn), set_links_id. Qed.

(** A search whose test [p] reads the state only: it stops at the first node
    that passes. *)
Lemma find_from_spec found (p : Z -> bool) s head ys zs fuel :
  is_list (links_of s) head (ys ++ zs) -> (length zs < fuel)%nat ->
  (forall x, x ∈ zs -> found x s = Ok (p x, s)) ->
  find_from fuel found (gap_next head zs) head s = Ok (List.find p zs, s).
Proof.
  revert ys fuel. induction zs as [|z zs IH]; intros ys fuel Hl Hf Hp;
    (destruct fuel as [|fuel]; [cbn in Hf; lia|]); cbn [find_from gap_next List.hd List.find].
  - by rewrite Z.eqb_refl.
  - assert (z <> head) as Hne.
    { destruct Hl as [Hnd _]. apply NoDup_cons in Hnd as [Hnd _]. intros ->. apply Hnd. set_solver. }
    destruct (Z.eqb_spec z head) as [|_]; [done|].
    rewrite (bind_Ok _ _ _ _ _ (Hp z ltac:(left))). destruct (p z); [done|].
    pose proof (is_list_node _ _ _ _ _ Hl) as [Hn _].
    rewrite (bind_Ok _ _ _ _ _ (get_next_on_links _ _ _ Hn)). apply (IH (ys ++ [z])).
    + by rewrite <- app_assoc.
    + cbn in Hf. lia.
    + intros x Hx. apply Hp. by right.
Qed.

Lemma find_entry_spec found (p : Z -> bool) s head xs :
  is_list (links_of s) head xs -> (forall x, x ∈ xs -> found x s = Ok (p x, s)) ->
  find_entry found head s = Ok (List.find p xs, s).
Proof.
  intros Hl Hp. unfold find_entry, walk_fuel. unfold bind at 1, gets.
  pose proof (is_list_gap (links_of s) head [] xs) as Hg. apply Hg in Hl as Hg'. destruct Hg' as (_ & _ & Hn & _).
  cbn [gap_prev List.last] in Hn.
  rewrite (bind_Ok _ _ _ _ _ (get_next_on_links _ _ _ Hn)).
  apply (find_from_spec found p s head [] xs); [done| |done].
  pose proof (is_list_length _ _ _ Hl). lia.
Qed.

End machine.

Lemma hart_ok_lock_init c st held l h :
  hart_ok c st held h -> l ∉ held ->
  hart_ok c st held (Hart (h_intr h) (<[l := SPINLOCK_INITIALIZER]> (h_locks h))).
Proof.
  intros [Hi Hl] Hn. split; [done|]. intros k. rewrite get_lock_insert. specialize (Hl k). unfold get_lock in Hl.
  destruct (decide (k = l)) as [->|_]; [by rewrite decide_False|done].
Qed.

(** [p && p->member]: the entry of a table behind a pointer that may be null. *)
Definition entry {T F} (p : Z) (table : Z -> T) (member : T -> option F) : option F :=
  if p =? NULL then None else member (table p).
