(* ===== verification/Vfs.v ===== *)
(** The data of the virtual file system: the structures of
    [include/fs/*.h], the state its components share, and the access to it.

    Objects are found by their address in one map per structure.  A member
    that is a [struct list_head] or a [spinlock_t] lives at its own address,
    the address of the object plus the offset of the member, in the store of
    the lists ([ListHead]) and in the locks of the hart ([Sync]), which the
    instance of [Machine] gives access to; so the lists
    here are the pointer-level lists of the program.  The operations that a
    file system provides through tables of function pointers are not part of
    the repository: they are the parameters of the class [FsCode] and may act
    on the whole state. *)

From S2P Require Import Prelude ListHead Sync Machine Alloc Hashtable.

(** ** Constants of [include/fs/fs_types.h] *)

Definition S_IFMT : Z := 0xF000.
Definition S_IFREG : Z := 0x8000.
Definition S_IFDIR : Z := 0x4000.
Definition S_ISREG (m : Z) : bool := Z.land m S_IFMT =? S_IFREG.
Definition S_ISDIR (m : Z) : bool := Z.land m S_IFMT =? S_IFDIR.

Definition O_RDONLY : Z := 0.
Definition O_WRONLY : Z := 1.
Definition O_ACCMODE : Z := 3.
Definition O_CREAT : Z := 0x40.
Definition O_APPEND : Z := 0x400.

Definition SEEK_SET : Z := 0.
Definition SEEK_CUR : Z := 1.
Definition SEEK_END : Z := 2.

Definition NAME_MAX : Z := 255.

(** A NUL-terminated string, as its bytes before the terminator. *)
Abbreviation cstr := (list Z).
Definition slen (s : cstr) : Z := Z.of_nat (length s).

(** [strcmp(a, b) == 0]. *)
Definition str_eq (a b : cstr) : bool := bool_decide (a = b).

Definition hash_string (str : cstr) : Z := foldl (fun h c => u32 (h * 31 + c)) 0 str.

(** A name: the address of its bytes, the bytes, and the two cached numbers. *)
Record qstr := QStr { q_at : Z; q_name : cstr; q_len : Z; q_hash : Z }.

Definition qstr_init (a : Z) (name : cstr) : qstr :=
  QStr a name (u32 (slen name)) (hash_string name).

(** ** The structures *)

Record super_block := SuperBlock {
  s_dev : Z; s_type : Z; s_root : Z; s_op : Z; s_fs_info : Z;
  s_maxbytes : Z; s_blocksize : Z; s_blocksize_bits : Z; s_flags : Z; s_count : Z
}.

Record inode := Inode {
  i_ino : Z; i_mode : Z; i_uid : Z; i_gid : Z; i_size : Z; i_blocks : Z;
  i_atime : Z; i_mtime : Z; i_ctime : Z; i_nlink : Z; i_rdev : Z;
  i_sb : Z; i_op : Z; i_fop : Z; i_mapping : Z; i_private : Z;
  i_refcnt : Z; i_state : Z
}.

Definition I_NEW : Z := 1.
Definition I_DIRTY : Z := 3.

Record dentry := Dentry {
  d_name : qstr; d_inode : Z; d_sb : Z; d_parent : Z; d_op : Z; d_fsdata : Z;
  d_refcnt : Z; d_flags : Z
}.

Record file := File {
  f_dentry : Z; f_inode : Z; f_op : Z; f_private : Z; f_pos : Z;
  f_flags : Z; f_mode : Z; f_refcnt : Z
}.

Record file_system_type := FsType { fs_name : cstr; fs_mount : Z; fs_kill_sb : Z }.

Record mount := Mount {
  mnt_parent : Z; mnt_mountpoint : Z; mnt_root : Z; mnt_sb : Z; mnt_flags : Z; mnt_refcnt : Z
}.

Record fd_table := FdTable { fds : Z; max_fds : Z; open_fds : Z }.

(** Sizes, and the offsets of the embedded lists and locks. *)
Definition sizeof_super_block : Z := 128.
Definition sizeof_inode : Z := 176.
Definition sizeof_dentry : Z := 168.
Definition sizeof_file : Z := 96.
Definition sizeof_mount : Z := 96.
Definition sizeof_fd_table : Z := 40.

Definition s_list (p : Z) : Z := p + 40.
Definition s_inodes (p : Z) : Z := p + 56.
Definition s_lock (p : Z) : Z := p + 72.
Definition i_list (p : Z) : Z := p + 112.
Definition i_dentry (p : Z) : Z := p + 128.
Definition i_lock (p : Z) : Z := p + 144.
Definition d_children (p : Z) : Z := p + 40.
Definition d_sibling (p : Z) : Z := p + 56.
Definition d_lru (p : Z) : Z := p + 88.
Definition d_hash (p : Z) : Z := p + 104.
Definition d_list (p : Z) : Z := p + 120.
Definition d_lock (p : Z) : Z := p + 136.
Definition f_lock (p : Z) : Z := p + 56.
Definition f_list (p : Z) : Z := p + 80.
Definition mnt_mounts (p : Z) : Z := p + 32.
Definition mnt_child (p : Z) : Z := p + 48.
Definition mnt_lock (p : Z) : Z := p + 64.
Definition fs_list (p : Z) : Z := p + 24.
Definition fs_lock (p : Z) : Z := p + 40.
Definition fdt_lock (p : Z) : Z := p + 16.

(** The static list heads and locks; negative numbers stand for addresses in
    the data segment, which no object of the heap has. *)
Definition super_state_list : Z := -1.
Definition super_state_lock : Z := -2.
Definition inode_state_list : Z := -3.
Definition inode_state_lock : Z := -4.
Definition dentry_state_list : Z := -5.
Definition dentry_state_lru : Z := -6.
Definition dentry_state_lock : Z := -7.
Definition file_state_list : Z := -8.
Definition file_state_lock : Z := -9.
Definition vfs_fs_list : Z := -10.
Definition vfs_mount_list : Z := -11.
Definition vfs_super_list : Z := -12.
Definition vfs_lock : Z := -13.

(** ** The state *)

Record vfs (A : Type) := Vfs {
  v_hart : hart;                          (* interrupts and locks of the running hart *)
  v_cpu : Z;                              (* its number, [r_tp()] *)
  v_links : lstore;                       (* every [struct list_head] *)
  v_supers : gmap Z super_block;
  v_inodes : gmap Z inode;
  v_dentries : gmap Z dentry;
  v_files : gmap Z file;
  v_fstypes : gmap Z file_system_type;
  v_mounts : gmap Z mount;
  v_fdts : gmap Z fd_table;
  v_arrays : gmap Z (list Z);             (* the arrays of [fd_table] *)
  v_inode_ht : hashtable unit;
  v_dentry_ht : hashtable unit;
  v_counts : gmap Z Z;                    (* the [count] beside each static list *)
  v_root_mount : Z;
  v_env : A                               (* allocator and file systems *)
}.
Arguments Vfs {A}.
Arguments v_hart {A}.
Arguments v_cpu {A}.
Arguments v_links {A}.
Arguments v_supers {A}.
Arguments v_inodes {A}.
Arguments v_dentries {A}.
Arguments v_files {A}.
Arguments v_fstypes {A}.
Arguments v_mounts {A}.
Arguments v_fdts {A}.
Arguments v_arrays {A}.
Arguments v_inode_ht {A}.
Arguments v_dentry_ht {A}.
Arguments v_counts {A}.
Arguments v_root_mount {A}.
Arguments v_env {A}.

Section state.
Context {A : Type}.
Implicit Types s : vfs A.

Definition set_v_hart x s : vfs A := let 'Vfs _ c l su ino de fi ft mo fd ar ih dh co r e := s in Vfs x c l su ino de fi ft mo fd ar ih dh co r e.
Definition set_v_links x s : vfs A := let 'Vfs h c _ su ino de fi ft mo fd ar ih dh co r e := s in Vfs h c x su ino de fi ft mo fd ar ih dh co r e.
Definition set_v_supers x s : vfs A := let 'Vfs h c l _ ino de fi ft mo fd ar ih dh co r e := s in Vfs h c l x ino de fi ft mo fd ar ih dh co r e.
Definition set_v_inodes x s : vfs A := let 'Vfs h c l su _ de fi ft mo fd ar ih dh co r e := s in Vfs h c l su x de fi ft mo fd ar ih dh co r e.
Definition set_v_dentries x s : vfs A := let 'Vfs h c l su ino _ fi ft mo fd ar ih dh co r e := s in Vfs h c l su ino x fi ft mo fd ar ih dh co r e.
Definition set_v_files x s : vfs A := let 'Vfs h c l su ino de _ ft mo fd ar ih dh co r e := s in Vfs h c l su ino de x ft mo fd ar ih dh co r e.
Definition set_v_fstypes x s : vfs A := let 'Vfs h c l su ino de fi _ mo fd ar ih dh co r e := s in Vfs h c l su ino de fi x mo fd ar ih dh co r e.
Definition set_v_mounts x s : vfs A := let 'Vfs h c l su ino de fi ft _ fd ar ih dh co r e := s in Vfs h c l su ino de fi ft x fd ar ih dh co r e.
Definition set_v_fdts x s : vfs A := let 'Vfs h c l su ino de fi ft mo _ ar ih dh co r e := s in Vfs h c l su ino de fi ft mo x ar ih dh co r e.
Definition set_v_arrays x s : vfs A := let 'Vfs h c l su ino de fi ft mo fd _ ih dh co r e := s in Vfs h c l su ino de fi ft mo fd x ih dh co r e.
Definition set_v_inode_ht x s : vfs A := let 'Vfs h c l su ino de fi ft mo fd ar _ dh co r e := s in Vfs h c l su ino de fi ft mo fd ar x dh co r e.
Definition set_v_dentry_ht x s : vfs A := let 'Vfs h c l su ino de fi ft mo fd ar ih _ co r e := s in Vfs h c l su ino de fi ft mo fd ar ih x co r e.
Definition set_v_counts x s : vfs A := let 'Vfs h c l su ino de fi ft mo fd ar ih dh _ r e := s in Vfs h c l su ino de fi ft mo fd ar ih dh x r e.
Definition set_v_root_mount x s : vfs A := let 'Vfs h c l su ino de fi ft mo fd ar ih dh co _ e := s in Vfs h c l su ino de fi ft mo fd ar ih dh co x e.
Definition set_v_env x s : vfs A := let 'Vfs h c l su ino de fi ft mo fd ar ih dh co r _ := s in Vfs h c l su ino de fi ft mo fd ar ih dh co r x.

#[export] Instance vfs_machine : Machine (vfs A) := {
  hart_of := v_hart; set_hart := set_v_hart; cpu_of := v_cpu;
  links_of := v_links; set_links := set_v_links
}.

(** Objects by address; an access to no live object is a fault. *)
Definition obj {T} (m : vfs A -> gmap Z T) (p : Z) : ST (vfs A) T := load (fun s => m s !! p).
Definition upd {T} (m : vfs A -> gmap Z T) (w : gmap Z T -> vfs A -> vfs A) (p : Z) (f : T -> T) :
    ST (vfs A) unit :=
  store (fun s => x ← m s !! p; Some (w (<[p := f x]> (m s)) s)).
Definition put {T} (m : vfs A -> gmap Z T) (w : gmap Z T -> vfs A -> vfs A) (p : Z) (x : T) :
    ST (vfs A) unit :=
  modify (fun s => w (<[p := x]> (m s)) s).
Definition remove_obj {T} (m : vfs A -> gmap Z T) (w : gmap Z T -> vfs A -> vfs A) (p : Z) : ST (vfs A) unit :=
  modify (fun s => w (delete p (m s)) s).

Definition get_super := obj v_supers.
Definition get_inode := obj v_inodes.
Definition get_dentry := obj v_dentries.
Definition get_file := obj v_files.
Definition get_fstype := obj v_fstypes.
Definition get_mount := obj v_mounts.
Definition get_fdt := obj v_fdts.

Definition upd_super := upd v_supers set_v_supers.
Definition upd_inode := upd v_inodes set_v_inodes.
Definition upd_dentry := upd v_dentries set_v_dentries.
Definition upd_file := upd v_files set_v_files.
Definition upd_mount := upd v_mounts set_v_mounts.
Definition upd_fdt := upd v_fdts set_v_fdts.

(** [count++] and [count--] of the static structure with this list. *)
Definition add_count (l d : Z) : ST (vfs A) unit :=
  modify (fun s => set_v_counts (<[l := u32 (default 0 (v_counts s !! l) + d)]> (v_counts s)) s).

(** The allocator, and the hash tables on top of it. *)
Definition on_env {B} (m : ST A B) : ST (vfs A) B := lift v_env set_v_env m.

Definition attach {E E'} (a : E') (h : hashtable E) : hashtable E' :=
  Ht (ht_base h) (buckets h) (ht_size h) (count h) (nodes h) a.

Definition on_inode_ht {B} (m : ST (hashtable A) B) : ST (vfs A) B :=
  lift (fun s => attach (v_env s) (v_inode_ht s))
       (fun h s => set_v_inode_ht (attach tt h) (set_v_env (ht_alloc h) s)) m.
Definition on_dentry_ht {B} (m : ST (hashtable A) B) : ST (vfs A) B :=
  lift (fun s => attach (v_env s) (v_dentry_ht s))
       (fun h s => set_v_dentry_ht (attach tt h) (set_v_env (ht_alloc h) s)) m.

End state.

(** ** The tables of function pointers

    [None] is a null pointer.  The arguments are the addresses of the objects;
    a callback returns what the C function returns (0 for [void]). *)

Record super_operations (A : Type) := {
  alloc_inode : option (Z -> ST (vfs A) Z);
  destroy_inode : option (Z -> ST (vfs A) unit);
  dirty_inode : option (Z -> ST (vfs A) unit);
  write_inode : option (Z -> ST (vfs A) Z);
  drop_inode : option (Z -> ST (vfs A) Z);
  put_super : option (Z -> ST (vfs A) unit);
  statfs : option (Z -> ST (vfs A) Z)
}.
Arguments alloc_inode {A}.
Arguments destroy_inode {A}.
Arguments dirty_inode {A}.
Arguments write_inode {A}.
Arguments drop_inode {A}.
Arguments put_super {A}.
Arguments statfs {A}.

Record inode_operations (A : Type) := {
  lookup_op : option (Z -> Z -> ST (vfs A) Z);
  create_op : option (Z -> Z -> Z -> ST (vfs A) Z);
  unlink_op : option (Z -> Z -> ST (vfs A) Z);
  mkdir_op : option (Z -> Z -> Z -> ST (vfs A) Z);
  rmdir_op : option (Z -> Z -> ST (vfs A) Z);
  rename_op : option (Z -> Z -> Z -> Z -> ST (vfs A) Z)
}.
Arguments lookup_op {A}.
Arguments create_op {A}.
Arguments unlink_op {A}.
Arguments mkdir_op {A}.
Arguments rmdir_op {A}.
Arguments rename_op {A}.

Record dentry_operations (A : Type) := {
  d_delete : option (Z -> ST (vfs A) Z);
  d_release : option (Z -> ST (vfs A) unit)
}.
Arguments d_delete {A}.
Arguments d_release {A}.

(** [read] and [write] return their result and the new value of [*pos]. *)
Record file_operations (A : Type) := {
  llseek_op : option (Z -> Z -> Z -> ST (vfs A) Z);
  read_op : option (Z -> Z -> Z -> Z -> ST (vfs A) (Z * Z));
  write_op : option (Z -> Z -> Z -> Z -> ST (vfs A) (Z * Z));
  readdir_op : option (Z -> Z -> Z -> ST (vfs A) Z);
  open_op : option (Z -> Z -> ST (vfs A) Z);
  release_op : option (Z -> Z -> ST (vfs A) Z);
  fsync_op : option (Z -> ST (vfs A) Z)
}.
Arguments llseek_op {A}.
Arguments read_op {A}.
Arguments write_op {A}.
Arguments readdir_op {A}.
Arguments open_op {A}.
Arguments release_op {A}.
Arguments fsync_op {A}.

Class FsCode (A : Type) := {
  superops : Z -> super_operations A;         (* [*s_op] *)
  inodeops : Z -> inode_operations A;         (* [*i_op] *)
  dentryops : Z -> dentry_operations A;       (* [*d_op] *)
  fileops : Z -> file_operations A;           (* [*f_op] *)
  mount_fn : Z -> Z -> Z -> Z -> ST (vfs A) Z;  (* [fs_type->mount] *)
  kill_sb_fn : Z -> Z -> ST (vfs A) unit;       (* [s_type->kill_sb] *)
  kmem_cache_init_fn : Z -> ST A Z;             (* of a static cache, by object size *)
  residue : Z -> Z                              (* the word that new memory holds at an address *)
}.
