(* ===== verification/VfsProof.v ===== *)
(** Rules for the primitive operations of the virtual file system: locks,
    lists and objects. *)

From S2P Require Import Prelude ListHead Sync Machine Alloc Hashtable Vfs.

#[export] Instance vfs_machine_ok {A} : MachineOk (vfs A).
Proof. split; by intros; destruct s. Qed.

Section rules.
Context {A : Type}.
Implicit Types s : vfs A.

(** Putting the allocator into a table and taking it out again. *)
Lemma attach_id {E} (h : hashtable unit) (a : E) : attach tt (attach a h) = h.
Proof. by destruct h as [b bs sz c n []]. Qed.

(** ** Objects *)

Lemma wp_obj {T} E (m : vfs A -> gmap Z T) p x (Q : T -> vfs A -> Prop) s :
  m s !! p = Some x -> Q x s -> wp E (obj m p) Q s.
Proof. intros. by eapply wp_load. Qed.

Lemma wp_upd {T} E (m : vfs A -> gmap Z T) w p f x (Q : unit -> vfs A -> Prop) s :
  m s !! p = Some x -> Q tt (w (<[p := f x]> (m s)) s) -> wp E (upd m w p f) Q s.
Proof. intros Hx HQ. eapply wp_store; [by rewrite Hx|done]. Qed.

Lemma upd_run {T} (m : vfs A -> gmap Z T) w p f x s :
  m s !! p = Some x -> upd m w p f s = Ok (tt, w (<[p := f x]> (m s)) s).
Proof. intros Hx. unfold upd, store. by rewrite Hx. Qed.

Lemma set_v_links_id s : set_v_links (v_links s) s = s.
Proof. by destruct s. Qed.

Lemma set_v_env_id s : set_v_env (v_env s) s = s.
Proof. by destruct s. Qed.

End rules.

(** ** Link stores without dangling pointers *)

Definition closed (st : lstore) : Prop :=
  (forall a b, lnext st !! a = Some b -> allocated st b) /\
  (forall a b, lprev st !! a = Some b -> allocated st b).

Lemma allocated_insert n p a b x y :
  allocated (LStore n p) a -> allocated (LStore (<[b := x]> n) (<[b := y]> p)) a.
Proof. intros [H1 H2]. split; cbn; by apply is_Some_insert. Qed.

Lemma allocated_new n p b x y : allocated (LStore (<[b := x]> n) (<[b := y]> p)) b.
Proof. split; cbn; rewrite lookup_insert_eq; by eexists. Qed.

(** A new list head that points at itself. *)
Lemma closed_self st a : closed st -> closed (LStore (<[a := a]> (lnext st)) (<[a := a]> (lprev st))).
Proof.
  destruct st as [n p]. intros [Hn Hp]. split; cbn; intros c b [[<- <-]|[_ Hb]]%lookup_insert_Some;
    first [apply allocated_new|apply allocated_insert; by eauto].
Qed.

Definition self_link (a : Z) (st : lstore) : lstore := LStore (<[a := a]> (lnext st)) (<[a := a]> (lprev st)).

Lemma INIT_LIST_HEAD_run a st : allocated st a -> INIT_LIST_HEAD a st = Ok (tt, self_link a st).
Proof.
  intros [Hn Hp]. unfold INIT_LIST_HEAD. by rewrite (bind_Ok _ _ _ _ _ (set_next_run _ _ _ Hn)), set_prev_run.
Qed.

(** Two new list heads, made readable and then initialised. *)
Lemma self_link_new2 a b st :
  a <> b ->
  self_link b (self_link a (foldr (fun a st => LStore (<[a := 0]> (lnext st)) (<[a := 0]> (lprev st))) st [a; b]))
    = self_link b (self_link a st).
Proof.
  intros Hne. unfold self_link. cbn. f_equal; rewrite insert_insert_eq;
    rewrite (insert_insert_ne _ a b) by done; by rewrite insert_insert_eq.
Qed.

Lemma list_add_closed st n h :
  closed st -> allocated st n -> allocated st h ->
  exists st', list_add n h st = Ok (tt, st') /\ closed st' /\ forall a, allocated st a -> allocated st' a.
Proof.
  intros [Hn Hp] [[n1 Hn1] [p1 Hp1]] [[x Hx] [px Hpx]]. pose proof (Hn h x Hx) as [[xn Hxn] [xp Hxp]].
  unfold list_add. rewrite (bind_Ok _ _ _ _ _ (get_next_run _ _ _ Hx)). unfold __list_add.
  rewrite (bind_Ok _ _ _ _ _ (set_prev_run _ _ _ ltac:(by eexists))).
  erewrite bind_Ok by (apply set_next_run; cbn; by eexists).
  erewrite bind_Ok by (apply set_prev_run; cbn; apply is_Some_insert; by eexists).
  rewrite set_next_run by (cbn; apply is_Some_insert; by eexists).
  eexists. split; [done|].
  assert (forall a, allocated st a -> allocated (LStore (<[h := n]> (<[n := x]> (lnext st)))
    (<[n := h]> (<[x := n]> (lprev st)))) a) as Hm.
  { intros a [H1 H2]. split; cbn; do 2 apply is_Some_insert; done. }
  assert (allocated st n) as An by (split; by eexists). assert (allocated st h) as Ah by (split; by eexists).
  assert (allocated st x) as Ax by (split; by eexists).
  cbn [lnext lprev]. split; [|exact Hm]. split; intros c b Hb; cbn in Hb; apply Hm.
  - apply lookup_insert_Some in Hb as [[_ <-]|[_ [[_ <-]|[_ Hb]]%lookup_insert_Some]]; [done|done|by eapply Hn].
  - apply lookup_insert_Some in Hb as [[_ <-]|[_ [[_ <-]|[_ Hb]]%lookup_insert_Some]]; [done|done|by eapply Hp].
Qed.

(** A fact about some components of a state also holds of a state that differs
    in others. *)
Ltac same_state s := destruct s; cbn in *; first [assumption | done].
Ltac same_states s s' := destruct s, s'; cbn in *; subst; first [assumption | done].

(** An allocator seen by one of its clients: the objects of [F] belong to the
    others. *)
Section framed.
Context {A : Type} `{KAlloc A} {own : A -> gset Z -> Prop} {HOk : KAllocOk A own}.

Definition framed (F : gset Z) (a : A) (X : gset Z) : Prop := X ## F /\ own a (X ∪ F).

#[export] Instance framed_ok F : KAllocOk A (framed F).
Proof.
  split.
  - intros a X n [Hd Ho]. eapply wp_ka_alloc; [exact Ho|..].
    + intros a' Ha. left. done.
    + intros p a' Hp Hn Ha. right. split; [done|]. split; [set_solver|]. split; [set_solver|].
      by rewrite <- (assoc_L (∪)).
  - intros a X p [Hd Ho] Hp. eapply wp_ka_free; [exact Ho|set_solver|]. intros a' Ha. split; [set_solver|].
    replace (X ∖ {[p]} ∪ F) with ((X ∪ F) ∖ {[p]}); [done|set_solver].
Qed.

(** An allocation for another client. *)
Lemma wp_framed_alloc F a X n (Q : Z -> A -> Prop) :
  framed F a X -> (forall a', framed F a' X -> Q NULL a') ->
  (forall p a', 0 < p -> p ∉ X -> framed ({[p]} ∪ F) a' X -> Q p a') -> wp False (ka_alloc n) Q a.
Proof.
  intros [Hd Ho] H1 H2. eapply (wp_ka_alloc (own := own)); [exact Ho|intros a' Ha; apply H1; by split|].
  intros p a' Hp Hn Ha. apply H2; [done|set_solver|]. split; [set_solver|].
  by replace (X ∪ ({[p]} ∪ F)) with ({[p]} ∪ (X ∪ F)) by set_solver.
Qed.

End framed.
Arguments framed {A} own F a X.

(** ** A concrete machine

    File systems without callbacks, and a state with nothing in it but list
    heads that point at themselves. *)

Definition bare_code : FsCode bump := {|
  superops _ := Build_super_operations bump None None None None None None None;
  inodeops _ := Build_inode_operations bump None None None None None None;
  dentryops _ := Build_dentry_operations bump None None;
  fileops _ := Build_file_operations bump None None None None None None None;
  mount_fn _ _ _ _ := ret NULL;
  kill_sb_fn _ _ := ret tt;
  kmem_cache_init_fn _ := ret 0;
  residue _ := 0
|}.

Definition self_links (l : list Z) : lstore :=
  LStore (list_to_map (map (fun a => (a, a)) l)) (list_to_map (map (fun a => (a, a)) l)).

Lemma self_links_lookup l a b :
  (list_to_map (map (fun a => (a, a)) l) : gmap Z Z) !! a = Some b <-> a = b /\ a ∈ l.
Proof.
  induction l as [|x l IH]; cbn [map list_to_map foldr].
  - rewrite lookup_empty. split; [done|]. intros [_ Hin]. by apply not_elem_of_nil in Hin.
  - rewrite lookup_insert_Some, elem_of_cons, IH. cbn. split; [naive_solver|].
    intros [-> [->|Hin]]; [by left|]. destruct (decide (x = b)) as [->|]; [by left|by right].
Qed.

Lemma closed_self_links l : closed (self_links l).
Proof.
  split; intros a b [-> Hin]%self_links_lookup; (split; exists b; by apply self_links_lookup).
Qed.

Lemma allocated_self_links l a : a ∈ l -> allocated (self_links l) a.
Proof. intros Hin. split; exists a; by apply self_links_lookup. Qed.

Definition bare_vfs (links : list Z) : vfs bump :=
  Vfs (Hart (Intr 2 0 0) ∅) 0 (self_links links) ∅ ∅ ∅ ∅ ∅ ∅ ∅ ∅
    (Ht NULL ∅ 0 0 ∅ tt) (Ht NULL ∅ 0 0 ∅ tt) ∅ NULL (Bump 4096 64 ∅).

Lemma bare_locks links : locks 2 ∅ (bare_vfs links).
Proof. split; [done|]. intros l. done. Qed.
