(* ===== verification/Super.v ===== *)
(** Superblocks, [src/fs/super.c]. *)

From S2P Require Import Prelude ListHead Sync Alloc Hashtable Machine Vfs.

Section super.
Context {A : Type} `{KAlloc A} `{FsCode A}.

Definition set_s_count x (b : super_block) : super_block :=
  SuperBlock (s_dev b) (s_type b) (s_root b) (s_op b) (s_fs_info b) (s_maxbytes b) (s_blocksize b)
    (s_blocksize_bits b) (s_flags b) x.

Definition super_init : ST (vfs A) unit :=
  let! r := on_env (kmem_cache_init_fn sizeof_super_block) in
  if negb (r =? 0) then panic else
  do! on_links (INIT_LIST_HEAD super_state_list) in
  do! lock_init super_state_lock in
  modify (fun s => set_v_counts (<[super_state_list := 0]> (v_counts s)) s).

Definition super_alloc (type dev : Z) : ST (vfs A) Z :=
  let! sb := on_env (ka_alloc sizeof_super_block) in
  if sb =? NULL then ret (PTR (- ENOMEM)) else
  do! new_links [s_list sb; s_inodes sb] in
  do! put v_supers set_v_supers sb (SuperBlock dev type NULL NULL NULL 0 BLOCK_SIZE 9 0 1) in
  do! on_links (INIT_LIST_HEAD (s_list sb)) in
  do! on_links (INIT_LIST_HEAD (s_inodes sb)) in
  do! lock_init (s_lock sb) in
  ret sb.

(** [kmem_cache_free(sb)]: the object is gone. *)
Definition free_super_object (sb : Z) : ST (vfs A) unit :=
  do! on_env (ka_free sb) in
  do! free_links [s_list sb; s_inodes sb] in
  remove_obj v_supers set_v_supers sb.

Definition super_free (sb : Z) : ST (vfs A) unit :=
  if sb =? NULL then ret tt else
  do! acquire super_state_lock in
  do! on_links (list_del (s_list sb)) in
  do! add_count super_state_list (-1) in
  do! release super_state_lock in
  free_super_object sb.

(** The search of [super_lookup] and [super_register]: list nodes to objects. *)
Definition has_dev (dev : Z) (pos : Z) : ST (vfs A) bool :=
  let! b := get_super (pos - 40) in ret (s_dev b =? dev).

Definition super_lookup (dev : Z) : ST (vfs A) Z :=
  do! acquire super_state_lock in
  let! f := find_entry (has_dev dev) super_state_list in
  do! release super_state_lock in
  ret (match f with Some pos => pos - 40 | None => NULL end).

Definition super_get (sb : Z) : ST (vfs A) unit :=
  if sb =? NULL then ret tt else
  do! acquire (s_lock sb) in
  do! upd_super sb (fun b => set_s_count (u32 (s_count b + 1)) b) in
  release (s_lock sb).

Definition super_put (sb : Z) : ST (vfs A) unit :=
  if sb =? NULL then ret tt else
  do! acquire (s_lock sb) in
  do! upd_super sb (fun b => set_s_count (u32 (s_count b - 1)) b) in
  let! b := get_super sb in
  if s_count b =? 0 then
    do! release (s_lock sb) in
    let! b := get_super sb in
    do! (match entry (s_op b) superops put_super with Some f => f sb | None => ret tt end) in
    super_free sb
  else release (s_lock sb).

Definition super_register (sb : Z) : ST (vfs A) Z :=
  if sb =? NULL then ret (- EINVAL) else
  do! acquire super_state_lock in
  let! b := get_super sb in
  let! f := find_entry (has_dev (s_dev b)) super_state_list in
  match f with
  | Some _ => do! release super_state_lock in ret (- EEXIST)
  | None =>
      do! on_links (list_add (s_list sb) super_state_list) in
      do! add_count super_state_list 1 in
      do! release super_state_lock in
      ret 0
  end.

Definition super_unregister (sb : Z) : ST (vfs A) unit :=
  if sb =? NULL then ret tt else
  do! acquire super_state_lock in
  do! on_links (list_del (s_list sb)) in
  do! add_count super_state_list (-1) in
  release super_state_lock.

End super.
