(* ===== verification/InodeCache.v ===== *)
(** Inodes and their cache, [src/fs/inode.c]. *)

From S2P Require Import Prelude ListHead Sync Alloc Hashtable Machine Vfs.

Definition set_i_ino x (n : inode) : inode := let 'Inode _ b c d e f g h i j k l m o p q r s := n in Inode x b c d e f g h i j k l m o p q r s.
Definition set_i_size x (n : inode) : inode := let 'Inode a b c d _ f g h i j k l m o p q r s := n in Inode a b c d x f g h i j k l m o p q r s.
Definition set_i_blocks x (n : inode) : inode := let 'Inode a b c d e _ g h i j k l m o p q r s := n in Inode a b c d e x g h i j k l m o p q r s.
Definition set_i_refcnt x (n : inode) : inode := let 'Inode a b c d e f g h i j k l m o p q _ s := n in Inode a b c d e f g h i j k l m o p q x s.
Definition set_i_state x (n : inode) : inode := let 'Inode a b c d e f g h i j k l m o p q r _ := n in Inode a b c d e f g h i j k l m o p q r x.

Section inode.
Context {A : Type} `{KAlloc A} `{FsCode A}.

Definition inode_init : ST (vfs A) unit :=
  let! r := on_env (kmem_cache_init_fn sizeof_inode) in
  if negb (r =? 0) then panic else
  let! r := on_inode_ht (hashtable_init 64) in
  if negb (r =? 0) then panic else
  do! on_links (INIT_LIST_HEAD inode_state_list) in
  do! lock_init inode_state_lock in
  modify (fun s => set_v_counts (<[inode_state_list := 0]> (v_counts s)) s).

(** [inode->i_sb && inode->i_sb->s_op && inode->i_sb->s_op->member]. *)
Definition super_entry {F} (sb : Z) (member : super_operations A -> option F) : ST (vfs A) (option F) :=
  if sb =? NULL then ret None else
  let! b := get_super sb in ret (entry (s_op b) superops member).

(** The initialisation of a new inode; [i_private] is left alone. *)
Definition inode_setup (inode sb : Z) : ST (vfs A) unit :=
  do! upd_inode inode (fun n => Inode 0 0 0 0 0 0 0 0 0 1 0 sb NULL NULL NULL (i_private n) 1 I_NEW) in
  do! on_links (INIT_LIST_HEAD (i_list inode)) in
  do! on_links (INIT_LIST_HEAD (i_dentry inode)) in
  lock_init (i_lock inode).

Definition inode_alloc (sb : Z) : ST (vfs A) Z :=
  let! f := super_entry sb alloc_inode in
  match f with
  | Some f =>
      let! inode := f sb in
      if IS_ERR inode || (inode =? NULL) then ret inode else
      do! inode_setup inode sb in ret inode
  | None =>
      let! inode := on_env (ka_alloc sizeof_inode) in
      if inode =? NULL then ret (PTR (- ENOMEM)) else
      do! new_links [i_list inode; i_dentry inode] in
      do! put v_inodes set_v_inodes inode (Inode 0 0 0 0 0 0 0 0 0 0 0 0 0 0 0 0 0 0) in
      do! inode_setup inode sb in ret inode
  end.

Definition free_inode_object (inode : Z) : ST (vfs A) unit :=
  do! on_env (ka_free inode) in
  do! free_links [i_list inode; i_dentry inode] in
  remove_obj v_inodes set_v_inodes inode.

Definition inode_free (inode : Z) : ST (vfs A) unit :=
  if inode =? NULL then ret tt else
  let! n := get_inode inode in
  let! f := super_entry (i_sb n) destroy_inode in
  match f with
  | Some f => f inode
  | None =>
      do! acquire inode_state_lock in
      do! on_inode_ht (hashtable_delete (i_ino n)) in
      do! on_links (list_del (i_list inode)) in
      do! add_count inode_state_list (-1) in
      do! release inode_state_lock in
      free_inode_object inode
  end.

Definition inode_get (sb ino : Z) : ST (vfs A) Z :=
  do! acquire inode_state_lock in
  let! inode := on_inode_ht (hashtable_lookup ino) in
  if negb (inode =? NULL) then
    do! upd_inode inode (fun n => set_i_refcnt (u32 (i_refcnt n + 1)) n) in
    do! release inode_state_lock in
    ret inode
  else
    do! release inode_state_lock in
    let! inode := inode_alloc sb in
    if IS_ERR inode then ret inode else
    do! upd_inode inode (set_i_ino ino) in
    do! acquire inode_state_lock in
    do! on_inode_ht (hashtable_insert ino inode) in
    do! on_links (list_add (i_list inode) inode_state_list) in
    do! add_count inode_state_list 1 in
    do! release inode_state_lock in
    ret inode.

Definition inode_put (inode : Z) : ST (vfs A) unit :=
  if inode =? NULL then ret tt else
  do! acquire (i_lock inode) in
  do! upd_inode inode (fun n => set_i_refcnt (u32 (i_refcnt n - 1)) n) in
  let! n := get_inode inode in
  if i_refcnt n =? 0 then
    do! release (i_lock inode) in
    let! n := get_inode inode in
    let! f := super_entry (i_sb n) drop_inode in
    match f with
    | Some f => let! r := f inode in if negb (r =? 0) then ret tt else inode_free inode
    | None => inode_free inode
    end
  else release (i_lock inode).

Definition inode_lookup (ino : Z) : ST (vfs A) Z :=
  do! acquire inode_state_lock in
  let! inode := on_inode_ht (hashtable_lookup ino) in
  do! release inode_state_lock in
  ret inode.

Definition inode_dirty (inode : Z) : ST (vfs A) unit :=
  if inode =? NULL then ret tt else
  do! acquire (i_lock inode) in
  do! upd_inode inode (fun n => set_i_state (Z.lor (i_state n) I_DIRTY) n) in
  let! n := get_inode inode in
  let! f := super_entry (i_sb n) dirty_inode in
  do! (match f with Some f => f inode | None => ret tt end) in
  release (i_lock inode).

Definition inode_write (inode : Z) : ST (vfs A) Z :=
  if inode =? NULL then ret (- EINVAL) else
  do! acquire (i_lock inode) in
  let! n := get_inode inode in
  if Z.land (i_state n) I_DIRTY =? 0 then do! release (i_lock inode) in ret 0 else
  let! f := super_entry (i_sb n) write_inode in
  match f with
  | None => do! release (i_lock inode) in ret (- ENOSYS)
  | Some f =>
      let! r := f inode in
      do! (if r =? 0 then upd_inode inode (fun n => set_i_state (and_not (i_state n) I_DIRTY) n) else ret tt) in
      do! release (i_lock inode) in
      ret r
  end.

Definition inode_truncate (inode : Z) : ST (vfs A) unit :=
  if inode =? NULL then ret tt else
  do! acquire (i_lock inode) in
  do! upd_inode inode (set_i_size 0) in
  do! upd_inode inode (set_i_blocks 0) in
  do! inode_dirty inode in
  release (i_lock inode).

End inode.
