(* ===== verification/InodeProof.v ===== *)
(** The inode cache: what a lookup returns, and two functions that do not do
    what they are for. *)

From S2P Require Import Prelude ListHead Sync Alloc Hashtable Machine Vfs VfsProof InodeCache.

Section inode.
Context {A : Type} `{KAlloc A} `{FsCode A} {own : A -> gset Z -> Prop} {HOk : KAllocOk A own}.

(** ** The hash table inside the state *)

Definition inode_map (F : gset Z) (s : vfs A) (m : gmap Z Z) : Prop :=
  ht_rep (own := framed own F) (attach (v_env s) (v_inode_ht s)) m.

Lemma wp_inode_lookup F m k (Q : Z -> vfs A -> Prop) s :
  inode_map F s m -> Q (default NULL (m !! k)) s -> wp False (on_inode_ht (hashtable_lookup k)) Q s.
Proof.
  intros Hm HQ. apply wp_lift. eapply wp_run; [by apply (ht_lookup_spec (own := framed own F))|].
  rewrite attach_id. destruct s as [? ? ? ? ? ? ? ? ? ? ? [] ? ? ? ?]. exact HQ.
Qed.

Lemma wp_inode_insert F m k v (Q : Z -> vfs A -> Prop) s :
  inode_map F s m ->
  (forall r h a m', inode_map F (set_v_inode_ht h (set_v_env a s)) m' ->
     (r = 0 /\ m' = <[k := v]> m) \/ (r = - ENOMEM /\ m !! k = None /\ m' = m) ->
     Q r (set_v_inode_ht h (set_v_env a s))) ->
  wp False (on_inode_ht (hashtable_insert k v)) Q s.
Proof.
  intros Hm HQ. apply wp_lift. eapply wp_mono; [by apply (ht_insert_spec (own := framed own F))|done|].
  intros r h [_ Hr]. assert (forall m', ht_rep (own := framed own F) h m' ->
    inode_map F (set_v_inode_ht (attach tt h) (set_v_env (ht_alloc h) s)) m') as Hh.
  { intros m' Hm'. unfold inode_map. destruct s, h. exact Hm'. }
  destruct Hr as [(-> & Hm')|(-> & Hn & Hm')]; eapply HQ; eauto.
Qed.

(** ** [inode_truncate] *)

(** [inode_truncate] never returns: it calls [inode_dirty] while it holds
    the inode's lock, which [inode_dirty] acquires again, and the kernel
    panics, for every live inode. *)
Theorem inode_truncate_panics st p n s :
  locks st ∅ s -> p <> NULL -> v_inodes s !! p = Some n -> inode_truncate p s = Panic.
Proof.
  intros Hl Hp Hn. unfold inode_truncate, inode_dirty, upd_inode. destruct (Z.eqb_spec p NULL) as [|_]; [done|].
  assert (wp False (acquire (i_lock p)) (fun _ s' => exists h, hart_ok (v_cpu s) st {[i_lock p]} h /\ s' = set_v_hart h s) s) as Ha.
  { eapply wp_acquire; [exact Hl|set_solver|apply few_empty|]. intros h Hh. rewrite union_empty_r_L in Hh. eauto. }
  apply wp_total in Ha as ([] & s1 & E & h & Hh & ->). rewrite (bind_Ok _ _ _ _ _ E).
  assert (v_inodes (set_v_hart h s) !! p = Some n) as H1 by same_state s.
  rewrite (bind_Ok _ _ _ _ _ (upd_run _ _ _ (set_i_size 0) _ _ H1)).
  set (s2 := set_v_inodes _ _). assert (v_inodes s2 !! p = Some (set_i_size 0 n)) as H2.
  { subst s2. destruct s; cbn. apply lookup_insert_eq. }
  rewrite (bind_Ok _ _ _ _ _ (upd_run _ _ _ (set_i_blocks 0) _ _ H2)). set (s3 := set_v_inodes _ s2).
  assert (locks st {[i_lock p]} s3) as Hl3 by (subst s3 s2; same_state s).
  unfold bind. by rewrite (acquire_held st {[i_lock p]}) by (first [exact Hl3|set_solver]).
Qed.

(** ** [inode_get] *)

(** The fields of an inode that a miss creates. *)
Definition new_inode (sb ino : Z) : inode := Inode ino 0 0 0 0 0 0 0 0 1 0 sb NULL NULL NULL 0 1 I_NEW.

Record icache (F : gset Z) st (m : gmap Z Z) (s : vfs A) : Prop := {
  ic_locks : locks st ∅ s;
  ic_map : inode_map F s m;
  ic_live k p : m !! k = Some p -> is_Some (v_inodes s !! p) /\ p <> NULL;
  ic_links : closed (v_links s) /\ allocated (v_links s) inode_state_list
}.

Lemma inode_map_change F s s' m :
  inode_map F s m -> v_env s' = v_env s -> v_inode_ht s' = v_inode_ht s -> inode_map F s' m.
Proof. unfold inode_map. by intros Hm -> ->. Qed.

(** A hit: one more reference, whatever the superblock. *)
Lemma inode_get_hit F st m s sb ino p n :
  icache F st m s -> m !! ino = Some p -> v_inodes s !! p = Some n ->
  wp False (inode_get sb ino)
    (fun r s' => r = p /\ icache F st m s' /\
       v_inodes s' = <[p := set_i_refcnt (u32 (i_refcnt n + 1)) n]> (v_inodes s)) s.
Proof.
  intros [Hl Hm Hlive Hlist] Hk Hn. destruct (Hlive ino p Hk) as [_ Hp]. unfold inode_get.
  eapply wp_enter; [exact Hl|]. intros h Hh. apply wp_bind.
  eapply (wp_inode_lookup F m); [apply (inode_map_change F s); [exact Hm|same_state s..]|].
  rewrite Hk. change (default NULL (Some p)) with p. destruct (Z.eqb_spec p NULL) as [|_]; [done|]. cbn [negb].
  apply wp_bind. eapply wp_upd; [same_state s|]. eapply wp_leave; [same_state s|]. intros h' Hh'.
  apply wp_ret. split; [done|]. split; [|by destruct s]. split.
  - same_state s.
  - apply (inode_map_change F s); [exact Hm|same_state s..].
  - intros k q Hq. destruct (Hlive k q Hq) as [Hs Hq0]. split; [|done].
    destruct s; cbn in *. rewrite lookup_insert_is_Some. destruct (decide (p = q)); [by left|by right].
  - same_state s.
Qed.

(** The superblock has no allocator of its own. *)
Definition plain_super (sb : Z) (s : vfs A) : Prop :=
  sb = NULL \/ exists b, v_supers s !! sb = Some b /\ entry (s_op b) superops alloc_inode = None.

Lemma plain_super_entry sb s : plain_super sb s -> super_entry sb alloc_inode s = Ok (None, s).
Proof.
  intros [->|(b & Hb & He)]; [done|]. unfold super_entry. destruct (sb =? NULL); [done|].
  unfold bind, get_super, obj, load. rewrite Hb. unfold ret. by rewrite He.
Qed.

(** The table after an allocation for somebody else. *)
Lemma inode_map_frame F F' s s' m :
  inode_map F s m -> v_inode_ht s' = v_inode_ht s ->
  framed own F' (v_env s') ({[ht_base (v_inode_ht s)]} ∪ dom (nodes (v_inode_ht s))) -> inode_map F' s' m.
Proof. unfold inode_map. intros [R1 R2 R3 R4 R5 R6 R7 R8 R9 R10] -> HF. by split. Qed.

(** The new inode as [inode_setup] leaves it, in a state that is otherwise as
    before. *)
Record fresh_inode (s s' : vfs A) (p : Z) (n : inode) : Prop := {
  fi_cpu : v_cpu s' = v_cpu s;
  fi_inodes : v_inodes s' = <[p := n]> (v_inodes s);
  fi_env : v_env s' = v_env s;
  fi_ht : v_inode_ht s' = v_inode_ht s;
  fi_alloc a : allocated (v_links s) a -> allocated (v_links s') a;
  fi_node : allocated (v_links s') (i_list p);
  fi_closed : closed (v_links s) -> closed (v_links s')
}.

Lemma wp_new_inode {B} st s p sb (k : ST (vfs A) B) (Q : B -> vfs A -> Prop) :
  locks st ∅ s ->
  (forall s', locks st ∅ s' -> fresh_inode s s' p (new_inode sb 0) -> wp False k Q s') ->
  wp False (do! new_links [i_list p; i_dentry p] in
            do! put v_inodes set_v_inodes p (Inode 0 0 0 0 0 0 0 0 0 0 0 0 0 0 0 0 0 0) in
            do! inode_setup p sb in k) Q s.
Proof.
  intros Hl HQ. apply wp_bind, wp_modify, wp_bind, wp_modify, wp_bind. unfold inode_setup.
  apply wp_bind. eapply wp_upd; [destruct s; cbn; apply lookup_insert_eq|].
  apply wp_bind. eapply wp_on_links; [apply INIT_LIST_HEAD_run; destruct s; cbn; apply allocated_new|].
  apply wp_bind. eapply wp_on_links; [apply INIT_LIST_HEAD_run; destruct s; cbn; apply allocated_insert, allocated_insert, allocated_new|].
  apply wp_modify. destruct s as [h c l ? ? ? ? ? ? ? ? ? ? ? ? ?].
  assert (self_link (i_dentry p) (self_link (i_list p) (foldr (fun a st => LStore (<[a := 0]> (lnext st)) (<[a := 0]> (lprev st))) l
    [i_list p; i_dentry p])) = self_link (i_dentry p) (self_link (i_list p) l)) as El.
  { apply self_link_new2. unfold i_list, i_dentry. lia. }
  apply HQ.
  - apply hart_ok_lock_init; [exact Hl|set_solver].
  - split; cbn -[foldr]; try done.
    + by rewrite insert_insert_eq.
    + intros a Ha. do 4 apply allocated_insert. by destruct l.
    + apply allocated_insert, allocated_new.
    + intros Hc. rewrite El. by do 2 apply closed_self.
Qed.

(** Entering a new inode in the table and in the list of inodes. *)
Lemma inode_enter F st m sb ino p (I : gmap Z inode) s :
  locks st ∅ s -> inode_map F s m -> 0 < p ->
  (forall k q, m !! k = Some q -> is_Some (I !! q) /\ q <> NULL) ->
  v_inodes s = <[p := new_inode sb 0]> I ->
  closed (v_links s) -> allocated (v_links s) inode_state_list -> allocated (v_links s) (i_list p) ->
  wp False
    (do! upd_inode p (set_i_ino ino) in
     do! acquire inode_state_lock in
     do! on_inode_ht (hashtable_insert ino p) in
     do! on_links (list_add (i_list p) inode_state_list) in
     do! add_count inode_state_list 1 in
     do! release inode_state_lock in
     ret p)
    (fun r s' => r = p /\ v_inodes s' = <[p := new_inode sb ino]> I /\
       (icache F st (<[ino := p]> m) s' \/ icache F st m s')) s.
Proof.
  intros Hl Hm Hp Hlive Ei Hc Hh Hn.
  apply wp_bind. eapply wp_upd; [rewrite Ei; apply lookup_insert_eq|]. rewrite Ei, insert_insert_eq.
  eapply wp_enter; [same_state s|]. intros h2 Hh2. apply wp_bind.
  eapply (wp_inode_insert F m).
  { apply (inode_map_change _ s); [exact Hm|same_state s..]. }
  intros r ht e m' Hm' Hr.
  destruct (list_add_closed (v_links s) (i_list p) inode_state_list) as (l & Hl3 & Hc3 & Ha3); [done..|].
  apply wp_bind. eapply wp_on_links; [destruct s; exact Hl3|]. apply wp_bind, wp_modify.
  eapply wp_leave; [same_state s|]. intros h3 Hh3. apply wp_ret. split; [done|]. split; [by destruct s|].
  assert (forall k q, m' !! k = Some q -> is_Some (<[p := new_inode sb ino]> I !! q) /\ q <> NULL) as Hlive'.
  { intros k q Hq. destruct (decide (p = q)) as [<-|Hne].
    - rewrite lookup_insert_eq. split; [by eexists|unfold NULL; lia].
    - rewrite lookup_insert_ne by done. apply (Hlive k). destruct Hr as [[_ ->]|(_ & _ & ->)]; [|done].
      apply lookup_insert_Some in Hq as [[_ ?]|[_ ?]]; done. }
  set (s3 := set_hart _ _). assert (icache F st m' s3) as Hic.
  { subst s3. split; [same_state s| |destruct s; exact Hlive'|].
    - eapply inode_map_change; [exact Hm'|by destruct s..].
    - destruct s; cbn in *. split; [done|by apply Ha3]. }
  destruct Hr as [[_ ->]|(_ & _ & ->)]; [by left|by right].
Qed.

(** A miss: a new inode of the superblock, entered in the table; if the table
    has no memory for it the inode is returned all the same. *)
Lemma inode_get_miss F st m s sb ino :
  icache F st m s -> m !! ino = None -> plain_super sb s ->
  wp False (inode_get sb ino)
    (fun r s' =>
       (IS_ERR r = true /\ exists F', icache F' st m s') \/
       (0 < r /\ v_inodes s' = <[r := new_inode sb ino]> (v_inodes s) /\
        exists F', icache F' st (<[ino := r]> m) s' \/ icache F' st m s')) s.
Proof.
  intros [Hl Hm Hlive [Hcl Hh0]] Hk Hsb. unfold inode_get.
  eapply wp_enter; [exact Hl|]. intros h Hh. apply wp_bind.
  eapply (wp_inode_lookup F m); [apply (inode_map_change F s); [exact Hm|same_state s..]|].
  rewrite Hk. change (default NULL None) with NULL. cbn [negb Z.eqb NULL].
  eapply wp_leave; [same_state s|]. intros h1 Hh1. set (s1 := set_hart h1 _).
  assert (locks st ∅ s1) as Hl1 by (subst s1; same_state s).
  assert (inode_map F s1 m) as Hm1 by (apply (inode_map_change F s); [exact Hm|subst s1; same_state s..]).
  assert (v_inodes s1 = v_inodes s /\ v_links s1 = v_links s) as [Ei El] by (subst s1; by destruct s).
  assert (plain_super sb s1) as Hsb1 by (subst s1; destruct s; exact Hsb).
  clearbody s1. apply wp_bind. unfold inode_alloc. apply wp_bind.
  eapply wp_run; [by apply plain_super_entry|]. apply wp_bind, wp_lift.
  eapply (wp_framed_alloc F (v_env s1)); [apply (hr_own _ _ Hm1)|..].
  - intros a Ha. apply wp_ret. cbn [Z.eqb NULL]. left. split; [done|]. exists F. split.
    + same_state s1.
    + apply (inode_map_frame F F s1); [done|same_state s1|by destruct s1].
    + intros k p Hp. destruct s1; cbn in *. rewrite Ei. by eapply Hlive.
    + destruct s1; cbn in *. by rewrite El.
  - intros p a Hp _ Ha. destruct (Z.eqb_spec p NULL) as [|_]; [unfold NULL in *; lia|].
    eapply (wp_new_inode st _ p sb); [same_state s1|]. intros s2 Hl2 [Fc Fi Fe Fh Fa Fn Fcl]. apply wp_ret.
    assert (inode_map ({[p]} ∪ F) s2 m) as Hm2.
    { apply (inode_map_frame F _ s1); [done|rewrite Fh; same_state s1|rewrite Fe; destruct s1; exact Ha]. }
    assert (v_inodes s2 = <[p := new_inode sb 0]> (v_inodes s)) as Ei2 by (rewrite Fi, <- Ei; by destruct s1).
    assert (closed (v_links s2) /\ allocated (v_links s2) inode_state_list) as [Hc2 Ha2].
    { rewrite <- El in Hcl, Hh0. split; [apply Fcl|apply Fa]; by destruct s1. }
    clear Fc Fi Fe Fh Fa Fcl. clear dependent s1. clear dependent h. cbv beta.
    destruct (IS_ERR p) eqn:Eerr.
    { apply wp_ret. left. split; [done|]. exists ({[p]} ∪ F). split; [done|done| |done].
      intros k q Hq. destruct (Hlive k q Hq) as [Hs Hq0]. split; [|done]. rewrite Ei2, lookup_insert_is_Some.
      destruct (decide (p = q)); [by left|by right]. }
    eapply wp_mono; [eapply (inode_enter ({[p]} ∪ F) st m sb ino p (v_inodes s)); done|done|].
    intros r s3 (-> & Ei3 & Hic). right. split; [done|]. split; [done|]. by exists ({[p]} ∪ F).
Qed.


End inode.

#[local] Existing Instance bare_code.

(** A table with a single, empty bucket. *)
Definition empty_icache : vfs bump :=
  set_v_env (Bump 8192 4 {[ 4096 ]})
    (set_v_inode_ht (Ht 4096 {[ 0 := [] ]} 1 0 ∅ tt) (bare_vfs [inode_state_list])).


Lemma inode_truncate_panics_witness :
  let s := set_v_inodes {[ 4096 := new_inode NULL 5 ]} (bare_vfs []) in
  locks 2 ∅ s /\ inode_truncate 4096 s = Panic.
Proof.
  intros s. split; [exact (bare_locks [])|].
  apply (inode_truncate_panics 2 4096 (new_inode NULL 5) s); [exact (bare_locks [])|done|reflexivity].
Defined.
