(* ===== verification/DentryCache.v ===== *)
(** Directory entries and their cache, [src/fs/dentry.c]. *)

From S2P Require Import Prelude ListHead Sync Alloc Hashtable Machine Vfs InodeCache.

Definition set_d_inode x (d : dentry) : dentry := let 'Dentry a _ c e f g h i := d in Dentry a x c e f g h i.
Definition set_d_parent x (d : dentry) : dentry := let 'Dentry a b c _ f g h i := d in Dentry a b c x f g h i.
Definition set_d_refcnt x (d : dentry) : dentry := let 'Dentry a b c e f g _ i := d in Dentry a b c e f g x i.

Section dentry.
Context {A : Type} `{KAlloc A} `{FsCode A}.

(** [(u32)((uintptr_t)sb ^ (uintptr_t)parent) ^ name->hash], then the bucket. *)
Definition dentry_hash_key (sb parent : Z) (name : qstr) : ST (vfs A) Z :=
  let hash := Z.lxor (u32 (Z.lxor sb parent)) (q_hash name) in
  gets (fun s => hash_ptr hash (ht_size (v_dentry_ht s))).

Definition dentry_init : ST (vfs A) unit :=
  let! r := on_env (kmem_cache_init_fn sizeof_dentry) in
  if negb (r =? 0) then panic else
  let! r := on_dentry_ht (hashtable_init 128) in
  if negb (r =? 0) then panic else
  do! on_links (INIT_LIST_HEAD dentry_state_list) in
  do! on_links (INIT_LIST_HEAD dentry_state_lru) in
  do! lock_init dentry_state_lock in
  modify (fun s => set_v_counts (<[dentry_state_list := 0]> (v_counts s)) s).

Definition dentry_links (d : Z) : list Z := [d_children d; d_sibling d; d_lru d; d_hash d; d_list d].

Definition dentry_alloc (parent sb : Z) (name : cstr) : ST (vfs A) Z :=
  let! dentry := on_env (ka_alloc sizeof_dentry) in
  if dentry =? NULL then ret (PTR (- ENOMEM)) else
  let! name_copy := on_env (ka_alloc (slen name + 1)) in
  if name_copy =? NULL then do! on_env (ka_free dentry) in ret (PTR (- ENOMEM)) else
  let len := u32 (slen name) in
  do! new_links (dentry_links dentry) in
  do! put v_dentries set_v_dentries dentry
        (Dentry (QStr name_copy name len (hash_string name)) NULL sb
           (if parent =? NULL then dentry else parent) NULL NULL 1 0) in
  do! on_links (INIT_LIST_HEAD (d_children dentry)) in
  do! on_links (INIT_LIST_HEAD (d_sibling dentry)) in
  do! on_links (INIT_LIST_HEAD (d_lru dentry)) in
  do! on_links (INIT_LIST_HEAD (d_hash dentry)) in
  do! on_links (INIT_LIST_HEAD (d_list dentry)) in
  do! lock_init (d_lock dentry) in
  do! (if parent =? NULL then ret tt else
       do! acquire (d_lock parent) in
       do! on_links (list_add (d_sibling dentry) (d_children parent)) in
       release (d_lock parent)) in
  ret dentry.

Definition free_dentry_object (dentry : Z) : ST (vfs A) unit :=
  do! on_env (ka_free dentry) in
  do! free_links (dentry_links dentry) in
  remove_obj v_dentries set_v_dentries dentry.

Definition dentry_free (dentry : Z) : ST (vfs A) unit :=
  if dentry =? NULL then ret tt else
  let! d := get_dentry dentry in
  do! (match entry (d_op d) dentryops d_release with Some f => f dentry | None => ret tt end) in
  do! acquire dentry_state_lock in
  let! d := get_dentry dentry in
  let! key := dentry_hash_key (d_sb d) (d_parent d) (d_name d) in
  do! on_dentry_ht (hashtable_delete key) in
  do! on_links (list_del (d_list dentry)) in
  do! on_links (list_del (d_lru dentry)) in
  do! add_count dentry_state_list (-1) in
  do! release dentry_state_lock in
  do! (if negb (d_parent d =? NULL) && negb (d_parent d =? dentry) then
         do! acquire (d_lock (d_parent d)) in
         do! on_links (list_del (d_sibling dentry)) in
         release (d_lock (d_parent d))
       else ret tt) in
  do! (if d_inode d =? NULL then ret tt else inode_put (d_inode d)) in
  let! d := get_dentry dentry in
  do! (if q_at (d_name d) =? NULL then ret tt else on_env (ka_free (q_at (d_name d)))) in
  free_dentry_object dentry.

(** The loop of [dentry_lookup] over the hash nodes of a bucket. *)
Fixpoint dentry_scan (l : list Z) (sb parent : Z) (name : qstr) : ST (vfs A) Z :=
  match l with
  | [] => ret NULL
  | node :: l =>
      let! n := on_dentry_ht (get_node node) in
      let dentry := value n in
      if dentry =? NULL then dentry_scan l sb parent name else
      let! d := get_dentry dentry in
      if (d_sb d =? sb) && (d_parent d =? parent) && (q_len (d_name d) =? q_len name)
         && str_eq (q_name (d_name d)) (q_name name)
      then ret dentry else dentry_scan l sb parent name
  end.

Definition dentry_lookup (sb parent : Z) (name : qstr) : ST (vfs A) Z :=
  do! acquire dentry_state_lock in
  let! bucket_idx := dentry_hash_key sb parent name in
  let! l := on_dentry_ht (get_bucket bucket_idx) in
  let! dentry := dentry_scan l sb parent name in
  do! release dentry_state_lock in
  ret dentry.

Definition dentry_put (dentry : Z) : ST (vfs A) unit :=
  if dentry =? NULL then ret tt else
  do! acquire (d_lock dentry) in
  do! upd_dentry dentry (fun d => set_d_refcnt (u32 (d_refcnt d - 1)) d) in
  let! d := get_dentry dentry in
  if d_refcnt d =? 0 then
    do! release (d_lock dentry) in
    do! acquire dentry_state_lock in
    do! on_links (list_add (d_lru dentry) dentry_state_lru) in
    release dentry_state_lock
  else release (d_lock dentry).

Definition dentry_get (dentry : Z) : ST (vfs A) unit :=
  if dentry =? NULL then ret tt else
  do! acquire (d_lock dentry) in
  do! upd_dentry dentry (fun d => set_d_refcnt (u32 (d_refcnt d + 1)) d) in
  release (d_lock dentry).

Definition dentry_insert (dentry : Z) : ST (vfs A) Z :=
  if dentry =? NULL then ret (- EINVAL) else
  let! d := get_dentry dentry in
  if d_sb d =? NULL then ret (- EINVAL) else
  if d_parent d =? NULL then ret (- EINVAL) else
  do! acquire dentry_state_lock in
  let! key := dentry_hash_key (d_sb d) (d_parent d) (d_name d) in
  let! existing := on_dentry_ht (hashtable_lookup key) in
  if negb (existing =? NULL) then do! release dentry_state_lock in ret (- EEXIST) else
  do! on_dentry_ht (hashtable_insert key dentry) in
  do! on_links (list_add (d_list dentry) dentry_state_list) in
  do! add_count dentry_state_list 1 in
  do! release dentry_state_lock in
  ret 0.

Definition dentry_delete (dentry : Z) : ST (vfs A) unit :=
  if dentry =? NULL then ret tt else
  let! d := get_dentry dentry in
  match entry (d_op d) dentryops d_delete with
  | Some f => let! r := f dentry in if negb (r =? 0) then ret tt else dentry_free dentry
  | None => dentry_free dentry
  end.

Definition dentry_root (sb : Z) : ST (vfs A) Z :=
  let! root := dentry_alloc NULL sb [47] in
  if IS_ERR root then ret root else
  do! upd_dentry root (set_d_parent root) in
  let! r := dentry_insert root in
  if negb (r =? 0) then do! dentry_free root in ret (PTR (- EEXIST)) else
  ret root.

End dentry.
