(* ===== verification/DentryProof.v ===== *)
(** The dentry cache: no lookup ever hits, and an entry that loses its last
    reference twice makes the LRU list a loop. *)

From S2P Require Import Prelude ListHead Sync Alloc Hashtable Machine Vfs VfsProof InodeCache DentryCache.

(** ** The hash of a key

    [dentry_hash_key] already returns a bucket number, and the table hashes that
    number once more: no bucket number is its own hash. *)
Lemma hash_ptr_no_fixpoint k : 0 <= k < 128 -> hash_ptr k 128 <> k.
Proof.
  intros Hk. assert (Forall (fun k => hash_ptr k 128 <> k) (seqZ 0 128)) as Hf.
  { apply (bool_decide_unpack _). vm_compute. exact I. }
  rewrite Forall_forall in Hf. apply Hf. apply elem_of_seqZ. lia.
Qed.

Section dentry.
Context {A : Type} `{KAlloc A} `{FsCode A} {own : A -> gset Z -> Prop} {HOk : KAllocOk A own}.

(** The hash of a name was computed from the name. *)
Definition named (q : qstr) : Prop := q_hash q = hash_string (q_name q).

(** The bucket number of an entry. *)
Definition key_of (sb parent : Z) (q : qstr) : Z := hash_ptr (Z.lxor (u32 (Z.lxor sb parent)) (q_hash q)) 128.

Definition dentry_map (F : gset Z) (s : vfs A) (m : gmap Z Z) : Prop :=
  ht_rep (own := framed own F) (attach (v_env s) (v_dentry_ht s)) m /\ ht_size (v_dentry_ht s) = 128.

Record dcache (F : gset Z) st (m : gmap Z Z) (s : vfs A) : Prop := {
  dc_locks : locks st ∅ s;
  dc_map : dentry_map F s m;
  dc_live k d : m !! k = Some d ->
    exists e, v_dentries s !! d = Some e /\ named (d_name e) /\ k = key_of (d_sb e) (d_parent e) (d_name e);
  dc_links : closed (v_links s) /\ allocated (v_links s) dentry_state_list
}.

Lemma dentry_map_change F s s' m :
  dentry_map F s m -> v_env s' = v_env s -> v_dentry_ht s' = v_dentry_ht s -> dentry_map F s' m.
Proof. unfold dentry_map. by intros Hm -> ->. Qed.

(** An operation of the table that leaves it alone. *)
Lemma on_dentry_ht_pure {B} (m : ST (hashtable A) B) (b : B) s :
  m (attach (v_env s) (v_dentry_ht s)) = Ok (b, attach (v_env s) (v_dentry_ht s)) ->
  on_dentry_ht m s = Ok (b, s).
Proof.
  intros Hm. unfold on_dentry_ht, lift. rewrite Hm, attach_id.
  by destruct s as [? ? ? ? ? ? ? ? ? ? ? ? [] ? ? ?].
Qed.

Lemma hash_key_run sb parent q (s : vfs A) :
  ht_size (v_dentry_ht s) = 128 -> dentry_hash_key sb parent q s = Ok (key_of sb parent q, s).
Proof. intros Hs. unfold dentry_hash_key, gets, key_of. rewrite Hs. exact eq_refl. Qed.

(** The nodes of a bucket hold entries whose key is not the bucket's number. *)
Definition strangers (s : vfs A) (b : Z) (l : list Z) : Prop :=
  forall p, p ∈ l -> exists n, nodes (v_dentry_ht s) !! p = Some n /\
    (value n = NULL \/ exists e, v_dentries s !! value n = Some e /\ named (d_name e) /\
       key_of (d_sb e) (d_parent e) (d_name e) <> b).

Lemma dentry_scan_misses sb parent q l s :
  named q -> strangers s (key_of sb parent q) l -> dentry_scan l sb parent q s = Ok (NULL, s).
Proof.
  intros Hq. induction l as [|p l IH]; intros Hl; cbn [dentry_scan]; [done|].
  destruct (Hl p ltac:(left)) as (n & Hn & Hv).
  assert (strangers s (key_of sb parent q) l) as Hl' by (intros x Hx; apply Hl; by right).
  assert (on_dentry_ht (get_node p) s = Ok (n, s)) as Hg.
  { apply on_dentry_ht_pure. unfold get_node, load. cbn. by rewrite Hn. }
  rewrite (bind_Ok _ _ _ _ _ Hg). cbv zeta. destruct (Z.eqb_spec (value n) NULL) as [|Hne]; [by apply IH|].
  destruct Hv as [?|(e & He & Hnamed & Hk)]; [done|].
  assert (get_dentry (value n) s = Ok (e, s)) as Hd by (unfold get_dentry, obj, load; by rewrite He).
  rewrite (bind_Ok _ _ _ _ _ Hd). destruct (_ && _) eqn:E; [|by apply IH]. exfalso.
  rewrite !andb_true_iff, !Z.eqb_eq in E. destruct E as (((E1 & E2) & _) & E4).
  unfold str_eq in E4. apply bool_decide_eq_true in E4. apply Hk.
  unfold key_of. by rewrite E1, E2, Hnamed, Hq, E4.
Qed.

Lemma key_of_range sb parent q : 0 <= key_of sb parent q < 128.
Proof.
  unfold key_of. generalize (Z.lxor (u32 (Z.lxor sb parent)) (q_hash q)). intros x.
  pose proof (hash_ptr_range 7 x ltac:(lia)) as Hr. replace (2 ^ 7) with 128 in Hr by reflexivity. exact Hr.
Qed.

Lemma dentry_lookup_misses F st m sb parent q s :
  dcache F st m s -> named q ->
  wp False (dentry_lookup sb parent q) (fun r s' => r = NULL /\ dcache F st m s') s.
Proof.
  intros [Hl [Hm Hsz] Hlive Hlinks] Hq. unfold dentry_lookup.
  eapply wp_enter; [exact Hl|]. intros h Hh. apply wp_bind.
  eapply wp_run; [apply hash_key_run; same_state s|].
  set (b := key_of sb parent q). pose proof (key_of_range sb parent q) as Hb. fold b in Hb.
  assert (exists l, buckets (v_dentry_ht s) !! b = Some l) as [l Hbl].
  { apply (proj2 (hr_buckets _ _ Hm b)). cbn. by rewrite Hsz. }
  apply wp_bind. eapply wp_run; [apply on_dentry_ht_pure; unfold get_bucket, load; destruct s; cbn in *; by rewrite Hbl|].
  assert (strangers (set_v_hart h s) b l) as Hs.
  { intros p Hp. destruct (hr_nodes _ _ Hm b l p Hbl Hp) as ([k v] & Hn & Hk). cbn in Hn, Hk. rewrite Hsz in Hk.
    exists (HNode k v). split; [by destruct s|]. right. cbn [value].
    assert (m !! k = Some v) as Hkv by (apply (hr_map _ _ Hm); eauto).
    destruct (Hlive k v Hkv) as (e & He & Hnamed & Ek). exists e. split; [by destruct s|]. split; [done|].
    rewrite <- Ek. intros ->. by apply (hash_ptr_no_fixpoint b). }
  apply wp_bind. eapply wp_run; [by apply dentry_scan_misses|].
  eapply wp_leave; [same_state s|]. intros h' Hh'. apply wp_ret. split; [done|]. split.
  - same_state s.
  - apply (dentry_map_change F s); [by split|same_state s..].
  - intros k d Hk. destruct (Hlive k d Hk) as (e & He & Hrest). exists e. split; [by destruct s|done].
  - same_state s.
Qed.

(** What [dentry_insert] is given: a live, named entry with a superblock. *)
Definition insertable (s : vfs A) (d : Z) : Prop :=
  d <> NULL /\ allocated (v_links s) (d_list d) /\
  exists e, v_dentries s !! d = Some e /\ named (d_name e).

Lemma dentry_insert_ok F st m d s :
  dcache F st m s -> insertable s d ->
  wp False (dentry_insert d)
    (fun _ s' => (exists m', dcache F st m' s') /\ forall d', insertable s d' -> insertable s' d') s.
Proof.
  intros Hc (Hd & Ha & e & He & Hn). pose proof Hc as [Hl [Hm Hsz] Hlive [Hcl Hh0]]. unfold dentry_insert.
  destruct (Z.eqb_spec d NULL) as [|_]; [done|]. apply wp_bind. eapply wp_obj; [exact He|].
  destruct (d_sb e =? NULL); [apply wp_ret; by eauto|]. destruct (d_parent e =? NULL); [apply wp_ret; by eauto|].
  eapply wp_enter; [exact Hl|]. intros h Hh. apply wp_bind.
  eapply wp_run; [apply hash_key_run; same_state s|]. set (b := key_of _ _ _).
  apply wp_bind. eapply wp_run.
  { apply on_dentry_ht_pure. apply (ht_lookup_spec (own := framed own F) _ m). destruct s; exact Hm. }
  destruct (negb _).
  { eapply wp_leave; [same_state s|]. intros h' Hh'. apply wp_ret. split; [exists m; split|].
    - same_state s.
    - apply (dentry_map_change F s); [by split|same_state s..].
    - destruct s; exact Hlive.
    - same_state s.
    - intros d'. by destruct s. }
  apply wp_bind, wp_lift. eapply wp_mono; [apply (ht_insert_spec (own := framed own F) _ m); destruct s; exact Hm|done|].
  intros r ht [Esz Hr]. cbv beta. set (s1 := set_v_dentry_ht _ _).
  assert (ht_size ht = 128) as Hsz1 by (rewrite Esz; destruct s; exact Hsz).
  assert (exists m', dentry_map F s1 m' /\ (m' = m \/ m' = <[b := d]> m)) as (m' & Hm1 & Em).
  { assert (forall m', ht_rep (own := framed own F) ht m' -> dentry_map F s1 m') as Hrep.
    { intros m' Hm'. split; [destruct s, ht; exact Hm'|subst s1; destruct s; exact Hsz1]. }
    destruct Hr as [[_ Hr]|(_ & _ & Hr)]; eauto. }
  assert (locks st {[dentry_state_lock]} s1) as Hl1 by (subst s1; same_state s).
  assert (v_dentries s1 = v_dentries s /\ v_links s1 = v_links s) as [Ed El] by (subst s1; by destruct s).
  clearbody s1. clear Hr Esz Hsz1 ht.
  destruct (list_add_closed (v_links s1) (d_list d) dentry_state_list) as (l & Hl3 & Hc3 & Ha3); [by rewrite El..|].
  apply wp_bind. eapply wp_on_links; [exact Hl3|]. apply wp_bind, wp_modify.
  eapply wp_leave; [same_state s1|]. intros h3 Hh3. apply wp_ret. split; [exists m'; split|].
  - same_state s1.
  - apply (dentry_map_change F s1); [done|same_state s1..].
  - intros k d' Hk. assert ((k = b /\ d' = d) \/ m !! k = Some d') as [[-> ->]|Hk'].
    { destruct Em as [->| ->]; [by right|]. apply lookup_insert_Some in Hk as [[<- <-]|[_ ?]]; [by left|by right]. }
    + exists e. split; [destruct s1; cbn in *; by rewrite Ed|done].
    + destruct (Hlive k d' Hk') as (e' & He' & Hrest). exists e'. split; [destruct s1; cbn in *; by rewrite Ed|done].
  - rewrite El in Ha3. destruct s1; cbn in *. by split; [|apply Ha3].
  - rewrite El in Ha3. intros d' (H1 & H2 & H3). split; [done|]. destruct s1; cbn in *. rewrite Ed. by split; [apply Ha3|].
Qed.

Fixpoint insert_all (l : list Z) : ST (vfs A) unit :=
  match l with [] => ret tt | d :: l => do! dentry_insert d in insert_all l end.

Lemma insert_all_ok F st l : forall m s,
  dcache F st m s -> Forall (insertable s) l ->
  wp False (insert_all l) (fun _ s' => exists m', dcache F st m' s') s.
Proof.
  induction l as [|d l IH]; intros m s Hc Hl; cbn [insert_all]; [apply wp_ret; eauto|].
  apply Forall_cons in Hl as [Hd Hl]. eapply wp_bind_mono; [by eapply dentry_insert_ok|].
  intros r s' [[m' Hc'] Hi]. eapply IH; [exact Hc'|]. by eapply Forall_impl.
Qed.

(** The dentry cache never hits: whatever live entries are inserted into it,
    with whatever results, [dentry_lookup] returns null for every superblock,
    parent and name.  Insertion files an entry under the hash of its bucket
    number, the search reads the bucket with the number itself, and no bucket
    number of the table of 128 is its own hash. *)
Theorem dentry_cache_never_hits F st m s ds sb parent q :
  dcache F st m s -> Forall (insertable s) ds -> named q ->
  wp False (do! insert_all ds in dentry_lookup sb parent q) (fun r _ => r = NULL) s.
Proof.
  intros Hc Hds Hq. eapply wp_bind_mono; [by eapply insert_all_ok|]. intros [] s' [m' Hc'].
  eapply wp_mono; [by eapply dentry_lookup_misses|done|]. by intros r s2 [-> _].
Qed.

(** ** The LRU list *)

(** Adding the first node of a list to the list once more. *)
Lemma list_add_again st h n xs :
  is_list st h (n :: xs) ->
  exists st', list_add n h st = Ok (tt, st') /\ lnext st' !! h = Some n /\ lnext st' !! n = Some n.
Proof.
  intros Hl. apply (is_list_gap st h []) in Hl as Hg. destruct Hg as (Hnd & _ & Hx & Hp & _).
  cbn [gap_prev gap_next List.last List.hd] in Hx, Hp.
  assert (h <> n) as Hne by (apply NoDup_cons in Hnd as [Hnd _]; intros ->; apply Hnd; by left).
  destruct (is_list_allocated _ _ _ n Hl ltac:(by right; left)) as [Hn1 Hn2].
  unfold list_add. rewrite (bind_Ok _ _ _ _ _ (get_next_run _ _ _ Hx)). unfold __list_add.
  rewrite (bind_Ok _ _ _ _ _ (set_prev_run _ _ _ Hn2)).
  erewrite bind_Ok by (apply set_next_run; exact Hn1).
  erewrite bind_Ok by (apply set_prev_run; cbn; by apply is_Some_insert).
  rewrite set_next_run by (cbn; apply is_Some_insert; by eexists).
  eexists. split; [done|]. cbn. rewrite lookup_insert_eq, lookup_insert_ne, lookup_insert_eq by done. done.
Qed.

Lemma list_for_each_loop st h n fuel :
  lnext st !! n = Some n -> h <> n -> list_for_each fuel n h st = NoFuel.
Proof.
  intros Hn Hne. induction fuel as [|fuel IH]; [done|]. cbn [list_for_each].
  destruct (Z.eqb_spec n h) as [|_]; [congruence|].
  rewrite (bind_Ok _ _ _ _ _ (get_next_run _ _ _ Hn)). unfold bind. by rewrite IH.
Qed.

Lemma dentry_put_last st d e l (s : vfs A) :
  locks st ∅ s -> d <> NULL -> v_dentries s !! d = Some e -> d_refcnt e = 1 ->
  list_add (d_lru d) dentry_state_lru (v_links s) = Ok (tt, l) ->
  wp False (dentry_put d)
    (fun _ s' => locks st ∅ s' /\ v_links s' = l /\ v_dentries s' !! d = Some (set_d_refcnt 0 e)) s.
Proof.
  intros Hl Hd He H1 Hadd. unfold dentry_put. destruct (Z.eqb_spec d NULL) as [|_]; [done|].
  eapply wp_enter; [exact Hl|]. intros h Hh. apply wp_bind. eapply wp_upd; [same_state s|].
  apply wp_bind. eapply wp_obj; [destruct s; cbn; apply lookup_insert_eq|].
  assert (d_refcnt (set_d_refcnt (u32 (d_refcnt e - 1)) e) = 0) as -> by (destruct e; cbn in *; by subst).
  cbn [Z.eqb]. eapply wp_leave; [same_state s|]. intros h1 Hh1.
  eapply wp_enter; [same_state s|]. intros h2 Hh2. apply wp_bind. eapply wp_on_links; [destruct s; exact Hadd|].
  eapply wp_exit; [same_state s|]. intros h3 Hh3. split; [same_state s|]. destruct s; cbn in *. split; [done|].
  rewrite lookup_insert_eq. destruct e; cbn in *. by subst.
Qed.

Lemma dentry_get_spec st d e (s : vfs A) :
  locks st ∅ s -> d <> NULL -> v_dentries s !! d = Some e ->
  wp False (dentry_get d)
    (fun _ s' => locks st ∅ s' /\ v_links s' = v_links s /\
       v_dentries s' !! d = Some (set_d_refcnt (u32 (d_refcnt e + 1)) e)) s.
Proof.
  intros Hl Hd He. unfold dentry_get. destruct (Z.eqb_spec d NULL) as [|_]; [done|].
  eapply wp_enter; [exact Hl|]. intros h Hh. apply wp_bind. eapply wp_upd; [same_state s|].
  eapply wp_exit; [same_state s|]. intros h1 Hh1. split; [same_state s|]. destruct s; cbn in *. split; [done|].
  apply lookup_insert_eq.
Qed.

(** An entry that loses its last reference twice ruins the LRU list:
    [dentry_put] adds it to the list although it is there already, its node then
    points at itself, and no walk of the list ever comes back to the head. *)
Theorem dentry_lru_loops st d e xs (s : vfs A) :
  locks st ∅ s -> d <> NULL -> v_dentries s !! d = Some e -> d_refcnt e = 1 ->
  is_list (v_links s) dentry_state_lru xs -> d_lru d ∉ dentry_state_lru :: xs -> allocated (v_links s) (d_lru d) ->
  wp False (do! dentry_put d in do! dentry_get d in dentry_put d)
    (fun _ s' => forall fuel,
       (let! n := get_next dentry_state_lru in list_for_each fuel n dentry_state_lru) (v_links s') = NoFuel) s.
Proof.
  intros Hl Hd He H1 Hlist Hn Ha.
  destruct (list_add_refines _ _ _ _ Hlist Hn Ha) as (l1 & Hadd & Hl1 & _).
  eapply wp_bind_mono; [by eapply dentry_put_last|]. intros [] s1 (Hk1 & E1 & He1).
  eapply wp_bind_mono; [by eapply dentry_get_spec|]. intros [] s2 (Hk2 & E2 & He2).
  rewrite <- E1, <- E2 in Hl1. destruct (list_add_again _ _ _ _ Hl1) as (l2 & Hadd2 & Hh & Hx).
  eapply wp_mono; [eapply dentry_put_last; [exact Hk2|exact Hd|exact He2|by destruct e|exact Hadd2]|done|].
  intros [] s3 (_ & E3 & _) fuel. rewrite E3. rewrite (bind_Ok _ _ _ _ _ (get_next_run _ _ _ Hh)).
  apply list_for_each_loop; [done|]. intros E. apply Hn. rewrite <- E. by left.
Qed.

End dentry.

#[local] Existing Instance bare_code.

Definition entry_a : dentry := Dentry (qstr_init 8192 [97]) NULL 4096 4352 NULL NULL 1 0.

(** One live entry, and a table of 128 empty buckets. *)
Definition one_dentry : vfs bump :=
  set_v_dentries {[ 4352 := entry_a ]}
    (set_v_env (Bump 16384 4 {[ 12288 ]})
      (set_v_dentry_ht (Ht 12288 (gset_to_gmap [] (list_to_set (seqZ 0 128))) 128 0 ∅ tt)
        (bare_vfs [dentry_state_list; dentry_state_lru; d_list 4352; d_lru 4352]))).

Lemma one_dentry_cache : dcache (own := bump_own) ∅ 2 ∅ one_dentry.
Proof.
  split.
  - exact (bare_locks []).
  - split; [|reflexivity]. split; cbn -[gset_to_gmap]; try done.
    + by exists 7.
    + intros i. rewrite lookup_gset_to_gmap. rewrite option_guard_decide.
      destruct (decide _) as [Hi|Hi]; rewrite elem_of_list_to_set, elem_of_seqZ in Hi; (split; [|intros; try lia]).
      * intros _. lia.
      * by eexists.
      * by intros [? ?].
    + intros i l p [_ <-]%lookup_gset_to_gmap_Some Hp. by apply not_elem_of_nil in Hp.
    + intros i l [_ <-]%lookup_gset_to_gmap_Some. constructor.
    + intros k v. rewrite lookup_empty. split; [done|]. by intros [p Hp].
    + rewrite dom_empty_L, union_empty_r_L. split; [apply disjoint_empty_r|]. rewrite union_empty_r_L.
      split; [reflexivity|]. split; [reflexivity|]. by intros x ->%elem_of_singleton.
  - intros k d. by rewrite lookup_empty.
  - split; [apply closed_self_links|apply allocated_self_links; by left].
Qed.

Lemma dentry_cache_never_hits_witness :
  wp False (do! insert_all [4352] in dentry_lookup 4096 4352 (qstr_init 0 [97])) (fun r _ => r = NULL) one_dentry.
Proof.
  apply (dentry_cache_never_hits (own := bump_own) ∅ 2 ∅ one_dentry [4352] 4096 4352 (qstr_init 0 [97])).
  - exact one_dentry_cache.
  - apply List.Forall_cons; [|apply List.Forall_nil]. split; [done|].
    split; [split; eexists; vm_compute; reflexivity|]. exists entry_a. split; reflexivity.
  - reflexivity.
Defined.

Lemma dentry_lru_loops_witness :
  wp False (do! dentry_put 4352 in do! dentry_get 4352 in dentry_put 4352)
    (fun _ s' => forall fuel,
       (let! n := get_next dentry_state_lru in list_for_each fuel n dentry_state_lru) (v_links s') = NoFuel) one_dentry.
Proof.
  apply (dentry_lru_loops 2 4352 entry_a [] one_dentry).
  - exact (bare_locks []).
  - done.
  - reflexivity.
  - reflexivity.
  - split; [apply NoDup_singleton|]. by vm_compute.
  - intros E%list_elem_of_singleton. discriminate E.
  - split; eexists; vm_compute; reflexivity.
Defined.
