(* ===== verification/OpenFile.v ===== *)
(** Open files, [src/fs/file.c]. *)

From S2P Require Import Prelude ListHead Sync Alloc Hashtable Machine Vfs InodeCache DentryCache.

Definition set_f_dentry x (f : file) : file := let 'File _ b c d e g h i := f in File x b c d e g h i.
Definition set_f_inode x (f : file) : file := let 'File a _ c d e g h i := f in File a x c d e g h i.
Definition set_f_op x (f : file) : file := let 'File a b _ d e g h i := f in File a b x d e g h i.
Definition set_f_pos x (f : file) : file := let 'File a b c d _ g h i := f in File a b c d x g h i.
Definition set_f_flags x (f : file) : file := let 'File a b c d e _ h i := f in File a b c d e x h i.
Definition set_f_mode x (f : file) : file := let 'File a b c d e g _ i := f in File a b c d e g x i.
Definition set_f_refcnt x (f : file) : file := let 'File a b c d e g h _ := f in File a b c d e g h x.

Section file.
Context {A : Type} `{KAlloc A} `{FsCode A}.

Definition file_init : ST (vfs A) unit :=
  let! r := on_env (kmem_cache_init_fn sizeof_file) in
  if negb (r =? 0) then panic else
  do! on_links (INIT_LIST_HEAD file_state_list) in
  do! lock_init file_state_lock in
  modify (fun s => set_v_counts (<[file_state_list := 0]> (v_counts s)) s).

Definition file_alloc : ST (vfs A) Z :=
  let! file := on_env (ka_alloc sizeof_file) in
  if file =? NULL then ret (PTR (- ENOMEM)) else
  do! new_links [f_list file] in
  do! put v_files set_v_files file (File NULL NULL NULL NULL 0 0 0 1) in
  do! lock_init (f_lock file) in
  do! on_links (INIT_LIST_HEAD (f_list file)) in
  do! acquire file_state_lock in
  do! on_links (list_add (f_list file) file_state_list) in
  do! add_count file_state_list 1 in
  do! release file_state_lock in
  ret file.

Definition free_file_object (file : Z) : ST (vfs A) unit :=
  do! on_env (ka_free file) in
  do! free_links [f_list file] in
  remove_obj v_files set_v_files file.

Definition file_free (file : Z) : ST (vfs A) unit :=
  if file =? NULL then ret tt else
  do! acquire file_state_lock in
  do! on_links (list_del (f_list file)) in
  do! add_count file_state_list (-1) in
  do! release file_state_lock in
  free_file_object file.

Definition file_open (dentry flags : Z) : ST (vfs A) Z :=
  if dentry =? NULL then ret (PTR (- ENOENT)) else
  let! d := get_dentry dentry in
  if d_inode d =? NULL then ret (PTR (- ENOENT)) else
  let! file := file_alloc in
  if IS_ERR file then ret file else
  let! n := get_inode (d_inode d) in
  do! upd_file file (set_f_dentry dentry) in
  do! upd_file file (set_f_inode (d_inode d)) in
  do! upd_file file (set_f_flags flags) in
  do! upd_file file (set_f_op (i_fop n)) in
  do! (if S_ISDIR (i_mode n) then upd_file file (set_f_mode S_IFDIR)
       else if S_ISREG (i_mode n) then upd_file file (set_f_mode S_IFREG) else ret tt) in
  do! dentry_get dentry in
  match entry (i_fop n) fileops open_op with
  | Some f =>
      let! r := f (d_inode d) file in
      if r <? 0 then
        do! dentry_put dentry in
        do! file_free file in
        ret (PTR r)
      else ret file
  | None => ret file
  end.

Definition file_close (file : Z) : ST (vfs A) Z :=
  if file =? NULL then ret (- EINVAL) else
  do! acquire (f_lock file) in
  do! upd_file file (fun f => set_f_refcnt (u32 (f_refcnt f - 1)) f) in
  let! f := get_file file in
  if f_refcnt f =? 0 then
    do! release (f_lock file) in
    let! f := get_file file in
    do! (match entry (f_op f) fileops release_op with
         | Some g => do! g (f_inode f) file in ret tt
         | None => ret tt
         end) in
    let! f := get_file file in
    do! (if f_dentry f =? NULL then ret tt else dentry_put (f_dentry f)) in
    do! file_free file in
    ret 0
  else
    do! release (f_lock file) in
    ret 0.

Definition file_read (file buf count : Z) : ST (vfs A) Z :=
  if (file =? NULL) || (buf =? NULL) || (count =? 0) then ret (- EINVAL) else
  let! f := get_file file in
  if f_inode f =? NULL then ret (- ENOENT) else
  if Z.land (f_flags f) O_ACCMODE =? O_WRONLY then ret (- EACCES) else
  let! n := get_inode (f_inode f) in
  if S_ISDIR (i_mode n) then ret (- EISDIR) else
  match entry (f_op f) fileops read_op with
  | None => ret (- ENOSYS)
  | Some read =>
      do! acquire (f_lock file) in
      let pos := f_pos f in
      (* [loff_t] against [u64]: unsigned comparisons *)
      if i_size n <=? u64 pos then do! release (f_lock file) in ret 0 else
      let count := if i_size n <? u64 (pos + count) then u64 (i_size n - pos) else count in
      let! '(r, pos) := read file buf count pos in
      do! (if 0 <? r then upd_file file (set_f_pos pos) else ret tt) in
      do! release (f_lock file) in
      ret r
  end.

Definition file_write (file buf count : Z) : ST (vfs A) Z :=
  if (file =? NULL) || (buf =? NULL) || (count =? 0) then ret (- EINVAL) else
  let! f := get_file file in
  if f_inode f =? NULL then ret (- ENOENT) else
  if Z.land (f_flags f) O_ACCMODE =? O_RDONLY then ret (- EACCES) else
  let! n := get_inode (f_inode f) in
  if S_ISDIR (i_mode n) then ret (- EISDIR) else
  match entry (f_op f) fileops write_op with
  | None => ret (- ENOSYS)
  | Some write =>
      do! acquire (f_lock file) in
      let pos := if negb (Z.land (f_flags f) O_APPEND =? 0) then s64 (i_size n) else f_pos f in
      let! '(r, pos) := write file buf count pos in
      do! (if 0 <? r then
             do! upd_file file (set_f_pos pos) in
             let! n := get_inode (f_inode f) in
             if i_size n <? u64 pos then upd_inode (f_inode f) (set_i_size (u64 pos)) else ret tt
           else ret tt) in
      do! release (f_lock file) in
      ret r
  end.

(** The new position before the callback; [None] is an unknown [whence]. *)
Definition seek_target (whence offset pos size : Z) : option Z :=
  if whence =? SEEK_SET then Some offset
  else if whence =? SEEK_CUR then Some (s64 (pos + offset))
  else if whence =? SEEK_END then Some (s64 (size + offset))
  else None.

Definition file_lseek (file offset whence : Z) : ST (vfs A) Z :=
  if file =? NULL then ret (- EINVAL) else
  let! f := get_file file in
  if f_inode f =? NULL then ret (- ENOENT) else
  let! n := get_inode (f_inode f) in
  if S_ISDIR (i_mode n) then ret (- EISDIR) else
  do! acquire (f_lock file) in
  match seek_target whence offset (f_pos f) (i_size n) with
  | None => do! release (f_lock file) in ret (- EINVAL)
  | Some new_pos =>
      if new_pos <? 0 then do! release (f_lock file) in ret (- EINVAL) else
      let! new_pos := (match entry (f_op f) fileops llseek_op with
                       | Some llseek => llseek file offset whence
                       | None => ret new_pos
                       end) in
      if new_pos <? 0 then do! release (f_lock file) in ret new_pos else
      do! upd_file file (set_f_pos new_pos) in
      do! release (f_lock file) in
      ret new_pos
  end.

Definition file_getdents (file buf count : Z) : ST (vfs A) Z :=
  if (file =? NULL) || (buf =? NULL) || (count =? 0) then ret (- EINVAL) else
  let! f := get_file file in
  if f_inode f =? NULL then ret (- ENOENT) else
  let! n := get_inode (f_inode f) in
  if negb (S_ISDIR (i_mode n)) then ret (- ENOTDIR) else
  match entry (f_op f) fileops readdir_op with
  | None => ret (- ENOSYS)
  | Some readdir =>
      do! acquire (f_lock file) in
      let! r := readdir file buf count in
      do! release (f_lock file) in
      ret r
  end.

Definition file_get (file : Z) : ST (vfs A) unit :=
  if file =? NULL then ret tt else
  do! acquire (f_lock file) in
  do! upd_file file (fun f => set_f_refcnt (u32 (f_refcnt f + 1)) f) in
  release (f_lock file).

Definition file_put (file : Z) : ST (vfs A) unit :=
  if file =? NULL then ret tt else
  do! acquire (f_lock file) in
  do! upd_file file (fun f => set_f_refcnt (u32 (f_refcnt f - 1)) f) in
  let! f := get_file file in
  if f_refcnt f =? 0 then
    do! release (f_lock file) in
    do! file_close file in
    ret tt
  else release (f_lock file).

End file.
