(* ===== verification/FileProof.v ===== *)
(** Reading, writing and seeking refine an abstract file; the last [file_put]
    does not release the file. *)

From S2P Require Import Prelude ListHead Sync Alloc Hashtable Machine Vfs VfsProof InodeCache DentryCache OpenFile.

(** ** The abstract file

    A position and a size; the open mode decides what is allowed. *)

Inductive io_op := IoRead (count : Z) | IoWrite (count : Z) | IoSeek (offset whence : Z).

Record afile := AFile { a_pos : Z; a_size : Z }.

Definition start_of (flags : Z) (a : afile) : Z :=
  if Z.land flags O_APPEND =? 0 then a_pos a else a_size a.

Definition io_spec (flags : Z) (a : afile) (o : io_op) : Z * afile :=
  match o with
  | IoRead c =>
      if c =? 0 then (- EINVAL, a)
      else if Z.land flags O_ACCMODE =? O_WRONLY then (- EACCES, a)
      else let r := Z.max 0 (Z.min c (a_size a - a_pos a)) in (r, AFile (a_pos a + r) (a_size a))
  | IoWrite c =>
      if c =? 0 then (- EINVAL, a)
      else if Z.land flags O_ACCMODE =? O_RDONLY then (- EACCES, a)
      else let e := start_of flags a + c in (c, AFile e (Z.max (a_size a) e))
  | IoSeek off whence =>
      let target := if whence =? SEEK_SET then Some off
                    else if whence =? SEEK_CUR then Some (a_pos a + off)
                    else if whence =? SEEK_END then Some (a_size a + off) else None in
      match target with
      | Some t => if t <? 0 then (- EINVAL, a) else (t, AFile t (a_size a))
      | None => (- EINVAL, a)
      end
  end.

(** No position leaves the range of [loff_t]. *)
Definition io_op_ok (flags : Z) (a : afile) (o : io_op) : Prop :=
  match o with
  | IoRead c => 0 <= c /\ a_pos a + c < 2 ^ 63
  | IoWrite c => 0 <= c /\ start_of flags a + c < 2 ^ 63
  | IoSeek off whence =>
      - 2 ^ 63 <= off < 2 ^ 63 /\ a_pos a + off < 2 ^ 63 /\ a_size a + off < 2 ^ 63
  end.

Fixpoint io_ops_ok (flags : Z) (a : afile) (l : list io_op) : Prop :=
  match l with
  | [] => True
  | o :: l => io_op_ok flags a o /\ io_ops_ok flags (io_spec flags a o).2 l
  end.

Fixpoint io_specs (flags : Z) (a : afile) (l : list io_op) : list Z * afile :=
  match l with
  | [] => ([], a)
  | o :: l => let '(r, a) := io_spec flags a o in let '(rs, a) := io_specs flags a l in (r :: rs, a)
  end.

Section file.
Context {A : Type} `{KAlloc A} `{FsCode A}.

Definition run_io (p buf : Z) (o : io_op) : ST (vfs A) Z :=
  match o with
  | IoRead c => file_read p buf c
  | IoWrite c => file_write p buf c
  | IoSeek off whence => file_lseek p off whence
  end.

Fixpoint run_ios (p buf : Z) (l : list io_op) : ST (vfs A) (list Z) :=
  match l with
  | [] => ret []
  | o :: l => let! r := run_io p buf o in let! rs := run_ios p buf l in ret (r :: rs)
  end.

(** The file system transfers every byte it is asked for. *)
Definition transfers (rw : Z -> Z -> Z -> Z -> ST (vfs A) (Z * Z)) : Prop :=
  forall p buf c pos s, 0 < c -> rw p buf c pos s = Ok ((c, pos + c), s).

(** The open file [p] with members [f] but for the position, on the inode with
    members [n] but for the size. *)
Record io_state (st p : Z) (f : file) (n : inode) (a : afile) (s : vfs A) : Prop := {
  io_locks : locks st ∅ s;
  io_file : v_files s !! p = Some (set_f_pos (a_pos a) f);
  io_inode : v_inodes s !! f_inode f = Some (set_i_size (a_size a) n);
  io_range : 0 <= a_pos a < 2 ^ 63 /\ 0 <= a_size a < 2 ^ 63
}.

(** The file is not a directory and its operations are [rd] and [wr], without
    an [llseek]. *)
Record regular (p buf : Z) (f : file) (n : inode) : Prop := {
  rg_ptrs : p <> NULL /\ buf <> NULL /\ f_inode f <> NULL;
  rg_mode : S_ISDIR (i_mode n) = false;
  rg_read : exists rd, entry (f_op f) fileops read_op = Some rd /\ transfers rd;
  rg_write : exists wr, entry (f_op f) fileops write_op = Some wr /\ transfers wr;
  rg_seek : entry (f_op f) fileops llseek_op = None
}.

Lemma set_f_pos_get x f :
  f_inode (set_f_pos x f) = f_inode f /\ f_flags (set_f_pos x f) = f_flags f /\
  f_op (set_f_pos x f) = f_op f /\ f_pos (set_f_pos x f) = x /\
  (forall y, set_f_pos y (set_f_pos x f) = set_f_pos y f).
Proof. by destruct f. Qed.

Lemma set_i_size_get x n :
  i_mode (set_i_size x n) = i_mode n /\ i_size (set_i_size x n) = x /\
  (forall y, set_i_size y (set_i_size x n) = set_i_size y n).
Proof. by destruct n. Qed.

Lemma u64_small x : 0 <= x < 2 ^ 63 -> u64 x = x.
Proof. intros. apply wrap_small. unfold in_width. lia. Qed.

Lemma s64_small x : - 2 ^ 63 <= x < 2 ^ 63 -> s64 x = x.
Proof. intros. apply swrap_small; lia. Qed.

Lemma file_read_spec st p buf f n a c s :
  regular p buf f n -> io_state st p f n a s -> io_op_ok (f_flags f) a (IoRead c) ->
  wp False (file_read p buf c)
    (fun r s' => r = (io_spec (f_flags f) a (IoRead c)).1 /\
       io_state st p f n (io_spec (f_flags f) a (IoRead c)).2 s') s.
Proof.
  intros [(Hp & Hbuf & Hi) Hdir (rd & Hrd & Htr) _ _] [Hl Hf Hn Hr] [Hc Hpc].
  destruct (set_f_pos_get (a_pos a) f) as (G1 & G2 & G3 & G4 & G5).
  destruct (set_i_size_get (a_size a) n) as (I1 & I2 & _).
  unfold file_read. destruct (Z.eqb_spec p NULL) as [|_]; [done|]. destruct (Z.eqb_spec buf NULL) as [|_]; [done|].
  cbn [orb io_spec]. destruct (Z.eqb_spec c 0) as [|Hc0]; [by apply wp_ret|].
  apply wp_bind. eapply wp_obj; [exact Hf|]. rewrite G1, G2. destruct (Z.eqb_spec (f_inode f) NULL) as [|_]; [done|].
  destruct (Z.land (f_flags f) O_ACCMODE =? O_WRONLY); [by apply wp_ret|].
  apply wp_bind. eapply wp_obj; [exact Hn|]. rewrite I1, Hdir, G3, Hrd, G4, I2.
  eapply wp_enter; [exact Hl|]. intros h Hh. rewrite (u64_small (a_pos a)) by lia.
  destruct (Z.leb_spec (a_size a) (a_pos a)) as [Hge|Hlt].
  { eapply wp_leave; [same_state s|]. intros h' Hh'. apply wp_ret. rewrite Z.max_l by lia. split; [done|].
    rewrite Z.add_0_r. split; [same_state s..|done]. }
  rewrite (u64_small (a_pos a + c)), (u64_small (a_size a - a_pos a)) by lia.
  assert ((if a_size a <? a_pos a + c then a_size a - a_pos a else c) = Z.min c (a_size a - a_pos a)) as ->.
  { destruct (Z.ltb_spec (a_size a) (a_pos a + c)); lia. }
  set (r := Z.min c (a_size a - a_pos a)). assert (0 < r <= a_size a - a_pos a) as Hr' by lia.
  apply wp_bind. eapply wp_run; [apply Htr; lia|]. cbv beta iota. destruct (Z.ltb_spec 0 r) as [_|]; [|lia].
  apply wp_bind. eapply wp_upd; [destruct s; exact Hf|]. eapply wp_leave; [same_state s|]. intros h' Hh'.
  apply wp_ret. rewrite Z.max_r by lia. split; [done|]. split.
  - same_state s.
  - destruct s; cbn in *. by rewrite lookup_insert_eq, G5.
  - same_state s.
  - cbn. lia.
Qed.

Lemma file_write_spec st p buf f n a c s :
  regular p buf f n -> io_state st p f n a s -> io_op_ok (f_flags f) a (IoWrite c) ->
  wp False (file_write p buf c)
    (fun r s' => r = (io_spec (f_flags f) a (IoWrite c)).1 /\
       io_state st p f n (io_spec (f_flags f) a (IoWrite c)).2 s') s.
Proof.
  intros [(Hp & Hbuf & Hi) Hdir _ (wr & Hwr & Htr) _] [Hl Hf Hn Hr] [Hc Hpc].
  destruct (set_f_pos_get (a_pos a) f) as (G1 & G2 & G3 & G4 & G5).
  destruct (set_i_size_get (a_size a) n) as (I1 & I2 & I3).
  unfold file_write. destruct (Z.eqb_spec p NULL) as [|_]; [done|]. destruct (Z.eqb_spec buf NULL) as [|_]; [done|].
  cbn [orb io_spec]. destruct (Z.eqb_spec c 0) as [|Hc0]; [by apply wp_ret|].
  apply wp_bind. eapply wp_obj; [exact Hf|]. rewrite G1, G2. destruct (Z.eqb_spec (f_inode f) NULL) as [|_]; [done|].
  destruct (Z.land (f_flags f) O_ACCMODE =? O_RDONLY); [by apply wp_ret|].
  apply wp_bind. eapply wp_obj; [exact Hn|]. rewrite I1, Hdir, G3, Hwr, G4, I2.
  eapply wp_enter; [exact Hl|]. intros h Hh.
  assert ((if negb (Z.land (f_flags f) O_APPEND =? 0) then s64 (a_size a) else a_pos a) = start_of (f_flags f) a) as ->.
  { unfold start_of. rewrite s64_small by lia. by destruct (_ =? 0). }
  assert (0 <= start_of (f_flags f) a) as Hs0 by (unfold start_of; case_match; lia).
  set (e := start_of (f_flags f) a + c) in *.
  apply wp_bind. eapply wp_run; [apply Htr; lia|]. cbv beta iota. destruct (Z.ltb_spec 0 c) as [_|]; [|lia].
  apply wp_bind, wp_bind. eapply wp_upd; [destruct s; exact Hf|].
  apply wp_bind. eapply wp_obj; [destruct s; exact Hn|]. rewrite I2. fold e. rewrite (u64_small e) by lia.
  destruct (Z.ltb_spec (a_size a) e) as [Hlt|Hge].
  - eapply wp_upd; [destruct s; exact Hn|]. eapply wp_leave; [same_state s|]. intros h' Hh'.
    apply wp_ret. rewrite Z.max_r by lia. split; [done|]. split.
    + same_state s.
    + destruct s; cbn in *. by rewrite lookup_insert_eq, G5.
    + destruct s; cbn in *. by rewrite lookup_insert_eq, I3.
    + cbn. lia.
  - apply wp_ret. eapply wp_leave; [same_state s|]. intros h' Hh'.
    apply wp_ret. rewrite Z.max_l by lia. split; [done|]. split.
    + same_state s.
    + destruct s; cbn in *. by rewrite lookup_insert_eq, G5.
    + same_state s.
    + cbn. lia.
Qed.

Lemma file_lseek_spec st p buf f n a off whence s :
  regular p buf f n -> io_state st p f n a s -> io_op_ok (f_flags f) a (IoSeek off whence) ->
  wp False (file_lseek p off whence)
    (fun r s' => r = (io_spec (f_flags f) a (IoSeek off whence)).1 /\
       io_state st p f n (io_spec (f_flags f) a (IoSeek off whence)).2 s') s.
Proof.
  intros [(Hp & Hbuf & Hi) Hdir _ _ Hseek] [Hl Hf Hn Hr] (Ho & Hpo & Hso).
  destruct (set_f_pos_get (a_pos a) f) as (G1 & G2 & G3 & G4 & G5).
  destruct (set_i_size_get (a_size a) n) as (I1 & I2 & _).
  unfold file_lseek. destruct (Z.eqb_spec p NULL) as [|_]; [done|].
  apply wp_bind. eapply wp_obj; [exact Hf|]. rewrite G1. destruct (Z.eqb_spec (f_inode f) NULL) as [|_]; [done|].
  apply wp_bind. eapply wp_obj; [exact Hn|]. rewrite I1, Hdir.
  eapply wp_enter; [exact Hl|]. intros h Hh. rewrite G4, I2, G3, Hseek.
  cbn [io_spec]. unfold seek_target. rewrite !s64_small by lia.
  assert (forall o : option Z, o = (if whence =? SEEK_SET then Some off else if whence =? SEEK_CUR then Some (a_pos a + off)
    else if whence =? SEEK_END then Some (a_size a + off) else None) -> forall t, o = Some t -> t < 2 ^ 63) as Ht.
  { intros o -> t. repeat case_match; intros [= <-]; lia. }
  destruct (if whence =? SEEK_SET then _ else _) as [t|] eqn:E; cbn [fst snd].
  2: { eapply wp_leave; [same_state s|]. intros h' Hh'. apply wp_ret. split; [done|]. split; [same_state s..|done]. }
  specialize (Ht _ eq_refl t eq_refl). destruct (Z.ltb_spec t 0) as [Hneg|Hpos].
  { eapply wp_leave; [same_state s|]. intros h' Hh'. apply wp_ret. split; [done|]. split; [same_state s..|done]. }
  apply wp_bind, wp_ret. destruct (Z.ltb_spec t 0) as [|_]; [lia|].
  apply wp_bind. eapply wp_upd; [destruct s; exact Hf|]. eapply wp_leave; [same_state s|]. intros h' Hh'.
  apply wp_ret. split; [done|]. split.
  - same_state s.
  - destruct s; cbn in *. by rewrite lookup_insert_eq, G5.
  - same_state s.
  - cbn. lia.
Qed.

Lemma run_ios_spec st p buf f n l : forall a s,
  regular p buf f n -> io_state st p f n a s -> io_ops_ok (f_flags f) a l ->
  wp False (run_ios p buf l)
    (fun rs s' => rs = (io_specs (f_flags f) a l).1 /\ io_state st p f n (io_specs (f_flags f) a l).2 s') s.
Proof.
  induction l as [|o l IH]; intros a s Hreg Hs Hok; cbn [run_ios io_specs]; [by apply wp_ret|].
  destruct Hok as [Ho Hl].
  assert (wp False (run_io p buf o) (fun r s' => r = (io_spec (f_flags f) a o).1 /\
    io_state st p f n (io_spec (f_flags f) a o).2 s') s) as Hop.
  { destruct o; cbn [run_io].
    - by apply file_read_spec.
    - by apply file_write_spec.
    - by apply (file_lseek_spec st p buf). }
  eapply wp_bind_mono; [exact Hop|]. intros r s1 [-> Hs1].
  eapply wp_bind_mono; [by apply IH|]. intros rs s2 [-> Hs2]. apply wp_ret.
  destruct (io_spec (f_flags f) a o) as [r1 a1]. cbn [fst snd] in *. by destruct (io_specs (f_flags f) a1 l).
Qed.


(** The clamp of [file_read] is computed modulo 2^64: a count that takes the
    position past it reaches the file system as it is. *)
Lemma file_read_count_wraps st p buf f n rd a c s :
  p <> NULL -> buf <> NULL -> f_inode f <> NULL -> S_ISDIR (i_mode n) = false ->
  Z.land (f_flags f) O_ACCMODE <> O_WRONLY -> entry (f_op f) fileops read_op = Some rd ->
  io_state st p f n a s -> a_pos a < a_size a -> 2 ^ 64 <= a_pos a + c < 2 ^ 64 + a_size a -> 0 < c ->
  exists s1, file_read p buf c s = (let! '(r, pos) := rd p buf c (a_pos a) in
    do! (if 0 <? r then upd_file p (set_f_pos pos) else ret tt) in do! release (f_lock p) in ret r) s1 /\
    v_files s1 = v_files s /\ v_inodes s1 = v_inodes s.
Proof.
  intros Hp Hbuf Hi Hdir Hm Hrd [Hl Hf Hn Hr] Hlt Hw Hc.
  destruct (set_f_pos_get (a_pos a) f) as (G1 & G2 & G3 & G4 & G5).
  destruct (set_i_size_get (a_size a) n) as (I1 & I2 & _).
  assert (wp False (acquire (f_lock p)) (fun _ s1 => v_files s1 = v_files s /\ v_inodes s1 = v_inodes s) s) as Ha.
  { eapply wp_acquire; [exact Hl|set_solver|apply few_empty|]. intros h _. by destruct s. }
  apply wp_total in Ha as ([] & s1 & Ea & Hs1). exists s1. split; [|done].
  unfold file_read. destruct (Z.eqb_spec p NULL) as [|_]; [done|]. destruct (Z.eqb_spec buf NULL) as [|_]; [done|].
  destruct (Z.eqb_spec c 0) as [|_]; [lia|]. cbn [orb].
  assert (get_file p s = Ok (set_f_pos (a_pos a) f, s)) as E1 by (unfold get_file, obj, load; by rewrite Hf).
  rewrite (bind_Ok _ _ _ _ _ E1), G1, G2. destruct (Z.eqb_spec (f_inode f) NULL) as [|_]; [done|].
  destruct (Z.eqb_spec (Z.land (f_flags f) O_ACCMODE) O_WRONLY) as [|_]; [done|].
  assert (get_inode (f_inode f) s = Ok (set_i_size (a_size a) n, s)) as E2 by (unfold get_inode, obj, load; by rewrite Hn).
  rewrite (bind_Ok _ _ _ _ _ E2), I1, Hdir, G3, Hrd, G4, I2, (bind_Ok _ _ _ _ _ Ea).
  rewrite (u64_small (a_pos a)) by lia. destruct (Z.leb_spec (a_size a) (a_pos a)) as [|_]; [lia|].
  assert (u64 (a_pos a + c) = a_pos a + c - 2 ^ 64) as ->.
  { unfold wrap. symmetry. apply (Z.mod_unique _ _ 1); lia. }
  destruct (Z.ltb_spec (a_size a) (a_pos a + c - 2 ^ 64)) as [|_]; [lia|done].
Qed.

(** Dropping the last reference of a file with [file_put] does not release
    it: [file_put] takes the count to zero and calls [file_close], which takes
    it to 2^32 - 1 and returns; the file stays allocated and linked, its
    [release] operation is not called and its entry is not put. *)
Theorem file_put_leaks st p f (s : vfs A) :
  locks st ∅ s -> p <> NULL -> v_files s !! p = Some f -> f_refcnt f = 1 ->
  wp False (file_put p)
    (fun _ s' => v_files s' = <[p := set_f_refcnt (2 ^ 32 - 1) f]> (v_files s) /\
       v_links s' = v_links s /\ v_dentries s' = v_dentries s /\ v_env s' = v_env s /\ locks st ∅ s') s.
Proof.
  intros Hl Hp Hf H1. assert (set_f_refcnt (u32 (f_refcnt f - 1)) f = set_f_refcnt 0 f) as E0 by (by rewrite H1).
  unfold file_put. destruct (Z.eqb_spec p NULL) as [|_]; [done|].
  eapply wp_enter; [exact Hl|]. intros h Hh. apply wp_bind. eapply wp_upd; [same_state s|]. rewrite E0.
  apply wp_bind. eapply wp_obj; [destruct s; cbn; apply lookup_insert_eq|].
  assert (f_refcnt (set_f_refcnt 0 f) = 0) as -> by by destruct f.
  cbn [Z.eqb]. eapply wp_leave; [same_state s|]. intros h1 Hh1.
  apply wp_bind. unfold file_close. destruct (Z.eqb_spec p NULL) as [|_]; [done|].
  eapply wp_enter; [same_state s|]. intros h2 Hh2. apply wp_bind.
  eapply wp_upd; [destruct s; cbn; apply lookup_insert_eq|].
  assert (set_f_refcnt (u32 (f_refcnt (set_f_refcnt 0 f) - 1)) (set_f_refcnt 0 f) = set_f_refcnt (2 ^ 32 - 1) f) as ->
    by by destruct f.
  apply wp_bind. eapply wp_obj; [destruct s; cbn; apply lookup_insert_eq|].
  assert (f_refcnt (set_f_refcnt (2 ^ 32 - 1) f) = 2 ^ 32 - 1) as -> by by destruct f.
  destruct (Z.eqb_spec (2 ^ 32 - 1) 0) as [|_]; [done|].
  eapply wp_leave; [same_state s|]. intros h3 Hh3. apply wp_ret, wp_ret.
  destruct s; cbn in *. rewrite insert_insert_eq. done.
Qed.

End file.

(** A file system whose reads and writes transfer everything. *)
Definition full_ops : file_operations bump :=
  Build_file_operations bump None (Some (fun _ _ c pos => ret (c, pos + c)))
    (Some (fun _ _ c pos => ret (c, pos + c))) None None None None.

#[local] Instance full_code : FsCode bump := {|
  superops := superops (FsCode := bare_code);
  inodeops := inodeops (FsCode := bare_code);
  dentryops := dentryops (FsCode := bare_code);
  fileops _ := full_ops;
  mount_fn := mount_fn (FsCode := bare_code);
  kill_sb_fn := kill_sb_fn (FsCode := bare_code);
  kmem_cache_init_fn := kmem_cache_init_fn (FsCode := bare_code);
  residue := residue (FsCode := bare_code)
|}.

Definition a_file : file := File NULL 8192 1 NULL 0 2 0 1.
Definition an_inode : inode := Inode 5 S_IFREG 0 0 10 0 0 0 0 1 0 NULL NULL 1 NULL 0 1 1.
Definition open_file : vfs bump :=
  set_v_files {[ 4096 := a_file ]} (set_v_inodes {[ 8192 := an_inode ]} (bare_vfs [])).


Lemma file_put_leaks_witness :
  wp False (file_put 4096)
    (fun _ s' => v_files s' = <[4096 := set_f_refcnt (2 ^ 32 - 1) a_file]> (v_files open_file) /\
       v_links s' = v_links open_file /\ v_dentries s' = v_dentries open_file /\
       v_env s' = v_env open_file /\ locks 2 ∅ s') open_file.
Proof. apply (file_put_leaks 2 4096 a_file open_file); [exact (bare_locks [])|done|reflexivity|reflexivity]. Defined.
