(* ===== verification/FdTable.v ===== *)
(** File descriptor tables, [src/fs/fd_table.c]. *)

From S2P Require Import Prelude ListHead Sync Alloc Hashtable Machine Vfs InodeCache DentryCache OpenFile.

Definition NR_OPEN_DEFAULT : Z := 32.
Definition NR_OPEN_MAX : Z := 1024.

Definition set_fds x (t : fd_table) : fd_table := FdTable x (max_fds t) (open_fds t).
Definition set_max_fds x (t : fd_table) : fd_table := FdTable (fds t) x (open_fds t).
Definition set_open_fds x (t : fd_table) : fd_table := FdTable (fds t) (max_fds t) x.

Section fd_table.
Context {A : Type} `{KAlloc A} `{FsCode A}.

(** Reads and writes of [fdt->fds[i]]. *)
Definition get_fd (a i : Z) : ST (vfs A) Z :=
  load (fun s => l ← v_arrays s !! a; if i <? 0 then None else l !! Z.to_nat i).
Definition set_fd (a i x : Z) : ST (vfs A) unit :=
  store (fun s => l ← v_arrays s !! a;
    if decide (0 <= i < Z.of_nat (length l))
    then Some (set_v_arrays (<[a := <[Z.to_nat i := x]> l]> (v_arrays s)) s) else None).

(** [fdt->fds[i]], the pointer read each time. *)
Definition get_slot (fdt i : Z) : ST (vfs A) Z := let! t := get_fdt fdt in get_fd (fds t) i.
Definition set_slot (fdt i x : Z) : ST (vfs A) unit := let! t := get_fdt fdt in set_fd (fds t) i x.

(** [kmalloc] of an array of [n] pointers, all of which the callers overwrite
    before they read one. *)
Definition alloc_array (n : Z) : ST (vfs A) Z :=
  let! a := on_env (ka_alloc (8 * n)) in
  if a =? NULL then ret NULL else
  do! put v_arrays set_v_arrays a (replicate (Z.to_nat n) NULL) in
  ret a.
Definition free_array (a : Z) : ST (vfs A) unit :=
  do! on_env (ka_free a) in remove_obj v_arrays set_v_arrays a.

Definition fd_table_init : ST (vfs A) unit := ret tt.

Definition fd_table_alloc : ST (vfs A) Z :=
  let! fdt := on_env (ka_alloc sizeof_fd_table) in
  if fdt =? NULL then ret NULL else
  let! a := alloc_array NR_OPEN_DEFAULT in
  if a =? NULL then do! on_env (ka_free fdt) in ret NULL else
  do! for_up (Z.to_nat NR_OPEN_DEFAULT) 0 (fun i => set_fd a i NULL) in
  do! put v_fdts set_v_fdts fdt (FdTable a NR_OPEN_DEFAULT 0) in
  do! lock_init (fdt_lock fdt) in
  ret fdt.

Definition fd_table_free (fdt : Z) : ST (vfs A) unit :=
  if fdt =? NULL then ret tt else
  do! acquire (fdt_lock fdt) in
  let! t := get_fdt fdt in
  do! for_up (Z.to_nat (max_fds t)) 0 (fun i =>
        let! p := get_slot fdt i in
        if p =? NULL then ret tt else do! file_put p in set_slot fdt i NULL) in
  let! t := get_fdt fdt in
  do! free_array (fds t) in
  do! release (fdt_lock fdt) in
  do! on_env (ka_free fdt) in
  remove_obj v_fdts set_v_fdts fdt.

Definition fd_table_dup (fdt : Z) : ST (vfs A) Z :=
  if fdt =? NULL then ret NULL else
  let! new_fdt := fd_table_alloc in
  if new_fdt =? NULL then ret NULL else
  do! acquire (fdt_lock fdt) in
  do! acquire (fdt_lock new_fdt) in
  let! t := get_fdt fdt in
  let! t' := get_fdt new_fdt in
  do! for_up (Z.to_nat (Z.min (max_fds t) (max_fds t'))) 0 (fun i =>
        let! p := get_slot fdt i in
        if p =? NULL then ret tt else
        do! file_get p in
        do! set_slot new_fdt i p in
        upd_fdt new_fdt (fun t => set_open_fds (u32 (open_fds t + 1)) t)) in
  do! release (fdt_lock new_fdt) in
  do! release (fdt_lock fdt) in
  ret new_fdt.

(** The first empty entry from [i] on, [n] entries to go. *)
Fixpoint find_free (n : nat) (a i : Z) : ST (vfs A) (option Z) :=
  match n with
  | O => ret None
  | S n => let! p := get_fd a i in if p =? NULL then ret (Some i) else find_free n a (i + 1)
  end.

Definition fd_alloc (fdt : Z) : ST (vfs A) Z :=
  if fdt =? NULL then ret (- EINVAL) else
  do! acquire (fdt_lock fdt) in
  let! t := get_fdt fdt in
  let! f := find_free (Z.to_nat (max_fds t)) (fds t) 0 in
  let! fd := (match f with
    | Some i => do! upd_fdt fdt (fun t => set_open_fds (u32 (open_fds t + 1)) t) in ret (s32 i)
    | None =>
        if max_fds t <? NR_OPEN_MAX then
          let new_max := if NR_OPEN_MAX <? u32 (max_fds t * 2) then NR_OPEN_MAX else u32 (max_fds t * 2) in
          let! new_fds := alloc_array new_max in
          if new_fds =? NULL then ret (- EMFILE) else
          do! for_up (Z.to_nat (max_fds t)) 0 (fun i =>
                let! p := get_fd (fds t) i in set_fd new_fds i p) in
          do! for_up (Z.to_nat (new_max - max_fds t)) (max_fds t) (fun i => set_fd new_fds i NULL) in
          do! free_array (fds t) in
          do! upd_fdt fdt (set_fds new_fds) in
          do! upd_fdt fdt (set_max_fds new_max) in
          do! upd_fdt fdt (fun t => set_open_fds (u32 (open_fds t + 1)) t) in
          ret (Z.quot (s32 new_max) 2)
        else ret (- EMFILE)
    end) in
  do! release (fdt_lock fdt) in
  ret fd.

Definition fd_free (fdt fd : Z) : ST (vfs A) unit :=
  if (fdt =? NULL) || (fd <? 0) then ret tt else
  let! t := get_fdt fdt in
  if max_fds t <=? fd then ret tt else
  do! acquire (fdt_lock fdt) in
  let! p := get_slot fdt fd in
  do! (if p =? NULL then ret tt else
       do! file_put p in
       do! set_slot fdt fd NULL in
       upd_fdt fdt (fun t => set_open_fds (u32 (open_fds t - 1)) t)) in
  release (fdt_lock fdt).

Definition fd_get (fdt fd : Z) : ST (vfs A) Z :=
  if (fdt =? NULL) || (fd <? 0) then ret NULL else
  let! t := get_fdt fdt in
  if max_fds t <=? fd then ret NULL else
  do! acquire (fdt_lock fdt) in
  let! p := get_slot fdt fd in
  do! (if p =? NULL then ret tt else file_get p) in
  do! release (fdt_lock fdt) in
  ret p.

Definition fd_install (fdt fd file : Z) : ST (vfs A) Z :=
  if (fdt =? NULL) || (file =? NULL) || (fd <? 0) then ret (- EINVAL) else
  let! t := get_fdt fdt in
  if max_fds t <=? fd then ret (- EINVAL) else
  do! acquire (fdt_lock fdt) in
  let! p := get_slot fdt fd in
  if negb (p =? NULL) then do! release (fdt_lock fdt) in ret (- EBADF) else
  do! set_slot fdt fd file in
  do! upd_fdt fdt (fun t => set_open_fds (u32 (open_fds t + 1)) t) in
  do! release (fdt_lock fdt) in
  ret 0.

End fd_table.
