(* ===== verification/FdProof.v ===== *)
(** A descriptor table refines a list of slots that doubles when it is full. *)

From S2P Require Import Prelude ListHead Sync Alloc Hashtable Machine Vfs VfsProof InodeCache DentryCache OpenFile FdTable.

(** ** The abstract table: the slots, and the open files with their counts *)

Inductive fd_op := FdAlloc | FdInstall (fd p : Z) | FdGet (fd : Z) | FdFree (fd : Z).

Definition slot (l : list Z) (fd : Z) : option Z := if fd <? 0 then None else l !! Z.to_nat fd.
Definition set_slots (l : list Z) (fd p : Z) : list Z := <[Z.to_nat fd := p]> l.

(** The index of the first empty slot. *)
Fixpoint first_free (l : list Z) : option nat :=
  match l with
  | [] => None
  | p :: l => if p =? NULL then Some O else S <$> first_free l
  end.

Definition retain (V : gmap Z file) (p : Z) : gmap Z file :=
  alter (fun f => set_f_refcnt (u32 (f_refcnt f + 1)) f) p V.
(** The count after [file_put]; see [file_put_leaks]. *)
Definition release_ref (V : gmap Z file) (p : Z) : gmap Z file :=
  alter (fun f => set_f_refcnt (if f_refcnt f =? 1 then 2 ^ 32 - 1 else u32 (f_refcnt f - 1)) f) p V.

Abbreviation fd_abs := (list Z * gmap Z file)%type.

Inductive fd_step : fd_abs -> fd_op -> Z -> fd_abs -> Prop :=
  | fd_step_alloc l V i : first_free l = Some i -> fd_step (l, V) FdAlloc (Z.of_nat i) (l, V)
  | fd_step_grow l V :
      first_free l = None -> Z.of_nat (length l) < NR_OPEN_MAX ->
      fd_step (l, V) FdAlloc (Z.of_nat (length l)) (l ++ replicate (length l) NULL, V)
  | fd_step_full l V : first_free l = None -> fd_step (l, V) FdAlloc (- EMFILE) (l, V)
  | fd_step_install l V fd p :
      p <> NULL -> slot l fd = Some NULL -> fd_step (l, V) (FdInstall fd p) 0 (set_slots l fd p, V)
  | fd_step_busy l V fd p q :
      p <> NULL -> slot l fd = Some q -> q <> NULL -> fd_step (l, V) (FdInstall fd p) (- EBADF) (l, V)
  | fd_step_invalid l V fd p :
      p = NULL \/ slot l fd = None -> fd_step (l, V) (FdInstall fd p) (- EINVAL) (l, V)
  | fd_step_get l V fd p :
      slot l fd = Some p -> p <> NULL -> fd_step (l, V) (FdGet fd) p (l, retain V p)
  | fd_step_get_none l V fd : default NULL (slot l fd) = NULL -> fd_step (l, V) (FdGet fd) NULL (l, V)
  | fd_step_free l V fd p :
      slot l fd = Some p -> p <> NULL ->
      fd_step (l, V) (FdFree fd) 0 (set_slots l fd NULL, release_ref V p)
  | fd_step_free_none l V fd : default NULL (slot l fd) = NULL -> fd_step (l, V) (FdFree fd) 0 (l, V).

Inductive fd_steps : fd_abs -> list fd_op -> list Z -> fd_abs -> Prop :=
  | fd_steps_nil a : fd_steps a [] [] a
  | fd_steps_cons a o r a1 l rs a2 : fd_step a o r a1 -> fd_steps a1 l rs a2 -> fd_steps a (o :: l) (r :: rs) a2.

Section fd.
Context {A : Type} `{KAlloc A} `{FsCode A} {own : A -> gset Z -> Prop} {HOk : KAllocOk A own}.
Implicit Types s : vfs A.

Definition run_fd_op (fdt : Z) (o : fd_op) : ST (vfs A) Z :=
  match o with
  | FdAlloc => fd_alloc fdt
  | FdInstall fd p => fd_install fdt fd p
  | FdGet fd => fd_get fdt fd
  | FdFree fd => do! fd_free fdt fd in ret 0
  end.

Fixpoint run_fd_ops (fdt : Z) (l : list fd_op) : ST (vfs A) (list Z) :=
  match l with
  | [] => ret []
  | o :: l => let! r := run_fd_op fdt o in let! rs := run_fd_ops fdt l in ret (r :: rs)
  end.

(** ** References to files, taken inside the table's critical section *)

Record files_only s s' : Prop := {
  fo_cpu : v_cpu s' = v_cpu s;
  fo_fdts : v_fdts s' = v_fdts s;
  fo_arrays : v_arrays s' = v_arrays s;
  fo_env : v_env s' = v_env s
}.

Lemma file_get_spec st held p f s :
  locks st held s -> few held -> f_lock p ∉ held -> p <> NULL -> v_files s !! p = Some f ->
  wp False (file_get p)
    (fun _ s' => v_files s' = retain (v_files s) p /\ locks st held s' /\ files_only s s') s.
Proof.
  intros Hl Hf Hn Hp Hfile. unfold file_get. destruct (Z.eqb_spec p NULL) as [|_]; [done|].
  apply wp_bind. eapply wp_acquire; [exact Hl|exact Hn|exact Hf|]. intros h Hh.
  apply wp_bind. eapply wp_upd; [same_state s|]. eapply wp_release; [same_state s|exact Hn|exact Hf|].
  intros h' Hh'. split; [|split; [same_state s|by destruct s]].
  unfold retain. destruct s; cbn in *. symmetry. apply map_eq. intros q. rewrite lookup_insert.
  destruct (decide (p = q)) as [<-|]; [by rewrite lookup_alter_eq, Hfile|by rewrite lookup_alter_ne].
Qed.

Lemma file_put_spec st held p f s :
  locks st held s -> few held -> f_lock p ∉ held -> p <> NULL -> v_files s !! p = Some f ->
  in_width 32 (f_refcnt f) ->
  wp False (file_put p)
    (fun _ s' => v_files s' = release_ref (v_files s) p /\ locks st held s' /\ files_only s s') s.
Proof.
  intros Hl Hf Hn Hp Hfile Hc. unfold file_put. destruct (Z.eqb_spec p NULL) as [|_]; [done|].
  assert (forall (m : gmap Z file) x, m !! p = Some f -> x = (if f_refcnt f =? 1 then 2 ^ 32 - 1 else u32 (f_refcnt f - 1)) ->
    <[p := set_f_refcnt x f]> m = release_ref m p) as Hrel.
  { intros m x Hm ->. unfold release_ref. apply map_eq. intros q. rewrite lookup_insert.
    destruct (decide (p = q)) as [<-|]; [by rewrite lookup_alter_eq, Hm|by rewrite lookup_alter_ne]. }
  assert (u32 (f_refcnt f - 1) = 0 <-> f_refcnt f = 1) as Hu.
  { unfold in_width in Hc. split; [|by intros ->]. intros E. destruct (decide (f_refcnt f = 0)) as [E0|]; [by rewrite E0 in E|].
    rewrite wrap_small in E; [lia|unfold in_width; lia]. }
  apply wp_bind. eapply wp_acquire; [exact Hl|exact Hn|exact Hf|]. intros h Hh.
  apply wp_bind. eapply wp_upd; [same_state s|].
  apply wp_bind. eapply wp_obj; [destruct s; cbn; apply lookup_insert_eq|].
  assert (forall x, f_refcnt (set_f_refcnt x f) = x) as Hx by (intros; by destruct f). rewrite Hx.
  destruct (Z.eqb_spec (u32 (f_refcnt f - 1)) 0) as [E|Hne].
  - apply wp_bind. eapply wp_release; [same_state s|exact Hn|exact Hf|]. intros h1 Hh1.
    apply wp_bind. unfold file_close. destruct (Z.eqb_spec p NULL) as [|_]; [done|].
    apply wp_bind. eapply wp_acquire; [same_state s|exact Hn|exact Hf|]. intros h2 Hh2.
    apply wp_bind. eapply wp_upd; [destruct s; cbn; apply lookup_insert_eq|]. rewrite Hx, E. apply Hu in E.
    change (u32 (0 - 1)) with (2 ^ 32 - 1).
    apply wp_bind. eapply wp_obj; [destruct s; cbn; apply lookup_insert_eq|].
    assert (f_refcnt (set_f_refcnt (2 ^ 32 - 1) (set_f_refcnt 0 f)) = 2 ^ 32 - 1) as -> by by destruct f.
    destruct (Z.eqb_spec (2 ^ 32 - 1) 0) as [|_]; [done|].
    apply wp_bind. eapply wp_release; [same_state s|exact Hn|exact Hf|]. intros h3 Hh3. apply wp_ret, wp_ret.
    split; [|split; [same_state s|by destruct s]]. destruct s; cbn in *. rewrite insert_insert_eq.
    assert (set_f_refcnt (2 ^ 32 - 1) (set_f_refcnt 0 f) = set_f_refcnt (2 ^ 32 - 1) f) as -> by by destruct f.
    apply Hrel; [done|]. destruct (Z.eqb_spec (f_refcnt f) 1); [done|lia].
  - eapply wp_release; [same_state s|exact Hn|exact Hf|]. intros h1 Hh1.
    split; [|split; [same_state s|by destruct s]]. destruct s; cbn in *.
    apply Hrel; [done|]. destruct (Z.eqb_spec (f_refcnt f) 1) as [E|]; [by apply Hu in E|done].
Qed.

(** ** The table *)

Record fdt_rep (F : gset Z) st (fdt : Z) (a : fd_abs) (s : vfs A) : Prop := {
  fr_locks : locks st ∅ s;
  fr_table : exists t, v_fdts s !! fdt = Some t /\ v_arrays s !! fds t = Some a.1 /\
    max_fds t = Z.of_nat (length a.1) /\ framed own F (v_env s) {[ fds t ]};
  fr_nonnull : fdt <> NULL;
  fr_size : exists k, (k <= 5)%nat /\ length a.1 = (32 * 2 ^ k)%nat;
  fr_files : v_files s = a.2;
  fr_apart p : is_Some (a.2 !! p) -> f_lock p <> fdt_lock fdt;
  fr_live p : p ∈ a.1 -> p <> NULL -> is_Some (a.2 !! p);
  fr_width p f : a.2 !! p = Some f -> in_width 32 (f_refcnt f)
}.

Lemma first_free_spec l :
  match first_free l with
  | Some i => l !! i = Some NULL /\ forall j, (j < i)%nat -> exists p, l !! j = Some p /\ p <> NULL
  | None => forall p, p ∈ l -> p <> NULL
  end.
Proof.
  induction l as [|p l IH]; cbn; [by intros p Hp%not_elem_of_nil|].
  destruct (Z.eqb_spec p NULL) as [->|Hp]; [split; [done|]; lia|].
  destruct (first_free l) as [i|]; cbn.
  - destruct IH as [Hi Hj]. split; [done|]. intros [|j] Hlt; [by exists p|]. apply Hj. lia.
  - intros q [->|Hq]%elem_of_cons; [done|by apply IH].
Qed.

Lemma get_fd_run a i l p s : v_arrays s !! a = Some l -> l !! i = Some p ->
  get_fd a (Z.of_nat i) s = Ok (p, s).
Proof.
  intros Ha Hi. unfold get_fd, load. rewrite Ha. cbn. destruct (Z.ltb_spec (Z.of_nat i) 0); [lia|].
  by rewrite Nat2Z.id, Hi.
Qed.

Lemma find_free_spec a l s : forall n i,
  v_arrays s !! a = Some l -> (i + n = length l)%nat ->
  find_free n a (Z.of_nat i) s = Ok ((fun j => Z.of_nat (i + j)) <$> first_free (drop i l), s).
Proof.
  induction n as [|n IH]; intros i Ha Hn; cbn [find_free].
  - by rewrite skipn_all2 by lia.
  - destruct (lookup_lt_is_Some_2 l i ltac:(lia)) as [p Hp].
    rewrite (bind_Ok _ _ _ _ _ (get_fd_run a i l p s Ha Hp)), (drop_S l p i Hp). cbn [first_free].
    destruct (p =? NULL); [cbn [fmap option_fmap option_map]; by rewrite Nat.add_0_r|].
    replace (Z.of_nat i + 1) with (Z.of_nat (S i)) by lia. rewrite IH by (done || lia).
    destruct (first_free (drop (S i) l)); cbn; [|done]. do 4 f_equal. lia.
Qed.

Lemma slot_range l fd : is_Some (slot l fd) <-> 0 <= fd < Z.of_nat (length l).
Proof.
  unfold slot. destruct (Z.ltb_spec fd 0); [split; [by intros []|lia]|]. rewrite lookup_lt_is_Some. lia.
Qed.

Lemma elem_of_slot l fd p : slot l fd = Some p -> p ∈ l.
Proof. unfold slot. destruct (fd <? 0); [done|]. apply list_elem_of_lookup_2. Qed.

Lemma elem_of_set_slots l fd p x : x ∈ set_slots l fd p -> x = p \/ x ∈ l.
Proof.
  unfold set_slots. rewrite list_elem_of_lookup. intros [i Hi].
  destruct (decide (i = Z.to_nat fd)) as [->|Hne].
  - apply list_lookup_insert_Some in Hi as [(_ & -> & _)|[? _]]; [by left|done].
  - rewrite list_lookup_insert_ne in Hi by done. right. by eapply list_elem_of_lookup_2.
Qed.

(** A descriptor outside the table, as the operations test it. *)
Lemma slot_test l fd : (fd <? 0) || (Z.of_nat (length l) <=? fd) = true <-> slot l fd = None.
Proof.
  rewrite orb_true_iff, Z.ltb_lt, Z.leb_le. pose proof (slot_range l fd) as Hr. destruct (slot l fd).
  - split; [|done]. assert (0 <= fd < Z.of_nat (length l)) by (apply Hr; by eexists). lia.
  - split; [done|]. intros _. destruct (decide (0 <= fd < Z.of_nat (length l))) as [Hin|]; [|lia].
    apply Hr in Hin as [? ?]. done.
Qed.

Lemma wp_slot {B} (k : Z -> ST (vfs A) B) (Q : B -> vfs A -> Prop) fdt fd p l t s :
  v_fdts s !! fdt = Some t -> v_arrays s !! fds t = Some l -> slot l fd = Some p ->
  wp False (k p) Q s -> wp False (let! p := get_slot fdt fd in k p) Q s.
Proof.
  intros Ht Ha Hp Hk. unfold slot in Hp. destruct (Z.ltb_spec fd 0) as [|Hfd]; [done|].
  apply wp_bind. unfold get_slot. apply wp_bind. eapply wp_obj; [exact Ht|].
  eapply wp_run; [|exact Hk]. unfold get_fd, load. rewrite Ha. cbn.
  destruct (Z.ltb_spec fd 0); [lia|]. by rewrite Hp.
Qed.

Lemma wp_set_slot {B} (k : ST (vfs A) B) (Q : B -> vfs A -> Prop) fdt fd x l t s :
  v_fdts s !! fdt = Some t -> v_arrays s !! fds t = Some l -> is_Some (slot l fd) ->
  wp False k Q (set_v_arrays (<[fds t := set_slots l fd x]> (v_arrays s)) s) ->
  wp False (do! set_slot fdt fd x in k) Q s.
Proof.
  intros Ht Ha Hp%slot_range Hk. apply wp_bind. unfold set_slot. apply wp_bind. eapply wp_obj; [exact Ht|].
  eapply wp_store; [|exact Hk]. rewrite Ha. cbn. by rewrite decide_True.
Qed.

Lemma fdt_rep_change F st fdt a a' t t' s s' :
  fdt_rep F st fdt a s -> v_fdts s !! fdt = Some t -> locks st ∅ s' ->
  v_fdts s' !! fdt = Some t' -> fds t' = fds t -> max_fds t' = max_fds t ->
  v_arrays s' !! fds t = Some a'.1 -> length a'.1 = length a.1 -> v_env s' = v_env s ->
  v_files s' = a'.2 -> (forall p, is_Some (a'.2 !! p) <-> is_Some (a.2 !! p)) ->
  (forall p, p ∈ a'.1 -> p <> NULL -> is_Some (a.2 !! p)) ->
  (forall p f, a'.2 !! p = Some f -> in_width 32 (f_refcnt f)) ->
  fdt_rep F st fdt a' s'.
Proof.
  intros [R1 (t0 & T1 & T2 & T3 & T4) R3 R4 R5 R6 R7 R8] Ht Hl Ht' Ef Em Ha Hlen Ee Ev Hd Hlive Hw.
  rewrite Ht in T1. injection T1 as <-. split; try done.
  - exists t'. rewrite Ef, Em, Ee, Hlen. done.
  - by rewrite Hlen.
  - intros p Hp. by apply R6, Hd.
  - intros p Hp Hne. by apply Hd, Hlive.
Qed.

Lemma retain_facts (V : gmap Z file) p :
  (forall q, is_Some (retain V p !! q) <-> is_Some (V !! q)) /\
  ((forall q f, V !! q = Some f -> in_width 32 (f_refcnt f)) ->
   forall q f, retain V p !! q = Some f -> in_width 32 (f_refcnt f)).
Proof.
  unfold retain. split.
  - intros q. rewrite lookup_alter. case_decide; [subst q|done]. by rewrite fmap_is_Some.
  - intros Hw q f Hq. apply lookup_alter_Some in Hq as [(-> & g & Hg & ->)|[_ Hq]]; [|by apply (Hw q)].
    assert (f_refcnt (set_f_refcnt (u32 (f_refcnt g + 1)) g) = u32 (f_refcnt g + 1)) as -> by by destruct g.
    by apply wrap_range.
Qed.

Lemma release_facts (V : gmap Z file) p :
  (forall q, is_Some (release_ref V p !! q) <-> is_Some (V !! q)) /\
  ((forall q f, V !! q = Some f -> in_width 32 (f_refcnt f)) ->
   forall q f, release_ref V p !! q = Some f -> in_width 32 (f_refcnt f)).
Proof.
  unfold release_ref. split.
  - intros q. rewrite lookup_alter. case_decide; [subst q|done]. by rewrite fmap_is_Some.
  - intros Hw q f Hq. apply lookup_alter_Some in Hq as [(-> & g & Hg & ->)|[_ Hq]]; [|by apply (Hw q)].
    assert (forall x, f_refcnt (set_f_refcnt x g) = x) as -> by (intros; by destruct g).
    destruct (_ =? 1); [done|by apply wrap_range].
Qed.

Lemma fd_get_spec F st fdt l V fd s :
  fdt_rep F st fdt (l, V) s ->
  wp False (fd_get fdt fd)
    (fun r s' => exists a', fd_step (l, V) (FdGet fd) r a' /\ fdt_rep F st fdt a' s') s.
Proof.
  intros R. pose proof R as [R1 (t & T1 & T2 & T3 & T4) R3 R4 R5 R6 R7 R8]. cbn [fst snd] in *.
  unfold fd_get. destruct (Z.eqb_spec fdt NULL) as [|_]; [done|]. cbn [orb].
  pose proof (slot_test l fd) as Htest. destruct (fd <? 0).
  { apply wp_ret. eexists. split; [|exact R]. apply fd_step_get_none. by rewrite (proj1 Htest eq_refl). }
  cbn [orb] in Htest. apply wp_bind. eapply wp_obj; [exact T1|]. rewrite T3. destruct (_ <=? fd).
  { apply wp_ret. eexists. split; [|exact R]. apply fd_step_get_none. by rewrite (proj1 Htest eq_refl). }
  destruct (slot l fd) as [p|] eqn:Hp; [|by discriminate (proj2 Htest eq_refl)]. clear Htest.
  eapply wp_enter; [exact R1|]. intros h Hh. eapply (wp_slot _ _ _ _ p l t); [same_state s..|].
  destruct (Z.eqb_spec p NULL) as [->|Hne].
  - apply wp_bind, wp_ret. eapply wp_leave; [same_state s|]. intros h' Hh'. apply wp_ret.
    exists (l, V). split; [apply fd_step_get_none; by rewrite Hp|].
    eapply (fdt_rep_change F st fdt (l, V) _ t t s); [exact R|exact T1|same_state s..|done|done].
  - destruct (R7 p (elem_of_slot _ _ _ Hp) Hne) as [f Hf].
    eapply wp_bind_mono.
    { apply (file_get_spec st {[fdt_lock fdt]} p f); [same_state s|apply few_single|
        rewrite elem_of_singleton; apply R6; by eexists|done|]. destruct s; cbn in *; by subst. }
    intros [] s1 (Ef & Hl1 & [Ec Et Ea Ee]). cbv beta.
    eapply wp_leave; [exact Hl1|]. intros h' Hh'. apply wp_ret. exists (l, retain V p).
    split; [by apply fd_step_get|]. destruct (retain_facts V p) as [Fd Fw].
    eapply (fdt_rep_change F st fdt (l, V) _ t t s); [exact R|exact T1|same_states s s1..|exact Fd|done|by apply Fw].
Qed.

Lemma fd_install_spec F st fdt l V fd p s :
  fdt_rep F st fdt (l, V) s -> (p <> NULL -> is_Some (V !! p)) ->
  wp False (fd_install fdt fd p)
    (fun r s' => exists a', fd_step (l, V) (FdInstall fd p) r a' /\ fdt_rep F st fdt a' s') s.
Proof.
  intros R Hlive. pose proof R as [R1 (t & T1 & T2 & T3 & T4) R3 R4 R5 R6 R7 R8]. cbn [fst snd] in *.
  unfold fd_install. destruct (Z.eqb_spec fdt NULL) as [|_]; [done|]. cbn [orb].
  destruct (Z.eqb_spec p NULL) as [->|Hp0]; cbn [orb].
  { apply wp_ret. eexists. split; [|exact R]. apply fd_step_invalid. by left. }
  pose proof (slot_test l fd) as Htest. destruct (fd <? 0).
  { apply wp_ret. eexists. split; [|exact R]. apply fd_step_invalid. right. by apply Htest. }
  cbn [orb] in Htest. apply wp_bind. eapply wp_obj; [exact T1|]. rewrite T3. destruct (_ <=? fd).
  { apply wp_ret. eexists. split; [|exact R]. apply fd_step_invalid. right. by apply Htest. }
  destruct (slot l fd) as [q|] eqn:Hq; [|by discriminate (proj2 Htest eq_refl)]. clear Htest.
  eapply wp_enter; [exact R1|]. intros h Hh. eapply (wp_slot _ _ _ _ q l t); [same_state s..|].
  destruct (Z.eqb_spec q NULL) as [->|Hne]; cbn [negb].
  - eapply (wp_set_slot _ _ _ _ _ l t); [same_state s..|by rewrite Hq|].
    apply wp_bind. eapply wp_upd; [same_state s|]. eapply wp_leave; [same_state s|]. intros h' Hh'. apply wp_ret.
    exists (set_slots l fd p, V). split; [by apply fd_step_install|].
    eapply (fdt_rep_change F st fdt (l, V) _ t (set_open_fds (u32 (open_fds t + 1)) t) s);
      [exact R|exact T1|same_state s| |done|done| |cbn; unfold set_slots; by rewrite length_insert|same_state s..|done| |done].
    + destruct s; cbn. apply lookup_insert_eq.
    + destruct s; cbn. apply lookup_insert_eq.
    + intros x Hx Hx0. apply elem_of_set_slots in Hx as [->|Hx]; [by apply Hlive|by apply R7].
  - eapply wp_leave; [same_state s|]. intros h' Hh'. apply wp_ret.
    exists (l, V). split; [by eapply fd_step_busy|].
    eapply (fdt_rep_change F st fdt (l, V) _ t t s); [exact R|exact T1|same_state s..|done|done].
Qed.

Lemma fd_free_spec F st fdt l V fd s :
  fdt_rep F st fdt (l, V) s ->
  wp False (fd_free fdt fd)
    (fun _ s' => exists a', fd_step (l, V) (FdFree fd) 0 a' /\ fdt_rep F st fdt a' s') s.
Proof.
  intros R. pose proof R as [R1 (t & T1 & T2 & T3 & T4) R3 R4 R5 R6 R7 R8]. cbn [fst snd] in *.
  unfold fd_free. destruct (Z.eqb_spec fdt NULL) as [|_]; [done|]. cbn [orb].
  pose proof (slot_test l fd) as Htest. destruct (fd <? 0).
  { apply wp_ret. eexists. split; [|exact R]. apply fd_step_free_none. by rewrite (proj1 Htest eq_refl). }
  cbn [orb] in Htest. apply wp_bind. eapply wp_obj; [exact T1|]. rewrite T3. destruct (_ <=? fd).
  { apply wp_ret. eexists. split; [|exact R]. apply fd_step_free_none. by rewrite (proj1 Htest eq_refl). }
  destruct (slot l fd) as [p|] eqn:Hp; [|by discriminate (proj2 Htest eq_refl)]. clear Htest.
  eapply wp_enter; [exact R1|]. intros h Hh. eapply (wp_slot _ _ _ _ p l t); [same_state s..|].
  destruct (Z.eqb_spec p NULL) as [->|Hne].
  - apply wp_bind, wp_ret. eapply wp_exit; [same_state s|]. intros h' Hh'.
    exists (l, V). split; [apply fd_step_free_none; by rewrite Hp|].
    eapply (fdt_rep_change F st fdt (l, V) _ t t s); [exact R|exact T1|same_state s..|done|done].
  - destruct (R7 p (elem_of_slot _ _ _ Hp) Hne) as [f Hf]. apply wp_bind.
    eapply wp_bind_mono.
    { apply (file_put_spec st {[fdt_lock fdt]} p f); [same_state s|apply few_single|
        rewrite elem_of_singleton; apply R6; by eexists|done| |by apply (R8 p)]. destruct s; cbn in *; by subst. }
    intros [] s1 (Ef & Hl1 & [Ec Et Ea Ee]). cbv beta.
    assert (v_fdts s1 !! fdt = Some t /\ v_arrays s1 !! fds t = Some l) as [T1' T2'] by (split; same_states s s1).
    eapply (wp_set_slot _ _ _ _ _ l t); [exact T1'|exact T2'|by rewrite Hp|].
    eapply wp_upd; [same_state s1|]. eapply wp_exit; [same_state s1|]. intros h' Hh'.
    exists (set_slots l fd NULL, release_ref V p). split; [by apply fd_step_free|].
    destruct (release_facts V p) as [Fd Fw].
    eapply (fdt_rep_change F st fdt (l, V) _ t (set_open_fds (u32 (open_fds t - 1)) t) s);
      [exact R|exact T1|same_states s s1| |done|done| |cbn; unfold set_slots; by rewrite length_insert
      |same_states s s1..|exact Fd| |by apply Fw].
    + destruct s1; cbn. apply lookup_insert_eq.
    + destruct s1; cbn. apply lookup_insert_eq.
    + intros x Hx Hx0. apply elem_of_set_slots in Hx as [->|Hx]; [done|by apply R7].
Qed.

(** ** Growing the table *)

(** [get_fd]/[set_fd] on an array [a] with content [l]. *)
Lemma wp_set_fd a i x l (Q : unit -> vfs A -> Prop) s :
  v_arrays s !! a = Some l -> 0 <= i < Z.of_nat (length l) ->
  Q tt (set_v_arrays (<[a := set_slots l i x]> (v_arrays s)) s) -> wp False (set_fd a i x) Q s.
Proof. intros Ha Hi HQ. eapply wp_store; [|exact HQ]. rewrite Ha. cbn. by rewrite decide_True. Qed.

(** The first loop: the old slots are copied to a new array of [n] slots. *)
Lemma copy_slots a b l n s :
  a <> b -> v_arrays s !! a = Some l -> v_arrays s !! b = Some (replicate n NULL) -> (length l <= n)%nat ->
  wp False (for_up (length l) 0 (fun i => let! p := get_fd a i in set_fd b i p))
    (fun _ s' => s' = set_v_arrays (<[b := l ++ replicate (n - length l) NULL]> (v_arrays s)) s) s.
Proof.
  intros Hab Ha Hb Hn.
  eapply wp_mono; [apply (wp_for_up False (fun i s' => 0 <= i <= Z.of_nat (length l) /\
    s' = set_v_arrays (<[b := take (Z.to_nat i) l ++ replicate (n - Z.to_nat i) NULL]> (v_arrays s)) s))|done|].
  - intros i s' Hi [_ ->]. set (k := Z.to_nat i). assert (k < length l)%nat as Hk by lia.
    destruct (lookup_lt_is_Some_2 l k Hk) as [p Hp]. replace i with (Z.of_nat k) by lia.
    apply wp_bind. eapply wp_run; [apply (get_fd_run a k l p); [destruct s; cbn in *; by rewrite lookup_insert_ne|done]|].
    eapply wp_set_fd; [destruct s; cbn; apply lookup_insert_eq| |].
    + rewrite length_app, length_take, length_replicate. lia.
    + split; [lia|]. destruct s; cbn in *. f_equal. rewrite insert_insert_eq. f_equal. unfold set_slots.
      rewrite Nat2Z.id. replace (Z.to_nat (Z.of_nat k + 1)) with (S k) by lia.
      rewrite (take_S_r l k p Hp). replace (n - k)%nat with (S (n - S k)) by lia. cbn [replicate].
      rewrite insert_app_r_alt by (rewrite length_take; lia). rewrite length_take_le by lia.
      rewrite Nat.sub_diag. cbn. by rewrite <- app_assoc.
  - split; [lia|]. cbn. rewrite Nat.sub_0_r. destruct s; cbn in *. by rewrite insert_id.
  - intros [] s' [_ ->]. by rewrite Z.add_0_l, Nat2Z.id, firstn_all.
Qed.

(** The second loop writes null over null. *)
Lemma clear_slots b l k n s :
  v_arrays s !! b = Some (l ++ replicate n NULL) -> k = length l ->
  wp False (for_up n (Z.of_nat k) (fun i => set_fd b i NULL)) (fun _ s' => s' = s) s.
Proof.
  intros Hb ->. eapply wp_mono; [apply (wp_for_up False (fun i s' => s' = s))|done|by intros [] s' ->].
  - intros i s' Hi ->. eapply wp_set_fd; [exact Hb|rewrite length_app, length_replicate; lia|].
    destruct s; cbn in *. f_equal. apply insert_id. rewrite Hb. f_equal. unfold set_slots. symmetry.
    apply list_insert_id. rewrite lookup_app_r by lia. apply lookup_replicate. split; [done|lia].
  - done.
Qed.

(** The same table with another array and environment. *)
Lemma fdt_rep_move F st fdt l l' V t t' s s' k :
  fdt_rep F st fdt (l, V) s -> v_fdts s !! fdt = Some t -> locks st ∅ s' ->
  v_fdts s' !! fdt = Some t' -> v_arrays s' !! fds t' = Some l' -> max_fds t' = Z.of_nat (length l') ->
  framed own F (v_env s') {[ fds t' ]} -> v_files s' = v_files s ->
  (k <= 5)%nat -> length l' = (32 * 2 ^ k)%nat -> (forall p, p ∈ l' -> p <> NULL -> p ∈ l) ->
  fdt_rep F st fdt (l', V) s'.
Proof.
  intros [R1 _ R3 _ R5 R6 R7 R8] Ht Hl Ht' Ha Hm He Ef Hk Hlen Hin. split; try done.
  - by exists t'.
  - by exists k.
  - by rewrite Ef.
  - intros p Hp Hne. exact (R7 p (Hin p Hp Hne) Hne).
Qed.

(** Everything [fd_alloc] does when no slot is free. *)
Definition grow (fdt : Z) (t : fd_table) : ST (vfs A) Z :=
  if max_fds t <? NR_OPEN_MAX then
    let new_max := if NR_OPEN_MAX <? u32 (max_fds t * 2) then NR_OPEN_MAX else u32 (max_fds t * 2) in
    let! new_fds := alloc_array new_max in
    if new_fds =? NULL then ret (- EMFILE) else
    do! for_up (Z.to_nat (max_fds t)) 0 (fun i => let! p := get_fd (fds t) i in set_fd new_fds i p) in
    do! for_up (Z.to_nat (new_max - max_fds t)) (max_fds t) (fun i => set_fd new_fds i NULL) in
    do! free_array (fds t) in
    do! upd_fdt fdt (set_fds new_fds) in
    do! upd_fdt fdt (set_max_fds new_max) in
    do! upd_fdt fdt (fun t => set_open_fds (u32 (open_fds t + 1)) t) in
    ret (Z.quot (s32 new_max) 2)
  else ret (- EMFILE).

Lemma new_max_spec k (n : nat) :
  (k <= 5)%nat -> n = (32 * 2 ^ k)%nat -> Z.of_nat n < NR_OPEN_MAX ->
  (k <= 4)%nat /\
  (if NR_OPEN_MAX <? u32 (Z.of_nat n * 2) then NR_OPEN_MAX else u32 (Z.of_nat n * 2)) = Z.of_nat (n + n) /\
  Z.quot (s32 (Z.of_nat (n + n))) 2 = Z.of_nat n.
Proof.
  intros Hk -> Hn. do 6 (destruct k as [|k]; [first [split_and!; [lia|reflexivity|reflexivity]|vm_compute in Hn; discriminate]|]). lia.
Qed.

(** Inside the critical section: [s] is the state on entry, [s1] the state now. *)
Lemma fd_grow_spec F st fdt l V t h s :
  fdt_rep F st fdt (l, V) s -> v_fdts s !! fdt = Some t -> v_arrays s !! fds t = Some l ->
  max_fds t = Z.of_nat (length l) -> framed own F (v_env s) {[ fds t ]} -> first_free l = None ->
  hart_ok (v_cpu s) st {[fdt_lock fdt]} h ->
  wp False (grow fdt t)
    (fun r s1 => locks st {[fdt_lock fdt]} s1 /\ exists a', fd_step (l, V) FdAlloc r a' /\
       forall h', hart_ok (v_cpu s1) st ∅ h' -> fdt_rep F st fdt a' (set_v_hart h' s1)) (set_v_hart h s).
Proof.
  intros R T1 T2 T3 T4 Hfree Hh. destruct (fr_size _ _ _ _ _ R) as (k & Hk & Hlen). cbn [fst snd] in *.
  unfold grow. rewrite T3. destruct (Z.ltb_spec (Z.of_nat (length l)) NR_OPEN_MAX) as [Hlt|Hge].
  2: { apply wp_ret. split; [same_state s|]. exists (l, V). split; [by apply fd_step_full|]. intros h' Hh'.
       apply (fdt_rep_move F st fdt l l V t t s _ k); try done; same_state s. }
  destruct (new_max_spec k (length l) Hk Hlen Hlt) as (Hk4 & -> & ->). cbv zeta.
  apply wp_bind. unfold alloc_array. apply wp_bind, wp_lift.
  eapply (wp_ka_alloc (own := framed own F)); [destruct s; exact T4|..].
  - intros a Ha. apply wp_ret. cbn [Z.eqb NULL]. apply wp_ret. split; [same_state s|].
    exists (l, V). split; [by apply fd_step_full|]. intros h' Hh'.
    apply (fdt_rep_move F st fdt l l V t t s _ k); try done; same_state s.
  - intros b a Hb Hnb Ha. destruct (Z.eqb_spec b NULL) as [|_]; [unfold NULL in *; lia|].
    apply wp_bind, wp_modify, wp_ret. rewrite !Nat2Z.id. destruct (Z.eqb_spec b NULL) as [|_]; [unfold NULL in *; lia|].
    set (s1 := set_v_arrays _ _).
    assert (fds t <> b) as Hne by (clear -Hnb; set_solver).
    assert (v_arrays s1 !! b = Some (replicate (length l + length l) NULL) /\ v_arrays s1 !! fds t = Some l) as [E1 E2].
    { subst s1. destruct s; cbn in *. by rewrite lookup_insert_eq, lookup_insert_ne. }
    assert (locks st {[fdt_lock fdt]} s1 /\ v_fdts s1 = v_fdts s /\ v_env s1 = a /\ v_files s1 = v_files s) as (L1 & L2 & L3 & L4)
      by (subst s1; destruct s; done).
    clearbody s1. eapply wp_bind_mono; [apply (copy_slots (fds t) b l); [done|exact E2|exact E1|lia]|].
    intros [] s2 ->. replace (length l + length l - length l)%nat with (length l) by lia.
    replace (Z.to_nat (Z.of_nat (length l + length l) - Z.of_nat (length l))) with (length l) by lia.
    eapply wp_bind_mono; [apply (clear_slots b l (length l)); [destruct s1; cbn; apply lookup_insert_eq|done]|].
    intros [] s2 ->. apply wp_bind. unfold free_array. apply wp_bind, wp_lift.
    eapply (wp_ka_free (own := framed own F) _ ({[b]} ∪ {[fds t]})); [destruct s1; cbn in *; by subst|set_solver|]. intros a2 Ha2.
    replace (({[b]} ∪ {[fds t]}) ∖ {[fds t]}) with ({[b]} : gset Z) in Ha2 by (clear -Hne; set_solver).
    apply wp_modify.
    apply wp_bind. eapply wp_upd; [destruct s1; cbn in *; by subst|].
    apply wp_bind. eapply wp_upd; [destruct s1; cbn; apply lookup_insert_eq|].
    apply wp_bind. eapply wp_upd; [destruct s1; cbn; apply lookup_insert_eq|].
    apply wp_ret. split; [same_state s1|]. exists (l ++ replicate (length l) NULL, V).
    split; [by apply fd_step_grow|]. intros h' Hh'.
    eapply (fdt_rep_move F st fdt l _ V t (FdTable b (Z.of_nat (length l + length l)) (u32 (open_fds t + 1))) s _ (S k));
      [exact R|exact T1|same_state s1|destruct s1; cbn; apply lookup_insert_eq| | |same_state s1|by destruct s1|lia| |].
    + destruct s1; cbn. by rewrite lookup_delete_ne, lookup_insert_eq.
    + cbn. by rewrite length_app, length_replicate.
    + rewrite length_app, length_replicate, Hlen. cbn. lia.
    + intros p [Hp|[-> _]%elem_of_replicate]%elem_of_app Hne'; [done|done].
Qed.

Lemma fd_alloc_spec F st fdt l V s :
  fdt_rep F st fdt (l, V) s ->
  wp False (fd_alloc fdt)
    (fun r s' => exists a', fd_step (l, V) FdAlloc r a' /\ fdt_rep F st fdt a' s') s.
Proof.
  intros R. pose proof R as [R1 (t & T1 & T2 & T3 & T4) R3 R4 R5 R6 R7 R8]. cbn [fst snd] in *.
  unfold fd_alloc. destruct (Z.eqb_spec fdt NULL) as [|_]; [done|].
  eapply wp_enter; [exact R1|]. intros h Hh. apply wp_bind. eapply wp_obj; [same_state s|].
  apply wp_bind. eapply wp_run.
  { rewrite T3, Nat2Z.id. apply (find_free_spec (fds t) l _ (length l) 0); [same_state s|lia]. }
  rewrite drop_0. destruct (first_free l) as [i|] eqn:Hfree; cbn [fmap option_fmap option_map].
  - apply wp_bind. apply wp_bind. eapply wp_upd; [same_state s|]. apply wp_ret.
    eapply wp_leave; [same_state s|]. intros h' Hh'. apply wp_ret. exists (l, V).
    assert (i < length l)%nat as Hi.
    { pose proof (first_free_spec l) as Hs. rewrite Hfree in Hs. destruct Hs as [Hs _]. by eapply lookup_lt_Some. }
    assert (s32 (Z.of_nat (0 + i)) = Z.of_nat i) as ->.
    { apply swrap_small; [lia|]. destruct R4 as (k & Hk & Hlen).
      assert (2 ^ k <= 2 ^ 5)%nat by (apply Nat.pow_le_mono_r; lia). change (2 ^ 5)%nat with 32%nat in *.
      change (2 ^ (32 - 1)) with 2147483648. lia. }
    split; [by apply fd_step_alloc|].
    eapply (fdt_rep_change F st fdt (l, V) _ t (set_open_fds (u32 (open_fds t + 1)) t) s);
      [exact R|exact T1|same_state s| |done|done|same_state s..|done|done].
    destruct s; cbn. apply lookup_insert_eq.
  - apply wp_bind. eapply wp_mono; [by apply (fd_grow_spec F st fdt l V t h s)|done|].
    intros r s1 (Hl1 & a' & Hstep & Hrep). eapply wp_leave; [exact Hl1|]. intros h' Hh'. apply wp_ret.
    exists a'. split; [done|by apply Hrep].
Qed.

Definition op_live (V : gmap Z file) (o : fd_op) : Prop :=
  match o with FdInstall _ p => p <> NULL -> is_Some (V !! p) | _ => True end.

Lemma fd_step_dom a o r a' : fd_step a o r a' -> forall p, is_Some (a'.2 !! p) <-> is_Some (a.2 !! p).
Proof.
  intros Hs p. destruct Hs; cbn; try done; [apply (proj1 (retain_facts V _))|apply (proj1 (release_facts V _))].
Qed.

Lemma fd_op_spec F st fdt a o s :
  fdt_rep F st fdt a s -> op_live a.2 o ->
  wp False (run_fd_op fdt o) (fun r s' => exists a', fd_step a o r a' /\ fdt_rep F st fdt a' s') s.
Proof.
  destruct a as [l V]. intros R Ho. destruct o as [|fd p|fd|fd]; cbn [run_fd_op op_live snd] in *.
  - by apply fd_alloc_spec.
  - by apply fd_install_spec.
  - by apply fd_get_spec.
  - eapply wp_bind_mono; [by apply fd_free_spec|]. intros [] s' Hs'. by apply wp_ret.
Qed.

Lemma fd_ops_spec F st fdt ops : forall a s,
  fdt_rep F st fdt a s -> Forall (op_live a.2) ops ->
  wp False (run_fd_ops fdt ops) (fun rs s' => exists a', fd_steps a ops rs a' /\ fdt_rep F st fdt a' s') s.
Proof.
  induction ops as [|o ops IH]; intros a s R Hops; cbn [run_fd_ops].
  - apply wp_ret. exists a. split; [constructor|done].
  - apply Forall_cons in Hops as [Ho Hops]. eapply wp_bind_mono; [by apply fd_op_spec|].
    intros r s1 (a1 & H1 & R1). eapply wp_bind_mono; [apply (IH a1); [done|]|].
    { eapply Forall_impl; [exact Hops|]. intros [] Hlive; cbn in *; try done.
      intros Hp. by apply (fd_step_dom _ _ _ _ H1), Hlive. }
    intros rs s2 (a2 & H2 & R2). apply wp_ret. exists a2. split; [by econstructor|done].
Qed.

(** [C25] A descriptor table refines a list of slots: in any sequence of
    operations, [fd_alloc] returns the first empty slot, or doubles a full table
    up to 1024 slots and returns the first new one, or [-EMFILE] when the table
    is at its limit or memory is short; [fd_install] fills exactly an empty slot
    inside the table; [fd_get] takes a reference to the file it returns, and
    [fd_free] empties the slot and gives its reference up; the table's lock is
    free afterwards and its array is the only memory it holds. *)
Theorem fd_table_refines F st fdt a ops s :
  fdt_rep F st fdt a s -> Forall (op_live a.2) ops ->
  wp False (run_fd_ops fdt ops) (fun rs s' => exists a', fd_steps a ops rs a' /\ fdt_rep F st fdt a' s') s.
Proof. exact (fd_ops_spec F st fdt ops a s). Qed.

(** A slot is taken only by [fd_install]: two allocations in a row return the
    same descriptor. *)
Lemma fd_alloc_twice F st fdt l V i s :
  fdt_rep F st fdt (l, V) s -> first_free l = Some i ->
  wp False (run_fd_ops fdt [FdAlloc; FdAlloc]) (fun rs _ => rs = [Z.of_nat i; Z.of_nat i]) s.
Proof.
  intros R Hi. eapply wp_mono; [apply (fd_ops_spec F st fdt _ (l, V)); [exact R|by repeat constructor]|done|].
  assert (forall r a1, fd_step (l, V) FdAlloc r a1 -> r = Z.of_nat i /\ a1 = (l, V)) as Hone.
  { intros r a1 Hs. inversion Hs; subst; split; congruence. }
  intros rs s' (a' & Hs & _). inversion Hs as [|? ? r1 a1 ? rs1 ? S1 Ss1]; subst.
  apply Hone in S1 as [-> ->]. inversion Ss1 as [|? ? r2 a2 ? rs2 ? S2 Ss2]; subst.
  apply Hone in S2 as [-> ->]. by inversion Ss2.
Qed.

End fd.

#[local] Existing Instance bare_code.

Definition one_file : file := File NULL NULL NULL NULL 0 0 0 1.

(** A table of 32 empty slots and one open file. *)
Definition small_table : vfs bump :=
  set_v_files {[ 16384 := one_file ]}
    (set_v_arrays {[ 8192 := replicate 32 NULL ]}
      (set_v_fdts {[ 4096 := FdTable 8192 32 0 ]}
        (set_v_env (Bump 12288 4 {[ 8192 ]}) (bare_vfs [])))).

Lemma fd_table_refines_witness :
  let ops := [FdAlloc; FdInstall 0 16384; FdAlloc; FdGet 0; FdFree 0; FdInstall 40 16384] in
  wp False (run_fd_ops 4096 ops)
    (fun rs s' => exists a', fd_steps (replicate 32 NULL, {[ 16384 := one_file ]}) ops rs a' /\
       fdt_rep (own := bump_own) ∅ 2 4096 a' s') small_table.
Proof.
  intros ops.
  apply (fd_table_refines (own := bump_own) ∅ 2 4096 (replicate 32 NULL, {[ 16384 := one_file ]}) ops small_table).
  - split; cbn [fst snd].
    + exact (bare_locks []).
    + exists (FdTable 8192 32 0). split; [reflexivity|]. split; [reflexivity|]. split; [reflexivity|].
      split; [apply disjoint_empty_r|]. rewrite union_empty_r_L. split; [reflexivity|]. split; [reflexivity|].
      by intros x ->%elem_of_singleton.
    + done.
    + exists 0%nat. split; [lia|reflexivity].
    + reflexivity.
    + intros p [f [<- _]%lookup_singleton_Some]. done.
    + intros p [-> _]%elem_of_replicate Hne. done.
    + intros p f [_ <-]%lookup_singleton_Some. done.
  - repeat apply List.Forall_cons; try exact I; try (intros _; eexists; reflexivity). apply List.Forall_nil.
Defined.
