(* ===== verification/Namei.v ===== *)
(** The mount table and path resolution: [vfs_lookup_mount] and the root mount
    of [src/fs/vfs.c], and [src/fs/namei.c].

    A path is a list of bytes without NUL; a pointer into it is a suffix of the
    list, and [*path == 0] is the empty suffix.  [tracef] is not modelled. *)

From S2P Require Import Prelude ListHead Sync Alloc Hashtable Machine Vfs InodeCache DentryCache.

Definition LAST_NORM : Z := 0.
Definition LAST_DOT : Z := 2.
Definition LAST_DOTDOT : Z := 3.

Definition slash : Z := 47.
Definition dot : cstr := [46].
Definition dotdot : cstr := [46; 46].

(** [vfs_get_name]: the bytes up to the next slash, [n] at most. *)
Fixpoint take_name (n : nat) (path : cstr) : cstr :=
  match n, path with
  | S n, c :: path => if c =? slash then [] else c :: take_name n path
  | _, _ => []
  end.
Definition vfs_get_name (path : cstr) : cstr * Z :=
  let name := take_name (Z.to_nat NAME_MAX) path in (name, slen name).

Fixpoint vfs_skip_slashes (path : cstr) : cstr :=
  match path with
  | c :: p => if c =? slash then vfs_skip_slashes p else path
  | [] => []
  end.

(** [path += len; path = vfs_skip_slashes(path)]. *)
Definition advance (path : cstr) (len : Z) : cstr := vfs_skip_slashes (skipn (Z.to_nat len) path).

Record nameidata := NameiData {
  nd_dentry : Z; nd_inode : Z; nd_flags : Z; last_type : Z; nd_last : qstr; depth : Z
}.

Section namei.
Context {A : Type} `{KAlloc A} `{FsCode A}.

Definition vfs_get_root : ST (vfs A) Z :=
  do! acquire vfs_lock in
  let! r := gets v_root_mount in
  let! root := (if r =? NULL then ret NULL else let! m := get_mount r in ret (mnt_root m)) in
  do! release vfs_lock in
  ret root.

Definition vfs_get_root_mount : ST (vfs A) Z :=
  do! acquire vfs_lock in
  let! r := gets v_root_mount in
  do! release vfs_lock in
  ret r.

(** The mount point of the mount at node [pos] names the same entry. *)
Definition mounted_on (mountpoint : Z) (pos : Z) : ST (vfs A) bool :=
  let! m := get_mount (pos - 48) in
  if mnt_mountpoint m =? NULL then ret false else
  let! mp := get_dentry (mnt_mountpoint m) in
  let! d := get_dentry mountpoint in
  ret ((d_parent mp =? d_parent d) && (q_len (d_name mp) =? q_len (d_name d))
       && str_eq (q_name (d_name mp)) (q_name (d_name d))).

Definition vfs_lookup_mount (mountpoint : Z) : ST (vfs A) Z :=
  if mountpoint =? NULL then ret NULL else
  do! acquire vfs_lock in
  let! f := find_entry (mounted_on mountpoint) vfs_mount_list in
  do! release vfs_lock in
  ret (match f with Some pos => pos - 48 | None => NULL end).

Definition follow_mount (dentry : Z) : ST (vfs A) Z :=
  let! mnt := vfs_lookup_mount dentry in
  if mnt =? NULL then ret dentry else
  do! dentry_put dentry in
  let! m := get_mount mnt in
  do! dentry_get (mnt_root m) in
  let! m := get_mount mnt in
  ret (mnt_root m).

Definition vfs_lookup_single (base : Z) (name : cstr) (len : Z) : ST (vfs A) Z :=
  if (base =? NULL) || (len =? 0) then ret (PTR (- EINVAL)) else
  let! mnt := vfs_lookup_mount base in
  let! base := (if mnt =? NULL then ret base else
                let! m := get_mount mnt in
                ret (if mnt_root m =? NULL then base else mnt_root m)) in
  let! b := get_dentry base in
  if d_inode b =? NULL then ret (PTR (- ENOTDIR)) else
  let! n := get_inode (d_inode b) in
  if negb (S_ISDIR (i_mode n)) then ret (PTR (- ENOTDIR)) else
  match entry (i_op n) inodeops lookup_op with
  | None => ret (PTR (- ENOSYS))
  | Some lookup =>
      let qstr := QStr NULL name len (hash_string (firstn (Z.to_nat len) name)) in
      let! dentry := dentry_lookup (d_sb b) base qstr in
      if negb (dentry =? NULL) then ret dentry else
      let! dentry := dentry_alloc base (d_sb b) name in
      if IS_ERR dentry then ret dentry else
      let! result := lookup (d_inode b) dentry in
      if IS_ERR result then do! dentry_free dentry in ret result else
      do! (if negb (result =? dentry) then dentry_free dentry else ret tt) in
      do! dentry_insert result in
      ret result
  end.

(** What follows a component in [vfs_path_walk]: the end of the path, or a
    directory to continue in, or an error. *)
Definition step_into (dentry : Z) (name : cstr) (len : Z) : ST (vfs A) (Z * (Z + Z)) :=
  if str_eq name dot then ret (LAST_DOT, inr dentry) else
  if str_eq name dotdot then
    let! d := get_dentry dentry in
    ret (LAST_DOTDOT, inr (if negb (d_parent d =? NULL) && negb (d_parent d =? dentry)
                           then d_parent d else dentry))
  else
    let! next := vfs_lookup_single dentry name len in
    if IS_ERR next then ret (LAST_NORM, inl (PTR_ERR next)) else
    let! next := follow_mount next in
    do! dentry_put dentry in
    ret (LAST_NORM, inr next).

(** The loop; it returns the error, or the entry and the last name, and the type
    of the last component.  Every iteration consumes at least one byte of the path. *)
Fixpoint walk_loop (fuel : nat) (dentry : Z) (path : cstr) : ST (vfs A) (Z * (Z + (Z * cstr))) :=
  match fuel with
  | O => no_fuel
  | S fuel =>
      let '(name, len) := vfs_get_name path in
      let! '(ty, r) := step_into dentry name len in
      match r with
      | inl err => ret (ty, inl err)
      | inr dentry =>
          let path := advance path len in
          match path with
          | [] => ret (ty, inr (dentry, name))
          | _ =>
              let! d := get_dentry dentry in
              let! dir := (if d_inode d =? NULL then ret false
                           else let! n := get_inode (d_inode d) in ret (S_ISDIR (i_mode n))) in
              if negb dir then do! dentry_put dentry in ret (ty, inl (- ENOTDIR))
              else walk_loop fuel dentry path
          end
      end
  end.

Definition vfs_path_walk (nd : nameidata) (path : cstr) : ST (vfs A) (Z * nameidata) :=
  let dentry := nd_dentry nd in
  if dentry =? NULL then ret (- ENOENT, nd) else
  match vfs_skip_slashes path with
  | [] =>
      let! d := get_dentry dentry in
      ret (0, NameiData dentry (d_inode d) (nd_flags nd) (last_type nd) (nd_last nd) (depth nd))
  | p =>
      let! '(ty, r) := walk_loop (S (length p)) dentry p in
      match r with
      | inl err => ret (err, NameiData dentry (nd_inode nd) (nd_flags nd) ty (nd_last nd) (depth nd))
      | inr (dentry, name) =>
          let! d := get_dentry dentry in
          ret (0, NameiData dentry (d_inode d) (nd_flags nd) ty (qstr_init NULL name) (depth nd))
      end
  end.

Definition vfs_path_lookup (base : Z) (path : cstr) (flags : Z) : ST (vfs A) Z :=
  let! base := (if base =? NULL then vfs_get_root else ret base) in
  if base =? NULL then ret (PTR (- ENOENT)) else
  do! dentry_get base in
  let! b := get_dentry base in
  let nd := NameiData base (d_inode b) flags LAST_NORM (qstr_init NULL []) 0 in
  let! '(r, nd) := vfs_path_walk nd path in
  if r <? 0 then do! dentry_put base in ret (PTR r) else
  ret (nd_dentry nd).

Definition vfs_lookup_one_len (base : Z) (name : cstr) (len : Z) : ST (vfs A) Z :=
  if (base =? NULL) || (len =? 0) then ret (PTR (- EINVAL)) else
  vfs_lookup_single base name len.

(** The loop of [vfs_path_parent]: the parent entry and the last component,
    or an error. *)
Fixpoint parent_loop (fuel : nat) (base current : Z) (p : cstr) : ST (vfs A) (Z + (Z * cstr)) :=
  match fuel with
  | O => no_fuel
  | S fuel =>
      let '(name, len) := vfs_get_name p in
      match advance p len with
      | [] => ret (inr (current, p))
      | p' =>
          let! next := vfs_lookup_single current name len in
          if IS_ERR next then do! dentry_put base in ret (inl (PTR_ERR next)) else
          let! next := follow_mount next in
          do! (if current =? base then ret tt else dentry_put current) in
          parent_loop fuel base next p'
      end
  end.

(** The error, or the parent's entry and inode and the last name. *)
Definition vfs_path_parent (base : Z) (path : cstr) : ST (vfs A) (Z + (Z * Z * qstr)) :=
  let! base := (if base =? NULL then vfs_get_root else ret base) in
  if base =? NULL then ret (inl (- ENOENT)) else
  do! dentry_get base in
  let! r := (match vfs_skip_slashes path with
             | [] => ret (inr (base, []))
             | p => parent_loop (S (length p)) base base p
             end) in
  match r with
  | inl err => ret (inl err)
  | inr (current, last_start) =>
      let! c := get_dentry current in
      let '(name, len) := vfs_get_name last_start in
      let! name_copy := on_env (ka_alloc (len + 1)) in
      if name_copy =? NULL then do! dentry_put base in ret (inl (- ENOMEM)) else
      ret (inr (current, d_inode c, qstr_init name_copy name))
  end.

End namei.
