(* ===== verification/NameiProof.v ===== *)
(** Path resolution is recursion over the components of the path. *)

From S2P Require Import Prelude ListHead Sync Alloc Hashtable Machine Vfs VfsProof InodeCache DentryCache Namei.

(** ** Components: split at the slashes, without the empty pieces *)

Fixpoint split (p : cstr) : list cstr :=
  match p with
  | [] => [[]]
  | c :: p =>
      if c =? slash then [] :: split p
      else match split p with [] => [[c]] | w :: ws => (c :: w) :: ws end
  end.

Definition components (p : cstr) : list cstr := filter (fun w => w <> []) (split p).

(** No component exceeds [NAME_MAX]. *)
Definition short (p : cstr) : Prop := Forall (fun w => slen w <= NAME_MAX) (split p).

Lemma split_cons p : exists w ws, split p = w :: ws.
Proof. induction p as [|c p (w & ws & IH)]; cbn; [eauto|]. rewrite IH. destruct (c =? slash); eauto. Qed.

Lemma components_slash p : components (slash :: p) = components p.
Proof. done. Qed.

Lemma components_skip p : components (vfs_skip_slashes p) = components p.
Proof.
  induction p as [|c p IH]; [done|]. cbn [vfs_skip_slashes]. destruct (Z.eqb_spec c slash) as [->|]; [|done].
  by rewrite IH.
Qed.

Lemma short_skip p : short p -> short (vfs_skip_slashes p).
Proof.
  induction p as [|c p IH]; [done|]. cbn [vfs_skip_slashes]. destruct (Z.eqb_spec c slash) as [->|]; [|done].
  intros Hs. apply IH. unfold short in *. cbn in Hs. by apply Forall_cons in Hs as [_ Hs].
Qed.

Lemma skip_head p : match vfs_skip_slashes p with [] => True | c :: _ => c <> slash end.
Proof.
  induction p as [|c p IH]; [done|]. cbn [vfs_skip_slashes]. by destruct (Z.eqb_spec c slash).
Qed.

(** The first piece of a path and what follows it. *)
Lemma split_first p :
  exists w rest, split p = w :: (match rest with [] => [] | _ :: r => split r end) /\
    p = w ++ rest /\ Forall (fun c => c <> slash) w /\
    match rest with [] => True | c :: _ => c = slash end.
Proof.
  induction p as [|c p (w & rest & E & -> & Hw & Hr)]; [exists [], []; by split_and!|]. cbn [split].
  destruct (Z.eqb_spec c slash) as [->|Hc].
  - exists [], (slash :: w ++ rest). by split_and!.
  - rewrite E. exists (c :: w), rest. split_and!; [done..|by constructor|done].
Qed.

Lemma take_name_spec w rest n :
  Forall (fun c => c <> slash) w -> match rest with [] => True | c :: _ => c = slash end ->
  (length w <= n)%nat -> take_name n (w ++ rest) = w.
Proof.
  intros Hw Hr. revert n. induction Hw as [|c w Hc Hw IH]; intros n Hn; cbn [app].
  - destruct rest as [|c rest], n; cbn; try done. subst c. by rewrite Z.eqb_refl.
  - destruct n as [|n]; [cbn in Hn; lia|]. cbn. destruct (Z.eqb_spec c slash) as [|_]; [done|].
    rewrite IH; [done|]. cbn in Hn. lia.
Qed.

(** One iteration of the loops: the name is the next component, and the rest of
    the path has the remaining ones. *)
Lemma next_component p c p' :
  p = c :: p' -> c <> slash -> short p ->
  exists w, vfs_get_name p = (w, slen w) /\ w <> [] /\
    components p = w :: components (advance p (slen w)) /\ short (advance p (slen w)) /\
    match advance p (slen w) with [] => True | c :: _ => c <> slash end /\
    (length (advance p (slen w)) < length p)%nat /\
    (advance p (slen w) = [] <-> components (advance p (slen w)) = []).
Proof.
  intros Hp Hc Hs. destruct (split_first p) as (w & rest & E & Ep & Hw & Hr).
  assert (w <> []) as Hne.
  { intros ->. destruct rest as [|x rest]; [subst; done|]. cbn in Ep. subst x. congruence. }
  assert (slen w <= NAME_MAX) as Hlen by (unfold short in Hs; rewrite E in Hs; by apply Forall_cons in Hs as [? _]).
  exists w. assert (vfs_get_name p = (w, slen w)) as Hn.
  { unfold vfs_get_name. rewrite Ep, take_name_spec; [done..|]. unfold slen in Hlen. lia. }
  assert (advance p (slen w) = vfs_skip_slashes rest) as Ha.
  { unfold advance, slen. by rewrite Nat2Z.id, Ep, drop_app_length. }
  rewrite Ha. split; [done|]. split; [done|].
  assert (components p = w :: components (vfs_skip_slashes rest)) as Hcomp.
  { unfold components at 1. rewrite E, filter_cons_True by done. f_equal. rewrite components_skip.
    destruct rest as [|x rest]; [done|]. subst x. by rewrite components_slash. }
  split; [done|]. split.
  { unfold short in Hs. rewrite E in Hs. apply Forall_cons in Hs as [_ Hs]. destruct rest as [|x rest]; [repeat constructor; done|].
    subst x. cbn [vfs_skip_slashes]. rewrite Z.eqb_refl. by apply short_skip. }
  split; [apply skip_head|]. split.
  { rewrite Ep, length_app. assert (length (vfs_skip_slashes rest) <= length rest)%nat.
    { clear. induction rest as [|x rest IH]; cbn; [lia|]. destruct (x =? slash); cbn; lia. }
    destruct w; [done|]. cbn. lia. }
  split; [by intros ->|]. pose proof (skip_head rest) as Hh.
  destruct (vfs_skip_slashes rest) as [|x r]; [done|]. intros Hnil. exfalso.
  destruct (split_first (x :: r)) as (w2 & rest2 & E2 & Ep2 & _ & Hr2).
  assert (w2 <> []) as Hne2.
  { intros ->. destruct rest2; [done|]. injection Ep2 as -> ->. subst. done. }
  unfold components in Hnil. rewrite E2, filter_cons_True in Hnil by done. discriminate Hnil.
Qed.

(** ** The reference definitions, by recursion on the list of components *)

Section namei.
Context {A : Type} `{KAlloc A} `{FsCode A}.

Definition is_directory (dentry : Z) : ST (vfs A) bool :=
  let! d := get_dentry dentry in
  if d_inode d =? NULL then ret false else let! n := get_inode (d_inode d) in ret (S_ISDIR (i_mode n)).

(** Step into each component in turn; every one but the last must be a
    directory. *)
Fixpoint walk (dentry : Z) (w : cstr) (ws : list cstr) : ST (vfs A) (Z * (Z + (Z * cstr))) :=
  let! '(ty, r) := step_into dentry w (slen w) in
  match r with
  | inl err => ret (ty, inl err)
  | inr dentry =>
      match ws with
      | [] => ret (ty, inr (dentry, w))
      | w :: ws =>
          let! dir := is_directory dentry in
          if negb dir then do! dentry_put dentry in ret (ty, inl (- ENOTDIR))
          else walk dentry w ws
      end
  end.

Definition resolve (nd : nameidata) (ws : list cstr) : ST (vfs A) (Z * nameidata) :=
  let dentry := nd_dentry nd in
  if dentry =? NULL then ret (- ENOENT, nd) else
  match ws with
  | [] =>
      let! d := get_dentry dentry in
      ret (0, NameiData dentry (d_inode d) (nd_flags nd) (last_type nd) (nd_last nd) (depth nd))
  | w :: ws =>
      let! '(ty, r) := walk dentry w ws in
      match r with
      | inl err => ret (err, NameiData dentry (nd_inode nd) (nd_flags nd) ty (nd_last nd) (depth nd))
      | inr (dentry, name) =>
          let! d := get_dentry dentry in
          ret (0, NameiData dentry (d_inode d) (nd_flags nd) ty (qstr_init NULL name) (depth nd))
      end
  end.

Lemma walk_loop_eq fuel : forall p dentry c p' w ws s,
  p = c :: p' -> c <> slash -> short p -> components p = w :: ws -> (length p < fuel)%nat ->
  walk_loop fuel dentry p s = walk dentry w ws s.
Proof.
  induction fuel as [|fuel IH]; intros p dentry c p' w ws s Hp Hc Hs Hcomp Hf; [lia|].
  destruct (next_component p c p' Hp Hc Hs) as (w0 & Hn & Hne & Ec & Hs' & Hh & Hlt & Hnil).
  rewrite Hcomp in Ec. injection Ec as <- Ews. cbn [walk_loop]. rewrite Hn.
  assert (walk dentry w ws = let! '(ty, r) := step_into dentry w (slen w) in
    match r with
    | inl err => ret (ty, inl err)
    | inr dentry => match ws with
      | [] => ret (ty, inr (dentry, w))
      | w :: ws => let! dir := is_directory dentry in
          if negb dir then do! dentry_put dentry in ret (ty, inl (- ENOTDIR)) else walk dentry w ws
      end
    end) as -> by by destruct ws.
  apply bind_ext. intros [ty [err|d]] s1; [done|].
  destruct (advance p (slen w)) as [|c1 p1] eqn:Ea.
  { rewrite (proj1 Hnil eq_refl) in Ews. by subst ws. }
  destruct ws as [|w1 ws]; [discriminate (proj2 Hnil (eq_sym Ews))|].
  unfold is_directory. rewrite bind_assoc. apply bind_ext. intros dd s2. apply bind_ext. intros dir s3.
  destruct (negb dir); [done|]. apply (IH (c1 :: p1) d c1 p1 w1 ws s3); [done|done|done|done|].
  cbn in Hlt, Hf. cbn. lia.
Qed.

Lemma vfs_path_walk_eq nd path s :
  short path -> vfs_path_walk nd path s = resolve nd (components path) s.
Proof.
  intros Hs. unfold vfs_path_walk, resolve. destruct (nd_dentry nd =? NULL); [done|].
  rewrite <- (components_skip path). pose proof (short_skip path Hs) as Hs'. pose proof (skip_head path) as Hh.
  destruct (vfs_skip_slashes path) as [|c p]; [done|].
  destruct (next_component (c :: p) c p eq_refl Hh Hs') as (w & _ & _ & Ec & _). rewrite Ec.
  unfold bind at 1. unfold bind at 2.
  rewrite (walk_loop_eq _ (c :: p) (nd_dentry nd) c p w _ s eq_refl Hh Hs' Ec) by lia. done.
Qed.

(** The entry in which the last component [last (w :: ws)] is to be found. *)
Fixpoint walk_parent (base current : Z) (w : cstr) (ws : list cstr) : ST (vfs A) (Z + Z) :=
  match ws with
  | [] => ret (inr current)
  | w' :: ws =>
      let! next := vfs_lookup_single current w (slen w) in
      if IS_ERR next then do! dentry_put base in ret (inl (PTR_ERR next)) else
      let! next := follow_mount next in
      do! (if current =? base then ret tt else dentry_put current) in
      walk_parent base next w' ws
  end.

Definition resolve_parent (base : Z) (ws : list cstr) : ST (vfs A) (Z + (Z * Z * qstr)) :=
  let! base := (if base =? NULL then vfs_get_root else ret base) in
  if base =? NULL then ret (inl (- ENOENT)) else
  do! dentry_get base in
  let name := List.last ws [] in
  let! r := (match ws with [] => ret (inr base) | w :: ws => walk_parent base base w ws end) in
  match r with
  | inl err => ret (inl err)
  | inr current =>
      let! c := get_dentry current in
      let! name_copy := on_env (ka_alloc (slen name + 1)) in
      if name_copy =? NULL then do! dentry_put base in ret (inl (- ENOMEM)) else
      ret (inr (current, d_inode c, qstr_init name_copy name))
  end.

Lemma bind_cong {S B C} (m m' : ST S B) (k : B -> ST S C) s : m s = m' s -> bind m k s = bind m' k s.
Proof. unfold bind. by intros ->. Qed.

(** The suffix that [parent_loop] returns starts with the last component. *)
Lemma parent_loop_eq fuel : forall p base c p' w ws,
  p = c :: p' -> c <> slash -> short p -> components p = w :: ws -> (length p < fuel)%nat ->
  exists q, vfs_get_name q = (List.last ws w, slen (List.last ws w)) /\
    forall current s, parent_loop fuel base current p s =
      (let! r := walk_parent base current w ws in
       ret (match r with inl e => inl e | inr c => inr (c, q) end)) s.
Proof.
  induction fuel as [|fuel IH]; intros p base c p' w ws Hp Hc Hs Hcomp Hf; [lia|].
  destruct (next_component p c p' Hp Hc Hs) as (w0 & Hn & Hne & Ec & Hs' & Hh & Hlt & Hnil).
  rewrite Hcomp in Ec. injection Ec as <- Ews. cbn [parent_loop]. rewrite Hn.
  destruct (advance p (slen w)) as [|c1 p1] eqn:Ea.
  { rewrite (proj1 Hnil eq_refl) in Ews. subst ws. exists p. split; [done|]. done. }
  destruct ws as [|w1 ws]; [discriminate (proj2 Hnil (eq_sym Ews))|].
  destruct (IH (c1 :: p1) base c1 p1 w1 ws) as (q & Hq & Heq); [done..|cbn in *; lia|].
  exists q. rewrite last_cons_default. split; [done|].
  intros cur s. cbn [walk_parent]. rewrite bind_assoc. apply bind_ext. intros next s1.
  destruct (IS_ERR next); [by rewrite bind_assoc|].
  rewrite bind_assoc. apply bind_ext. intros next' s2. rewrite bind_assoc. apply bind_ext. intros [] s3.
  apply Heq.
Qed.

Lemma vfs_path_parent_eq base path s :
  short path -> vfs_path_parent base path s = resolve_parent base (components path) s.
Proof.
  intros Hs. unfold vfs_path_parent, resolve_parent. apply bind_ext. clear base s. intros base s.
  destruct (base =? NULL); [done|]. apply bind_ext. intros [] s1.
  rewrite <- (components_skip path). pose proof (short_skip path Hs) as Hs'. pose proof (skip_head path) as Hh.
  destruct (vfs_skip_slashes path) as [|c p]; [done|].
  destruct (next_component (c :: p) c p eq_refl Hh Hs') as (w & _ & _ & Ec & _). rewrite Ec.
  destruct (parent_loop_eq (S (length (c :: p))) (c :: p) base c p w _ eq_refl Hh Hs' Ec ltac:(lia)) as (q & Hq & Heq).
  set (ws := components (advance (c :: p) (slen w))) in *.
  rewrite last_cons_default.
  rewrite (bind_cong _ _ _ _ (Heq base s1)), bind_assoc. apply bind_ext. intros [e|cur] s2; [done|].
  unfold bind at 1, ret at 1. cbv beta iota. by rewrite Hq.
Qed.

(** [C26] Path resolution is recursion over the components of the path, in every
    state and for whatever the file systems do: for a path whose components fit
    in [NAME_MAX], [vfs_path_walk] steps into each component in turn and
    requires a directory in between, and [vfs_path_parent] looks up all
    components but the last, which it copies; repeated, leading and trailing
    slashes do not matter, and the loops end after one iteration for each
    component. *)
Theorem path_resolution_by_components path :
  short path ->
  (forall nd s, vfs_path_walk nd path s = resolve nd (components path) s) /\
  (forall base s, vfs_path_parent base path s = resolve_parent base (components path) s).
Proof. intros Hs. split; intros; [by apply vfs_path_walk_eq|by apply vfs_path_parent_eq]. Qed.

(** A longer component is cut after 255 bytes and resolved as two. *)
Lemma long_name_splits w :
  Forall (fun c => c <> slash) w -> slen w = NAME_MAX ->
  forall c rest, vfs_get_name (w ++ c :: rest) = (w, NAME_MAX) /\
    advance (w ++ c :: rest) NAME_MAX = vfs_skip_slashes (c :: rest).
Proof.
  intros Hw Hlen c rest. unfold slen in Hlen. split.
  - unfold vfs_get_name.
    assert (forall l n, Forall (fun c => c <> slash) l -> n = length l -> take_name n (l ++ c :: rest) = l) as Ht.
    { intros l n Hl. revert n. induction Hl as [|x l Hx Hl IH]; intros n ->; [done|]. cbn.
      destruct (Z.eqb_spec x slash) as [|_]; [done|]. by rewrite IH. }
    rewrite Ht; [unfold slen; by rewrite Hlen|done|lia].
  - unfold advance. by rewrite <- Hlen, Nat2Z.id, drop_app_length.
Qed.

End namei.

#[local] Existing Instance bare_code.

(** The path [/a//b/]. *)
Lemma path_resolution_by_components_witness :
  let path := [47; 97; 47; 47; 98; 47] in
  (forall nd s, vfs_path_walk nd path s = resolve nd [[97]; [98]] s) /\
  (forall base s, vfs_path_parent base path s = resolve_parent base [[97]; [98]] s).
Proof.
  apply (path_resolution_by_components (A := bump) [47; 97; 47; 47; 98; 47]).
  repeat apply List.Forall_cons; try apply List.Forall_nil; discriminate.
Defined.
