(* ===== verification/VfsOps.v ===== *)
(** File system types, mounts and the system-call level of the virtual file
    system, [src/fs/vfs.c]. *)

From S2P Require Import Prelude ListHead Sync Alloc Hashtable Machine Vfs Super InodeCache DentryCache OpenFile Namei.

Definition set_mnt_refcnt x (m : mount) : mount :=
  Mount (mnt_parent m) (mnt_mountpoint m) (mnt_root m) (mnt_sb m) (mnt_flags m) x.

(** [struct statfs], the members that [vfs_statfs] sets to something else than 0. *)
Record statfs_buf := StatFs { f_bsize : Z; f_fsid : Z; f_namelen : Z; f_frsize : Z; f_sflags : Z }.

Section vfs.
Context {A : Type} `{KAlloc A} `{FsCode A}.

Definition vfs_init : ST (vfs A) unit :=
  do! on_links (INIT_LIST_HEAD vfs_fs_list) in
  do! on_links (INIT_LIST_HEAD vfs_mount_list) in
  do! on_links (INIT_LIST_HEAD vfs_super_list) in
  do! lock_init vfs_lock in
  do! modify (set_v_root_mount NULL) in
  do! super_init in
  do! inode_init in
  do! dentry_init in
  file_init.

(** ** File system types *)

Definition has_name (name : cstr) (pos : Z) : ST (vfs A) bool :=
  let! t := get_fstype (pos - 24) in ret (str_eq (fs_name t) name).

Definition register_filesystem (fs : Z) : ST (vfs A) Z :=
  if fs =? NULL then ret (- EINVAL) else
  let! t := get_fstype fs in
  if fs_mount t =? NULL then ret (- EINVAL) else
  do! acquire vfs_lock in
  let! f := find_entry (has_name (fs_name t)) vfs_fs_list in
  match f with
  | Some _ => do! release vfs_lock in ret (- EEXIST)
  | None =>
      do! on_links (INIT_LIST_HEAD (fs_list fs)) in
      do! lock_init (fs_lock fs) in
      do! on_links (list_add (fs_list fs) vfs_fs_list) in
      do! release vfs_lock in
      ret 0
  end.

Definition unregister_filesystem (fs : Z) : ST (vfs A) Z :=
  if fs =? NULL then ret (- EINVAL) else
  do! acquire vfs_lock in
  let! f := find_entry (fun pos => ret (pos - 24 =? fs)) vfs_fs_list in
  match f with
  | None => do! release vfs_lock in ret (- ENOENT)
  | Some _ =>
      do! on_links (list_del (fs_list fs)) in
      do! release vfs_lock in
      ret 0
  end.

Definition get_fs (name : cstr) : ST (vfs A) Z :=
  do! acquire vfs_lock in
  let! f := find_entry (has_name name) vfs_fs_list in
  do! release vfs_lock in
  ret (match f with Some pos => pos - 24 | None => NULL end).

(** ** Mounts *)

Definition vfs_mount (fs_type dev data : Z) : ST (vfs A) Z :=
  if fs_type =? NULL then ret (PTR (- EINVAL)) else
  let! t := get_fstype fs_type in
  if fs_mount t =? NULL then fault else
  let! sb := mount_fn (fs_mount t) fs_type dev data in
  if IS_ERR sb then ret sb else
  do! acquire vfs_lock in
  do! on_links (list_add (s_list sb) vfs_super_list) in
  do! release vfs_lock in
  ret sb.

Definition vfs_umount (sb : Z) : ST (vfs A) Z :=
  if sb =? NULL then ret (- EINVAL) else
  do! acquire vfs_lock in
  do! on_links (list_del (s_list sb)) in
  do! release vfs_lock in
  let! b := get_super sb in
  do! (if s_type b =? NULL then ret tt else
       let! t := get_fstype (s_type b) in
       if fs_kill_sb t =? NULL then ret tt else kill_sb_fn (fs_kill_sb t) sb) in
  ret 0.

(** The memory of a new mount, its fields still to be written. *)
Definition new_mount (mnt : Z) (m : mount) : ST (vfs A) unit :=
  do! new_links [mnt_mounts mnt; mnt_child mnt] in
  do! put v_mounts set_v_mounts mnt m in
  do! on_links (INIT_LIST_HEAD (mnt_mounts mnt)) in
  do! on_links (INIT_LIST_HEAD (mnt_child mnt)) in
  lock_init (mnt_lock mnt).

(** [mnt_refcnt] is not initialised here: it is what [kmalloc] returned. *)
Definition vfs_mount_root (fs_type dev : Z) : ST (vfs A) Z :=
  let! sb := vfs_mount fs_type dev NULL in
  if IS_ERR sb then ret (PTR_ERR sb) else
  let! mnt := on_env (ka_alloc sizeof_mount) in
  if mnt =? NULL then do! vfs_umount sb in ret (- ENOMEM) else
  let! b := get_super sb in
  do! new_mount mnt (Mount NULL (s_root b) (s_root b) sb 0 (residue (mnt + 92))) in
  do! acquire vfs_lock in
  do! modify (set_v_root_mount mnt) in
  do! on_links (list_add (mnt_child mnt) vfs_mount_list) in
  do! release vfs_lock in
  ret 0.

Definition is_dir (inode : Z) : ST (vfs A) bool :=
  if inode =? NULL then ret false else let! n := get_inode inode in ret (S_ISDIR (i_mode n)).

Definition vfs_mount_to (target_path : cstr) (fs_type dev : Z) : ST (vfs A) Z :=
  if fs_type =? NULL then ret (- EINVAL) else
  let! mountpoint := vfs_path_lookup NULL target_path 1 in
  if IS_ERR mountpoint then ret (PTR_ERR mountpoint) else
  let! d := get_dentry mountpoint in
  let! dir := is_dir (d_inode d) in
  if negb dir then do! dentry_put mountpoint in ret (- ENOTDIR) else
  let! sb := vfs_mount fs_type dev NULL in
  if IS_ERR sb then do! dentry_put mountpoint in ret (PTR_ERR sb) else
  let! mnt := on_env (ka_alloc sizeof_mount) in
  if mnt =? NULL then do! vfs_umount sb in do! dentry_put mountpoint in ret (- ENOMEM) else
  let! root_mnt := vfs_get_root_mount in
  if root_mnt =? NULL then
    do! on_env (ka_free mnt) in
    do! vfs_umount sb in
    do! dentry_put mountpoint in
    ret (- ENOENT)
  else
    let! b := get_super sb in
    do! new_mount mnt (Mount root_mnt mountpoint (s_root b) sb 0 1) in
    do! acquire vfs_lock in
    do! on_links (list_add (mnt_mounts mnt) (mnt_mounts root_mnt)) in
    do! on_links (list_add (mnt_child mnt) vfs_mount_list) in
    do! release vfs_lock in
    ret 0.

Definition vfs_mount_get (mnt : Z) : ST (vfs A) unit :=
  if mnt =? NULL then ret tt else
  do! acquire (mnt_lock mnt) in
  do! upd_mount mnt (fun m => set_mnt_refcnt (u32 (mnt_refcnt m + 1)) m) in
  release (mnt_lock mnt).

Definition vfs_mount_put (mnt : Z) : ST (vfs A) unit :=
  if mnt =? NULL then ret tt else
  do! acquire (mnt_lock mnt) in
  do! upd_mount mnt (fun m => set_mnt_refcnt (u32 (mnt_refcnt m - 1)) m) in
  let! m := get_mount mnt in
  if mnt_refcnt m =? 0 then
    do! release (mnt_lock mnt) in
    do! acquire vfs_lock in
    do! on_links (list_del (mnt_child mnt)) in
    do! (if mnt_parent m =? NULL then ret tt else on_links (list_del (mnt_mounts mnt))) in
    do! release vfs_lock in
    do! super_put (mnt_sb m) in
    do! dentry_put (mnt_mountpoint m) in
    do! dentry_put (mnt_root m) in
    do! on_env (ka_free mnt) in
    do! free_links [mnt_mounts mnt; mnt_child mnt] in
    remove_obj v_mounts set_v_mounts mnt
  else release (mnt_lock mnt).

(** ** Opening, creating and removing *)

(** The callback behind the inode of an entry. *)
Definition inode_entry {F} (inode : Z) (member : inode_operations A -> option F) : ST (vfs A) (option F) :=
  let! n := get_inode inode in ret (entry (i_op n) inodeops member).

(** [kfree(last.name); dentry_put(parent.dentry); return err]. *)
Definition bail (last : qstr) (parent err : Z) : ST (vfs A) Z :=
  do! on_env (ka_free (q_at last)) in
  do! dentry_put parent in
  ret err.

(** The creation branch of [vfs_open]; an error is returned as a pointer. *)
Definition open_create (path : cstr) : ST (vfs A) Z :=
  let! r := vfs_path_parent NULL path in
  match r with
  | inl err => ret (PTR err)
  | inr (parent, _, last) =>
      if parent =? NULL then do! on_env (ka_free (q_at last)) in ret (PTR (- ENOENT)) else
      let! p := get_dentry parent in
      if d_inode p =? NULL then bail last parent (PTR (- ENOENT)) else
      let! n := get_inode (d_inode p) in
      if negb (S_ISDIR (i_mode n)) then bail last parent (PTR (- ENOTDIR)) else
      let! f := inode_entry (d_inode p) create_op in
      match f with
      | None => bail last parent (PTR (- ENOSYS))
      | Some create =>
          let! new_dentry := dentry_alloc parent (d_sb p) (q_name last) in
          if IS_ERR new_dentry then bail last parent (PTR (PTR_ERR new_dentry)) else
          let! r := create (d_inode p) new_dentry (Z.lor S_IFREG 0x1A4) in
          if r <? 0 then do! dentry_free new_dentry in bail last parent (PTR r) else
          do! dentry_insert new_dentry in
          bail last parent new_dentry
      end
  end.

Definition vfs_open (path : cstr) (flags : Z) : ST (vfs A) Z :=
  let! dentry := vfs_path_lookup NULL path 1 in
  let! dentry :=
    (if IS_ERR dentry then
       if negb (Z.land flags O_CREAT =? 0) && (PTR_ERR dentry =? - ENOENT) then open_create path
       else ret (PTR (PTR_ERR dentry))
     else ret dentry) in
  if IS_ERR dentry then ret dentry else
  let! file := file_open dentry flags in
  if IS_ERR file then do! dentry_put dentry in ret file else
  ret file.

Definition vfs_close (file : Z) : ST (vfs A) Z := file_close file.
Definition vfs_read (file buf count : Z) : ST (vfs A) Z := file_read file buf count.
Definition vfs_write (file buf count : Z) : ST (vfs A) Z := file_write file buf count.
Definition vfs_lseek (file offset whence : Z) : ST (vfs A) Z := file_lseek file offset whence.

(** The bodies of [vfs_mkdir] and [vfs_create] differ in the callback and in
    the type bits of the mode. *)
Definition make_node (member : inode_operations A -> option (Z -> Z -> Z -> ST (vfs A) Z))
    (type : Z) (path : cstr) (mode : Z) : ST (vfs A) Z :=
  let! r := vfs_path_parent NULL path in
  match r with
  | inl err => ret err
  | inr (parent, _, last) =>
      let! p := get_dentry parent in
      let! dir := is_dir (d_inode p) in
      if negb dir then bail last parent (- ENOTDIR) else
      let! f := inode_entry (d_inode p) member in
      match f with
      | None => bail last parent (- ENOSYS)
      | Some make =>
          let! dentry := dentry_alloc parent (d_sb p) (q_name last) in
          if IS_ERR dentry then bail last parent (PTR_ERR dentry) else
          let! r := make (d_inode p) dentry (Z.lor type (Z.land mode 0x1FF)) in
          if r <? 0 then do! dentry_free dentry in bail last parent r else
          do! dentry_insert dentry in
          do! on_env (ka_free (q_at last)) in
          do! dentry_put dentry in
          do! dentry_put parent in
          ret 0
      end
  end.

Definition vfs_mkdir (path : cstr) (mode : Z) : ST (vfs A) Z := make_node mkdir_op S_IFDIR path mode.
Definition vfs_create (path : cstr) (mode : Z) : ST (vfs A) Z := make_node create_op S_IFREG path mode.

(** The common end of [vfs_rmdir] and [vfs_unlink]. *)
Definition remove_entry (member : inode_operations A -> option (Z -> Z -> ST (vfs A) Z)) (dentry : Z) :
    ST (vfs A) Z :=
  let fail err := (do! dentry_put dentry in ret err) in
  let! d := get_dentry dentry in
  if d_parent d =? NULL then fail (- ENOENT) else
  let! p := get_dentry (d_parent d) in
  if d_inode p =? NULL then fail (- ENOENT) else
  let! f := inode_entry (d_inode p) member in
  match f with
  | None => fail (- ENOSYS)
  | Some remove =>
      let! r := remove (d_inode p) dentry in
      if r <? 0 then fail r else
      do! dentry_delete dentry in
      ret 0
  end.

Definition vfs_rmdir (path : cstr) : ST (vfs A) Z :=
  let! dentry := vfs_path_lookup NULL path 1 in
  if IS_ERR dentry then ret (PTR_ERR dentry) else
  let! d := get_dentry dentry in
  let! dir := is_dir (d_inode d) in
  if negb dir then do! dentry_put dentry in ret (- ENOTDIR) else
  remove_entry rmdir_op dentry.

Definition vfs_unlink (path : cstr) : ST (vfs A) Z :=
  let! dentry := vfs_path_lookup NULL path 1 in
  if IS_ERR dentry then ret (PTR_ERR dentry) else
  let! d := get_dentry dentry in
  if d_inode d =? NULL then do! dentry_put dentry in ret (- ENOENT) else
  let! n := get_inode (d_inode d) in
  if S_ISDIR (i_mode n) then do! dentry_put dentry in ret (- EISDIR) else
  remove_entry unlink_op dentry.

Definition vfs_rename (old_path new_path : cstr) : ST (vfs A) Z :=
  let! old_dentry := vfs_path_lookup NULL old_path 1 in
  if IS_ERR old_dentry then ret (PTR_ERR old_dentry) else
  let! r := vfs_path_parent NULL new_path in
  match r with
  | inl err => do! dentry_put old_dentry in ret err
  | inr (new_parent, _, new_last) =>
      let undo_add err :=
        (do! on_env (ka_free (q_at new_last)) in
         do! dentry_put old_dentry in
         do! dentry_put new_parent in
         ret err) in
      let! p := get_dentry new_parent in
      let! dir := is_dir (d_inode p) in
      if negb dir then undo_add (- ENOTDIR) else
      let! new_dentry := dentry_alloc new_parent (d_sb p) (q_name new_last) in
      if IS_ERR new_dentry then undo_add (PTR_ERR new_dentry) else
      let! o := get_dentry old_dentry in
      let! op := (if d_parent o =? NULL then ret NULL else
                  let! q := get_dentry (d_parent o) in ret (d_inode q)) in
      if op =? NULL then do! dentry_free new_dentry in undo_add (- ENOENT) else
      let! f := inode_entry op rename_op in
      match f with
      | None => do! dentry_free new_dentry in undo_add (- ENOSYS)
      | Some rename =>
          let! r := rename op old_dentry (d_inode p) new_dentry in
          if r <? 0 then do! dentry_free new_dentry in undo_add r else
          do! dentry_insert new_dentry in
          do! dentry_delete old_dentry in
          do! on_env (ka_free (q_at new_last)) in
          do! dentry_put new_dentry in
          do! dentry_put new_parent in
          ret 0
      end
  end.

Definition vfs_getdents (file buf count : Z) : ST (vfs A) Z :=
  if (file =? NULL) || (buf =? NULL) || (count =? 0) then ret (- EINVAL) else
  let! f := get_file file in
  if f_inode f =? NULL then ret (- ENOENT) else
  let! n := get_inode (f_inode f) in
  if negb (S_ISDIR (i_mode n)) then ret (- ENOTDIR) else
  match entry (f_op f) fileops readdir_op with
  | None => ret (- ENOSYS)
  | Some _ => file_getdents file buf count
  end.

(** The result and, on success, what is written to the buffer. *)
Definition vfs_statfs (path : cstr) : ST (vfs A) (Z * option statfs_buf) :=
  let! dentry := vfs_path_lookup NULL path 1 in
  if IS_ERR dentry then ret (PTR_ERR dentry, None) else
  let! d := get_dentry dentry in
  if d_inode d =? NULL then do! dentry_put dentry in ret (- ENOENT, None) else
  let! n := get_inode (d_inode d) in
  let! f := super_entry (i_sb n) statfs in
  match f with
  | None => do! dentry_put dentry in ret (- ENOSYS, None)
  | Some f =>
      let! r := f (i_sb n) in
      let! buf := (if r =? 0 then
                     let! b := get_super (i_sb n) in
                     ret (Some (StatFs (s_blocksize b) (s_dev b) NAME_MAX (s_blocksize b) (s_flags b)))
                   else ret None) in
      do! dentry_put dentry in
      ret (r, buf)
  end.

Definition vfs_sync : ST (vfs A) Z := ret 0.

Definition vfs_fsync (file : Z) : ST (vfs A) Z :=
  if file =? NULL then ret (- EINVAL) else
  let! f := get_file file in
  match entry (f_op f) fileops fsync_op with
  | None => ret 0
  | Some g => g file
  end.

End vfs.
