(* ===== verification/Registry.v ===== *)
(** Registries: intrusive lists of objects with distinct keys, as the file
    system types and the superblocks are kept.  The tables themselves are
    finite maps from keys to objects; this file proves it for both. *)

From S2P Require Import Prelude ListHead ListFamily Sync Alloc Hashtable Machine Vfs VfsProof Super InodeCache DentryCache OpenFile Namei VfsOps.

Section registry.
Context {K : Type} `{Countable K}.
Variables (head off : Z) (keyof : Z -> option K).

Record registry (st : lstore) (m : gmap K Z) : Prop := {
  rg_list : exists l, is_list st head (map (fun p => p + off) l) /\ (forall p, p ∈ l -> is_Some (keyof p)) /\
    forall k p, m !! k = Some p <-> p ∈ l /\ keyof p = Some k;
  rg_alloc p : is_Some (keyof p) -> allocated st (p + off);
  rg_head p : is_Some (keyof p) -> p + off <> head
}.

(** The search for a key, as the loops of the kernel run it. *)
Lemma registry_find (m : gmap K Z) l k :
  (forall k p, m !! k = Some p <-> p ∈ l /\ keyof p = Some k) ->
  List.find (fun pos => bool_decide (keyof (pos - off) = Some k)) (map (fun p => p + off) l)
    = option_map (fun p => p + off) (m !! k).
Proof.
  intros Hm. destruct (List.find _ _) as [x|] eqn:E.
  - apply List.find_some in E as [Hin Hk]. apply bool_decide_eq_true in Hk.
    apply List.in_map_iff in Hin as (p & <- & Hp). apply list_elem_of_In in Hp.
    replace (p + off - off) with p in Hk by lia.
    assert (m !! k = Some p) as -> by (by apply Hm). done.
  - destruct (m !! k) as [p|] eqn:Hk; [|done]. apply Hm in Hk as [Hp Hk].
    pose proof (List.find_none _ _ E (p + off)) as Hf. cbv beta in Hf.
    rewrite bool_decide_eq_false in Hf. exfalso. apply Hf.
    + apply (List.in_map (fun p => p + off)). by apply list_elem_of_In.
    + by replace (p + off - off) with p by lia.
Qed.

Lemma elem_of_shift (l : list Z) p : p + off ∈ map (fun p => p + off) l <-> p ∈ l.
Proof.
  rewrite !list_elem_of_In, List.in_map_iff. split; [|eauto].
  intros (q & Hq & Hin). by replace p with q by lia.
Qed.

Lemma list_del_shift (l : list Z) p :
  AList.list_del (p + off) (map (fun p => p + off) l) = map (fun p => p + off) (AList.list_del p l).
Proof.
  induction l as [|q l IH]; [done|]. cbn. destruct (Z.eqb_spec q p) as [->|Hne]; [by rewrite Z.eqb_refl|].
  destruct (Z.eqb_spec (q + off) (p + off)); [lia|]. by rewrite IH.
Qed.

Lemma shift_NoDup (l : list Z) : NoDup (map (fun p => p + off) l) -> NoDup l.
Proof. intros Hn. by apply (NoDup_fmap_1 (fun p => p + off)). Qed.

Lemma registry_add st m p k :
  registry st m -> keyof p = Some k -> m !! k = None ->
  exists st', list_add (p + off) head st = Ok (tt, st') /\ registry st' (<[k := p]> m).
Proof.
  intros [(l & Hl & Hs0 & Hm) Ha Hh] Hk Hn.
  assert (p ∉ l) as Hp.
  { intros Hp. assert (m !! k = Some p) as E by (by apply Hm). by rewrite Hn in E. }
  destruct (list_add_refines st head (p + off) (map (fun p => p + off) l)) as (st' & Hr & Hl' & Hs).
  - done.
  - rewrite not_elem_of_cons, elem_of_shift. split; [apply Hh; by eexists|done].
  - apply Ha. by eexists.
  - exists st'. split; [done|]. split; [|..|done].
    + exists (p :: l). split; [exact Hl'|]. split.
      { intros q [->|Hq]%elem_of_cons; [by eexists|by apply Hs0]. }
      intros k' p'. rewrite lookup_insert_Some, Hm, elem_of_cons.
      split; [intros [[<- <-]|[Hne [? ?]]]; auto|]. intros [[->|Hp'] Hk'].
      * left. split; [congruence|done].
      * right. split; [|done]. intros ->. assert (m !! k' = Some p') as E by (by apply Hm). by rewrite Hn in E.
    + intros q Hq. eapply same_except_allocated; [exact Hs| |by apply Ha].
      intros x Hx. eapply is_list_allocated; [exact Hl'|]. unfold AList.list_add. set_solver.
Qed.

Lemma registry_del st m p k :
  registry st m -> keyof p = Some k -> m !! k = Some p ->
  exists st', list_del (p + off) st = Ok (tt, st') /\ registry st' (delete k m).
Proof.
  intros [(l & Hl & Hs0 & Hm) Ha Hh] Hk Hp. apply Hm in Hp as Hpl. destruct Hpl as [Hpl _].
  assert (NoDup l) as Hnd by (apply shift_NoDup; destruct Hl as [Hnd _]; by apply NoDup_cons in Hnd as [_ ?]).
  apply elem_of_shift in Hpl as Hx. apply list_elem_of_split in Hx as (ys & zs & E).
  rewrite E in Hl. destruct (list_del_gap st head (p + off) ys zs Hl) as (st' & Hr & Hl' & Hs & _).
  exists st'. split; [done|]. split; [|..|done].
  - exists (AList.list_del p l). split.
    + rewrite <- list_del_shift, E, AList.list_del_middle; [done|].
      destruct Hl as [Hnd' _]. apply NoDup_cons in Hnd' as [_ Hnd']. apply NoDup_app in Hnd'. set_solver.
    + split; [intros q Hq; apply Hs0; by apply AList.elem_of_list_del in Hq as []|].
      intros k' p'. rewrite lookup_delete_Some, Hm, AList.elem_of_list_del by done. split.
      * intros (Hne & Hp' & Hk'). split; [|done]. split; [done|]. intros ->. congruence.
      * intros ((Hp' & Hne) & Hk'). split; [|done]. intros ->.
        assert (m !! k' = Some p') as E' by (by apply Hm). congruence.
  - intros q Hq. eapply same_except_allocated; [exact Hs| |by apply Ha].
    intros x Hx'. eapply is_list_allocated; [exact Hl'|done].
Qed.

(** Initialising the node of an object that is not registered. *)
Lemma registry_init st m p :
  registry st m -> is_Some (keyof p) -> (forall k, m !! k <> Some p) ->
  exists st', INIT_LIST_HEAD (p + off) st = Ok (tt, st') /\ registry st' m.
Proof.
  intros [(l & Hl & Hs0 & Hm) Ha Hh] [k Hk] Hn.
  destruct (INIT_LIST_HEAD_is_list st (p + off)) as (st' & Hr & Hl' & Hs); [apply Ha; by eexists|].
  exists st'. split; [done|]. split; [|..|done].
  - exists l. split; [|done]. eapply is_list_frame; [exact Hl|exact Hs|].
    intros x ->%list_elem_of_singleton. rewrite not_elem_of_cons, elem_of_shift.
    split; [apply Hh; by eexists|]. intros Hp. apply (Hn k). by apply Hm.
  - intros q Hq. eapply same_except_allocated; [exact Hs| |by apply Ha].
    intros x ->%list_elem_of_singleton. by eapply is_list_head_allocated.
Qed.

End registry.

(** A change of the keys that spares the listed objects. *)
Lemma registry_ext {K} `{Countable K} head off (keyof keyof' : Z -> option K) st m :
  registry head off keyof st m ->
  (forall p, is_Some (keyof' p) -> is_Some (keyof p)) ->
  (forall p k, m !! k = Some p -> keyof' p = keyof p) ->
  registry head off keyof' st m.
Proof.
  intros [(l & Hl & Hs & Hm) Ha Hh] Hk He. split.
  - exists l. split; [done|]. split.
    + intros p Hp. destruct (Hs p Hp) as [k Hk']. rewrite (He p k); [by eexists|by apply Hm].
    + intros k p. rewrite Hm. split; intros [Hp Hk'].
      * split; [done|]. rewrite (He p k); [done|by apply Hm].
      * split; [done|]. destruct (Hs p Hp) as [k2 Hk2]. rewrite <- (He p k2); [done|by apply Hm].
  - intros p Hp. by apply Ha, Hk.
  - intros p Hp. by apply Hh, Hk.
Qed.

(** ** File system types *)

Inductive fs_op := FReg (fs : Z) | FUnreg (fs : Z) | FGet (name : cstr).

Section types.
Context {A : Type} `{KAlloc A} `{FsCode A}.

Definition run_fs_op (o : fs_op) : ST (vfs A) Z :=
  match o with
  | FReg fs => register_filesystem fs
  | FUnreg fs => unregister_filesystem fs
  | FGet name => get_fs name
  end.

Fixpoint run_fs_ops (l : list fs_op) : ST (vfs A) (list Z) :=
  match l with
  | [] => ret []
  | o :: l => let! r := run_fs_op o in let! rs := run_fs_ops l in ret (r :: rs)
  end.

(** The operations on a finite map from names to file systems. *)
Definition fs_spec (T : gmap Z file_system_type) (m : gmap cstr Z) (o : fs_op) : Z * gmap cstr Z :=
  match o with
  | FReg fs =>
      match T !! fs with
      | Some t =>
          if fs_mount t =? NULL then (- EINVAL, m)
          else if decide (is_Some (m !! fs_name t)) then (- EEXIST, m)
          else (0, <[fs_name t := fs]> m)
      | None => (- EINVAL, m)
      end
  | FUnreg fs =>
      match T !! fs with
      | Some t => if decide (m !! fs_name t = Some fs) then (0, delete (fs_name t) m) else (- ENOENT, m)
      | None => (- EINVAL, m)
      end
  | FGet name => (default NULL (m !! name), m)
  end.

Fixpoint fs_specs (T : gmap Z file_system_type) (m : gmap cstr Z) (l : list fs_op) : list Z :=
  match l with
  | [] => []
  | o :: l => let '(r, m') := fs_spec T m o in r :: fs_specs T m' l
  end.

(** The operation names no object, or a live one. *)
Definition fs_op_live (T : gmap Z file_system_type) (o : fs_op) : Prop :=
  match o with FReg fs | FUnreg fs => fs = NULL \/ is_Some (T !! fs) | FGet _ => True end.

Definition fs_key (T : gmap Z file_system_type) (p : Z) : option cstr := fs_name <$> T !! p.

Definition fs_state (T : gmap Z file_system_type) (st : Z) (m : gmap cstr Z) (s : vfs A) : Prop :=
  locks st ∅ s /\ v_fstypes s = T /\ (forall p, is_Some (T !! p) -> 0 < p) /\
  registry vfs_fs_list 24 (fs_key T) (v_links s) m.

Lemma fs_find T m name (s : vfs A) :
  v_fstypes s = T -> registry vfs_fs_list 24 (fs_key T) (v_links s) m ->
  find_entry (has_name name) vfs_fs_list s = Ok (option_map (fun p => p + 24) (m !! name), s).
Proof.
  intros HT [(l & Hl & Hs0 & Hm) _ _].
  rewrite (find_entry_spec (HM := vfs_machine) _ (fun pos => bool_decide (fs_key T (pos - 24) = Some name)) s _ _ Hl).
  - by rewrite (registry_find 24 (fs_key T) m l name Hm).
  - intros x Hx. apply list_elem_of_In, List.in_map_iff in Hx as (p & <- & Hp).
    apply list_elem_of_In in Hp. unfold has_name, get_fstype, obj, bind, load, fs_key.
    replace (p + 24 - 24) with p by lia. rewrite HT.
    assert (exists t, T !! p = Some t) as [t Ht].
    { destruct (Hs0 p Hp) as [k Hk]. unfold fs_key in Hk. destruct (T !! p); [eauto|done]. }
    rewrite Ht. cbn. unfold str_eq, ret. do 2 f_equal. apply bool_decide_ext. split; congruence.
Qed.

Lemma fs_find_node T m fs t (s : vfs A) :
  v_fstypes s = T -> T !! fs = Some t -> registry vfs_fs_list 24 (fs_key T) (v_links s) m ->
  exists r, find_entry (fun pos => ret (pos - 24 =? fs)) vfs_fs_list s = Ok (r, s) /\
    (is_Some r <-> m !! fs_name t = Some fs).
Proof.
  intros HT Ht [(l & Hl & Hs0 & Hm) _ _].
  rewrite (find_entry_spec (HM := vfs_machine) _ (fun pos => pos - 24 =? fs) s _ _ Hl) by done.
  eexists. split; [done|]. rewrite Hm. unfold fs_key. rewrite Ht. split.
  - intros [x Hx]. apply List.find_some in Hx as [Hin Hx%Z.eqb_eq]. split; [|done].
    apply (elem_of_shift 24). replace (fs + 24) with x by lia. by apply list_elem_of_In.
  - intros [Hp _]. destruct (List.find _ _) eqn:E; [done|].
    pose proof (List.find_none _ _ E (fs + 24)) as Hf. cbv beta in Hf.
    replace (fs + 24 - 24) with fs in Hf by lia. rewrite Z.eqb_refl in Hf.
    discriminate Hf. apply list_elem_of_In. by apply elem_of_shift.
Qed.

Lemma fs_state_change T st m m' s s' :
  fs_state T st m s -> v_cpu s' = v_cpu s -> v_fstypes s' = v_fstypes s ->
  hart_ok (v_cpu s) st ∅ (v_hart s') -> registry vfs_fs_list 24 (fs_key T) (v_links s') m' ->
  fs_state T st m' s'.
Proof. intros (_ & HT & Hp & _) Hc Ht Hh Hr. unfold fs_state, locks. cbn. rewrite Hc, Ht. by split_and!. Qed.

Lemma get_fs_spec T st m name s :
  fs_state T st m s ->
  wp False (get_fs name) (fun r s' => r = default NULL (m !! name) /\ fs_state T st m s') s.
Proof.
  intros Hs. eapply wp_enter; [apply Hs|]. intros h Hh. pose proof Hs as (_ & HT & _ & Hr).
  apply wp_bind. eapply wp_run; [apply (fs_find T m); same_state s|].
  eapply wp_leave; [same_state s|]. intros h' Hh'. apply wp_ret. split.
  - destruct (m !! name); cbn; [lia|done].
  - apply (fs_state_change T st m _ s); [exact Hs|same_state s..].
Qed.

Lemma unregister_spec T st m fs t s :
  fs_state T st m s -> T !! fs = Some t ->
  wp False (unregister_filesystem fs)
    (fun r s' => r = (fs_spec T m (FUnreg fs)).1 /\ fs_state T st (fs_spec T m (FUnreg fs)).2 s') s.
Proof.
  intros Hs Ht. pose proof Hs as (_ & HT & Hpos & Hr). unfold unregister_filesystem.
  specialize (Hpos fs ltac:(by eexists)). destruct (Z.eqb_spec fs NULL) as [|_]; [unfold NULL in *; lia|].
  eapply wp_enter; [apply Hs|]. intros h Hh. cbn [fs_spec]. rewrite Ht.
  destruct (fs_find_node T m fs t (set_v_hart h s)) as (r & Hf & Hiff); [same_state s|done|same_state s|].
  apply wp_bind. eapply wp_run; [exact Hf|]. destruct r as [x|].
  - assert (m !! fs_name t = Some fs) as Hm by (apply Hiff; by eexists). rewrite decide_True by done.
    destruct (registry_del vfs_fs_list 24 (fs_key T) (v_links s) m fs (fs_name t)) as (l & Hl & Hr');
      [done|by unfold fs_key; rewrite Ht|done|].
    apply wp_bind. eapply (wp_on_links False (list_del (fs_list fs))); [same_state s|].
    eapply wp_leave; [same_state s|]. intros h' Hh'. apply wp_ret. split; [done|].
    apply (fs_state_change T st m _ s); [exact Hs|same_state s..].
  - rewrite decide_False by (intros Hm; apply Hiff in Hm as [? ?]; done).
    eapply wp_leave; [same_state s|]. intros h' Hh'. apply wp_ret. split; [done|].
    apply (fs_state_change T st m _ s); [exact Hs|same_state s..].
Qed.

Lemma register_spec T st m fs t s :
  fs_state T st m s -> T !! fs = Some t ->
  wp False (register_filesystem fs)
    (fun r s' => r = (fs_spec T m (FReg fs)).1 /\ fs_state T st (fs_spec T m (FReg fs)).2 s') s.
Proof.
  intros Hs Ht. pose proof Hs as (_ & HT & Hpos & Hr). unfold register_filesystem.
  specialize (Hpos fs ltac:(by eexists)). destruct (Z.eqb_spec fs NULL) as [|_]; [unfold NULL in *; lia|].
  apply wp_bind. eapply wp_obj; [by rewrite HT|]. cbn [fs_spec]. rewrite Ht.
  destruct (fs_mount t =? NULL); [by apply wp_ret|].
  eapply wp_enter; [apply Hs|]. intros h Hh.
  apply wp_bind. eapply wp_run; [apply (fs_find T m); same_state s|].
  destruct (m !! fs_name t) as [q|] eqn:Hm; cbn [option_map].
  - rewrite decide_True by (by eexists).
    eapply wp_leave; [same_state s|]. intros h' Hh'. apply wp_ret. split; [done|].
    apply (fs_state_change T st m _ s); [exact Hs|same_state s..].
  - rewrite decide_False by (intros [? ?]; done).
    assert (fs_key T fs = Some (fs_name t)) as Hk by (unfold fs_key; by rewrite Ht).
    destruct (registry_init vfs_fs_list 24 (fs_key T) (v_links s) m fs) as (l & Hl & Hr'); [done|by eexists| |].
    { destruct Hr as [(xs & _ & _ & Hxs) _ _]. intros k Hk'. apply Hxs in Hk' as Hk2. destruct Hk2 as [_ Hk2].
      rewrite Hk in Hk2. injection Hk2 as <-. congruence. }
    destruct (registry_add vfs_fs_list 24 (fs_key T) l m fs (fs_name t)) as (l' & Hl' & Hr2); [done..|].
    apply wp_bind. eapply (wp_on_links False (INIT_LIST_HEAD (fs_list fs))); [destruct s; exact Hl|].
    apply wp_bind, wp_modify. apply wp_bind.
    eapply (wp_on_links False (list_add (fs_list fs) vfs_fs_list)); [destruct s; exact Hl'|].
    eapply wp_leave.
    + destruct s. apply hart_ok_lock_init; [exact Hh|]. unfold fs_lock, vfs_lock. rewrite elem_of_singleton. lia.
    + intros h' Hh'. apply wp_ret. split; [done|].
      apply (fs_state_change T st m _ s); [exact Hs|same_state s..].
Qed.

Lemma fs_op_spec T st m o s :
  fs_state T st m s -> fs_op_live T o ->
  wp False (run_fs_op o) (fun r s' => r = (fs_spec T m o).1 /\ fs_state T st (fs_spec T m o).2 s') s.
Proof.
  intros Hs Ho. assert (T !! NULL = None) as Hnull.
  { destruct Hs as (_ & _ & Hpos & _). destruct (T !! NULL) eqn:E; [|done].
    specialize (Hpos NULL ltac:(by eexists)). unfold NULL in Hpos. lia. }
  destruct o as [fs|fs|name]; cbn [run_fs_op fs_op_live] in *.
  - destruct Ho as [->|[t Ht]]; [|by eapply register_spec]. cbn [fs_spec]. rewrite Hnull. by apply wp_ret.
  - destruct Ho as [->|[t Ht]]; [|by eapply unregister_spec]. cbn [fs_spec]. rewrite Hnull. by apply wp_ret.
  - by apply get_fs_spec.
Qed.

Lemma fs_ops_spec T st ops : forall m s,
  fs_state T st m s -> Forall (fs_op_live T) ops ->
  wp False (run_fs_ops ops) (fun rs s' => rs = fs_specs T m ops /\ exists m', fs_state T st m' s') s.
Proof.
  induction ops as [|o ops IH]; intros m s Hs Ho; cbn [run_fs_ops fs_specs].
  - apply wp_ret. eauto.
  - apply Forall_cons in Ho as [Ho Hos]. eapply wp_bind_mono; [by apply fs_op_spec|].
    intros r s1 [-> Hs1]. eapply wp_bind_mono; [by apply (IH (fs_spec T m o).2)|].
    intros rs s2 [-> Hs2]. apply wp_ret. split; [by destruct (fs_spec T m o)|done].
Qed.

(** The registry of file system types refines a finite map from names to
    types: from the empty list, any sequence of [register_filesystem],
    [unregister_filesystem] and [get_fs] on live objects returns what the map
    returns - registration refuses a name that is taken, removal finds only what
    is registered, a search finds the type registered last under the name - and
    leaves the lock free and the interrupts as they were. *)
Theorem fs_registry_refines st ops s :
  locks st ∅ s -> is_list (v_links s) vfs_fs_list [] ->
  (forall p, is_Some (v_fstypes s !! p) -> 0 < p /\ allocated (v_links s) (fs_list p)) ->
  Forall (fs_op_live (v_fstypes s)) ops ->
  wp False (run_fs_ops ops) (fun rs s' => rs = fs_specs (v_fstypes s) ∅ ops /\ locks st ∅ s') s.
Proof.
  intros Hl He Hp Ho. eapply wp_mono; [apply (fs_ops_spec (v_fstypes s) st ops ∅ s); [|done]|done|].
  - split; [done|]. split; [done|]. split; [intros p Hs; by apply Hp|].
    assert (forall p, is_Some (fs_key (v_fstypes s) p) -> is_Some (v_fstypes s !! p)) as Hk.
    { intros p [k Hk]. unfold fs_key in Hk. destruct (v_fstypes s !! p); [by eexists|done]. }
    split.
    + exists []. split; [done|]. split; [intros p Hin; by apply not_elem_of_nil in Hin|].
      intros k p. rewrite lookup_empty. split; [done|]. intros [Hin _]. by apply not_elem_of_nil in Hin.
    + intros p Hs. by apply Hp, Hk.
    + intros p Hs. apply Hk, Hp in Hs as [Hs _]. unfold vfs_fs_list. lia.
  - intros rs s' [-> (m' & Hs' & _)]. done.
Qed.

End types.

#[local] Existing Instance bare_code.

Definition two_types : vfs bump :=
  set_v_fstypes {[ 4096 := FsType [114] 1 0; 8192 := FsType [101] 1 0 ]}
    (bare_vfs [vfs_fs_list; fs_list 4096; fs_list 8192]).

Lemma fs_registry_refines_witness :
  let ops := [FReg 4096; FReg 8192; FReg 4096; FGet [101]; FUnreg 8192; FGet [101]; FReg NULL] in
  wp False (run_fs_ops ops)
    (fun rs s' => rs = [0; 0; - EEXIST; 8192; 0; NULL; - EINVAL] /\ locks 2 ∅ s') two_types.
Proof.
  intros ops. eapply wp_mono; [apply (fs_registry_refines 2 ops two_types)|done|].
  - exact (bare_locks []).
  - split; [apply NoDup_singleton|]. by vm_compute.
  - intros p [t Ht]. cbn in Ht. apply lookup_insert_Some in Ht as [[<- _]|[_ Ht]].
    + split; [reflexivity|]. split; eexists; vm_compute; reflexivity.
    + apply lookup_singleton_Some in Ht as [<- _]. split; [reflexivity|]. split; eexists; vm_compute; reflexivity.
  - repeat (apply List.Forall_cons; [first [exact I|left; reflexivity|right; eexists; vm_compute; reflexivity]|]).
    apply List.Forall_nil.
  - intros rs s' [-> Hs]. split; [vm_compute; reflexivity|exact Hs].
Defined.
