(* ===== verification/SuperProof.v ===== *)
(** The superblocks refine a set of reference-counted objects and a finite map
    from devices to the registered ones. *)

From S2P Require Import Prelude ListHead ListFamily Sync Alloc Hashtable Machine Vfs VfsProof Super InodeCache DentryCache OpenFile Namei VfsOps Registry.

Inductive sup_op := SReg (sb : Z) | SUnreg (sb : Z) | SLookup (dev : Z) | SGet (sb : Z) | SPut (sb : Z).

(** The abstract state: the live superblocks, and the device map. *)
Definition sup_abs : Type := gmap Z super_block * gmap Z Z.

Definition sup_key (T : gmap Z super_block) (p : Z) : option Z := s_dev <$> T !! p.

(** What an operation returns (0 for [void]) and leaves. *)
Definition sup_spec (a : sup_abs) (o : sup_op) : Z * sup_abs :=
  let '(T, m) := a in
  match o with
  | SReg sb =>
      match T !! sb with
      | None => (- EINVAL, a)
      | Some b => if decide (is_Some (m !! s_dev b)) then (- EEXIST, a) else (0, (T, <[s_dev b := sb]> m))
      end
  | SUnreg sb => match T !! sb with None => (0, a) | Some b => (0, (T, delete (s_dev b) m)) end
  | SLookup dev => (default NULL (m !! dev), a)
  | SGet sb =>
      match T !! sb with
      | None => (0, a)
      | Some b => (0, (<[sb := set_s_count (u32 (s_count b + 1)) b]> T, m))
      end
  | SPut sb =>
      match T !! sb with
      | None => (0, a)
      | Some b => if s_count b =? 1 then (0, (delete sb T, delete (s_dev b) m))
                  else (0, (<[sb := set_s_count (u32 (s_count b - 1)) b]> T, m))
      end
  end.

(** The discipline of the callers: pointers are null or live; only a registered
    superblock is unregistered or loses its last reference. *)
Definition sup_op_ok (a : sup_abs) (o : sup_op) : Prop :=
  let '(T, m) := a in
  match o with
  | SLookup _ => True
  | SReg sb | SUnreg sb | SGet sb | SPut sb =>
      match T !! sb with
      | None => sb = NULL
      | Some b =>
          match o with
          | SUnreg _ => m !! s_dev b = Some sb
          | SGet _ => s_count b + 1 < 2 ^ 32
          | SPut _ => if s_count b =? 1 then m !! s_dev b = Some sb else True
          | _ => True
          end
      end
  end.

Fixpoint sup_ops_ok (a : sup_abs) (l : list sup_op) : Prop :=
  match l with
  | [] => True
  | o :: l => sup_op_ok a o /\ sup_ops_ok (sup_spec a o).2 l
  end.

Fixpoint sup_specs (a : sup_abs) (l : list sup_op) : list Z * sup_abs :=
  match l with
  | [] => ([], a)
  | o :: l => let '(r, a) := sup_spec a o in let '(rs, a) := sup_specs a l in (r :: rs, a)
  end.

Section super.
Context {A : Type} `{KAlloc A} `{FsCode A} {own : A -> gset Z -> Prop} {HOk : KAllocOk A own}.

Definition run_sup_op (o : sup_op) : ST (vfs A) Z :=
  match o with
  | SReg sb => super_register sb
  | SUnreg sb => do! super_unregister sb in ret 0
  | SLookup dev => super_lookup dev
  | SGet sb => do! super_get sb in ret 0
  | SPut sb => do! super_put sb in ret 0
  end.

Fixpoint run_sup_ops (l : list sup_op) : ST (vfs A) (list Z) :=
  match l with
  | [] => ret []
  | o :: l => let! r := run_sup_op o in let! rs := run_sup_ops l in ret (r :: rs)
  end.

(** The live superblocks [T]: at positive addresses, not overlapping, without a
    [put_super] callback, with counts of 32 bits. *)
Record sup_objects (T : gmap Z super_block) : Prop := {
  so_pos p : is_Some (T !! p) -> 0 < p;
  so_apart p q : is_Some (T !! p) -> is_Some (T !! q) -> p <> q ->
    p + sizeof_super_block <= q \/ q + sizeof_super_block <= p;
  so_ops p b : T !! p = Some b -> entry (s_op b) superops put_super = None /\ 0 < s_count b < 2 ^ 32
}.

Definition sup_state (F : gset Z) st (a : sup_abs) (s : vfs A) : Prop :=
  locks st ∅ s /\ v_supers s = a.1 /\ sup_objects a.1 /\
  registry super_state_list 40 (sup_key a.1) (v_links s) a.2 /\ framed own F (v_env s) (dom a.1).

Lemma sup_live T sb b : sup_objects T -> T !! sb = Some b -> (sb =? NULL) = false.
Proof. intros Ho Hb. assert (0 < sb) by (apply (so_pos _ Ho); by eexists). apply Z.eqb_neq. unfold NULL. lia. Qed.

Lemma sup_find T m dev (s : vfs A) :
  v_supers s = T -> registry super_state_list 40 (sup_key T) (v_links s) m ->
  find_entry (has_dev dev) super_state_list s = Ok (option_map (fun p => p + 40) (m !! dev), s).
Proof.
  intros HT [(l & Hl & Hs0 & Hm) _ _].
  rewrite (find_entry_spec (HM := vfs_machine) _ (fun pos => bool_decide (sup_key T (pos - 40) = Some dev)) s _ _ Hl).
  - by rewrite (registry_find 40 (sup_key T) m l dev Hm).
  - intros x Hx. apply list_elem_of_In, List.in_map_iff in Hx as (p & <- & Hp).
    apply list_elem_of_In in Hp. unfold has_dev, get_super, obj, bind, load, sup_key.
    replace (p + 40 - 40) with p by lia. rewrite HT.
    assert (exists t, T !! p = Some t) as [t Ht].
    { destruct (Hs0 p Hp) as [k Hk]. unfold sup_key in Hk. destruct (T !! p); [eauto|done]. }
    rewrite Ht. cbn. unfold ret. do 2 f_equal. apply eq_true_iff_eq. rewrite Z.eqb_eq, bool_decide_eq_true. split; congruence.
Qed.

Lemma sup_state_change F st T m m' s s' :
  sup_state F st (T, m) s -> v_cpu s' = v_cpu s -> v_supers s' = v_supers s -> v_env s' = v_env s ->
  hart_ok (v_cpu s) st ∅ (v_hart s') -> registry super_state_list 40 (sup_key T) (v_links s') m' ->
  sup_state F st (T, m') s'.
Proof. intros (_ & HT & Ho & _ & He) Hc Ht Hv Hh Hr. unfold sup_state, locks; cbn. rewrite Hc, Ht, Hv. by split_and!. Qed.

Lemma sup_lookup_spec F st T m dev s :
  sup_state F st (T, m) s ->
  wp False (super_lookup dev) (fun r s' => r = default NULL (m !! dev) /\ sup_state F st (T, m) s') s.
Proof.
  intros Hs. eapply wp_enter; [apply Hs|]. intros h Hh. pose proof Hs as (_ & HT & _ & Hr & _).
  apply wp_bind. eapply wp_run; [apply (sup_find T m); same_state s|].
  eapply wp_leave; [same_state s|]. intros h' Hh'. apply wp_ret. split.
  - destruct (m !! dev); cbn; [lia|done].
  - apply (sup_state_change F st T m m s); [exact Hs|same_state s..].
Qed.

Lemma sup_register_spec F st T m sb b s :
  sup_state F st (T, m) s -> T !! sb = Some b ->
  wp False (super_register sb)
    (fun r s' => r = (sup_spec (T, m) (SReg sb)).1 /\ sup_state F st (sup_spec (T, m) (SReg sb)).2 s') s.
Proof.
  intros Hs Hb. pose proof Hs as (_ & HT & Ho & Hr & _). cbn [fst snd] in *. unfold super_register.
  rewrite (sup_live T sb b) by done. cbn [sup_spec]. rewrite Hb.
  eapply wp_enter; [apply Hs|]. intros h Hh.
  apply wp_bind. eapply wp_obj; [destruct s; cbn in *; by rewrite HT|].
  apply wp_bind. eapply wp_run; [apply (sup_find T m); same_state s|].
  destruct (m !! s_dev b) as [q|] eqn:Hm; cbn [option_map].
  - rewrite decide_True by (by eexists).
    eapply wp_leave; [same_state s|]. intros h' Hh'. apply wp_ret. split; [done|].
    apply (sup_state_change F st T m m s); [exact Hs|same_state s..].
  - rewrite decide_False by (intros [? ?]; done).
    destruct (registry_add super_state_list 40 (sup_key T) (v_links s) m sb (s_dev b)) as (l & Hl & Hr');
      [done|by unfold sup_key; rewrite Hb|done|].
    apply wp_bind. eapply (wp_on_links False (list_add (s_list sb) super_state_list)); [same_state s|].
    apply wp_bind, wp_modify. eapply wp_leave; [same_state s|].
    intros h' Hh'. apply wp_ret. split; [done|].
    apply (sup_state_change F st T m _ s); [exact Hs|same_state s..].
Qed.

Lemma sup_unregister_spec F st T m sb b s :
  sup_state F st (T, m) s -> T !! sb = Some b -> m !! s_dev b = Some sb ->
  wp False (super_unregister sb) (fun _ s' => sup_state F st (T, delete (s_dev b) m) s') s.
Proof.
  intros Hs Hb Hm. pose proof Hs as (_ & HT & Ho & Hr & _). cbn [fst snd] in *. unfold super_unregister.
  rewrite (sup_live T sb b) by done. eapply wp_enter; [apply Hs|]. intros h Hh.
  destruct (registry_del super_state_list 40 (sup_key T) (v_links s) m sb (s_dev b)) as (l & Hl & Hr');
    [done|by unfold sup_key; rewrite Hb|done|].
  apply wp_bind. eapply (wp_on_links False (list_del (s_list sb))); [same_state s|].
  apply wp_bind, wp_modify. eapply wp_exit; [same_state s|]. intros h' Hh'.
  apply (sup_state_change F st T m _ s); [exact Hs|same_state s..].
Qed.

(** A new count of a live superblock. *)
Lemma sup_objects_insert T sb b c :
  sup_objects T -> T !! sb = Some b -> 0 < c < 2 ^ 32 -> sup_objects (<[sb := set_s_count c b]> T).
Proof.
  intros [Hp Ha Ho] Hb Hc.
  assert (forall p, is_Some (<[sb := set_s_count c b]> T !! p) -> is_Some (T !! p)) as Hi.
  { intros p. rewrite lookup_insert_is_Some. intros [<-|[_ ?]]; [by eexists|done]. }
  split.
  - intros p H1. by apply Hp, Hi.
  - intros p q H1 H2. by apply Ha; apply Hi.
  - intros p b' [[<- <-]|[_ H1]]%lookup_insert_Some; [|by apply (Ho p b')]. destruct (Ho _ _ Hb) as [He _]. by split.
Qed.

Lemma sup_key_insert T sb b c p : T !! sb = Some b -> sup_key (<[sb := set_s_count c b]> T) p = sup_key T p.
Proof.
  intros Hb. unfold sup_key. rewrite lookup_insert. destruct (decide (sb = p)) as [<-|]; [by rewrite Hb|done].
Qed.

Lemma sup_count_state F st T m sb b c s s' :
  sup_state F st (T, m) s -> T !! sb = Some b -> 0 < c < 2 ^ 32 ->
  v_cpu s' = v_cpu s -> v_supers s' = <[sb := set_s_count c b]> T -> v_env s' = v_env s ->
  hart_ok (v_cpu s) st ∅ (v_hart s') -> v_links s' = v_links s ->
  sup_state F st (<[sb := set_s_count c b]> T, m) s'.
Proof.
  intros (_ & HT & Ho & Hr & He) Hb Hc Hcpu Ht Hv Hh Hl. unfold sup_state, locks. cbn in *.
  rewrite Hcpu, Ht, Hv, Hl. split_and!; [done|done|exact (sup_objects_insert T sb b c Ho Hb Hc)| |].
  - eapply registry_ext; [exact Hr|..].
    + intros p. by rewrite (sup_key_insert T sb b _ p Hb).
    + intros p k _. by apply sup_key_insert.
  - by rewrite (dom_insert_lookup_L T sb) by (by eexists).
Qed.

Lemma sup_get_spec F st T m sb b s :
  sup_state F st (T, m) s -> T !! sb = Some b -> s_count b + 1 < 2 ^ 32 ->
  wp False (super_get sb)
    (fun _ s' => sup_state F st (<[sb := set_s_count (u32 (s_count b + 1)) b]> T, m) s') s.
Proof.
  intros Hs Hb Hlt. pose proof Hs as (_ & HT & Ho & Hr & _). cbn [fst snd] in *. unfold super_get.
  destruct (so_ops _ Ho _ _ Hb) as [_ Hc]. rewrite (sup_live T sb b) by done.
  eapply wp_enter; [apply Hs|]. intros h Hh.
  apply wp_bind. eapply wp_upd; [destruct s; cbn in *; by rewrite HT|].
  eapply wp_exit; [same_state s|]. intros h' Hh'.
  apply (sup_count_state F st T m sb b _ s); [exact Hs|exact Hb| |same_state s| |same_state s..].
  - rewrite wrap_small; unfold in_width; lia.
  - destruct s; cbn in *. by rewrite HT.
Qed.

(** Dropping a reference that is not the last. *)
Lemma sup_put_some F st T m sb b s :
  sup_state F st (T, m) s -> T !! sb = Some b -> s_count b <> 1 ->
  wp False (super_put sb)
    (fun _ s' => sup_state F st (<[sb := set_s_count (u32 (s_count b - 1)) b]> T, m) s') s.
Proof.
  intros Hs Hb Hne. pose proof Hs as (_ & HT & Ho & Hr & _). cbn [fst snd] in *. unfold super_put.
  destruct (so_ops _ Ho _ _ Hb) as [_ Hc]. rewrite (sup_live T sb b) by done.
  assert (u32 (s_count b - 1) = s_count b - 1) as Hw by (rewrite wrap_small; [done|unfold in_width; lia]).
  eapply wp_enter; [apply Hs|]. intros h Hh.
  apply wp_bind. eapply wp_upd; [destruct s; cbn in *; by rewrite HT|].
  apply wp_bind. eapply wp_obj; [destruct s; cbn in *; apply lookup_insert_eq|]. cbn [s_count set_s_count].
  destruct (Z.eqb_spec (u32 (s_count b - 1)) 0) as [|_]; [lia|].
  eapply wp_exit; [same_state s|]. intros h' Hh'.
  apply (sup_count_state F st T m sb b _ s); [exact Hs|exact Hb| |same_state s| |same_state s..].
  - lia.
  - destruct s; cbn in *. by rewrite HT.
Qed.

(** The links of a superblock are not those of another. *)
Lemma free_links_registry T m l sb b :
  sup_objects T -> T !! sb = Some b -> (forall k, m !! k <> Some sb) ->
  registry super_state_list 40 (sup_key T) l m ->
  registry super_state_list 40 (sup_key (delete sb T))
    (foldr (fun a st => LStore (delete a (lnext st)) (delete a (lprev st))) l [s_list sb; s_inodes sb]) m.
Proof.
  intros Ho Hb Hm Hr.
  assert (forall p, is_Some (sup_key (delete sb T) p) -> p <> sb /\ is_Some (T !! p)) as Hk.
  { intros p [k Hk]. unfold sup_key in Hk. rewrite lookup_delete in Hk. destruct (decide (sb = p)); [done|].
    split; [done|]. destruct (T !! p); [by eexists|done]. }
  assert (registry super_state_list 40 (sup_key (delete sb T)) l m) as [(xs & Hl & Hx & Hxs) Ha Hh].
  { eapply registry_ext; [exact Hr|..].
    - intros p [_ [b' Hp]]%Hk. unfold sup_key. rewrite Hp. by eexists.
    - intros p k Hp. unfold sup_key. rewrite lookup_delete_ne; [done|]. intros ->. by apply (Hm k). }
  set (l' := foldr _ _ _).
  assert (same_except [s_list sb; s_inodes sb] l l') as Hsame.
  { intros a Hna. subst l'. cbn [foldr lnext lprev].
    rewrite !lookup_delete_ne by (intros E; apply Hna; rewrite <- E; clear; set_solver). done. }
  assert (forall p, p <> sb -> is_Some (T !! p) -> p + 40 ∉ [s_list sb; s_inodes sb]) as Hap.
  { intros p Hp Hlive Hin. pose proof (so_apart _ Ho p sb Hlive ltac:(by eexists) Hp) as Hd.
    unfold s_list, s_inodes, sizeof_super_block in *.
    apply elem_of_cons in Hin as [?|Hin%list_elem_of_singleton]; lia. }
  pose proof (so_pos _ Ho sb ltac:(by eexists)) as Hpos.
  split; [|..|done].
  - exists xs. split; [|done]. eapply is_list_frame; [exact Hl|exact Hsame|].
    intros x Hin Hx'. apply elem_of_cons in Hx' as [->|Hx'].
    + unfold s_list, s_inodes, super_state_list in Hin.
      apply elem_of_cons in Hin as [?|Hin%list_elem_of_singleton]; lia.
    + apply list_elem_of_In, List.in_map_iff in Hx' as (p & <- & Hp). apply list_elem_of_In in Hp.
      destruct (Hk p (Hx p Hp)) as [Hne Hlive]. by apply (Hap p).
  - intros p Hp. destruct (Hk p Hp) as [Hne Hlive]. destruct (Ha p Hp) as [H1 H2].
    destruct (Hsame (p + 40) (Hap p Hne Hlive)) as [E1 E2]. unfold allocated. by rewrite E1, E2.
Qed.

Lemma sup_objects_delete T sb : sup_objects T -> sup_objects (delete sb T).
Proof.
  intros [Hp Ha Ho].
  assert (forall p, is_Some (delete sb T !! p) -> is_Some (T !! p)) as Hi.
  { intros p [b Hb]. apply lookup_delete_Some in Hb as [_ Hb]. by eexists. }
  split.
  - intros p H1. by apply Hp, Hi.
  - intros p q H1 H2. by apply Ha; apply Hi.
  - intros p b [_ Hb]%lookup_delete_Some. by apply (Ho p b).
Qed.

(** Dropping the last reference of a registered superblock ends its life. *)
Lemma sup_put_last F st T m sb b s :
  sup_state F st (T, m) s -> T !! sb = Some b -> s_count b = 1 -> m !! s_dev b = Some sb ->
  wp False (super_put sb) (fun _ s' => sup_state F st (delete sb T, delete (s_dev b) m) s') s.
Proof.
  intros Hs Hb H1 Hm. pose proof Hs as (_ & HT & Ho & Hr & He). cbn [fst snd] in *. unfold super_put.
  destruct (so_ops _ Ho _ _ Hb) as [Hop Hc]. rewrite (sup_live T sb b) by done.
  eapply wp_enter; [apply Hs|]. intros h Hh.
  apply wp_bind. eapply wp_upd; [destruct s; cbn in *; by rewrite HT|].
  apply wp_bind. eapply wp_obj; [destruct s; cbn in *; apply lookup_insert_eq|]. cbn [s_count set_s_count].
  rewrite H1. change (u32 (1 - 1) =? 0) with true. cbv iota.
  eapply wp_leave; [same_state s|]. intros h1 Hh1.
  apply wp_bind. eapply wp_obj; [destruct s; cbn in *; apply lookup_insert_eq|]. cbn [s_op set_s_count].
  rewrite Hop. apply wp_bind, wp_ret. unfold super_free. rewrite (sup_live T sb b) by done.
  eapply wp_enter; [same_state s|]. intros h2 Hh2.
  destruct (registry_del super_state_list 40 (sup_key T) (v_links s) m sb (s_dev b)) as (l & Hl & Hr');
    [done|by unfold sup_key; rewrite Hb|done|].
  apply wp_bind. eapply (wp_on_links False (list_del (s_list sb))); [same_state s|].
  apply wp_bind, wp_modify. eapply wp_leave; [same_state s|]. intros h3 Hh3.
  unfold free_super_object. apply wp_bind, wp_lift.
  eapply (wp_ka_free (own := framed own F) _ (dom T)); [same_state s|apply elem_of_dom; by eexists|]. intros a Ha.
  apply wp_bind, wp_modify, wp_modify. unfold sup_state, locks. cbn [fst snd]. split_and!.
  - same_state s.
  - destruct s; cbn in *. rewrite HT. apply delete_insert_eq.
  - by apply sup_objects_delete.
  - pose proof (free_links_registry T (delete (s_dev b) m) l sb b Ho Hb) as Hfl.
    destruct s; apply Hfl; [|exact Hr']. intros k [Hne Hk]%lookup_delete_Some.
    destruct Hr as [(xs & _ & _ & Hxs) _ _]. apply Hxs in Hk as Hk2. destruct Hk2 as [_ Hk2].
    unfold sup_key in Hk2. rewrite Hb in Hk2. injection Hk2 as <-. congruence.
  - rewrite dom_delete_L. same_state s.
Qed.

Lemma sup_op_spec F st a o s :
  sup_state F st a s -> sup_op_ok a o ->
  wp False (run_sup_op o) (fun r s' => r = (sup_spec a o).1 /\ sup_state F st (sup_spec a o).2 s') s.
Proof.
  destruct a as [T m]. intros Hs Ho.
  assert (T !! NULL = None) as Hnull.
  { destruct Hs as (_ & _ & Hobj & _). destruct (T !! NULL) eqn:E; [|done].
    pose proof (so_pos _ Hobj NULL ltac:(by eexists)). unfold NULL in *. lia. }
  destruct o as [sb|sb|dev|sb|sb]; cbn [run_sup_op sup_op_ok sup_spec] in *; [..|by apply sup_lookup_spec| |];
    (destruct (T !! sb) as [b|] eqn:Hb; [|subst sb]).
  - pose proof (sup_register_spec F st T m sb b s Hs Hb) as Hr. cbn [sup_spec] in Hr. by rewrite Hb in Hr.
  - by apply wp_ret.
  - eapply wp_bind_mono; [by eapply sup_unregister_spec|]. intros [] s' Hs'. by apply wp_ret.
  - by apply wp_bind, wp_ret, wp_ret.
  - eapply wp_bind_mono; [by eapply sup_get_spec|]. intros [] s' Hs'. by apply wp_ret.
  - by apply wp_bind, wp_ret, wp_ret.
  - destruct (Z.eqb_spec (s_count b) 1) as [E|Hne].
    + eapply wp_bind_mono; [by eapply sup_put_last|]. intros [] s' Hs'. by apply wp_ret.
    + eapply wp_bind_mono; [by eapply sup_put_some|]. intros [] s' Hs'. by apply wp_ret.
  - by apply wp_bind, wp_ret, wp_ret.
Qed.

Lemma sup_ops_spec F st ops : forall a s,
  sup_state F st a s -> sup_ops_ok a ops ->
  wp False (run_sup_ops ops)
    (fun rs s' => rs = (sup_specs a ops).1 /\ sup_state F st (sup_specs a ops).2 s') s.
Proof.
  induction ops as [|o ops IH]; intros a s Hs Ho; cbn [run_sup_ops sup_specs].
  - by apply wp_ret.
  - destruct Ho as [Ho Hos]. eapply wp_bind_mono; [by apply sup_op_spec|].
    intros r s1 [-> Hs1]. eapply wp_bind_mono; [by apply IH|].
    intros rs s2 [-> Hs2]. apply wp_ret. destruct (sup_spec a o) as [r a1]. cbn [fst snd] in *.
    by destruct (sup_specs a1 ops).
Qed.

(** [C23] The superblocks refine their abstract machine: in any sequence of
    [super_register], [super_unregister], [super_lookup], [super_get] and
    [super_put] that respects the discipline of references, a device has at
    most one registered superblock and the search finds it, the counts are
    exact, and the last [super_put] of a registered superblock unlinks it and
    returns its memory, and nothing else's; the locks are free again and no
    operation faults or panics. *)
Theorem super_refines F st T ops s :
  locks st ∅ s -> v_supers s = T -> sup_objects T -> framed own F (v_env s) (dom T) ->
  is_list (v_links s) super_state_list [] ->
  (forall sb, is_Some (T !! sb) -> allocated (v_links s) (s_list sb)) ->
  sup_ops_ok (T, ∅) ops ->
  wp False (run_sup_ops ops)
    (fun rs s' => rs = (sup_specs (T, ∅) ops).1 /\
       v_supers s' = (sup_specs (T, ∅) ops).2.1 /\
       framed own F (v_env s') (dom (v_supers s')) /\ locks st ∅ s') s.
Proof.
  intros Hl HT Ho He Hlist Ha Hok.
  eapply wp_mono; [apply (sup_ops_spec F st ops (T, ∅) s); [|done]|done|].
  - split; [done|]. split; [done|]. split; [done|]. split; [|done]. cbn [fst snd].
    assert (forall p, is_Some (sup_key T p) -> is_Some (T !! p)) as Hk.
    { intros p [k Hk]. unfold sup_key in Hk. destruct (T !! p); [by eexists|done]. }
    split.
    + exists []. split; [done|]. split; [intros p Hin; by apply not_elem_of_nil in Hin|].
      intros k p. rewrite lookup_empty. split; [done|]. intros [Hin _]. by apply not_elem_of_nil in Hin.
    + intros p Hp. by apply Ha, Hk.
    + intros p Hp. apply Hk, (so_pos _ Ho) in Hp. unfold super_state_list. lia.
  - intros rs s' (-> & Hl' & Hs' & _ & _ & He'). split; [done|]. split; [done|]. by rewrite Hs'.
Qed.

End super.

#[local] Existing Instance bare_code.

Definition block (dev : Z) : super_block := SuperBlock dev NULL NULL NULL NULL 0 BLOCK_SIZE 9 0 1.

Definition two_supers : vfs bump :=
  set_v_env (Bump 8192 0 {[ 4096; 4224 ]})
    (set_v_supers {[ 4096 := block 7; 4224 := block 8 ]}
      (bare_vfs [super_state_list; s_list 4096; s_inodes 4096; s_list 4224; s_inodes 4224])).

Lemma super_refines_witness :
  let ops := [SReg 4096; SReg 4224; SLookup 8; SReg 4096; SGet 4096; SPut 4224; SLookup 8; SUnreg 4096] in
  wp False (run_sup_ops ops)
    (fun rs s' => rs = [0; 0; 4224; - EEXIST; 0; 0; NULL; 0] /\
       dom (v_supers s') = {[ 4096 ]} /\
       framed bump_own ∅ (v_env s') (dom (v_supers s')) /\ locks 2 ∅ s') two_supers.
Proof.
  intros ops.
  eapply wp_mono; [apply (super_refines ∅ 2 {[ 4096 := block 7; 4224 := block 8 ]} ops two_supers)|done|].
  - exact (bare_locks []).
  - reflexivity.
  - split.
    + intros p [t [[<- _]|[_ [<- _]%lookup_singleton_Some]]%lookup_insert_Some]; reflexivity.
    + intros p q [t [[<- _]|[_ [<- _]%lookup_singleton_Some]]%lookup_insert_Some]
        [u [[<- _]|[_ [<- _]%lookup_singleton_Some]]%lookup_insert_Some] Hne; unfold sizeof_super_block; lia.
    + intros p b [[_ <-]|[_ [_ <-]%lookup_singleton_Some]]%lookup_insert_Some; done.
  - split; [apply disjoint_empty_r|]. split; [by vm_compute|]. split; [reflexivity|].
    intros x. rewrite union_empty_r_L, elem_of_dom. intros [t [[<- _]|[_ [<- _]%lookup_singleton_Some]]%lookup_insert_Some]; reflexivity.
  - split; [apply NoDup_singleton|]. by vm_compute.
  - intros p [t [[<- _]|[_ [<- _]%lookup_singleton_Some]]%lookup_insert_Some]; split; eexists; vm_compute; reflexivity.
  - vm_compute. done.
  - intros rs s' (-> & Hs & He & Hl). split; [vm_compute; reflexivity|]. split; [|done].
    rewrite Hs. by vm_compute.
Defined.
