(* ===== verification/Pagetable.v ===== *)
(** The Sv39 page tables of [src/mm/pagetable.c], the constants of
    [include/mm/pagetable.h] and [include/mm/vm.h], and [va2pa] of
    [src/mm/vm.c].

    A table is the list of its 512 entries, found by its address; a pointer to
    an entry is the address of the table and the index.  Tables come from
    [kzalloc]; the heap below is an interface that counts the pages it can
    still hand out.  The instruction [sfence.vma] is not modelled. *)

From S2P Require Import Prelude Alloc.

(** ** Constants and macros *)

Definition PTE_V : Z := Z.shiftl 1 0.
Definition PTE_R : Z := Z.shiftl 1 1.
Definition PTE_W : Z := Z.shiftl 1 2.
Definition PTE_X : Z := Z.shiftl 1 3.
Definition PTE_U : Z := Z.shiftl 1 4.
Definition PTE_G : Z := Z.shiftl 1 5.
Definition PTE_M : Z := Z.shiftl 1 8.

Definition PA2PTE (pa : Z) : Z := u64 (Z.shiftl (Z.shiftr pa PAGE_SHIFT) 10).
Definition PTE2PA (pte : Z) : Z := u64 (Z.shiftl (Z.shiftr pte 10) PAGE_SHIFT).
Definition PXMASK : Z := 0x1FF.
Definition PXSHIFT (level : Z) : Z := PAGE_SHIFT + 9 * level.
Definition PX (level va : Z) : Z := Z.land (Z.shiftr va (PXSHIFT level)) PXMASK.

Definition VM_START : Z := 0.
Definition VM_END : Z := Z.shiftl 1 (9 + 9 + 9 + 12 - 1).
Definition TRAMPOLINE : Z := VM_END - PAGE_SIZE.

Definition PAGE_ALIGNED (a : Z) : bool := ALIGNED a PAGE_SIZE.
Definition PAGE_ALIGN_DOWN (a : Z) : Z := ALIGN_DOWN a PAGE_SIZE.

(** ** State *)

Record pgt (A : Type) := PGT { pt_pages : gmap Z (list Z); pt_env : A }.
Arguments PGT {A} pt_pages pt_env.
Arguments pt_pages {A} p.
Arguments pt_env {A} p.

Definition set_pt_pages {A} x (s : pgt A) : pgt A := PGT x (pt_env s).
Definition set_pt_env {A} x (s : pgt A) : pgt A := PGT (pt_pages s) x.

(** A page that [kzalloc] has cleared, as a table. *)
Definition zero_table : list Z := replicate 512 0.

Section pagetable.
Context {A : Type} `{KAlloc A}.

Definition on_heap {B} (m : ST A B) : ST (pgt A) B := lift pt_env set_pt_env m.

(** [*pte] and [*pte = x]. *)
Definition get_pte (pte : Z * Z) : ST (pgt A) Z :=
  load (fun s => es ← pt_pages s !! pte.1; es !! Z.to_nat pte.2).
Definition set_pte (pte : Z * Z) (x : Z) : ST (pgt A) unit :=
  store (fun s => es ← pt_pages s !! pte.1;
    Some (set_pt_pages (<[pte.1 := <[Z.to_nat pte.2 := x]> es]> (pt_pages s)) s)).

(** [kzalloc(PAGE_SIZE)] and [kfree] of a table. *)
Definition kzalloc_page : ST (pgt A) Z :=
  let! p := on_heap (ka_alloc PAGE_SIZE) in
  if p =? NULL then ret NULL else
  do! modify (fun s => set_pt_pages (<[p := zero_table]> (pt_pages s)) s) in
  ret p.

Definition kfree_page (p : Z) : ST (pgt A) unit :=
  do! on_heap (ka_free p) in
  modify (fun s => set_pt_pages (delete p (pt_pages s)) s).

(** ** Operations *)

(** The loop of [va2pte] over the levels [n], ..., 1. *)
Fixpoint va2pte_loop (n : nat) (pagetable va : Z) (alloc : bool) : ST (pgt A) (option (Z * Z)) :=
  match n with
  | O => ret (Some (pagetable, PX 0 va))
  | S n' =>
      let pte := (pagetable, PX (Z.of_nat n) va) in
      let! e := get_pte pte in
      if negb (Z.land e PTE_V =? 0) then va2pte_loop n' (PTE2PA e) va alloc
      else if negb alloc then ret None else
      let! pagetable := kzalloc_page in
      if pagetable =? NULL then ret None else
      do! set_pte pte (Z.lor (PA2PTE pagetable) PTE_V) in
      va2pte_loop n' pagetable va alloc
  end.

Definition va2pte (pagetable va : Z) (alloc : bool) : ST (pgt A) (option (Z * Z)) :=
  va2pte_loop 2 pagetable va alloc.

Definition walkaddr (pagetable va : Z) : ST (pgt A) Z :=
  if VM_END <=? va then ret 0 else
  let! pte := va2pte pagetable va false in
  match pte with
  | None => ret 0
  | Some pte =>
      let! e := get_pte pte in
      if Z.land e PTE_M =? 0 then ret 0 else ret (PTE2PA e)
  end.

Definition va2pa (pagetable va : Z) : ST (pgt A) Z :=
  let! page := walkaddr pagetable va in
  if page =? 0 then ret 0 else ret (Z.lor page (Z.land va 0xFFF)).

Definition pagetable_create : ST (pgt A) Z := kzalloc_page.

(** The recursion is on the level of the table. *)
Fixpoint pagetable_destroy_level (level : nat) (pagetable : Z) : ST (pgt A) unit :=
  if pagetable =? NULL then ret tt else
  do! (match level with
       | O => ret tt
       | S level =>
           for_up 512 0 (fun i =>
             let! pte := get_pte (pagetable, i) in
             if negb (Z.land pte PTE_V =? 0) then pagetable_destroy_level level (PTE2PA pte)
             else ret tt)
       end) in
  kfree_page pagetable.

Definition pagetable_destroy (pagetable : Z) : ST (pgt A) unit :=
  if pagetable =? NULL then ret tt else pagetable_destroy_level 2 pagetable.

(** The loop of [mappages] from index [i], [n] pages to go.  The result of
    [va2pte] is dereferenced without a test. *)
Fixpoint map_loop (n : nat) (pagetable va pa perm i : Z) : ST (pgt A) Z :=
  match n with
  | O => ret 0
  | S n =>
      let! pte := va2pte pagetable (u64 (va + i * PAGE_SIZE)) true in
      match pte with
      | None => fault
      | Some pte =>
          let! e := get_pte pte in
          if negb (Z.land e PTE_M =? 0) then ret (- EADDRINUSE) else
          do! set_pte pte (Z.lor (Z.lor (PA2PTE (u64 (pa + i * PAGE_SIZE))) perm) PTE_M) in
          map_loop n pagetable va pa perm (i + 1)
      end
  end.

Definition mappages (pagetable va pa npages perm : Z) : ST (pgt A) Z :=
  if pagetable =? NULL then ret (- EINVAL) else
  if negb (PAGE_ALIGNED va) || negb (PAGE_ALIGNED pa) then ret (- EINVAL) else
  if npages =? 0 then ret 0 else
  if VM_END <? u64 (va + npages * PAGE_SIZE) then ret (- ERANGE) else
  if PM_END <? u64 (pa + npages * PAGE_SIZE) then ret (- ERANGE) else
  map_loop (Z.to_nat npages) pagetable va pa (Z.land perm 0x3f) 0.

(** Every iteration but the last advances [a] by a page towards [end_], which
    is at most [npages] pages away. *)
Fixpoint unmap_loop (fuel : nat) (pagetable a end_ : Z) : ST (pgt A) Z :=
  if negb (a <? end_) then ret 0 else
  match fuel with
  | O => no_fuel
  | S fuel =>
      let! pte := va2pte pagetable a false in
      do! (match pte with
           | None => ret tt
           | Some pte =>
               let! e := get_pte pte in
               if negb (Z.land e PTE_M =? 0) then set_pte pte 0 else ret tt
           end) in
      unmap_loop fuel pagetable (u64 (a + PAGE_SIZE)) end_
  end.

Definition unmappages (pagetable vm npages : Z) : ST (pgt A) Z :=
  let start := PAGE_ALIGN_DOWN vm in
  let end_ := u64 (start + npages * PAGE_SIZE) in
  unmap_loop (Z.to_nat npages) pagetable start end_.

End pagetable.

(** ** The heap that hands out pages

    [own a X k]: the live objects are [X], and [k] more pages can be
    allocated.  A page is aligned and its address fits a page table entry. *)

Definition page_addr (p : Z) : Prop := 0 < p < 2 ^ 56 /\ p mod PAGE_SIZE = 0.

Class PageHeap (A : Type) `{KAlloc A} (own : A -> gset Z -> Z -> Prop) : Prop := {
  ph_alloc a X k :
    own a X k ->
    wp False (ka_alloc PAGE_SIZE)
      (fun p a' => (p = NULL /\ k <= 0 /\ own a' X k) \/
                   (page_addr p /\ p ∉ X /\ own a' ({[p]} ∪ X) (k - 1))) a;
  ph_free a X k p :
    own a X k -> p ∈ X -> wp False (ka_free p) (fun _ a' => own a' (X ∖ {[p]}) k) a
}.

(** The bump heap of [Alloc], started at a page and used for pages only. *)
Definition bump_pages (b : bump) (X : gset Z) (k : Z) : Prop :=
  bump_own b X /\ next b mod PAGE_SIZE = 0 /\ Z.of_nat (budget b) = k /\ next b + k * PAGE_SIZE <= 2 ^ 56.

#[global] Instance bump_page_heap : PageHeap bump bump_pages.
Proof.
  assert (PAGE_SIZE = 4096) as Ep by reflexivity. split.
  - intros b X k ((<- & Hn & HX) & Ha & Hk & Hr). cbn. unfold bump_alloc. apply wp_bind, wp_gets.
    destruct (budget b) as [|n] eqn:E.
    + apply wp_ret. left. split; [done|]. split; [lia|]. split; [by split_and!|]. split_and!; [done|lia|done].
    + apply wp_bind, wp_modify, wp_ret. right. split; [split; [lia|done]|]. split.
      * intros Hin. apply HX in Hin. lia.
      * split; [split_and!; cbn [next live]; [done|lia|]|].
        { intros x [->%elem_of_singleton|Hx]%elem_of_union; [lia|]. apply HX in Hx. lia. }
        cbn [next budget]. rewrite Z.max_r by lia. split; [by rewrite Zplus_mod, Ha, Z_mod_same_full|lia].
  - intros b X k p ((<- & Hn & HX) & Ha & Hk & Hr) Hp. cbn. eapply wp_store; [by rewrite decide_True|].
    split; [|done]. split; [done|]. split; [done|]. cbn. intros x Hx. apply HX. set_solver.
Qed.
