(* ===== verification/PagetableProof.v ===== *)
(** What the page tables mean: a tree of tables represents a finite map from
    page numbers to leaf entries, and the operations implement that map. *)

From stdpp Require Import fin_maps fin_map_dom.
From S2P Require Import Prelude Alloc Pagetable.

(** ** Indices *)

(** The tables that translate [va]: the table of level [l] is found under the
    bits of the address above the index of that level. *)
Definition key (l va : Z) : Z * Z := (l, Z.shiftr va (21 + 9 * l)).

Lemma PX_mod l va : PX l va = Z.shiftr va (12 + 9 * l) mod 512.
Proof. unfold PX, PXSHIFT, PXMASK. change 0x1FF with (2 ^ 9 - 1). by rewrite land_pow2 by lia. Qed.

Lemma PX_range l va : 0 <= PX l va < 512.
Proof. rewrite PX_mod. by apply Z.mod_pos_bound. Qed.

Lemma key_child l va : 0 <= l -> (key l va).2 * 512 + PX l va = Z.shiftr va (12 + 9 * l).
Proof.
  intros Hl. rewrite PX_mod. cbn [key snd]. replace (21 + 9 * l) with (12 + 9 * l + 9) by lia.
  rewrite <- Z.shiftr_shiftr, (Z.shiftr_div_pow2 _ 9) by lia. change (2 ^ 9) with 512.
  pose proof (Z.div_mod (Z.shiftr va (12 + 9 * l)) 512). lia.
Qed.

Lemma key_below l va : 0 < l -> ((l - 1, (key l va).2 * 512 + PX l va) : Z * Z) = key (l - 1) va.
Proof. intros Hl. rewrite key_child by lia. unfold key. do 2 f_equal. lia. Qed.

Definition vpn (va : Z) : Z := Z.shiftr va 12.

Lemma vpn_leaf va : (key 0 va).2 * 512 + PX 0 va = vpn va.
Proof. by apply key_child. Qed.

Lemma key_root va : 0 <= va < 2 ^ 39 -> key 2 va = (2, 0).
Proof. intros Hva. unfold key. f_equal. rewrite Z.shiftr_div_pow2 by lia. apply Z.div_small. lia. Qed.

Lemma vpn_page va i : va mod PAGE_SIZE = 0 -> vpn (va + i * PAGE_SIZE) = vpn va + i.
Proof.
  intros Ha. unfold vpn. rewrite !Z.shiftr_div_pow2 by lia. change (2 ^ 12) with 4096.
  change PAGE_SIZE with 4096 in *. rewrite Z.div_add by lia. done.
Qed.

(** ** Entries *)

Lemma test_V e : negb (Z.land e PTE_V =? 0) = Z.testbit e 0.
Proof.
  change PTE_V with (2 ^ 1 - 1). rewrite land_pow2, <- Z.bit0_mod by lia.
  by destruct (Z.testbit e 0).
Qed.

Lemma test_M e : negb (Z.land e PTE_M =? 0) = Z.testbit e 8.
Proof.
  change PTE_M with (2 ^ 8). rewrite Z.land_comm.
  destruct (Z.testbit e 8) eqn:E.
  - destruct (Z.eqb_spec (Z.land (2 ^ 8) e) 0) as [H|]; [|done].
    assert (Z.testbit (Z.land (2 ^ 8) e) 8 = true) as Ht by (rewrite Z.land_spec, E, Z.pow2_bits_true by lia; done).
    by rewrite H, Z.bits_0 in Ht.
  - apply negb_false_iff, Z.eqb_eq, Z.bits_inj'. intros i Hi. rewrite Z.land_spec, Z.bits_0.
    destruct (decide (i = 8)) as [->|]; [by rewrite E, andb_false_r|]. by rewrite Z.pow2_bits_false by lia.
Qed.

(** An entry with page number [n] and flags [f] below [2^10]. *)
Lemma entry_page n f : 0 <= n < 2 ^ 52 -> 0 <= f < 2 ^ 10 -> PTE2PA (Z.lor (Z.shiftl n 10) f) = n * PAGE_SIZE.
Proof.
  intros Hn Hf. unfold PTE2PA. rewrite Z.shiftr_lor, Z.shiftr_shiftl_l by lia.
  rewrite (Z.shiftr_div_pow2 f), Z.div_small, Z.lor_0_r, Z.sub_diag, Z.shiftl_0_r by lia.
  change PAGE_SHIFT with 12. rewrite Z.shiftl_mul_pow2 by lia. change PAGE_SIZE with (2 ^ 12).
  apply wrap_small. unfold in_width. lia.
Qed.

Lemma PA2PTE_page pa : 0 <= pa < 2 ^ 64 -> pa mod PAGE_SIZE = 0 ->
  exists n, PA2PTE pa = Z.shiftl n 10 /\ pa = n * PAGE_SIZE /\ 0 <= n < 2 ^ 52.
Proof.
  intros Hpa Ha. exists (pa / PAGE_SIZE). change PAGE_SIZE with 4096 in *.
  pose proof (Z.div_mod pa 4096 ltac:(lia)) as Hd. unfold PA2PTE. change PAGE_SHIFT with 12.
  rewrite (Z.shiftr_div_pow2 pa) by lia. change (2 ^ 12) with 4096.
  assert (0 <= pa / 4096 < 2 ^ 52) by (split; [apply Z.div_pos; lia|apply Z.div_lt_upper_bound; lia]).
  split_and!; [|lia|lia|lia]. apply wrap_small. unfold in_width. rewrite Z.shiftl_mul_pow2 by lia. lia.
Qed.

Lemma low_bits n f i : 0 <= i < 10 -> Z.testbit (Z.lor (Z.shiftl n 10) f) i = Z.testbit f i.
Proof. intros Hi. rewrite Z.lor_spec, Z.shiftl_spec_low by lia. done. Qed.

Lemma table_entry t : page_addr t ->
  PTE2PA (Z.lor (PA2PTE t) PTE_V) = t /\ Z.testbit (Z.lor (PA2PTE t) PTE_V) 0 = true.
Proof.
  intros [Ht Ha]. destruct (PA2PTE_page t) as (n & -> & En & Hn); [lia|done|].
  split; [|by rewrite low_bits]. rewrite entry_page by (done || (unfold PTE_V; cbn; lia)). done.
Qed.

(** The entry that [mappages] writes for the page [pa]. *)
Definition leaf_entry (pa perm : Z) : Z := Z.lor (Z.lor (PA2PTE pa) (Z.land perm 0x3f)) PTE_M.

Lemma leaf_entry_page pa perm : 0 <= pa < 2 ^ 64 -> pa mod PAGE_SIZE = 0 -> PTE2PA (leaf_entry pa perm) = pa.
Proof.
  intros Hpa Ha. unfold leaf_entry. destruct (PA2PTE_page pa) as (n & -> & En & Hn); [done|done|].
  rewrite <- Z.lor_assoc, entry_page; [done|done|].
  change 0x3f with (2 ^ 6 - 1). rewrite land_pow2 by lia.
  pose proof (Z.mod_pos_bound perm (2 ^ 6) ltac:(lia)) as Hb. change PTE_M with 256.
  set (x := perm mod 2 ^ 6) in *. clearbody x.
  assert (0 <= Z.lor x 256) as H0 by (apply Z.lor_nonneg; lia).
  destruct (Z.eq_dec (Z.lor x 256) 0) as [->|Hn0]; [lia|]. split; [done|].
  apply Z.log2_lt_pow2; [lia|]. rewrite Z.log2_lor by lia. change (Z.log2 256) with 8.
  destruct (decide (x = 0)) as [->|Hx]; [cbn; lia|]. assert (Z.log2 x < 6) by (apply Z.log2_lt_pow2; lia). lia.
Qed.

Lemma leaf_entry_M pa perm : Z.testbit (leaf_entry pa perm) 8 = true.
Proof. unfold leaf_entry. rewrite Z.lor_spec. change (Z.testbit PTE_M 8) with true. by rewrite orb_true_r. Qed.

Lemma zero_table_lookup i e : zero_table !! i = Some e -> e = 0 /\ (i < 512)%nat.
Proof. unfold zero_table. generalize 512%nat. intros n Hl. by apply lookup_replicate in Hl. Qed.

#[global] Opaque zero_table.

(** ** Representation *)

Section proof.
Context {A : Type} `{KAlloc A} {own : A -> gset Z -> Z -> Prop} {HOk : PageHeap A own}.
Implicit Types s : pgt A.

(** The tables [tab] of the tree by level and position, with the heap.  [X] are
    the other live objects, whose contents are [F]; [K] bounds the positions at
    which tables may ever be needed, and the heap has pages for all of them. *)
Record pt_rep (root : Z) (X : gset Z) (K : gset (Z * Z)) (tab : gmap (Z * Z) Z) (m : gmap Z Z) s : Prop := {
  pr_root : tab !! (2, 0) = Some root;
  pr_own : exists k, own (pt_env s) (X ∪ map_img tab) k /\ Z.of_nat (size K) <= k + Z.of_nat (size tab);
  pr_frame : X ## map_img tab;
  pr_keys : dom tab ⊆ K;
  pr_page l p t : tab !! (l, p) = Some t ->
    0 <= l <= 2 /\ 0 <= p < 2 ^ (9 * (2 - l)) /\ page_addr t /\ exists es, pt_pages s !! t = Some es /\ length es = 512%nat;
  pr_inj a b t : tab !! a = Some t -> tab !! b = Some t -> a = b;
  pr_child l p t es i e : tab !! (l, p) = Some t -> 0 < l -> pt_pages s !! t = Some es -> 0 <= i ->
    es !! Z.to_nat i = Some e ->
    tab !! (l - 1, p * 512 + i) = (if Z.testbit e 0 then Some (PTE2PA e) else None);
  pr_parent l p : is_Some (tab !! (l, p)) -> l < 2 -> is_Some (tab !! (l + 1, p / 512));
  pr_leaf p t es i e : tab !! (0, p) = Some t -> pt_pages s !! t = Some es -> 0 <= i ->
    es !! Z.to_nat i = Some e -> m !! (p * 512 + i) = (if Z.testbit e 8 then Some e else None);
  pr_dom v : is_Some (m !! v) -> is_Some (tab !! (0, v / 512))
}.

Lemma pt_entry root X K tab m s l p t i :
  pt_rep root X K tab m s -> tab !! (l, p) = Some t -> 0 <= i < 512 ->
  exists es e, pt_pages s !! t = Some es /\ length es = 512%nat /\ es !! Z.to_nat i = Some e.
Proof.
  intros R Ht Hi. destruct (pr_page _ _ _ _ _ _ R _ _ _ Ht) as (_ & _ & _ & es & Hes & Hlen).
  destruct (es !! Z.to_nat i) as [e|] eqn:E; [eauto|]. apply lookup_ge_None in E. lia.
Qed.

Lemma wp_get_pte E s t i es e (Q : Z -> pgt A -> Prop) :
  pt_pages s !! t = Some es -> es !! Z.to_nat i = Some e -> Q e s -> wp E (get_pte (t, i)) Q s.
Proof. intros Ht Hi HQ. eapply wp_load; [|exact HQ]. cbn. by rewrite Ht. Qed.

Lemma wp_set_pte E s t i es x (Q : unit -> pgt A -> Prop) :
  pt_pages s !! t = Some es ->
  Q tt (set_pt_pages (<[t := <[Z.to_nat i := x]> es]> (pt_pages s)) s) -> wp E (set_pte (t, i) x) Q s.
Proof. intros Ht HQ. eapply wp_store; [|exact HQ]. cbn. by rewrite Ht. Qed.

(** Quotients and remainders of positions. *)
Lemma position_split q i : 0 <= i < 512 -> (q * 512 + i) / 512 = q /\ (q * 512 + i) mod 512 = i.
Proof.
  intros Hi. rewrite Z.add_comm. split.
  - rewrite Z.div_add, Z.div_small by lia. done.
  - rewrite Z_mod_plus_full. by apply Z.mod_small.
Qed.

Lemma position_inj q i q' i' : 0 <= i < 512 -> 0 <= i' < 512 -> q * 512 + i = q' * 512 + i' -> q = q' /\ i = i'.
Proof. lia. Qed.

(** Filling an empty entry of an inner table with a new, cleared table. *)
Section add_table.
Context (root : Z) (X : gset Z) (K : gset (Z * Z)) (tab : gmap (Z * Z) Z) (m : gmap Z Z) (s : pgt A).
Context (l p tp : Z) (es : list Z) (i e t : Z).
Hypothesis R : pt_rep root X K tab m s.
Hypothesis Htp : tab !! (l, p) = Some tp.
Hypothesis Hl : 0 < l.
Hypothesis Hi : 0 <= i < 512.
Hypothesis Hes : pt_pages s !! tp = Some es.
Hypothesis He : es !! Z.to_nat i = Some e.
Hypothesis Hb : Z.testbit e 0 = false.
Hypothesis Ht : page_addr t.
Hypothesis Hfresh : t ∉ X ∪ map_img tab.

Let new := (l - 1, p * 512 + i).
Let pages' := <[tp := <[Z.to_nat i := Z.lor (PA2PTE t) PTE_V]> es]> (<[t := zero_table]> (pt_pages s)).

Lemma add_table_free : tab !! new = None.
Proof. subst new. rewrite (pr_child _ _ _ _ _ _ R l p tp es i e) by (done || lia). by rewrite Hb. Qed.

Lemma add_table_ne a0 t0 : tab !! a0 = Some t0 -> t0 <> t.
Proof. intros H0 ->. apply Hfresh, elem_of_union. right. by eapply elem_of_map_img_2. Qed.

Lemma add_table_other t0 : t0 <> t -> t0 <> tp -> pages' !! t0 = pt_pages s !! t0.
Proof. intros H1 H2. subst pages'. by rewrite !lookup_insert_ne by done. Qed.

Lemma add_table_new : pages' !! t = Some zero_table.
Proof.
  subst pages'. pose proof (add_table_ne _ _ Htp). rewrite lookup_insert_ne by done. apply lookup_insert_eq.
Qed.

Lemma add_table_page l0 p0 t0 : <[new := t]> tab !! (l0, p0) = Some t0 ->
  0 <= l0 <= 2 /\ 0 <= p0 < 2 ^ (9 * (2 - l0)) /\ page_addr t0 /\ exists es, pages' !! t0 = Some es /\ length es = 512%nat.
Proof.
  intros [[E0 <-]|[Hn0 H0]]%lookup_insert_Some.
  - destruct (pr_page _ _ _ _ _ _ R _ _ _ Htp) as (Hl2 & Hp0 & _). subst new. injection E0 as <- <-. split; [lia|].
    split; [assert (l = 1 \/ l = 2) as [-> | ->] by lia; cbn in Hp0 |- *; lia|]. split; [done|].
    exists zero_table. by rewrite add_table_new.
  - destruct (pr_page _ _ _ _ _ _ R _ _ _ H0) as (? & ? & ? & es0 & Hes0 & Hlen0).
    do 3 (split; [done|]). destruct (decide (t0 = tp)) as [->|Hd].
    + subst pages'. rewrite lookup_insert_eq. eexists. split; [done|]. rewrite length_insert. congruence.
    + rewrite add_table_other by eauto using add_table_ne. eauto.
Qed.

Lemma add_table_inj a0 b0 t0 : <[new := t]> tab !! a0 = Some t0 -> <[new := t]> tab !! b0 = Some t0 -> a0 = b0.
Proof.
  intros [[<- <-]|[Hn0 H0]]%lookup_insert_Some [[<- E]|[Hn1 H1]]%lookup_insert_Some.
  - done.
  - by apply add_table_ne in H1.
  - subst t0. by apply add_table_ne in H0.
  - by eapply R.
Qed.

Lemma add_table_child l0 p0 t0 es0 i0 e0 :
  <[new := t]> tab !! (l0, p0) = Some t0 -> 0 < l0 -> pages' !! t0 = Some es0 -> 0 <= i0 ->
  es0 !! Z.to_nat i0 = Some e0 ->
  <[new := t]> tab !! (l0 - 1, p0 * 512 + i0) = (if Z.testbit e0 0 then Some (PTE2PA e0) else None).
Proof.
  intros [[E0 <-]|[Hn0 H0]]%lookup_insert_Some Hl0 Hes0 Hi0 He0.
  - rewrite add_table_new in Hes0. apply (inj Some) in Hes0 as <-.
    apply zero_table_lookup in He0 as [-> Hi1]. rewrite Z.testbit_0_l. pose proof add_table_free as Hnew.
    subst new. injection E0 as <- <-. rewrite lookup_insert_ne by (intros [= ? ?]; lia).
    destruct (tab !! (l - 1 - 1, _)) as [t1|] eqn:E1; [|done]. exfalso.
    apply mk_is_Some in E1. eapply pr_parent in E1; [|exact R|destruct (pr_page _ _ _ _ _ _ R _ _ _ Htp); lia].
    assert (0 <= i0 < 512) as Hi2 by lia. rewrite (proj1 (position_split _ i0 Hi2)) in E1.
    replace (l - 1 - 1 + 1) with (l - 1) in E1 by lia. rewrite Hnew in E1. by destruct E1.
  - destruct (decide (t0 = tp)) as [->|Hd].
    + assert ((l0, p0) = (l, p)) as [= -> ->] by (by eapply R). subst pages'. rewrite lookup_insert_eq in Hes0.
      injection Hes0 as <-. destruct (decide (Z.to_nat i0 = Z.to_nat i)) as [Ei|Ei].
      * replace i0 with i in * by lia. rewrite list_lookup_insert_eq in He0 by (apply lookup_lt_Some in He; lia).
        injection He0 as <-. destruct (table_entry t Ht) as [-> ->]. apply lookup_insert_eq.
      * rewrite list_lookup_insert_ne in He0 by done. rewrite lookup_insert_ne by (subst new; intros [= ?]; lia).
        by apply (pr_child _ _ _ _ _ _ R l p tp es).
    + rewrite add_table_other in Hes0 by eauto using add_table_ne. rewrite lookup_insert_ne.
      { by apply (pr_child _ _ _ _ _ _ R l0 p0 t0 es0). }
      subst new. intros [= E1 E2]. apply lookup_lt_Some in He0 as Hi1.
      destruct (pr_page _ _ _ _ _ _ R _ _ _ H0) as (_ & _ & _ & ? & ? & Hlen0). simplify_eq.
      assert (p = p0) by lia. assert (l = l0) by lia. subst. congruence.
Qed.

Lemma add_table_parent l0 p0 :
  is_Some (<[new := t]> tab !! (l0, p0)) -> l0 < 2 -> is_Some (<[new := t]> tab !! (l0 + 1, p0 / 512)).
Proof.
  intros Hs Hl0. destruct (decide ((l0, p0) = new)) as [E|Hn0].
  - subst new. injection E as -> ->. replace (l - 1 + 1) with l by lia.
    rewrite (proj1 (position_split p i Hi)). rewrite lookup_insert_ne by (intros [= ?]; lia). by exists tp.
  - rewrite lookup_insert_ne in Hs by done. apply (pr_parent _ _ _ _ _ _ R) in Hs; [|done].
    destruct (decide (new = (l0 + 1, p0 / 512))) as [<-|]; [by rewrite lookup_insert_eq|by rewrite lookup_insert_ne].
Qed.

Lemma add_table_leaf p0 t0 es0 i0 e0 :
  <[new := t]> tab !! (0, p0) = Some t0 -> pages' !! t0 = Some es0 -> 0 <= i0 -> es0 !! Z.to_nat i0 = Some e0 ->
  m !! (p0 * 512 + i0) = (if Z.testbit e0 8 then Some e0 else None).
Proof.
  intros [[E0 <-]|[Hn0 H0]]%lookup_insert_Some Hes0 Hi0 He0.
  - rewrite add_table_new in Hes0. apply (inj Some) in Hes0 as <-.
    apply zero_table_lookup in He0 as [-> Hi1]. rewrite Z.testbit_0_l.
    destruct (m !! _) eqn:Em; [|done]. apply mk_is_Some in Em. eapply pr_dom in Em; [|exact R].
    assert (0 <= i0 < 512) as Hi2 by lia. rewrite (proj1 (position_split _ i0 Hi2)) in Em.
    rewrite <- E0, add_table_free in Em. by destruct Em.
  - destruct (decide (t0 = tp)) as [->|Hd].
    + assert ((0, p0) = (l, p)) as [= ? ?] by (by eapply R). lia.
    + rewrite add_table_other in Hes0 by eauto using add_table_ne. by eapply R.
Qed.

Lemma rep_add_table a :
  (l - 1, p * 512 + i) ∈ K ->
  (exists k, own a ({[t]} ∪ (X ∪ map_img tab)) k /\ Z.of_nat (size K) <= k + 1 + Z.of_nat (size tab)) ->
  pt_rep root X K (<[(l - 1, p * 512 + i) := t]> tab) m
    (PGT (<[tp := <[Z.to_nat i := Z.lor (PA2PTE t) PTE_V]> es]> (<[t := zero_table]> (pt_pages s))) a).
Proof.
  intros HK (k & Ho & Hk). pose proof add_table_free as Hnew.
  assert (map_img (<[new := t]> tab) = {[t]} ∪ map_img tab :> gset Z) as Himg by (by rewrite map_img_insert_notin_L).
  split; cbn [pt_pages pt_env]; fold new pages'.
  - rewrite lookup_insert_ne; [apply R|]. subst new. destruct (pr_page _ _ _ _ _ _ R _ _ _ Htp). intros [= E1 E2]. lia.
  - exists k. rewrite Himg. rewrite map_size_insert_None by done. split; [|lia].
    by replace (X ∪ ({[t]} ∪ map_img tab)) with ({[t]} ∪ (X ∪ map_img tab)) by set_solver.
  - rewrite Himg. pose proof (pr_frame _ _ _ _ _ _ R). set_solver.
  - rewrite dom_insert_L. pose proof (pr_keys _ _ _ _ _ _ R). set_solver.
  - exact add_table_page.
  - exact add_table_inj.
  - exact add_table_child.
  - exact add_table_parent.
  - exact add_table_leaf.
  - intros v Hv. apply (pr_dom _ _ _ _ _ _ R) in Hv. rewrite lookup_insert_is_Some. destruct (decide (new = (0, v / 512))); auto.
Qed.
End add_table.

(** The contents of the other objects are left alone. *)
Definition same_pages (X : gset Z) s s' : Prop := forall t, t ∈ X -> pt_pages s' !! t = pt_pages s !! t.

(** Writing an entry of a leaf table. *)
Lemma rep_set_leaf root X K tab m s p t es i x m' :
  pt_rep root X K tab m s -> tab !! (0, p) = Some t -> 0 <= i < 512 -> pt_pages s !! t = Some es ->
  (forall v, m' !! v = if decide (v = p * 512 + i) then (if Z.testbit x 8 then Some x else None) else m !! v) ->
  pt_rep root X K tab m' (set_pt_pages (<[t := <[Z.to_nat i := x]> es]> (pt_pages s)) s) /\
  same_pages X s (set_pt_pages (<[t := <[Z.to_nat i := x]> es]> (pt_pages s)) s).
Proof.
  intros R Ht Hi Hes Hm. destruct (pr_page _ _ _ _ _ _ R _ _ _ Ht) as (_ & Hp & _ & es' & Hes' & Hlen).
  assert (es' = es) as -> by congruence.
  assert (forall l q t0, tab !! (l, q) = Some t0 -> (l, q) <> (0, p) -> t0 <> t) as Hne.
  { intros l q t0 H0 Hn ->. apply Hn. by eapply R. }
  split.
  - split; cbn [set_pt_pages pt_pages pt_env]; try apply R.
    + intros l q t0 H0. destruct (pr_page _ _ _ _ _ _ R _ _ _ H0) as (? & ? & ? & es0 & Hes0 & ?).
      do 3 (split; [done|]). destruct (decide (t0 = t)) as [->|].
      * rewrite lookup_insert_eq. eexists. split; [done|]. by rewrite length_insert.
      * rewrite lookup_insert_ne by done. eauto.
    + intros l q t0 es0 i0 e0 H0 Hl0 Hes0. rewrite lookup_insert_ne in Hes0.
      { by apply (pr_child _ _ _ _ _ _ R l q t0 es0). }
      apply not_eq_sym. eapply Hne; [exact H0|]. intros [= ? ?]. lia.
    + intros q t0 es0 i0 e0 H0 Hes0 Hi0 He0. rewrite Hm. destruct (decide (t0 = t)) as [->|Hn].
      * assert ((0, q) = (0, p)) as [= ->] by (by eapply R). rewrite lookup_insert_eq in Hes0. injection Hes0 as <-.
        destruct (decide (i0 = i)) as [->|Hni].
        -- rewrite list_lookup_insert_eq in He0 by lia. injection He0 as <-. by rewrite decide_True.
        -- rewrite list_lookup_insert_ne in He0 by lia. rewrite decide_False by lia. by eapply R.
      * rewrite lookup_insert_ne in Hes0 by done. rewrite decide_False; [by eapply R|].
        intros E. apply Hn. apply lookup_lt_Some in He0.
        destruct (pr_page _ _ _ _ _ _ R _ _ _ H0) as (_ & _ & _ & es1 & Hes1 & Hlen1). simplify_eq.
        assert (q = p) as -> by lia. congruence.
    + intros v. rewrite Hm. destruct (decide _) as [->|]; [|apply R]. intros _.
      rewrite (proj1 (position_split p i Hi)). eauto.
  - intros t0 H0. cbn. apply lookup_insert_ne. intros ->. eapply (pr_frame _ _ _ _ _ _ R); [done|].
    by eapply elem_of_map_img_2.
Qed.

(** *** [va2pte] *)

(** Without allocation: the entry of the leaf table, if there is one. *)
Lemma va2pte_loop_find root X K tab m s va n : forall t,
  pt_rep root X K tab m s -> (n <= 2)%nat -> tab !! key (Z.of_nat n) va = Some t ->
  va2pte_loop n t va false s = Ok ((fun t => (t, PX 0 va)) <$> tab !! key 0 va, s).
Proof.
  induction n as [|n IH]; intros t R Hn Ht; cbn [va2pte_loop].
  { change (Z.of_nat 0) with 0 in Ht. by rewrite Ht. }
  destruct (pt_entry _ _ _ _ _ _ _ _ _ (PX (Z.of_nat (S n)) va) R Ht (PX_range _ _)) as (es & e & Hes & Hlen & He).
  pose proof (pr_child _ _ _ _ _ _ R _ _ _ _ _ _ Ht ltac:(lia) Hes (proj1 (PX_range _ _)) He) as Hc.
  change (Z.shiftr va (21 + 9 * Z.of_nat (S n))) with (key (Z.of_nat (S n)) va).2 in Hc.
  rewrite key_below in Hc by lia. replace (Z.of_nat (S n) - 1) with (Z.of_nat n) in Hc by lia.
  rewrite (bind_Ok _ _ _ e s) by (unfold get_pte, load; cbn [fst snd]; by rewrite Hes; cbn; rewrite He).
  rewrite test_V. destruct (Z.testbit e 0).
  - apply IH; [done|lia|done].
  - cbn [negb]. unfold ret. do 2 f_equal. destruct (tab !! key 0 va) as [t0|] eqn:E0; [|done]. exfalso.
    assert (forall k : nat, (k <= n)%nat -> is_Some (tab !! key (Z.of_nat k) va)) as Hup.
    { intros k. induction k as [|k IHk]; intros Hk; [by exists t0|].
      assert (is_Some (tab !! key (Z.of_nat k) va)) as Hs by (apply IHk; lia).
      eapply pr_parent in Hs; [|exact R|lia]. unfold key at 1.
      replace (Z.of_nat (S k)) with (Z.of_nat k + 1) by lia.
      replace (Z.shiftr va (21 + 9 * (Z.of_nat k + 1))) with (Z.shiftr va (21 + 9 * Z.of_nat k) / 512); [done|].
      change 512 with (2 ^ 9). rewrite <- Z.shiftr_div_pow2, Z.shiftr_shiftr by lia. f_equal. lia. }
    specialize (Hup n (le_n n)). rewrite Hc in Hup. by destruct Hup.
Qed.

Lemma va2pte_find root X K tab m s va :
  pt_rep root X K tab m s -> 0 <= va < 2 ^ 39 ->
  va2pte root va false s = Ok ((fun t => (t, PX 0 va)) <$> tab !! key 0 va, s).
Proof.
  intros R Hva. eapply va2pte_loop_find; [done|lia|]. rewrite key_root by done. apply R.
Qed.

(** With allocation: the tables of the path exist afterwards. *)
Definition path_in (K : gset (Z * Z)) (va : Z) : Prop := key 1 va ∈ K /\ key 0 va ∈ K.

Lemma wp_kzalloc_page root X K tab m s (Q : Z -> pgt A -> Prop) k0 :
  pt_rep root X K tab m s -> k0 ∈ K -> tab !! k0 = None ->
  (forall t a, page_addr t -> t ∉ X ∪ map_img tab ->
     (exists k, own a ({[t]} ∪ (X ∪ map_img tab)) k /\ Z.of_nat (size K) <= k + 1 + Z.of_nat (size tab)) ->
     Q t (PGT (<[t := zero_table]> (pt_pages s)) a)) ->
  wp False kzalloc_page Q s.
Proof.
  intros R HK Hn HQ. destruct (pr_own _ _ _ _ _ _ R) as (k & Ho & Hk). unfold kzalloc_page.
  assert (0 < k) as Hpos.
  { assert (size tab < size K)%nat; [|lia]. rewrite <- size_dom. apply subset_size. split; [apply R|].
    intros Hsub. apply Hsub, elem_of_dom in HK. rewrite Hn in HK. by destruct HK. }
  apply wp_bind, wp_lift. eapply wp_mono; [by apply ph_alloc|done|]. intros t a [(_ & ? & _)|(Ht & Hf & Ha)]; [lia|].
  destruct (Z.eqb_spec t NULL) as [->|_]; [destruct Ht; unfold NULL in *; lia|].
  apply wp_bind, wp_modify, wp_ret. cbn. apply HQ; [done|done|]. exists (k - 1). split; [done|lia].
Qed.

Lemma va2pte_loop_alloc root X K m va n : forall tab t s,
  pt_rep root X K tab m s -> path_in K va -> (n <= 2)%nat -> tab !! key (Z.of_nat n) va = Some t ->
  wp False (va2pte_loop n t va true)
    (fun r s' => exists tab' t0, r = Some (t0, PX 0 va) /\ pt_rep root X K tab' m s' /\ same_pages X s s' /\
                   tab' !! key 0 va = Some t0) s.
Proof.
  induction n as [|n IH]; intros tab t s R HK Hn Ht; cbn [va2pte_loop].
  { apply wp_ret. exists tab, t. by split_and!. }
  destruct (pt_entry _ _ _ _ _ _ _ _ _ (PX (Z.of_nat (S n)) va) R Ht (PX_range _ _)) as (es & e & Hes & Hlen & He).
  pose proof (pr_child _ _ _ _ _ _ R _ _ _ _ _ _ Ht ltac:(lia) Hes (proj1 (PX_range _ _)) He) as Hc.
  change (Z.shiftr va (21 + 9 * Z.of_nat (S n))) with (key (Z.of_nat (S n)) va).2 in Hc.
  assert ((Z.of_nat (S n) - 1, (key (Z.of_nat (S n)) va).2 * 512 + PX (Z.of_nat (S n)) va) = key (Z.of_nat n) va) as Ek.
  { rewrite key_below by lia. f_equal. lia. }
  rewrite Ek in Hc. apply wp_bind. eapply wp_get_pte; [exact Hes|exact He|]. rewrite test_V.
  destruct (Z.testbit e 0) eqn:EV; [apply (IH tab); [done|done|lia|done]|].
  assert (key (Z.of_nat n) va ∈ K) as HKn by (destruct HK; destruct n as [|[|n]]; [done|done|lia]).
  apply wp_bind. eapply wp_kzalloc_page; [exact R|exact HKn|exact Hc|]. intros t' a Ht' Hfresh Ha.
  destruct (Z.eqb_spec t' NULL) as [->|_]; [destruct Ht'; unfold NULL in *; lia|].
  assert (t <> t') as Hneq. { intros ->. apply Hfresh, elem_of_union. right. by eapply elem_of_map_img_2. }
  apply wp_bind. eapply wp_set_pte; [cbn [pt_pages]; by rewrite lookup_insert_ne|].
  assert (0 < Z.of_nat (S n)) as Hpos by lia.
  pose proof (rep_add_table _ _ _ _ _ _ _ _ _ _ _ _ _ R Ht Hpos (PX_range _ _) Hes He EV Ht' Hfresh a) as R'.
  change (Z.shiftr va (21 + 9 * Z.of_nat (S n))) with (key (Z.of_nat (S n)) va).2 in R'. rewrite Ek in R'. specialize (R' HKn Ha).
  eapply wp_mono; [eapply IH; [exact R'|done|lia|apply lookup_insert_eq]|done|].
  intros r s' (tab' & t0 & -> & R2 & Hsame & Ht0). exists tab', t0. split; [done|]. split; [done|]. split; [|done].
  intros u Hu. rewrite Hsame by done. cbn. rewrite !lookup_insert_ne; [done| |].
  - intros ->. apply Hfresh. set_solver.
  - intros ->. eapply (pr_frame _ _ _ _ _ _ R); [exact Hu|]. by eapply elem_of_map_img_2.
Qed.

(** ** The address space

    A page number is mapped to a frame and its permissions. *)

Definition frames_ok (am : gmap Z (Z * Z)) : Prop :=
  forall v f, am !! v = Some f -> 0 <= f.1 < 2 ^ 64 /\ f.1 mod PAGE_SIZE = 0.

Definition entries (am : gmap Z (Z * Z)) : gmap Z Z := (fun f => leaf_entry f.1 f.2) <$> am.

Definition pt_as (root : Z) X K (am : gmap Z (Z * Z)) s : Prop :=
  frames_ok am /\ exists tab, pt_rep root X K tab (entries am) s.

(** The leaf entry of a page, once its table is known. *)
Lemma leaf_of root X K tab am s va t :
  pt_rep root X K tab (entries am) s -> tab !! key 0 va = Some t ->
  exists es e, pt_pages s !! t = Some es /\ es !! Z.to_nat (PX 0 va) = Some e /\
    Z.testbit e 8 = bool_decide (is_Some (am !! vpn va)) /\
    (forall f, am !! vpn va = Some f -> e = leaf_entry f.1 f.2).
Proof.
  intros R Ht. destruct (pt_entry _ _ _ _ _ _ _ _ _ (PX 0 va) R Ht (PX_range _ _)) as (es & e & Hes & Hlen & He).
  exists es, e. split; [done|]. split; [done|].
  pose proof (pr_leaf _ _ _ _ _ _ R _ _ _ _ _ Ht Hes (proj1 (PX_range _ _)) He) as Hm.
  change (Z.shiftr va (21 + 9 * 0)) with (key 0 va).2 in Hm. rewrite vpn_leaf in Hm.
  unfold entries in Hm. rewrite lookup_fmap in Hm. destruct (am !! vpn va) as [f|]; cbn [fmap option_fmap option_map] in Hm.
  - rewrite bool_decide_true by eauto. destruct (Z.testbit e 8) eqn:Eb; [|done]. split; [done|].
    intros f' [= <-]. congruence.
  - rewrite bool_decide_false by (by intros []). destruct (Z.testbit e 8) eqn:Eb; [done|]. by split.
Qed.

Lemma no_leaf root X K tab am s va :
  pt_rep root X K tab (entries am) s -> tab !! key 0 va = None -> am !! vpn va = None.
Proof.
  intros R Hn. destruct (am !! vpn va) as [f|] eqn:E; [|done]. exfalso.
  assert (is_Some (entries am !! vpn va)) as Hs by (unfold entries; rewrite lookup_fmap, E; eauto).
  eapply pr_dom in Hs; [|exact R]. rewrite <- vpn_leaf in Hs.
  rewrite (proj1 (position_split _ _ (PX_range 0 va))) in Hs. unfold key in Hn, Hs. cbn [snd] in Hs.
  rewrite Hn in Hs. by destruct Hs.
Qed.

Lemma entries_set am am' v x :
  (forall w, am' !! w = if decide (w = v) then x else am !! w) -> forall e,
  (if Z.testbit e 8 then Some e else None) = ((fun f : Z * Z => leaf_entry f.1 f.2) <$> x) -> forall w,
  entries am' !! w = if decide (w = v) then (if Z.testbit e 8 then Some e else None) else entries am !! w.
Proof. intros Ha e He w. unfold entries. rewrite !lookup_fmap, Ha. case_decide; [by rewrite He|done]. Qed.

Lemma set_leaf_as root X K tab am am' s va t es e x :
  pt_rep root X K tab (entries am) s -> tab !! key 0 va = Some t -> pt_pages s !! t = Some es -> frames_ok am' ->
  (forall w, am' !! w = if decide (w = vpn va) then x else am !! w) ->
  (if Z.testbit e 8 then Some e else None) = ((fun f : Z * Z => leaf_entry f.1 f.2) <$> x) ->
  wp False (set_pte (t, PX 0 va) e) (fun _ s' => pt_as root X K am' s' /\ same_pages X s s') s.
Proof.
  intros R Ht Hes Hf Ha He. eapply wp_set_pte; [exact Hes|].
  edestruct (rep_set_leaf root X K tab (entries am) s (key 0 va).2 t es (PX 0 va) e (entries am')) as [R' Hs];
    [exact R|exact Ht|apply PX_range|exact Hes| |].
  - rewrite vpn_leaf. by eapply entries_set.
  - split; [|done]. split; [done|]. by exists tab.
Qed.

(** *** Translation *)

Definition translation (am : gmap Z (Z * Z)) (va : Z) : Z :=
  if VM_END <=? va then 0 else match am !! vpn va with Some f => f.1 | None => 0 end.

Lemma walkaddr_spec root X K am s va :
  pt_as root X K am s -> 0 <= va -> walkaddr root va s = Ok (translation am va, s).
Proof.
  intros (Hf & tab & R) Hva. unfold walkaddr, translation. destruct (Z.leb_spec VM_END va) as [|Hlt]; [done|].
  change VM_END with (2 ^ 38) in Hlt. rewrite (bind_Ok _ _ _ _ _ (va2pte_find _ _ _ _ _ _ va R ltac:(lia))).
  destruct (tab !! key 0 va) as [t|] eqn:Et; cbn [fmap option_fmap option_map].
  - destruct (leaf_of _ _ _ _ _ _ _ _ R Et) as (es & e & Hes & He & Hb & Hl).
    rewrite (bind_Ok _ _ _ e s) by (unfold get_pte, load; cbn [fst snd]; by rewrite Hes; cbn; rewrite He).
    pose proof (test_M e) as HM. rewrite Hb in HM. destruct (am !! vpn va) as [f|] eqn:Ef.
    + rewrite bool_decide_true in HM by eauto. apply negb_true_iff in HM. rewrite HM. rewrite (Hl f eq_refl).
      apply Hf in Ef as [? ?]. by rewrite leaf_entry_page.
    + rewrite bool_decide_false in HM by (by intros []). apply negb_false_iff in HM. by rewrite HM.
  - by rewrite (no_leaf _ _ _ _ _ _ _ R Et).
Qed.

Lemma page_offset p va : 0 <= p -> p mod PAGE_SIZE = 0 -> Z.lor p (Z.land va 0xFFF) = p + va mod PAGE_SIZE.
Proof.
  intros Hp Ha. change 0xFFF with (2 ^ 12 - 1). rewrite land_pow2 by lia. change PAGE_SIZE with (2 ^ 12) in *.
  assert (p = Z.shiftl (p / 2 ^ 12) 12) as ->.
  { rewrite Z.shiftl_mul_pow2 by lia. pose proof (Z.div_mod p (2 ^ 12)). lia. }
  assert (Z.land (Z.shiftl (p / 2 ^ 12) 12) (va mod 2 ^ 12) = 0) as H0.
  { apply Z.bits_inj'. intros i Hi. rewrite Z.land_spec, Z.bits_0.
    destruct (Z.ltb_spec i 12); [by rewrite Z.shiftl_spec_low by lia|].
    rewrite Z.mod_pow2_bits_high by lia. by rewrite andb_false_r. }
  rewrite Z.add_nocarry_lxor by done. by rewrite Z.lxor_lor.
Qed.

(** *** Mapping and unmapping *)

(** [am'] is [am] with [n] pages from [va] mapped to the frames from [pa]. *)
Definition mapped_range (am : gmap Z (Z * Z)) (va pa perm n : Z) (am' : gmap Z (Z * Z)) : Prop :=
  forall w, am' !! w = if decide (vpn va <= w < vpn va + n)
                       then Some (pa + (w - vpn va) * PAGE_SIZE, perm) else am !! w.

Definition unmapped_range (am : gmap Z (Z * Z)) (v n : Z) (am' : gmap Z (Z * Z)) : Prop :=
  forall w, am' !! w = if decide (v <= w < v + n) then None else am !! w.

(** The pages are mapped, or the first [k] of them and the next one was mapped
    already. *)
Definition map_spec am va pa perm n r am' : Prop :=
  (r = 0 /\ (forall j, 0 <= j < n -> am !! (vpn va + j) = None) /\ mapped_range am va pa perm n am') \/
  (r = - EADDRINUSE /\ exists k, 0 <= k < n /\ is_Some (am !! (vpn va + k)) /\
     (forall j, 0 <= j < k -> am !! (vpn va + j) = None) /\ mapped_range am va pa perm k am').

Lemma same_pages_refl X s : same_pages X s s.
Proof. by intros t _. Qed.

Lemma same_pages_trans X s1 s2 s3 : same_pages X s1 s2 -> same_pages X s2 s3 -> same_pages X s1 s3.
Proof. intros H1 H2 t Ht. by rewrite H2, H1. Qed.

(** One more page of the range. *)
Lemma mapped_next am va pa perm i am1 am2 :
  mapped_range am va pa perm i am1 -> 0 <= i ->
  (forall w, am2 !! w = if decide (w = vpn va + i) then Some (pa + i * PAGE_SIZE, perm) else am1 !! w) ->
  mapped_range am va pa perm (i + 1) am2.
Proof.
  intros Hm Hi Ha w. rewrite Ha, Hm. repeat destruct (decide _); try lia; [|done|done]. subst w.
  do 3 f_equal. lia.
Qed.

Lemma page_multiple a i : a mod PAGE_SIZE = 0 -> (a + i * PAGE_SIZE) mod PAGE_SIZE = 0.
Proof. intros Ha. by rewrite Z_mod_plus_full. Qed.

Lemma frames_ok_insert am am' v p perm :
  frames_ok am -> 0 <= p < 2 ^ 64 -> p mod PAGE_SIZE = 0 ->
  (forall w, am' !! w = if decide (w = v) then Some (p, perm) else am !! w) -> frames_ok am'.
Proof. intros Hf Hp Ha He w f. rewrite He. destruct (decide _); [intros [= <-]; by split|apply Hf]. Qed.

(** [0x3f] masks the permissions once. *)
Lemma leaf_entry_mask pa perm : leaf_entry pa (Z.land perm 0x3f) = leaf_entry pa perm.
Proof. unfold leaf_entry. by rewrite <- Z.land_assoc, Z.land_diag. Qed.

Lemma map_loop_spec root X K va pa perm n am : forall k i am1 s,
  n = i + Z.of_nat k -> pt_as root X K am1 s -> 0 <= i -> 0 <= va -> va mod PAGE_SIZE = 0 ->
  va + n * PAGE_SIZE <= VM_END -> 0 <= pa -> pa mod PAGE_SIZE = 0 -> pa + n * PAGE_SIZE < 2 ^ 64 ->
  (forall j, 0 <= j < n -> path_in K (va + j * PAGE_SIZE)) ->
  mapped_range am va pa perm i am1 -> (forall j, 0 <= j < i -> am !! (vpn va + j) = None) ->
  perm = Z.land perm 0x3f ->
  wp False (map_loop k root va pa perm i)
    (fun r s' => exists am', map_spec am va pa perm n r am' /\ pt_as root X K am' s' /\ same_pages X s s') s.
Proof.
  assert (PAGE_SIZE = 4096) as Ep by reflexivity.
  induction k as [|k IH]; intros i am1 s -> (Hf & tab & R) Hi Hva Hal Hvm Hpa Hpal Hpm HK Hm Hfree Hperm; cbn [map_loop].
  { apply wp_ret. exists am1. replace (i + Z.of_nat 0) with i in * by lia. split; [by left|]. split; [by split; [|exists tab]|apply same_pages_refl]. }
  change VM_END with (2 ^ 38) in Hvm.
  rewrite (wrap_small 64 (va + i * PAGE_SIZE)) by (unfold in_width; nia).
  rewrite (wrap_small 64 (pa + i * PAGE_SIZE)) by (unfold in_width; nia).
  apply wp_bind. eapply wp_mono.
  { unfold va2pte. eapply (va2pte_loop_alloc root X K _ (va + i * PAGE_SIZE) 2 tab root); [exact R|apply HK; lia|lia|].
    change (Z.of_nat 2) with 2. rewrite key_root by nia. apply R. }
  { done. }
  intros r s1 (tab1 & t & -> & R1 & Hs1 & Ht).
  destruct (leaf_of _ _ _ _ _ _ _ _ R1 Ht) as (es & e & Hes & He & Hb & Hl).
  apply wp_bind. eapply wp_get_pte; [exact Hes|exact He|]. rewrite test_M, Hb, vpn_page by done.
  assert (am1 !! (vpn va + i) = am !! (vpn va + i)) as Ei by (rewrite Hm, decide_False by lia; done).
  destruct (bool_decide_reflect (is_Some (am1 !! (vpn va + i)))) as [Hs|Hs].
  - apply wp_ret. exists am1. split; [|split; [split; [done|by exists tab1]|done]].
    right. split; [done|]. exists i. rewrite Ei in Hs. split; [lia|]. done.
  - apply eq_None_not_Some in Hs. rewrite Ei in Hs.
    set (am2 := <[vpn va + i := (pa + i * PAGE_SIZE, perm)]> am1).
    assert (forall w, am2 !! w = if decide (w = vpn va + i) then Some (pa + i * PAGE_SIZE, perm) else am1 !! w) as Ha2.
    { intros w. subst am2. rewrite lookup_insert. by repeat destruct (decide _). }
    assert (0 <= pa + i * PAGE_SIZE < 2 ^ 64) as Hfr by nia.
    eapply wp_bind_mono.
    { eapply (set_leaf_as root X K tab1 am1 am2 s1 (va + i * PAGE_SIZE) t es _ (Some (pa + i * PAGE_SIZE, perm)));
        [exact R1|exact Ht|exact Hes| | |].
      - eapply frames_ok_insert; [exact Hf|exact Hfr|by apply page_multiple|exact Ha2].
      - intros w. by rewrite vpn_page.
      - assert (Z.lor (Z.lor (PA2PTE (pa + i * PAGE_SIZE)) perm) PTE_M = leaf_entry (pa + i * PAGE_SIZE) perm) as ->
          by (unfold leaf_entry; by rewrite <- Hperm).
        by rewrite leaf_entry_M. }
    intros [] s2 [Has2 Hs2]. eapply wp_mono.
    { eapply (IH (i + 1) am2 s2); try done; try lia.
      - by apply (mapped_next _ _ _ _ _ am1).
      - intros j Hj. destruct (decide (j = i)) as [->|]; [done|apply Hfree; lia]. }
    { done. }
    intros r s3 (am' & Hspec & Has & Hs3). exists am'. split; [done|].
    split; [done|]. by eapply same_pages_trans, same_pages_trans.
Qed.

Lemma unmapped_next am v i am1 am2 :
  unmapped_range am v i am1 -> 0 <= i ->
  (forall w, am2 !! w = if decide (w = v + i) then None else am1 !! w) -> unmapped_range am v (i + 1) am2.
Proof. intros Hm Hi Ha w. rewrite Ha, Hm. repeat destruct (decide _); try lia; done. Qed.

(** The [i]-th iteration of the loop of [unmappages]. *)
Lemma unmap_one root X K am s a :
  pt_as root X K am s -> 0 <= a < 2 ^ 39 ->
  wp False (let! pte := va2pte root a false in
            match pte with
            | None => ret tt
            | Some pte => let! e := get_pte pte in if negb (Z.land e PTE_M =? 0) then set_pte pte 0 else ret tt
            end)
    (fun _ s' => pt_as root X K (delete (vpn a) am) s' /\ same_pages X s s') s.
Proof.
  intros (Hf & tab & R) Ha.
  assert (forall w, delete (vpn a) am !! w = if decide (w = vpn a) then None else am !! w) as Hd.
  { intros w. rewrite lookup_delete. by repeat destruct (decide _). }
  assert (frames_ok (delete (vpn a) am)) as Hf'.
  { intros w f. rewrite Hd. destruct (decide _); [done|apply Hf]. }
  apply wp_bind. eapply wp_run; [by eapply va2pte_find|].
  destruct (tab !! key 0 a) as [t|] eqn:Et; cbn [fmap option_fmap option_map].
  - destruct (leaf_of _ _ _ _ _ _ _ _ R Et) as (es & e & Hes & He & Hb & Hl).
    apply wp_bind. eapply wp_get_pte; [exact Hes|exact He|]. rewrite test_M, Hb.
    destruct (bool_decide_reflect (is_Some (am !! vpn a))) as [Hs|Hs].
    + eapply (set_leaf_as root X K tab am (delete (vpn a) am) s a t es 0 None); done.
    + apply wp_ret. apply eq_None_not_Some in Hs. rewrite delete_id by done. split; [|apply same_pages_refl].
      split; [done|by exists tab].
  - apply wp_ret. rewrite delete_id by (by eapply no_leaf). split; [split; [done|by exists tab]|apply same_pages_refl].
Qed.

Lemma wp_assoc {B C D} E (m0 : ST (pgt A) B) (k : B -> ST (pgt A) C) (l : C -> ST (pgt A) D) Q s :
  wp E (bind (bind m0 k) l) Q s -> wp E (bind m0 (fun x => bind (k x) l)) Q s.
Proof. unfold wp. by rewrite bind_assoc. Qed.

Lemma unmap_loop_spec root X K start n am : forall fuel i am1 s,
  n = i + Z.of_nat fuel -> pt_as root X K am1 s -> 0 <= i -> 0 <= start -> start mod PAGE_SIZE = 0 ->
  start + n * PAGE_SIZE <= 2 ^ 39 -> unmapped_range am (vpn start) i am1 ->
  wp False (unmap_loop fuel root (start + i * PAGE_SIZE) (start + n * PAGE_SIZE))
    (fun r s' => r = 0 /\ exists am', unmapped_range am (vpn start) n am' /\ pt_as root X K am' s' /\ same_pages X s s') s.
Proof.
  assert (PAGE_SIZE = 4096) as Ep by reflexivity.
  induction fuel as [|fuel IH]; intros i am1 s -> Has Hi Hst Hal Hend Hm; cbn [unmap_loop].
  - replace (i + Z.of_nat 0) with i in * by lia. rewrite Z.ltb_irrefl. apply wp_ret. split; [done|].
    exists am1. split; [done|]. split; [done|apply same_pages_refl].
  - destruct (Z.ltb_spec (start + i * PAGE_SIZE) (start + (i + Z.of_nat (S fuel)) * PAGE_SIZE)) as [_|]; [|nia].
    cbn [negb]. apply wp_assoc.
    eapply wp_bind_mono; [eapply unmap_one; [exact Has|nia]|]. intros [] s1 [Has1 Hs1].
    rewrite (wrap_small 64) by (unfold in_width; nia).
    replace (start + i * PAGE_SIZE + PAGE_SIZE) with (start + (i + 1) * PAGE_SIZE) by lia.
    eapply wp_mono; [eapply (IH (i + 1) _ s1); [lia|exact Has1|lia|done|done|done|]|done|].
    + eapply unmapped_next; [exact Hm|done|]. intros w. rewrite lookup_delete, vpn_page by done.
      by repeat destruct (decide _).
    + intros r s2 (-> & am' & Hu & Has' & Hs2). split; [done|]. exists am'. split; [done|]. split; [done|].
      by eapply same_pages_trans.
Qed.

End proof.
