(* ===== verification/PagetableTop.v ===== *)
(** Sessions on a page table: creation, any sequence of mappings, unmappings
    and translations, and destruction. *)

From stdpp Require Import fin_maps fin_map_dom.
From S2P Require Import Prelude Alloc Pagetable PagetableProof.

(** ** Operations and their specification *)

Inductive pt_op := PMap (va pa npages perm : Z) | PUnmap (va npages : Z) | PTranslate (va : Z).

Definition run_pt_op {A} `{KAlloc A} (root : Z) (o : pt_op) : ST (pgt A) Z :=
  match o with
  | PMap va pa npages perm => mappages root va pa npages perm
  | PUnmap va npages => unmappages root va npages
  | PTranslate va => va2pa root va
  end.

Fixpoint run_pt_ops {A} `{KAlloc A} (root : Z) (l : list pt_op) : ST (pgt A) (list Z) :=
  match l with
  | [] => ret []
  | o :: l => let! r := run_pt_op root o in let! rs := run_pt_ops root l in ret (r :: rs)
  end.

Definition pt_session {A} `{KAlloc A} (l : list pt_op) : ST (pgt A) (list Z) :=
  let! root := pagetable_create in
  let! rs := run_pt_ops root l in
  do! pagetable_destroy root in
  ret rs.

(** The address a translation gives; 0 stands for a page that is not mapped
    (and also for the frame 0). *)
Definition physical (am : gmap Z (Z * Z)) (va : Z) : Z :=
  let page := translation am va in if page =? 0 then 0 else page + va mod PAGE_SIZE.

Definition pt_op_spec (am : gmap Z (Z * Z)) (o : pt_op) (r : Z) (am' : gmap Z (Z * Z)) : Prop :=
  match o with
  | PMap va pa n perm =>
      if negb (bool_decide (va mod PAGE_SIZE = 0 /\ pa mod PAGE_SIZE = 0)) then r = - EINVAL /\ am' = am
      else if n =? 0 then r = 0 /\ am' = am
      else if (VM_END <? va + n * PAGE_SIZE) || (PM_END <? pa + n * PAGE_SIZE) then r = - ERANGE /\ am' = am
      else map_spec am va pa (Z.land perm 0x3f) n r am'
  | PUnmap va n => r = 0 /\ unmapped_range am (vpn va) n am'
  | PTranslate va => r = physical am va /\ am' = am
  end.

Inductive pt_ops_spec : gmap Z (Z * Z) -> list pt_op -> list Z -> gmap Z (Z * Z) -> Prop :=
  | pt_ops_nil am : pt_ops_spec am [] [] am
  | pt_ops_cons am o l r rs am1 am2 :
      pt_op_spec am o r am1 -> pt_ops_spec am1 l rs am2 -> pt_ops_spec am (o :: l) (r :: rs) am2.

(** Arguments whose sums fit 64 bits; [K] has the positions of the tables that
    the mappings within the address space need. *)
Definition pt_op_ok (K : gset (Z * Z)) (o : pt_op) : Prop :=
  match o with
  | PMap va pa n perm =>
      0 <= va /\ 0 <= pa /\ 0 <= n /\ va + n * PAGE_SIZE < 2 ^ 64 /\ pa + n * PAGE_SIZE < 2 ^ 64 /\
      (va + n * PAGE_SIZE <= VM_END -> forall j, 0 <= j < n -> path_in K (va + j * PAGE_SIZE))
  | PUnmap va n => 0 <= va /\ 0 <= n /\ va + n * PAGE_SIZE <= 2 ^ 39
  | PTranslate va => in_width 64 va
  end.

Section proof.
Context {A : Type} `{KAlloc A} {own : A -> gset Z -> Z -> Prop} {HOk : PageHeap A own}.
Implicit Types s : pgt A.
Abbreviation pt_as := (pt_as (own := own)).
Abbreviation pt_rep := (pt_rep (own := own)).

Lemma page_size_64 : PAGE_SIZE = 2 ^ 12. Proof. reflexivity. Qed.

Lemma PAGE_ALIGNED_mod a : in_width 64 a -> PAGE_ALIGNED a = bool_decide (a mod PAGE_SIZE = 0).
Proof.
  intros Ha. apply eq_true_iff_eq. rewrite bool_decide_eq_true. unfold PAGE_ALIGNED. rewrite page_size_64.
  by apply ALIGNED_pow2.
Qed.

Lemma pt_root root X K am s : pt_as root X K am s -> root <> NULL.
Proof.
  intros (_ & tab & R). destruct (pr_page _ _ _ _ _ _ R _ _ _ (pr_root _ _ _ _ _ _ R)) as (_ & _ & [? _] & _).
  unfold NULL. lia.
Qed.

Lemma mappages_spec root X K am s va pa n perm :
  pt_as root X K am s -> pt_op_ok K (PMap va pa n perm) ->
  wp False (mappages root va pa n perm)
    (fun r s' => exists am', pt_op_spec am (PMap va pa n perm) r am' /\ pt_as root X K am' s' /\ same_pages X s s') s.
Proof.
  intros Has (Hva & Hpa & Hn & Hvn & Hpn & HK). assert (PAGE_SIZE = 4096) as Ep by reflexivity.
  unfold mappages. destruct (Z.eqb_spec root NULL) as [->|_]; [by apply pt_root in Has|].
  rewrite !PAGE_ALIGNED_mod by (unfold in_width; nia). cbn [pt_op_spec].
  rewrite bool_decide_and, negb_andb.
  destruct (negb (bool_decide (va mod PAGE_SIZE = 0)) || negb (bool_decide (pa mod PAGE_SIZE = 0))) eqn:Eal.
  { apply wp_ret. exists am. split; [done|]. split; [done|apply same_pages_refl]. }
  destruct (Z.eqb_spec n 0) as [->|Hn0].
  { apply wp_ret. exists am. split; [done|]. split; [done|apply same_pages_refl]. }
  rewrite !wrap_small by (unfold in_width; nia).
  destruct (Z.ltb_spec VM_END (va + n * PAGE_SIZE)) as [|Hvm]; cbn [orb].
  { apply wp_ret. exists am. split; [done|]. split; [done|apply same_pages_refl]. }
  destruct (Z.ltb_spec PM_END (pa + n * PAGE_SIZE)) as [|Hpm].
  { apply wp_ret. exists am. split; [done|]. split; [done|apply same_pages_refl]. }
  apply orb_false_iff in Eal as [Ev%negb_false_iff%bool_decide_eq_true Epa%negb_false_iff%bool_decide_eq_true].
  eapply (map_loop_spec root X K va pa (Z.land perm 0x3f) n am (Z.to_nat n) 0 am); try done; try lia.
  - by apply HK.
  - intros w. rewrite decide_False by lia. done.
  - by rewrite <- Z.land_assoc, Z.land_diag.
Qed.

Lemma unmappages_spec root X K am s va n :
  pt_as root X K am s -> pt_op_ok K (PUnmap va n) ->
  wp False (unmappages root va n)
    (fun r s' => exists am', pt_op_spec am (PUnmap va n) r am' /\ pt_as root X K am' s' /\ same_pages X s s') s.
Proof.
  intros Has (Hva & Hn & Hend). assert (PAGE_SIZE = 4096) as Ep by reflexivity.
  assert (PAGE_ALIGN_DOWN va = va - va mod PAGE_SIZE) as Ea.
  { unfold PAGE_ALIGN_DOWN. rewrite page_size_64. apply ALIGN_DOWN_pow2; unfold in_width; nia. }
  pose proof (Z.mod_pos_bound va PAGE_SIZE ltac:(lia)) as Hb.
  pose proof (Z.div_mod va PAGE_SIZE ltac:(lia)) as Hd.
  assert (va - va mod PAGE_SIZE = va / PAGE_SIZE * PAGE_SIZE) as Es by lia.
  assert (vpn (va - va mod PAGE_SIZE) = vpn va) as Ev.
  { unfold vpn. rewrite !Z.shiftr_div_pow2 by lia. rewrite <- page_size_64. by rewrite Es, Z.div_mul by lia. }
  unfold unmappages. rewrite Ea, (wrap_small 64) by (unfold in_width; nia). set (start := va - va mod PAGE_SIZE) in *.
  replace (start) with (start + 0 * PAGE_SIZE) at 1 by lia.
  eapply wp_mono; [eapply (unmap_loop_spec root X K start n am (Z.to_nat n) 0 am); try done; try lia|done|].
  - rewrite Es. apply Z.mod_mul. lia.
  - intros w. rewrite decide_False by lia. done.
  - intros r s' (-> & am' & Hu & Has' & Hs). exists am'. rewrite Ev in Hu. by split.
Qed.

Lemma va2pa_spec root X K am s va :
  pt_as root X K am s -> 0 <= va -> va2pa root va s = Ok (physical am va, s).
Proof.
  intros Has Hva. unfold va2pa, physical. rewrite (bind_Ok _ _ _ _ _ (walkaddr_spec _ _ _ _ _ _ Has Hva)).
  destruct (Z.eqb_spec (translation am va) 0) as [|Hn]; [done|]. destruct Has as (Hf & _).
  rewrite page_offset; [done| |]; unfold translation in *; destruct (VM_END <=? va); try done;
    destruct (am !! vpn va) as [f|] eqn:E; try done; apply Hf in E; lia.
Qed.

Lemma pt_op_correct root X K am s o :
  pt_as root X K am s -> pt_op_ok K o ->
  wp False (run_pt_op root o)
    (fun r s' => exists am', pt_op_spec am o r am' /\ pt_as root X K am' s' /\ same_pages X s s') s.
Proof.
  intros Has Ho. destruct o as [va pa n perm|va n|va]; cbn [run_pt_op].
  - by apply mappages_spec.
  - by apply unmappages_spec.
  - eapply wp_run; [eapply va2pa_spec; [exact Has|by destruct Ho]|]. exists am. split; [done|]. split; [done|apply same_pages_refl].
Qed.

Lemma pt_ops_correct root X K l : forall am s,
  pt_as root X K am s -> Forall (pt_op_ok K) l ->
  wp False (run_pt_ops root l)
    (fun rs s' => exists am', pt_ops_spec am l rs am' /\ pt_as root X K am' s' /\ same_pages X s s') s.
Proof.
  induction l as [|o l IH]; intros am s Has Hl; cbn [run_pt_ops].
  - apply wp_ret. exists am. split; [constructor|]. split; [done|apply same_pages_refl].
  - apply Forall_cons in Hl as [Ho Hl]. eapply wp_bind_mono; [by eapply pt_op_correct|].
    intros r s1 (am1 & H1 & Has1 & Hs1). eapply wp_bind_mono; [by eapply IH|].
    intros rs s2 (am2 & H2 & Has2 & Hs2). apply wp_ret. exists am2. split; [by econstructor|]. split; [done|].
    by eapply same_pages_trans.
Qed.

(** *** Creation *)

Lemma pagetable_create_spec X K k s :
  own (pt_env s) X k -> (2, 0) ∈ K -> Z.of_nat (size K) <= k ->
  wp False pagetable_create (fun root s' => pt_as root X K ∅ s' /\ same_pages X s s') s.
Proof.
  intros Ho HK Hk. assert (0 < k) as Hpos.
  { assert (size K <> 0%nat); [|lia]. intros E%size_empty_inv. set_solver. }
  unfold pagetable_create, kzalloc_page. apply wp_bind, wp_lift. eapply wp_mono; [by apply ph_alloc|done|].
  intros t a [(_ & ? & _)|(Ht & Hf & Ha)]; [lia|].
  destruct (Z.eqb_spec t NULL) as [->|_]; [destruct Ht; unfold NULL in *; lia|].
  apply wp_bind, wp_modify, wp_ret. cbn. split.
  2: { intros u Hu. cbn. apply lookup_insert_ne. by intros ->. }
  split; [by intros v f; rewrite lookup_empty|]. exists {[ (2, 0) := t ]}.
  assert (map_img ({[ (2, 0) := t ]} : gmap (Z * Z) Z) = ({[t]} : gset Z)) as Himg by apply map_img_singleton_L.
  split; cbn [pt_pages pt_env set_pt_pages set_pt_env].
  - apply lookup_singleton_eq.
  - exists (k - 1). rewrite Himg, map_size_singleton. rewrite (union_comm_L X). split; [done|lia].
  - rewrite Himg. set_solver.
  - rewrite dom_singleton_L. set_solver.
  - intros l p t0 [[= <- <-] <-]%lookup_singleton_Some. split; [lia|]. split; [cbn; lia|]. split; [done|].
    exists zero_table. by rewrite lookup_insert_eq.
  - intros x y t0 [<- _]%lookup_singleton_Some [<- _]%lookup_singleton_Some. done.
  - intros l p t0 es i e [[= <- <-] <-]%lookup_singleton_Some _ Hes Hi He.
    rewrite lookup_insert_eq in Hes. apply (inj Some) in Hes as <-. apply zero_table_lookup in He as [-> _].
    rewrite Z.testbit_0_l. by apply lookup_singleton_ne.
  - intros l p [? [[= <- <-] _]%lookup_singleton_Some] ?. lia.
  - intros p t0 es i e [[= ] _]%lookup_singleton_Some.
  - intros v [? Hv]. unfold entries in Hv. rewrite fmap_empty in Hv. by rewrite lookup_empty in Hv.
Qed.

(** *** Destruction *)

(** The positions below [(l, p)], itself included. *)
Definition below (l p : Z) (k : Z * Z) : Prop := k.1 <= l /\ Z.shiftr k.2 (9 * (l - k.1)) = p.

(** The positions below the first [j] entries of the table [(l, p)]. *)
Definition below_entries (l p j : Z) (k : Z * Z) : Prop :=
  k.1 <= l - 1 /\ p * 512 <= Z.shiftr k.2 (9 * (l - 1 - k.1)) < p * 512 + j.

(** The tables at the positions that satisfy [P]. *)
Definition at_positions (tab : gmap (Z * Z) Z) (P : Z * Z -> Prop) (a : Z) : Prop :=
  exists k, tab !! k = Some a /\ P k.

(** The objects [P] are freed: they are live in [L] and not in [L']. *)
Definition freed (P : Z -> Prop) (s s' : pgt A) (L L' : gset Z) : Prop :=
  (forall a, a ∈ L' <-> a ∈ L /\ ~ P a) /\ (forall a, ~ P a -> pt_pages s' !! a = pt_pages s !! a).

Lemma shiftr_split x n i : 0 <= n -> 0 <= i < 512 -> forall p,
  Z.shiftr x n = p * 512 + i -> Z.shiftr x (9 + n) = p.
Proof.
  intros Hn Hi p E. rewrite Z.add_comm, <- Z.shiftr_shiftr, E, Z.shiftr_div_pow2 by lia.
  apply (position_split p i Hi).
Qed.

(** A table below [(l, p)] is that table or below one of its entries. *)
Lemma below_split l p k : 0 <= k.1 <= 2 -> 0 < l -> below l p k <-> k = (l, p) \/ below_entries l p 512 k.
Proof.
  intros Hk Hl. destruct k as [l' x]. unfold below, below_entries. cbn [fst snd] in *.
  destruct (decide (l' = l)) as [->|Hn].
  - rewrite Z.sub_diag, Z.shiftr_0_r. split; [intros [_ ->]; by left|intros [[= ->]|[? _]]; [done|lia]].
  - replace (9 * (l - l')) with (9 * (l - 1 - l') + 9) by lia. split.
    + intros [Hl' E]. right. split; [lia|]. rewrite <- Z.shiftr_shiftr, Z.shiftr_div_pow2 in E by lia.
      change (2 ^ 9) with 512 in E. pose proof (Z.div_mod (Z.shiftr x (9 * (l - 1 - l'))) 512 ltac:(lia)) as Hd.
      pose proof (Z.mod_pos_bound (Z.shiftr x (9 * (l - 1 - l'))) 512 ltac:(lia)). lia.
    + intros [[= ? ?]|[Hl' E]]; [lia|]. split; [lia|]. rewrite Z.add_comm.
      apply (shiftr_split x _ (Z.shiftr x (9 * (l - 1 - l')) - p * 512)); lia.
Qed.

Lemma below_entries_next l p j k : 0 <= j ->
  below_entries l p (j + 1) k <-> below_entries l p j k \/ below (l - 1) (p * 512 + j) k.
Proof. intros Hj. unfold below_entries, below. lia. Qed.

Lemma at_or (tab : gmap (Z * Z) Z) (P Q R : Z * Z -> Prop) a :
  (forall k, is_Some (tab !! k) -> P k <-> Q k \/ R k) ->
  at_positions tab P a <-> at_positions tab Q a \/ at_positions tab R a.
Proof.
  intros HP. split.
  - intros (k & Hk & Hp). apply HP in Hp as [?|?]; [left; by exists k|right; by exists k|by exists a].
  - intros [(k & Hk & Hp)|(k & Hk & Hp)]; exists k; (split; [done|apply HP; eauto]).
Qed.

(** A table has its ancestors. *)
Lemma ancestor root X K tab m s k : pt_rep root X K tab m s -> is_Some (tab !! k) ->
  forall n : nat, k.1 + Z.of_nat n <= 2 -> is_Some (tab !! (k.1 + Z.of_nat n, Z.shiftr k.2 (9 * Z.of_nat n))).
Proof.
  intros R Hk n. induction n as [|n IH]; intros Hn.
  - rewrite Z.add_0_r, Z.shiftr_0_r. by destruct k.
  - replace (9 * Z.of_nat (S n)) with (9 * Z.of_nat n + 9) by lia. rewrite <- Z.shiftr_shiftr, Z.shiftr_div_pow2 by lia.
    replace (k.1 + Z.of_nat (S n)) with (k.1 + Z.of_nat n + 1) by lia.
    eapply pr_parent; [exact R|apply IH; lia|lia].
Qed.

Lemma no_table_below root X K tab m s l p k :
  pt_rep root X K tab m s -> l <= 2 -> tab !! (l, p) = None -> below l p k -> tab !! k = None.
Proof.
  intros R Hl Hn [Hk Hp]. destruct (tab !! k) as [a|] eqn:E; [|done]. exfalso.
  assert (0 <= k.1) as Hk0. { destruct k. eapply pr_page in E; [|exact R]. cbn. lia. }
  assert (is_Some (tab !! k)) as Hs by eauto.
  eapply (ancestor _ _ _ _ _ _ _ R) with (n := Z.to_nat (l - k.1)) in Hs; [|lia].
  rewrite Z2Nat.id in Hs by lia. replace (k.1 + (l - k.1)) with l in Hs by lia. rewrite Hp, Hn in Hs. by destruct Hs.
Qed.

Lemma wp_kfree_page s L k p (Q : unit -> pgt A -> Prop) :
  own (pt_env s) L k -> p ∈ L ->
  (forall s', own (pt_env s') (L ∖ {[p]}) k -> freed (fun a => a = p) s s' L (L ∖ {[p]}) -> Q tt s') ->
  wp False (kfree_page p) Q s.
Proof.
  intros Ho Hp HQ. unfold kfree_page. apply wp_bind, wp_lift. eapply wp_mono; [by apply ph_free|done|].
  intros [] a Ha. apply wp_modify. apply HQ; [exact Ha|]. split; [set_solver|]. intros u Hu. cbn.
  by apply lookup_delete_ne.
Qed.

Lemma freed_more (P P' R : Z -> Prop) s s1 s2 (L L1 L2 : gset Z) :
  freed P s s1 L L1 -> freed P' s1 s2 L1 L2 -> (forall a, R a <-> P a \/ P' a) -> freed R s s2 L L2.
Proof.
  intros [H1 E1] [H2 E2] HR. split; intros a.
  - rewrite H2, H1, HR. tauto.
  - rewrite HR. intros Ha. rewrite E2, E1 by tauto. done.
Qed.

Lemma freed_none (P : Z -> Prop) s L : (forall a, ~ P a) -> freed P s s L L.
Proof. intros HP. split; [intros a; split; [|tauto]; intros; split; [done|apply HP]|done]. Qed.

(** What [pagetable_destroy_level] does to the table at [(n, p)]. *)
Definition destroys tab s0 (n : nat) : Prop := forall p t s L k,
  tab !! (Z.of_nat n, p) = Some t -> own (pt_env s) L k ->
  (forall a, at_positions tab (below (Z.of_nat n) p) a -> a ∈ L /\ pt_pages s !! a = pt_pages s0 !! a) ->
  wp False (pagetable_destroy_level n t)
    (fun _ s' => exists L', own (pt_env s') L' k /\ freed (at_positions tab (below (Z.of_nat n) p)) s s' L L') s.

(** The loop over the entries of the table [t] at [(l, p)]. *)
Lemma destroy_entries root X K tab m s0 n p t s L k :
  pt_rep root X K tab m s0 -> destroys tab s0 n -> (n <= 1)%nat ->
  let l := Z.of_nat (S n) in tab !! (l, p) = Some t -> own (pt_env s) L k ->
  (forall a, at_positions tab (below l p) a -> a ∈ L /\ pt_pages s !! a = pt_pages s0 !! a) ->
  wp False (for_up 512 0 (fun i =>
             let! pte := get_pte (t, i) in
             if negb (Z.land pte PTE_V =? 0) then pagetable_destroy_level n (PTE2PA pte) else ret tt))
    (fun _ s' => exists L', own (pt_env s') L' k /\ freed (at_positions tab (below_entries l p 512)) s s' L L') s.
Proof.
  intros R IH Hn l Ht Ho HL. subst l. set (l := Z.of_nat (S n)) in *.
  assert (l - 1 = Z.of_nat n) as El by lia.
  assert (forall k', is_Some (tab !! k') -> 0 <= k'.1 <= 2) as Hlev.
  { intros [l' p'] [a Ha]. eapply pr_page in Ha; [|exact R]. cbn. lia. }
  assert (forall k' j, is_Some (tab !! k') -> 0 <= j <= 512 -> below_entries l p j k' -> below l p k') as Hsub.
  { intros k' j Hs Hj Hb. apply below_split; [by apply Hlev|lia|]. right. unfold below_entries in *. lia. }
  assert (at_positions tab (below l p) t) as Hat.
  { exists (l, p). split; [done|]. split; cbn [fst snd]; [lia|]. by rewrite Z.sub_diag, Z.shiftr_0_r. }
  eapply wp_mono; [eapply (wp_for_up False (fun j s' => exists L', own (pt_env s') L' k /\
    freed (at_positions tab (below_entries l p j)) s s' L L'))| |]; cbn beta.
  - intros j s1 Hj (L1 & Ho1 & Hf1). change (0 + Z.of_nat 512) with 512 in Hj.
    destruct (pt_entry _ _ _ _ _ _ _ _ _ j R Ht ltac:(lia)) as (es & e & Hes & Hlen & He).
    assert (pt_pages s1 !! t = Some es) as Hes1.
    { rewrite (proj2 Hf1), (proj2 (HL t Hat)); [done|].
      intros (k' & Hk' & Hb). assert (k' = (l, p)) as -> by (by eapply R). destruct Hb as [Hb _]. cbn in Hb. lia. }
    apply wp_bind. eapply wp_get_pte; [exact Hes1|exact He|]. rewrite test_V.
    pose proof (pr_child _ _ _ _ _ _ R _ _ _ _ _ _ Ht ltac:(lia) Hes (proj1 Hj) He) as Hc. rewrite El in Hc.
    assert (forall a, at_positions tab (below_entries l p (j + 1)) a <->
      at_positions tab (below_entries l p j) a \/ at_positions tab (below (Z.of_nat n) (p * 512 + j)) a) as Hnext.
    { intros a. apply at_or. intros k' _. rewrite <- El. apply below_entries_next. lia. }
    destruct (Z.testbit e 0).
    + eapply wp_mono; [apply (IH _ _ s1 L1 k Hc Ho1)|done|].
      * intros a (k' & Hk' & Hb).
        assert (below_entries l p (j + 1) k') as Hb' by (apply below_entries_next; [lia|]; right; by rewrite El).
        destruct (HL a) as [Ha1 Ha2]; [exists k'; split; [done|]; apply (Hsub k' (j + 1)); [eauto|lia|exact Hb']|].
        assert (~ at_positions tab (below_entries l p j) a) as Hna.
        { intros (k2 & Hk2 & Hb2). assert (k2 = k') as -> by (by eapply R). rewrite <- El in Hb. destruct Hb, Hb2. lia. }
        split; [by apply (proj1 Hf1)|]. by rewrite (proj2 Hf1).
      * intros [] s2 (L2 & Ho2 & Hf2). exists L2. split; [done|]. by eapply freed_more.
    + apply wp_ret. exists L1. split; [done|]. eapply freed_more; [exact Hf1|apply (freed_none (fun _ => False)); tauto|].
      intros a. rewrite Hnext. split; [intros [?|(k' & Hk' & Hb)]; [by left|]|tauto]. exfalso.
      assert (tab !! k' = None) by (eapply (no_table_below root X K tab m s0 (Z.of_nat n)); [exact R|lia|exact Hc|exact Hb]). congruence.
  - exists L. split; [done|]. apply freed_none. intros a (k' & _ & _ & Hb). lia.
  - done.
  - intros [] s' Hs'. exact Hs'.
Qed.

Lemma destroy_level_spec root X K tab m s0 : pt_rep root X K tab m s0 -> forall n, (n <= 2)%nat -> destroys tab s0 n.
Proof.
  intros R. induction n as [|n IH]; intros Hn p t s L k Ht Ho HL.
  all: assert (t <> NULL) as Hnull by (destruct (pr_page _ _ _ _ _ _ R _ _ _ Ht) as (_ & _ & [? _] & _); unfold NULL; lia).
  - cbn [pagetable_destroy_level]. destruct (Z.eqb_spec t NULL); [done|]. apply wp_bind, wp_ret.
    assert (forall a, at_positions tab (below 0 p) a <-> a = t) as Hone.
    { intros a. split.
      - intros ([l' x] & Hk & Hl & Hx). cbn [fst snd] in *. destruct (pr_page _ _ _ _ _ _ R _ _ _ Hk) as (Hl' & _).
        assert (l' = 0) as -> by lia. rewrite Z.sub_diag, Z.shiftr_0_r in Hx. subst x.
        change (Z.of_nat 0) with 0 in Ht. congruence.
      - intros ->. exists (0, p). split; [done|]. split; cbn; [lia|apply Z.shiftr_0_r]. }
    eapply wp_kfree_page; [exact Ho|by apply HL, Hone|]. intros s' Ho' Hf. exists (L ∖ {[t]}). split; [done|].
    eapply freed_more; [exact Hf|apply (freed_none (fun _ => False)); tauto|]. intros a. rewrite Hone. tauto.
  - cbn [pagetable_destroy_level]. destruct (Z.eqb_spec t NULL); [done|].
    eapply wp_bind_mono; [eapply (destroy_entries root X K tab m s0 n p t s L k); [exact R|apply IH; lia|lia|done|done|done]|].
    intros [] s1 (L1 & Ho1 & Hf1). set (l := Z.of_nat (S n)) in *.
    assert (forall a, at_positions tab (below l p) a <-> at_positions tab (below_entries l p 512) a \/ a = t) as Hall.
    { intros a. rewrite (at_or tab (below l p) (below_entries l p 512) (fun k => k = (l, p))).
      - split; (intros [?|Ha]; [by left|right]).
        + destruct Ha as (k' & Hk' & ->). congruence.
        + subst a. by exists (l, p).
      - intros [l' x] [a' Ha']. eapply pr_page in Ha'; [|exact R]. rewrite below_split by (cbn; lia). tauto. }
    assert (t ∈ L1) as Ht1.
    { apply (proj1 Hf1). split; [apply HL, Hall; by right|]. intros (k' & Hk' & Hb & _).
      assert (k' = (l, p)) as -> by (by eapply R). cbn in Hb. lia. }
    eapply wp_kfree_page; [exact Ho1|exact Ht1|]. intros s2 Ho2 Hf2. exists (L1 ∖ {[t]}). split; [done|].
    eapply freed_more; [exact Hf1|exact Hf2|exact Hall].
Qed.

(** Destruction frees all tables and nothing else. *)
Lemma pagetable_destroy_spec root X K am s :
  pt_as root X K am s ->
  wp False (pagetable_destroy root) (fun _ s' => (exists k, own (pt_env s') X k) /\ same_pages X s s') s.
Proof.
  intros Has. unfold pagetable_destroy. destruct (Z.eqb_spec root NULL) as [->|_]; [by apply pt_root in Has|].
  destruct Has as (_ & tab & R). destruct (pr_own _ _ _ _ _ _ R) as (k & Ho & _).
  assert (forall a, at_positions tab (below 2 0) a <-> a ∈ (map_img tab : gset Z)) as Hall.
  { intros a. rewrite elem_of_map_img. split; [intros (k' & Hk & _); by exists k'|].
    intros ([l x] & Hk). exists (l, x). split; [done|]. eapply pr_page in Hk as (Hl & Hx & _); [|exact R].
    split; cbn [fst snd]; [lia|]. rewrite Z.shiftr_div_pow2 by lia. by apply Z.div_small. }
  eapply wp_mono; [eapply (destroy_level_spec _ _ _ _ _ _ R 2 ltac:(lia) 0 root s _ k); [apply R|exact Ho|]|done|].
  - intros a Ha%Hall. split; [set_solver|done].
  - intros [] s' (L' & Ho' & Hf). change (Z.of_nat 2) with 2 in Hf. pose proof (pr_frame _ _ _ _ _ _ R) as Hd. split.
    + exists k. replace X with L'; [done|]. apply set_eq. intros a. rewrite (proj1 Hf), Hall. set_solver.
    + intros a Ha. apply Hf. rewrite Hall. set_solver.
Qed.

(** [C28] A page table implements an address space: in a session that creates a
    table, runs any mappings, unmappings and translations and destroys the
    table, mappings are refused for misaligned addresses ([-EINVAL]) and beyond
    the ends ([-ERANGE]), enter every page of the range with its frame and
    permissions or stop at the first page that is mapped already
    ([-EADDRINUSE], the pages before it mapped), unmapping removes the pages of
    its range, translations give the frame of the page plus the offset, or 0.
    Every loop ends, all tables are freed, once, and no other object of the heap
    is touched.  The heap must have a page for every table the mappings need
    ([K] holds their positions), since [mappages] does not test for failure. *)
Theorem pagetable_refines X K k l s :
  own (pt_env s) X k -> (2, 0) ∈ K -> Z.of_nat (size K) <= k -> Forall (pt_op_ok K) l ->
  wp False (pt_session l)
    (fun rs s' => (exists am, pt_ops_spec ∅ l rs am) /\ (exists k', own (pt_env s') X k') /\ same_pages X s s') s.
Proof.
  intros Ho HK Hk Hl. unfold pt_session. eapply wp_bind_mono; [by eapply pagetable_create_spec|].
  intros root s1 [Has1 Hs1]. eapply wp_bind_mono; [by eapply pt_ops_correct|].
  intros rs s2 (am & Hspec & Has2 & Hs2). eapply wp_bind_mono; [by eapply pagetable_destroy_spec|].
  intros [] s3 [Ho3 Hs3]. apply wp_ret. split; [by exists am|]. split; [done|].
  by eapply same_pages_trans; [|eapply same_pages_trans].
Qed.

End proof.

(** A count whose size in bytes does not fit 64 bits passes the range checks. *)
Lemma mappages_count_wraps {A} `{KAlloc A} root perm (s : pgt A) :
  root <> NULL -> mappages root 0 0 (2 ^ 52) perm s = map_loop (Z.to_nat (2 ^ 52)) root 0 0 (Z.land perm 0x3f) 0 s.
Proof.
  intros Hr. unfold mappages. destruct (Z.eqb_spec root NULL); [done|].
  change (negb (PAGE_ALIGNED 0) || negb (PAGE_ALIGNED 0)) with false. change (2 ^ 52 =? 0) with false.
  change (VM_END <? u64 (0 + 2 ^ 52 * PAGE_SIZE)) with false. change (PM_END <? u64 (0 + 2 ^ 52 * PAGE_SIZE)) with false.
  done.
Qed.

(** Without a page for a table that is missing, [mappages] dereferences null. *)
Lemma mappages_out_of_memory :
  pt_session [PMap 0x1000 0x80001000 1 3] (PGT ∅ (Bump 4096 1 ∅)) = Fault.
Proof. vm_compute. reflexivity. Qed.

Lemma pagetable_refines_witness :
  let l := [PMap 0x1000 0x80001000 2 3; PTranslate 0x1234; PMap 0x0 0x80004000 2 3; PUnmap 0x2000 1; PTranslate 0x2000] in
  wp False (pt_session l)
    (fun rs s' => (exists am, pt_ops_spec ∅ l rs am) /\ (exists k', bump_pages (pt_env s') ∅ k') /\
                  same_pages ∅ (PGT ∅ (Bump 4096 3 ∅)) s') (PGT ∅ (Bump 4096 3 ∅)).
Proof.
  intros l. apply (pagetable_refines (own := bump_pages) ∅ {[ (2, 0); (1, 0); (0, 0) ]} 3).
  - split; [split; [reflexivity|split; [reflexivity|intros x Hx; by apply elem_of_empty in Hx]]|].
    split; [reflexivity|split; [reflexivity|vm_compute; discriminate]].
  - set_solver.
  - vm_compute. discriminate.
  - repeat apply List.Forall_cons; [..|apply List.Forall_nil]; cbn; unfold in_width;
      repeat split; try (vm_compute; discriminate); try (vm_compute; reflexivity).
    all: intros; assert (j = 0 \/ j = 1) as [-> | ->] by lia; vm_compute; set_solver.
Defined.
