(* ===== verification/Vm.v ===== *)
(** The address space of the kernel, [src/mm/vm.c].

    The boundaries of the kernel image are symbols of the linker: they are the
    class [KernelImage], and [KernelImageOk] states what the linker script
    ([scripts/kernel.ld]) guarantees about them.  [kvminit] returns the root
    table and the value that it writes to the register [satp]. *)

From stdpp Require Import fin_maps fin_map_dom.
From S2P Require Import Prelude Alloc Pagetable PagetableProof PagetableTop.

Class KernelImage := {
  s_text : Z; e_text : Z; s_rodata : Z; e_rodata : Z; s_data : Z; e_bss : Z; k_end : Z; trampoline : Z
}.

Definition SATP_SV39 : Z := u64 (Z.shiftl 8 60).
Definition MAKE_SATP (pagetable : Z) : Z := Z.lor SATP_SV39 (Z.shiftr pagetable 12).

Section vm.
Context `{KernelImage} {A : Type} `{KAlloc A}.

Definition KVM (pa : Z) : Z := pa.

(** [(perm & ~PTE_U) | PTE_V]. *)
Definition kmappages (pagetable va pa npages perm : Z) : ST (pgt A) Z :=
  mappages pagetable va pa npages (Z.lor (and_not perm PTE_U) PTE_V).

(** [if (kmappages(...)) panic(...)]. *)
Definition kmap_or_panic (pagetable va pa npages perm : Z) : ST (pgt A) unit :=
  let! r := kmappages pagetable va pa npages perm in
  if negb (r =? 0) then panic else ret tt.

Definition devminit (kpagetable : Z) : ST (pgt A) unit :=
  kmap_or_panic kpagetable 0 0 (PM_START / PAGE_SIZE) (Z.lor PTE_R PTE_W).

Definition kvminit : ST (pgt A) (Z * Z) :=
  let! kpagetable := pagetable_create in
  do! devminit kpagetable in
  do! kmap_or_panic kpagetable (KVM s_text) s_text (u64 (e_text - s_text) / PAGE_SIZE) (Z.lor PTE_R PTE_X) in
  do! kmap_or_panic kpagetable (KVM s_rodata) s_rodata (u64 (e_rodata - s_rodata) / PAGE_SIZE) PTE_R in
  do! kmap_or_panic kpagetable (KVM s_data) s_data (u64 (e_bss - s_data) / PAGE_SIZE) (Z.lor PTE_R PTE_W) in
  do! kmap_or_panic kpagetable TRAMPOLINE trampoline 1 (Z.lor (Z.lor PTE_R PTE_X) PTE_G) in
  do! kmap_or_panic kpagetable (KVM k_end) k_end (u64 (PM_END - k_end) / PAGE_SIZE) (Z.lor PTE_R PTE_W) in
  ret (kpagetable, MAKE_SATP kpagetable).

End vm.

(** ** Specification *)

(** The linker script aligns every section to a page and places them in order. *)
Class KernelImageOk `{KernelImage} : Prop := {
  image_pages : Forall (fun a => a mod PAGE_SIZE = 0)
                  [s_text; e_text; s_rodata; e_rodata; s_data; e_bss; k_end; trampoline];
  image_order : PM_START <= s_text <= e_text /\ e_text <= s_rodata <= e_rodata /\
                e_rodata <= s_data <= e_bss /\ e_bss <= k_end <= PM_END;
  image_trampoline : PM_START <= trampoline < PM_END
}.

Section spec.
Context `{KernelImage}.

(** What the page [v] of the kernel's address space is mapped to. *)
Definition kernel_frame (v : Z) : option (Z * Z) :=
  let RX := Z.lor (Z.lor PTE_V PTE_R) PTE_X in
  let RW := Z.lor (Z.lor PTE_V PTE_R) PTE_W in
  if decide (0 <= v < vpn PM_START) then Some (v * PAGE_SIZE, RW)
  else if decide (vpn s_text <= v < vpn e_text) then Some (v * PAGE_SIZE, RX)
  else if decide (vpn s_rodata <= v < vpn e_rodata) then Some (v * PAGE_SIZE, Z.lor PTE_V PTE_R)
  else if decide (vpn s_data <= v < vpn e_bss) then Some (v * PAGE_SIZE, RW)
  else if decide (vpn k_end <= v < vpn PM_END) then Some (v * PAGE_SIZE, RW)
  else if decide (v = vpn TRAMPOLINE) then Some (trampoline, Z.lor RX PTE_G)
  else None.

(** The positions of the tables: the root, those of the RAM and the devices
    below it, and those of the trampoline. *)
Definition kernel_tables : list (Z * Z) :=
  (2, 0) :: (1, 255) :: (0, 2 ^ 17 - 1) :: map (pair 1) (seqZ 0 3) ++ map (pair 0) (seqZ 0 1088).

End spec.

Lemma kernel_tables_size : (size (list_to_set kernel_tables : gset (Z * Z)) <= 1094)%nat.
Proof.
  transitivity (length kernel_tables); [|by vm_compute].
  generalize kernel_tables. intros l. induction l as [|x l IH]; cbn [list_to_set length]; [by rewrite size_empty|].
  rewrite size_union_alt. rewrite size_singleton. assert (size (list_to_set l ∖ {[x]} : gset (Z * Z)) <= size (list_to_set l : gset (Z * Z)))%nat
    by (apply subseteq_size; set_solver). lia.
Qed.

Lemma kernel_tables_path va : va mod PAGE_SIZE = 0 -> 0 <= va < PM_END \/ va = TRAMPOLINE ->
  path_in (list_to_set kernel_tables) va.
Proof.
  intros Ha Hva. unfold path_in, key. rewrite !elem_of_list_to_set. unfold kernel_tables.
  rewrite !Z.shiftr_div_pow2 by lia. change (2 ^ (21 + 9 * 1)) with 1073741824. change (2 ^ (21 + 9 * 0)) with 2097152.
  destruct Hva as [Hva| ->]; [|by split; [do 1 right; left|do 2 right; left]].
  change PM_END with 2281701376 in Hva.
  split; do 3 right; apply elem_of_app; [left|right]; apply list_elem_of_fmap; eexists; (split; [reflexivity|]);
    apply elem_of_seqZ; (split; [apply Z.div_pos; lia|apply Z.div_lt_upper_bound; lia]).
Qed.

Section proof.
Context `{KernelImage} {HI : KernelImageOk}.
Context {A : Type} `{KAlloc A} {own : A -> gset Z -> Z -> Prop} {HOk : PageHeap A own}.
Implicit Types s : pgt A.
Abbreviation pt_as := (pt_as (own := own)).
Abbreviation tables := (list_to_set kernel_tables : gset (Z * Z)).

Definition kperm (perm : Z) : Z := Z.land (Z.lor (and_not perm PTE_U) PTE_V) 0x3f.

(** One region, not mapped yet. *)
Lemma kmap_spec root X am s va pa n perm :
  pt_as root X tables am s -> va mod PAGE_SIZE = 0 -> pa mod PAGE_SIZE = 0 -> 0 <= va -> 0 <= pa -> 0 <= n ->
  va + n * PAGE_SIZE <= PM_END \/ va = TRAMPOLINE /\ n = 1 -> pa + n * PAGE_SIZE <= PM_END ->
  (forall j, 0 <= j < n -> am !! (vpn va + j) = None) ->
  wp False (kmap_or_panic root va pa n perm)
    (fun _ s' => exists am', mapped_range am va pa (kperm perm) n am' /\ pt_as root X tables am' s' /\ same_pages X s s') s.
Proof.
  intros Has Hva Hpa Hv0 Hp0 Hn0 Hend Hpend Hfree. unfold kmap_or_panic, kmappages.
  change PAGE_SIZE with 4096 in *. change PM_END with 2281701376 in *. change TRAMPOLINE with 274877902848 in *.
  eapply wp_bind_mono.
  { eapply mappages_spec; [exact Has|]. cbn [pt_op_ok]. change PAGE_SIZE with 4096.
    do 3 (split; [done|]). split; [lia|]. split; [lia|]. intros _ j Hj. change PAGE_SIZE with 4096.
    apply kernel_tables_path; [change PAGE_SIZE with 4096; by rewrite Z_mod_plus_full|].
    change PM_END with 2281701376. change TRAMPOLINE with 274877902848. lia. }
  intros r s' (am' & Hs & Has' & Hsame). cbn [pt_op_spec] in Hs. change PAGE_SIZE with 4096 in *.
  rewrite (bool_decide_true _ (conj Hva Hpa)) in Hs. cbn [negb] in Hs.
  destruct (Z.eqb_spec n 0) as [->|Hn].
  { destruct Hs as [-> ->]. apply wp_ret. exists am. split; [|done]. intros w. by rewrite decide_False by lia. }
  change VM_END with 274877906944 in Hs. change PM_END with 2281701376 in Hs.
  destruct (Z.ltb_spec 274877906944 (va + n * 4096)) as [|_]; [lia|].
  destruct (Z.ltb_spec 2281701376 (pa + n * 4096)) as [|_]; [lia|]. cbn [orb] in Hs.
  destruct Hs as [(-> & _ & Hm)|(-> & k & Hk & Hsome & _)].
  - apply wp_ret. by exists am'.
  - rewrite Hfree in Hsome by lia. by destruct Hsome.
Qed.

(** Page numbers of aligned addresses. *)
Lemma vpn_aligned a : a mod PAGE_SIZE = 0 -> a = vpn a * PAGE_SIZE.
Proof.
  intros Ha. unfold vpn. rewrite Z.shiftr_div_pow2 by lia. change (2 ^ 12) with 4096. change PAGE_SIZE with 4096 in *.
  pose proof (Z.div_mod a 4096 ltac:(lia)). lia.
Qed.

Lemma pages_between a b : a mod PAGE_SIZE = 0 -> b mod PAGE_SIZE = 0 -> 0 <= a <= b -> b < 2 ^ 64 ->
  u64 (b - a) / PAGE_SIZE = vpn b - vpn a.
Proof.
  intros Ha%vpn_aligned Hb%vpn_aligned Hab Hlt. rewrite wrap_small by (unfold in_width; lia).
  rewrite Ha, Hb at 1. rewrite <- Z.mul_sub_distr_r. by apply Z.div_mul.
Qed.

(** A region that is mapped to itself. *)
Lemma kmap_identity root X am s a b perm :
  pt_as root X tables am s -> a mod PAGE_SIZE = 0 -> b mod PAGE_SIZE = 0 -> 0 <= a <= b -> b <= PM_END ->
  (forall w, vpn a <= w < vpn b -> am !! w = None) ->
  wp False (kmap_or_panic root (KVM a) a (u64 (b - a) / PAGE_SIZE) perm)
    (fun _ s' => exists am', (forall w, am' !! w = if decide (vpn a <= w < vpn b) then Some (w * PAGE_SIZE, kperm perm) else am !! w) /\
       pt_as root X tables am' s' /\ same_pages X s s') s.
Proof.
  intros Has Ha Hb Hab HbE Hfree. rewrite pages_between by (done || change PM_END with 2281701376 in *; lia).
  assert (PAGE_SIZE = 4096) as Ep by reflexivity.
  pose proof (vpn_aligned a Ha) as Ea. pose proof (vpn_aligned b Hb) as Eb.
  eapply wp_mono; [eapply (kmap_spec root X am s (KVM a) a (vpn b - vpn a) perm); unfold KVM; try done; try lia|done|].
  - intros j Hj. apply Hfree. lia.
  - intros _ s' (am' & Hm & Hrest). exists am'. split; [|done]. intros w. rewrite Hm. unfold KVM.
    repeat destruct (decide _); try lia; [|done]. do 2 f_equal. lia.
Qed.

Lemma devminit_region root :
  devminit root = kmap_or_panic (A := A) root (KVM 0) 0 (u64 (PM_START - 0) / PAGE_SIZE) (Z.lor PTE_R PTE_W).
Proof. reflexivity. Qed.

(** The rest of a fresh page number is not mapped: rewrite with the regions
    entered so far. *)
Ltac not_mapped :=
  repeat match goal with
  | Hm : forall w, ?am !! w = _ |- ?am !! _ = None => rewrite Hm; rewrite decide_False by lia
  | |- ∅ !! _ = None => apply lookup_empty
  end.

Lemma kvminit_maps X k s :
  own (pt_env s) X k -> 1094 <= k ->
  wp False kvminit
    (fun r s' => exists am, (forall v, am !! v = kernel_frame v) /\ pt_as r.1 X tables am s' /\ same_pages X s s' /\
                   r.2 = MAKE_SATP r.1) s.
Proof.
  intros Ho Hk. destruct HI as [Hal (O1 & O2 & O3 & O4) Htr]. rewrite !Forall_cons in Hal.
  destruct Hal as (A1 & A2 & A3 & A4 & A5 & A6 & A7 & A8 & _). pose proof kernel_tables_size as Hsize.
  unfold kvminit. eapply wp_bind_mono; [eapply (pagetable_create_spec X tables k); [exact Ho|apply elem_of_list_to_set; left|lia]|].
  intros root s0 [P0 E0].
  assert (forall a, a mod PAGE_SIZE = 0 -> a = vpn a * 4096) as Hv by exact vpn_aligned.
  pose proof (Hv _ A1). pose proof (Hv _ A2). pose proof (Hv _ A3). pose proof (Hv _ A4).
  pose proof (Hv _ A5). pose proof (Hv _ A6). pose proof (Hv _ A7). pose proof (Hv _ A8).
  change PM_START with 2147483648 in *. change PM_END with 2281701376 in *.
  eapply wp_bind_mono.
  { rewrite devminit_region. eapply (kmap_identity root X ∅ s0 0 PM_START); [exact P0|done|done|by split|done|].
    intros w _. apply lookup_empty. }
  intros [] s1 (am1 & M1 & P1 & E1). change (vpn PM_START) with 524288 in M1. change (vpn 0) with 0 in M1.
  eapply wp_bind_mono; [eapply (kmap_identity root X am1 s1 s_text e_text);
    [exact P1|done|done|lia|change PM_END with 2281701376; lia|intros; not_mapped]|].
  intros [] s2 (am2 & M2 & P2 & E2).
  eapply wp_bind_mono; [eapply (kmap_identity root X am2 s2 s_rodata e_rodata);
    [exact P2|done|done|lia|change PM_END with 2281701376; lia|intros; not_mapped]|].
  intros [] s3 (am3 & M3 & P3 & E3).
  eapply wp_bind_mono; [eapply (kmap_identity root X am3 s3 s_data e_bss);
    [exact P3|done|done|lia|change PM_END with 2281701376; lia|intros; not_mapped]|].
  intros [] s4 (am4 & M4 & P4 & E4).
  eapply wp_bind_mono.
  { eapply (kmap_spec root X am4 s4 TRAMPOLINE trampoline 1); [exact P4|done|done|done|lia|done|by right| |].
    { change PM_END with 2281701376. change PAGE_SIZE with 4096. lia. }
    intros j Hj. change (vpn TRAMPOLINE) with 67108863. not_mapped. }
  intros [] s5 (am5 & M5 & P5 & E5). unfold mapped_range in M5. change (vpn TRAMPOLINE) with 67108863 in M5.
  eapply wp_bind_mono.
  { eapply (kmap_identity root X am5 s5 k_end PM_END); [exact P5|done|done|change PM_END with 2281701376; lia|done|].
    change (vpn PM_END) with 557056. intros w Hw. not_mapped. }
  intros [] s6 (am6 & M6 & P6 & E6). change (vpn PM_END) with 557056 in M6.
  apply wp_ret. exists am6. split; [|split; [done|split; [|done]]].
  - intros v. rewrite M6, M5, M4, M3, M2, M1. unfold kernel_frame.
    change (vpn PM_START) with 524288. change (vpn PM_END) with 557056. change (vpn TRAMPOLINE) with 67108863.
    repeat destruct (decide _); try lia; try done. do 2 f_equal. lia.
  - do 6 (eapply same_pages_trans; [eassumption|]). done.
Qed.

Lemma kernel_identity v f : kernel_frame v = Some f -> v <> vpn TRAMPOLINE -> f.1 = v * PAGE_SIZE.
Proof. unfold kernel_frame. repeat destruct (decide _); intros [= <-] ?; done. Qed.

(** [C29] The kernel's address space: on any image the linker script allows, with
    1094 pages for tables, [kvminit] does not panic and returns a table that
    represents exactly the devices, the sections of the image and the rest of
    the RAM, each mapped to itself, and the trampoline page.  No page is both
    writable and executable, none is accessible to user mode, and every address of a
    mapped page other than page 0 and the trampoline is translated to itself. *)
Theorem kvminit_correct X k s :
  own (pt_env s) X k -> 1094 <= k ->
  wp False kvminit
    (fun r s' => exists am, (forall v, am !! v = kernel_frame v) /\ pt_as r.1 X tables am s' /\ same_pages X s s' /\
       r.2 = MAKE_SATP r.1 /\
       (forall v f, am !! v = Some f ->
          (Z.testbit f.2 2 && Z.testbit f.2 3 = false) /\ Z.testbit f.2 4 = false /\ Z.testbit f.2 0 = true) /\
       (forall va, PAGE_SIZE <= va < TRAMPOLINE -> is_Some (am !! vpn va) -> va2pa r.1 va s' = Ok (va, s'))) s.
Proof.
  intros Ho Hk. eapply wp_mono; [by apply (kvminit_maps X k)|done|]. intros [root satp] s' (am & Hm & Has & Hs & Er).
  cbn [fst snd] in *. exists am. split; [done|]. split; [done|]. split; [done|]. split; [done|]. split.
  - intros v f. rewrite Hm. unfold kernel_frame. repeat destruct (decide _); by intros [= <-].
  - intros va Hva [f Hf]. rewrite (va2pa_spec _ _ _ _ _ _ Has) by (change PAGE_SIZE with 4096 in *; lia).
    do 2 f_equal. unfold physical, translation. rewrite Hf. rewrite Hm in Hf.
    change VM_END with 274877906944. change TRAMPOLINE with 274877902848 in *. change PAGE_SIZE with 4096 in *.
    assert (vpn va = va / 4096) as Ev by (unfold vpn; by rewrite Z.shiftr_div_pow2 by lia).
    apply kernel_identity in Hf.
    2: { change (vpn TRAMPOLINE) with 67108863. rewrite Ev. intros E. pose proof (Z.div_mod va 4096). 
         pose proof (Z.mod_pos_bound va 4096). lia. }
    change PAGE_SIZE with 4096 in *.
    destruct (Z.leb_spec 274877906944 va) as [|_]; [lia|]. rewrite Hf, Ev.
    pose proof (Z.div_mod va 4096 ltac:(lia)) as Hd. pose proof (Z.mod_pos_bound va 4096 ltac:(lia)).
    destruct (Z.eqb_spec (va / 4096 * 4096) 0); lia.
Qed.

End proof.

(** ** An image *)

Definition sample_image : KernelImage := {|
  s_text := 0x80200000; e_text := 0x80210000; s_rodata := 0x80210000; e_rodata := 0x80214000;
  s_data := 0x80214000; e_bss := 0x80240000; k_end := 0x80240000; trampoline := 0x8020F000 |}.

Lemma sample_image_ok : KernelImageOk (H := sample_image).
Proof. split; [repeat constructor|vm_compute; repeat split; discriminate|vm_compute; split; [discriminate|reflexivity]]. Qed.

Lemma kvminit_correct_witness :
  let s := PGT ∅ (Bump 4096 1094 ∅) in
  wp False (kvminit (H := sample_image))
    (fun r s' => exists am, (forall v, am !! v = kernel_frame (H := sample_image) v) /\
       pt_as (own := bump_pages) r.1 ∅ (list_to_set kernel_tables) am s' /\ same_pages ∅ s s' /\ r.2 = MAKE_SATP r.1 /\
       (forall v f, am !! v = Some f ->
          (Z.testbit f.2 2 && Z.testbit f.2 3 = false) /\ Z.testbit f.2 4 = false /\ Z.testbit f.2 0 = true) /\
       (forall va, PAGE_SIZE <= va < TRAMPOLINE -> is_Some (am !! vpn va) -> va2pa r.1 va s' = Ok (va, s'))) s.
Proof.
  intros s. refine (kvminit_correct (H := sample_image) (HI := sample_image_ok) (own := bump_pages) ∅ 1094 s _ _); [|lia].
  split; [|split; [reflexivity|split; [reflexivity|vm_compute; discriminate]]].
  split; [reflexivity|]. split; [reflexivity|]. intros x Hx. by apply elem_of_empty in Hx.
Defined.
