(* ===== verification/Lz4.v ===== *)
(** LZ4 block compression, [src/misc/lz4.c].

    Both functions run on the byte-addressed memory of [CString]; pointers are
    addresses, so the comparisons with the ends of the buffers are comparisons
    of integers.  The local hash table of the compressor is a finite map that
    is 0 where it has no entry.  Fuel: every iteration of a loop that is not a
    counter loop consumes a byte of the source or of the length it writes. *)

From S2P Require Import Prelude CString.

Definition LZ4_HASHLOG : Z := 12.
Definition LZ4_HASHTABLESIZE : Z := Z.shiftl 1 LZ4_HASHLOG.
Definition LZ4_MINMATCH : Z := 4.
Definition LZ4_LASTLITERALS : Z := 5.
Definition LZ4_MFLIMIT : Z := 12.
Definition LZ4_MAX_INPUT_SIZE : Z := 0x7E000000.
Definition LZ4_COMPRESSBOUND (isize : Z) : Z :=
  if LZ4_MAX_INPUT_SIZE <? isize then 0 else isize + isize / 255 + 16.

Definition LZ4_HASH_FUNCTION (v : Z) : Z :=
  Z.shiftr (u32 (v * 2654435761)) ((32 - LZ4_HASHLOG) - LZ4_MINMATCH).

(** A load of four bytes, little-endian. *)
Definition lz4_read32 (p : Z) : ST mem Z :=
  let! b0 := ld p in
  let! b1 := ld (p + 1) in
  let! b2 := ld (p + 2) in
  let! b3 := ld (p + 3) in
  ret (b0 + 2 ^ 8 * b1 + 2 ^ 16 * b2 + 2 ^ 24 * b3).

(** [for (; len >= 255; len -= 255) *op++ = 255; *op++ = (u8)len]; the result
    is the new [op]. *)
Fixpoint put_run (fuel : nat) (op len : Z) : ST mem Z :=
  match fuel with
  | O => no_fuel
  | S fuel =>
      if 255 <=? len then do! st op 255 in put_run fuel (op + 1) (len - 255)
      else do! st op (u8 len) in ret (op + 1)
  end.

Definition run_fuel (len : Z) : nat := S (Z.to_nat len).

Definition lz4_write_literal (op literal_len : Z) : ST mem Z :=
  if 15 <=? literal_len then
    do! st op (Z.shiftl 15 4) in
    let! op' := put_run (run_fuel (literal_len - 15)) (op + 1) (literal_len - 15) in
    ret (op' - op)
  else do! st op (u8 (Z.shiftl literal_len 4)) in ret 1.

(** Not called by the compressor. *)
Definition lz4_write_matchlen (op match_len : Z) : ST mem Z :=
  let match_len := match_len - LZ4_MINMATCH in
  if 15 <=? match_len then
    do! st op 15 in
    let! op' := put_run (run_fuel (match_len - 15)) (op + 1) (match_len - 15) in
    ret (op' - op)
  else do! st op (u8 match_len) in ret 1.

(** The match length beyond 15, with a test before each byte; [None] is the
    return of -1. *)
Fixpoint put_run_checked (fuel : nat) (oend op ml : Z) : ST mem (option Z) :=
  match fuel with
  | O => no_fuel
  | S fuel =>
      if oend <=? op then ret None else
      if 255 <=? ml then do! st op 255 in put_run_checked fuel oend (op + 1) (ml - 255)
      else do! st op (u8 ml) in ret (Some (op + 1))
  end.

(** The two loops that extend a match. *)
Fixpoint match_words (fuel : nat) (matchlimit offset match_end : Z) : ST mem Z :=
  match fuel with
  | O => no_fuel
  | S fuel =>
      if negb (match_end <? matchlimit) then ret match_end else
      let! a := lz4_read32 match_end in
      let! b := lz4_read32 (match_end - offset) in
      if a =? b then match_words fuel matchlimit offset (match_end + LZ4_MINMATCH) else ret match_end
  end.

Fixpoint match_bytes (fuel : nat) (iend offset match_end : Z) : ST mem Z :=
  match fuel with
  | O => no_fuel
  | S fuel =>
      if negb (match_end <? iend) then ret match_end else
      let! a := ld (match_end - offset) in
      let! b := ld match_end in
      if a =? b then match_bytes fuel iend offset (match_end + 1) else ret match_end
  end.

(** One match at [ip]: the sequence of the literals since [anchor] and the
    match up to [match_end]; the result is the new [op]. *)
Definition put_sequence (oend anchor ip match_end offset op : Z) : ST mem (option Z) :=
  let literal_len := ip - anchor in
  let match_len := match_end - ip in
  let token_ptr := op in
  let! written := lz4_write_literal op literal_len in
  let op := op + written in
  if oend <? op + literal_len then ret None else
  do! memcpy op anchor literal_len in
  let op := op + literal_len in
  let ml := match_len - LZ4_MINMATCH in
  let! token := ld token_ptr in
  do! st token_ptr (Z.lor token (if ml <? 15 then u8 ml else 15)) in
  if oend <? op + 2 then ret None else
  do! st op (u8 offset) in
  do! st (op + 1) (u8 (Z.shiftr offset 8)) in
  let op := op + 2 in
  if 15 <=? match_len - LZ4_MINMATCH then
    let ml := match_len - LZ4_MINMATCH - 15 in put_run_checked (run_fuel ml) oend op ml
  else ret (Some op).

(** The main loop; it returns [anchor] and [op]. *)
Fixpoint compress_loop (fuel : nat) (src iend oend acceleration ip anchor op : Z) (hash_table : gmap Z Z)
  : ST mem (option (Z * Z)) :=
  match fuel with
  | O => no_fuel
  | S fuel =>
      let mflimit := iend - LZ4_MFLIMIT in
      let matchlimit := iend - LZ4_LASTLITERALS in
      if negb (ip <? mflimit) then ret (Some (anchor, op)) else
      let! v := lz4_read32 ip in
      let h := Z.land (LZ4_HASH_FUNCTION v) (LZ4_HASHTABLESIZE - 1) in
      let match_ := src + default 0 (hash_table !! h) in
      let offset := u64 (ip - match_) in
      let hash_table := <[h := u32 (ip - src)]> hash_table in
      let! skip := (if (offset =? 0) || (65535 <? offset) || (match_ <? src) then ret true else
                    let! a := lz4_read32 match_ in
                    let! b := lz4_read32 ip in ret (negb (a =? b))) in
      if (skip : bool) then
        compress_loop fuel src iend oend acceleration
          (ip + (if 1 <? acceleration then acceleration else 1)) anchor op hash_table
      else
        let! match_end := match_words (run_fuel (iend - ip)) matchlimit offset (ip + LZ4_MINMATCH) in
        let! match_end := match_bytes (run_fuel (iend - ip)) iend offset match_end in
        let! r := put_sequence oend anchor ip match_end offset op in
        match r with
        | None => ret None
        | Some op => compress_loop fuel src iend oend acceleration match_end match_end op hash_table
        end
  end.

(** [_last_literals]. *)
Definition put_last (dst iend oend anchor op : Z) : ST mem Z :=
  let last_run := iend - anchor in
  if 0 <? last_run then
    if oend <? op + 1 + (if 15 <=? last_run then 1 else 0)
               + (if 15 <=? last_run then (last_run - 15 + 254) / 255 else 0) + last_run then ret (-1) else
    let len := last_run in
    do! st op (u8 (if len <? 15 then Z.shiftl len 4 else Z.shiftl 15 4)) in
    let! op := (if 15 <=? len then put_run (run_fuel (len - 15)) (op + 1) (len - 15) else ret (op + 1)) in
    do! memcpy op anchor last_run in
    ret (s32 (op + last_run - dst))
  else ret (s32 (op - dst)).

Definition lz4_compress_generic (src src_size dst dst_capacity acceleration : Z) : ST mem Z :=
  let iend := src + src_size in
  let oend := dst + dst_capacity in
  let! r := (if src_size <? LZ4_MINMATCH then ret (Some (src, dst))
             else compress_loop (run_fuel src_size) src iend oend acceleration src src dst ∅) in
  match r with
  | None => ret (-1)
  | Some (anchor, op) => put_last dst iend oend anchor op
  end.

Definition lz4_compress_fast (src src_size dst dst_capacity acceleration : Z) : ST mem Z :=
  if src_size <? 0 then ret (-1) else
  if src_size =? 0 then ret 0 else
  if dst_capacity <? 1 then ret (-1) else
  lz4_compress_generic src src_size dst dst_capacity acceleration.

Definition lz4_compress (src src_size dst dst_capacity : Z) : ST mem Z :=
  lz4_compress_fast src src_size dst dst_capacity 1.

(** ** Decompression *)

(** [do { if (ip >= iend) return -1; s = *ip++; len += s; } while (s == 255)]. *)
Fixpoint more_length (fuel : nat) (iend ip len : Z) : ST mem (option (Z * Z)) :=
  match fuel with
  | O => no_fuel
  | S fuel =>
      if iend <=? ip then ret None else
      let! s := ld ip in
      if s =? 255 then more_length fuel iend (ip + 1) (len + s) else ret (Some (len + s, ip + 1))
  end.

(** [do { *dest++ = *ref++; remaining--; } while (remaining > offset)]; the
    result is the new [dest] and [remaining]. *)
Fixpoint overlap_copy (fuel : nat) (dest ref remaining offset : Z) : ST mem (Z * Z) :=
  match fuel with
  | O => no_fuel
  | S fuel =>
      let! c := ld ref in
      do! st dest c in
      if offset <? remaining - 1 then overlap_copy fuel (dest + 1) (ref + 1) (remaining - 1) offset
      else ret (dest + 1, remaining - 1)
  end.

(** The copy of a match to [op]. *)
Definition copy_match (op offset match_len : Z) : ST mem unit :=
  let ref := op - offset in
  if offset <? match_len then
    let! '(dest, remaining) := overlap_copy (Z.to_nat match_len) op ref match_len offset in
    do! memcpy dest (dest - offset) remaining in ret tt
  else do! memcpy op ref match_len in ret tt.

Fixpoint decompress_loop (fuel : nat) (dst iend oend ip op : Z) : ST mem Z :=
  match fuel with
  | O => no_fuel
  | S fuel =>
      if negb (ip <? iend) then ret (s32 (op - dst)) else
      let! token := ld ip in
      let ip := ip + 1 in
      let! r := (if Z.shiftr token 4 =? 15 then more_length (run_fuel (iend - ip)) iend ip (Z.shiftr token 4)
                 else ret (Some (Z.shiftr token 4, ip))) in
      match r with
      | None => ret (-1)
      | Some (literal_len, ip) =>
          if (iend <? ip + literal_len) || (oend <? op + literal_len) then ret (-1) else
          do! memcpy op ip literal_len in
          let op := op + literal_len in
          let ip := ip + literal_len in
          if iend <=? ip then ret (s32 (op - dst)) else
          if iend <? ip + 2 then ret (-1) else
          let! b0 := ld ip in
          let! b1 := ld (ip + 1) in
          let offset := Z.lor b0 (Z.shiftl b1 8) in
          let ip := ip + 2 in
          if offset =? 0 then ret (-1) else
          let match_len := Z.land token 0x0F + LZ4_MINMATCH in
          let! r := (if Z.land token 0x0F =? 15 then more_length (run_fuel (iend - ip)) iend ip match_len
                     else ret (Some (match_len, ip))) in
          match r with
          | None => ret (-1)
          | Some (match_len, ip) =>
              if oend <? op + match_len then ret (-1) else
              if op - offset <? dst then ret (-1) else
              do! copy_match op offset match_len in
              decompress_loop fuel dst iend oend ip (op + match_len)
          end
      end
  end.

Definition lz4_decompress (src src_size dst dst_capacity : Z) : ST mem Z :=
  decompress_loop (run_fuel src_size) dst (src + src_size) (dst + dst_capacity) src dst.
