(* ===== verification/Lz4Spec.v ===== *)
(** The LZ4 block format on lists of bytes: the decoder as a function, the
    encoding of sequences, and that decoding undoes it. *)

From S2P Require Import Prelude CString CStringProof.

Definition zlen (l : list Z) : Z := Z.of_nat (length l).

(** ** The decoder *)

Fixpoint read_len (acc : Z) (l : list Z) : option (Z * list Z) :=
  match l with
  | [] => None
  | s :: l => if s =? 255 then read_len (acc + s) l else Some (acc + s, l)
  end.

(** A length field: the nibble, and the run that follows a nibble of 15. *)
Definition field (nibble base : Z) (l : list Z) : option (Z * list Z) :=
  if nibble =? 15 then read_len base l else Some (base, l).

(** Append [n] bytes, each the one [off] places before it. *)
Fixpoint extend (n off : nat) (out : list Z) : list Z :=
  match n with
  | O => out
  | S n => extend n off (out ++ [nth (length out - off) out 0])
  end.

Fixpoint decode (fuel : nat) (cap : Z) (l out : list Z) : option (list Z) :=
  match fuel, l with
  | _, [] => Some out
  | O, _ => None
  | S fuel, token :: l =>
      '(lit, l) ← field (token / 16) (token / 16) l;
      if (zlen l <? lit) || (cap <? zlen out + lit) then None else
      let out := out ++ take (Z.to_nat lit) l in
      match drop (Z.to_nat lit) l with
      | [] => Some out
      | [_] => None
      | b0 :: b1 :: l =>
          let off := b0 + 256 * b1 in
          if off =? 0 then None else
          '(ml, l) ← field (token mod 16) (token mod 16 + 4) l;
          if (cap <? zlen out + ml) || (zlen out <? off) then None else
          decode fuel cap l (extend (Z.to_nat ml) (Z.to_nat off) out)
      end
  end.

(** ** The encoding *)

Definition run (n : Z) : list Z := repeat 255 (Z.to_nat (n / 255)) ++ [n mod 255].
Definition ext (n : Z) : list Z := if n <? 15 then [] else run (n - 15).
Definition token (lit ml : Z) : Z := 16 * Z.min lit 15 + Z.min ml 15.

Definition enc_seq (lits : list Z) (off ml : Z) : list Z :=
  token (zlen lits) (ml - 4) :: ext (zlen lits) ++ lits ++ [off mod 256; off / 256] ++ ext (ml - 4).
Definition enc_last (lits : list Z) : list Z :=
  match lits with [] => [] | _ => token (zlen lits) 0 :: ext (zlen lits) ++ lits end.

(** [e] is a sequence of encodings that stands for the bytes [p]. *)
Inductive encodes : list Z -> list Z -> Prop :=
  | encodes_nil : encodes [] []
  | encodes_snoc e p lits off ml :
      encodes e p -> 1 <= off < 65536 -> off <= zlen (p ++ lits) -> 4 <= ml ->
      encodes (e ++ enc_seq lits off ml) (extend (Z.to_nat ml) (Z.to_nat off) (p ++ lits)).

(** ** Lemmas *)

Lemma zlen_app l1 l2 : zlen (l1 ++ l2) = zlen l1 + zlen l2.
Proof. unfold zlen. rewrite length_app. lia. Qed.

Lemma zlen_cons x l : zlen (x :: l) = 1 + zlen l.
Proof. unfold zlen. cbn [length]. lia. Qed.

Lemma zlen_nonneg l : 0 <= zlen l. Proof. unfold zlen. lia. Qed.

Lemma zlen_take n l : 0 <= n <= zlen l -> zlen (take (Z.to_nat n) l) = n.
Proof. unfold zlen. rewrite length_take. lia. Qed.

Lemma length_extend n off : forall out, length (extend n off out) = (length out + n)%nat.
Proof. induction n as [|n IH]; intros out; cbn [extend]; [lia|]. rewrite IH, length_app. cbn. lia. Qed.

Lemma extend_add n1 n2 off : forall out, extend (n1 + n2) off out = extend n2 off (extend n1 off out).
Proof. induction n1 as [|n1 IH]; intros out; cbn [extend Nat.add]; [done|apply IH]. Qed.

(** Without overlap, a copy appends a slice. *)
Lemma extend_slice n off : forall out, (n <= off <= length out)%nat ->
  extend n off out = out ++ take n (drop (length out - off) out).
Proof.
  induction n as [|n IH] using nat_ind; intros out Hn; [cbn; by rewrite app_nil_r|].
  rewrite <- Nat.add_1_r, extend_add, IH by lia. cbn [extend]. rewrite <- app_assoc. f_equal.
  rewrite length_app, length_take, length_drop.
  replace (length out + (n `min` (length out - (length out - off))) - off)%nat with (length out - off + n)%nat by lia.
  rewrite Nat.add_1_r. assert (is_Some (drop (length out - off) out !! n)) as [x Hx].
  { apply lookup_lt_is_Some. rewrite length_drop. lia. }
  rewrite (take_S_r _ _ x Hx). f_equal. f_equal. rewrite lookup_drop in Hx.
  apply nth_lookup_Some. by rewrite lookup_app_l by (apply lookup_lt_Some in Hx; lia).
Qed.

(** A match: copying reproduces the source. *)
Lemma extend_match (l : list Z) (i off n : nat) :
  (1 <= off <= i)%nat -> (i + n <= length l)%nat ->
  (forall j, (j < n)%nat -> l !! (i + j - off)%nat = l !! (i + j)%nat) ->
  extend n off (take i l) = take (i + n) l.
Proof.
  intros Hoff. induction n as [|n IH]; intros Hn Hm; [by rewrite Nat.add_0_r|].
  rewrite <- (Nat.add_1_r n), extend_add, IH by (lia || (intros; apply Hm; lia)). cbn [extend].
  assert (is_Some (l !! (i + n)%nat)) as [x Hx] by (apply lookup_lt_is_Some; lia).
  rewrite Nat.add_1_r, Nat.add_succ_r, (take_S_r _ _ _ Hx). f_equal. f_equal.
  apply nth_lookup_Some. rewrite length_take, Nat.min_l by lia.
  rewrite lookup_take_lt by lia. by rewrite Hm by lia.
Qed.

Lemma read_len_run n : 0 <= n -> forall acc l, read_len acc (run n ++ l) = Some (acc + n, l).
Proof.
  intros Hn acc l. unfold run. pose proof (Z.div_mod n 255 ltac:(lia)) as Hd.
  pose proof (Z.mod_pos_bound n 255 ltac:(lia)) as Hb. pose proof (Z.div_pos n 255 Hn ltac:(lia)) as Hq.
  set (q := n / 255) in *. set (r := n mod 255) in *. clearbody q r.
  assert (forall k acc, read_len acc ((repeat 255 k ++ [r]) ++ l) = Some (acc + 255 * Z.of_nat k + r, l)) as Hk.
  { intros k. induction k as [|k IH]; intros acc'; cbn [repeat app read_len].
    - destruct (Z.eqb_spec r 255); [lia|]. do 2 f_equal. lia.
    - rewrite Z.eqb_refl. rewrite IH. do 2 f_equal. lia. }
  rewrite Hk. do 2 f_equal. lia.
Qed.

Lemma field_ext n base l : 0 <= n ->
  field (Z.min n 15) (Z.min n 15 + base) (ext n ++ l) = Some (n + base, l).
Proof.
  intros Hn. unfold field, ext. destruct (Z.ltb_spec n 15).
  - rewrite Z.min_l by lia. destruct (Z.eqb_spec n 15); [lia|done].
  - rewrite Z.min_r by lia. cbn [Z.eqb Pos.eqb]. rewrite read_len_run by lia. do 2 f_equal. lia.
Qed.

Lemma token_div lit ml : 0 <= lit -> 0 <= ml -> token lit ml / 16 = Z.min lit 15 /\ token lit ml mod 16 = Z.min ml 15.
Proof.
  intros. unfold token. rewrite Z.mul_comm. split.
  - rewrite Z.div_add_l, Z.div_small by lia. lia.
  - rewrite Z.add_comm, Z_mod_plus_full. apply Z.mod_small. lia.
Qed.

Lemma take_drop_app (l l' : list Z) : take (Z.to_nat (zlen l)) (l ++ l') = l /\ drop (Z.to_nat (zlen l)) (l ++ l') = l'.
Proof. unfold zlen. rewrite Nat2Z.id. by rewrite take_app_length, drop_app_length. Qed.

Lemma decode_seq fuel cap lits off ml rest out :
  1 <= off < 65536 -> off <= zlen (out ++ lits) -> 4 <= ml -> zlen out + zlen lits + ml <= cap ->
  decode (S fuel) cap (enc_seq lits off ml ++ rest) out =
  decode fuel cap rest (extend (Z.to_nat ml) (Z.to_nat off) (out ++ lits)).
Proof.
  intros Hoff Hle Hml Hcap. unfold enc_seq. cbn [app decode]. pose proof (zlen_nonneg lits) as Hl.
  destruct (token_div (zlen lits) (ml - 4)) as [E1 E2]; [done|lia|]. rewrite E1, E2.
  pose proof (field_ext (zlen lits) 0) as Hf. rewrite !Z.add_0_r in Hf. rewrite <- !app_assoc, Hf by done.
  cbn [mbind option_bind app]. rewrite zlen_app in Hle.
  set (tail := off mod 256 :: off / 256 :: ext (ml - 4) ++ rest).
  destruct (take_drop_app lits tail) as [Et Ed].
  destruct (Z.ltb_spec (zlen (lits ++ tail)) (zlen lits)) as [Hlt|_].
  { rewrite zlen_app in Hlt. pose proof (zlen_nonneg tail). lia. }
  destruct (Z.ltb_spec cap (zlen out + zlen lits)); [lia|]. cbn [orb].
  rewrite Et, Ed. subst tail. cbn beta match.
  assert (off mod 256 + 256 * (off / 256) = off) as -> by (pose proof (Z.div_mod off 256); lia).
  destruct (Z.eqb_spec off 0); [lia|]. rewrite (field_ext (ml - 4) 4) by lia. cbn [mbind option_bind].
  replace (ml - 4 + 4) with ml by lia. rewrite zlen_app.
  destruct (Z.ltb_spec cap (zlen out + zlen lits + ml)); [lia|].
  destruct (Z.ltb_spec (zlen out + zlen lits) off); [lia|]. done.
Qed.

Lemma decode_last fuel cap lits out :
  zlen out + zlen lits <= cap -> decode (S fuel) cap (enc_last lits) out = Some (out ++ lits).
Proof.
  intros Hcap. destruct lits as [|x lits]; [cbn; by rewrite app_nil_r|]. unfold enc_last.
  set (l := x :: lits) in *. clearbody l. cbn [decode]. pose proof (zlen_nonneg l).
  destruct (token_div (zlen l) 0) as [E1 _]; [done|lia|]. rewrite E1.
  pose proof (field_ext (zlen l) 0) as Hf. rewrite !Z.add_0_r in Hf. rewrite Hf by done. cbn [mbind option_bind].
  rewrite Z.ltb_irrefl. destruct (Z.ltb_spec cap (zlen out + zlen l)); [lia|]. cbn [orb].
  unfold zlen. by rewrite Nat2Z.id, firstn_all, drop_all.
Qed.

Lemma decode_nil fuel cap out : decode fuel cap [] out = Some out.
Proof. by destruct fuel. Qed.

Lemma enc_seq_nonempty lits off ml : (1 <= length (enc_seq lits off ml))%nat.
Proof. unfold enc_seq. cbn. lia. Qed.

(** Decoding a sequence of encodings, whatever follows. *)
Lemma encodes_decode e p : encodes e p -> exists k, (k <= length e)%nat /\ forall fuel cap rest,
  zlen p <= cap -> decode (k + fuel) cap (e ++ rest) [] = decode fuel cap rest p.
Proof.
  induction 1 as [|e p lits off ml He (k & Hk & IH) Hoff Hle Hml]; [by exists O|].
  exists (S k). rewrite length_app. pose proof (enc_seq_nonempty lits off ml). split; [lia|].
  intros fuel cap rest Hcap. unfold zlen in Hcap. rewrite length_extend, length_app in Hcap.
  replace (S k + fuel)%nat with (k + S fuel)%nat by lia. rewrite <- app_assoc, IH by (unfold zlen; lia).
  apply decode_seq; [done|done|done|unfold zlen; lia].
Qed.

(** The format round trip: sequences followed by the last literals. *)
Lemma decode_encoded e p lits cap :
  encodes e p -> zlen (p ++ lits) <= cap ->
  decode (S (length (e ++ enc_last lits))) cap (e ++ enc_last lits) [] = Some (p ++ lits).
Proof.
  intros He Hcap. destruct (encodes_decode _ _ He) as (k & Hk & Hd). rewrite zlen_app in Hcap.
  pose proof (zlen_nonneg lits). rewrite length_app.
  replace (S (length e + length (enc_last lits))) with (k + S (length e - k + length (enc_last lits)))%nat by lia.
  rewrite Hd by lia. by apply decode_last.
Qed.

(** Lengths of the encodings. *)
Lemma length_run n : 0 <= n -> zlen (run n) = n / 255 + 1.
Proof.
  intros Hn. unfold run, zlen. rewrite length_app, repeat_length. cbn. pose proof (Z.div_pos n 255). lia.
Qed.

Lemma length_ext n : 0 <= n -> zlen (ext n) = if n <? 15 then 0 else (n - 15) / 255 + 1.
Proof. intros Hn. unfold ext. destruct (Z.ltb_spec n 15); [done|]. apply length_run. lia. Qed.

Lemma length_enc_seq lits off ml : 4 <= ml ->
  zlen (enc_seq lits off ml) <= zlen lits + ml + zlen lits / 255.
Proof.
  intros Hml. unfold enc_seq. pose proof (zlen_nonneg lits).
  rewrite zlen_cons, !zlen_app, !length_ext by lia. change (zlen [_; _]) with 2.
  pose proof (Z.div_mod (zlen lits) 255). pose proof (Z.mod_pos_bound (zlen lits) 255).
  destruct (Z.ltb_spec (zlen lits) 15), (Z.ltb_spec (ml - 4) 15); Z.to_euclidean_division_equations; lia.
Qed.

Lemma length_enc_last lits : zlen (enc_last lits) <= zlen lits + zlen lits / 255 + 2.
Proof.
  destruct lits as [|x lits]; [done|]. unfold enc_last. set (l := x :: lits). clearbody l.
  pose proof (zlen_nonneg l). rewrite zlen_cons, !zlen_app, length_ext by lia.
  destruct (Z.ltb_spec (zlen l) 15); Z.to_euclidean_division_equations; lia.
Qed.
