(* ===== verification/Lz4Proof.v ===== *)
(** The LZ4 functions on memory: the decompressor implements the decoder on
    every input, the compressor writes an encoding of its source, and the round
    trip of the two. *)

From S2P Require Import Prelude CString CStringProof Lz4 Lz4Spec.

(** ** Memory *)

Lemma write_bytes_lookup l : forall p m a,
  write_bytes p l m !! a = if decide (p <= a < p + zlen l) then l !! Z.to_nat (a - p) else m !! a.
Proof.
  induction l as [|c l IH]; intros p m a; cbn [write_bytes].
  - rewrite decide_False; [done|]. unfold zlen. cbn. lia.
  - rewrite IH, zlen_cons. pose proof (zlen_nonneg l).
    destruct (decide (p + 1 <= a < p + 1 + zlen l)) as [Hin|Hout].
    + rewrite decide_True by lia. replace (Z.to_nat (a - p)) with (S (Z.to_nat (a - (p + 1)))) by lia. done.
    + destruct (decide (a = p)) as [->|].
      * rewrite decide_True by lia. rewrite lookup_insert_eq, Z.sub_diag. done.
      * rewrite decide_False by lia. by rewrite lookup_insert_ne.
Qed.

Lemma bytes_at_lookup m l : forall p,
  bytes_at m p l <-> forall i x, l !! i = Some x -> m !! (p + Z.of_nat i) = Some x /\ in_width 8 x.
Proof.
  induction l as [|c l IH]; intros p; cbn [bytes_at].
  - split; [|done]. intros _ i x Hi. by rewrite lookup_nil in Hi.
  - rewrite IH. split.
    + intros (Hc & Hw & Hl) [|i] x Hi; [injection Hi as <-; by rewrite Z.add_0_r|].
      replace (p + Z.of_nat (S i)) with (p + 1 + Z.of_nat i) by lia. by apply Hl.
    + intros Hl. destruct (Hl 0%nat c eq_refl) as [Hc Hw]. rewrite Z.add_0_r in Hc. split; [done|]. split; [done|].
      intros i x Hi. replace (p + 1 + Z.of_nat i) with (p + Z.of_nat (S i)) by lia. by apply (Hl (S i)).
Qed.

Lemma write_bytes_set p l1 x y l2 m :
  <[p + zlen l1 := y]> (write_bytes p (l1 ++ x :: l2) m) = write_bytes p (l1 ++ y :: l2) m.
Proof.
  apply map_eq. intros a. rewrite lookup_insert, !write_bytes_lookup, !zlen_app, !zlen_cons.
  pose proof (zlen_nonneg l2). pose proof (zlen_nonneg l1).
  destruct (decide (p + zlen l1 = a)) as [<-|Hn].
  - rewrite decide_True by lia. rewrite list_lookup_middle; [done|]. unfold zlen. lia.
  - destruct (decide (p <= a < _)) as [Hin|]; [|done].
    destruct (decide (a < p + zlen l1)); [by rewrite !lookup_app_l by (unfold zlen in *; lia)|].
    rewrite !lookup_app_r by (unfold zlen in *; lia).
    destruct (Z.to_nat (a - p) - length l1)%nat eqn:E; [unfold zlen in *; lia|done].
Qed.

(** ** The two buffers

    The source [l] at [src] and the target of [cap] bytes at [dst], apart; the
    memory [wr out] has [out] at the start of the target. *)

Record buffers (m : mem) (src : Z) (l : list Z) (dst cap : Z) : Prop := {
  bu_src : bytes_at m src l;
  bu_dst : mapped m dst cap;
  bu_apart : apart src (zlen l) dst cap
}.

Section buffers.
Context {m : mem} {src : Z} {l : list Z} {dst cap : Z} (B : buffers m src l dst cap).

Definition wr (out : list Z) : mem := write_bytes dst out m.

(** The pointer to the suffix [r] of the source. *)
Definition ptr (r : list Z) : Z := src + zlen l - zlen r.

Lemma ptr_cons x r : ptr (x :: r) + 1 = ptr r.
Proof. unfold ptr. rewrite zlen_cons. lia. Qed.

Lemma ptr_app r1 r2 : ptr (r1 ++ r2) + zlen r1 = ptr r2.
Proof. unfold ptr. rewrite zlen_app. lia. Qed.

Lemma wr_src out i x : zlen out <= cap -> l !! i = Some x -> wr out !! (src + Z.of_nat i) = Some x /\ in_width 8 x.
Proof.
  intros Hout Hi. unfold wr. pose proof (bu_apart _ _ _ _ _ B) as Ha. unfold apart in Ha.
  apply lookup_lt_Some in Hi as Hlt. rewrite write_bytes_lookup, decide_False by (unfold zlen in *; lia).
  pose proof (bu_src _ _ _ _ _ B) as Hs. rewrite bytes_at_lookup in Hs. by apply Hs.
Qed.

Lemma ld_ptr {A} out x r (k : Z -> ST mem A) : zlen out <= cap -> suffix (x :: r) l ->
  bind (ld (ptr (x :: r))) k (wr out) = k x (wr out) /\ in_width 8 x.
Proof.
  intros Hout [pre El]. assert (ptr (x :: r) = src + Z.of_nat (length pre)) as ->.
  { unfold ptr. rewrite El, zlen_app. unfold zlen. lia. }
  destruct (wr_src out (length pre) x Hout) as [Hx Hw]; [rewrite El; by apply list_lookup_middle|].
  split; [by apply ld_ok|done].
Qed.

Lemma wr_mapped out : mapped (wr out) dst cap.
Proof. apply write_bytes_mapped, B. Qed.

Lemma st_ptr_end {A} out c (k : unit -> ST mem A) : zlen out < cap ->
  bind (st (dst + zlen out) c) k (wr out) = k tt (wr (out ++ [u8 c])).
Proof.
  intros Hlt. pose proof (wr_mapped out (dst + zlen out)) as Hm. pose proof (zlen_nonneg out).
  unfold bind, st, store. destruct Hm as [x ->]; [lia|]. unfold wr. rewrite write_bytes_app. done.
Qed.

Lemma st_at {A} o1 x o2 c (k : unit -> ST mem A) :
  bind (st (dst + zlen o1) c) k (wr (o1 ++ x :: o2)) = k tt (wr (o1 ++ u8 c :: o2)).
Proof.
  unfold bind, st, store, wr. rewrite write_bytes_lookup, zlen_app, zlen_cons, decide_True.
  2: { pose proof (zlen_nonneg o1). pose proof (zlen_nonneg o2). lia. }
  rewrite list_lookup_middle by (unfold zlen; lia). by rewrite write_bytes_set.
Qed.

Lemma ld_at {A} o1 x o2 (k : Z -> ST mem A) :
  bind (ld (dst + zlen o1)) k (wr (o1 ++ x :: o2)) = k x (wr (o1 ++ x :: o2)).
Proof.
  apply ld_ok. unfold wr. rewrite write_bytes_lookup, zlen_app, zlen_cons, decide_True.
  2: { pose proof (zlen_nonneg o1). pose proof (zlen_nonneg o2). lia. }
  by rewrite list_lookup_middle by (unfold zlen; lia).
Qed.

(** Copying to the end of what is written. *)
Lemma memcpy_end {A} out s x (k : Z -> ST mem A) :
  bytes_at (wr out) s x -> zlen out + zlen x <= cap ->
  dst + zlen out <= s \/ s + zlen x <= dst + zlen out ->
  bind (memcpy (dst + zlen out) s (zlen x)) k (wr out) = k (dst + zlen out) (wr (out ++ x)).
Proof.
  intros Hs Hle Hor. apply bind_run. unfold memcpy.
  assert (Z.to_nat (zlen x) = length x) as -> by (unfold zlen; lia).
  pose proof (copy_up_spec x (wr out) (dst + zlen out) s 0) as H. rewrite !Z.add_0_r in H.
  erewrite bind_run; [|apply H; [exact Hs| |exact Hor]].
  - unfold ret, wr. do 2 f_equal. symmetry. apply write_bytes_app.
  - intros a Ha. apply wr_mapped. pose proof (zlen_nonneg out). unfold zlen in *. lia.
Qed.

Lemma memcpy_ptr {A} out x r (k : Z -> ST mem A) :
  suffix (x ++ r) l -> zlen out + zlen x <= cap ->
  bind (memcpy (dst + zlen out) (ptr (x ++ r)) (zlen x)) k (wr out) = k (dst + zlen out) (wr (out ++ x)).
Proof.
  intros [pre El] Hle. pose proof (zlen_nonneg x). pose proof (zlen_nonneg out). pose proof (zlen_nonneg r). pose proof (zlen_nonneg pre).
  pose proof (bu_apart _ _ _ _ _ B) as Ha. unfold apart in Ha. rewrite El, !zlen_app in Ha.
  assert (ptr (x ++ r) = src + zlen pre) as -> by (unfold ptr; rewrite El, !zlen_app; lia).
  apply memcpy_end; [|done|lia]. apply bytes_at_lookup. intros i y Hi.
  replace (src + zlen pre + Z.of_nat i) with (src + Z.of_nat (length pre + i)) by (unfold zlen; lia).
  apply wr_src; [lia|]. rewrite El, lookup_app_r by lia. replace (length pre + i - length pre)%nat with i by lia.
  rewrite lookup_app_l; [done|]. by apply lookup_lt_Some in Hi.
Qed.

(** ** Decompression *)

Lemma more_length_spec r : forall fuel acc out, suffix r l -> zlen out <= cap -> (length r < fuel)%nat ->
  more_length fuel (ptr []) (ptr r) acc (wr out) =
  Ok ((fun '(v, r) => (v, ptr r)) <$> read_len acc r, wr out).
Proof.
  induction r as [|x r IH]; intros [|fuel] acc out Hs Hout Hf; cbn [length] in Hf; try lia; cbn [more_length read_len].
  - by rewrite Z.leb_refl.
  - destruct (Z.leb_spec (ptr []) (ptr (x :: r))) as [Hle|_].
    { unfold ptr in Hle. rewrite zlen_cons in Hle. pose proof (zlen_nonneg r). unfold zlen in *. cbn in Hle. lia. }
    rewrite (proj1 (ld_ptr out x r _ Hout Hs)), ptr_cons. destruct (Z.eqb_spec x 255); [|done].
    apply IH; [|done|lia]. etrans; [|exact Hs]. by exists [x].
Qed.

Lemma extend_bytes n off : forall out, Forall (in_width 8) out -> Forall (in_width 8) (extend n off out).
Proof.
  induction n as [|n IH]; intros out Ho; cbn [extend]; [done|]. apply IH, Forall_app. split; [done|].
  repeat constructor; destruct (nth_in_or_default (length out - off) out 0) as [Hin| ->]; try done;
    rewrite List.Forall_forall in Ho; by apply Ho.
Qed.

Lemma overlap_copy_spec off k : forall fuel out rem,
  rem = off + Z.of_nat (S k) -> (S k <= fuel)%nat -> 1 <= off <= zlen out -> zlen out + rem <= cap ->
  Forall (in_width 8) out ->
  overlap_copy fuel (dst + zlen out) (dst + zlen out - off) rem off (wr out) =
  let out' := extend (S k) (Z.to_nat off) out in Ok ((dst + zlen out', off), wr out').
Proof.
  induction k as [|k IH]; intros [|fuel] out rem -> Hf Hoff Hcap Hb; try lia; cbn [overlap_copy].
  all: set (x := nth (length out - Z.to_nat off) out 0).
  all: assert (out !! (length out - Z.to_nat off)%nat = Some x) as Hx
    by (destruct (nth_lookup_or_length out (length out - Z.to_nat off) 0); [done|unfold zlen in *; lia]).
  all: assert (in_width 8 x) as Hw by (eapply Forall_lookup_1; [exact Hb|exact Hx]).
  all: rewrite (ld_ok _ _ x) by (unfold wr; rewrite write_bytes_lookup, decide_True by lia;
    replace (Z.to_nat (dst + zlen out - off - dst)) with (length out - Z.to_nat off)%nat by (unfold zlen in *; lia); exact Hx).
  all: rewrite st_ptr_end by lia; rewrite (wrap_small 8 x) by done.
  all: replace (dst + zlen out + 1) with (dst + zlen (out ++ [x])) by (rewrite zlen_app; change (zlen [x]) with 1; lia).
  - destruct (Z.ltb_spec off (off + Z.of_nat 1 - 1)); [lia|]. unfold ret. cbn [extend]. fold x. do 2 f_equal. f_equal. lia.
  - destruct (Z.ltb_spec off (off + Z.of_nat (S (S k)) - 1)); [|lia].
    replace (dst + zlen out - off + 1) with (dst + zlen (out ++ [x]) - off) by (rewrite zlen_app; change (zlen [x]) with 1; lia).
    cbn zeta. change (extend (S (S k)) (Z.to_nat off) out) with (extend (S k) (Z.to_nat off) (out ++ [x])).
    apply IH; rewrite ?zlen_app; change (zlen [x]) with 1; try lia. apply Forall_app. split; [done|by constructor].
Qed.

Lemma slice_at out n off : Forall (in_width 8) out -> (n <= off <= length out)%nat ->
  bytes_at (wr out) (dst + zlen out - Z.of_nat off) (take n (drop (length out - off) out)).
Proof.
  intros Hb Hn. apply bytes_at_lookup. intros i x Hi. apply lookup_take_Some in Hi as [Hi Hlt].
  rewrite lookup_drop in Hi. split; [|by eapply Forall_lookup_1].
  unfold wr. rewrite write_bytes_lookup, decide_True by (unfold zlen; lia). rewrite <- Hi. f_equal. unfold zlen. lia.
Qed.

(** A slice of what is written is copied to its end. *)
Lemma memcpy_slice {A} out n off (k : Z -> ST mem A) :
  Forall (in_width 8) out -> 0 <= n <= off -> off <= zlen out -> zlen out + n <= cap ->
  bind (memcpy (dst + zlen out) (dst + zlen out - off) n) k (wr out) =
  k (dst + zlen out) (wr (extend (Z.to_nat n) (Z.to_nat off) out)).
Proof.
  intros Hb Hn Hoff Hcap. set (x := take (Z.to_nat n) (drop (length out - Z.to_nat off) out)).
  assert (zlen x = n) as Ex by (subst x; unfold zlen in *; rewrite length_take, length_drop; lia).
  rewrite extend_slice by (unfold zlen in *; lia). fold x. rewrite <- Ex at 1. apply memcpy_end; [|lia|lia].
  subst x. replace off with (Z.of_nat (Z.to_nat off)) at 1 by lia. apply slice_at; [done|unfold zlen in *; lia].
Qed.

Lemma copy_match_spec {A} out off ml (k : unit -> ST mem A) :
  Forall (in_width 8) out -> 1 <= off <= zlen out -> 0 <= ml -> zlen out + ml <= cap ->
  bind (copy_match (dst + zlen out) off ml) k (wr out) =
  k tt (wr (extend (Z.to_nat ml) (Z.to_nat off) out)).
Proof.
  intros Hb Hoff Hml Hcap. apply bind_run. unfold copy_match. destruct (Z.ltb_spec off ml) as [Hlt|Hge].
  - pose proof (overlap_copy_spec off (Z.to_nat (ml - off - 1)) (Z.to_nat ml) out ml ltac:(lia) ltac:(lia) Hoff Hcap Hb) as Hc.
    cbn zeta in Hc. rewrite (bind_run _ _ _ _ _ Hc). set (out' := extend _ _ out) in *.
    assert (zlen out' = zlen out + (ml - off)) as Hl' by (subst out'; unfold zlen; rewrite length_extend; lia).
    rewrite memcpy_slice; [|by apply extend_bytes|lia|lia|lia]. unfold ret. do 2 f_equal.
    subst out'. rewrite <- extend_add. do 2 f_equal. lia.
  - rewrite memcpy_slice by (done || lia). done.
Qed.

(** The result of a decompression and the memory it leaves. *)
Definition decompressed (o : option (list Z)) (r : Z) (m' : mem) : Prop :=
  match o with
  | Some out => r = s32 (zlen out) /\ m' = wr out /\ zlen out <= cap
  | None => r = -1 /\ exists out, m' = wr out /\ zlen out <= cap
  end.

Lemma nibbles t : in_width 8 t ->
  Z.shiftr t 4 = t / 16 /\ Z.land t 0x0F = t mod 16 /\ 0 <= t / 16 <= 15 /\ 0 <= t mod 16 <= 15.
Proof.
  intros Ht. unfold in_width in Ht. rewrite Z.shiftr_div_pow2 by lia. change 0x0F with (2 ^ 4 - 1). rewrite land_pow2 by lia.
  change (2 ^ 4) with 16. Z.to_euclidean_division_equations. lia.
Qed.

Lemma two_bytes b0 b1 : in_width 8 b0 -> Z.lor b0 (Z.shiftl b1 8) = b0 + 256 * b1.
Proof.
  intros Hb. unfold in_width in Hb.
  assert (Z.land b0 (Z.shiftl b1 8) = 0) as H0.
  { apply Z.bits_inj'. intros i Hi. rewrite Z.land_spec, Z.bits_0. destruct (Z.ltb_spec i 8).
    - by rewrite Z.shiftl_spec_low, andb_false_r by lia.
    - rewrite <- (Z.mod_small b0 (2 ^ 8)) by lia. by rewrite Z.mod_pow2_bits_high by lia. }
  rewrite <- Z.lxor_lor, <- Z.add_nocarry_lxor by done. rewrite Z.shiftl_mul_pow2 by lia. change (2 ^ 8) with 256. lia.
Qed.

Lemma read_len_suffix r : forall acc v r', read_len acc r = Some (v, r') -> suffix r' r /\ acc <= v \/ ~ Forall (in_width 8) r.
Proof.
  induction r as [|x r IH]; intros acc v r' Hr; cbn [read_len] in Hr; [done|].
  destruct (decide (0 <= x)) as [Hx|Hx].
  2: { right. rewrite Forall_cons. unfold in_width. intros [? _]. lia. }
  destruct (Z.eqb_spec x 255).
  - apply IH in Hr as [[Hs Hle]|Hn]; [left|right; rewrite Forall_cons; tauto].
    split; [|lia]. etrans; [exact Hs|by exists [x]].
  - injection Hr as <- <-. left. split; [by exists [x]|lia].
Qed.

Lemma source_bytes : Forall (in_width 8) l.
Proof. eapply bytes_width, B. Qed.

Lemma suffix_bytes r : suffix r l -> Forall (in_width 8) r.
Proof. intros [pre E]. pose proof source_bytes as H. rewrite E in H. by apply Forall_app in H as [_ H]. Qed.

(** A length field at the pointer [r]. *)
Lemma field_spec {A} nibble base r out (k : option (Z * Z) -> ST mem A) :
  suffix r l -> zlen out <= cap ->
  bind (if nibble =? 15 then more_length (run_fuel (ptr [] - ptr r)) (ptr []) (ptr r) base else ret (Some (base, ptr r))) k (wr out) =
  k ((fun '(v, r) => (v, ptr r)) <$> field nibble base r) (wr out).
Proof.
  intros Hs Hout. apply bind_run. unfold field. destruct (nibble =? 15); [|done]. apply more_length_spec; [done|done|].
  unfold run_fuel, ptr. change (zlen []) with 0. unfold zlen. lia.
Qed.

Lemma field_suffix nibble base r v r' : suffix r l -> field nibble base r = Some (v, r') -> suffix r' r /\ base <= v.
Proof.
  intros Hs. unfold field. destruct (nibble =? 15).
  - intros Hf. apply read_len_suffix in Hf as [[Hs' Hle]|Hn]; [by split|].
    exfalso. by apply Hn, suffix_bytes.
  - intros [= <- <-]. by split.
Qed.

Lemma ptr_ltb r : (ptr r <? ptr []) = match r with [] => false | _ => true end.
Proof.
  unfold ptr. change (zlen []) with 0. destruct r as [|x r]; [change (zlen []) with 0; by rewrite Z.ltb_irrefl|].
  rewrite zlen_cons. pose proof (zlen_nonneg r). apply Z.ltb_lt. lia.
Qed.

Lemma decompressed_err out : zlen out <= cap -> wp False (ret (-1)) (fun z m' => decompressed None z m') (wr out).
Proof. intros Ho. apply wp_ret. split; [done|]. by exists out. Qed.

Lemma decompressed_ret out : zlen out <= cap ->
  wp False (ret (s32 (dst + zlen out - dst))) (fun z m' => decompressed (Some out) z m') (wr out).
Proof. intros Ho. apply wp_ret. split; [f_equal; lia|done]. Qed.

(** The bounds tests, read on what is left of the source and on what is written. *)
Lemma source_short r n : (ptr [] <? ptr r + n) = (zlen r <? n).
Proof.
  unfold ptr. change (zlen []) with 0. apply eq_true_iff_eq. rewrite !Z.ltb_lt. lia.
Qed.

Lemma room_short out n : (dst + cap <? dst + zlen out + n) = (cap <? zlen out + n).
Proof. apply eq_true_iff_eq. rewrite !Z.ltb_lt. lia. Qed.

Lemma before_start out off : (dst + zlen out - off <? dst) = (zlen out <? off).
Proof. apply eq_true_iff_eq. rewrite !Z.ltb_lt. lia. Qed.

Lemma suffix_tail x r : suffix (x :: r) l -> suffix r l.
Proof. intros Hs. etrans; [|exact Hs]. by exists [x]. Qed.

(** The two bytes of an offset. *)
Lemma ld_offset {A} out b0 b1 r (k : Z -> Z -> ST mem A) :
  zlen out <= cap -> suffix (b0 :: b1 :: r) l ->
  (let! x := ld (ptr (b0 :: b1 :: r)) in let! y := ld (ptr (b0 :: b1 :: r) + 1) in k x y) (wr out) = k b0 b1 (wr out).
Proof.
  intros Hout Hs. pose proof (suffix_tail _ _ Hs) as Hs1.
  rewrite (proj1 (ld_ptr out b0 (b1 :: r) _ Hout Hs)), ptr_cons. by rewrite (proj1 (ld_ptr out b1 r _ Hout Hs1)).
Qed.

Lemma decompress_loop_spec fuel : forall r out,
  suffix r l -> (length r < fuel)%nat -> zlen out <= cap -> Forall (in_width 8) out ->
  wp False (decompress_loop fuel dst (ptr []) (dst + cap) (ptr r) (dst + zlen out))
    (fun z m' => decompressed (decode fuel cap r out) z m') (wr out).
Proof.
  induction fuel as [|fuel IH]; intros r out Hs Hf Hout Hb; [lia|]. cbn [decompress_loop]. rewrite ptr_ltb.
  destruct r as [|t r]; cbn [negb decode]; [by apply decompressed_ret|]. unfold wp.
  destruct (ld_ptr out t r (fun _ => ret tt) Hout Hs) as [_ Ht]. rewrite (proj1 (ld_ptr out t r _ Hout Hs)).
  cbn zeta. destruct (nibbles t Ht) as (E1 & E2 & Hn1 & Hn2). rewrite E1, E2, ptr_cons.
  assert (suffix r l) as Hr by (etrans; [by exists [t]|exact Hs]). rewrite field_spec by done.
  pose proof (field_suffix (t / 16) (t / 16) r) as Hsuf.
  destruct (field (t / 16) (t / 16) r) as [[lit r1]|]; cbn [fmap option_fmap option_map mbind option_bind];
    [|by apply decompressed_err].
  destruct (Hsuf lit r1 Hr eq_refl) as [Hr1' Hlit]. clear Hsuf.
  assert (suffix r1 l) as Hr1 by (by etrans). apply suffix_length in Hr1'.
  rewrite source_short, room_short.
  destruct (Z.ltb_spec (zlen r1) lit) as [|Hl1]; cbn [orb]; [by apply decompressed_err|].
  destruct (Z.ltb_spec cap (zlen out + lit)) as [|Hc1]; [by apply decompressed_err|].
  set (lits := take (Z.to_nat lit) r1). set (r2 := drop (Z.to_nat lit) r1).
  assert (r1 = lits ++ r2) as E by (symmetry; apply take_drop). assert (zlen lits = lit) as Hll by (apply zlen_take; lia).
  assert (suffix r2 l) as Hr2 by (etrans; [by exists lits|]; exact Hr1 || by rewrite <- E).
  rewrite E, <- Hll, memcpy_ptr by (rewrite <- ?E; done || lia). rewrite ptr_app.
  set (out1 := out ++ lits). assert (zlen out1 = zlen out + zlen lits) as Ho1 by (apply zlen_app).
  assert (Forall (in_width 8) out1) as Hb1.
  { apply Forall_app. split; [done|]. by apply Forall_take, suffix_bytes. }
  assert ((length r2 <= length r1)%nat) as Hlen by (subst r2; rewrite length_drop; lia).
  replace (dst + zlen out + zlen lits) with (dst + zlen out1) by lia.
  rewrite Z.leb_antisym, ptr_ltb. clearbody r2 out1. clear E. destruct r2 as [|b0 r3]; cbn [negb]; [apply decompressed_ret; lia|].
  rewrite source_short. pose proof (suffix_tail _ _ Hr2) as Hr3.
  destruct r3 as [|b1 r4]; [apply decompressed_err; lia|]. pose proof (suffix_tail _ _ Hr3) as Hr4.
  destruct (Z.ltb_spec (zlen (b0 :: b1 :: r4)) 2) as [Hlt|_]; [rewrite !zlen_cons in Hlt; pose proof (zlen_nonneg r4); lia|].
  assert (zlen out1 <= cap) as Hout1 by lia. rewrite ld_offset by done.
  pose proof (suffix_bytes _ Hr2) as Hw. rewrite !Forall_cons in Hw. destruct Hw as (Hw0 & Hw1 & _). rewrite two_bytes by done.
  replace (ptr (b0 :: b1 :: r4) + 2) with (ptr r4) by (rewrite <- (ptr_cons b1 r4), <- (ptr_cons b0 (b1 :: r4)); lia).
  destruct (Z.eqb_spec (b0 + 256 * b1) 0) as [|Hoff]; [by apply decompressed_err|].
  rewrite field_spec by done. pose proof (field_suffix (t mod 16) (t mod 16 + 4) r4) as Hsuf.
  change (t mod 16 + LZ4_MINMATCH) with (t mod 16 + 4).
  destruct (field (t mod 16) (t mod 16 + 4) r4) as [[ml r5]|]; cbn [fmap option_fmap option_map mbind option_bind];
    [|by apply decompressed_err].
  destruct (Hsuf ml r5 Hr4 eq_refl) as [Hr5' Hml]. assert (suffix r5 l) as Hr5 by (by etrans). apply suffix_length in Hr5'.
  unfold in_width in Hw0, Hw1. cbn [length] in *.
  rewrite room_short, before_start.
  destruct (Z.ltb_spec cap (zlen out1 + ml)) as [|Hc2]; cbn [orb]; [by apply decompressed_err|].
  destruct (Z.ltb_spec (zlen out1) (b0 + 256 * b1)) as [|Hc3]; [by apply decompressed_err|].
  rewrite copy_match_spec by (done || lia). set (out2 := extend _ _ out1).
  assert (zlen out2 = zlen out1 + ml) as Ho2 by (subst out2; unfold zlen; rewrite length_extend; lia).
  rewrite <- Z.add_assoc, <- Ho2. apply IH; [done|lia|lia|by apply extend_bytes].
Qed.

(** [lz4_decompress] on any source. *)
Lemma decompress_spec : 0 <= cap ->
  wp False (lz4_decompress src (zlen l) dst cap) (decompressed (decode (S (length l)) cap l [])) m.
Proof.
  intros Hcap. unfold lz4_decompress.
  pose proof (decompress_loop_spec (S (length l)) l [] (ltac:(done)) ltac:(lia) Hcap ltac:(constructor)) as H.
  unfold ptr in H. change (zlen []) with 0 in H. rewrite !Z.add_0_r, Z.sub_0_r in H.
  replace (src + zlen l - zlen l) with src in H by lia. unfold run_fuel, zlen at 1. by rewrite Nat2Z.id.
Qed.

(** ** Compression *)

Lemma run_step n : 255 <= n -> run n = 255 :: run (n - 255).
Proof.
  intros Hn. unfold run. replace (n / 255) with ((n - 255) / 255 + 1).
  2: { rewrite <- Z.div_add by lia. f_equal. lia. }
  rewrite Z2Nat.inj_add by (lia || apply Z.div_pos; lia). rewrite Nat.add_1_r. cbn [repeat app]. do 2 f_equal.
  f_equal. replace n with (n - 255 + 1 * 255) at 1 by lia. by rewrite Z_mod_plus_full.
Qed.

Lemma run_small n : 0 <= n < 255 -> run n = [n].
Proof. intros Hn. unfold run. rewrite Z.div_small, Z.mod_small by lia. done. Qed.

Lemma put_run_spec fuel : forall out n, 0 <= n -> (Z.to_nat n < fuel)%nat -> zlen (out ++ run n) <= cap ->
  put_run fuel (dst + zlen out) n (wr out) = Ok (dst + zlen (out ++ run n), wr (out ++ run n)).
Proof.
  induction fuel as [|fuel IH]; intros out n Hn Hf Hcap; [lia|]. cbn [put_run]. destruct (Z.leb_spec 255 n).
  - rewrite run_step in * by done. rewrite zlen_app, zlen_cons in Hcap. pose proof (zlen_nonneg (run (n - 255))).
    rewrite st_ptr_end by lia. change (u8 255) with 255.
    replace (dst + zlen out + 1) with (dst + zlen (out ++ [255])) by (rewrite zlen_app; change (zlen [255]) with 1; lia).
    rewrite IH; [by rewrite <- app_assoc|lia|lia|]. rewrite <- app_assoc, zlen_app. cbn [app]. rewrite zlen_cons. lia.
  - rewrite run_small in * by lia. rewrite zlen_app in Hcap. change (zlen [n]) with 1 in Hcap. rewrite st_ptr_end by lia.
    rewrite !(wrap_small 8 n) by (unfold in_width; lia). unfold ret. rewrite zlen_app. change (zlen [n]) with 1.
    do 2 f_equal. lia.
Qed.

Lemma put_run_checked_spec fuel : forall out n, 0 <= n -> (Z.to_nat n < fuel)%nat -> zlen (out ++ run n) <= cap ->
  put_run_checked fuel (dst + cap) (dst + zlen out) n (wr out) = Ok (Some (dst + zlen (out ++ run n)), wr (out ++ run n)).
Proof.
  induction fuel as [|fuel IH]; intros out n Hn Hf Hcap; [lia|]. cbn [put_run_checked].
  assert (1 <= zlen (run n)) by (rewrite length_run by done; pose proof (Z.div_pos n 255); lia).
  destruct (Z.leb_spec (dst + cap) (dst + zlen out)); [rewrite zlen_app in Hcap; lia|]. destruct (Z.leb_spec 255 n).
  - rewrite run_step in * by done. rewrite zlen_app, zlen_cons in Hcap. pose proof (zlen_nonneg (run (n - 255))).
    rewrite st_ptr_end by lia. change (u8 255) with 255.
    replace (dst + zlen out + 1) with (dst + zlen (out ++ [255])) by (rewrite zlen_app; change (zlen [255]) with 1; lia).
    rewrite IH; [by rewrite <- app_assoc|lia|lia|]. rewrite <- app_assoc, zlen_app. cbn [app]. rewrite zlen_cons. lia.
  - rewrite run_small in * by lia. rewrite zlen_app in Hcap. change (zlen [n]) with 1 in Hcap. rewrite st_ptr_end by lia.
    rewrite !(wrap_small 8 n) by (unfold in_width; lia). unfold ret. rewrite zlen_app. change (zlen [n]) with 1.
    do 3 f_equal. lia.
Qed.

(** The token and the length of [n] literals. *)
Definition header (n : Z) : list Z := token n 0 :: ext n.

Lemma write_literal_spec {A} out n (k : Z -> ST mem A) : 0 <= n -> zlen (out ++ header n) <= cap ->
  bind (lz4_write_literal (dst + zlen out) n) k (wr out) = k (zlen (header n)) (wr (out ++ header n)).
Proof.
  intros Hn Hcap. apply bind_run. unfold lz4_write_literal. unfold header, ext, token in *.
  destruct (Z.leb_spec 15 n), (Z.ltb_spec n 15); try lia.
  - rewrite Z.min_r, Z.min_l in * by lia. rewrite zlen_app, zlen_cons in Hcap. pose proof (zlen_nonneg (run (n - 15))).
    change (Z.shiftl 15 4) with 240. rewrite st_ptr_end by lia. change (u8 240) with (16 * 15 + 0).
    replace (dst + zlen out + 1) with (dst + zlen (out ++ [16 * 15 + 0])) by (rewrite zlen_app; change (zlen [_]) with 1; lia).
    rewrite (bind_run _ _ _ _ _ (put_run_spec (run_fuel (n - 15)) (out ++ [16 * 15 + 0]) (n - 15) ltac:(lia) ltac:(unfold run_fuel; lia)
      ltac:(rewrite <- app_assoc, zlen_app; cbn [app]; rewrite zlen_cons; lia))).
    unfold ret. rewrite <- app_assoc. cbn [app]. do 2 f_equal. rewrite zlen_app. lia.
  - rewrite (Z.min_l n 15), Z.min_l in * by lia. rewrite zlen_app in Hcap. change (zlen [_]) with 1 in Hcap.
    rewrite st_ptr_end by lia. rewrite Z.shiftl_mul_pow2 by lia. rewrite !(wrap_small 8 (n * 2 ^ 4)) by (unfold in_width; lia).
    replace (n * 2 ^ 4) with (16 * n + 0) by (change (2 ^ 4) with 16; lia). done.
Qed.

Lemma token_or n ml : 0 <= n -> 0 <= ml -> Z.lor (token n 0) (Z.min ml 15) = token n ml /\ in_width 8 (token n ml).
Proof.
  intros Hn Hm. unfold token, in_width. rewrite (Z.min_l 0) by lia. rewrite Z.add_0_r.
  assert (0 <= Z.min n 15 <= 15) as Ha by lia. assert (0 <= Z.min ml 15 <= 15) as Hb by lia.
  set (a := Z.min n 15) in *. set (b := Z.min ml 15) in *. clearbody a b. split; [|lia].
  assert (Z.land (16 * a) b = 0) as H0.
  { rewrite Z.mul_comm. change 16 with (2 ^ 4). rewrite <- Z.shiftl_mul_pow2 by lia. apply Z.bits_inj'. intros i Hi.
    rewrite Z.land_spec, Z.bits_0. destruct (Z.ltb_spec i 4); [by rewrite Z.shiftl_spec_low by lia|].
    rewrite <- (Z.mod_small b (2 ^ 4)) by lia. rewrite Z.mod_pow2_bits_high by lia. apply andb_false_r. }
  rewrite <- Z.lxor_lor, <- Z.add_nocarry_lxor by done. lia.
Qed.

(** One sequence: the literals [lits] at the anchor, a match of [ml] bytes. *)
Lemma put_sequence_spec out lits r off ml :
  suffix (lits ++ r) l -> 1 <= off < 65536 -> 4 <= ml -> zlen (out ++ enc_seq lits off ml) <= cap ->
  put_sequence (dst + cap) (ptr (lits ++ r)) (ptr r) (ptr r + ml) off (dst + zlen out) (wr out) =
  Ok (Some (dst + zlen (out ++ enc_seq lits off ml)), wr (out ++ enc_seq lits off ml)).
Proof.
  intros Hs Hoff Hml Hcap. unfold put_sequence. pose proof (zlen_nonneg lits) as Hl. pose proof (ptr_app lits r) as Ep.
  replace (ptr r - ptr (lits ++ r)) with (zlen lits) by lia. replace (ptr r + ml - ptr r) with ml by lia.
  assert (zlen (enc_seq lits off ml) = zlen (header (zlen lits)) + zlen lits + 2 + zlen (ext (ml - 4))) as El.
  { unfold enc_seq, header. rewrite !zlen_cons, !zlen_app. change (zlen [_; _]) with 2. lia. }
  rewrite zlen_app in Hcap. pose proof (zlen_nonneg (ext (ml - 4))). pose proof (zlen_nonneg (header (zlen lits))).
  rewrite write_literal_spec by (rewrite ?zlen_app; lia). set (o1 := out ++ header (zlen lits)).
  assert (zlen o1 = zlen out + zlen (header (zlen lits))) as E1 by apply zlen_app.
  replace (dst + zlen out + zlen (header (zlen lits))) with (dst + zlen o1) by lia.
  destruct (Z.ltb_spec (dst + cap) (dst + zlen o1 + zlen lits)); [lia|]. rewrite memcpy_ptr by (done || lia).
  set (o2 := o1 ++ lits). assert (zlen o2 = zlen o1 + zlen lits) as E2 by apply zlen_app.
  replace (dst + zlen o1 + zlen lits) with (dst + zlen o2) by lia.
  assert (o2 = out ++ token (zlen lits) 0 :: (ext (zlen lits) ++ lits)) as Eo2 by (subst o2 o1; unfold header; by rewrite <- app_assoc).
  assert (zlen (out ++ token (zlen lits) (ml - 4) :: (ext (zlen lits) ++ lits)) = zlen o2) as E2' by (rewrite Eo2, !zlen_app, !zlen_cons; done).
  destruct (token_or (zlen lits) (ml - 4)) as [Et Hw]; [done|lia|].
  rewrite (f_equal wr Eo2), ld_at, st_at.
  assert ((if ml - LZ4_MINMATCH <? 15 then u8 (ml - LZ4_MINMATCH) else 15) = Z.min (ml - 4) 15) as ->.
  { unfold LZ4_MINMATCH. destruct (Z.ltb_spec (ml - 4) 15); [rewrite wrap_small by (unfold in_width; lia); lia|lia]. }
  rewrite Et, (wrap_small 8 _ Hw). rewrite <- E2'.
  set (o3 := out ++ token (zlen lits) (ml - 4) :: ext (zlen lits) ++ lits) in *.
  destruct (Z.ltb_spec (dst + cap) (dst + zlen o3 + 2)); [lia|]. rewrite st_ptr_end by lia.
  replace (dst + zlen o3 + 1) with (dst + zlen (o3 ++ [u8 (u8 off)])) by (rewrite zlen_app; change (zlen [_]) with 1; lia).
  rewrite st_ptr_end by (rewrite zlen_app; change (zlen [_]) with 1; lia).
  set (o4 := (o3 ++ _) ++ _). assert (o4 = o3 ++ [off mod 256; off / 256]) as Eo4.
  { subst o4. rewrite <- app_assoc. cbn [app]. rewrite Z.shiftr_div_pow2 by lia. change (2 ^ 8) with 256.
    rewrite wrap_idem by lia. rewrite !(wrap_small 8 (off / 256)) by (unfold in_width; Z.to_euclidean_division_equations; lia). done. }
  assert (zlen o4 = zlen o3 + 2) as E4 by (rewrite Eo4, zlen_app; done).
  replace (dst + zlen o3 + 2) with (dst + zlen o4) by lia.
  assert (out ++ enc_seq lits off ml = o4 ++ ext (ml - 4)) as Ef.
  { rewrite Eo4. subst o3. unfold enc_seq. rewrite <- !app_assoc. cbn [app]. by rewrite <- !app_assoc. }
  rewrite Ef in *. change LZ4_MINMATCH with 4. unfold ext. destruct (Z.leb_spec 15 (ml - 4)), (Z.ltb_spec (ml - 4) 15); try lia.
  - apply put_run_checked_spec; [lia|unfold run_fuel; lia|]. unfold ext in *. destruct (Z.ltb_spec (ml - 4) 15); [lia|].
    rewrite zlen_app. lia.
  - by rewrite app_nil_r.
Qed.

(** *** Finding matches *)

(** The [n] bytes at [i] equal those [off] places before. *)
Definition matches (off i n : Z) : Prop := forall j, i <= j < i + n -> l !! Z.to_nat (j - off) = l !! Z.to_nat j.

Lemma src_byte out i : zlen out <= cap -> 0 <= i < zlen l ->
  exists x, l !! Z.to_nat i = Some x /\ in_width 8 x /\ wr out !! (src + i) = Some x.
Proof.
  intros Hout Hi. assert (is_Some (l !! Z.to_nat i)) as [x Hx] by (apply lookup_lt_is_Some; unfold zlen in *; lia).
  destruct (wr_src out _ x Hout Hx) as [Hw H8]. exists x. rewrite Z2Nat.id in Hw by lia. done.
Qed.

Lemma read32_spec out i : zlen out <= cap -> 0 <= i -> i + 4 <= zlen l ->
  exists a b c d, l !! Z.to_nat i = Some a /\ l !! Z.to_nat (i + 1) = Some b /\ l !! Z.to_nat (i + 2) = Some c /\
    l !! Z.to_nat (i + 3) = Some d /\ Forall (in_width 8) [a; b; c; d] /\
    lz4_read32 (src + i) (wr out) = Ok (a + 2 ^ 8 * b + 2 ^ 16 * c + 2 ^ 24 * d, wr out).
Proof.
  intros Hout Hi Hle.
  destruct (src_byte out i Hout ltac:(lia)) as (a & Ha & Wa & La), (src_byte out (i + 1) Hout ltac:(lia)) as (b & Hb & Wb & Lb),
    (src_byte out (i + 2) Hout ltac:(lia)) as (c & Hc & Wc & Lc), (src_byte out (i + 3) Hout ltac:(lia)) as (d & Hd & Wd & Ld).
  exists a, b, c, d. split_and!; try done; [by rewrite !Forall_cons|]. unfold lz4_read32.
  rewrite (ld_ok _ _ a), (ld_ok _ _ b), (ld_ok _ _ c), (ld_ok _ _ d); rewrite <- ?Z.add_assoc; done.
Qed.

(** Equal words have equal bytes. *)
Lemma word_inj a b c d a' b' c' d' :
  Forall (in_width 8) [a; b; c; d] -> Forall (in_width 8) [a'; b'; c'; d'] ->
  a + 2 ^ 8 * b + 2 ^ 16 * c + 2 ^ 24 * d = a' + 2 ^ 8 * b' + 2 ^ 16 * c' + 2 ^ 24 * d' ->
  a = a' /\ b = b' /\ c = c' /\ d = d'.
Proof.
  rewrite !Forall_cons. unfold in_width. change (2 ^ 8) with 256. change (2 ^ 16) with 65536. change (2 ^ 24) with 16777216. lia.
Qed.

Lemma matches_app off i n k : matches off i n -> matches off (i + n) k -> matches off i (n + k).
Proof. intros H1 H2 j Hj. destruct (decide (j < i + n)); [apply H1|apply H2]; lia. Qed.

Lemma words_match off i j out : zlen out <= cap -> 0 <= i - off -> i + 4 <= zlen l -> 0 <= off -> j = i - off ->
  exists x y, lz4_read32 (src + i) (wr out) = Ok (x, wr out) /\ lz4_read32 (src + j) (wr out) = Ok (y, wr out) /\
    (x = y -> matches off i 4).
Proof.
  intros Hout H0 Hle Hoff ->.
  destruct (read32_spec out i Hout) as (a & b & c & d & Ea & Eb & Ec & Ed & Hw & Hr); [lia|done|].
  destruct (read32_spec out (i - off) Hout) as (a' & b' & c' & d' & Ea' & Eb' & Ec' & Ed' & Hw' & Hr'); [lia|lia|].
  do 2 eexists. split; [exact Hr|]. split; [exact Hr'|]. intros E. apply word_inj in E as (-> & -> & -> & ->); [|done|done].
  intros j Hj. assert (j = i \/ j = i + 1 \/ j = i + 2 \/ j = i + 3) as [-> |[-> |[-> | ->]]] by lia.
  - by rewrite Ea, Ea'.
  - rewrite Eb, <- Eb'. f_equal. lia.
  - rewrite Ec, <- Ec'. f_equal. lia.
  - rewrite Ed, <- Ed'. f_equal. lia.
Qed.

Lemma match_words_spec off i out : zlen out <= cap -> 0 < off <= i -> forall fuel n,
  0 <= n -> matches off i n -> i + n <= zlen l -> (Z.to_nat (zlen l - i - n) < fuel)%nat ->
  exists n', match_words fuel (src + zlen l - LZ4_LASTLITERALS) off (src + (i + n)) (wr out) = Ok (src + (i + n'), wr out) /\
    n <= n' /\ matches off i n' /\ i + n' <= zlen l.
Proof.
  intros Hout Hoff. induction fuel as [|fuel IH]; intros n Hn Hm Hle Hf; [lia|]. cbn [match_words].
  unfold LZ4_LASTLITERALS, LZ4_MINMATCH.
  destruct (Z.ltb_spec (src + (i + n)) (src + zlen l - 5)) as [Hlt|]; cbn [negb]; [|by exists n].
  destruct (words_match off (i + n) (i + n - off) out) as (x & y & Hx & Hy & Hxy); [done|lia|lia|lia|done|].
  rewrite (bind_run _ _ _ _ _ Hx). replace (src + (i + n) - off) with (src + (i + n - off)) by lia.
  rewrite (bind_run _ _ _ _ _ Hy). destruct (Z.eqb_spec x y) as [E|]; [|by exists n].
  replace (src + (i + n) + 4) with (src + (i + (n + 4))) by lia.
  destruct (IH (n + 4)) as (n' & Hrun & Hle' & Hm' & Hend); [lia|apply matches_app; [done|by apply Hxy]|lia|lia|].
  exists n'. split; [exact Hrun|]. split; [lia|done].
Qed.

Lemma match_bytes_spec off i out : zlen out <= cap -> 0 < off <= i -> forall fuel n,
  0 <= n -> matches off i n -> i + n <= zlen l -> (Z.to_nat (zlen l - i - n) < fuel)%nat ->
  exists n', match_bytes fuel (src + zlen l) off (src + (i + n)) (wr out) = Ok (src + (i + n'), wr out) /\
    n <= n' /\ matches off i n' /\ i + n' <= zlen l.
Proof.
  intros Hout Hoff. induction fuel as [|fuel IH]; intros n Hn Hm Hle Hf; [lia|]. cbn [match_bytes].
  destruct (Z.ltb_spec (src + (i + n)) (src + zlen l)) as [Hlt|]; cbn [negb]; [|by exists n].
  destruct (src_byte out (i + n - off) Hout) as (x & Ex & _ & Lx); [lia|].
  destruct (src_byte out (i + n) Hout) as (y & Ey & _ & Ly); [lia|].
  replace (src + (i + n) - off) with (src + (i + n - off)) by lia. rewrite (ld_ok _ _ x), (ld_ok _ _ y) by done.
  destruct (Z.eqb_spec x y) as [->|]; [|by exists n]. replace (src + (i + n) + 1) with (src + (i + (n + 1))) by lia.
  destruct (IH (n + 1)) as (n' & Hrun & Hle' & Hm' & Hend); [lia| |lia|lia|].
  - apply matches_app; [done|]. intros j Hj. assert (j = i + n) as -> by lia. congruence.
  - exists n'. split; [exact Hrun|]. split; [lia|done].
Qed.

Lemma bind_ret_l {S X Y} (x : X) (k : X -> ST S Y) s : bind (ret x) k s = k x s.
Proof. done. Qed.

(** *** The main loop *)

(** [out] encodes the first [a] bytes, within the bound. *)
Definition encoded (out : list Z) (a : Z) : Prop :=
  encodes out (take (Z.to_nat a) l) /\ 0 <= a <= zlen l /\ zlen out <= a + a / 255.

Lemma encoded_sequence out a i off n :
  encoded out a -> a <= i -> 1 <= off < 65536 -> off <= i -> 4 <= n -> i + n <= zlen l -> matches off i n ->
  encoded (out ++ enc_seq (take (Z.to_nat (i - a)) (drop (Z.to_nat a) l)) off n) (i + n).
Proof.
  intros (He & Ha & Hlen) Hi Hoff Hle Hn Hend Hm.
  set (lits := take (Z.to_nat (i - a)) (drop (Z.to_nat a) l)).
  assert (take (Z.to_nat a) l ++ lits = take (Z.to_nat i) l) as Et.
  { subst lits. rewrite take_take_drop. f_equal. lia. }
  assert (zlen lits = i - a) as El by (subst lits; unfold zlen in *; rewrite length_take, length_drop; lia).
  split; [|split; [lia|]].
  - replace (Z.to_nat (i + n)) with (Z.to_nat i + Z.to_nat n)%nat by lia.
    rewrite <- (extend_match l (Z.to_nat i) (Z.to_nat off) (Z.to_nat n)); [|lia|unfold zlen in *; lia|].
    + rewrite <- Et. constructor; [done|done| |done]. rewrite Et. unfold zlen in *. rewrite length_take. lia.
    + intros j Hj. specialize (Hm (i + Z.of_nat j) ltac:(lia)).
      replace (Z.to_nat i + j - Z.to_nat off)%nat with (Z.to_nat (i + Z.of_nat j - off)) by lia.
      replace (Z.to_nat i + j)%nat with (Z.to_nat (i + Z.of_nat j)) by lia. done.
  - rewrite zlen_app. pose proof (length_enc_seq lits off n ltac:(lia)). rewrite El in *.
    Z.to_euclidean_division_equations. lia.
Qed.

Definition table_ok (i : Z) (ht : gmap Z Z) : Prop := forall h v, ht !! h = Some v -> 0 <= v < i.

Lemma table_ok_insert i i' h ht : table_ok i ht -> 0 <= i < i' -> i < 2 ^ 32 -> table_ok i' (<[h := u32 i]> ht).
Proof.
  intros Ht Hi Hlt h' v [[_ <-]|[_ Hv]]%lookup_insert_Some; [rewrite wrap_small by (unfold in_width; lia); lia|].
  apply Ht in Hv. lia.
Qed.

Hypothesis source_small : zlen l < 2 ^ 31.
Hypothesis room : zlen l + zlen l / 255 <= cap.

Lemma encoded_fits out a : encoded out a -> zlen out <= cap.
Proof. intros (_ & Ha & Hlen). Z.to_euclidean_division_equations. lia. Qed.

Lemma ptr_drop i : 0 <= i <= zlen l -> ptr (drop (Z.to_nat i) l) = src + i.
Proof. intros Hi. unfold ptr, zlen in *. rewrite length_drop. lia. Qed.

Lemma emit_spec out a i off n :
  encoded out a -> a <= i -> 1 <= off < 65536 -> off <= i -> 4 <= n -> i + n <= zlen l -> matches off i n ->
  exists out', put_sequence (dst + cap) (src + a) (src + i) (src + (i + n)) off (dst + zlen out) (wr out)
    = Ok (Some (dst + zlen out'), wr out') /\ encoded out' (i + n).
Proof.
  intros He Hai Hoff Hoi Hn Hend Hm. pose proof (encoded_sequence out a i off n He Hai Hoff Hoi Hn Hend Hm) as He'.
  eexists. split; [|exact He']. set (lits := take (Z.to_nat (i - a)) (drop (Z.to_nat a) l)) in *.
  destruct He as (_ & Ha & _).
  assert (drop (Z.to_nat a) l = lits ++ drop (Z.to_nat i) l) as Ed.
  { subst lits. rewrite <- (take_drop (Z.to_nat (i - a)) (drop (Z.to_nat a) l)) at 1. f_equal. rewrite drop_drop. f_equal. lia. }
  rewrite <- (ptr_drop a), <- (ptr_drop i), Ed by lia. rewrite Z.add_assoc, <- (ptr_drop i) by lia.
  apply put_sequence_spec; [|done|lia|by apply encoded_fits in He'].
  rewrite <- Ed. exists (take (Z.to_nat a) l). symmetry. apply take_drop.
Qed.

Lemma compress_loop_spec acc fuel : forall i a out ht,
  encoded out a -> a <= i -> i < 2 ^ 32 -> table_ok i ht -> (Z.to_nat (zlen l - i) < fuel)%nat -> acc < 2 ^ 31 ->
  exists a' out', compress_loop fuel src (src + zlen l) (dst + cap) acc (src + i) (src + a) (dst + zlen out) ht (wr out)
    = Ok (Some (src + a', dst + zlen out'), wr out') /\ encoded out' a'.
Proof.
  induction fuel as [|fuel IH]; intros i a out ht He Hai Hi32 Ht Hf Hacc; [lia|]. cbn [compress_loop].
  unfold LZ4_MFLIMIT. destruct (Z.ltb_spec (src + i) (src + zlen l - 12)) as [Hlt|]; cbn [negb].
  2: { by exists a, out. }
  pose proof (encoded_fits _ _ He) as Hfit. assert (0 <= a) as Ha0 by apply He.
  destruct (read32_spec out i Hfit) as (x0 & x1 & x2 & x3 & _ & _ & _ & _ & _ & Hv); [lia|lia|].
  rewrite (bind_run _ _ _ _ _ Hv). set (v := x0 + _ + _ + _). clearbody v. clear x0 x1 x2 x3 Hv.
  set (h := Z.land _ _). clearbody h. cbn zeta.
  assert (0 <= default 0 (ht !! h) <= i) as Hd.
  { destruct (ht !! h) as [w|] eqn:E; cbn; [apply Ht in E|]; lia. }
  set (w := default 0 (ht !! h)) in *. clearbody w.
  replace (src + i - (src + w)) with (i - w) by lia. rewrite (wrap_small 64) by (unfold in_width; lia).
  replace (src + i - src) with i by lia.
  assert (forall out0 a0 i', encoded out0 a0 -> a0 <= i' -> i < i' -> i' < 2 ^ 32 -> exists a' out',
    compress_loop fuel src (src + zlen l) (dst + cap) acc (src + i') (src + a0) (dst + zlen out0) (<[h := u32 i]> ht) (wr out0)
    = Ok (Some (src + a', dst + zlen out'), wr out') /\ encoded out' a') as Hnext.
  { intros out0 a0 i' He0 Ha' Hii Hi'. apply IH; [done|done|done|apply (table_ok_insert i); [done|lia|lia]|lia|done]. }
  set (step := if 1 <? acc then acc else 1). assert (1 <= step < 2 ^ 31) as Hstep.
  { subst step. destruct (Z.ltb_spec 1 acc); lia. }
  destruct (Z.eqb_spec (i - w) 0) as [|Hn0]; cbn [orb].
  { rewrite bind_ret_l. rewrite <- Z.add_assoc. apply Hnext; [done|lia|lia|lia]. }
  destruct (Z.ltb_spec 65535 (i - w)) as [|Hb]; cbn [orb].
  { rewrite bind_ret_l. rewrite <- Z.add_assoc. apply Hnext; [done|lia|lia|lia]. }
  destruct (Z.ltb_spec (src + w) src) as [|_]; [lia|].
  destruct (words_match (i - w) i w out Hfit) as (x & y & Hx & Hy & Hxy); [lia|lia|lia|lia|].
  rewrite bind_assoc, (bind_run _ _ _ _ _ Hy), bind_assoc, (bind_run _ _ _ _ _ Hx), bind_ret_l.
  destruct (Z.eqb_spec y x) as [E|]; cbn [negb].
  2: { rewrite <- Z.add_assoc. apply Hnext; [done|lia|lia|lia]. }
  assert (matches (i - w) i 4) as Hm by (by apply Hxy). unfold LZ4_MINMATCH. rewrite <- Z.add_assoc.
  destruct (match_words_spec (i - w) i out Hfit ltac:(lia) (run_fuel (src + zlen l - (src + i))) 4) as (n1 & Hr1 & Hn1 & Hm1 & He1);
    [lia|done|lia|unfold run_fuel; lia|].
  rewrite (bind_run _ _ _ _ _ Hr1).
  destruct (match_bytes_spec (i - w) i out Hfit ltac:(lia) (run_fuel (src + zlen l - (src + i))) n1) as (n2 & Hr2 & Hn2 & Hm2 & He2);
    [lia|done|lia|unfold run_fuel; lia|].
  rewrite (bind_run _ _ _ _ _ Hr2).
  destruct (emit_spec out a i (i - w) n2 He Hai) as (out' & Hr3 & He3); [lia|lia|lia|done|done|].
  rewrite (bind_run _ _ _ _ _ Hr3). apply Hnext; [done|lia|lia|lia].
Qed.

Lemma put_last_spec out a :
  encoded out a -> zlen l + zlen l / 255 + 16 <= cap -> cap < 2 ^ 31 ->
  let out' := out ++ enc_last (drop (Z.to_nat a) l) in
  put_last dst (src + zlen l) (dst + cap) (src + a) (dst + zlen out) (wr out) = Ok (s32 (zlen out'), wr out').
Proof.
  intros (He & Ha & Hlen) Hroom Hcap. cbn zeta. set (lits := drop (Z.to_nat a) l).
  assert (zlen lits = zlen l - a) as El by (subst lits; unfold zlen in *; rewrite length_drop; lia).
  assert (ptr lits = src + a) as Ep by (apply ptr_drop; lia).
  assert (suffix lits l) as Hs by (exists (take (Z.to_nat a) l); symmetry; apply take_drop).
  pose proof (length_enc_last lits) as Hll. rewrite El in Hll. unfold put_last.
  replace (src + zlen l - (src + a)) with (zlen lits) by lia. destruct (Z.ltb_spec 0 (zlen lits)) as [Hpos|].
  2: { assert (lits = []) as -> by (apply nil_length_inv; unfold zlen in *; lia). cbn. rewrite app_nil_r.
       unfold ret. do 3 f_equal. lia. }
  assert (enc_last lits = header (zlen lits) ++ lits) as Ee by (unfold enc_last; destruct lits; done).
  rewrite Ee in *. rewrite zlen_app in Hll.
  match goal with |- context [dst + cap <? ?x] => destruct (Z.ltb_spec (dst + cap) x) as [Hlt|_] end.
  { exfalso. destruct (Z.leb_spec 15 (zlen lits)); Z.to_euclidean_division_equations; lia. }
  assert (zlen out + (zlen (header (zlen lits)) + zlen lits) <= cap) as Hfit by (Z.to_euclidean_division_equations; lia).
  assert (forall (k : Z -> ST mem Z),
    bind (st (dst + zlen out) (u8 (if zlen lits <? 15 then Z.shiftl (zlen lits) 4 else Z.shiftl 15 4)))
      (fun _ => bind (if 15 <=? zlen lits then put_run (run_fuel (zlen lits - 15)) (dst + zlen out + 1) (zlen lits - 15)
                      else ret (dst + zlen out + 1)) k) (wr out)
    = k (dst + zlen (out ++ header (zlen lits))) (wr (out ++ header (zlen lits)))) as Hh.
  { intros k. unfold header, ext, token in *. rewrite zlen_cons in Hfit. destruct (Z.leb_spec 15 (zlen lits)), (Z.ltb_spec (zlen lits) 15); try lia.
    - rewrite Z.min_r, Z.min_l in * by lia. pose proof (zlen_nonneg (run (zlen lits - 15))).
      rewrite st_ptr_end by lia. change (u8 (u8 (Z.shiftl 15 4))) with (16 * 15 + 0).
      replace (dst + zlen out + 1) with (dst + zlen (out ++ [16 * 15 + 0])) by (rewrite zlen_app; change (zlen [_]) with 1; lia).
      rewrite (bind_run _ _ _ _ _ (put_run_spec (run_fuel (zlen lits - 15)) (out ++ [16 * 15 + 0]) (zlen lits - 15) ltac:(lia) ltac:(unfold run_fuel; lia)
        ltac:(rewrite <- app_assoc, zlen_app; cbn [app]; rewrite zlen_cons; lia))). by rewrite <- app_assoc.
    - rewrite (Z.min_l (zlen lits) 15), Z.min_l in * by lia. change (zlen []) with 0 in Hfit. rewrite st_ptr_end by lia. rewrite Z.shiftl_mul_pow2 by lia. change (2 ^ 4) with 16.
      rewrite !(wrap_small 8 (zlen lits * 16)) by (unfold in_width; lia). rewrite bind_ret_l.
      replace (zlen lits * 16) with (16 * zlen lits + 0) by lia. rewrite zlen_app. change (zlen [_]) with 1. f_equal. lia. }
  rewrite Hh. set (o1 := out ++ header (zlen lits)). assert (zlen o1 = zlen out + zlen (header (zlen lits))) as E1 by apply zlen_app.
  rewrite <- Ep. pose proof (memcpy_ptr o1 lits [] (fun _ => ret (s32 (dst + zlen o1 + zlen lits - dst)))) as Hc.
  rewrite app_nil_r in Hc. rewrite Hc by (done || lia). unfold ret. subst o1. rewrite <- app_assoc. do 3 f_equal.
  rewrite zlen_app, zlen_app in *. rewrite zlen_app. lia.
Qed.

(** What the compressor writes. *)
Lemma compress_spec acc :
  zlen l <= LZ4_MAX_INPUT_SIZE -> LZ4_COMPRESSBOUND (zlen l) <= cap -> cap < 2 ^ 31 -> acc < 2 ^ 31 ->
  exists e p lits, encodes e p /\ p ++ lits = l /\ zlen (e ++ enc_last lits) <= LZ4_COMPRESSBOUND (zlen l) /\
    lz4_compress_fast src (zlen l) dst cap acc m = Ok (zlen (e ++ enc_last lits), wr (e ++ enc_last lits)).
Proof.
  intros Hmax Hbound Hcap Hacc. pose proof (zlen_nonneg l) as Hl. unfold LZ4_COMPRESSBOUND in *.
  destruct (Z.ltb_spec LZ4_MAX_INPUT_SIZE (zlen l)); [lia|].
  assert (wr [] = m) as Em by done. unfold lz4_compress_fast. destruct (Z.ltb_spec (zlen l) 0); [lia|].
  destruct (Z.eqb_spec (zlen l) 0) as [E0|Hn0].
  { exists [], [], []. split; [constructor|]. split; [symmetry; apply nil_length_inv; unfold zlen in *; lia|].
    split; [change (zlen ([] ++ enc_last [])) with 0; Z.to_euclidean_division_equations; lia|]. done. }
  destruct (Z.ltb_spec cap 1); [Z.to_euclidean_division_equations; lia|]. unfold lz4_compress_generic.
  assert (encoded [] 0) as Hstart.
  { split; [constructor|]. split; [lia|done]. }
  assert (exists a out, (if zlen l <? LZ4_MINMATCH then ret (Some (src, dst))
    else compress_loop (run_fuel (zlen l)) src (src + zlen l) (dst + cap) acc src src dst ∅) m
    = Ok (Some (src + a, dst + zlen out), wr out) /\ encoded out a) as (a & out & Hrun & He).
  { destruct (zlen l <? LZ4_MINMATCH).
    - exists 0, []. change (zlen []) with 0. by rewrite !Z.add_0_r.
    - pose proof (compress_loop_spec acc (run_fuel (zlen l)) 0 0 [] ∅ Hstart) as Hc. change (zlen []) with 0 in Hc. rewrite !Z.add_0_r, Em in Hc.
      apply Hc; [lia|lia| |unfold run_fuel; lia|done]. intros h v. by rewrite lookup_empty. }
  rewrite (bind_run _ _ _ _ _ Hrun). rewrite put_last_spec by (done || lia).
  pose proof He as (Hen & Ha & Hlen). set (lits := drop (Z.to_nat a) l).
  assert (zlen (out ++ enc_last lits) <= zlen l + zlen l / 255 + 16) as Hle.
  { rewrite zlen_app. pose proof (length_enc_last lits).
    assert (zlen lits = zlen l - a) by (subst lits; unfold zlen in *; rewrite length_drop; lia).
    Z.to_euclidean_division_equations. lia. }
  exists out, (take (Z.to_nat a) l), lits. split; [done|]. split; [apply take_drop|]. split; [done|].
  do 2 f_equal. f_equal. apply swrap_small; [lia|]. pose proof (zlen_nonneg (out ++ enc_last lits)).
  change (2 ^ (32 - 1)) with (2 ^ 31). lia.
Qed.

End buffers.

(** ** The encoding consists of bytes *)

Lemma ext_bytes n : 0 <= n -> Forall (in_width 8) (ext n).
Proof.
  intros Hn. unfold ext, run. destruct (Z.ltb_spec n 15); [constructor|]. apply Forall_app. split.
  - apply List.Forall_forall. intros x Hx%repeat_spec. subst x. by split.
  - constructor; [|constructor]. pose proof (Z.mod_pos_bound (n - 15) 255). unfold in_width. lia.
Qed.

Lemma token_byte n ml : 0 <= n -> 0 <= ml -> in_width 8 (token n ml).
Proof. intros. by apply token_or. Qed.

Lemma extend_prefix n off : forall out, exists x, extend n off out = out ++ x.
Proof.
  induction n as [|n IH]; intros out; cbn [extend]; [exists []; by rewrite app_nil_r|].
  destruct (IH (out ++ [nth (length out - off) out 0])) as [x ->]. eexists. by rewrite <- app_assoc.
Qed.

Lemma encodes_bytes e p : encodes e p -> Forall (in_width 8) p -> Forall (in_width 8) e.
Proof.
  induction 1 as [|e p lits off ml He IH Hoff Hle Hml]; intros Hp; [constructor|].
  destruct (extend_prefix (Z.to_nat ml) (Z.to_nat off) (p ++ lits)) as [x Ex]. rewrite Ex in Hp.
  apply Forall_app in Hp as [[Hp Hl]%Forall_app _]. apply Forall_app. split; [by apply IH|].
  unfold enc_seq. pose proof (zlen_nonneg lits). constructor; [apply token_byte; lia|].
  repeat apply Forall_app_2; [by apply ext_bytes|done| |apply ext_bytes; lia].
  constructor; [|constructor; [|constructor]]; unfold in_width; Z.to_euclidean_division_equations; lia.
Qed.

Lemma enc_last_bytes lits : Forall (in_width 8) lits -> Forall (in_width 8) (enc_last lits).
Proof.
  intros Hl. destruct lits as [|x lits]; [constructor|]. unfold enc_last. pose proof (zlen_nonneg (x :: lits)).
  constructor; [by apply token_byte|]. apply Forall_app_2; [by apply ext_bytes|done].
Qed.

(** ** The theorems *)

(** [C31] Decompression is safe and implements the format on every input: with
    any bytes as source and any capacity, [lz4_decompress] terminates, reads
    only the source and what it has written, writes only within the capacity,
    and returns the length of the data the decoder gives, which it has written,
    or -1 when the decoder rejects the source. *)
Theorem lz4_decompress_correct m src l dst cap :
  buffers m src l dst cap -> 0 <= cap ->
  wp False (lz4_decompress src (zlen l) dst cap)
    (fun r m' => match decode (S (length l)) cap l [] with
                 | Some out => r = s32 (zlen out) /\ m' = write_bytes dst out m /\ zlen out <= cap
                 | None => r = -1 /\ exists out, m' = write_bytes dst out m /\ zlen out <= cap
                 end) m.
Proof. exact (fun B => decompress_spec B). Qed.

(** [C30] The round trip: with a target of [LZ4_COMPRESSBOUND] bytes and any
    acceleration, compression succeeds within that bound, writes nothing beyond
    the bytes it reports, and decompressing these bytes restores the source. *)
Theorem lz4_roundtrip m src l dst cap acc out cap2 :
  buffers m src l dst cap -> mapped m out cap2 -> apart dst cap out cap2 ->
  zlen l <= LZ4_MAX_INPUT_SIZE -> LZ4_COMPRESSBOUND (zlen l) <= cap < 2 ^ 31 -> zlen l <= cap2 -> acc < 2 ^ 31 ->
  wp False (let! n := lz4_compress_fast src (zlen l) dst cap acc in lz4_decompress dst n out cap2)
    (fun r m' => r = zlen l /\ exists e, zlen e <= LZ4_COMPRESSBOUND (zlen l) /\
       m' = write_bytes out l (write_bytes dst e m)) m.
Proof.
  intros B Hmap Hap Hmax [Hbound Hcap] Hcap2 Hacc. pose proof (zlen_nonneg l).
  assert (0 <= zlen l / 255 <= zlen l) as Hdiv by (Z.to_euclidean_division_equations; lia).
  assert (zlen l + zlen l / 255 + 16 <= cap) as Hroom.
  { unfold LZ4_COMPRESSBOUND in Hbound. destruct (Z.ltb_spec LZ4_MAX_INPUT_SIZE (zlen l)); lia. }
  destruct (compress_spec B ltac:(lia) ltac:(lia) acc Hmax Hbound Hcap Hacc) as (e & p & lits & He & El & Hle & Hrun).
  set (c := e ++ enc_last lits) in *. apply wp_bind. eapply wp_run; [exact Hrun|].
  assert (Forall (in_width 8) (p ++ lits)) as Hb by (rewrite El; eapply bytes_width, B).
  assert (Forall (in_width 8) c) as Hc.
  { apply Forall_app in Hb as [Hp Hl]. apply Forall_app_2; [by eapply encodes_bytes|by apply enc_last_bytes]. }
  assert (buffers (write_bytes dst c m) dst c out cap2) as B2.
  { split; [by apply write_bytes_at|by apply write_bytes_mapped|]. unfold apart in *. lia. }
  eapply wp_mono; [apply (decompress_spec B2); lia|done|]. intros r m'. unfold decompressed.
  subst c. rewrite (decode_encoded e p lits cap2 He) by (rewrite El; lia). rewrite El. intros (-> & -> & _).
  split; [|by eexists]. apply swrap_small; [lia|]. unfold LZ4_MAX_INPUT_SIZE in Hmax. change (2 ^ (32 - 1)) with 2147483648. lia.
Qed.

(** The header of a sequence is written before the capacity is tested. *)
Lemma lz4_compress_overruns :
  let l := seqZ 0 16 ++ seqZ 0 16 ++ seqZ 100 12 in
  lz4_compress 4096 (zlen l) 8192 1 (write_bytes 4096 l {[ 8192 := 0 ]}) = Fault.
Proof. vm_compute. reflexivity. Qed.

(** ** A run *)

Definition sample_bytes : list Z := repeat 97 40 ++ [98; 99].
Definition sample_memory : mem :=
  write_bytes 4096 sample_bytes (write_bytes 8192 (repeat 0 64) (write_bytes 12288 (repeat 0 64) ∅)).

Lemma sample_buffers : buffers sample_memory 4096 sample_bytes 8192 64.
Proof.
  split.
  - apply write_bytes_at. apply (bool_decide_unpack (Forall (in_width 8) sample_bytes)). vm_compute. exact I.
  - apply write_bytes_mapped. intros a Ha. rewrite write_bytes_lookup, decide_True by (change (zlen (repeat 0 64)) with 64; lia).
    apply lookup_lt_is_Some. rewrite repeat_length. lia.
  - by left.
Qed.

Lemma lz4_decompress_correct_witness :
  wp False (lz4_decompress 4096 (zlen sample_bytes) 8192 64)
    (fun r m' => match decode (S (length sample_bytes)) 64 sample_bytes [] with
                 | Some out => r = s32 (zlen out) /\ m' = write_bytes 8192 out sample_memory /\ zlen out <= 64
                 | None => r = -1 /\ exists out, m' = write_bytes 8192 out sample_memory /\ zlen out <= 64
                 end) sample_memory.
Proof. apply (lz4_decompress_correct sample_memory 4096 sample_bytes 8192 64); [exact sample_buffers|lia]. Defined.

Lemma lz4_roundtrip_witness :
  wp False (let! n := lz4_compress_fast 4096 (zlen sample_bytes) 8192 64 1 in lz4_decompress 8192 n 12288 64)
    (fun r m' => r = zlen sample_bytes /\ exists e, zlen e <= LZ4_COMPRESSBOUND (zlen sample_bytes) /\
       m' = write_bytes 12288 sample_bytes (write_bytes 8192 e sample_memory)) sample_memory.
Proof.
  apply (lz4_roundtrip sample_memory 4096 sample_bytes 8192 64 1 12288 64 sample_buffers).
  - apply write_bytes_mapped, write_bytes_mapped. intros a Ha. rewrite write_bytes_lookup, decide_True by (change (zlen (repeat 0 64)) with 64; lia).
    apply lookup_lt_is_Some. rewrite repeat_length. lia.
  - by left.
  - done.
  - done.
  - done.
  - done.
Defined.
