(* ===== verification/Proc.v ===== *)
(** Processes: the structures of [include/task/proc.h] and [include/mm/vma.h],
    and the state that the code of [src/task] and [src/mm/vma.c] works on.

    The state extends that of the virtual file system with the processes, the
    memory areas, the page tables and the per-hart data.  As there, a member
    that is a [struct list_head] or a lock lives at its own address, and
    objects in static storage have negative addresses. *)

From S2P Require Import Prelude ListHead Sync Machine Alloc Vfs Pagetable.

(** ** Constants *)

Definition PROC_UNUSED : Z := 0.
Definition PROC_IDLE : Z := 1.
Definition PROC_RUNNABLE : Z := 2.
Definition PROC_RUNNING : Z := 3.
Definition PROC_ZOMBIE : Z := 5.

Definition IDLE_STACK_SIZE : Z := PAGE_SIZE.

(** ** Structures *)

(** Where a thread goes on when its context is loaded: the entry points in
    assembly, and the instructions after a call of [context_switch] in a
    thread that yields and in one that exits. *)
Inductive code := no_code | idle_loop | kthread_start | yield_returns | exit_returns.

(** The members of [struct context] that the C code sets; the stack pointer
    and the callee-saved registers of a running thread are not modelled. *)
Record context := Context { ra : code; sp : Z; gp : Z; c_sstatus : Z }.

Record proc := Proc {
  comm : list Z;                          (* 16 bytes *)
  pid : Z; tgid : Z; pagetable : Z;
  ctx : context; tf : Z; kstack : Z; p_state : Z;
  parent : Z; p_fd_table : Z; pwd : Z
}.

Record cpu := Cpu { c_proc : Z; need_resched : bool }.

Record vma := Vma { start : Z; vm_length : Z; perm : Z; type : Z; vm_file : Z; offset : Z }.

(** Sizes and offsets. *)
Definition sizeof_proc : Z := 568.
Definition p_vma (p : Z) : Z := p + 32.
Definition p_ktf (p : Z) : Z := p + 176.
Definition p_runq (p : Z) : Z := p + 472.
Definition p_children (p : Z) : Z := p + 496.
Definition p_sibling (p : Z) : Z := p + 512.
Definition p_lock (p : Z) : Z := p + 544.
Definition sizeof_vma : Z := 56.
Definition vm_list (v : Z) : Z := v + 40.

(** The elements of [runq[]] and [cpus[]] of a hart. *)
Definition runq_queue (hartid : Z) : Z := -100 - 2 * hartid.
Definition runq_lock (hartid : Z) : Z := -101 - 2 * hartid.
Definition cpu_idle (hartid : Z) : Z := - 2 ^ 20 * (hartid + 1).
Definition cpu_idle_stack (hartid : Z) : Z := - 2 ^ 20 * (hartid + 1) + 2 ^ 16.

(** A zeroed [struct proc]. *)
Definition zero_proc : proc := Proc (replicate 16 0) 0 0 NULL (Context no_code 0 0 0) NULL NULL 0 NULL NULL NULL.

Definition set_comm x (p : proc) : proc := let 'Proc _ i t pt c f k s pa fd w := p in Proc x i t pt c f k s pa fd w.
Definition set_pid x (p : proc) : proc := let 'Proc m _ t pt c f k s pa fd w := p in Proc m x t pt c f k s pa fd w.
Definition set_tgid x (p : proc) : proc := let 'Proc m i _ pt c f k s pa fd w := p in Proc m i x pt c f k s pa fd w.
Definition set_pagetable x (p : proc) : proc := let 'Proc m i t _ c f k s pa fd w := p in Proc m i t x c f k s pa fd w.
Definition set_ctx x (p : proc) : proc := let 'Proc m i t pt _ f k s pa fd w := p in Proc m i t pt x f k s pa fd w.
Definition set_kstack x (p : proc) : proc := let 'Proc m i t pt c f _ s pa fd w := p in Proc m i t pt c f x s pa fd w.
Definition set_p_state x (p : proc) : proc := let 'Proc m i t pt c f k _ pa fd w := p in Proc m i t pt c f k x pa fd w.
Definition set_parent x (p : proc) : proc := let 'Proc m i t pt c f k s _ fd w := p in Proc m i t pt c f k s x fd w.
Definition set_p_fd_table x (p : proc) : proc := let 'Proc m i t pt c f k s pa _ w := p in Proc m i t pt c f k s pa x w.
Definition set_pwd x (p : proc) : proc := let 'Proc m i t pt c f k s pa fd _ := p in Proc m i t pt c f k s pa fd x.

Definition set_ra x (c : context) : context := Context x (sp c) (gp c) (c_sstatus c).
Definition set_sp x (c : context) : context := Context (ra c) x (gp c) (c_sstatus c).
Definition set_gp x (c : context) : context := Context (ra c) (sp c) x (c_sstatus c).
Definition set_c_sstatus x (c : context) : context := Context (ra c) (sp c) (gp c) x.

Definition set_c_proc x (c : cpu) : cpu := Cpu x (need_resched c).
Definition set_need_resched x (c : cpu) : cpu := Cpu (c_proc c) x.

(** ** The state *)

Record task (A : Type) := Task {
  t_vfs : vfs A;
  t_procs : gmap Z proc;
  t_cpus : gmap Z cpu;
  t_vmas : gmap Z vma;
  t_tables : gmap Z (list Z);             (* page tables *)
  t_words : gmap Z Z;                     (* 64-bit words of kernel stacks *)
  t_next_pid : Z;
  t_kpagetable : Z
}.
Arguments Task {A}.
Arguments t_vfs {A}.
Arguments t_procs {A}.
Arguments t_cpus {A}.
Arguments t_vmas {A}.
Arguments t_tables {A}.
Arguments t_words {A}.
Arguments t_next_pid {A}.
Arguments t_kpagetable {A}.

Section state.
Context {A : Type}.
Implicit Types s : task A.

Definition set_t_vfs x s : task A := let 'Task _ p c v t w n k := s in Task x p c v t w n k.
Definition set_t_procs x s : task A := let 'Task f _ c v t w n k := s in Task f x c v t w n k.
Definition set_t_cpus x s : task A := let 'Task f p _ v t w n k := s in Task f p x v t w n k.
Definition set_t_vmas x s : task A := let 'Task f p c _ t w n k := s in Task f p c x t w n k.
Definition set_t_tables x s : task A := let 'Task f p c v _ w n k := s in Task f p c v x w n k.
Definition set_t_words x s : task A := let 'Task f p c v t _ n k := s in Task f p c v t x n k.
Definition set_t_next_pid x s : task A := let 'Task f p c v t w _ k := s in Task f p c v t w x k.

#[export] Instance task_machine : Machine (task A) := {
  hart_of s := v_hart (t_vfs s);
  set_hart h s := set_t_vfs (set_v_hart h (t_vfs s)) s;
  cpu_of s := v_cpu (t_vfs s);
  links_of s := v_links (t_vfs s);
  set_links l s := set_t_vfs (set_v_links l (t_vfs s)) s
}.

Definition on_vfs {B} (m : ST (vfs A) B) : ST (task A) B := lift t_vfs set_t_vfs m.

(** The allocator. *)
Definition on_alloc {B} (m : ST A B) : ST (task A) B := on_vfs (on_env m).

(** The page tables, on the same allocator. *)
Definition on_pgt {B} (m : ST (pgt A) B) : ST (task A) B :=
  lift (fun s => PGT (t_tables s) (v_env (t_vfs s)))
       (fun g s => set_t_tables (pt_pages g) (set_t_vfs (set_v_env (pt_env g) (t_vfs s)) s)) m.

Definition get_proc (p : Z) : ST (task A) proc := load (fun s => t_procs s !! p).
Definition upd_proc (p : Z) (f : proc -> proc) : ST (task A) unit :=
  store (fun s => x ← t_procs s !! p; Some (set_t_procs (<[p := f x]> (t_procs s)) s)).
Definition put_proc (p : Z) (x : proc) : ST (task A) unit :=
  modify (fun s => set_t_procs (<[p := x]> (t_procs s)) s).
Definition remove_proc (p : Z) : ST (task A) unit :=
  modify (fun s => set_t_procs (delete p (t_procs s)) s).

Definition get_vma (p : Z) : ST (task A) vma := load (fun s => t_vmas s !! p).

(** [r_tp()], and [thiscpu()]: the element of [cpus[]] of the running hart. *)
Definition r_tp : ST (task A) Z := gets (fun s => v_cpu (t_vfs s)).
Definition thiscpu : ST (task A) cpu := load (fun s => t_cpus s !! v_cpu (t_vfs s)).
Definition upd_cpu (f : cpu -> cpu) : ST (task A) unit :=
  store (fun s => c ← t_cpus s !! v_cpu (t_vfs s);
    Some (set_t_cpus (<[v_cpu (t_vfs s) := f c]> (t_cpus s)) s)).

(** The [sstatus] register. *)
Definition r_sstatus : ST (task A) Z := gets (fun s => sstatus (h_intr (v_hart (t_vfs s)))).
Definition w_sstatus (x : Z) : ST (task A) unit :=
  modify (fun s => set_hart (let h := v_hart (t_vfs s) in
    Hart (Intr x (intr_state (h_intr h)) (intr_depth (h_intr h))) (h_locks h)) s).

(** Words of a kernel stack; [kfree] takes them away. *)
Definition get_word (a : Z) : ST (task A) Z := load (fun s => t_words s !! a).
Definition put_word (a x : Z) : ST (task A) unit :=
  modify (fun s => set_t_words (<[a := x]> (t_words s)) s).
Definition free_words (a n : Z) : ST (task A) unit :=
  modify (fun s => set_t_words (filter (fun w => w.1 < a \/ a + n <= w.1) (t_words s)) s).

End state.

#[export] Instance task_machine_ok {A} : MachineOk (task A).
Proof. split; intros; repeat match goal with s : task A |- _ => destruct s as [[] ] end; done. Qed.
