(* ===== verification/Vma.v ===== *)
(** Memory areas of a process, [src/mm/vma.c]: a list of areas sorted by their
    start, with the page table operations behind them. *)

From S2P Require Import Prelude ListHead Sync Machine Alloc Vfs Pagetable Proc.

Definition VMA_TYPE_START : Z := 0.
Definition VMA_TYPE_END : Z := 3.

Section vma.
Context {A : Type} `{KAlloc A}.

Definition vma_create (start length perm type : Z) : ST (task A) Z :=
  if (start <? VM_START) || (VM_END <=? u64 (start + length)) || (VMA_TYPE_START <=? type) || (type <=? VMA_TYPE_END)
  then ret NULL else
  let! vma := on_alloc (ka_alloc sizeof_vma) in
  if vma =? NULL then ret NULL else
  do! new_links [vm_list vma] in
  do! modify (fun s => set_t_vmas (<[vma := Vma start length perm type NULL 0]> (t_vmas s)) s) in
  ret vma.

Definition vma_destroy (vma : Z) : ST (task A) unit :=
  do! on_links (list_del (vm_list vma)) in
  do! on_alloc (ka_free vma) in
  do! free_links [vm_list vma] in
  modify (fun s => set_t_vmas (delete vma (t_vmas s)) s).

(** The loop of [vma_find] from node [pos]. *)
Fixpoint vma_find_from (fuel : nat) (va pos head : Z) : ST (task A) Z :=
  match fuel with
  | O => no_fuel
  | S fuel =>
      if pos =? head then ret NULL else
      let vma := pos - 40 in
      let! v := get_vma vma in
      if va <? start v then ret NULL else
      if va <? u64 (start v + vm_length v) then ret vma else
      let! pos := on_links (get_next pos) in
      vma_find_from fuel va pos head
  end.

Definition vma_find (proc va : Z) : ST (task A) Z :=
  let! fuel := walk_fuel in
  let! pos := on_links (get_next (p_vma proc)) in
  vma_find_from fuel va pos (p_vma proc).

(** The loop of [vma_insert]: the node to insert before, [None] when areas
    overlap. *)
Fixpoint vma_insert_from (fuel : nat) (new : vma) (pos head : Z) : ST (task A) (option Z) :=
  match fuel with
  | O => no_fuel
  | S fuel =>
      if pos =? head then ret (Some pos) else
      let! v := get_vma (pos - 40) in
      if negb ((u64 (start new + vm_length new) <=? start v) || (u64 (start v + vm_length v) <=? start new))
      then ret None else
      if start new <? start v then ret (Some pos) else
      let! pos := on_links (get_next pos) in
      vma_insert_from fuel new pos head
  end.

Definition vma_insert (proc new_vma : Z) : ST (task A) Z :=
  let! new := get_vma new_vma in
  let! fuel := walk_fuel in
  let! pos := on_links (get_next (p_vma proc)) in
  let! r := vma_insert_from fuel new pos (p_vma proc) in
  match r with
  | None => ret (- EEXIST)
  | Some pos => do! on_links (list_add_tail (vm_list new_vma) pos) in ret 0
  end.

Definition vma_map_pages (proc vma : Z) : ST (task A) Z :=
  let! p := get_proc proc in
  let! v := get_vma vma in
  on_pgt (mappages (pagetable p) (start v) 0 (vm_length v / PAGE_SIZE) (perm v)).

Definition vma_unmap_pages (proc start length : Z) : ST (task A) Z :=
  let! p := get_proc proc in
  on_pgt (unmappages (pagetable p) start (length / PAGE_SIZE)).

Definition vma_remove (proc start_ length : Z) : ST (task A) Z :=
  let! vma := vma_find proc start_ in
  if vma =? NULL then ret (- ENOENT) else
  let! v := get_vma vma in
  if negb (start v =? start_) || negb (vm_length v =? length) then ret (- ENOENT) else
  let! _ := vma_unmap_pages proc start_ length in
  do! on_links (list_del (vm_list vma)) in
  do! vma_destroy vma in
  ret 0.

(** Every type is at least [VMA_TYPE_START] or at most [VMA_TYPE_END]: the test
    of [vma_create] refuses all of them. *)
Lemma vma_create_null start length perm type s : vma_create start length perm type s = Ok (NULL, s).
Proof.
  unfold vma_create, VMA_TYPE_START, VMA_TYPE_END. destruct (Z.leb_spec 0 type) as [_|Hn].
  - by rewrite orb_true_r.
  - by rewrite (proj2 (Z.leb_le type 3) ltac:(lia)), orb_true_r.
Qed.

End vma.
