(* ===== verification/Sched.v ===== *)
(** Process management and scheduling: [src/task/proc.c], [src/task/sched.c]
    and [src/task/kthread.c].

    [context_switch] is assembly: it stores the return address and the status
    register of the running thread in its context and loads those of the next
    one; the model returns the thread that runs from then on.  What a thread
    does when it is resumed is told by the return address: a thread that called
    [kthread_exit] runs into its final [panic]. *)

From S2P Require Import Prelude ListHead Sync Machine Alloc Hashtable Vfs DentryCache FdTable Namei Pagetable Proc Vma.

(** [strncpy] into an array of [n] bytes. *)
Definition strncpy_field (n : nat) (name : cstr) : list Z := firstn n (name ++ replicate n 0).

Definition comm_idle : cstr := [105; 100; 108; 101].

Section sched.
Context {A : Type} `{KAlloc A} `{FsCode A}.

(** ** proc.c *)

(** [atomic64_cmpxchg(&next_pid, old, new)]. *)
Definition cmpxchg_next_pid (old_val new_val : Z) : ST (task A) Z :=
  let! v := gets t_next_pid in
  do! (if v =? old_val then modify (set_t_next_pid new_val) else ret tt) in
  ret v.

(** An exchange fails only when another hart is between the read and the
    exchange, so two iterations are enough on one hart. *)
Fixpoint alloc_pid_loop (fuel : nat) : ST (task A) Z :=
  match fuel with
  | O => no_fuel
  | S fuel =>
      let! current := gets t_next_pid in
      if PID_MAX <? current then
        let! _ := cmpxchg_next_pid current PID_MIN in alloc_pid_loop fuel
      else
        let! r := cmpxchg_next_pid current (current + 1) in
        if r =? current then ret current else alloc_pid_loop fuel
  end.
Definition alloc_pid : ST (task A) Z := alloc_pid_loop 2.

Definition init_cpu (id : Z) : ST (task A) unit :=
  let idle := cpu_idle id in
  do! modify (fun s => set_t_cpus (<[id := Cpu idle false]> (t_cpus s)) s) in
  do! put_proc idle (Proc (strncpy_field 16 comm_idle) 0 0 NULL
        (Context idle_loop (cpu_idle_stack id + IDLE_STACK_SIZE) 0 SSTATUS_SIE) NULL NULL PROC_IDLE NULL NULL NULL) in
  do! new_links [p_sibling idle] in
  do! on_links (INIT_LIST_HEAD (p_sibling idle)) in
  do! lock_init (p_lock idle) in
  modify (fun s => set_t_vfs (let 'Vfs h _ l su ino de fi ft mo fd ar ih dh co r e := t_vfs s in
                              Vfs h id l su ino de fi ft mo fd ar ih dh co r e) s).

(** [kzalloc] of a process; its lock, all zero, is free. *)
Definition kzalloc_proc : ST (task A) Z :=
  let! p := on_alloc (ka_alloc sizeof_proc) in
  if p =? NULL then ret NULL else
  do! put_proc p zero_proc in
  do! new_links [p_vma p; p_runq p; p_children p; p_sibling p] in
  do! lock_init (p_lock p) in
  ret p.

Definition kfree_proc (p : Z) : ST (task A) unit :=
  do! on_alloc (ka_free p) in
  do! remove_proc p in
  free_links [p_vma p; p_runq p; p_children p; p_sibling p].

Definition alloc_proc : ST (task A) Z :=
  let! p := kzalloc_proc in
  if p =? NULL then ret NULL else
  do! upd_proc p (set_p_state PROC_UNUSED) in
  do! upd_proc p (fun x => set_ctx (set_c_sstatus SSTATUS_SIE (set_gp (p_ktf p) (ctx x))) x) in
  let! t := on_vfs fd_table_alloc in
  do! upd_proc p (set_p_fd_table t) in
  if t =? NULL then do! kfree_proc p in ret NULL else
  let! root := on_vfs vfs_get_root in
  do! upd_proc p (set_pwd root) in
  do! (if root =? NULL then ret tt else on_vfs (dentry_get root)) in
  ret p.

(** The loop of [free_proc] over the areas, the next node read in advance. *)
Fixpoint free_vmas (fuel : nat) (p pos n head : Z) : ST (task A) unit :=
  match fuel with
  | O => no_fuel
  | S fuel =>
      if pos =? head then ret tt else
      let! v := get_vma (pos - 40) in
      let! _ := vma_remove p (start v) (vm_length v) in
      let! n' := on_links (get_next n) in
      free_vmas fuel p n n' head
  end.

Definition free_proc (p : Z) : ST (task A) unit :=
  if p =? NULL then ret tt else
  let! x := get_proc p in
  do! (if parent x =? NULL then ret tt else
       do! acquire (p_lock (parent x)) in
       do! on_links (list_del (p_sibling p)) in
       do! release (p_lock (parent x)) in
       upd_proc p (set_parent NULL)) in
  do! (if kstack x =? NULL then ret tt else
       do! on_alloc (ka_free (kstack x)) in free_words (kstack x) PAGE_SIZE) in
  do! (if tf x =? NULL then ret tt else on_alloc (ka_free (tf x))) in
  let! kpagetable := gets t_kpagetable in
  do! (if (pagetable x =? NULL) || (pagetable x =? kpagetable) then ret tt else
       let! fuel := walk_fuel in
       let! pos := on_links (get_next (p_vma p)) in
       let! n := on_links (get_next pos) in
       do! free_vmas fuel p pos n (p_vma p) in
       on_pgt (pagetable_destroy (pagetable x))) in
  do! (if p_fd_table x =? NULL then ret tt else
       do! on_vfs (fd_table_free (p_fd_table x)) in upd_proc p (set_p_fd_table NULL)) in
  do! (if pwd x =? NULL then ret tt else
       do! on_vfs (dentry_put (pwd x)) in upd_proc p (set_pwd NULL)) in
  kfree_proc p.

(** ** sched.c *)

(** An index of [runq[]]. *)
Definition check_hart (hartid : Z) : ST (task A) unit :=
  if (0 <=? hartid) && (hartid <? CPU_NUM) then ret tt else fault.

Definition init_runq : ST (task A) unit :=
  for_up (Z.to_nat CPU_NUM) 0 (fun i =>
    do! on_links (INIT_LIST_HEAD (runq_queue i)) in
    lock_init (runq_lock i)).

Definition is_runq_empty (hartid : Z) : ST (task A) bool :=
  do! check_hart hartid in on_links (list_empty (runq_queue hartid)).

Definition enqueue_proc (hartid p : Z) : ST (task A) unit :=
  do! check_hart hartid in
  do! acquire (runq_lock hartid) in
  do! on_links (list_add_tail (p_runq p) (runq_queue hartid)) in
  release (runq_lock hartid).

(** [container_of(lh, struct proc, runq)] of the first node. *)
Definition dequeue_proc (hartid : Z) : ST (task A) Z :=
  let! e := is_runq_empty hartid in
  if e then ret NULL else
  do! acquire (runq_lock hartid) in
  let! lh := on_links (get_next (runq_queue hartid)) in
  do! on_links (list_del lh) in
  do! release (runq_lock hartid) in
  ret (lh - 472).

(** [context_switch(&old->ctx, &new->ctx)], called at [ret_addr]: [kthread_start]
    loads the function and its argument from the stack, and a thread that
    resumes inside [kthread_exit] panics. *)
Definition context_switch (old new : Z) (ret_addr : code) : ST (task A) Z :=
  let! st := r_sstatus in
  do! upd_proc old (fun x => set_ctx (set_ra ret_addr (set_c_sstatus st (ctx x))) x) in
  let! n := get_proc new in
  do! w_sstatus (c_sstatus (ctx n)) in
  match ra (ctx n) with
  | no_code => fault
  | idle_loop | yield_returns => ret new
  | kthread_start =>
      let! fn := get_word (sp (ctx n)) in
      let! arg := get_word (sp (ctx n) + 8) in
      ret new
  | exit_returns => panic
  end.

(** The critical section of [context_switch_yield]. *)
Definition dispatch (hartid next : Z) : ST (task A) unit :=
  do! acquire (p_lock next) in
  do! (if next =? cpu_idle hartid then ret tt else upd_proc next (set_p_state PROC_RUNNING)) in
  do! upd_cpu (set_c_proc next) in
  release (p_lock next).

Definition context_switch_yield (old : Z) (ret_addr : code) : ST (task A) Z :=
  let! hartid := r_tp in
  let! c := thiscpu in
  let! next := dequeue_proc hartid in
  let next := if next =? NULL then cpu_idle hartid else next in
  do! dispatch hartid next in
  context_switch old next ret_addr.

(** The part of [sched_yield] before the switch. *)
Definition put_back : ST (task A) Z :=
  let! c := thiscpu in
  let p := c_proc c in
  if p =? NULL then panic else
  let! x := get_proc p in
  do! (if p_state x =? PROC_RUNNING then
         do! upd_proc p (set_p_state PROC_RUNNABLE) in
         let! hartid := r_tp in
         enqueue_proc hartid p
       else ret tt) in
  do! upd_cpu (set_c_proc NULL) in
  ret p.

Definition sched_yield (ret_addr : code) : ST (task A) Z :=
  let! p := put_back in context_switch_yield p ret_addr.

(** ** kthread.c *)

Definition kthread_create (fn arg : Z) (name : option cstr) : ST (task A) Z :=
  let! p := alloc_proc in
  if p =? NULL then ret NULL else
  do! (match name with
       | Some name => upd_proc p (set_comm (strncpy_field 16 name))
       | None => ret tt
       end) in
  let! i := alloc_pid in
  do! upd_proc p (set_pid i) in
  do! upd_proc p (set_tgid i) in
  let! kpagetable := gets t_kpagetable in
  do! upd_proc p (set_pagetable kpagetable) in
  do! lock_init (p_lock p) in
  let! k := on_alloc (ka_alloc PAGE_SIZE) in
  do! upd_proc p (set_kstack k) in
  if k =? NULL then do! free_proc p in ret NULL else
  let stack_top := and_not (u64 (k + PAGE_SIZE)) 0xF in
  do! upd_proc p (fun x => set_ctx (set_sp stack_top (set_ra kthread_start (ctx x))) x) in
  let args := u64 (stack_top - 16) in
  do! put_word args fn in
  do! put_word (args + 8) arg in
  do! upd_proc p (fun x => set_ctx (set_sp (u64 (stack_top - 16)) (ctx x)) x) in
  do! upd_proc p (set_p_state PROC_RUNNABLE) in
  let! hartid := r_tp in
  do! enqueue_proc hartid p in
  ret p.

(** The call of [sched_yield] ends the run of the thread; the [panic] after it
    is what [context_switch] does for a thread with this return address. *)
Definition kthread_exit (ret_code : Z) : ST (task A) Z :=
  let! c := thiscpu in
  let p := c_proc c in
  if p =? NULL then panic else
  do! upd_proc p (set_p_state PROC_ZOMBIE) in
  sched_yield exit_returns.

End sched.
