(* ===== verification/ProcProof.v ===== *)
(** Creating and freeing a process: what [alloc_proc], [free_proc] and
    [kthread_create] leave of the state they run in. *)

From S2P Require Import Prelude ListHead Sync Machine Alloc Hashtable Vfs VfsProof DentryCache DentryProof OpenFile FdTable FdProof Namei Pagetable Proc Vma Sched.

(** ** Descriptor tables and the root entry *)

Section vfs.
Context {A : Type} `{KAlloc A} `{FsCode A} {own : A -> gmap Z Z -> Prop} {HB : KBlocks A own}.

(** The parts of the file system that process creation does not touch. *)
Record vfs_kept (s s' : vfs A) : Prop := {
  vk_cpu : v_cpu s' = v_cpu s;
  vk_links : v_links s' = v_links s;
  vk_mounts : v_mounts s' = v_mounts s;
  vk_root : v_root_mount s' = v_root_mount s
}.

Lemma vfs_kept_refl s : vfs_kept s s.
Proof. done. Qed.

Lemma vfs_kept_trans s1 s2 s3 : vfs_kept s1 s2 -> vfs_kept s2 s3 -> vfs_kept s1 s3.
Proof. intros [] []. split; congruence. Qed.

(** A new descriptor table at [t], its array at [a]. *)
Definition fresh_fdt (X : gmap Z Z) (t a : Z) (s : vfs A) : Prop :=
  apart_from t sizeof_fd_table X /\ (<[t := sizeof_fd_table]> X) !! a = None /\ t <> NULL /\ t <> a /\
  own (v_env s) (<[a := 8 * NR_OPEN_DEFAULT]> (<[t := sizeof_fd_table]> X)) /\
  v_fdts s !! t = Some (FdTable a NR_OPEN_DEFAULT 0) /\
  v_arrays s !! a = Some (replicate (Z.to_nat NR_OPEN_DEFAULT) NULL).

Lemma fd_table_alloc_fresh st X (s : vfs A) :
  locks st ∅ s -> own (v_env s) X ->
  wp False fd_table_alloc
    (fun t s' => locks st ∅ s' /\ vfs_kept s s' /\ v_dentries s' = v_dentries s /\
       ((t = NULL /\ own (v_env s') X) \/ exists a, fresh_fdt X t a s')) s.
Proof.
  intros Hl Ho. unfold fd_table_alloc. apply wp_bind, wp_lift.
  eapply wp_kb_alloc; [exact Ho|done|intros a' Ha|intros t a' Ht Hfr Ha].
  { apply wp_ret. split_and!; [same_state s|destruct s; done|by destruct s|]. left. by destruct s. }
  destruct (Z.eqb_spec t NULL) as [->|_]; [done|]. apply wp_bind. unfold alloc_array.
  apply wp_bind, wp_lift. destruct s as [hh c l su ino de fi ft mo fd ar ih dh co r e]; cbn in *.
  eapply wp_kb_alloc; [exact Ha|done|intros a1 Ha1|intros b a1 Hb Hfr1 Ha1].
  { apply wp_ret. apply wp_bind, wp_lift. cbn.
    eapply wp_kb_free; [exact Ha1|by destruct Hfr|]. intros a2 Ha2. apply wp_ret.
    split_and!; [done|done|done|]. by left. }
  destruct (Z.eqb_spec b NULL) as [->|_]; [done|]. apply wp_bind, wp_modify, wp_ret. cbn.
  destruct (Z.eqb_spec b NULL) as [->|_]; [done|].
  eapply wp_bind_mono; [apply (clear_slots b [] 0); [apply lookup_insert_eq|done]|]. intros [] s' ->. cbn.
  apply wp_bind, wp_modify, wp_bind, wp_modify, wp_ret. cbn.
  split; [by apply hart_ok_lock_init; [|set_solver]|]. split; [done|]. split; [done|].
  right. exists b. destruct Hfr1 as [Hn1 _]. split_and!; try done.
  - by intros ->.
  - intros ->. by rewrite lookup_insert_eq in Hn1.
  - cbn. apply lookup_insert_eq.
  - cbn. apply lookup_insert_eq.
Qed.

Lemma fresh_fdt_same X t a s s' :
  fresh_fdt X t a s -> v_env s' = v_env s -> v_fdts s' = v_fdts s -> v_arrays s' = v_arrays s -> fresh_fdt X t a s'.
Proof. intros (? & ? & ? & ? & ? & ? & ?) He Hf Ha. unfold fresh_fdt. rewrite He, Hf, Ha. by split_and!. Qed.

Lemma for_up_skip {S} (body : Z -> ST S unit) n : forall i (s : S),
  (forall j, i <= j < i + Z.of_nat n -> body j s = Ok (tt, s)) -> for_up n i body s = Ok (tt, s).
Proof.
  induction n as [|n IH]; intros i s Hb; cbn [for_up]; [done|].
  rewrite (bind_Ok _ _ _ _ _ (Hb i ltac:(lia))). apply IH. intros j Hj. apply Hb. lia.
Qed.

Lemma fd_table_free_fresh st X t a (s : vfs A) :
  locks st ∅ s -> fresh_fdt X t a s ->
  wp False (fd_table_free t)
    (fun _ s' => locks st ∅ s' /\ vfs_kept s s' /\ v_dentries s' = v_dentries s /\ own (v_env s') X) s.
Proof.
  intros Hl ([Hnt _] & Hna & Ht & Hta & Ho & Hf & Ha). unfold fd_table_free.
  destruct (Z.eqb_spec t NULL) as [|_]; [done|]. eapply wp_enter; [exact Hl|]. intros h Hh.
  apply wp_bind. eapply wp_obj; [same_state s|]. apply wp_bind. cbn [max_fds].
  eapply wp_run; [apply for_up_skip|].
  { intros j Hj. unfold get_slot, get_fdt, obj, load, bind. destruct s; cbn in *. rewrite Hf. cbn.
    unfold get_fd, load. cbn. rewrite Ha. cbn. destruct (Z.ltb_spec j 0); [lia|].
    rewrite lookup_replicate_2; [done|]. change NR_OPEN_DEFAULT with 32 in *. lia. }
  apply wp_bind. eapply wp_obj; [same_state s|]. apply wp_bind. unfold free_array. cbn [fds].
  apply wp_bind, wp_lift. destruct s; cbn in *. eapply wp_kb_free; [exact Ho|done|]. intros a1 Ha1.
  apply wp_modify. cbn. eapply wp_leave; [done|]. intros h1 Hh1. apply wp_bind, wp_lift. cbn.
  eapply wp_kb_free; [exact Ha1|done|]. intros a2 Ha2. apply wp_modify. cbn. by split_and!.
Qed.

(** Nothing is mounted at the root, or the root directory is a live entry that
    can take [n] more references. *)
Definition root_ok (n : Z) (s : vfs A) : Prop :=
  v_root_mount s = NULL \/
  exists m, v_mounts s !! v_root_mount s = Some m /\
    (mnt_root m = NULL \/
     exists d, v_dentries s !! mnt_root m = Some d /\ 0 < d_refcnt d /\ d_refcnt d + n < 2 ^ 32).

(** The entry [root] is the root directory, if there is one: it has more than
    [lo] references and can take [n] more. *)
Definition rooted (lo n root : Z) (s : vfs A) : Prop :=
  exists m d, v_root_mount s <> NULL /\ v_mounts s !! v_root_mount s = Some m /\ mnt_root m = root /\
    v_dentries s !! root = Some d /\ lo < d_refcnt d /\ d_refcnt d + n < 2 ^ 32.

Lemma root_ok_kept n (s s' : vfs A) :
  root_ok n s -> vfs_kept s s' -> v_dentries s' = v_dentries s -> root_ok n s'.
Proof. intros Hr [] Hd. unfold root_ok in *. by rewrite Hd, vk_mounts0, vk_root0. Qed.

Lemma root_ok_mono n k (s : vfs A) : root_ok n s -> k <= n -> root_ok k s.
Proof.
  intros [Hr|(m & Hm & [Hr|(d & Hd & Hp & Hk)])] Hle; [by left|right; exists m; auto|].
  right. exists m. split; [done|]. right. exists d. split_and!; [done|done|lia].
Qed.

Lemma vfs_get_root_spec st n (s : vfs A) :
  locks st ∅ s -> root_ok n s ->
  wp False vfs_get_root
    (fun root s' => locks st ∅ s' /\ vfs_kept s s' /\ v_dentries s' = v_dentries s /\ v_env s' = v_env s /\
       v_fdts s' = v_fdts s /\ v_arrays s' = v_arrays s /\ (root = NULL /\ root_ok n s' \/ rooted 0 n root s')) s.
Proof.
  intros Hl Hr. unfold vfs_get_root. eapply wp_enter; [exact Hl|]. intros h Hh.
  pose proof Hr as Hr0. destruct s; cbn in *.
  apply wp_bind, wp_gets. cbn. destruct (Z.eqb_spec v_root_mount NULL) as [->|Hne].
  { apply wp_bind, wp_ret. eapply wp_leave; [done|]. intros h1 Hh1. apply wp_ret. split_and!; try done. by left. }
  destruct Hr as [|(m & Hm & Hr)]; [done|].
  apply wp_bind, wp_bind. eapply wp_obj; [done|]. apply wp_ret. eapply wp_leave; [done|]. intros h1 Hh1.
  apply wp_ret. split_and!; try done. destruct Hr as [->|(d & Hd & Hp & Hk)]; [by left|].
  right. exists m, d. by split_and!.
Qed.

(** What changes when only the root entry's count does. *)
Definition root_counted (s s' : vfs A) : Prop :=
  vfs_kept s s' /\ v_env s' = v_env s /\ v_fdts s' = v_fdts s /\ v_arrays s' = v_arrays s.

Lemma rooted_ok lo n root (s : vfs A) : 0 <= lo -> rooted lo n root s -> root_ok n s.
Proof. intros Hlo (m & d & Hr & Hm & <- & Hd & Hp & Hk). right. exists m. split; [done|]. right. exists d. split_and!; [done|lia|done]. Qed.

Lemma root_get st n root (s : vfs A) :
  locks st ∅ s -> root <> NULL -> 1 <= n -> rooted 0 n root s ->
  wp False (dentry_get root)
    (fun _ s' => locks st ∅ s' /\ root_counted s s' /\ rooted 1 (n - 1) root s') s.
Proof.
  intros Hl Hne Hn (m & d & Hr & Hm & Hmr & Hd & Hp & Hk). unfold dentry_get.
  destruct (Z.eqb_spec root NULL) as [|_]; [done|]. eapply wp_enter; [exact Hl|]. intros h Hh.
  apply wp_bind. eapply wp_upd; [same_state s|]. eapply wp_exit; [same_state s|]. intros h1 Hh1.
  destruct s; cbn in *. split; [done|]. split; [done|]. eexists m, _. cbn.
  rewrite lookup_insert_eq. split_and!; [done..| |]; destruct d; cbn in *; rewrite wrap_small; unfold in_width; lia.
Qed.

Lemma root_put st n root (s : vfs A) :
  locks st ∅ s -> root <> NULL -> 0 <= n -> rooted 1 n root s ->
  wp False (dentry_put root)
    (fun _ s' => locks st ∅ s' /\ root_counted s s' /\ root_ok n s') s.
Proof.
  intros Hl Hne Hn (m & d & Hr & Hm & Hmr & Hd & Hp & Hk). unfold dentry_put.
  destruct (Z.eqb_spec root NULL) as [|_]; [done|]. eapply wp_enter; [exact Hl|]. intros h Hh.
  apply wp_bind. eapply wp_upd; [same_state s|]. destruct s; cbn in *.
  apply wp_bind. eapply wp_obj; [cbn; apply lookup_insert_eq|].
  assert (d_refcnt (set_d_refcnt (u32 (d_refcnt d - 1)) d) = d_refcnt d - 1) as E.
  { destruct d; cbn in *. rewrite wrap_small; [done|unfold in_width; lia]. }
  rewrite E. destruct (Z.eqb_spec (d_refcnt d - 1) 0); [lia|].
  eapply wp_exit; [done|]. intros h1 Hh1. split; [done|]. split; [done|].
  apply (rooted_ok 0 n root); [done|]. eexists m, _. cbn.
  rewrite lookup_insert_eq. split_and!; [done..| |]; rewrite E; lia.
Qed.

End vfs.

(** ** Addresses that belong to live blocks *)

(** [a] is in static storage or in a block of [X]. *)
Definition owned (X : gmap Z Z) (a : Z) : Prop := a < 0 \/ exists q n, X !! q = Some n /\ q <= a < q + n.

(** The list nodes in owned memory are the same. *)
Definition keeps (X : gmap Z Z) (st st' : lstore) : Prop :=
  forall a, owned X a -> lnext st' !! a = lnext st !! a /\ lprev st' !! a = lprev st !! a.

Lemma keeps_refl X st : keeps X st st.
Proof. done. Qed.

Lemma keeps_trans X st1 st2 st3 : keeps X st1 st2 -> keeps X st2 st3 -> keeps X st1 st3.
Proof. intros H1 H2 a Ha. destruct (H1 a Ha), (H2 a Ha). split; congruence. Qed.

Lemma keeps_allocated X st st' a : keeps X st st' -> owned X a -> allocated st a -> allocated st' a.
Proof. intros Hk Ho [Hn Hp]. destruct (Hk a Ho) as [En Ep]. split; congruence. Qed.

Lemma is_list_keeps X st st' h xs :
  is_list st h xs -> keeps X st st' -> (forall a, a ∈ h :: xs -> owned X a) -> is_list st' h xs.
Proof.
  intros [Hnd Hc] Hk Ho. split; [done|]. eapply chain_frame; [| |exact Hc].
  - intros a Ha. apply Hk, Ho. by rewrite app_comm_cons, removelast_snoc in Ha.
  - intros a Ha. apply Hk, Ho. cbn in Ha. set_solver.
Qed.

Lemma owned_apart X p n a : 0 < p -> apart_from p n X -> p <= a < p + n -> ~ owned X a.
Proof. intros Hp [_ Hd] Ha [?|(q & k & Hq & Hak)]; [lia|]. specialize (Hd q k Hq). lia. Qed.

Lemma owned_insert X p n a : X !! p = None -> owned X a -> owned (<[p := n]> X) a.
Proof.
  intros Hp [?|(q & k & Hq & Ha)]; [by left|]. right. exists q, k. split; [|done].
  rewrite lookup_insert_ne; [done|]. intros ->. by rewrite Hp in Hq.
Qed.

Lemma owned_new X p n a : p <= a < p + n -> owned (<[p := n]> X) a.
Proof. intros Ha. right. exists p, n. split; [apply lookup_insert_eq|done]. Qed.

(** New and freed nodes at addresses that belong to no block. *)
Lemma keeps_new X st l :
  (forall a, a ∈ l -> ~ owned X a) ->
  keeps X st (foldr (fun a st => LStore (<[a := 0]> (lnext st)) (<[a := 0]> (lprev st))) st l).
Proof.
  induction l as [|b l IH]; intros Hl; [apply keeps_refl|]. eapply keeps_trans; [apply IH; set_solver|].
  intros a Ha. assert (a <> b) by (intros ->; by apply (Hl b); [left|]). cbn.
  by rewrite !lookup_insert_ne.
Qed.

Lemma keeps_free X st l :
  (forall a, a ∈ l -> ~ owned X a) ->
  keeps X st (foldr (fun a st => LStore (delete a (lnext st)) (delete a (lprev st))) st l).
Proof.
  induction l as [|b l IH]; intros Hl; [apply keeps_refl|]. eapply keeps_trans; [apply IH; set_solver|].
  intros a Ha. assert (a <> b) by (intros ->; by apply (Hl b); [left|]). cbn.
  by rewrite !lookup_delete_ne.
Qed.

Lemma new_allocated st l a :
  a ∈ l -> allocated (foldr (fun a st => LStore (<[a := 0]> (lnext st)) (<[a := 0]> (lprev st))) st l) a.
Proof.
  induction l as [|b l IH]; intros Ha; [by apply not_elem_of_nil in Ha|]. cbn [foldr].
  destruct (decide (a = b)) as [->|Hne]; [apply allocated_new|].
  apply elem_of_cons in Ha as [?|Ha]; [done|]. destruct (IH Ha). split; cbn; by rewrite lookup_insert_ne.
Qed.

(** ** Processes *)

Definition proc_nodes (p : Z) : list Z := [p_vma p; p_runq p; p_children p; p_sibling p].

Lemma proc_nodes_apart X p a : 0 < p -> apart_from p sizeof_proc X -> a ∈ proc_nodes p -> ~ owned X a.
Proof.
  intros Hp Hd Ha. eapply owned_apart; [done..|]. unfold proc_nodes, p_vma, p_runq, p_children, p_sibling in Ha.
  unfold sizeof_proc. set_unfold in Ha. lia.
Qed.

(** What process creation leaves alone. *)
Record task_kept {A} (s s' : task A) : Prop := {
  tk_hart : cpu_of s' = cpu_of s;
  tk_cpus : t_cpus s' = t_cpus s;
  tk_words : t_words s' = t_words s;
  tk_kpagetable : t_kpagetable s' = t_kpagetable s
}.

Section procs.
Context {A : Type} `{KAlloc A} `{FsCode A} {own : A -> gmap Z Z -> Prop} {HB : KBlocks A own}.

Lemma wp_upd_proc {E} p f x (Q : unit -> task A -> Prop) s :
  t_procs s !! p = Some x -> Q tt (set_t_procs (<[p := f x]> (t_procs s)) s) -> wp E (upd_proc p f) Q s.
Proof. intros Hx HQ. eapply wp_store; [by rewrite Hx|done]. Qed.

Lemma wp_get_proc {E} p x (Q : proc -> task A -> Prop) s :
  t_procs s !! p = Some x -> Q x s -> wp E (get_proc p) Q s.
Proof. intros. by eapply wp_load. Qed.

(** A process that [alloc_proc] has returned, in memory taken since [X]. *)
Definition new_proc (p t root : Z) : proc :=
  Proc (replicate 16 0) 0 0 NULL (Context no_code 0 (p_ktf p) SSTATUS_SIE) NULL NULL PROC_UNUSED NULL t root.

Record created (X : gmap Z Z) (n p t a root : Z) (s : task A) : Prop := {
  cr_pos : 0 < p;
  cr_apart : apart_from p sizeof_proc X;
  cr_fdt : fresh_fdt (own := own) (<[p := sizeof_proc]> X) t a (t_vfs s);
  cr_root : root = NULL /\ root_ok n (t_vfs s) \/ root <> NULL /\ rooted 1 n root (t_vfs s);
  cr_nodes : forall b, b ∈ proc_nodes p -> allocated (links_of s) b
}.

(** The last steps of [alloc_proc]: the working directory. *)
Lemma alloc_proc_root st X n p t a x s :
  locks st ∅ s -> fresh_fdt (own := own) (<[p := sizeof_proc]> X) t a (t_vfs s) -> root_ok n (t_vfs s) -> 1 <= n ->
  0 < p -> apart_from p sizeof_proc X -> (forall b, b ∈ proc_nodes p -> allocated (links_of s) b) -> t_procs s !! p = Some x ->
  wp False
    (let! root := on_vfs vfs_get_root in
     do! upd_proc p (set_pwd root) in
     do! (if root =? NULL then ret tt else on_vfs (dentry_get root)) in
     ret p)
    (fun r s' => r = p /\ locks st ∅ s' /\ task_kept s s' /\ t_next_pid s' = t_next_pid s /\ links_of s' = links_of s /\
       exists root, created X (n - 1) p t a root s' /\ t_procs s' = <[p := set_pwd root x]> (t_procs s)) s.
Proof.
  intros Hl Hfresh Hr Hn Hp Hfr Hnew Hx. destruct s as [v procs cpus vmas tables words np kp]. cbn in *.
  apply wp_bind, wp_lift. cbn. eapply wp_mono; [eapply vfs_get_root_spec; [exact Hl|exact Hr]|done|].
  cbn. intros root v2 (Hl2 & [Kc Kl Km Kr] & Hd2 & He2 & Hf2 & Ha2 & Hroot).
  apply wp_bind. eapply wp_upd_proc; [exact Hx|]. cbn.
  assert (fresh_fdt (own := own) (<[p:=sizeof_proc]> X) t a v2) as Hfresh2 by by eapply fresh_fdt_same.
  assert (forall b, b ∈ proc_nodes p -> allocated (v_links v2) b) as Hnew2 by by rewrite Kl.
  destruct (Z.eqb_spec root NULL) as [->|Hne].
  - apply wp_bind, wp_ret, wp_ret. cbn. split_and!; [done|done|by split; cbn; congruence|done|done|].
    exists NULL. split; [|done]. split; [done..| |done]. left. split; [done|].
    destruct Hroot as [[_ Hroot]|Hroot]; [|apply (rooted_ok 0) in Hroot; [|lia]]; (eapply root_ok_mono; [eassumption|lia]).
  - destruct Hroot as [[-> _]|Hroot]; [done|]. apply wp_bind, wp_lift. cbn.
    eapply wp_mono; [eapply root_get; [exact Hl2|done|done|exact Hroot]|done|].
    intros [] v3 (Hl3 & ([Kc3 Kl3 Km3 Kr3] & Ke3 & Kf3 & Ka3) & Hroot3). apply wp_ret. cbn.
    split_and!; [done|done|by split; cbn; congruence|done|congruence|].
    exists root. split; [|done]. split; [done|done|by eapply fresh_fdt_same|by right|cbn; by rewrite Kl3].
Qed.

Lemma alloc_proc_spec st X n s :
  locks st ∅ s -> own (v_env (t_vfs s)) X -> root_ok n (t_vfs s) -> 1 <= n ->
  (forall p, is_Some (t_procs s !! p) -> p < 0 \/ is_Some (X !! p)) ->
  wp False alloc_proc
    (fun p s' => locks st ∅ s' /\ task_kept s s' /\ t_next_pid s' = t_next_pid s /\ keeps X (links_of s) (links_of s') /\
       ((p = NULL /\ t_procs s' = t_procs s /\ own (v_env (t_vfs s')) X /\ root_ok (n - 1) (t_vfs s')) \/
        exists t a root, created X (n - 1) p t a root s' /\
          t_procs s' = <[p := new_proc p t root]> (t_procs s))) s.
Proof.
  intros Hl Ho Hr Hn Hprocs. unfold alloc_proc, kzalloc_proc.
  apply wp_bind, wp_bind, wp_lift, wp_lift. eapply wp_kb_alloc; [exact Ho|done|intros a' Ha|intros p a' Hp Hfr Ha].
  { apply wp_ret, wp_ret. destruct s as [[] procs cpus vmas tables words np kp]. cbn in *.
    split_and!; try done. left. split_and!; try done. eapply root_ok_mono; [exact Hr|lia]. }
  destruct (Z.eqb_spec p NULL) as [->|Hp0]; [done|].
  assert (t_procs s !! p = None) as Hpn.
  { destruct (t_procs s !! p) eqn:E; [|done]. destruct (Hprocs p) as [?|[k Hk]]; [by eexists|lia|].
    destruct Hfr as [Hfr _]. by rewrite Hfr in Hk. }
  destruct s as [v procs cpus vmas tables words np kp]. destruct v as [hh c l su ino de fi ft mo fd ar ih dh co r e].
  cbn in *. apply wp_bind, wp_modify, wp_bind, wp_modify, wp_bind, wp_modify, wp_ret. cbn.
  destruct (Z.eqb_spec p NULL) as [|_]; [done|].
  apply wp_bind. eapply wp_upd_proc; [apply lookup_insert_eq|]. cbn. rewrite insert_insert_eq.
  apply wp_bind. eapply wp_upd_proc; [apply lookup_insert_eq|]. cbn. rewrite insert_insert_eq.
  pose proof (fun a => proc_nodes_apart X p a Hp Hfr) as Hnodes.
  apply wp_bind, wp_lift.
  eapply wp_mono; [eapply fd_table_alloc_fresh; [|exact Ha]|done|].
  { by apply hart_ok_lock_init; [|set_solver]. }
  cbn. intros t1 v1 (Hl1 & Hk1 & Hd1 & Hcase). cbn in Hl1.
  apply wp_bind. eapply wp_upd_proc; [apply lookup_insert_eq|]. cbn. rewrite insert_insert_eq.
  destruct Hk1 as [Kc Kl Km Kr]. cbn in Kc, Kl, Km, Kr, Hd1.
  assert (root_ok n v1) as Hr1 by (unfold root_ok in *; cbn in Hr; by rewrite Kr, Km, Hd1).
  assert (keeps X l (v_links v1)) as Hkeep by (rewrite Kl; by apply (keeps_new X l (proc_nodes p))).
  destruct Hcase as [[-> Ho1]|[a1 Hfresh]].
  - (* no descriptor table *)
    cbn. apply wp_bind. unfold kfree_proc. apply wp_bind, wp_lift, wp_lift. cbn.
    eapply wp_kb_free; [exact Ho1|apply Hfr|]. intros a2 Ha2.
    apply wp_bind, wp_modify, wp_modify, wp_ret. cbn. rewrite delete_insert_id by done.
    destruct v1; cbn in *. split_and!; [done|by split|done| |].
    + eapply keeps_trans; [exact Hkeep|]. by apply (keeps_free X v_links (proc_nodes p)).
    + left. split_and!; [done..|]. eapply root_ok_mono; [exact Hr1|lia].
  - assert (t1 <> NULL) as Ht1 by apply Hfresh.
    destruct (Z.eqb_spec t1 NULL) as [|_]; [done|].
    eapply wp_mono; [eapply (alloc_proc_root st X n p t1 a1); [exact Hl1|exact Hfresh|exact Hr1|done..| |apply lookup_insert_eq]|done|].
    { intros b Hb. cbn. rewrite Kl. by apply (new_allocated l (proc_nodes p)). }
    cbn. intros p' s2 (-> & Hl2 & [Q1 Q2 Q3 Q4] & Hnp & El & root & Hcr & Eps). cbn in *.
    rewrite insert_insert_eq in Eps. rewrite El. split_and!; [done|by split; cbn; congruence|done|done|].
    right. by exists t1, a1, root.
Qed.

Lemma rooted_kept lo n root (s s' : vfs A) :
  rooted lo n root s -> vfs_kept s s' -> v_dentries s' = v_dentries s -> rooted lo n root s'.
Proof. intros Hr [] Hd. unfold rooted in *. by rewrite Hd, vk_mounts0, vk_root0. Qed.

(** Dropping the working directory of a created process. *)
Lemma drop_root st n root (s : vfs A) :
  locks st ∅ s -> 0 <= n -> root <> NULL -> rooted 1 n root s ->
  wp False (dentry_put root)
    (fun _ s' => locks st ∅ s' /\ vfs_kept s s' /\ v_env s' = v_env s /\ root_ok n s') s.
Proof.
  intros Hl Hn Hne Hr. eapply wp_mono; [eapply root_put; [exact Hl|done|done|exact Hr]|done|].
  intros [] s' (Hl' & (Hk & He & _) & Hr'). by split_and!.
Qed.

(** Freeing a process that was created and never ran. *)
Lemma free_proc_spec st X n p t a root x s :
  locks st ∅ s -> created X n p t a root s -> 0 <= n -> t_procs s !! p = Some x ->
  parent x = NULL -> kstack x = NULL -> tf x = NULL -> pagetable x = t_kpagetable s ->
  p_fd_table x = t -> pwd x = root ->
  wp False (free_proc p)
    (fun _ s' => locks st ∅ s' /\ task_kept s s' /\ t_next_pid s' = t_next_pid s /\ keeps X (links_of s) (links_of s') /\
       t_procs s' = delete p (t_procs s) /\ own (v_env (t_vfs s')) X /\ root_ok n (t_vfs s')) s.
Proof.
  intros Hl [Hp Hap Hfdt Hroot _] Hn Hx Epa Eks Etf Ept Efd Ewd. unfold free_proc.
  destruct (Z.eqb_spec p NULL) as [->|_]; [done|]. apply wp_bind. eapply wp_get_proc; [exact Hx|].
  rewrite Epa, Eks, Etf, Efd, Ewd. change (NULL =? NULL) with true. cbn iota.
  do 3 (apply wp_bind, wp_ret). apply wp_bind, wp_gets. rewrite Ept, Z.eqb_refl, orb_true_r. apply wp_bind, wp_ret.
  assert (t <> NULL) as Ht by apply Hfdt. destruct (Z.eqb_spec t NULL) as [|_]; [done|].
  destruct s as [v procs cpus vmas tables words np kp]. cbn in *.
  apply wp_bind, wp_bind, wp_lift. eapply wp_mono; [eapply fd_table_free_fresh; [exact Hl|exact Hfdt]|done|].
  cbn. intros [] v1 (Hl1 & Hk1 & Hd1 & Ho1). eapply wp_upd_proc; [exact Hx|]. cbn.
  assert (forall v2 procs2, v_links v2 = v_links v -> v_cpu v2 = v_cpu v -> locks st ∅ v2 -> root_ok n v2 ->
    v_env v2 = v_env v1 -> delete p procs2 = delete p procs ->
    wp False (kfree_proc p) (fun _ s' => locks st ∅ s' /\ task_kept (Task v procs cpus vmas tables words np kp) s' /\
       t_next_pid s' = np /\ keeps X (v_links v) (links_of s') /\
       t_procs s' = delete p procs /\ own (v_env (t_vfs s')) X /\ root_ok n (t_vfs s'))
      (Task v2 procs2 cpus vmas tables words np kp)) as Hend.
  { intros v2 procs2 Ev Ec Hl2 Hr2 Ee Ep. unfold kfree_proc. apply wp_bind, wp_lift, wp_lift. cbn. rewrite Ee.
    eapply wp_kb_free; [exact Ho1|apply Hap|]. intros a2 Ha2. apply wp_bind, wp_modify, wp_modify. cbn.
    destruct v2; cbn in *. subst v_links. split_and!; try done.
    apply (keeps_free X (v_links v) (proc_nodes p)). intros b. by apply proc_nodes_apart. }
  pose proof Hk1 as [Kc Kl _ _].
  destruct Hroot as [[-> Hroot]|[Hne Hroot]].
  - cbn. apply wp_bind, wp_ret. apply Hend; [done..|by eapply root_ok_kept|done|by rewrite delete_insert_eq].
  - destruct (Z.eqb_spec root NULL) as [|_]; [done|]. apply wp_bind, wp_bind, wp_lift. cbn.
    eapply wp_mono; [eapply drop_root; [exact Hl1|done|done|by eapply rooted_kept]|done|].
    cbn. intros [] v3 (Hl3 & [Kc3 Kl3 _ _] & Ke3 & Hr3). eapply wp_upd_proc; [apply lookup_insert_eq|]. cbn.
    apply Hend; [congruence|congruence|done|done|done|]. by rewrite !delete_insert_eq.
Qed.

End procs.
