(* ===== verification/SchedProof.v ===== *)
(** The scheduler: run queues, context switches and kernel threads, and the
    order in which threads get the hart. *)

From S2P Require Import Prelude ListHead Sync Machine Alloc Hashtable Vfs VfsProof DentryProof FdTable Pagetable Proc Vma Sched ProcProof.

(** ** What happens on a hart

    The running thread yields (by itself or because of an interrupt), exits, or
    creates a kernel thread. *)

Inductive event := Yield | Exit (code : Z) | Spawn (fn arg : Z) (name : option cstr).
#[global] Instance event_eq_dec : EqDecision event.
Proof. solve_decision. Defined.
Inductive out := Ran (p : Z) | Spawned (p : Z) | Nothing.

Section run.
Context {A : Type} `{KAlloc A} `{FsCode A}.

(** The idle loop never calls [kthread_exit]. *)
Definition run_event (e : event) : ST (task A) out :=
  match e with
  | Yield => let! p := sched_yield yield_returns in ret (Ran p)
  | Exit code =>
      let! hartid := r_tp in
      let! c := thiscpu in
      if c_proc c =? cpu_idle hartid then ret Nothing else
      let! p := kthread_exit code in ret (Ran p)
  | Spawn fn arg name => let! p := kthread_create fn arg name in ret (Spawned p)
  end.

Fixpoint run_events (es : list event) : ST (task A) (list out) :=
  match es with
  | [] => ret []
  | e :: es => let! o := run_event e in let! os := run_events es in ret (o :: os)
  end.

End run.

(** ** The round-robin machine

    Its state is the running thread and the queue of the waiting ones. *)

Definition rr_next (idle : Z) (q : list Z) : Z * list Z :=
  match q with [] => (idle, []) | p :: q => (p, q) end.

Definition rr_step (idle : Z) (e : event) (o : out) (st : Z * list Z) : option (Z * list Z) :=
  let '(cur, q) := st in
  match e, o with
  | Yield, Ran p =>
      let st' := rr_next idle (if cur =? idle then q else q ++ [cur]) in
      if p =? st'.1 then Some st' else None
  | Exit _, Ran p =>
      let st' := rr_next idle q in
      if negb (cur =? idle) && (p =? st'.1) then Some st' else None
  | Exit _, Nothing => if cur =? idle then Some st else None
  | Spawn _ _ _, Spawned p => Some (if p =? NULL then st else (cur, q ++ [p]))
  | _, _ => None
  end.

Fixpoint rr_run (idle : Z) (es : list event) (os : list out) (st : Z * list Z) : option (Z * list Z) :=
  match es, os with
  | [], [] => Some st
  | e :: es, o :: os => st' ← rr_step idle e o st; rr_run idle es os st'
  | _, _ => None
  end.

(** The threads that got the hart, in order. *)
Definition dispatched (os : list out) : list Z := omap (fun o => match o with Ran p => Some p | _ => None end) os.

Lemma rr_fair idle es : forall os cur q st' i p,
  rr_run idle es os (cur, q) = Some st' -> q !! i = Some p -> (i < length (dispatched os))%nat ->
  dispatched os !! i = Some p.
Proof.
  induction es as [|e es IH]; intros [|o os] cur q st' i p Hr Hq Hi; cbn [rr_run] in Hr; try done; [cbn in Hi; lia|].
  apply bind_Some in Hr as ([cur1 q1] & Hs & Hr).
  assert (forall c r, o = Ran c -> rr_next idle r = (cur1, q1) -> c = cur1 -> q `prefix_of` r ->
    dispatched (o :: os) !! i = Some p) as Hrun.
  { intros c r -> Hnx Hc [k ->]. destruct q as [|p0 q]; [done|]. cbn in Hnx. simplify_eq.
    change (dispatched (Ran cur1 :: os)) with (cur1 :: dispatched os) in Hi |- *.
    destruct i as [|i]; cbn in Hq; [done|]. cbn in Hi |- *.
    eapply IH; [exact Hr|by apply lookup_app_l_Some|lia]. }
  destruct e as [|code|fn arg name], o as [c|c|]; cbn in Hs; try done.
  - destruct (Z.eqb_spec c (rr_next idle (if cur =? idle then q else q ++ [cur])).1) as [->|]; [|done].
    injection Hs as Hs. eapply Hrun; [done|exact Hs|by rewrite Hs|]. destruct (cur =? idle); [done|by eexists].
  - destruct (Z.eqb_spec c (rr_next idle q).1) as [->|]; [|by rewrite andb_false_r in Hs].
    destruct (cur =? idle); [done|]. injection Hs as Hs. eapply Hrun; [done|exact Hs|by rewrite Hs|done].
  - destruct (cur =? idle); [|done]. injection Hs as <- <-. exact (IH os cur q st' i p Hr Hq Hi).
  - injection Hs as Hs. eapply (IH os cur1 q1); [exact Hr| |done].
    destruct (c =? NULL); injection Hs as <- <-; [done|by apply lookup_app_l_Some].
Qed.

(** The number of switches that a run is sure to make. *)
Definition yields (es : list event) : nat := length (filter (fun e => e = Yield) es).

Lemma rr_yields idle es : forall os st st',
  rr_run idle es os st = Some st' -> (yields es <= length (dispatched os))%nat.
Proof.
  induction es as [|e es IH]; intros [|o os] st st' Hr; cbn [rr_run] in Hr; try done.
  apply bind_Some in Hr as ([cur1 q1] & Hs & Hr). apply IH in Hr. destruct st as [cur q]. unfold yields in *.
  destruct e as [|code|fn arg name]; [rewrite filter_cons_True by done|rewrite filter_cons_False by done..];
    destruct o as [c|c|]; cbn in Hs |- *; unfold dispatched in *; cbn; try done; lia.
Qed.

(** ** The invariant *)

Definition resumable {A} (s : task A) (x : proc) : Prop :=
  match ra (ctx x) with
  | idle_loop | yield_returns => True
  | kthread_start => is_Some (t_words s !! sp (ctx x)) /\ is_Some (t_words s !! (sp (ctx x) + 8))
  | no_code | exit_returns => False
  end.

Section sched.
Context {A : Type} `{KAlloc A} `{FsCode A} {own : A -> gmap Z Z -> Prop} {HB : KBlocks A own}.
Implicit Types s : task A.

(** Held between any two operations and inside a switch: the blocks are [X],
    the run queue of the hart is [q], [n] threads can still be created. *)
Record base (X : gmap Z Z) (n : Z) (q : list Z) (s : task A) : Prop := {
  b_locks : exists st, locks st ∅ s;
  b_hart : 0 <= cpu_of s < CPU_NUM;
  b_cpu : is_Some (t_cpus s !! cpu_of s);
  b_queue : is_list (links_of s) (runq_queue (cpu_of s)) (map p_runq q);
  b_own : own (v_env (t_vfs s)) X;
  b_root : root_ok n (t_vfs s);
  b_sizes p : is_Some (t_procs s !! p) -> p < 0 \/ X !! p = Some sizeof_proc;
  b_nodes p : is_Some (t_procs s !! p) -> 0 < p -> allocated (links_of s) (p_runq p);
  b_live p : p ∈ q -> 0 < p /\ exists x, t_procs s !! p = Some x /\ p_state x = PROC_RUNNABLE
}.

Definition idle_of s : Z := cpu_idle (cpu_of s).

(** The threads other than [old] can be resumed. *)
Definition parked (q : list Z) (old : Z) s : Prop :=
  (forall p x, p ∈ q -> p <> old -> t_procs s !! p = Some x -> resumable s x) /\
  exists x, t_procs s !! idle_of s = Some x /\ p_state x = PROC_IDLE /\ (idle_of s <> old -> resumable s x).

(** [cur] runs and the threads of [q] wait. *)
Record sched_inv (X : gmap Z Z) (n cur : Z) (q : list Z) (s : task A) : Prop := {
  si_base : base X n q s;
  si_cur : exists c, t_cpus s !! cpu_of s = Some c /\ c_proc c = cur;
  si_parked : parked q cur s;
  si_running : cur = idle_of s \/
    0 < cur /\ cur ∉ q /\ exists x, t_procs s !! cur = Some x /\ p_state x = PROC_RUNNING
}.

(** Addresses of the queue and its nodes. *)
Lemma base_queue_owned X n q s : base X n q s -> forall a, a ∈ runq_queue (cpu_of s) :: map p_runq q -> owned X a.
Proof.
  intros B a [->|Ha]%elem_of_cons; [left; pose proof (b_hart _ _ _ _ B); unfold runq_queue; lia|].
  apply list_elem_of_fmap in Ha as (p & -> & Hp). destruct (b_live _ _ _ _ B p Hp) as [Hpos [x [Hx _]]].
  destruct (b_sizes _ _ _ _ B p) as [?|Hs]; [by eexists|lia|]. right. exists p, sizeof_proc.
  split; [done|]. unfold p_runq, sizeof_proc. lia.
Qed.

Lemma runq_node_fresh X n q s p :
  base X n q s -> 0 < p -> p ∉ q -> p_runq p ∉ runq_queue (cpu_of s) :: map p_runq q.
Proof.
  intros B Hp Hq. pose proof (b_hart _ _ _ _ B). rewrite not_elem_of_cons. split; [unfold p_runq, runq_queue; lia|].
  intros (p' & E & Hp')%list_elem_of_fmap. unfold p_runq in E. assert (p' = p) by lia. by subst.
Qed.

(** ** Queue operations *)

Lemma check_hart_run h s : 0 <= h < CPU_NUM -> check_hart h s = Ok (tt, s).
Proof.
  intros Hh. unfold check_hart. destruct (Z.leb_spec 0 h); [|lia]. by destruct (Z.ltb_spec h CPU_NUM); [|lia].
Qed.

Lemma same_except_keeps_nodes h xs st st' :
  is_list st' h xs -> same_except (h :: xs) st st' -> forall a, allocated st a -> allocated st' a.
Proof.
  intros Hl Hs a Ha. eapply same_except_allocated; [exact Hs| |exact Ha]. intros x Hx. by eapply is_list_allocated.
Qed.

(** The list of the queue becomes [q']; the rest of the state is the same. *)
Definition requeued (q' : list Z) s s' : Prop :=
  (exists st, locks st ∅ s') /\ is_list (links_of s') (runq_queue (cpu_of s)) (map p_runq q') /\
  (forall a, allocated (links_of s) a -> allocated (links_of s') a) /\
  exists hh l, s' = set_links l (set_hart hh s).

Lemma enqueue_spec X n q s p :
  base X n q s -> 0 < p -> p ∉ q -> allocated (links_of s) (p_runq p) ->
  wp False (enqueue_proc (cpu_of s) p) (fun _ s' => requeued (q ++ [p]) s s') s.
Proof.
  intros B Hp Hq Ha. destruct (b_locks _ _ _ _ B) as [st Hl]. unfold enqueue_proc.
  apply wp_bind. eapply wp_run; [apply check_hart_run, B|]. eapply wp_enter; [exact Hl|]. intros h Hh.
  destruct (list_add_tail_refines (links_of s) _ (p_runq p) _ (b_queue _ _ _ _ B)) as (l & Hr & Hl' & Hs);
    [by eapply runq_node_fresh|done|].
  assert (forall a, allocated (links_of s) a -> allocated l a) as Hn.
  { eapply same_except_keeps_nodes; [exact Hl'|]. intros a Hna. apply Hs. intros Hin. apply Hna.
    unfold AList.list_add_tail. set_solver. }
  destruct s as [[] procs cpus vmas tables words np kp]; cbn in *.
  apply wp_bind. eapply wp_on_links; [exact Hr|]. eapply wp_exit; [exact Hh|]. intros h1 Hh1. cbn.
  split; [by exists st|]. cbn. rewrite map_app. split; [done|]. split; [done|]. by exists h1, l.
Qed.

Lemma dequeue_spec X n q s :
  base X n q s ->
  wp False (dequeue_proc (cpu_of s))
    (fun r s' => match q with
                 | [] => r = NULL /\ s' = s
                 | p :: q' => r = p /\ requeued q' s s'
                 end) s.
Proof.
  intros B. destruct (b_locks _ _ _ _ B) as [st Hl]. unfold dequeue_proc, is_runq_empty.
  apply wp_bind, wp_bind. eapply wp_run; [apply check_hart_run, B|].
  pose proof (b_queue _ _ _ _ B) as Hq. eapply wp_on_links; [by apply list_empty_correct|]. rewrite set_links_id.
  destruct q as [|p q]; cbn [map]; [by apply wp_ret|]. rewrite bool_decide_eq_false_2 by done.
  eapply wp_enter; [exact Hl|]. intros h Hh.
  pose proof Hq as (_ & _ & Hnext & _)%(is_list_gap _ _ [] (map p_runq (p :: q))).
  cbn [map] in Hq. destruct (list_del_gap _ _ _ [] _ Hq) as (l & Hr & Hl' & Hs & _). cbn in Hnext, Hl', Hs.
  assert (forall a, allocated (links_of s) a -> allocated l a) as Hn by by eapply same_except_keeps_nodes.
  destruct s as [[] procs cpus vmas tables words np kp]; cbn in *.
  apply wp_bind. eapply wp_on_links; [by apply get_next_run|]. apply wp_bind. eapply wp_on_links; [exact Hr|].
  eapply wp_leave; [exact Hh|]. intros h1 Hh1. apply wp_ret. split; [unfold p_runq; lia|].
  split; [by exists st|]. split; [done|]. split; [done|]. by exists h1, l.
Qed.

(** ** Switching *)

(** The invariant of states that differ in one part. *)
Definition with_sstatus (x : Z) s : task A :=
  set_hart (let h := v_hart (t_vfs s) in Hart (Intr x (intr_state (h_intr h)) (intr_depth (h_intr h))) (h_locks h)) s.

Lemma base_sstatus X n q s st : base X n q s -> base X n q (with_sstatus st s).
Proof.
  intros []. destruct b_locks0 as [st0 [[Hd Hs] Hl]]. destruct s as [[] procs cpus vmas tables words np kp]; cbn in *.
  split; cbn; try done. exists st. split; [done|]. exact Hl.
Qed.

Lemma base_hart X n q s st h : base X n q s -> hart_ok (cpu_of s) st ∅ h -> base X n q (set_hart h s).
Proof.
  intros [] Hh. destruct s as [[] procs cpus vmas tables words np kp]; cbn in *. split; cbn; try done. by exists st.
Qed.

Lemma base_procs X n q s m :
  base X n q s -> (forall p, is_Some (m !! p) -> is_Some (t_procs s !! p)) ->
  (forall p, p ∈ q -> exists x, m !! p = Some x /\ p_state x = PROC_RUNNABLE) -> base X n q (set_t_procs m s).
Proof.
  intros [] Hm Hq. destruct s as [[] procs cpus vmas tables words np kp]; cbn in *. split; cbn; try done; intros p Hp.
  - by apply b_sizes0, Hm.
  - by apply b_nodes0, Hm.
  - split; [by apply b_live0|by apply Hq].
Qed.

Lemma base_cpus X n q s c : base X n q s -> base X n q (set_t_cpus (<[cpu_of s := c]> (t_cpus s)) s).
Proof.
  intros []. destruct s as [[] procs cpus vmas tables words np kp]; cbn in *. split; cbn; try done.
  rewrite lookup_insert_eq. by eexists.
Qed.

(** Another queue of listed threads. *)
Lemma base_requeued X n q q' s s' :
  base X n q s -> requeued q' s s' ->
  (forall p, p ∈ q' -> 0 < p /\ exists x, t_procs s !! p = Some x /\ p_state x = PROC_RUNNABLE) -> base X n q' s'.
Proof.
  intros [] (Hl & Hq & Hn & hh & l & ->) Hlive. destruct s as [[] procs cpus vmas tables words np kp]; cbn in *.
  split; cbn; try done. intros p Hp Hpos. by apply Hn, b_nodes0.
Qed.

Lemma is_Some_update (m : gmap Z proc) p x y k :
  m !! p = Some x -> is_Some (<[p := y]> m !! k) -> is_Some (m !! k).
Proof. intros Hx. rewrite lookup_insert_is_Some'. intros [<-|?]; [by eexists|done]. Qed.

(** A thread whose fields other than the context change stays resumable. *)
Lemma resumable_words s s' x : t_words s' = t_words s -> resumable s x -> resumable s' x.
Proof. intros Hw. unfold resumable. by rewrite Hw. Qed.

(** The context of [old] is saved: the threads stay resumable. *)
Lemma switch_saved X n q old x x1 r s :
  base X n q s -> t_procs s !! old = Some x -> ra (ctx x1) = r -> p_state x1 = p_state x ->
  base X n q (set_t_procs (<[old := x1]> (t_procs s)) s) /\
  forall p y, t_procs s !! p = Some y -> (p <> old -> resumable s y) -> (p = old -> r = yield_returns) ->
    exists y', <[old := x1]> (t_procs s) !! p = Some y' /\ p_state y' = p_state y /\
               resumable (set_t_procs (<[old := x1]> (t_procs s)) s) y'.
Proof.
  intros B Hx Era Est. split.
  - apply base_procs; [done|intros p; apply (is_Some_update _ _ _ _ _ Hx)|]. intros p Hp.
    destruct (b_live _ _ _ _ B p Hp) as (_ & y & Hy & Hst). destruct (decide (p = old)) as [->|Hne].
    + exists x1. rewrite lookup_insert_eq. split; [done|congruence].
    + exists y. by rewrite lookup_insert_ne.
  - intros p y Hy Hne He. destruct (decide (p = old)) as [->|Hpo].
    + exists x1. rewrite lookup_insert_eq. split_and!; [done|congruence|]. unfold resumable. by rewrite Era, He.
    + exists y. rewrite lookup_insert_ne by done. split_and!; [done..|].
      eapply resumable_words; [|by apply Hne]. by destruct s.
Qed.

Lemma context_switch_spec X n q old new r s :
  base X n q s -> is_Some (t_procs s !! old) -> parked q old s ->
  (old ∈ q \/ old = idle_of s \/ old = new -> r = yield_returns) ->
  (exists c, t_cpus s !! cpu_of s = Some c /\ c_proc c = new) ->
  (new = idle_of s \/ 0 < new /\ new ∉ q /\ exists x, t_procs s !! new = Some x /\ p_state x = PROC_RUNNING /\
     (new <> old -> resumable s x)) ->
  wp False (context_switch old new r) (fun res s' => res = new /\ idle_of s' = idle_of s /\ sched_inv X n new q s') s.
Proof.
  intros B [x Hx] [Hpark Hidle] Hr Hcpu Hnew. unfold context_switch.
  apply wp_bind, wp_gets, wp_bind. eapply wp_upd_proc; [exact Hx|].
  match goal with |- wp _ _ _ (set_t_procs (<[_ := ?y]> _) _) => set (x1 := y) end.
  assert (ra (ctx x1) = r /\ p_state x1 = p_state x) as [Era Est] by (by subst x1; destruct x). clearbody x1.
  destruct (switch_saved X n q old x x1 r s B Hx Era Est) as [B1 Hres].
  set (s1 := set_t_procs _ s) in *. replace (<[old := x1]> (t_procs s)) with (t_procs s1) in Hres by (subst s1; by destruct s).
  destruct Hidle as (xi & Hxi & Hsti & Hri).
  destruct (Hres _ _ Hxi Hri) as (yi & Hyi & Hsti' & Hri'); [auto|].
  assert (idle_of s1 = idle_of s) as Ei by (subst s1; by destruct s).
  assert (exists yn, t_procs s1 !! new = Some yn /\ resumable s1 yn /\
    (new = idle_of s \/ 0 < new /\ new ∉ q /\ exists y, t_procs s1 !! new = Some y /\ p_state y = PROC_RUNNING)) as (yn & Hyn & Hrn & Hrun).
  { destruct Hnew as [->|(Hpos & Hnq & y & Hy & Hsty & Hry)]; [exists yi; by split_and!; [..|left]|].
    destruct (Hres _ _ Hy Hry) as (y' & Hy' & Hst' & Hry'); [auto|]. exists y'. split_and!; [done..|].
    right. split_and!; [done..|]. exists y'. split; [done|congruence]. }
  assert (forall st, idle_of (with_sstatus st s1) = idle_of s /\ sched_inv X n new q (with_sstatus st s1)) as Hfin.
  { intros st. assert (idle_of (with_sstatus st s1) = idle_of s) as Ei2 by (rewrite <- Ei; by destruct s1 as [[]]).
    assert (t_procs (with_sstatus st s1) = t_procs s1 /\ t_words (with_sstatus st s1) = t_words s1) as [Ep Ew] by (by destruct s1 as [[]]).
    split; [done|]. split.
    - by apply base_sstatus.
    - subst s1. by destruct s as [[]].
    - split.
      + intros p y Hp Hne Hy. rewrite Ep in Hy. destruct (b_live _ _ _ _ B p Hp) as (_ & y0 & Hy0 & _).
        destruct (Hres _ _ Hy0) as (y1 & Hy1 & _ & Hr1); [intros; by eapply Hpark|intros ->; auto|].
        rewrite Hy1 in Hy. injection Hy as <-. by eapply resumable_words.
      + rewrite Ei2. exists yi. rewrite Ep. split; [done|]. split; [congruence|]. intros _. by eapply resumable_words.
    - rewrite Ei2, Ep. done. }
  apply wp_bind. eapply wp_get_proc; [exact Hyn|]. apply wp_bind, wp_modify.
  specialize (Hfin (c_sstatus (ctx yn))). fold (with_sstatus (c_sstatus (ctx yn)) s1). set (s2 := with_sstatus _ s1) in *.
  apply (resumable_words s1 s2) in Hrn; [|subst s2; by destruct s1 as [[]]]. unfold resumable in Hrn.
  destruct (ra (ctx yn)); try done.
  destruct Hrn as [[fn Hfn] [arg Harg]]. apply wp_bind. eapply wp_load; [exact Hfn|].
  apply wp_bind. eapply wp_load; [exact Harg|]. by apply wp_ret.
Qed.

Lemma wp_upd_cpu {E} f c (Q : unit -> task A -> Prop) s :
  t_cpus s !! cpu_of s = Some c -> Q tt (set_t_cpus (<[cpu_of s := f c]> (t_cpus s)) s) -> wp E (upd_cpu f) Q s.
Proof. intros Hc HQ. eapply wp_store; [cbn in Hc; by rewrite Hc|done]. Qed.

Lemma dispatch_spec X n q next s :
  base X n q s -> is_Some (t_procs s !! next) -> next ∉ q ->
  wp False (dispatch (cpu_of s) next)
    (fun _ s' => base X n q s' /\ cpu_of s' = cpu_of s /\ t_words s' = t_words s /\
       (exists c, t_cpus s' !! cpu_of s = Some c /\ c_proc c = next) /\
       t_procs s' = if next =? idle_of s then t_procs s else alter (set_p_state PROC_RUNNING) next (t_procs s)) s.
Proof.
  intros B [x Hx] Hnq. destruct (b_locks _ _ _ _ B) as [st Hl]. unfold dispatch.
  change (cpu_idle (cpu_of s)) with (idle_of s).
  eapply wp_enter; [exact Hl|]. intros h Hh.
  set (m := if next =? idle_of s then t_procs s else <[next := set_p_state PROC_RUNNING x]> (t_procs s)).
  assert (m = if next =? idle_of s then t_procs s else alter (set_p_state PROC_RUNNING) next (t_procs s)) as Em.
  { subst m. destruct (next =? idle_of s); [done|]. apply map_eq. intros k.
    destruct (decide (k = next)) as [->|]; [by rewrite lookup_insert_eq, lookup_alter_eq, Hx|].
    by rewrite lookup_insert_ne, lookup_alter_ne. }
  assert (base X n q (set_t_procs m s)) as B1.
  { apply base_procs; [done|intros p; subst m|intros p Hp; subst m].
    - destruct (next =? idle_of s); [done|]. apply (is_Some_update _ _ _ _ _ Hx).
    - destruct (b_live _ _ _ _ B p Hp) as (_ & y & Hy & Hsty). exists y. split; [|done].
      destruct (next =? idle_of s); [done|]. rewrite lookup_insert_ne; [done|]. intros E. apply Hnq. by rewrite E. }
  apply wp_bind. eapply (wp_run _ _ _ _ tt (set_t_procs m (set_hart h s))).
  { subst m. destruct s; cbn in *. destruct (next =? _); [done|]. unfold upd_proc, store. cbn. by rewrite Hx. }
  destruct (b_cpu _ _ _ _ B) as [c Hc].
  rewrite <- Em. clearbody m. clear Em. pose proof (base_cpus _ _ _ _ (set_c_proc next c) B1) as B2.
  destruct s as [[] procs cpus vmas tables words np kp]; cbn in *.
  apply wp_bind. eapply wp_upd_cpu; [exact Hc|]. eapply wp_exit; [exact Hh|]. intros h1 Hh1.
  apply (base_hart _ _ _ _ st h1) in B2; [|done]. cbn. split_and!; try done.
  exists (set_c_proc next c). split; [apply lookup_insert_eq|done].
Qed.

Lemma dispatch_switch X n q old next r s :
  base X n q s -> is_Some (t_procs s !! old) -> next ∉ q -> parked q old s ->
  (next = idle_of s \/ 0 < next /\ exists x, t_procs s !! next = Some x /\ (next <> old -> resumable s x)) ->
  (old ∈ q \/ old = idle_of s \/ old = next -> r = yield_returns) ->
  wp False (do! dispatch (cpu_of s) next in context_switch old next r)
    (fun res s' => res = next /\ idle_of s' = idle_of s /\ sched_inv X n next q s') s.
Proof.
  intros B Ho Hnq [Hpark (xi & Hxi & Hsti & Hri)] Hnext Hr.
  assert (is_Some (t_procs s !! next)) as Hn by (destruct Hnext as [->|(_ & x & Hx & _)]; by eexists).
  eapply wp_bind_mono; [by eapply dispatch_spec|]. intros [] s2 (B2 & Ec & Ew & Hcp & Ep).
  assert (idle_of s2 = idle_of s) as Ei by (unfold idle_of; by rewrite Ec).
  assert (forall k, k <> next \/ next = idle_of s -> t_procs s2 !! k = t_procs s !! k) as Hk.
  { intros k Hk. rewrite Ep. destruct (Z.eqb_spec next (idle_of s)); [done|]. rewrite lookup_alter_ne; [done|]. naive_solver. }
  assert (forall x, resumable s x -> resumable s2 x) as Hres by (intros; by eapply resumable_words).
  assert (cpu_idle (cpu_of s) < 0) as Hneg by (pose proof (b_hart _ _ _ _ B); unfold cpu_idle; lia).
  eapply wp_mono; [apply (context_switch_spec X n q old next r); rewrite ?Ei, ?Ec|done|by intros res s'; rewrite Ei].
  - done.
  - rewrite Ep. destruct (next =? idle_of s); [done|]. by apply lookup_alter_is_Some.
  - split; rewrite ?Ei.
    + intros p x Hp Hne Hx. rewrite Hk in Hx by (left; intros ->; done). by eapply Hres, Hpark.
    + exists xi. rewrite Hk by (destruct Hnext as [->|[? _]]; [by right|left; unfold idle_of; lia]).
      split_and!; [done..|]. intros Hne. by apply Hres, Hri.
  - done.
  - done.
  - destruct Hnext as [->|(Hpos & x & Hx & Hrx)]; [by left|]. right. split_and!; [done..|].
    exists (set_p_state PROC_RUNNING x). split_and!.
    + rewrite Ep. destruct (Z.eqb_spec next (idle_of s)) as [->|]; [unfold idle_of in Hpos; lia|].
      by rewrite lookup_alter_eq, Hx.
    + by destruct x.
    + intros Hne. apply Hres. destruct x. by apply Hrx.
Qed.

(** Putting [old] aside for the next thread of the queue. *)
Lemma switch_spec X n q old r s :
  base X n q s -> is_Some (t_procs s !! old) -> parked q old s -> (old ∈ q \/ old = idle_of s -> r = yield_returns) ->
  wp False (context_switch_yield old r)
    (fun res s' => res = (rr_next (idle_of s) q).1 /\ idle_of s' = idle_of s /\
       sched_inv X n (rr_next (idle_of s) q).1 (rr_next (idle_of s) q).2 s') s.
Proof.
  intros B Ho Hpk Hr. unfold context_switch_yield.
  apply wp_bind, wp_gets. destruct (b_cpu _ _ _ _ B) as [c Hc]. apply wp_bind. eapply wp_load; [exact Hc|].
  eapply wp_bind_mono; [by eapply dequeue_spec|]. change (cpu_idle (v_cpu (t_vfs s))) with (idle_of s).
  intros next s1 Hd. destruct q as [|p q].
  - destruct Hd as [-> ->]. cbn. apply (dispatch_switch X n []); [done|done|set_solver|done|by left|naive_solver].
  - destruct Hd as [-> Hrq]. destruct (b_live _ _ _ _ B p) as (Hpos & x & Hx & _); [by left|].
    destruct (Z.eqb_spec p NULL) as [->|_]; [done|]. cbn.
    pose proof (b_queue _ _ _ _ B) as [Hnd _]. apply NoDup_cons in Hnd as [_ Hnd]. cbn in Hnd.
    apply NoDup_cons in Hnd as [Hpq _].
    assert (p ∉ q) as Hnp by (intros Hp; apply Hpq; by apply list_elem_of_fmap_2).
    assert (base X n q s1) as B1.
    { eapply base_requeued; [exact B|exact Hrq|]. intros p' Hp'. apply (b_live _ _ _ _ B). by right. }
    destruct Hrq as (_ & _ & _ & hh & l & ->). destruct Hpk as [Hpark Hidle].
    assert (forall y, resumable s y -> resumable (set_links l (set_hart hh s)) y) as Hres by (intros y; apply resumable_words; by destruct s).
    replace (v_cpu (t_vfs s)) with (cpu_of (set_links l (set_hart hh s))) by (by destruct s as [[]]).
    eapply wp_mono; [apply (dispatch_switch X n q old p r _ B1)|done|].
    + by destruct s.
    + done.
    + split; [intros p' y Hp' Hne Hy; apply Hres, (Hpark p'); [by right|done|by destruct s]|].
      destruct Hidle as (xi & Hxi & Hsti & Hri). exists xi.
      split; [by destruct s as [[]]|]. split; [done|]. intros Hne. apply Hres, Hri. by destruct s as [[]].
    + right. split; [done|]. exists x. split; [by destruct s|]. intros Hne. apply Hres, Hpark with p; [by left|done|done].
    + intros Hcase. apply Hr. destruct Hcase as [ ? | [-> | ->] ]; [left; by right|right; by destruct s as [[]]|left; by left].
    + intros res s' (-> & Ei & Hinv). split; [done|]. split; [rewrite Ei; by destruct s as [[]]|done].
Qed.

(** ** Yielding and exiting *)

Lemma idle_neg X n q s : base X n q s -> idle_of s < 0.
Proof. intros B. pose proof (b_hart _ _ _ _ B). unfold idle_of, cpu_idle. lia. Qed.

(** [put_back] of a thread that is not running any more: only the pointer to
    it goes. *)
Lemma put_back_stopped X n cur q x c s :
  base X n q s -> t_cpus s !! cpu_of s = Some c -> c_proc c = cur -> cur <> NULL ->
  t_procs s !! cur = Some x -> p_state x <> PROC_RUNNING -> parked q cur s ->
  wp False put_back
    (fun p s' => p = cur /\ base X n q s' /\ parked q cur s' /\ idle_of s' = idle_of s /\ is_Some (t_procs s' !! cur)) s.
Proof.
  intros B Hc Hcur Hne Hx Hst Hpk. unfold put_back. apply wp_bind. eapply wp_load; [exact Hc|].
  cbv zeta. rewrite Hcur. destruct (Z.eqb_spec cur NULL) as [|_]; [done|].
  apply wp_bind. eapply wp_get_proc; [exact Hx|].
  destruct (Z.eqb_spec (p_state x) PROC_RUNNING) as [|_]; [done|]. apply wp_bind, wp_ret.
  pose proof (base_cpus _ _ _ _ (set_c_proc NULL c) B) as B2.
  destruct s as [[] procs cpus vmas tables words np kp]; cbn in *.
  apply wp_bind. eapply wp_upd_cpu; [exact Hc|]. apply wp_ret. split_and!; try done.
Qed.

Lemma put_back_running X n cur q x c s :
  base X n q s -> t_cpus s !! cpu_of s = Some c -> c_proc c = cur -> 0 < cur -> cur ∉ q ->
  t_procs s !! cur = Some x -> p_state x = PROC_RUNNING -> parked q cur s ->
  wp False put_back
    (fun p s' => p = cur /\ base X n (q ++ [cur]) s' /\ parked (q ++ [cur]) cur s' /\ idle_of s' = idle_of s /\
       is_Some (t_procs s' !! cur)) s.
Proof.
  intros B Hc Hcur Hpos Hnq Hx Hst [Hpark Hidle]. unfold put_back. apply wp_bind. eapply wp_load; [exact Hc|].
  cbv zeta. rewrite Hcur. destruct (Z.eqb_spec cur NULL) as [->|_]; [done|].
  apply wp_bind. eapply wp_get_proc; [exact Hx|]. rewrite Hst. cbn [Z.eqb PROC_RUNNING Pos.eqb].
  apply wp_bind, wp_bind. eapply wp_upd_proc; [exact Hx|].
  set (x1 := set_p_state PROC_RUNNABLE x). assert (p_state x1 = PROC_RUNNABLE) as Hst1 by by destruct x.
  set (s1 := set_t_procs _ s).
  assert (base X n q s1) as B1.
  { apply base_procs; [done|intros p; apply (is_Some_update _ _ _ _ _ Hx)|].
    intros p Hp. destruct (b_live _ _ _ _ B p Hp) as (_ & y & Hy & Hsty). exists y.
    rewrite lookup_insert_ne; [done|]. intros E. apply Hnq. by rewrite E. }
  pose proof (idle_neg _ _ _ _ B) as Hin.
  assert (t_procs s1 = <[cur := x1]> (t_procs s) /\ t_cpus s1 = t_cpus s /\ cpu_of s1 = cpu_of s /\ t_words s1 = t_words s) as (Ep & Ecp & Ec & Ew) by (by destruct s).
  apply wp_bind, wp_gets. change (v_cpu (t_vfs s1)) with (cpu_of s1).
  eapply wp_mono; [eapply enqueue_spec; [exact B1|done|done|]|done|].
  { eapply (b_nodes _ _ _ _ B1); [|done]. rewrite Ep, lookup_insert_eq. by eexists. }
  intros [] s2 Hrq. assert (base X n (q ++ [cur]) s2) as B2.
  { eapply base_requeued; [exact B1|exact Hrq|]. intros p [Hp| ->%list_elem_of_singleton]%elem_of_app.
    - by apply (b_live _ _ _ _ B1).
    - split; [done|]. exists x1. by rewrite Ep, lookup_insert_eq. }
  destruct Hrq as (_ & _ & _ & hh & l & ->).
  pose proof (base_cpus _ _ _ _ (set_c_proc NULL c) B2) as B3.
  assert (forall p y, p <> cur -> t_procs s !! p = Some y -> t_procs s1 !! p = Some y) as Hkeep
    by (intros p y Hne Hy; by rewrite Ep, lookup_insert_ne).
  rewrite <- Ecp, <- Ec in Hc. apply wp_bind, (wp_upd_cpu _ c); [by destruct s1 as [[]]|]. apply wp_ret.
  split; [done|]. split; [exact B3|]. destruct s1 as [[] procs1 cpus1 vmas1 tables1 words1 np1 kp1].
  cbn in *. subst procs1 words1. split; [split|split].
  - intros p y Hp Hne Hy. cbn in Hy. rewrite lookup_insert_ne in Hy by done. apply elem_of_app in Hp as [Hp| ->%list_elem_of_singleton]; [|done].
    eapply resumable_words; [|by eapply Hpark]. done.
  - destruct Hidle as (xi & Hxi & Hsti & Hri). exists xi. unfold idle_of in *. cbn. rewrite Ec in *.
    change (Vfs.v_cpu (t_vfs s)) with (cpu_of s). rewrite lookup_insert_ne by (intros E; lia). split_and!; [done..|]. intros Hne. eapply resumable_words; [|by apply Hri]. done.
  - unfold idle_of. cbn. by rewrite Ec.
  - rewrite lookup_insert_eq. by eexists.
Qed.

(** The running thread gives up the hart: it goes to the end of the queue,
    unless it is the idle thread. *)
Lemma yield_spec X n cur q s :
  sched_inv X n cur q s ->
  wp False (sched_yield yield_returns)
    (fun p s' => idle_of s' = idle_of s /\
       let st' := rr_next (idle_of s) (if cur =? idle_of s then q else q ++ [cur]) in
       p = st'.1 /\ sched_inv X n st'.1 st'.2 s') s.
Proof.
  intros [B (c & Hc & Hcur) Hpk Hrun]. pose proof (idle_neg _ _ _ _ B) as Hin. unfold sched_yield.
  eapply wp_bind_mono with (R := fun p s1 => p = cur /\ base X n (if cur =? idle_of s then q else q ++ [cur]) s1 /\
    parked (if cur =? idle_of s then q else q ++ [cur]) cur s1 /\ idle_of s1 = idle_of s /\ is_Some (t_procs s1 !! cur)).
  - destruct Hrun as [E|(Hpos & Hnq & x & Hx & Hst)].
    + destruct Hpk as [Hp (xi & Hxi & Hsti & Hri)]. rewrite E, Z.eqb_refl. rewrite E in Hcur, Hp, Hri.
      eapply put_back_stopped; [exact B|exact Hc|done|unfold NULL; lia|exact Hxi|by rewrite Hsti|].
      split; [done|]. by exists xi.
    + destruct (Z.eqb_spec cur (idle_of s)); [lia|]. by eapply put_back_running.
  - intros p s1 (-> & B1 & Hpk1 & Ei & Ho). eapply wp_mono; [eapply switch_spec; [exact B1|done|done|done]|done|].
    intros res s2. rewrite Ei. intros (-> & -> & Hinv). by split_and!.
Qed.

(** The running thread ends: nothing refers to it any more. *)
Lemma exit_spec X n cur q code s :
  sched_inv X n cur q s -> cur <> idle_of s ->
  wp False (kthread_exit code)
    (fun p s' => idle_of s' = idle_of s /\
       p = (rr_next (idle_of s) q).1 /\ sched_inv X n (rr_next (idle_of s) q).1 (rr_next (idle_of s) q).2 s') s.
Proof.
  intros [B (c & Hc & Hcur) [Hp Hi] [|(Hpos & Hnq & x & Hx & Hst)]] Hne; [done|]. unfold kthread_exit.
  apply wp_bind. eapply wp_load; [exact Hc|]. cbv zeta. rewrite Hcur.
  destruct (Z.eqb_spec cur NULL) as [->|_]; [done|].
  apply wp_bind. eapply wp_upd_proc; [exact Hx|].
  set (x1 := set_p_state PROC_ZOMBIE x). assert (p_state x1 <> PROC_RUNNING) as Hst1 by by destruct x.
  assert (base X n q (set_t_procs (<[cur := x1]> (t_procs s)) s)) as B1.
  { apply base_procs; [done|intros p; apply (is_Some_update _ _ _ _ _ Hx)|].
    intros p Hq. destruct (b_live _ _ _ _ B p Hq) as (_ & y & Hy & Hsty). exists y.
    rewrite lookup_insert_ne; [done|]. intros E. apply Hnq. by rewrite E. }
  assert (parked q cur (set_t_procs (<[cur := x1]> (t_procs s)) s)) as Hpk1.
  { destruct s as [[] procs cpus vmas tables words np kp]. split; cbn in *.
    - intros p y Hq Hpc Hy. rewrite lookup_insert_ne in Hy by done. eapply resumable_words; [|by eapply Hp]. done.
    - destruct Hi as (xi & Hxi & Hsti & Hri). exists xi. rewrite lookup_insert_ne by done. by split_and!. }
  unfold sched_yield. eapply wp_bind_mono.
  { eapply (put_back_stopped X n cur q x1 c); [exact B1|by destruct s|done|unfold NULL; lia| |done|exact Hpk1].
    destruct s; cbn. by rewrite lookup_insert_eq. }
  intros p s1 (-> & B2 & Hpk2 & Ei & Ho).
  assert (idle_of s1 = idle_of s) as Ei' by (rewrite Ei; by destruct s). clear Ei.
  eapply wp_mono; [eapply (switch_spec X n q cur exit_returns); [exact B2|done|done|]|done|].
  - rewrite Ei'. by intros [?|?].
  - intros res s2. rewrite Ei'. intros (-> & -> & Hinv). by split_and!.
Qed.


(** ** Kernel threads *)

Lemma alloc_pid_spec s :
  wp False alloc_pid
    (fun i s' => (exists np, s' = set_t_next_pid np s) /\ (PID_MIN <= t_next_pid s -> PID_MIN <= i <= PID_MAX)) s.
Proof.
  assert (forall k s0, t_next_pid s0 <= PID_MAX ->
    wp False (alloc_pid_loop (S k)) (fun i s' => i = t_next_pid s0 /\ s' = set_t_next_pid (i + 1) s0) s0) as Hstep.
  { intros k s0 Hle. cbn [alloc_pid_loop]. apply wp_bind, wp_gets. destruct (Z.ltb_spec PID_MAX (t_next_pid s0)); [lia|].
    apply wp_bind. unfold cmpxchg_next_pid. apply wp_bind, wp_gets. rewrite Z.eqb_refl.
    apply wp_bind, wp_modify, wp_ret. rewrite Z.eqb_refl. by apply wp_ret. }
  unfold alloc_pid. destruct (Z.leb_spec (t_next_pid s) PID_MAX) as [Hle|Hgt].
  - eapply wp_mono; [by apply Hstep|done|]. intros i s' [-> ->]. split; [by eexists|lia].
  - change 2%nat with (S 1). cbn [alloc_pid_loop]. apply wp_bind, wp_gets. destruct (Z.ltb_spec PID_MAX (t_next_pid s)); [|lia].
    apply wp_bind. unfold cmpxchg_next_pid. apply wp_bind, wp_gets. rewrite Z.eqb_refl.
    apply wp_bind, wp_modify, wp_ret. eapply wp_mono; [apply (Hstep 0%nat); by destruct s|done|].
    intros i s' [-> ->]. split; [eexists; by destruct s|]. intros _. by destruct s.
Qed.

(** The invariant after process creation, which takes new blocks and adds at
    most the process [r]. *)
Lemma base_grown X X' n n' q s s' r :
  base X n q s -> (exists st, locks st ∅ s') -> task_kept s s' -> keeps X (links_of s) (links_of s') ->
  own (v_env (t_vfs s')) X' -> root_ok n' (t_vfs s') -> X ⊆ X' ->
  (forall p, p <> r -> t_procs s' !! p = t_procs s !! p) ->
  (is_Some (t_procs s' !! r) -> r ∉ q /\ X' !! r = Some sizeof_proc /\ allocated (links_of s') (p_runq r)) ->
  t_procs s !! r = None -> base X' n' q s'.
Proof.
  intros B Hl [Ec Ecp Ew Ek] Hk Ho Hr Hsub Hp Hnew Hrn. pose proof (base_queue_owned _ _ _ _ B) as Hqo.
  destruct B. split; rewrite ?Ec, ?Ecp; try done.
  - by eapply is_list_keeps.
  - intros p Hs. destruct (decide (p = r)) as [->|Hne]; [right; by apply Hnew|]. rewrite Hp in Hs by done.
    destruct (b_sizes0 p Hs) as [?|Hx]; [by left|right]. by eapply lookup_weaken.
  - intros p Hs Hpos. destruct (decide (p = r)) as [->|Hne]; [by apply Hnew|]. rewrite Hp in Hs by done.
    eapply keeps_allocated; [exact Hk| |by apply b_nodes0]. destruct (b_sizes0 p Hs) as [?|Hx]; [lia|].
    right. exists p, sizeof_proc. split; [done|]. unfold p_runq, sizeof_proc. lia.
  - intros p Hq. destruct (b_live0 p Hq) as (Hpos & x & Hx & Hst). split; [done|]. exists x.
    rewrite Hp; [done|]. intros ->. by rewrite Hrn in Hx.
Qed.

Lemma sched_grown X X' n n' cur q s s' r :
  sched_inv X n cur q s -> (exists st, locks st ∅ s') -> cpu_of s' = cpu_of s -> t_cpus s' = t_cpus s ->
  (forall a, is_Some (t_words s !! a) -> is_Some (t_words s' !! a)) ->
  base X' n' q s' -> (forall p, p <> r -> t_procs s' !! p = t_procs s !! p) -> t_procs s !! r = None ->
  sched_inv X' n' cur q s'.
Proof.
  intros [B Hcur [Hp Hi] Hrun] Hl Ec Ecp Ew B' Hsame Hrn.
  assert (forall p x, t_procs s !! p = Some x -> t_procs s' !! p = Some x) as Hkeep.
  { intros p x Hx. rewrite Hsame; [done|]. intros ->. by rewrite Hrn in Hx. }
  assert (forall x, resumable s x -> resumable s' x) as Hres.
  { intros x. unfold resumable. destruct (ra (ctx x)); try done. intros [H1 H2]. split; by apply Ew. }
  assert (idle_of s' = idle_of s) as Ei by (unfold idle_of; by rewrite Ec).
  split; [done|by rewrite Ec, Ecp|split|]; rewrite ?Ei.
  - intros p x Hq Hne Hx. destruct (b_live _ _ _ _ B p Hq) as (_ & y & Hy & _).
    pose proof (Hkeep _ _ Hy) as Hy'. rewrite Hx in Hy'. injection Hy' as <-. by eapply Hres, Hp.
  - destruct Hi as (xi & Hxi & Hsti & Hri). exists xi. split_and!; auto.
  - destruct Hrun as [->|(Hpos & Hnq & x & Hx & Hst)]; [by left|right]. split_and!; [done..|]. exists x. auto.
Qed.

Lemma created_same X n p t a root s s' :
  created (own := own) X n p t a root s -> v_env (t_vfs s') = v_env (t_vfs s) -> v_fdts (t_vfs s') = v_fdts (t_vfs s) ->
  v_arrays (t_vfs s') = v_arrays (t_vfs s) -> v_mounts (t_vfs s') = v_mounts (t_vfs s) ->
  v_root_mount (t_vfs s') = v_root_mount (t_vfs s) -> v_dentries (t_vfs s') = v_dentries (t_vfs s) ->
  links_of s' = links_of s -> created (own := own) X n p t a root s'.
Proof.
  intros [] He Hf Ha Hm Hr Hd Hl. split; rewrite ?Hl; try done; [by eapply fresh_fdt_same|].
  unfold root_ok, rooted in *. by rewrite Hm, Hr, Hd.
Qed.


Lemma created_env X n p t a root e m s :
  created (own := own) X n p t a root s ->
  own e (<[a := 8 * NR_OPEN_DEFAULT]> (<[t := sizeof_fd_table]> (<[p := sizeof_proc]> X))) ->
  created (own := own) X n p t a root (set_t_procs m (set_t_vfs (set_v_env e (t_vfs s)) s)).
Proof.
  intros [Hp Hap (H1 & H2 & H3 & H4 & _ & H5) Hr Hn] Ho. destruct s as [[] ]; cbn in *.
  by split.
Qed.

Lemma null_not_proc X n q s : base X n q s -> t_procs s !! NULL = None.
Proof.
  intros B. destruct (t_procs s !! NULL) eqn:E; [|done]. exfalso.
  destruct (b_sizes _ _ _ _ B NULL) as [?|Hx]; [by eexists|done|].
  assert (0 < NULL) by (apply (kb_pos _ X NULL (b_own _ _ _ _ B)); by eexists). done.
Qed.

(** The part of [kthread_create] before the stack is allocated. *)
Lemma thread_setup {B} st X n p t a root (name : option cstr) (k : ST (task A) B) Q s procs :
  locks st ∅ s -> created (own := own) X n p t a root s -> t_procs s = <[p := new_proc p t root]> procs ->
  (forall x s', locks st ∅ s' -> created (own := own) X n p t a root s' -> task_kept s s' -> links_of s' = links_of s ->
     t_procs s' = <[p := x]> procs -> p_state x = PROC_UNUSED -> kstack x = NULL -> parent x = NULL -> tf x = NULL ->
     pagetable x = t_kpagetable s' -> p_fd_table x = t -> pwd x = root -> wp False k Q s') ->
  wp False
    (do! (match name with
          | Some name => upd_proc p (set_comm (strncpy_field 16 name))
          | None => ret tt
          end) in
     let! i := alloc_pid in
     do! upd_proc p (set_pid i) in
     do! upd_proc p (set_tgid i) in
     let! kpagetable := gets t_kpagetable in
     do! upd_proc p (set_pagetable kpagetable) in
     do! lock_init (p_lock p) in k) Q s.
Proof.
  intros Hl Hcr Hp Hk.
  apply wp_bind. eapply (wp_mono _ _ _ (fun _ s1 => exists c, s1 = set_t_procs (<[p := set_comm c (new_proc p t root)]> procs) s)).
  { destruct name as [name|].
    - eapply wp_upd_proc; [rewrite Hp; apply lookup_insert_eq|]. rewrite Hp, insert_insert_eq. by eexists.
    - apply wp_ret. exists (replicate 16 0). destruct s; cbn in *. by rewrite Hp. }
  { done. }
  intros [] s1 [c ->]. eapply wp_bind_mono; [apply alloc_pid_spec|]. intros i s2 [[np ->] _].
  apply wp_bind. eapply wp_upd_proc; [destruct s; apply lookup_insert_eq|].
  apply wp_bind. eapply wp_upd_proc; [destruct s; apply lookup_insert_eq|].
  apply wp_bind, wp_gets, wp_bind. eapply wp_upd_proc; [destruct s; apply lookup_insert_eq|].
  apply wp_bind, wp_modify. destruct s as [v ? cpus vmas tables words np0 kp]. cbn in *. rewrite !insert_insert_eq.
  eapply Hk; try done.
  - destruct v; cbn in *. by apply hart_ok_lock_init; [|set_solver].
  - eapply created_same; [exact Hcr|by destruct v..].
  - by split; destruct v.
  - by destruct v.
Qed.

(** Changes of a thread that is neither running nor waiting. *)
Lemma sched_upd X n cur q p x y s :
  sched_inv X n cur q s -> t_procs s !! p = Some x -> 0 < p -> p ∉ q -> p <> cur ->
  sched_inv X n cur q (set_t_procs (<[p := y]> (t_procs s)) s).
Proof.
  intros [B Hcur [Hp Hi] Hrun] Hx Hpos Hnq Hne. pose proof (idle_neg _ _ _ _ B) as Hneg.
  assert (forall k, k ∈ q -> <[p := y]> (t_procs s) !! k = t_procs s !! k) as Hk.
  { intros k Hk. rewrite lookup_insert_ne; [done|]. intros E. apply Hnq. by rewrite E. }
  assert (base X n q (set_t_procs (<[p := y]> (t_procs s)) s)) as B1.
  { apply base_procs; [done|intros k; apply (is_Some_update _ _ _ _ _ Hx)|].
    intros k Hkq. destruct (b_live _ _ _ _ B k Hkq) as (_ & z & Hz & Hsty). exists z. by rewrite Hk. }
  split; [done|by destruct s|split|].
  - intros k z Hkq Hkc Hz. assert (t_procs s !! k = Some z) as Hz' by (destruct s; cbn in *; by rewrite Hk in Hz).
    eapply resumable_words; [|by eapply Hp]. by destruct s.
  - destruct Hi as (xi & Hxi & Hsti & Hri). exists xi.
    assert (<[p := y]> (t_procs s) !! idle_of s = Some xi) by (rewrite lookup_insert_ne by lia; done).
    destruct s; cbn in *. split_and!; [done..|]. intros Hnc. eapply resumable_words; [|by apply Hri]. done.
  - destruct Hrun as [E|(Hcpos & Hcq & z & Hz & Hst)]; [left; by destruct s|right]. split_and!; [done..|].
    exists z. destruct s; cbn in *. by rewrite lookup_insert_ne.
Qed.

Lemma sched_word X n cur q a w s :
  sched_inv X n cur q s -> sched_inv X n cur q (set_t_words (<[a := w]> (t_words s)) s).
Proof.
  intros Hinv. pose proof (null_not_proc _ _ _ _ (si_base _ _ _ _ _ Hinv)) as Hnull.
  eapply (sched_grown X X n n cur q s _ NULL); [done|..|done]; [destruct s; apply (b_locks _ _ _ _ (si_base _ _ _ _ _ Hinv))|by destruct s..| | |by destruct s].
  - intros b Hb. destruct s; cbn in *. rewrite lookup_insert_is_Some'. by right.
  - destruct Hinv as [B _ _ _]. destruct B. by destruct s.
Qed.

Lemma enqueue_inv X n cur q p x s :
  sched_inv X n cur q s -> t_procs s !! p = Some x -> 0 < p -> p ∉ q -> p <> cur ->
  p_state x = PROC_RUNNABLE -> resumable s x ->
  wp False (enqueue_proc (cpu_of s) p) (fun _ s' => idle_of s' = idle_of s /\ sched_inv X n cur (q ++ [p]) s') s.
Proof.
  intros [B Hcur [Hp Hi] Hrun] Hx Hpos Hnq Hne Hst Hrs.
  eapply wp_mono; [eapply enqueue_spec; [exact B|done|done|]|done|].
  { eapply (b_nodes _ _ _ _ B); [by eexists|done]. }
  intros [] s2 Hrq. assert (base X n (q ++ [p]) s2) as B2.
  { eapply base_requeued; [exact B|exact Hrq|]. intros k [Hk| ->%list_elem_of_singleton]%elem_of_app.
    - by apply (b_live _ _ _ _ B).
    - split; [done|]. by exists x. }
  destruct Hrq as (_ & _ & _ & hh & l & ->).
  assert (idle_of (set_links l (set_hart hh s)) = idle_of s) as Ei by (by destruct s as [[]]).
  assert (t_procs (set_links l (set_hart hh s)) = t_procs s) as Ep by (by destruct s).
  assert (forall z, resumable s z -> resumable (set_links l (set_hart hh s)) z) as Hres
    by (intros z; apply resumable_words; by destruct s).
  split; [done|]. split; [done|by destruct s as [[]]|split|]; rewrite ?Ei, ?Ep.
  - intros k z [Hk| ->%list_elem_of_singleton]%elem_of_app Hkc Hz; apply Hres; [by eapply Hp|].
    rewrite Hx in Hz. by injection Hz as <-.
  - destruct Hi as (xi & Hxi & Hsti & Hri). exists xi. split_and!; auto.
  - destruct Hrun as [E|(Hcpos & Hcq & z & Hz & Hsz)]; [by left|right]. split; [done|]. split; [|by exists z].
    rewrite elem_of_app, list_elem_of_singleton. naive_solver.
Qed.

(** The rest of [kthread_create]: the stack and the context of the thread. *)
Lemma thread_start X n cur q p x fn arg sp1 sp2 s :
  sched_inv X n cur q s -> t_procs s !! p = Some x -> 0 < p -> p ∉ q -> p <> cur ->
  wp False
    (do! upd_proc p (fun x => set_ctx (set_sp sp1 (set_ra kthread_start (ctx x))) x) in
     do! put_word sp2 fn in
     do! put_word (sp2 + 8) arg in
     do! upd_proc p (fun x => set_ctx (set_sp sp2 (ctx x)) x) in
     do! upd_proc p (set_p_state PROC_RUNNABLE) in
     let! hartid := r_tp in
     do! enqueue_proc hartid p in
     ret p)
    (fun r s' => r = p /\ idle_of s' = idle_of s /\ sched_inv X n cur (q ++ [p]) s') s.
Proof.
  intros Hinv Hx Hpos Hnq Hne.
  assert (forall y, sched_inv X n cur q (set_t_procs (<[p := y]> (t_procs s)) (set_t_words (<[sp2 + 8 := arg]> (<[sp2 := fn]> (t_words s))) s))) as Hinv1.
  { intros y. destruct s. apply (sched_word _ _ _ _ sp2 fn) in Hinv. cbn in Hinv.
    apply (sched_word _ _ _ _ (sp2 + 8) arg) in Hinv. cbn in Hinv. by apply (sched_upd _ _ _ _ p x y) in Hinv. }
  destruct s as [v procs cpus vmas tables words np kp]; cbn in *.
  apply wp_bind. eapply wp_upd_proc; [exact Hx|]. cbn. apply wp_bind, wp_modify, wp_bind, wp_modify.
  apply wp_bind. eapply wp_upd_proc; [apply lookup_insert_eq|]. cbn. rewrite insert_insert_eq.
  apply wp_bind. eapply wp_upd_proc; [apply lookup_insert_eq|]. cbn. rewrite insert_insert_eq.
  match goal with |- context [<[p := ?z]> procs] => set (y := z) end. specialize (Hinv1 y).
  pose proof (enqueue_inv X n cur q p y _ Hinv1) as He. cbn in He.
  apply wp_bind, wp_gets. cbn. eapply wp_bind_mono.
  { apply He; [apply lookup_insert_eq|done|done|done|by destruct x|].
    subst y. destruct x as [? ? ? ? [] ]. cbn. rewrite lookup_insert_eq. split; [|by eexists].
    rewrite lookup_insert_ne, lookup_insert_eq by lia. by eexists. }
  intros [] s2 [Ei Hinv2]. apply wp_ret. split; [done|]. split; [exact Ei|done].
Qed.

(** Nothing was created. *)
Lemma spawn_failed X n n' cur q s s' :
  sched_inv X n cur q s -> (exists st, locks st ∅ s') -> task_kept s s' -> keeps X (links_of s) (links_of s') ->
  t_procs s' = t_procs s -> own (v_env (t_vfs s')) X -> root_ok n' (t_vfs s') ->
  idle_of s' = idle_of s /\ sched_inv X n' cur q s'.
Proof.
  intros Hinv Hl Hk Hkeep Ep Ho Hr. pose proof (si_base _ _ _ _ _ Hinv) as B.
  pose proof (null_not_proc _ _ _ _ B) as Hnull. split; [unfold idle_of; by rewrite (tk_hart _ _ Hk)|].
  assert (base X n' q s') as B1.
  { eapply (base_grown X X n n' q s s' NULL); try done; [intros; by rewrite Ep|rewrite Ep, Hnull; by intros []]. }
  eapply (sched_grown X X n _ cur q s s' NULL); [exact Hinv|exact Hl|apply Hk|apply Hk| |exact B1|by rewrite Ep|done].
  intros b. by rewrite (tk_words _ _ Hk).
Qed.

(** The thread's stack could not be allocated: it is freed again. *)
Lemma spawn_undone st X n cur q p t a root x s s3 :
  sched_inv X n cur q s -> 1 <= n -> locks st ∅ s3 -> created (own := own) X (n - 1) p t a root s3 -> task_kept s s3 ->
  keeps X (links_of s) (links_of s3) -> t_procs s !! p = None -> t_procs s3 = <[p := x]> (t_procs s) ->
  parent x = NULL -> kstack x = NULL -> tf x = NULL -> pagetable x = t_kpagetable s3 -> p_fd_table x = t -> pwd x = root ->
  wp False (do! free_proc p in ret NULL)
    (fun r s' => idle_of s' = idle_of s /\
       exists X', sched_inv X' (n - 1) cur (if r =? NULL then q else q ++ [r]) s') s3.
Proof.
  intros Hinv Hn Hl3 Hcr3 Hk3 Hkeep3 Hpn Ep3 Hpar Hks Htf Hpt Hfd Hwd. eapply wp_bind_mono.
  { eapply (free_proc_spec st X (n - 1) p t a root x); [exact Hl3|exact Hcr3|lia|by rewrite Ep3, lookup_insert_eq|done..]. }
  intros [] s4 (Hl4 & Hk4 & _ & Hkeep4 & Ep4 & Ho4 & Hr4). apply wp_ret. rewrite Ep3, delete_insert_id in Ep4 by done.
  assert (task_kept s s4) as Hk04 by (destruct Hk3, Hk4; split; congruence).
  assert (keeps X (links_of s) (links_of s4)) as Hkeep by (eapply keeps_trans; [exact Hkeep3|exact Hkeep4]).
  cbn. destruct (spawn_failed X n (n - 1) cur q s s4); [done|by exists st|done..|]. split; [done|by exists X].
Qed.

(** The thread has its stack: it joins the scheduler's state, not yet in the queue. *)
Lemma spawn_joined st X X3 n cur q p x s s3 :
  sched_inv X n cur q s -> locks st ∅ s3 -> task_kept s s3 -> keeps X (links_of s) (links_of s3) ->
  X ⊆ X3 -> X3 !! p = Some sizeof_proc -> own (v_env (t_vfs s3)) X3 -> root_ok (n - 1) (t_vfs s3) ->
  p ∉ q -> t_procs s !! p = None -> t_procs s3 = <[p := x]> (t_procs s) -> (forall b, b ∈ proc_nodes p -> allocated (links_of s3) b) ->
  sched_inv X3 (n - 1) cur q s3.
Proof.
  intros Hinv Hl3 Hk3 Hkeep Hsub HX3 Ho3 Hr3 Hnq Hpn Ep3 Hnodes. pose proof (si_base _ _ _ _ _ Hinv) as B.
  assert (base X3 (n - 1) q s3) as B3.
  { eapply (base_grown X X3 n _ q s s3 p); [exact B|by exists st|done|done|done|done|done| | |done].
    - intros j Hj. by rewrite Ep3, lookup_insert_ne.
    - intros _. split_and!; [done..|]. apply Hnodes. unfold proc_nodes. set_solver. }
  eapply (sched_grown X X3 n _ cur q s s3 p); [exact Hinv|by exists st|apply Hk3|apply Hk3| |exact B3| |done].
  - intros b. by rewrite (tk_words _ _ Hk3).
  - intros j Hj. by rewrite Ep3, lookup_insert_ne.
Qed.

(** A created process is none of the known ones. *)
Lemma created_unknown X n n' cur q p t a root s s1 :
  sched_inv X n cur q s -> created (own := own) X n' p t a root s1 ->
  t_procs s !! p = None /\ p ∉ q /\ p <> cur.
Proof.
  intros Hinv Hcr. pose proof (si_base _ _ _ _ _ Hinv) as B. pose proof (cr_pos _ _ _ _ _ _ _ Hcr) as Hpos.
  assert (t_procs s !! p = None) as Hpn.
  { destruct (t_procs s !! p) eqn:E; [|done]. destruct (b_sizes _ _ _ _ B p) as [?|Hx]; [by eexists|lia|].
    pose proof (cr_apart _ _ _ _ _ _ _ Hcr) as [Hf _]. by rewrite Hf in Hx. }
  split; [done|]. split.
  - intros Hq. destruct (b_live _ _ _ _ B p Hq) as (_ & x & Hx & _). by rewrite Hpn in Hx.
  - intros ->. destruct (si_running _ _ _ _ _ Hinv) as [E|(_ & _ & y & Hy & _)]; [|by rewrite Hpn in Hy].
    pose proof (idle_neg _ _ _ _ B). lia.
Qed.

(** The memory of a created process with its stack. *)
Lemma created_grows (X : gmap Z Z) p t a k kp kt ka kk :
  X !! p = None -> <[p := kp]> X !! t = None -> <[t := kt]> (<[p := kp]> X) !! a = None ->
  <[a := ka]> (<[t := kt]> (<[p := kp]> X)) !! k = None ->
  X ⊆ <[k := kk]> (<[a := ka]> (<[t := kt]> (<[p := kp]> X))) /\
  <[k := kk]> (<[a := ka]> (<[t := kt]> (<[p := kp]> X))) !! p = Some kp.
Proof.
  intros Hp Ht Ha Hk. set (X3 := <[k := kk]> _).
  assert (<[p := kp]> X ⊆ X3) as Hs.
  { subst X3. etrans; [by apply insert_subseteq|]. etrans; [by apply insert_subseteq|]. by apply insert_subseteq. }
  split; [etrans; [by apply insert_subseteq|exact Hs]|]. eapply lookup_weaken; [apply lookup_insert_eq|exact Hs].
Qed.

Lemma spawn_spec X n cur q fn arg name s :
  sched_inv X n cur q s -> 1 <= n ->
  wp False (kthread_create fn arg name)
    (fun p s' => idle_of s' = idle_of s /\
       exists X', sched_inv X' (n - 1) cur (if p =? NULL then q else q ++ [p]) s') s.
Proof.
  intros Hinv Hn. pose proof (si_base _ _ _ _ _ Hinv) as B. destruct (b_locks _ _ _ _ B) as [st Hl]. unfold kthread_create.
  eapply wp_bind_mono.
  { eapply alloc_proc_spec; [exact Hl|apply B|apply B|done|]. intros p Hp.
    destruct (b_sizes _ _ _ _ B p Hp) as [?|Hx]; [by left|right; by eexists]. }
  intros p s1 (Hl1 & Hk1 & _ & Hkeep1 & [(-> & Ep & Ho1 & Hr1)|(t & a & root & Hcr & Ep)]).
  - apply wp_ret. cbn. destruct (spawn_failed X n (n - 1) cur q s s1); [done|by exists st|done..|]. split; [done|by exists X].
  - pose proof (cr_pos _ _ _ _ _ _ _ Hcr) as Hpos. destruct (Z.eqb_spec p NULL) as [->|_]; [done|].
    destruct (created_unknown _ _ _ _ _ _ _ _ _ _ _ Hinv Hcr) as (Hpn & Hnq & Hpc).
    eapply thread_setup; [exact Hl1|exact Hcr|exact Ep|].
    intros x s2 Hl2 Hcr2 Hk2 El2 Ep2 Hst2 Hks Hpar Htf Hpt Hfd Hwd.
    assert (task_kept s s2) as Hk02 by (destruct Hk1, Hk2; split; congruence).
    apply wp_bind, wp_lift, wp_lift. pose proof Hcr2 as [_ [Hap _] Hfdt _ Hnodes].
    pose proof Hfdt as ([Ht0 _] & Ha0 & _ & _ & Ho2 & _). eapply wp_kb_alloc; [exact Ho2|done|intros e' Ho'|intros k e' Hk Hfrk Ho'].
    + apply wp_bind. eapply wp_upd_proc; [destruct s2; cbn in *; rewrite Ep2; apply lookup_insert_eq|]. cbn [Z.eqb NULL].
      match goal with |- wp _ _ _ ?s3 => set (s3' := s3) end.
      assert (created (own := own) X (n - 1) p t a root s3') as Hcr3 by by apply created_env.
      assert (locks st ∅ s3') as Hl3 by (subst s3'; by destruct s2 as [[]]).
      assert (t_procs s3' = <[p := set_kstack NULL x]> (t_procs s)) as Ep3.
      { subst s3'. destruct s2 as [[]]; cbn in *. by rewrite Ep2, insert_insert_eq. }
      assert (task_kept s s3' /\ links_of s3' = links_of s2 /\ t_kpagetable s3' = t_kpagetable s2) as (Hk3 & El3 & Ekp).
      { subst s3'. destruct s2 as [[]]. destruct Hk02. split; [by split|done]. }
      clearbody s3'. eapply (spawn_undone st X n cur q p t a root); try eassumption;
        [rewrite El3, El2; exact Hkeep1|destruct x; cbn in *; congruence..].
    + destruct (created_grows X p t a k sizeof_proc sizeof_fd_table (8 * NR_OPEN_DEFAULT) PAGE_SIZE Hap Ht0 Ha0 (proj1 Hfrk)) as [Hsub HX3].
      set (X3 := <[k:=PAGE_SIZE]> _) in *.
      apply wp_bind. eapply wp_upd_proc; [destruct s2; cbn in *; rewrite Ep2; apply lookup_insert_eq|].
      destruct (Z.eqb_spec k NULL) as [->|_]; [done|].
      match goal with |- wp _ _ _ ?s3 => set (s3' := s3) end.
      assert (t_procs s3' = <[p := set_kstack k x]> (t_procs s)) as Ep3.
      { subst s3'. destruct s2 as [[]]; cbn in *. by rewrite Ep2, insert_insert_eq. }
      assert (task_kept s s3' /\ links_of s3' = links_of s2 /\ locks st ∅ s3') as (Hk3 & El3 & Hl3).
      { subst s3'. destruct s2 as [[]]. destruct Hk02. split; [by split|done]. }
      assert (own (v_env (t_vfs s3')) X3 /\ root_ok (n - 1) (t_vfs s3')) as [Ho3 Hr3].
      { subst s3'. pose proof (cr_root _ _ _ _ _ _ _ Hcr2) as Hr. destruct s2 as [[]]; cbn in *. split; [done|].
        destruct Hr as [[_ Hr]|[_ Hr]]; [done|]. apply (rooted_ok 1 (n - 1) root) in Hr; [done|lia]. }
      clearbody s3'.
      assert (sched_inv X3 (n - 1) cur q s3') as Hinv3.
      { eapply (spawn_joined st X X3); try eassumption; rewrite El3; [by rewrite El2|]. apply Hnodes. }
      eapply wp_mono; [eapply thread_start; [exact Hinv3|rewrite Ep3; apply lookup_insert_eq|done..]|done|].
      intros r s4 (-> & Ei & Hinv4). destruct (Z.eqb_spec p NULL) as [->|_]; [done|].
      split; [|by exists X3]. rewrite Ei. unfold idle_of. by rewrite (tk_hart _ _ Hk3).
Qed.


(** ** Runs *)

Lemma event_spec X n cur q e s :
  sched_inv X n cur q s -> 1 <= n ->
  wp False (run_event e)
    (fun o s' => idle_of s' = idle_of s /\
       exists X' n' cur' q', n - 1 <= n' /\ rr_step (idle_of s) e o (cur, q) = Some (cur', q') /\ sched_inv X' n' cur' q' s') s.
Proof.
  intros Hinv Hn. destruct e as [|code|fn arg name]; cbn [run_event].
  - eapply wp_bind_mono; [by eapply yield_spec|]. intros p s1 (Ei & -> & Hinv1). apply wp_ret. split; [done|].
    eexists X, n, _, _. split; [lia|]. split; [|exact Hinv1]. cbn. by rewrite Z.eqb_refl, <- surjective_pairing.
  - destruct (si_cur _ _ _ _ _ Hinv) as (c & Hc & Hcur). apply wp_bind, wp_gets, wp_bind. eapply wp_load; [exact Hc|].
    rewrite Hcur. change (cpu_idle (v_cpu (t_vfs s))) with (idle_of s). destruct (Z.eqb_spec cur (idle_of s)) as [E|Hne].
    + apply wp_ret. split; [done|]. exists X, n, cur, q. cbn. rewrite E, Z.eqb_refl. split; [lia|]. by rewrite <- E.
    + eapply wp_bind_mono; [by eapply exit_spec|]. intros p s1 (Ei & -> & Hinv1). apply wp_ret. split; [done|].
      eexists X, n, _, _. split; [lia|]. split; [|exact Hinv1]. cbn.
      destruct (Z.eqb_spec cur (idle_of s)); [done|]. by rewrite Z.eqb_refl, <- surjective_pairing.
  - eapply wp_bind_mono; [by eapply spawn_spec|]. intros p s1 (Ei & X' & Hinv1). apply wp_ret. split; [done|].
    eexists X', (n - 1), _, _. split; [lia|]. split; [|exact Hinv1]. cbn. by destruct (p =? NULL).
Qed.

Lemma events_spec es : forall X n cur q s,
  sched_inv X n cur q s -> Z.of_nat (length es) <= n ->
  wp False (run_events es)
    (fun os s' => exists X' n' cur' q', n - Z.of_nat (length es) <= n' /\
       rr_run (idle_of s) es os (cur, q) = Some (cur', q') /\ sched_inv X' n' cur' q' s') s.
Proof.
  induction es as [|e es IH]; intros X n cur q s Hinv Hn; cbn [run_events length] in *.
  - apply wp_ret. exists X, n, cur, q. split; [lia|done].
  - eapply wp_bind_mono; [eapply event_spec; [exact Hinv|lia]|]. intros o s1 (Ei & X1 & n1 & cur1 & q1 & Hn1 & Hst & Hinv1).
    eapply wp_bind_mono; [eapply IH; [exact Hinv1|lia]|]. intros os s2 (X2 & n2 & cur2 & q2 & Hn2 & Hrun & Hinv2). apply wp_ret.
    exists X2, n2, cur2, q2. split; [lia|]. split; [|done]. cbn [rr_run]. rewrite Hst. cbn [mbind option_bind]. by rewrite <- Ei.
Qed.

(** [C32] The scheduler is a fair round robin: from a state in which [cur] runs
    and the threads of [q] wait in the run queue of the hart, any sequence of
    yields, exits and creations of kernel threads runs without a panic or a
    fault (a thread that has exited is never resumed), whether memory suffices
    for the creations or not; the threads that get the hart are those of the
    round-robin machine [rr_run]; and every waiting thread gets its turn: the
    one at position [i] of the queue is the [i]-th to be dispatched, at the
    latest when the hart has been yielded [i + 1] times. *)
Theorem sched_fair X n cur q es s :
  sched_inv X n cur q s -> Z.of_nat (length es) <= n ->
  wp False (run_events es)
    (fun os s' =>
       (exists X' n' cur' q', rr_run (idle_of s) es os (cur, q) = Some (cur', q') /\ sched_inv X' n' cur' q' s') /\
       forall i p, q !! i = Some p -> (i < yields es)%nat -> dispatched os !! i = Some p) s.
Proof.
  intros Hinv Hn. eapply wp_mono; [by eapply events_spec|done|].
  intros os s' (X' & n' & cur' & q' & _ & Hrun & Hinv'). split; [by exists X', n', cur', q'|].
  intros i p Hq Hi. eapply rr_fair; [exact Hrun|exact Hq|]. pose proof (rr_yields _ _ _ _ _ Hrun). lia.
Qed.

(** ** Booting *)

(** [init_cpu] and [init_runq] on hart 0 of a state without processes. *)
Lemma sched_boot st X n s :
  locks st ∅ s -> cpu_of s = 0 -> allocated (links_of s) (runq_queue 0) -> own (v_env (t_vfs s)) X ->
  root_ok n (t_vfs s) -> t_procs s = ∅ ->
  wp False (do! init_cpu 0 in init_runq) (fun _ s' => idle_of s' = cpu_idle 0 /\ sched_inv X n (cpu_idle 0) [] s') s.
Proof.
  intros Hl Hc Ha Ho Hr Hp. destruct s as [v procs cpus vmas tables words np kp]. destruct v as [hh c l su ino de fi ft mo fd ar ih dh co r e].
  cbn in *. subst c procs. unfold init_cpu.
  apply wp_bind, wp_bind, wp_modify, wp_bind, wp_modify, wp_bind, wp_modify. cbn.
  apply wp_bind. eapply wp_on_links; [apply INIT_LIST_HEAD_run, allocated_new|]. cbn.
  apply wp_bind, wp_modify, wp_modify. cbn. unfold init_runq. change (Z.to_nat CPU_NUM) with 1%nat. cbn [for_up].
  apply wp_bind, wp_bind. eapply wp_on_links; [apply INIT_LIST_HEAD_run|].
  { cbn. destruct l. by do 2 apply allocated_insert. }
  apply wp_modify, wp_ret. cbn. split; [done|]. unfold self_link. cbn. split.
  - split; cbn; try done.
    + exists st. pose proof (hart_ok_lock_init 0 st ∅ (p_lock (cpu_idle 0)) hh Hl ltac:(set_solver)) as H1.
      exact (hart_ok_lock_init 0 st ∅ (runq_lock 0) _ H1 ltac:(set_solver)).
    + rewrite lookup_insert_eq. by eexists.
    + split; [apply NoDup_singleton|]. cbn. by rewrite !lookup_insert_eq.
    + intros p [x [[<- _]|[_ Hx]]%lookup_insert_Some]; [by left|by rewrite lookup_empty in Hx].
    + intros p [x [[<- _]|[_ Hx]]%lookup_insert_Some]; [done|by rewrite lookup_empty in Hx].
    + intros p Hp. by apply not_elem_of_nil in Hp.
  - exists (Cpu (cpu_idle 0) false). split; [apply lookup_insert_eq|done].
  - split; [intros p x Hp; by apply not_elem_of_nil in Hp|]. eexists. split; [apply lookup_insert_eq|]. done.
  - by left.
Qed.

End sched.

(** A machine with nothing mounted and room for 64 allocations, booted. *)
Definition bare_task : task bump := Task (bare_vfs [runq_queue 0]) ∅ ∅ ∅ ∅ ∅ PID_MIN 1.

(** The state and the results of a run from [bare_task]. *)
Definition run_from {B} (m : ST (task bump) B) (s : task bump) : option B * task bump :=
  match m s with Ok (b, s') => (Some b, s') | _ => (None, s) end.

Lemma run_from_wp {B} (m : ST (task bump) B) Q s :
  wp False m Q s -> exists b, (run_from m s).1 = Some b /\ Q b (run_from m s).2.
Proof. unfold wp, run_from. destruct (m s) as [[b s']| | |]; [|done..]. intros HQ. by exists b. Qed.

Definition booted : task bump := (run_from (do! init_cpu 0 in init_runq)%kernel bare_task).2.

Lemma booted_inv : sched_inv (own := bump_blocks) ∅ (2 ^ 31) (cpu_idle 0) [] booted.
Proof.
  assert (wp False (do! init_cpu 0 in init_runq)%kernel
    (fun _ s' => idle_of s' = cpu_idle 0 /\ sched_inv (own := bump_blocks) ∅ (2 ^ 31) (cpu_idle 0) [] s') bare_task) as Hb.
  { apply (sched_boot 2); [|done|..|done].
    - split; [done|]. intros l. done.
    - by apply allocated_self_links; left.
    - split; [done|]. split; [done|]. intros p n Hp. by rewrite lookup_empty in Hp.
    - by left. }
  destruct (run_from_wp _ _ _ Hb) as (b & _ & _ & Hinv). exact Hinv.
Qed.

(** Two threads wait. *)
Definition two_spawns : list event := [Spawn 8 9 None; Spawn 10 11 (Some comm_idle)].
Definition two_waiting : task bump := (run_from (run_events (H0 := bare_code) two_spawns) booted).2.

Lemma two_waiting_inv :
  exists X n, 2 ^ 30 <= n /\ sched_inv (own := bump_blocks) X n (cpu_idle 0) [4096; 9056] two_waiting.
Proof.
  destruct (run_from_wp _ _ _ (events_spec (H0 := bare_code) (own := bump_blocks) two_spawns
    ∅ (2 ^ 31) (cpu_idle 0) [] booted booted_inv ltac:(done))) as (os & Ho & X & n & cur & q & Hn & Hrr & Hinv).
  assert ((run_from (run_events (H0 := bare_code) two_spawns) booted).1 = Some [Spawned 4096; Spawned 9056]) as Eo
    by (vm_compute; reflexivity).
  rewrite Eo in Ho. injection Ho as <-. cbn in Hrr. injection Hrr as <- <-. exists X, n. split; [cbn in Hn; lia|exact Hinv].
Qed.

Lemma sched_fair_witness :
  exists X n, sched_inv (own := bump_blocks) X n (cpu_idle 0) [4096; 9056] two_waiting /\
    wp False (run_events (H0 := bare_code) [Yield; Yield; Exit 0; Yield])
      (fun os s' =>
         (exists X' n' cur' q', rr_run (idle_of two_waiting) [Yield; Yield; Exit 0; Yield] os (cpu_idle 0, [4096; 9056]) = Some (cur', q') /\
            sched_inv (own := bump_blocks) X' n' cur' q' s') /\
         forall i p, [4096; 9056] !! i = Some p -> (i < yields [Yield; Yield; Exit 0; Yield])%nat -> dispatched os !! i = Some p)
      two_waiting.
Proof.
  destruct two_waiting_inv as (X & n & Hn & Hinv). exists X, n. split; [exact Hinv|].
  refine (sched_fair (H0 := bare_code) (own := bump_blocks) X n (cpu_idle 0) [4096; 9056] _ two_waiting Hinv _). cbn. lia.
Defined.
