(* ===== verification/VmaProof.v ===== *)
(** The areas of a process: what the walks of [src/mm/vma.c] compute on a list
    that is sorted, with disjoint areas. *)

From stdpp Require Import sorting.
From S2P Require Import Prelude ListHead Machine Alloc Vfs Pagetable PagetableProof PagetableTop Proc Vma.

(** ** Areas *)

Definition vm_end (v : vma) : Z := start v + vm_length v.

(** An area has at least one byte and lies in the lower half of the address
    space, where the page tables reach. *)
Definition area_ok (v : vma) : Prop := 0 <= start v /\ 0 < vm_length v /\ vm_end v <= VM_END.

Definition overlap (v w : vma) : Prop := start v < vm_end w /\ start w < vm_end v.
Definition in_area (va : Z) (v : vma) : Prop := start v <= va < vm_end v.

#[global] Instance overlap_dec v w : Decision (overlap v w).
Proof. unfold overlap. apply _. Defined.

(** An area with the address of its structure. *)
Definition before (x y : Z * vma) : Prop := vm_end x.2 <= start y.2.
Definition nodes (L : list (Z * vma)) : list Z := (fun x => vm_list x.1) <$> L.

Lemma area_end v : area_ok v -> u64 (start v + vm_length v) = vm_end v.
Proof. intros (? & ? & Hv). change VM_END with (2 ^ 38) in Hv. unfold vm_end in *. rewrite wrap_small; [done|]. unfold in_width. lia. Qed.

(** *** Searching *)

Fixpoint area_of (va : Z) (L : list (Z * vma)) : Z :=
  match L with
  | [] => NULL
  | x :: L => if va <? start x.2 then NULL else if va <? vm_end x.2 then x.1 else area_of va L
  end.

Lemma area_of_found va ys x zs :
  StronglySorted before (ys ++ x :: zs) -> Forall (fun y => area_ok y.2) (ys ++ x :: zs) ->
  in_area va x.2 -> area_of va (ys ++ x :: zs) = x.1.
Proof.
  unfold in_area. intros Hs Ho Hx. induction ys as [|y ys IH]; cbn [area_of app] in *.
  - destruct (Z.ltb_spec va (start x.2)); [lia|]. by destruct (Z.ltb_spec va (vm_end x.2)); [|lia].
  - apply StronglySorted_inv in Hs as [Hs Hy]. apply Forall_cons in Ho as [(? & ? & ?) Ho].
    assert (before y x) as Hb by (eapply Forall_forall in Hy; [exact Hy|set_solver]).
    unfold before, vm_end in *. destruct (Z.ltb_spec va (start y.2)); [lia|].
    destruct (Z.ltb_spec va (start y.2 + vm_length y.2)); [lia|]. by apply IH.
Qed.

Lemma area_of_spec va L :
  StronglySorted before L -> Forall (fun x => area_ok x.2) L ->
  (exists ys x zs, L = ys ++ x :: zs /\ in_area va x.2 /\ area_of va L = x.1) \/
  (area_of va L = NULL /\ forall x, x ∈ L -> ~ in_area va x.2).
Proof.
  intros Hs Ho. destruct (decide (Exists (fun x => start x.2 <= va /\ va < vm_end x.2) L)) as [He|He].
  - left. apply Exists_exists in He as (x & Hx & Hin). apply list_elem_of_split in Hx as (ys & zs & ->).
    exists ys, x, zs. split_and!; [done|done|]. by apply area_of_found.
  - right. rewrite Exists_exists in He. split; [|by intros x Hx [??]; apply He; exists x].
    clear Hs Ho. induction L as [|x L IH]; cbn [area_of]; [done|].
    destruct (Z.ltb_spec va (start x.2)); [done|]. destruct (Z.ltb_spec va (vm_end x.2)) as [|_].
    + destruct He. exists x. split; [left|done].
    + apply IH. intros (y & Hy & ?). apply He. exists y. split; [by right|done].
Qed.

(** *** Inserting *)

(** Where [new] goes in a list: nowhere, or between two parts that lie below
    and above it. *)
Definition place (new : vma) (L : list (Z * vma)) (r : option (list (Z * vma) * list (Z * vma))) : Prop :=
  match r with
  | None => exists x, x ∈ L /\ overlap new x.2
  | Some (ys, zs) => L = ys ++ zs /\ Forall (fun y => vm_end y.2 <= start new) ys /\
                     Forall (fun z => vm_end new <= start z.2) zs
  end.

Lemma place_apart new L ys zs : place new L (Some (ys, zs)) -> forall x, x ∈ L -> ~ overlap new x.2.
Proof.
  intros (-> & Hy & Hz) x [Hx|Hx]%elem_of_app; unfold overlap.
  - eapply Forall_forall in Hy; [|exact Hx]. cbn in Hy. lia.
  - eapply Forall_forall in Hz; [|exact Hx]. cbn in Hz. lia.
Qed.

Lemma place_sorted a new L ys zs :
  StronglySorted before L -> place new L (Some (ys, zs)) -> StronglySorted before (ys ++ (a, new) :: zs).
Proof.
  intros Hs (-> & Hy & Hz). apply StronglySorted_app in Hs as (Hb & Hsy & Hsz).
  rewrite Forall_forall in Hy, Hz. apply StronglySorted_app. split_and!; [|done|].
  - intros y z Hy' [->|Hz']%elem_of_cons; [by apply Hy|by apply Hb].
  - constructor; [done|]. apply Forall_forall. intros z. apply Hz.
Qed.

Section walks.
Context {A : Type} `{KAlloc A}.
Implicit Types s : task A.

Lemma node_vma a : vm_list a - 40 = a.
Proof. unfold vm_list. lia. Qed.

(** The areas of a suffix of the list can be read. *)
Definition readable (L : list (Z * vma)) s : Prop :=
  Forall (fun x => t_vmas s !! x.1 = Some x.2 /\ area_ok x.2) L.

(** One step of a walk: the node at hand is not the head, its area can be read,
    and the next node is that of the rest. *)
Lemma walk_step {B} h s ys x zs (f : vma -> ST (task A) B) :
  is_list (links_of s) h (nodes (ys ++ x :: zs)) -> readable (x :: zs) s ->
  vm_list x.1 =? h = false /\ bind (get_vma (vm_list x.1 - 40)) f s = f x.2 s /\
  on_links (get_next (vm_list x.1)) s = Ok (gap_next h (nodes zs), s).
Proof.
  unfold nodes. rewrite fmap_app, fmap_cons. intros Hl [[Hx _] _]%Forall_cons. split; [|split].
  - apply Z.eqb_neq. intros <-. destruct Hl as [Hnd _]. apply NoDup_cons in Hnd as [Hnd _]. set_solver.
  - apply bind_Ok. unfold get_vma, load. by rewrite node_vma, Hx.
  - apply get_next_on_links. by apply is_list_node in Hl as [Hn _].
Qed.

Lemma vma_find_from_spec va h s zs : forall ys fuel,
  is_list (links_of s) h (nodes (ys ++ zs)) -> readable zs s -> (length zs < fuel)%nat ->
  vma_find_from fuel va (gap_next h (nodes zs)) h s = Ok (area_of va zs, s).
Proof.
  induction zs as [|x zs IH]; intros ys [|fuel] Hl Hr Hf; cbn in Hf; [lia| |lia|]; cbn [vma_find_from].
  - cbn. by rewrite Z.eqb_refl.
  - change (gap_next h (nodes (x :: zs))) with (vm_list x.1).
    destruct (walk_step h s ys x zs (fun v => if va <? start v then ret NULL else
      if va <? u64 (start v + vm_length v) then ret (vm_list x.1 - 40) else
      let! pos := on_links (get_next (vm_list x.1)) in vma_find_from fuel va pos h) Hl Hr) as (-> & E & En).
    cbv zeta. rewrite E. clear E. cbn [area_of]. destruct (va <? start x.2); [done|].
    pose proof Hr as [[_ Hx] Hr']%Forall_cons.
    rewrite area_end, node_vma by done. destruct (va <? vm_end x.2); [done|].
    rewrite (bind_Ok _ _ _ _ _ En). apply (IH (ys ++ [x])); [|done|lia]. by rewrite <- app_assoc.
Qed.

Lemma vma_insert_from_spec new h s zs : forall ys fuel,
  is_list (links_of s) h (nodes (ys ++ zs)) -> readable zs s -> area_ok new -> StronglySorted before zs ->
  (length zs < fuel)%nat ->
  exists r, vma_insert_from fuel new (gap_next h (nodes zs)) h s =
              Ok ((fun r => gap_next h (nodes r.2)) <$> r, s) /\ place new zs r.
Proof.
  induction zs as [|x zs IH]; intros ys [|fuel] Hl Hr Hn Hs Hf; cbn in Hf; [lia| |lia|]; cbn [vma_insert_from].
  - exists (Some ([], [])). cbn. by rewrite Z.eqb_refl.
  - change (gap_next h (nodes (x :: zs))) with (vm_list x.1).
    destruct (walk_step h s ys x zs (fun v =>
      if negb ((u64 (start new + vm_length new) <=? start v) || (u64 (start v + vm_length v) <=? start new))
      then ret None else if start new <? start v then ret (Some (vm_list x.1)) else
      let! pos := on_links (get_next (vm_list x.1)) in vma_insert_from fuel new pos h) Hl Hr) as (-> & E & En).
    rewrite E. clear E. pose proof Hr as [[_ Hx] Hr']%Forall_cons. rewrite !area_end by done.
    apply StronglySorted_inv in Hs as [Hs Hb]. unfold area_ok, vm_end in Hx, Hn.
    destruct (Z.leb_spec (vm_end new) (start x.2)), (Z.leb_spec (vm_end x.2) (start new)); cbn [orb negb].
    1: unfold vm_end in *; lia.
    + destruct (Z.ltb_spec (start new) (start x.2)); [|unfold vm_end in *; lia].
      exists (Some ([], x :: zs)). split; [done|]. split_and!; [done|constructor|]. constructor; [done|].
      eapply Forall_impl; [exact Hb|]. unfold before, vm_end in *. cbn. lia.
    + destruct (Z.ltb_spec (start new) (start x.2)); [unfold vm_end in *; lia|].
      rewrite (bind_Ok _ _ _ _ _ En). destruct (IH (ys ++ [x]) fuel) as (r & -> & Hp); [by rewrite <- app_assoc|done..|lia|].
      destruct r as [[l1 l2]|].
      * exists (Some (x :: l1, l2)). split; [done|]. destruct Hp as (-> & Hl1 & Hl2). split_and!; [done|by constructor|done].
      * exists None. split; [done|]. destruct Hp as (y & ? & ?). exists y. split; [by right|done].
    + exists None. split; [done|]. exists x. split; [left|]. unfold overlap. lia.
Qed.

(** The walks from the head of the list. *)
Lemma nodes_fuel h L s : is_list (links_of s) h (nodes L) -> (length L < S (size (lnext (links_of s))))%nat.
Proof. intros Hl. apply is_list_length in Hl. unfold nodes in Hl. rewrite length_fmap in Hl. lia. Qed.

Lemma head_next h L s : is_list (links_of s) h (nodes L) -> on_links (get_next h) s = Ok (gap_next h (nodes L), s).
Proof. intros Hl. apply get_next_on_links. by apply (is_list_gap _ _ []) in Hl as (_ & _ & Hn & _). Qed.

Lemma vma_find_spec p va L s :
  is_list (links_of s) (p_vma p) (nodes L) -> readable L s -> vma_find p va s = Ok (area_of va L, s).
Proof.
  intros Hl Hr. unfold vma_find, walk_fuel. unfold bind at 1, gets. rewrite (bind_Ok _ _ _ _ _ (head_next _ _ _ Hl)).
  apply (vma_find_from_spec va (p_vma p) s L []); [done|done|]. by eapply nodes_fuel.
Qed.

Lemma vma_insert_walk p new_vma new L s :
  is_list (links_of s) (p_vma p) (nodes L) -> readable L s -> StronglySorted before L ->
  t_vmas s !! new_vma = Some new -> area_ok new ->
  exists r, place new L r /\
    vma_insert p new_vma s =
      match r with
      | None => Ok (- EEXIST, s)
      | Some (_, zs) =>
          (do! on_links (list_add_tail (vm_list new_vma) (gap_next (p_vma p) (nodes zs))) in ret 0) s
      end.
Proof.
  intros Hl Hr Hs Hv Hn. unfold vma_insert, walk_fuel.
  rewrite (bind_Ok (get_vma new_vma) _ s new s) by (unfold get_vma, load; by rewrite Hv).
  unfold bind at 1, gets. rewrite (bind_Ok _ _ _ _ _ (head_next _ _ _ Hl)).
  destruct (vma_insert_from_spec new (p_vma p) s L [] (S (size (lnext (links_of s))))) as (r & Hrun & Hp);
    [done..|by eapply nodes_fuel|].
  exists r. split; [done|]. rewrite (bind_Ok _ _ _ _ _ Hrun). by destruct r as [[? ?]|].
Qed.

End walks.
