(* ===== verification/VmaTop.v ===== *)
(** The memory areas of a process with its page table: sessions of the
    operations of [src/mm/vma.c], to the release of all areas when the process
    is freed. *)

From stdpp Require Import sorting.
From S2P Require Import Prelude ListHead ListFamily Machine Alloc Vfs VfsProof Pagetable PagetableProof PagetableTop Proc Vma Sched VmaProof.

(** ** Operations and their specification *)

Inductive vm_op := VInsert (a : Z) | VFind (va : Z) | VMap (a : Z) | VRemove (start length : Z).

Definition run_vm_op {A} `{KAlloc A} (p : Z) (o : vm_op) : ST (task A) Z :=
  match o with
  | VInsert a => vma_insert p a
  | VFind va => vma_find p va
  | VMap a => vma_map_pages p a
  | VRemove start length => vma_remove p start length
  end.

Fixpoint run_vm_ops {A} `{KAlloc A} (p : Z) (l : list vm_op) : ST (task A) (list Z) :=
  match l with
  | [] => ret []
  | o :: l => let! r := run_vm_op p o in let! rs := run_vm_ops p l in ret (r :: rs)
  end.

(** The part of [free_proc] that gives the areas back. *)
Definition release_areas {A} `{KAlloc A} (p : Z) : ST (task A) unit :=
  let! fuel := walk_fuel in
  let! pos := on_links (get_next (p_vma p)) in
  let! n := on_links (get_next pos) in
  free_vmas fuel p pos n (p_vma p).

(** An address space: the area structures, which of them the process has, and
    the pages that are mapped. *)
Record space := Space { sp_areas : gmap Z vma; sp_linked : gset Z; sp_map : gmap Z (Z * Z) }.

Definition has (sp : space) (a : Z) (v : vma) : Prop := a ∈ sp_linked sp /\ sp_areas sp !! a = Some v.

(** [am'] is [am] without the pages of [v]. *)
Definition area_unmapped (v : vma) (am am' : gmap Z (Z * Z)) : Prop :=
  unmapped_range am (vpn (start v)) (vm_length v / PAGE_SIZE) am'.

Definition vm_op_spec (sp : space) (o : vm_op) (r : Z) (sp' : space) : Prop :=
  match o with
  | VInsert a => exists v, sp_areas sp !! a = Some v /\
      (((exists b w, has sp b w /\ overlap v w) /\ r = - EEXIST /\ sp' = sp) \/
       ((forall b w, has sp b w -> ~ overlap v w) /\ r = 0 /\
        sp' = Space (sp_areas sp) ({[a]} ∪ sp_linked sp) (sp_map sp)))
  | VFind va => sp' = sp /\
      ((exists v, has sp r v /\ in_area va v) \/ (r = NULL /\ forall b w, has sp b w -> ~ in_area va w))
  | VMap a => exists v am', sp_areas sp !! a = Some v /\
      pt_op_spec (sp_map sp) (PMap (start v) 0 (vm_length v / PAGE_SIZE) (perm v)) r am' /\
      sp' = Space (sp_areas sp) (sp_linked sp) am'
  | VRemove st len =>
      (exists a v am', has sp a v /\ start v = st /\ vm_length v = len /\ r = 0 /\
         area_unmapped v (sp_map sp) am' /\ sp' = Space (delete a (sp_areas sp)) (sp_linked sp ∖ {[a]}) am') \/
      ((forall a v, has sp a v -> ~ (start v = st /\ vm_length v = len)) /\ r = - ENOENT /\ sp' = sp)
  end.

(** What the caller owes: only areas that are off the list are inserted, and
    [K] has the positions of the tables that the mappings need. *)
Definition vm_op_ok (K : gset (Z * Z)) (sp : space) (o : vm_op) : Prop :=
  match o with
  | VInsert a => is_Some (sp_areas sp !! a) /\ a ∉ sp_linked sp
  | VFind va => True
  | VMap a => exists v, sp_areas sp !! a = Some v /\
      forall j, 0 <= j < vm_length v / PAGE_SIZE -> path_in K (start v + j * PAGE_SIZE)
  | VRemove _ _ => True
  end.

(** Every outcome the specification allows leads to a call the caller may
    make. *)
Fixpoint vm_ops_ok (K : gset (Z * Z)) (sp : space) (l : list vm_op) : Prop :=
  match l with
  | [] => True
  | o :: l => vm_op_ok K sp o /\ forall r sp', vm_op_spec sp o r sp' -> vm_ops_ok K sp' l
  end.

Inductive vm_ops_spec : space -> list vm_op -> list Z -> space -> Prop :=
  | vm_ops_nil sp : vm_ops_spec sp [] [] sp
  | vm_ops_cons sp o l r rs sp1 sp2 :
      vm_op_spec sp o r sp1 -> vm_ops_spec sp1 l rs sp2 -> vm_ops_spec sp (o :: l) (r :: rs) sp2.

(** No two areas of the process share an address. *)
Definition disjoint_areas (sp : space) : Prop :=
  forall a v b w, has sp a v -> has sp b w -> a <> b -> ~ overlap v w.

Definition page_of (v : vma) (w : Z) : Prop := vpn (start v) <= w < vpn (start v) + vm_length v / PAGE_SIZE.

(** The areas of the process are gone, and so are their pages; nothing else
    is. *)
Record released (sp sp' : space) : Prop := {
  re_linked : sp_linked sp' = ∅;
  re_areas a : sp_areas sp' !! a = if decide (a ∈ sp_linked sp) then None else sp_areas sp !! a;
  re_in w : (exists a v, has sp a v /\ page_of v w) -> sp_map sp' !! w = None;
  re_out w : (forall a v, has sp a v -> ~ page_of v w) -> sp_map sp' !! w = sp_map sp !! w
}.

(** ** Representation *)

Section proof.
Context {A : Type} `{KAlloc A} {own : A -> gset Z -> Z -> Prop} {HOk : PageHeap A own}.
Implicit Types s : task A.

Definition tables s : pgt A := PGT (t_tables s) (v_env (t_vfs s)).

Record vm_rep (p root : Z) (X : gset Z) (K : gset (Z * Z)) (sp : space) (L : list (Z * vma)) s : Prop := {
  vr_proc : exists x, t_procs s !! p = Some x /\ pagetable x = root;
  vr_list : is_list (links_of s) (p_vma p) (nodes L);
  vr_sorted : StronglySorted before L;
  vr_linked a v : (a, v) ∈ L <-> has sp a v;
  vr_dom a : a ∈ sp_linked sp -> is_Some (sp_areas sp !! a);
  vr_area a v : sp_areas sp !! a = Some v ->
    t_vmas s !! a = Some v /\ area_ok v /\ a <> NULL /\ vm_list a <> p_vma p /\ a ∉ X;
  vr_node a : is_Some (sp_areas sp !! a) -> allocated (links_of s) (vm_list a);
  vr_pages : pt_as (own := own) root (X ∪ dom (sp_areas sp)) K (sp_map sp) (tables s)
}.

Lemma vr_readable p root X K sp L s : vm_rep p root X K sp L s -> readable L s.
Proof.
  intros R. apply Forall_forall. intros [a v] Hx. apply (vr_linked _ _ _ _ _ _ _ R) in Hx as [_ Hx].
  apply (vr_area _ _ _ _ _ _ _ R) in Hx as (? & ? & _). done.
Qed.

Lemma vr_ok p root X K sp L s : vm_rep p root X K sp L s -> Forall (fun x => area_ok x.2) L.
Proof. intros R. eapply Forall_impl; [by eapply vr_readable|]. by intros x [_ ?]. Qed.

(** *** Searching *)

Lemma find_rep p root X K sp L s va :
  vm_rep p root X K sp L s ->
  exists r, vma_find p va s = Ok (r, s) /\ 
    ((exists ys v zs, L = ys ++ (r, v) :: zs /\ has sp r v /\ in_area va v) \/
     (r = NULL /\ forall b w, has sp b w -> ~ in_area va w)).
Proof.
  intros R. exists (area_of va L). split.
  { apply vma_find_spec; [by eapply vr_list|by eapply vr_readable]. }
  destruct (area_of_spec va L) as [(ys & [a v] & zs & E & Hin & ->)|[-> Hn]];
    [by eapply vr_sorted|by eapply vr_ok|left|right].
  - exists ys, v, zs. split; [done|]. split; [|done]. apply (vr_linked _ _ _ _ _ _ _ R). rewrite E. set_solver.
  - split; [done|]. intros b w Hb Hin. apply (vr_linked _ _ _ _ _ _ _ R) in Hb. by apply (Hn (b, w)).
Qed.

(** *** Inserting *)

Lemma node_off p root X K sp L s a :
  vm_rep p root X K sp L s -> is_Some (sp_areas sp !! a) -> a ∉ sp_linked sp -> vm_list a ∉ p_vma p :: nodes L.
Proof.
  intros R [v Hv] Ha [E|Hin]%elem_of_cons.
  - by apply (vr_area _ _ _ _ _ _ _ R) in Hv as (_ & _ & _ & ? & _).
  - apply list_elem_of_fmap in Hin as ([b w] & E & Hb). apply (vr_linked _ _ _ _ _ _ _ R) in Hb as [Hb _].
    cbn in E. unfold vm_list in E. assert (a = b) as -> by lia. done.
Qed.

Lemma insert_rep p root X K sp L s a v ys zs :
  vm_rep p root X K sp L s -> sp_areas sp !! a = Some v -> a ∉ sp_linked sp -> place v L (Some (ys, zs)) ->
  exists l, on_links (list_add_tail (vm_list a) (gap_next (p_vma p) (nodes zs))) s = Ok (tt, set_links l s) /\
    vm_rep p root X K (Space (sp_areas sp) ({[a]} ∪ sp_linked sp) (sp_map sp)) (ys ++ (a, v) :: zs) (set_links l s).
Proof.
  intros R Hv Ha Hp. pose proof Hp as (-> & _ & _). pose proof (vr_list _ _ _ _ _ _ _ R) as Hl.
  pose proof (node_off _ _ _ _ _ _ _ a R ltac:(by eexists) Ha) as Hoff.
  unfold nodes in Hl, Hoff. rewrite fmap_app in Hl, Hoff.
  destruct (__list_add_gap _ _ (vm_list a) _ _ Hl Hoff) as (l & Hrun & Hl' & Hs).
  { eapply vr_node; [exact R|by eexists]. }
  pose proof Hl as (_ & _ & _ & Hprev & _)%is_list_gap.
  exists l. split.
  { unfold on_links, lift, list_add_tail, nodes. by rewrite (bind_Ok _ _ _ _ _ (get_prev_run _ _ _ Hprev)), Hrun. }
  pose proof (place_sorted a v _ _ _ (vr_sorted _ _ _ _ _ _ _ R) Hp) as Hsort.
  destruct R as [Rp Rl Rs Rk Rd Ra Rn Rt]. destruct s as [vf pr cp vm tb wd np kp]. destruct vf. cbn in *.
  split; cbn; try done.
  - unfold nodes. by rewrite fmap_app, fmap_cons.
  - intros b w. rewrite elem_of_app, elem_of_cons. unfold has in *. cbn. rewrite elem_of_union, elem_of_singleton.
    specialize (Rk b w). rewrite elem_of_app in Rk. split.
    + intros [?|[[= -> ->]|?]]; naive_solver.
    + intros [[->|?] ?]; naive_solver.
  - intros b [->%elem_of_singleton|Hb]%elem_of_union; [by eexists|by apply Rd].
  - intros b Hb. eapply same_except_allocated; [exact Hs| |by apply Rn]. intros y Hy.
    eapply is_list_allocated; [exact Hl'|]. clear -Hy. set_solver.
Qed.

(** *** Page tables *)

(** A page table operation changes the mappings only. *)
Lemma wp_pages p root X K sp L s o (Q : Z -> task A -> Prop) :
  vm_rep p root X K sp L s -> pt_op_ok K o ->
  (forall r am' s', pt_op_spec (sp_map sp) o r am' ->
     vm_rep p root X K (Space (sp_areas sp) (sp_linked sp) am') L s' -> 
     (forall t, t ∈ X -> t_tables s' !! t = t_tables s !! t) -> Q r s') ->
  wp False (on_pgt (run_pt_op root o)) Q s.
Proof.
  intros R Ho HQ. apply wp_lift. eapply wp_mono; [eapply pt_op_correct; [by eapply vr_pages|exact Ho]|done|].
  intros r g (am' & Hspec & Hpt & Hsame). apply (HQ _ _ _ Hspec).
  - destruct R as [Rp Rl Rs Rk Rd Ra Rn Rt]. destruct s as [vf pr cp vm tb wd np kp]. destruct vf, g. by split.
  - intros t Ht. destruct s as [vf pr cp vm tb wd np kp]. cbn. apply Hsame. set_solver.
Qed.

Lemma area_op_ok K v : area_ok v ->
  (forall j, 0 <= j < vm_length v / PAGE_SIZE -> path_in K (start v + j * PAGE_SIZE)) ->
  pt_op_ok K (PMap (start v) 0 (vm_length v / PAGE_SIZE) (perm v)).
Proof.
  intros (? & ? & Hv) HK. change VM_END with (2 ^ 38) in Hv. unfold vm_end in Hv. change PAGE_SIZE with 4096 in *.
  pose proof (Z.mul_div_le (vm_length v) 4096 ltac:(lia)). pose proof (Z.div_pos (vm_length v) 4096 ltac:(lia) ltac:(lia)).
  unfold pt_op_ok. change PAGE_SIZE with 4096. split_and!; try lia. intros _. done.
Qed.

Lemma area_unmap_ok K v : area_ok v -> pt_op_ok K (PUnmap (start v) (vm_length v / PAGE_SIZE)).
Proof.
  intros (? & ? & Hv). change VM_END with (2 ^ 38) in Hv. unfold vm_end in Hv. change PAGE_SIZE with 4096 in *.
  pose proof (Z.mul_div_le (vm_length v) 4096 ltac:(lia)). pose proof (Z.div_pos (vm_length v) 4096 ltac:(lia) ltac:(lia)).
  unfold pt_op_ok. change PAGE_SIZE with 4096. split_and!; lia.
Qed.

Lemma map_rep p root X K sp L s a v (Q : Z -> task A -> Prop) :
  vm_rep p root X K sp L s -> sp_areas sp !! a = Some v ->
  (forall j, 0 <= j < vm_length v / PAGE_SIZE -> path_in K (start v + j * PAGE_SIZE)) ->
  (forall r am' s', pt_op_spec (sp_map sp) (PMap (start v) 0 (vm_length v / PAGE_SIZE) (perm v)) r am' ->
     vm_rep p root X K (Space (sp_areas sp) (sp_linked sp) am') L s' ->
     (forall t, t ∈ X -> t_tables s' !! t = t_tables s !! t) -> Q r s') ->
  wp False (vma_map_pages p a) Q s.
Proof.
  intros R Hv HK HQ. destruct (vr_proc _ _ _ _ _ _ _ R) as (x & Hx & Hroot).
  destruct (vr_area _ _ _ _ _ _ _ R a v Hv) as (Ht & Hok & _).
  unfold vma_map_pages. apply wp_bind. eapply wp_load; [exact Hx|]. apply wp_bind. eapply wp_load; [exact Ht|].
  rewrite Hroot. change (mappages root (start v) 0 (vm_length v / PAGE_SIZE) (perm v))
    with (run_pt_op (A := A) root (PMap (start v) 0 (vm_length v / PAGE_SIZE) (perm v))).
  eapply wp_pages; [exact R|by apply area_op_ok|exact HQ].
Qed.

(** *** Removing *)

(** An object that is not a table leaves the heap. *)
Lemma free_object root X K am T e a (Q : unit -> A -> Prop) :
  pt_as (own := own) root X K am (PGT T e) -> a ∈ X ->
  (forall e', pt_as (own := own) root (X ∖ {[a]}) K am (PGT T e') -> Q tt e') -> wp False (ka_free a) Q e.
Proof.
  intros (Hf & tab & R) Ha HQ. pose proof (pr_own _ _ _ _ _ _ R) as (k & Ho & Hk). pose proof (pr_frame _ _ _ _ _ _ R) as Hd.
  eapply wp_mono; [by eapply ph_free; [exact Ho|set_solver]|done|]. intros [] e' He. apply HQ.
  split; [done|]. exists tab. destruct R. split; try done; [|set_solver].
  exists k. split; [|done]. cbn. replace (X ∖ {[a]} ∪ map_img tab) with ((X ∪ map_img tab) ∖ {[a]}); [done|]. set_solver.
Qed.

(** Linked areas are distinct structures. *)
Lemma linked_once p root X K sp ys a v zs s b w :
  vm_rep p root X K sp (ys ++ (a, v) :: zs) s -> (b, w) ∈ ys ++ zs -> b <> a.
Proof.
  intros R Hb ->. destruct (vr_list _ _ _ _ _ _ _ R) as [Hnd _]. unfold nodes in Hnd.
  rewrite fmap_app, fmap_cons in Hnd. apply NoDup_cons in Hnd as [_ (_ & Hn & [Hz _]%NoDup_cons)%NoDup_app].
  apply elem_of_app in Hb as [Hb|Hb].
  - apply (Hn (vm_list a)); [|left]. apply list_elem_of_fmap. by exists (a, w).
  - apply Hz. apply list_elem_of_fmap. by exists (a, w).
Qed.

Lemma sorted_remove ys x zs : StronglySorted before (ys ++ x :: zs) -> StronglySorted before (ys ++ zs).
Proof.
  intros (Hb & Hy & [Hz _]%StronglySorted_inv)%StronglySorted_app. apply StronglySorted_app.
  split_and!; [|done|done]. intros y z ??. apply Hb; [done|by right].
Qed.

Lemma linked_remove p root X K sp ys a v zs s b w am :
  vm_rep p root X K sp (ys ++ (a, v) :: zs) s ->
  (b, w) ∈ ys ++ zs <-> has (Space (delete a (sp_areas sp)) (sp_linked sp ∖ {[a]}) am) b w.
Proof.
  intros R. unfold has. cbn. rewrite elem_of_difference, elem_of_singleton, lookup_delete_Some.
  pose proof (vr_linked _ _ _ _ _ _ _ R b w) as Hk. unfold has in Hk. rewrite elem_of_app, elem_of_cons in Hk. split.
  - intros Hb. pose proof (linked_once _ _ _ _ _ _ _ _ _ _ _ _ R Hb) as Hne.
    apply elem_of_app in Hb. naive_solver.
  - rewrite elem_of_app. naive_solver.
Qed.

(** The second [list_del], in [vma_destroy], finds the neighbours linked
    already. *)
Lemma delete_rep p root X K sp ys a v zs s (Q : Z -> task A -> Prop) :
  vm_rep p root X K sp (ys ++ (a, v) :: zs) s ->
  (forall s', vm_rep p root X K (Space (delete a (sp_areas sp)) (sp_linked sp ∖ {[a]}) (sp_map sp)) (ys ++ zs) s' ->
     t_tables s' = t_tables s -> Q 0 s') ->
  wp False (do! on_links (list_del (vm_list a)) in do! vma_destroy a in ret 0) Q s.
Proof.
  intros R HQ. pose proof (vr_list _ _ _ _ _ _ _ R) as Hl. unfold nodes in Hl. rewrite fmap_app, fmap_cons in Hl.
  destruct (list_del_gap _ _ _ _ _ Hl) as (l & H1 & Hl' & Hs & H2). rewrite <- fmap_app in Hl'.
  assert (has sp a v) as [Ha Hv] by (apply (vr_linked _ _ _ _ _ _ _ R); set_solver).
  pose proof (vr_area _ _ _ _ _ _ _ R a v Hv) as (_ & _ & _ & Hap & HaX).
  assert (vm_list a ∉ p_vma p :: nodes (ys ++ zs)) as Hoff.
  { intros [E|Hin]%elem_of_cons; [done|].
    apply list_elem_of_fmap in Hin as ([b w] & E & Hb). apply (linked_once _ _ _ _ _ _ _ _ _ _ _ _ R Hb).
    unfold vm_list in E. cbn in E. lia. }
  apply wp_bind. eapply wp_on_links; [exact H1|]. apply wp_bind. unfold vma_destroy. apply wp_bind.
  eapply wp_on_links; [by destruct s as [[]]|]. apply wp_bind, wp_lift, wp_lift.
  pose proof (fun b w am => linked_remove _ _ _ _ _ _ _ _ _ _ b w am R) as Hlink.
  pose proof (sorted_remove _ _ _ (vr_sorted _ _ _ _ _ _ _ R)) as Hsort.
  destruct R as [Rp Rl Rs Rk Rd Ra Rn Rt]. destruct s as [vf pr cp vm tb wd np kp]. destruct vf. cbn in *.
  eapply free_object; [exact Rt|apply elem_of_union_r; by apply elem_of_dom|]. intros e' Hpt.
  apply wp_bind, wp_modify, wp_modify, wp_ret. apply HQ; [|done]. split; cbn; try done.
  - eapply (is_list_frame [vm_list a]); [exact Hl'| |by intros x ->%list_elem_of_singleton].
    intros x Hx. cbn. rewrite !lookup_delete_ne by set_solver. done.
  - intros b [Hb Hne]%elem_of_difference. rewrite lookup_delete_ne by set_solver. by apply Rd.
  - intros b w [Hne Hb]%lookup_delete_Some. rewrite lookup_delete_ne by done. by apply Ra.
  - intros b [w [Hne Hb]%lookup_delete_Some]. assert (vm_list b <> vm_list a) by (unfold vm_list; lia).
    assert (allocated l (vm_list b)) as [Hn Hp].
    { eapply same_except_allocated; [exact Hs| |apply Rn; by eexists]. intros y Hy.
      eapply is_list_allocated; [exact Hl'|]. unfold nodes in *. rewrite fmap_app. exact Hy. }
    split; cbn; by rewrite lookup_delete_ne.
  - rewrite dom_delete_L. replace (X ∪ dom (sp_areas sp) ∖ {[a]}) with ((X ∪ dom (sp_areas sp)) ∖ {[a]}); [done|].
    clear -HaX. set_solver.
Qed.

Lemma remove_rep p root X K sp ys a v zs s (Q : Z -> task A -> Prop) :
  vm_rep p root X K sp (ys ++ (a, v) :: zs) s ->
  (forall am' s', area_unmapped v (sp_map sp) am' ->
     vm_rep p root X K (Space (delete a (sp_areas sp)) (sp_linked sp ∖ {[a]}) am') (ys ++ zs) s' ->
     (forall t, t ∈ X -> t_tables s' !! t = t_tables s !! t) -> Q 0 s') ->
  wp False (vma_remove p (start v) (vm_length v)) Q s.
Proof.
  intros R HQ. pose proof (vr_ok _ _ _ _ _ _ _ R) as Ho. pose proof (vr_readable _ _ _ _ _ _ _ R) as Hr.
  assert ((a, v) ∈ ys ++ (a, v) :: zs) as Hin by set_solver.
  assert (has sp a v) as [_ Hv] by by apply (vr_linked _ _ _ _ _ _ _ R).
  pose proof (vr_area _ _ _ _ _ _ _ R a v Hv) as (Hav & Hok & Hnull & _).
  unfold vma_remove. apply wp_bind. eapply wp_run.
  { apply vma_find_spec; [by eapply vr_list|exact Hr]. }
  rewrite (area_of_found _ _ (a, v) _ (vr_sorted _ _ _ _ _ _ _ R) Ho) by (destruct Hok as (? & ? & ?); unfold in_area, vm_end; cbn; lia). cbn [fst snd].
  destruct (Z.eqb_spec a NULL) as [|_]; [done|]. apply wp_bind. eapply wp_load; [exact Hav|].
  rewrite !Z.eqb_refl. apply wp_bind. unfold vma_unmap_pages.
  destruct (vr_proc _ _ _ _ _ _ _ R) as (x & Hx & Hroot). apply wp_bind. eapply wp_load; [exact Hx|]. rewrite Hroot.
  change (unmappages root (start v) (vm_length v / PAGE_SIZE))
    with (run_pt_op (A := A) root (PUnmap (start v) (vm_length v / PAGE_SIZE))).
  eapply wp_pages; [exact R|by apply area_unmap_ok|]. intros r am' s1 [_ Hun] R1 Ht.
  eapply delete_rep; [exact R1|]. intros s2 R2 Ht2. eapply HQ; [exact Hun|exact R2|]. intros t HtX. rewrite Ht2. by apply Ht.
Qed.

Lemma remove_none p root X K sp L s st len :
  vm_rep p root X K sp L s -> (forall a v, has sp a v -> ~ (start v = st /\ vm_length v = len)) ->
  vma_remove p st len s = Ok (- ENOENT, s).
Proof.
  intros R Hno. destruct (find_rep _ _ _ _ _ _ _ st R) as (r & Hrun & Hr). unfold vma_remove.
  rewrite (bind_Ok _ _ _ _ _ Hrun). destruct Hr as [(_ & v & _ & _ & Hb & _)|[-> _]]; [|done].
  pose proof Hb as [_ Hv]. apply (vr_area _ _ _ _ _ _ _ R) in Hv as (Hv & _ & Hr & _).
  destruct (Z.eqb_spec r NULL); [done|].
  rewrite (bind_Ok (get_vma r) _ s v s) by (unfold get_vma, load; by rewrite Hv).
  specialize (Hno r v Hb). destruct (Z.eqb_spec (start v) st), (Z.eqb_spec (vm_length v) len); try done. by destruct Hno.
Qed.

(** *** Sessions *)

Definition same_tables (X : gset Z) s s' : Prop := forall t, t ∈ X -> t_tables s' !! t = t_tables s !! t.

Lemma vm_op_correct p root X K sp L o s :
  vm_rep p root X K sp L s -> vm_op_ok K sp o ->
  wp False (run_vm_op p o)
    (fun r s' => exists sp' L', vm_op_spec sp o r sp' /\ vm_rep p root X K sp' L' s' /\ same_tables X s s') s.
Proof.
  intros R Ho. destruct o as [a|va|a|st len]; cbn [run_vm_op vm_op_ok vm_op_spec] in *.
  - destruct Ho as [[v Hv] Ha]. pose proof (vr_area _ _ _ _ _ _ _ R a v Hv) as (Hav & Hok & _).
    destruct (vma_insert_walk p a v L s) as (r & Hp & Hrun);
      [by eapply vr_list|by eapply vr_readable|by eapply vr_sorted|done..|].
    unfold wp. rewrite Hrun. destruct r as [[ys zs]|].
    + destruct (insert_rep _ _ _ _ _ _ _ a v ys zs R Hv Ha Hp) as (l & Hadd & R').
      rewrite (bind_Ok _ _ _ _ _ Hadd). eexists _, _. split; [|split; [exact R'|by destruct s as [[]]]].
      exists v. split; [done|]. right. split; [|done]. intros b w Hb.
      apply (vr_linked _ _ _ _ _ _ _ R) in Hb. by apply (place_apart _ _ _ _ Hp (b, w)).
    + eexists sp, L. split; [|by split]. exists v. split; [done|]. left.
      cbn in Hp. destruct Hp as ([b w] & Hb & Hov). split; [|done]. exists b, w. split; [by apply (vr_linked _ _ _ _ _ _ _ R)|done].
  - destruct (find_rep _ _ _ _ _ _ _ va R) as (r & Hrun & Hr). eapply wp_run; [exact Hrun|].
    exists sp, L. split; [|by split]. split; [done|]. destruct Hr as [(ys & v & zs & _ & Hb & Hin)|Hr]; [left; by exists v|by right].
  - destruct Ho as (v & Hv & HK). eapply map_rep; [exact R|exact Hv|exact HK|].
    intros r am' s' Hspec R' Ht. exists (Space (sp_areas sp) (sp_linked sp) am'), L. split; [|done]. exists v, am'. by split_and!.
  - destruct (decide (Exists (fun x => start x.2 = st /\ vm_length x.2 = len) L)) as [He|He].
    + apply Exists_exists in He as ([a v] & Hin & <- & <-). cbn [snd] in *.
      assert (has sp a v) as Hb by by apply (vr_linked _ _ _ _ _ _ _ R).
      apply list_elem_of_split in Hin as (ys & zs & ->).
      eapply remove_rep; [exact R|]. intros am' s' Hun R' Ht. eexists _, _. split; [|split; [exact R'|exact Ht]].
      left. exists a, v, am'. by split_and!.
    + assert (forall a v, has sp a v -> ~ (start v = st /\ vm_length v = len)) as Hno.
      { intros a v Hb Hv. apply He, Exists_exists. exists (a, v). split; [by apply (vr_linked _ _ _ _ _ _ _ R)|done]. }
      eapply wp_run; [by eapply remove_none|]. exists sp, L. split; [by right|done].
Qed.

Lemma vm_ops_correct p root X K l : forall sp L s,
  vm_rep p root X K sp L s -> vm_ops_ok K sp l ->
  wp False (run_vm_ops p l)
    (fun rs s' => exists sp' L', vm_ops_spec sp l rs sp' /\ vm_rep p root X K sp' L' s' /\ same_tables X s s') s.
Proof.
  induction l as [|o l IH]; intros sp L s R Hl; cbn [run_vm_ops].
  - apply wp_ret. exists sp, L. split; [constructor|]. by split.
  - destruct Hl as [Ho Hl]. eapply wp_bind_mono; [by eapply vm_op_correct|].
    intros r s1 (sp1 & L1 & Hs1 & R1 & Ht1). eapply wp_bind_mono; [by eapply IH; [exact R1|eapply Hl]|].
    intros rs s2 (sp2 & L2 & Hs2 & R2 & Ht2). apply wp_ret. exists sp2, L2. split; [by econstructor|]. split; [done|].
    intros t Ht. by rewrite Ht2, Ht1.
Qed.

(** *** Releasing the areas *)

(** The areas of [L] are gone, with their pages. *)
Definition gone (L : list (Z * vma)) (sp sp' : space) : Prop :=
  sp_linked sp' = ∅ /\
  (forall a, sp_areas sp' !! a = if decide (a ∈ L.*1) then None else sp_areas sp !! a) /\
  (forall w, (Exists (fun x => page_of x.2 w) L -> sp_map sp' !! w = None) /\
             (~ Exists (fun x => page_of x.2 w) L -> sp_map sp' !! w = sp_map sp !! w)).

Lemma gone_cons a v L sp am sp' :
  area_unmapped v (sp_map sp) am -> gone L (Space (delete a (sp_areas sp)) (sp_linked sp ∖ {[a]}) am) sp' ->
  gone ((a, v) :: L) sp sp'.
Proof.
  intros Hun (H1 & H2 & H3). split; [done|]. split; cbn [sp_areas sp_map] in *.
  - intros b. rewrite H2. cbn. destruct (decide (b ∈ L.*1)).
    + by rewrite decide_True by by right.
    + destruct (decide (b = a)) as [->|Hne].
      * rewrite decide_True by left. by rewrite lookup_delete_eq.
      * rewrite decide_False by (intros [?|?]%elem_of_cons; done). by rewrite lookup_delete_ne.
  - intros w. specialize (Hun w). specialize (H3 w) as [Hin Hout]. rewrite Exists_cons. cbn [snd].
    unfold page_of at 1 3. split.
    + intros Hw. destruct (decide (Exists (fun x => vpn (start x.2) <= w /\ w < vpn (start x.2) + vm_length x.2 / PAGE_SIZE) L)) as [He|He].
      * by apply Hin.
      * rewrite Hout by done. rewrite Hun. rewrite decide_True; [done|]. by destruct Hw.
    + intros Hw. rewrite Hout by tauto. rewrite Hun. rewrite decide_False; [done|]. tauto.
Qed.

(** The loop of [free_proc], which holds the next node before it removes an
    area, ends with the empty list. *)
Lemma free_vmas_spec p root X K L : forall sp s fuel n,
  vm_rep p root X K sp L s -> (length L < fuel)%nat ->
  on_links (get_next (gap_next (p_vma p) (nodes L))) s = Ok (n, s) ->
  wp False (free_vmas fuel p (gap_next (p_vma p) (nodes L)) n (p_vma p))
    (fun _ s' => exists sp', gone L sp sp' /\ vm_rep p root X K sp' [] s' /\ same_tables X s s') s.
Proof.
  induction L as [|[a v] L IH]; intros sp s [|fuel] n R Hf Hn; cbn in Hf; try lia; cbn [free_vmas].
  - rewrite Z.eqb_refl. apply wp_ret. exists sp. split; [|by split]. split; [|split].
    + apply set_eq. intros a. split; [|by intros ?%not_elem_of_empty]. intros Ha.
      destruct (vr_dom _ _ _ _ _ _ _ R a Ha) as [v Hv].
      assert (has sp a v) as Hb by done. by apply (vr_linked _ _ _ _ _ _ _ R), not_elem_of_nil in Hb.
    + done.
    + intros w. by rewrite Exists_nil.
  - destruct (walk_step (p_vma p) s [] (a, v) L (fun v0 => let! _ := vma_remove p (start v0) (vm_length v0) in
        let! n' := on_links (get_next n) in free_vmas fuel p n n' (p_vma p))) as (Eh & Eb & Enext);
      [by eapply vr_list|by eapply vr_readable|].
    change (gap_next (p_vma p) (nodes ((a, v) :: L))) with (vm_list (a, v).1) in *.
    rewrite Enext in Hn. injection Hn as <-. rewrite Eh. unfold wp. rewrite Eb. fold (wp (S := task A) (A := unit)).
    apply wp_bind. eapply (remove_rep _ _ _ _ _ []); [exact R|]. intros am' s' Hun R' Ht. cbn [app] in R'.
    assert (exists n', on_links (get_next (gap_next (p_vma p) (nodes L))) s' = Ok (n', s')) as (n' & Hn').
    { destruct L as [|y L'].
      - eexists. apply (head_next _ []). by eapply vr_list.
      - eexists. eapply (walk_step (p_vma p) s' [] y L' (fun _ => ret tt)); [by eapply vr_list|by eapply vr_readable]. }
    apply wp_bind. eapply wp_run; [exact Hn'|]. eapply wp_mono; [eapply IH; [exact R'|lia|exact Hn']|done|].
    intros _ s2 (sp' & Hg & R2 & Ht2). exists sp'. split; [by eapply gone_cons|]. split; [done|].
    intros t HtX. rewrite Ht2 by done. by apply Ht.
Qed.

Lemma release_areas_spec p root X K L sp s :
  vm_rep p root X K sp L s ->
  wp False (release_areas p)
    (fun _ s' => exists sp', gone L sp sp' /\ vm_rep p root X K sp' [] s' /\ same_tables X s s') s.
Proof.
  intros R. pose proof (vr_list _ _ _ _ _ _ _ R) as Hl. unfold release_areas, walk_fuel.
  apply wp_bind, wp_gets, wp_bind. eapply wp_run; [by apply (head_next _ L)|].
  assert (exists n, on_links (get_next (gap_next (p_vma p) (nodes L))) s = Ok (n, s)) as (n & Hn).
  { destruct L as [|y L']; [eexists; by apply (head_next _ [])|].
    eexists. eapply (walk_step (p_vma p) s [] y L' (fun _ => ret tt)); [done|by eapply vr_readable]. }
  apply wp_bind. eapply wp_run; [exact Hn|]. eapply free_vmas_spec; [exact R|by eapply nodes_fuel|exact Hn].
Qed.

Lemma gone_released p root X K L sp sp' s : vm_rep p root X K sp L s -> gone L sp sp' -> released sp sp'.
Proof.
  intros R (H1 & H2 & H3).
  assert (forall w, Exists (fun x => page_of x.2 w) L <-> exists a v, has sp a v /\ page_of v w) as HE.
  { intros w. rewrite Exists_exists. split.
    - intros ([a v] & Hx & Hw). exists a, v. split; [by apply (vr_linked _ _ _ _ _ _ _ R)|done].
    - intros (a & v & Hx & Hw). exists (a, v). split; [by apply (vr_linked _ _ _ _ _ _ _ R)|done]. }
  split; [done| | |].
  - intros a. rewrite H2. apply decide_ext. rewrite list_elem_of_fmap. split.
    + intros ([b v] & -> & Hx). apply (vr_linked _ _ _ _ _ _ _ R) in Hx. by apply Hx.
    + intros Ha. destruct (vr_dom _ _ _ _ _ _ _ R a Ha) as [v Hv]. exists (a, v). split; [done|].
      by apply (vr_linked _ _ _ _ _ _ _ R).
  - intros w. rewrite <- HE. apply H3.
  - intros w Hw. apply H3. rewrite HE. intros (a & v & Hx & ?). by apply (Hw a v).
Qed.

Lemma rep_disjoint p root X K L sp s : vm_rep p root X K sp L s -> disjoint_areas sp.
Proof.
  intros R a v b w Ha Hb Hne. pose proof (vr_sorted _ _ _ _ _ _ _ R) as Hs.
  apply (vr_linked _ _ _ _ _ _ _ R) in Ha. apply (vr_linked _ _ _ _ _ _ _ R) in Hb. clear R. unfold overlap.
  induction Hs as [|x L Hs IH Hx]; [by apply not_elem_of_nil in Ha|]. rewrite Forall_forall in Hx.
  apply elem_of_cons in Ha as [<-|Ha], Hb as [Eb|Hb]; [congruence| |subst x|by apply IH].
  - specialize (Hx _ Hb). unfold before in Hx. cbn in Hx. lia.
  - specialize (Hx _ Ha). unfold before in Hx. cbn in Hx. lia.
Qed.


End proof.

(** ** A process with two areas *)

Definition sample_areas : gmap Z vma := <[256 := Vma 0x1000 0x2000 3 0 NULL 0]> {[512 := Vma 0x3000 0x1000 1 0 NULL 0]}.
Definition sample_heap : bump := Bump 4096 3 {[256; 512]}.
Definition sample_keys : gset (Z * Z) := {[ (2, 0); (1, 0); (0, 0) ]}.

(** Its page table is new. *)
Definition sample_pages : pgt bump :=
  match pagetable_create (PGT ∅ sample_heap) with Ok (_, g) => g | _ => PGT ∅ sample_heap end.

Definition sample_task : task bump :=
  Task (set_v_env (pt_env sample_pages) (bare_vfs [1056; 296; 552]))
       {[1024 := set_pagetable 4096 zero_proc]} ∅ sample_areas (pt_pages sample_pages) ∅ 2 0.

Lemma sample_pages_as : pt_as (own := bump_pages) 4096 {[256; 512]} sample_keys ∅ sample_pages.
Proof.
  assert (wp False pagetable_create (fun root s' => pt_as (own := bump_pages) root {[256; 512]} sample_keys ∅ s' /\
    same_pages {[256; 512]} (PGT ∅ sample_heap) s') (PGT ∅ sample_heap)) as Hc.
  { apply (pagetable_create_spec (own := bump_pages) {[256; 512]} sample_keys 3); [|done|done].
    split; [|done]. split; [done|]. split; [done|]. intros x Hx. cbn. set_solver by lia. }
  unfold sample_pages. unfold wp in Hc. 
  assert (exists g, pagetable_create (PGT ∅ sample_heap) = Ok (4096, g)) as (g & E) by (eexists; vm_compute; reflexivity).
  rewrite E in *. apply Hc.
Qed.

Lemma sample_areas_lookup a v : sample_areas !! a = Some v ->
  (a = 256 /\ v = Vma 0x1000 0x2000 3 0 NULL 0) \/ (a = 512 /\ v = Vma 0x3000 0x1000 1 0 NULL 0).
Proof.
  unfold sample_areas. intros [[<- <-]|[_ [<- <-]%lookup_singleton_Some]]%lookup_insert_Some; [by left|by right].
Qed.

Definition sample_space : space := Space sample_areas ∅ ∅.

Lemma sample_rep : vm_rep (own := bump_pages) 1024 4096 ∅ sample_keys sample_space [] sample_task.
Proof.
  split; cbn.
  - eexists. split; [apply lookup_singleton_eq|done].
  - split; [apply NoDup_singleton|]. vm_compute. done.
  - constructor.
  - intros a v. split; [by intros ?%not_elem_of_nil|]. by intros [?%not_elem_of_empty _].
  - by intros a ?%not_elem_of_empty.
  - intros a v Hv. split; [done|]. clear -Hv. apply sample_areas_lookup in Hv as [[-> ->]|[-> ->]];
      (split; [split_and!; vm_compute; congruence|split; [done|split; [done|set_solver]]]).
  - intros a [v Hv]. apply allocated_self_links.
    apply sample_areas_lookup in Hv as [[-> ->]|[-> ->]]; vm_compute; set_solver.
  - replace (∅ ∪ dom sample_areas) with ({[256; 512]} : gset Z) by (vm_compute; reflexivity). apply sample_pages_as.
Qed.

Definition sample_ops : list vm_op :=
  [VInsert 256; VMap 256; VInsert 512; VFind 0x1800; VRemove 0x1000 0x2000].

Lemma sample_ops_ok : vm_ops_ok sample_keys sample_space sample_ops.
Proof.
  split; [split; [by eexists|set_solver]|]. intros r1 sp1 (v1 & Hv1 & H1).
  assert (sp_areas sp1 = sample_areas /\ (sp_linked sp1 = ∅ \/ sp_linked sp1 = {[256]})) as [E1 L1].
  { destruct H1 as [(_ & _ & ->)|(_ & _ & ->)]; cbn; [auto|]. split; [done|right; set_solver]. }
  split; [exists (Vma 0x1000 0x2000 3 0 NULL 0); rewrite E1; split; [done|]|].
  { intros j Hj. change (vm_length (Vma 0x1000 0x2000 3 0 NULL 0) / PAGE_SIZE) with 2 in Hj.
    assert (j = 0 \/ j = 1) as [-> | ->] by lia; vm_compute; set_solver. }
  intros r2 sp2 (v2 & am2 & _ & _ & ->).
  split; [split; cbn; [rewrite E1; by eexists|]|].
  { destruct L1 as [-> | ->]; set_solver. }
  intros r3 sp3 _. split; [done|]. intros r4 sp4 _. split; [done|]. done.
Qed.


(** The run of the example: the second area begins where the first ends. *)
Example sample_run :
  match run_vm_ops 1024 sample_ops sample_task with Ok (rs, _) => rs | _ => [] end = [0; 0; 0; 256; 0].
Proof. vm_compute. reflexivity. Qed.

(** An area mapped with [pa = 0] gets the frames from 0 on: its second page is
    the physical page [0x1000], not a page without a frame. *)
Lemma mapped_area_has_frames :
  match (do! vma_map_pages 1024 256 in on_pgt (va2pa 4096 0x2000)) sample_task with Ok (pa, _) => pa | _ => 0 end = 0x1000.
Proof. vm_compute. reflexivity. Qed.
