(* ===== verification/Blk.v ===== *)
(** The block layer: the registry of block devices of [src/hal/blk.c], and the
    state it shares with the buffer cache of [src/mm/bcache.c].

    A device is found by its address; its operations are a table of function
    pointers that a driver provides, the class [BlkCode].  The 512 bytes of a
    buffer are found by the address of the buffer.  The registry lives in
    static storage, at negative addresses. *)

From S2P Require Import Prelude ListHead Sync Machine.

Definition BLK_MAX_DEVICES : Z := 16.

Definition MAJOR (dev : Z) : Z := Z.shiftr dev 20.
Definition MINOR (dev : Z) : Z := Z.land dev 0x000fffff.
Definition MKDEV (major minor : Z) : Z := Z.lor (Z.shiftl major 20) (Z.land minor 0xfffff).

Record block_device := BlockDevice { devno : Z; bd_ops : Z; bd_private : Z }.
Definition bd_lock (dev : Z) : Z := dev + 40.

(** A buffer of the cache, without its data, its lock and its list nodes. *)
Record buf := Buf { blockno : Z; b_dev : Z; refcnt : Z; dirty : bool; valid : bool }.

Definition blk_registry_lock : Z := -1000.

(** ** State *)

Record blk (E : Type) := Blk {
  k_hart : hart;
  k_cpu : Z;
  k_links : lstore;
  k_devices : list Z;                     (* [blk_registry.devices] *)
  k_count : Z;                            (* [blk_registry.count] *)
  k_devs : gmap Z block_device;
  k_bufs : gmap Z buf;
  k_data : gmap Z (list Z);               (* the bytes at the address of a buffer *)
  k_env : E                               (* the driver and its device *)
}.
Arguments Blk {E}.
Arguments k_hart {E}.
Arguments k_cpu {E}.
Arguments k_links {E}.
Arguments k_devices {E}.
Arguments k_count {E}.
Arguments k_devs {E}.
Arguments k_bufs {E}.
Arguments k_data {E}.
Arguments k_env {E}.

Section state.
Context {E : Type}.
Implicit Types s : blk E.

Definition set_k_hart x s : blk E := let 'Blk _ c l d n v b t e := s in Blk x c l d n v b t e.
Definition set_k_links x s : blk E := let 'Blk h c _ d n v b t e := s in Blk h c x d n v b t e.
Definition set_k_devices x s : blk E := let 'Blk h c l _ n v b t e := s in Blk h c l x n v b t e.
Definition set_k_count x s : blk E := let 'Blk h c l d _ v b t e := s in Blk h c l d x v b t e.
Definition set_k_bufs x s : blk E := let 'Blk h c l d n v _ t e := s in Blk h c l d n v x t e.
Definition set_k_data x s : blk E := let 'Blk h c l d n v b _ e := s in Blk h c l d n v b x e.
Definition set_k_env x s : blk E := let 'Blk h c l d n v b t _ := s in Blk h c l d n v b t x.

#[export] Instance blk_machine : Machine (blk E) := {
  hart_of := k_hart; set_hart := set_k_hart; cpu_of := k_cpu;
  links_of := k_links; set_links := set_k_links
}.

Definition get_dev (p : Z) : ST (blk E) block_device := load (fun s => k_devs s !! p).

Definition get_buf (b : Z) : ST (blk E) buf := load (fun s => k_bufs s !! b).
Definition upd_buf (b : Z) (f : buf -> buf) : ST (blk E) unit :=
  store (fun s => x ← k_bufs s !! b; Some (set_k_bufs (<[b := f x]> (k_bufs s)) s)).

(** [blk_registry.devices[i]]. *)
Definition get_devices (i : Z) : ST (blk E) Z :=
  load (fun s => if i <? 0 then None else k_devices s !! Z.to_nat i).
Definition set_devices (i p : Z) : ST (blk E) unit :=
  store (fun s => if decide (0 <= i < Z.of_nat (length (k_devices s)))
    then Some (set_k_devices (<[Z.to_nat i := p]> (k_devices s)) s) else None).

End state.

#[export] Instance blk_machine_ok {E} : MachineOk (blk E).
Proof. split; by intros; destruct s. Qed.

(** [struct blk_operations]; [None] is a null pointer.  The arguments are the
    device, the sector, the address of the data and the number of sectors. *)
Record blk_operations (E : Type) := {
  read_op : option (Z -> Z -> Z -> Z -> ST (blk E) Z);
  write_op : option (Z -> Z -> Z -> Z -> ST (blk E) Z);
  flush_op : option (Z -> ST (blk E) Z);
  get_capacity_op : option (Z -> ST (blk E) Z);
  get_block_size_op : option (Z -> ST (blk E) Z)
}.
Arguments read_op {E}.
Arguments write_op {E}.
Arguments flush_op {E}.
Arguments get_capacity_op {E}.
Arguments get_block_size_op {E}.

Class BlkCode (E : Type) := { blkops : Z -> blk_operations E }.

(** ** Operations *)

Section blk.
Context {E : Type} `{BlkCode E}.

Definition blk_init : ST (blk E) unit :=
  do! modify (set_k_count 0) in
  do! lock_init blk_registry_lock in
  for_up (Z.to_nat BLK_MAX_DEVICES) 0 (fun i => set_devices i NULL).

(** The loop over the registered devices from index [i]. *)
Fixpoint find_device (n : nat) (i no : Z) : ST (blk E) Z :=
  match n with
  | O => ret NULL
  | S n =>
      let! p := get_devices i in
      let! d := get_dev p in
      if devno d =? no then ret p else find_device n (i + 1) no
  end.

Definition blk_register (dev : Z) : ST (blk E) Z :=
  do! acquire blk_registry_lock in
  let! count := gets k_count in
  if BLK_MAX_DEVICES <=? count then do! release blk_registry_lock in ret (-1) else
  let! d := get_dev dev in
  let! p := find_device (Z.to_nat count) 0 (devno d) in
  if negb (p =? NULL) then do! release blk_registry_lock in ret (-1) else
  do! set_devices count dev in
  do! modify (set_k_count (u32 (count + 1))) in
  do! release blk_registry_lock in
  ret 0.

Definition blk_lookup (no : Z) : ST (blk E) Z :=
  do! acquire blk_registry_lock in
  let! count := gets k_count in
  let! dev := find_device (Z.to_nat count) 0 no in
  do! release blk_registry_lock in
  ret dev.

Definition blk_get (no : Z) : ST (blk E) Z := blk_lookup no.

Definition blk_read (no sector buf nsectors : Z) : ST (blk E) Z :=
  let! dev := blk_lookup no in
  if dev =? NULL then ret (-1) else
  let! d := get_dev dev in
  match entry (bd_ops d) blkops read_op with
  | None => ret (-1)
  | Some read =>
      do! acquire (bd_lock dev) in
      let! r := read dev sector buf nsectors in
      do! release (bd_lock dev) in
      ret r
  end.

Definition blk_write (no sector buf nsectors : Z) : ST (blk E) Z :=
  let! dev := blk_lookup no in
  if dev =? NULL then ret (-1) else
  let! d := get_dev dev in
  match entry (bd_ops d) blkops write_op with
  | None => ret (-1)
  | Some write =>
      do! acquire (bd_lock dev) in
      let! r := write dev sector buf nsectors in
      do! release (bd_lock dev) in
      ret r
  end.

Definition blk_flush (no : Z) : ST (blk E) Z :=
  let! dev := blk_lookup no in
  if dev =? NULL then ret (-1) else
  let! d := get_dev dev in
  match entry (bd_ops d) blkops flush_op with
  | None => ret 0
  | Some flush =>
      do! acquire (bd_lock dev) in
      let! r := flush dev in
      do! release (bd_lock dev) in
      ret r
  end.

Definition blk_capacity (no : Z) : ST (blk E) Z :=
  let! dev := blk_lookup no in
  if dev =? NULL then ret 0 else
  let! d := get_dev dev in
  match entry (bd_ops d) blkops get_capacity_op with
  | None => ret 0
  | Some f => f dev
  end.

Definition blk_block_size (no : Z) : ST (blk E) Z :=
  let! dev := blk_lookup no in
  if dev =? NULL then ret BLOCK_SIZE else
  let! d := get_dev dev in
  match entry (bd_ops d) blkops get_block_size_op with
  | None => ret BLOCK_SIZE
  | Some f => f dev
  end.

End blk.
