(* ===== verification/BlkProof.v ===== *)
(** The block layer against the disk of its driver. *)

From S2P Require Import Prelude ListHead ListFamily Sync Machine Blk.

(** What a driver owes its clients: a one-sector read fills the buffer with
    the block of the disk, a one-sector write replaces the block; both succeed
    for the blocks that exist.  [disk] is the content of the device by device
    number and sector. *)
Class BlkDriver (E : Type) `{BlkCode E} (disk : E -> gmap (Z * Z) (list Z)) : Prop := {
  drv_read s p v f sector b d :
    k_devs s !! p = Some v -> entry (bd_ops v) blkops read_op = Some f ->
    disk (k_env s) !! (devno v, sector) = Some d -> is_Some (k_data s !! b) ->
    wp False (f p sector b 1)
      (fun r s' => r = 0 /\ exists e, s' = set_k_env e (set_k_data (<[b := d]> (k_data s)) s) /\ disk e = disk (k_env s)) s;
  drv_write s p v f sector b d :
    k_devs s !! p = Some v -> entry (bd_ops v) blkops write_op = Some f ->
    is_Some (disk (k_env s) !! (devno v, sector)) -> k_data s !! b = Some d ->
    wp False (f p sector b 1)
      (fun r s' => r = 0 /\ exists e, s' = set_k_env e s /\ disk e = <[(devno v, sector) := d]> (disk (k_env s))) s
}.

Section blk.
Context {E : Type} `{BlkCode E} {disk : E -> gmap (Z * Z) (list Z)} {HD : BlkDriver E disk}.
Implicit Types s : blk E.

(** The devices [ps] are registered and complete, and every block of the disk
    is on one of them. *)
Record reg_ok (ps : list Z) s : Prop := {
  rg_count : k_count s = Z.of_nat (length ps);
  rg_max : Z.of_nat (length ps) <= BLK_MAX_DEVICES;
  rg_slots : exists rest, k_devices s = ps ++ rest;
  rg_devs p : p ∈ ps -> 0 < p /\ exists v, k_devs s !! p = Some v /\
    is_Some (entry (bd_ops v) blkops read_op) /\ is_Some (entry (bd_ops v) blkops write_op);
  rg_blocks k : is_Some (disk (k_env s) !! k) -> exists p v, p ∈ ps /\ k_devs s !! p = Some v /\ devno v = k.1
}.

Definition same_reg s s' : Prop :=
  k_count s' = k_count s /\ k_devices s' = k_devices s /\ k_devs s' = k_devs s /\
  dom (disk (k_env s')) = dom (disk (k_env s)).

Lemma reg_ok_same ps s s' : reg_ok ps s -> same_reg s s' -> reg_ok ps s'.
Proof.
  intros [] (Hc & Hd & Hv & Hk). split; rewrite ?Hc, ?Hd, ?Hv; try done.
  intros k Hs. apply rg_blocks0. apply elem_of_dom. rewrite <- Hk. by apply elem_of_dom.
Qed.

Lemma find_device_run no ps : forall pre s rest,
  k_devices s = pre ++ ps ++ rest -> (forall p, p ∈ ps -> is_Some (k_devs s !! p)) ->
  find_device (length ps) (Z.of_nat (length pre)) no s =
    Ok (default NULL (List.find (fun p => match k_devs s !! p with Some v => devno v =? no | None => false end) ps), s).
Proof.
  induction ps as [|p ps IH]; intros pre s rest Hd Hv; cbn [length find_device List.find]; [done|].
  destruct (Hv p) as [v Hp]; [by left|].
  assert (get_devices (Z.of_nat (length pre)) s = Ok (p, s)) as Hg.
  { unfold get_devices, load. destruct (Z.ltb_spec (Z.of_nat (length pre)) 0); [lia|].
    rewrite Hd, Nat2Z.id. cbn [app]. by rewrite list_lookup_middle. }
  rewrite (bind_Ok _ _ _ _ _ Hg). erewrite bind_Ok by (unfold get_dev, load; by rewrite Hp).
  rewrite Hp. destruct (devno v =? no); [done|].
  replace (Z.of_nat (length pre) + 1) with (Z.of_nat (length (pre ++ [p]))) by (rewrite length_app; cbn; lia).
  apply (IH _ _ rest); [by rewrite <- app_assoc|]. intros q Hq. apply Hv. by right.
Qed.

(** The locks that callers of the block layer hold are in static storage. *)
Definition static_locks (held : gset Z) : Prop :=
  (forall l, l ∈ held -> l < 0) /\ blk_registry_lock ∉ held /\ few ({[NULL]} ∪ held).

Lemma static_few held : static_locks held -> few held.
Proof.
  intros (_ & _ & Hf). unfold few in *. assert (size held <= size ({[NULL]} ∪ held))%nat by (apply subseteq_size; set_solver). lia.
Qed.

Lemma blk_lookup_spec st held ps no s :
  locks st held s -> static_locks held -> reg_ok ps s ->
  wp False (blk_lookup no)
    (fun r s' => r = default NULL (List.find (fun p => match k_devs s !! p with Some v => devno v =? no | None => false end) ps) /\
       exists h, s' = set_hart h s /\ hart_ok (cpu_of s) st held h) s.
Proof.
  intros Hl Hst Hr. pose proof (static_few _ Hst) as Hf. destruct Hst as (Hneg & Hreg & _). unfold blk_lookup.
  apply wp_bind. eapply wp_acquire; [exact Hl|done|done|]. intros h Hh. apply wp_bind, wp_gets.
  destruct (rg_slots _ _ Hr) as [rest Hd]. pose proof (rg_count _ _ Hr) as Hc. pose proof (rg_devs _ _ Hr) as Hds.
  destruct s; cbn in *. subst k_count.
  apply wp_bind. eapply wp_run.
  { rewrite Nat2Z.id. apply (find_device_run no ps [] _ rest); [exact Hd|].
    intros p Hp. destruct (Hds p Hp) as (_ & v & Hv & _). by exists v. }
  apply wp_bind. eapply (wp_release st held); [exact Hh|done|done|]. intros h1 Hh1. apply wp_ret.
  split; [done|]. by exists h1.
Qed.

(** A block of the disk is found on its device. *)
Lemma blk_lookup_block ps s k :
  reg_ok ps s -> is_Some (disk (k_env s) !! k) ->
  exists p v, List.find (fun p => match k_devs s !! p with Some v => devno v =? k.1 | None => false end) ps = Some p /\
    p ∈ ps /\ k_devs s !! p = Some v /\ devno v = k.1.
Proof.
  intros Hr Hk. destruct (rg_blocks _ _ Hr k Hk) as (p0 & v0 & Hp0 & Hv0 & Hn0).
  destruct (List.find _ ps) as [p|] eqn:Ef.
  - apply List.find_some in Ef as [Hp Ht]. apply list_elem_of_In in Hp. destruct (k_devs s !! p) as [v|] eqn:Hv; [|done].
    exists p, v. split; [done|]. split; [done|]. split; [done|]. by apply Z.eqb_eq.
  - exfalso. apply list_elem_of_In in Hp0. pose proof (List.find_none _ _ Ef p0 Hp0) as Ht. cbv beta in Ht.
    rewrite Hv0, Hn0, Z.eqb_refl in Ht. done.
Qed.

Lemma blk_read_spec st held ps no sector b d s :
  locks st held s -> static_locks held -> reg_ok ps s ->
  disk (k_env s) !! (no, sector) = Some d -> is_Some (k_data s !! b) ->
  wp False (blk_read no sector b 1)
    (fun r s' => r = 0 /\ exists h e, s' = set_hart h (set_k_env e (set_k_data (<[b := d]> (k_data s)) s)) /\
       hart_ok (cpu_of s) st held h /\ disk e = disk (k_env s)) s.
Proof.
  intros Hl Hst Hr Hd Hb. unfold blk_read. eapply wp_bind_mono; [by eapply blk_lookup_spec|].
  cbv beta. intros p s1 [-> (h & -> & Hh)]. destruct (blk_lookup_block ps s (no, sector) Hr) as (p & v & Ef & Hp & Hv & Hn); [by eexists|].
  cbn [fst] in Ef, Hn. rewrite Ef. change (default NULL (Some p)) with p. cbv beta. destruct (rg_devs _ _ Hr p Hp) as (Hpos & v' & Hv' & [f Hf] & _).
  rewrite Hv in Hv'. injection Hv' as <-. destruct (Z.eqb_spec p NULL) as [->|_]; [done|].
  pose proof (static_few _ Hst) as Hfew. destruct Hst as (Hneg & Hreg & _). subst no.
  destruct s; cbn in *. apply wp_bind. eapply wp_load; [exact Hv|]. rewrite Hf.
  assert (bd_lock p ∉ held) as Hnl by (intros Hin; specialize (Hneg _ Hin); unfold bd_lock in Hneg; lia).
  apply wp_bind. eapply wp_acquire; [exact Hh|done|done|]. intros h1 Hh1.
  eapply wp_bind_mono; [eapply drv_read; cbn; eassumption|]. cbn. intros r s2 (-> & e & -> & He).
  apply wp_bind. eapply (wp_release st held); [exact Hh1|done|done|]. intros h2 Hh2. apply wp_ret.
  split; [done|]. by exists h2, e.
Qed.

Lemma blk_write_spec st held ps no sector b d s :
  locks st held s -> static_locks held -> reg_ok ps s ->
  is_Some (disk (k_env s) !! (no, sector)) -> k_data s !! b = Some d ->
  wp False (blk_write no sector b 1)
    (fun r s' => r = 0 /\ exists h e, s' = set_hart h (set_k_env e s) /\
       hart_ok (cpu_of s) st held h /\ disk e = <[(no, sector) := d]> (disk (k_env s))) s.
Proof.
  intros Hl Hst Hr Hd Hb. unfold blk_write. eapply wp_bind_mono; [by eapply blk_lookup_spec|].
  cbv beta. intros p s1 [-> (h & -> & Hh)]. destruct (blk_lookup_block ps s (no, sector) Hr Hd) as (p & v & Ef & Hp & Hv & Hn).
  cbn [fst] in Ef, Hn. rewrite Ef. change (default NULL (Some p)) with p. cbv beta. destruct (rg_devs _ _ Hr p Hp) as (Hpos & v' & Hv' & _ & [f Hf]).
  rewrite Hv in Hv'. injection Hv' as <-. destruct (Z.eqb_spec p NULL) as [->|_]; [done|].
  pose proof (static_few _ Hst) as Hfew. destruct Hst as (Hneg & Hreg & _). subst no.
  destruct s; cbn in *. apply wp_bind. eapply wp_load; [exact Hv|]. rewrite Hf.
  assert (bd_lock p ∉ held) as Hnl by (intros Hin; specialize (Hneg _ Hin); unfold bd_lock in Hneg; lia).
  apply wp_bind. eapply wp_acquire; [exact Hh|done|done|]. intros h1 Hh1.
  eapply wp_bind_mono; [eapply drv_write; cbn; eassumption|]. cbn. intros r s2 (-> & e & -> & He).
  apply wp_bind. eapply (wp_release st held); [exact Hh1|done|done|]. intros h2 Hh2. apply wp_ret.
  split; [done|]. by exists h2, e.
Qed.

End blk.
