(* ===== verification/Bcache.v ===== *)
(** The buffer cache, [src/mm/bcache.c]: 128 buffers in static storage, in hash
    chains by device and block number and on one list by the order of use. *)

From S2P Require Import Prelude ListHead Sync Machine Blk.

(** [bcache.bufs[i]], and the offsets in [struct buf]. *)
Definition sizeof_buf : Z := 592.
Definition buf_at (i : Z) : Z := - 2 ^ 24 + sizeof_buf * i.
Definition b_lock (b : Z) : Z := b + 536.
Definition b_lru (b : Z) : Z := b + 560.
Definition b_hash (b : Z) : Z := b + 576.

(** [bcache.hash_table[i]], [bcache.lru_list] and [bcache.lock]. *)
Definition hash_table (i : Z) : Z := - 2 ^ 25 + 16 * i.
Definition lru_list : Z := - 2 ^ 25 + 16 * BCACHE_HASH_SIZE.
Definition bcache_lock : Z := - 2 ^ 25 + 16 * BCACHE_HASH_SIZE + 16.

Definition set_refcnt x (b : buf) : buf := Buf (blockno b) (b_dev b) x (dirty b) (valid b).
Definition set_dirty x (b : buf) : buf := Buf (blockno b) (b_dev b) (refcnt b) x (valid b).
Definition set_valid x (b : buf) : buf := Buf (blockno b) (b_dev b) (refcnt b) (dirty b) x.

(** The sum is taken at the width of [blockno]. *)
Definition bcache_hash (dev blockno : Z) : Z := u32 (u64 (dev + blockno) mod BCACHE_HASH_SIZE).

Section bcache.
Context {E : Type} `{BlkCode E}.

Definition bcache_init : ST (blk E) unit :=
  do! acquire bcache_lock in
  do! on_links (INIT_LIST_HEAD lru_list) in
  do! for_up (Z.to_nat BCACHE_HASH_SIZE) 0 (fun i => on_links (INIT_LIST_HEAD (hash_table i))) in
  do! for_up (Z.to_nat BCACHE_SIZE) 0 (fun i =>
        let b := buf_at i in
        do! modify (fun s => set_k_bufs (<[b := Buf 0 0 0 false false]> (k_bufs s)) s) in
        do! lock_init (b_lock b) in
        do! on_links (INIT_LIST_HEAD (b_hash b)) in
        do! on_links (INIT_LIST_HEAD (b_lru b)) in
        on_links (list_add (b_lru b) lru_list)) in
  release bcache_lock.

Definition bcache_lookup (dev no : Z) : ST (blk E) Z :=
  let! r := find_entry (fun pos =>
      let! x := get_buf (pos - 576) in ret ((b_dev x =? dev) && (blockno x =? no)))
    (hash_table (bcache_hash dev no)) in
  ret (match r with Some pos => pos - 576 | None => NULL end).

(** [list_for_each_entry_reverse] with an early exit. *)
Fixpoint find_back_from (fuel : nat) (found : Z -> ST (blk E) bool) (pos head : Z) : ST (blk E) (option Z) :=
  match fuel with
  | O => no_fuel
  | S fuel =>
      if pos =? head then ret None else
      let! b := found pos in
      if b then ret (Some pos) else
      let! p := on_links (get_prev pos) in
      find_back_from fuel found p head
  end.

Definition bcache_evict : ST (blk E) Z :=
  let! fuel := walk_fuel in
  let! last := on_links (get_prev lru_list) in
  let! r := find_back_from fuel (fun pos => let! x := get_buf (pos - 560) in ret (refcnt x =? 0)) last lru_list in
  match r with
  | None => ret NULL
  | Some pos =>
      let b := pos - 560 in
      let! x := get_buf b in
      do! (if dirty x then
             let! _ := blk_write (b_dev x) (blockno x) b 1 in upd_buf b (set_dirty false)
           else ret tt) in
      do! on_links (list_del (b_hash b)) in
      do! upd_buf b (set_valid false) in
      ret b
  end.

Definition bcache_get (dev no : Z) : ST (blk E) Z :=
  do! acquire bcache_lock in
  let! b := bcache_lookup dev no in
  if negb (b =? NULL) then
    do! upd_buf b (fun x => set_refcnt (u32 (refcnt x + 1)) x) in
    do! on_links (do! list_del (b_lru b) in list_add (b_lru b) lru_list) in
    do! release bcache_lock in
    do! acquire (b_lock b) in
    ret b
  else
    let! b := bcache_evict in
    if b =? NULL then panic else
    do! upd_buf b (fun _ => Buf no dev 1 false false) in
    do! on_links (list_add (b_hash b) (hash_table (bcache_hash dev no))) in
    do! on_links (do! list_del (b_lru b) in list_add (b_lru b) lru_list) in
    do! release bcache_lock in
    do! acquire (b_lock b) in
    ret b.

(** The result of [blk_read] is not looked at. *)
Definition bread (dev no : Z) : ST (blk E) Z :=
  let! b := bcache_get dev no in
  let! x := get_buf b in
  do! (if negb (valid x) then
         let! _ := blk_read dev no b 1 in upd_buf b (set_valid true)
       else ret tt) in
  ret b.

Definition bwrite (b : Z) : ST (blk E) unit :=
  let! x := get_buf b in
  if negb (valid x) then ret tt else
  do! upd_buf b (set_dirty true) in
  let! _ := blk_write (b_dev x) (blockno x) b 1 in
  upd_buf b (set_dirty false).

Definition brelse (b : Z) : ST (blk E) unit :=
  do! release (b_lock b) in
  do! acquire bcache_lock in
  do! upd_buf b (fun x => set_refcnt (u32 (refcnt x - 1)) x) in
  let! x := get_buf b in
  do! (if refcnt x =? 0 then on_links (do! list_del (b_lru b) in list_add_tail (b_lru b) lru_list) else ret tt) in
  release bcache_lock.

(** The loop of [bcache_flush] and [bcache_sync] over the buffers from [pos],
    for those that [wanted] selects. *)
Fixpoint write_back (fuel : nat) (wanted : buf -> bool) (pos head : Z) : ST (blk E) unit :=
  match fuel with
  | O => no_fuel
  | S fuel =>
      if pos =? head then ret tt else
      let b := pos - 560 in
      let! x := get_buf b in
      do! (if wanted x && dirty x then
             do! acquire (b_lock b) in
             let! _ := blk_write (b_dev x) (blockno x) b 1 in
             do! upd_buf b (set_dirty false) in
             release (b_lock b)
           else ret tt) in
      let! n := on_links (get_next pos) in
      write_back fuel wanted n head
  end.

Definition bcache_flush (dev : Z) : ST (blk E) unit :=
  do! acquire bcache_lock in
  let! fuel := walk_fuel in
  let! pos := on_links (get_next lru_list) in
  do! write_back fuel (fun x => b_dev x =? dev) pos lru_list in
  release bcache_lock.

Definition bcache_sync : ST (blk E) unit :=
  do! acquire bcache_lock in
  let! fuel := walk_fuel in
  let! pos := on_links (get_next lru_list) in
  do! write_back fuel (fun _ => true) pos lru_list in
  release bcache_lock.

End bcache.
