(* ===== verification/BcacheProof.v ===== *)
(** The buffer cache is transparent: sessions of reads, writes and releases
    see the disk, and leave on it what was written. *)

From S2P Require Import Prelude ListHead ListFamily Sync Machine Blk BlkProof Bcache.

(** ** Addresses *)

Definition bufs : list Z := map buf_at (seqZ 0 BCACHE_SIZE).

Lemma in_bufs b : b ∈ bufs <-> exists i, 0 <= i < BCACHE_SIZE /\ b = buf_at i.
Proof.
  unfold bufs. rewrite list_elem_of_fmap. split.
  - intros (i & -> & Hi%elem_of_seqZ). exists i. split; [lia|done].
  - intros (i & Hi & ->). exists i. split; [done|]. apply elem_of_seqZ. lia.
Qed.

(** Unfold every address to its value. *)
Ltac addr :=
  repeat match goal with
  | H : _ ∈ bufs |- _ => apply in_bufs in H as (? & ? & ?)
  end;
  unfold NULL, b_lock, b_lru, b_hash, hash_table, lru_list, bcache_lock, buf_at, blk_registry_lock,
    BCACHE_SIZE, BCACHE_HASH_SIZE, sizeof_buf in *; lia.

Lemma NoDup_bufs : NoDup bufs.
Proof.
  apply (NoDup_fmap_2_strong buf_at); [|apply NoDup_seqZ]. intros i j _ _ He. addr.
Qed.

#[export] Instance b_lock_inj : Inj (=) (=) b_lock.
Proof. intros a b. unfold b_lock. lia. Qed.
#[export] Instance b_hash_inj : Inj (=) (=) b_hash.
Proof. intros a b. unfold b_hash. lia. Qed.
#[export] Instance b_lru_inj : Inj (=) (=) b_lru.
Proof. intros a b. unfold b_lru. lia. Qed.

Lemma bcache_hash_range dev no : 0 <= bcache_hash dev no < BCACHE_HASH_SIZE.
Proof.
  unfold bcache_hash. pose proof (Z.mod_pos_bound (u64 (dev + no)) BCACHE_HASH_SIZE ltac:(done)) as Hb.
  change BCACHE_HASH_SIZE with 17 in *. rewrite (wrap_small 32) by (split; lia). done.
Qed.

(** ** The locks of the held buffers *)

Definition lock_set (hb : gset Z) : gset Z := set_map b_lock hb.

Lemma lock_set_add b hb : lock_set ({[b]} ∪ hb) = {[b_lock b]} ∪ lock_set hb.
Proof. unfold lock_set. by rewrite set_map_union_L, set_map_singleton_L. Qed.

Lemma in_lock_set b hb : b_lock b ∈ lock_set hb <-> b ∈ hb.
Proof.
  unfold lock_set. rewrite elem_of_map. split; [intros (x & He%(inj b_lock) & ?); by subst|eauto].
Qed.

Definition held_ok (hb : gset Z) : Prop := forall b, b ∈ hb -> b ∈ bufs.

Lemma held_size hb : held_ok hb -> (size hb <= 128)%nat.
Proof.
  intros Hb. assert (hb ⊆@{gset Z} list_to_set bufs) as Hs by (intros b Hin; apply elem_of_list_to_set; auto).
  apply subseteq_size in Hs. rewrite size_list_to_set in Hs by apply NoDup_bufs. exact Hs.
Qed.

Lemma lock_set_size hb : held_ok hb -> (size (lock_set hb) <= 128)%nat.
Proof.
  intros Hb. assert (lock_set hb ⊆@{gset Z} list_to_set (map b_lock bufs)) as Hs.
  { intros l (b & -> & Hin%Hb)%elem_of_map. apply elem_of_list_to_set, list_elem_of_fmap. by exists b. }
  apply subseteq_size in Hs. rewrite size_list_to_set in Hs by (apply NoDup_fmap_2; [apply _|apply NoDup_bufs]). exact Hs.
Qed.

Lemma lock_set_neg hb l : held_ok hb -> l ∈ lock_set hb -> l < blk_registry_lock.
Proof. intros Hb (b & -> & Hin%Hb)%elem_of_map. addr. Qed.

Lemma lock_set_static hb : held_ok hb -> static_locks (lock_set hb).
Proof.
  intros Hb. split; [|split].
  - intros l Hl. apply lock_set_neg in Hl; [|done]. unfold blk_registry_lock in Hl. lia.
  - intros Hl. apply lock_set_neg in Hl; [lia|done].
  - pose proof (lock_set_size _ Hb). unfold few.
    pose proof (size_union_alt {[NULL]} (lock_set hb)) as Hu.
    assert (size (lock_set hb ∖ {[NULL]}) <= size (lock_set hb))%nat by (apply subseteq_size; set_solver).
    rewrite size_singleton in Hu. lia.
Qed.

Lemma lock_set_few hb : held_ok hb -> few (lock_set hb).
Proof. intros Hb. unfold few. pose proof (lock_set_size _ Hb). lia. Qed.

Lemma bcache_lock_free hb : held_ok hb -> bcache_lock ∉ lock_set hb.
Proof. intros Hb (b & He & Hin%Hb)%elem_of_map. addr. Qed.

Lemma lock_set_few_bcache hb : held_ok hb -> few ({[bcache_lock]} ∪ lock_set hb).
Proof.
  intros Hb. unfold few. rewrite size_union, size_singleton by (apply disjoint_singleton_l; by apply bcache_lock_free).
  pose proof (lock_set_size _ Hb). lia.
Qed.

(** ** The directory

    [K] is the buffer of every cached block.  A block is in the hash chain of
    its key; a buffer that was never used is a list of its own, but for those
    of [X], which are in no list. *)

Definition key_hash (k : Z * Z) : Z := bcache_hash k.1 k.2.

Record chains (X : gset Z) (F : gmap Z (list Z)) (K : gmap (Z * Z) Z) : Prop := {
  ch_chain j : 0 <= j < BCACHE_HASH_SIZE ->
    exists c, F !! hash_table j = Some (map b_hash c) /\ forall b, b ∈ c <-> exists k, K !! k = Some b /\ key_hash k = j;
  ch_alone b : b ∈ bufs -> b ∉ X -> (forall k, K !! k <> Some b) -> F !! b_hash b = Some [];
  ch_bufs k b : K !! k = Some b -> b ∈ bufs;
  ch_inj k k' b : K !! k = Some b -> K !! k' = Some b -> k = k'
}.

(** The LRU list is at another address. *)
Lemma chains_lru X F K xs : chains X F K -> chains X (<[lru_list := xs]> F) K.
Proof.
  intros [Hc Ha Hb Hi]. split; [|intros b Hin Hx Hn|done..].
  - intros j Hj. rewrite lookup_insert_ne by addr. auto.
  - rewrite lookup_insert_ne; [auto|]. addr.
Qed.

Lemma key_hash_range k : 0 <= key_hash k < BCACHE_HASH_SIZE.
Proof. apply bcache_hash_range. Qed.

Lemma NoDup_chain (c1 c2 : list Z) b : NoDup (map b_hash (c1 ++ b :: c2)) -> b ∉ c1 ++ c2.
Proof.
  intros Hnd. apply NoDup_fmap in Hnd; [|apply _]. rewrite <- Permutation_middle in Hnd. by apply NoDup_cons in Hnd as [? _].
Qed.

(** The directory without the buffer [b] of the key [k]. *)
Lemma chains_delete F K k b c1 c2 :
  chains ∅ F K -> K !! k = Some b -> b ∉ c1 ++ c2 -> F !! hash_table (key_hash k) = Some (map b_hash (c1 ++ b :: c2)) ->
  chains {[b]} (<[hash_table (key_hash k) := map b_hash (c1 ++ c2)]> F) (delete k K).
Proof.
  intros [Hc Ha Hb Hi] Hk Hnb Hcj. pose proof (key_hash_range k) as Hr.
  assert (forall k' b', delete k K !! k' = Some b' <-> K !! k' = Some b' /\ b' <> b) as HK.
  { intros k' b'. rewrite lookup_delete_Some. split; intros [H1 H2].
    - split; [done|]. intros ->. by apply H1, (Hi k k' b).
    - split; [|done]. intros ->. congruence. }
  split.
  - intros j Hj. destruct (Hc j Hj) as (c & E1 & E2). destruct (decide (j = key_hash k)) as [->|Hne].
    + rewrite lookup_insert_eq. exists (c1 ++ c2). split; [done|]. intros b'.
      rewrite Hcj in E1. injection E1 as E1. apply (inj (map b_hash)) in E1. subst c.
      transitivity (b' ∈ c1 ++ b :: c2 /\ b' <> b); [|rewrite E2; setoid_rewrite HK; naive_solver].
      rewrite !elem_of_app, elem_of_cons. rewrite elem_of_app in Hnb. split; [|tauto]. intros Hb'. split; [tauto|]. intros ->. tauto.
    + rewrite lookup_insert_ne by (unfold hash_table; lia). exists c. split; [done|]. intros b'. rewrite E2.
      setoid_rewrite HK. split; [|naive_solver]. intros (k' & Hk' & Hj'). exists k'. split; [|done]. split; [done|].
      intros ->. apply Hne. rewrite <- Hj'. f_equal. by apply (Hi k' k b).
  - intros b' Hb' Hx Hn. rewrite lookup_insert_ne by addr. apply Ha; [done|set_solver|].
    intros k' Hk'. apply (Hn k'), HK. set_solver.
  - intros k' b' [? _]%HK. eauto.
  - intros k' k2 b' [? _]%HK [? _]%HK. eauto.
Qed.

(** [list_del(&b->hash)]. *)
Lemma unhash st F K b :
  family st F -> chains ∅ F K -> b ∈ bufs ->
  exists st' F' K', list_del (b_hash b) st = Ok (tt, st') /\ family st' F' /\ loose F' (b_hash b) /\
    (forall a, allocated st a -> allocated st' a) /\ F' !! lru_list = F !! lru_list /\ chains {[b]} F' K' /\
    (forall k b', K' !! k = Some b' -> K !! k = Some b' /\ b' <> b) /\
    (forall k, K !! k <> Some b -> K' !! k = K !! k) /\ allocated st (b_hash b).
Proof.
  intros HF HC Hin. destruct (decide (map_Exists (fun _ x => x = b) K)) as [(k & ? & Hk & ->)|Hno].
  - destruct (ch_chain _ _ _ HC (key_hash k) (key_hash_range _)) as (c & Hcj & Hcb).
    assert (b ∈ c) as Hbc by (apply Hcb; eauto). apply list_elem_of_split in Hbc as (c1 & c2 & ->).
    pose proof (fam_list _ _ HF _ _ Hcj) as Hl.
    assert (b ∉ c1 ++ c2) as Hnb. { apply NoDup_chain. destruct Hl as [Hnd _]. by apply NoDup_cons in Hnd as [_ Hnd]. }
    pose proof Hcj as Hcj'. rewrite map_app in Hcj'. cbn [map] in Hcj'.
    destruct (list_del_family st F _ _ _ _ HF Hcj') as (st' & Hr & HF' & Hlo & Hal').
    rewrite <- map_app in HF', Hlo. eexists st', _, (delete k K). split; [done|]. split; [exact HF'|]. split; [done|].
    split; [done|]. split; [|split; [by apply chains_delete|split; [|split]]].
    + pose proof (key_hash_range k). apply lookup_insert_ne. addr.
    + intros k' b' [Hne Hk']%lookup_delete_Some. split; [done|]. intros ->. by apply Hne, (ch_inj _ _ _ HC k k' b).
    + intros k' Hk'. apply lookup_delete_ne. intros ->. done.
    + eapply is_list_allocated; [exact Hl|]. rewrite map_app. cbn [map]. set_solver.
  - assert (forall k, K !! k <> Some b) as Hn by (intros k Hk; apply Hno; by exists k, b).
    pose proof (ch_alone _ _ _ HC b Hin ltac:(set_solver) Hn) as Hb.
    destruct (list_del_alone st F (b_hash b) HF Hb) as (Hr & HF' & Hl).
    exists st, (delete (b_hash b) F), K. split; [done|]. split; [done|]. split; [done|]. split; [done|].
    split; [rewrite lookup_delete_ne; [done|addr]|]. split; [|split; [|split; [done|]]].
    + destruct HC as [Hc Ha Hbs Hi]. split; [| |done..].
      * intros j Hj. rewrite lookup_delete_ne by addr. auto.
      * intros b' Hb' Hx Hn'. rewrite lookup_delete_ne by (intros He%(inj b_hash); set_solver). auto with set_solver.
    + intros k b' Hk. split; [done|]. intros ->. by apply (Hn k).
    + eapply is_list_head_allocated. by apply (fam_list _ _ HF).
Qed.

(** [list_add(&b->hash, &bcache.hash_table[hash])]. *)
Lemma hash_add st F K b k :
  family st F -> chains {[b]} F K -> b ∈ bufs -> loose F (b_hash b) -> allocated st (b_hash b) -> K !! k = None ->
  (forall k', K !! k' <> Some b) ->
  exists st' F', list_add (b_hash b) (hash_table (key_hash k)) st = Ok (tt, st') /\ family st' F' /\
    F' !! lru_list = F !! lru_list /\ chains ∅ F' (<[k := b]> K).
Proof.
  intros HF HC Hin Hl Hal Hk Hnb. pose proof (key_hash_range k) as Hr.
  destruct (ch_chain _ _ _ HC (key_hash k) Hr) as (c & Hcj & Hcb).
  destruct (list_add_family st F _ _ _ HF Hcj Hl Hal) as (st' & Hrun & HF' & _).
  eexists st', _. split; [done|]. split; [exact HF'|]. split; [apply lookup_insert_ne; addr|].
  destruct HC as [Hc Ha Hbs Hi]. split.
  - intros j Hj. destruct (decide (j = key_hash k)) as [->|Hne].
    + rewrite lookup_insert_eq. exists (b :: c). split; [done|]. intros b'. rewrite elem_of_cons, Hcb. split.
      * intros [->|(k' & Hk' & Hj')]; [exists k; by rewrite lookup_insert_eq|].
        exists k'. rewrite lookup_insert_ne by congruence. done.
      * intros (k' & [[-> ->]|[_ Hk']]%lookup_insert_Some & Hj'); eauto.
    + rewrite lookup_insert_ne by (unfold hash_table; lia). destruct (Hc j Hj) as (c' & E1 & E2).
      exists c'. split; [done|]. intros b'. rewrite E2. split.
      * intros (k' & Hk' & Hj'). exists k'. by rewrite lookup_insert_ne by congruence.
      * intros (k' & [[-> ->]|[_ Hk']]%lookup_insert_Some & Hj'); [congruence|eauto].
  - intros b' Hb' _ Hn. rewrite lookup_insert_ne by addr. apply Ha; [done| |].
    + intros ->%elem_of_singleton. apply (Hn k). by rewrite lookup_insert_eq.
    + intros k' Hk'. apply (Hn k'). by rewrite lookup_insert_ne by congruence.
  - intros k' b' [[<- <-]|[_ Hk']]%lookup_insert_Some; eauto.
  - intros k' k2 b' [[<- <-]|[_ Hk']]%lookup_insert_Some [[<- Hb2]|[_ Hk2]]%lookup_insert_Some; subst; try done; [| |eauto].
    + by destruct (Hnb k2).
    + by destruct (Hnb k').
Qed.

(** ** The state of the cache

    [hb] are the buffers that clients hold, [pend] those of them whose block
    is still to be read.  The data of a buffer that nobody holds is the block
    of the disk [D]. *)

Record cache (K : gmap (Z * Z) Z) (hb pend : gset Z) (order : list Z) (F : gmap Z (list Z))
    (bm : gmap Z buf) (dm : gmap Z (list Z)) (D : gmap (Z * Z) (list Z)) : Prop := {
  c_order : order ≡ₚ bufs;
  c_lru : F !! lru_list = Some (map b_lru order);
  c_chains : chains ∅ F K;
  c_buf b : b ∈ bufs -> exists x, bm !! b = Some x /\ dirty x = false /\ refcnt x = if decide (b ∈ hb) then 1 else 0;
  c_key k b x : K !! k = Some b -> bm !! b = Some x -> (b_dev x, blockno x) = k /\ valid x = bool_decide (b ∉ pend);
  c_held b : b ∈ hb -> exists k, K !! k = Some b;
  c_data b : b ∈ bufs -> is_Some (dm !! b);
  c_block k b : K !! k = Some b -> is_Some (D !! k);
  c_disk k b : K !! k = Some b -> b ∉ hb -> dm !! b = D !! k
}.

Section cache.
Context {E : Type} `{BlkCode E} {disk : E -> gmap (Z * Z) (list Z)} {HD : BlkDriver E disk}.
Implicit Types s : blk E.

(** [p]: the test of [bcache_lookup] on a node of a chain. *)
Definition has_key (bm : gmap Z buf) (dev no pos : Z) : bool :=
  match bm !! (pos - 576) with Some x => (b_dev x =? dev) && (blockno x =? no) | None => false end.

Lemma has_key_spec K hb pend order F bm dm D dev no k b :
  cache K hb pend order F bm dm D -> K !! k = Some b -> has_key bm dev no (b_hash b) = bool_decide (k = (dev, no)).
Proof.
  intros C Hk. destruct (c_buf _ _ _ _ _ _ _ _ C b) as (x & Hx & _); [by eapply ch_bufs; [apply C|]|].
  destruct (c_key _ _ _ _ _ _ _ _ C k b x Hk Hx) as [He _]. unfold has_key.
  replace (b_hash b - 576) with b by (unfold b_hash; lia). rewrite Hx. subst k.
  destruct (Z.eqb_spec (b_dev x) dev) as [->|], (Z.eqb_spec (blockno x) no) as [->|]; cbn [andb];
    [by rewrite bool_decide_true|by rewrite bool_decide_false by congruence..].
Qed.

Lemma find_key K hb pend order F bm dm D dev no c :
  cache K hb pend order F bm dm D -> (forall b, b ∈ c <-> exists k, K !! k = Some b /\ key_hash k = bcache_hash dev no) ->
  List.find (has_key bm dev no) (map b_hash c) = b_hash <$> K !! (dev, no).
Proof.
  intros C Hc. destruct (List.find _ _) as [pos|] eqn:Hf.
  - apply List.find_some in Hf as [Hin Hp]. apply list_elem_of_In, list_elem_of_fmap in Hin as (b & -> & Hb).
    apply Hc in Hb as (k & Hk & _). rewrite (has_key_spec _ _ _ _ _ _ _ _ _ _ _ _ C Hk) in Hp.
    apply bool_decide_eq_true in Hp as ->. by rewrite Hk.
  - destruct (K !! (dev, no)) as [b|] eqn:Hk; [|done]. exfalso.
    pose proof (List.find_none _ _ Hf (b_hash b)) as Hn. rewrite (has_key_spec _ _ _ _ _ _ _ _ _ _ _ _ C Hk) in Hn.
    rewrite bool_decide_true in Hn by done. discriminate Hn.
    apply list_elem_of_In, list_elem_of_fmap. exists b. split; [done|]. apply Hc. by exists (dev, no).
Qed.

Lemma bcache_lookup_run K hb pend order F D dev no s :
  family (k_links s) F -> cache K hb pend order F (k_bufs s) (k_data s) D ->
  bcache_lookup dev no s = Ok (default NULL (K !! (dev, no)), s).
Proof.
  intros HF C. destruct (ch_chain _ _ _ (c_chains _ _ _ _ _ _ _ _ C) _ (bcache_hash_range dev no)) as (c & Hcj & Hcb).
  unfold bcache_lookup. erewrite bind_Ok; [|eapply (find_entry_spec _ (has_key (k_bufs s) dev no))].
  - rewrite (find_key _ _ _ _ _ _ _ _ _ _ _ C Hcb). destruct (K !! (dev, no)) as [b|]; cbn [fmap option_fmap option_map]; unfold ret; [|done].
    do 2 f_equal. cbn. unfold b_hash. lia.
  - exact (fam_list _ _ HF _ _ Hcj).
  - intros pos (b & -> & Hb)%list_elem_of_fmap. apply Hcb in Hb as (k & Hk & _).
    destruct (c_buf _ _ _ _ _ _ _ _ C b) as (x & Hx & _); [by eapply ch_bufs; [apply C|]|].
    unfold has_key, get_buf. replace (b_hash b - 576) with b by (unfold b_hash; lia).
    erewrite bind_Ok by (unfold load; by rewrite Hx). by rewrite Hx.
Qed.

Lemma get_prev_on_links a b s : lprev (k_links s) !! a = Some b -> on_links (get_prev a) s = Ok (b, s).
Proof. intros Hp. unfold on_links, lift. cbn [links_of blk_machine]. rewrite (get_prev_run _ _ _ Hp). by destruct s. Qed.

(** The search from the tail of a list. *)
Lemma find_back_spec found (p : Z -> bool) s head ys : forall zs fuel,
  is_list (k_links s) head (ys ++ zs) -> (length ys < fuel)%nat ->
  (forall x, x ∈ ys -> found x s = Ok (p x, s)) ->
  find_back_from fuel found (gap_prev head ys) head s = Ok (List.find p (rev ys), s).
Proof.
  induction ys as [|y ys IH] using rev_ind; intros zs fuel Hl Hf Hp; (destruct fuel as [|fuel]; [cbn in Hf; lia|]);
    cbn [find_back_from].
  - unfold gap_prev. cbn. by rewrite Z.eqb_refl.
  - unfold gap_prev. rewrite List.last_last, rev_app_distr. cbn [rev app List.find].
    rewrite <- app_assoc in Hl. cbn [app] in Hl. destruct (Z.eqb_spec y head) as [->|_].
    { destruct Hl as [Hnd _]. apply NoDup_cons in Hnd as [Hnd _]. set_solver. }
    rewrite (bind_Ok _ _ _ _ _ (Hp y ltac:(set_solver))). destruct (p y); [done|].
    pose proof (is_list_node _ _ _ _ _ Hl) as [_ Hpr].
    rewrite (bind_Ok _ _ _ _ _ (get_prev_on_links _ _ _ Hpr)).
    apply (IH (y :: zs)); [done| |intros; apply Hp; set_solver]. rewrite length_app in Hf. cbn in Hf. lia.
Qed.

Definition is_free (bm : gmap Z buf) (pos : Z) : bool :=
  match bm !! (pos - 560) with Some x => refcnt x =? 0 | None => false end.

Lemma is_free_spec K hb pend order F bm dm D b :
  cache K hb pend order F bm dm D -> b ∈ bufs -> is_free bm (b_lru b) = bool_decide (b ∉ hb).
Proof.
  intros C Hb. destruct (c_buf _ _ _ _ _ _ _ _ C b Hb) as (x & Hx & _ & Hr). unfold is_free.
  replace (b_lru b - 560) with b by (unfold b_lru; lia). rewrite Hx, Hr.
  destruct (decide (b ∈ hb)); [by rewrite bool_decide_false by tauto|by rewrite bool_decide_true].
Qed.

(** While a buffer is free, [bcache_evict] finds one. *)
Lemma find_free K hb pend order F bm dm D :
  cache K hb pend order F bm dm D -> (size hb < 128)%nat ->
  exists b, List.find (is_free bm) (rev (map b_lru order)) = Some (b_lru b) /\ b ∈ bufs /\ b ∉ hb.
Proof.
  intros C Hsz. assert (forall b, b ∈ order <-> b ∈ bufs) as Ho by (intros; by rewrite (c_order _ _ _ _ _ _ _ _ C)).
  destruct (List.find _ _) as [pos|] eqn:Hf.
  - apply List.find_some in Hf as [Hin Hp]. apply in_rev, list_elem_of_In, list_elem_of_fmap in Hin as (b & -> & Hb%Ho).
    exists b. split; [done|]. split; [done|]. rewrite (is_free_spec _ _ _ _ _ _ _ _ _ C Hb) in Hp. by apply bool_decide_eq_true in Hp.
  - exfalso. assert (list_to_set bufs ⊆@{gset Z} hb) as Hs.
    { intros b Hb%elem_of_list_to_set. destruct (decide (b ∈ hb)) as [|Hn]; [done|].
      pose proof (List.find_none _ _ Hf (b_lru b)) as Hx. rewrite (is_free_spec _ _ _ _ _ _ _ _ _ C Hb), bool_decide_true in Hx by done.
      discriminate Hx. apply -> in_rev. apply list_elem_of_In, list_elem_of_fmap. exists b. by rewrite Ho. }
    apply subseteq_size in Hs. rewrite size_list_to_set in Hs by apply NoDup_bufs. change (length bufs) with 128%nat in Hs. lia.
Qed.

Lemma on_links_run {B} (m : ST lstore B) v l s : m (k_links s) = Ok (v, l) -> on_links m s = Ok (v, set_k_links l s).
Proof. intros Hm. unfold on_links, lift. cbn [links_of blk_machine]. by rewrite Hm. Qed.

Lemma get_buf_run b x s : k_bufs s !! b = Some x -> get_buf b s = Ok (x, s).
Proof. intros Hx. unfold get_buf, load. by rewrite Hx. Qed.

Lemma upd_buf_run b f x s : k_bufs s !! b = Some x -> upd_buf b f s = Ok (tt, set_k_bufs (<[b := f x]> (k_bufs s)) s).
Proof. intros Hx. unfold upd_buf, store. by rewrite Hx. Qed.

(** A free buffer is taken from its chain; the others keep theirs. *)
Lemma bcache_evict_run K hb pend order F D s :
  family (k_links s) F -> cache K hb pend order F (k_bufs s) (k_data s) D -> (size hb < 128)%nat ->
  exists b x st' F' K',
    bcache_evict s = Ok (b, set_k_bufs (<[b := set_valid false x]> (k_bufs s)) (set_k_links st' s)) /\
    b ∈ bufs /\ b ∉ hb /\ family st' F' /\ loose F' (b_hash b) /\ allocated st' (b_hash b) /\
    F' !! lru_list = F !! lru_list /\ chains {[b]} F' K' /\
    (forall k b', K' !! k = Some b' -> K !! k = Some b' /\ b' <> b) /\ (forall k, K !! k <> Some b -> K' !! k = K !! k).
Proof.
  intros HF C Hsz. destruct (find_free _ _ _ _ _ _ _ _ C Hsz) as (b & Hfind & Hb & Hnb).
  destruct (c_buf _ _ _ _ _ _ _ _ C b Hb) as (x & Hx & Hd & _).
  destruct (unhash (k_links s) F K b HF (c_chains _ _ _ _ _ _ _ _ C) Hb) as (st' & F' & K' & Hr & HF' & Hlo & Hal & Hlr & HC & HK & HKn & Ha).
  exists b, x, st', F', K'. split; [|by auto 20].
  pose proof (fam_list _ _ HF _ _ (c_lru _ _ _ _ _ _ _ _ C)) as Hl.
  unfold bcache_evict, walk_fuel. unfold bind at 1, gets. cbn [links_of blk_machine].
  assert (lprev (k_links s) !! lru_list = Some (gap_prev lru_list (map b_lru order))) as Hlast.
  { rewrite <- (app_nil_r (map b_lru order)) in Hl. apply is_list_gap in Hl as (_ & _ & _ & H1 & _). exact H1. }
  rewrite (bind_Ok _ _ _ _ _ (get_prev_on_links _ _ _ Hlast)).
  erewrite bind_Ok; [|apply (find_back_spec _ (is_free (k_bufs s)) s lru_list (map b_lru order) [])].
  - rewrite Hfind. replace (b_lru b - 560) with b by (unfold b_lru; lia).
    rewrite (bind_Ok _ _ _ _ _ (get_buf_run _ _ _ Hx)), Hd. unfold bind at 1, ret at 1.
    rewrite (bind_Ok _ _ _ _ _ (on_links_run _ _ _ _ Hr)).
    erewrite bind_Ok by (apply upd_buf_run; destruct s; exact Hx). by destruct s.
  - by rewrite app_nil_r.
  - pose proof (is_list_length _ _ _ Hl). lia.
  - intros pos (b' & -> & Hb')%list_elem_of_fmap. rewrite (c_order _ _ _ _ _ _ _ _ C) in Hb'.
    destruct (c_buf _ _ _ _ _ _ _ _ C b' Hb') as (x' & Hx' & _). unfold is_free.
    replace (b_lru b' - 560) with b' by (unfold b_lru; lia).
    erewrite bind_Ok by by apply get_buf_run. by rewrite Hx'.
Qed.

(** ** A buffer taken *)

Lemma cache_take K hb order F bm dm D K' F' order' pend' k b x :
  cache K hb ∅ order F bm dm D -> b ∈ bufs -> K' !! k = Some b -> chains ∅ F' K' ->
  F' !! lru_list = Some (map b_lru order') -> order' ≡ₚ order -> is_Some (D !! k) ->
  dirty x = false -> refcnt x = 1 -> (b_dev x, blockno x) = k -> valid x = bool_decide (b ∉ pend') -> pend' ⊆ {[b]} ->
  (forall k' b', b' <> b -> K' !! k' = Some b' -> K !! k' = Some b') ->
  (forall k' b', b' ∈ hb -> K !! k' = Some b' -> K' !! k' = Some b') ->
  cache K' ({[b]} ∪ hb) pend' order' F' (<[b := x]> bm) dm D.
Proof.
  intros C Hb Hk HC Hlr Hor HD1 Hdi Hre Hke Hva Hpe HK1 HK2. split.
  - rewrite Hor. apply C.
  - done.
  - done.
  - intros b' Hb'. destruct (decide (b' = b)) as [->|Hne].
    + exists x. rewrite lookup_insert_eq, decide_True by set_solver. done.
    + destruct (c_buf _ _ _ _ _ _ _ _ C b' Hb') as (x' & Hx' & Hd' & Hr'). exists x'. rewrite lookup_insert_ne by done.
      split; [done|]. split; [done|]. rewrite Hr'. repeat case_decide; set_solver.
  - intros k' b' x' Hk' [[<- <-]|[Hne Hx']]%lookup_insert_Some; [by rewrite (ch_inj _ _ _ HC k' k b)|].
    destruct (c_key _ _ _ _ _ _ _ _ C k' b' x') as [H1 H2]; [by apply HK1|done|]. split; [done|].
    rewrite H2. apply bool_decide_ext. set_solver.
  - intros b' [->%elem_of_singleton|Hin]%elem_of_union; [by exists k|].
    destruct (c_held _ _ _ _ _ _ _ _ C b' Hin) as [k' Hk']. exists k'. by apply HK2.
  - apply C.
  - intros k' b' Hk'. destruct (decide (b' = b)) as [->|Hne]; [by rewrite (ch_inj _ _ _ HC k' k b)|].
    eapply c_block; [exact C|]. by apply HK1.
  - intros k' b' Hk' Hn. eapply c_disk; [exact C| |set_solver]. apply HK1; [set_solver|done].
Qed.

Record inv (st : Z) (ps : list Z) (K : gmap (Z * Z) Z) (hb pend : gset Z) (order : list Z) (F : gmap Z (list Z))
    (D : gmap (Z * Z) (list Z)) s : Prop := {
  i_locks : locks st (lock_set hb) s;
  i_reg : reg_ok (disk := disk) ps s;
  i_fam : family (k_links s) F;
  i_disk : disk (k_env s) = D;
  i_cache : cache K hb pend order F (k_bufs s) (k_data s) D
}.

Lemma held_bufs K hb pend order F bm dm D : cache K hb pend order F bm dm D -> held_ok hb.
Proof.
  intros C b Hb. destruct (c_held _ _ _ _ _ _ _ _ C b Hb) as [k Hk]. eapply ch_bufs; [apply C|done].
Qed.

(** [list_del(&b->lru); list_add(&b->lru, &bcache.lru_list);] *)
Lemma lru_front K hb pend order F bm dm D st F' b :
  cache K hb pend order F bm dm D -> family st F' -> F' !! lru_list = F !! lru_list -> b ∈ bufs ->
  exists st' order', (do! list_del (b_lru b) in list_add (b_lru b) lru_list) st = Ok (tt, st') /\
    order' ≡ₚ order /\ family st' (<[lru_list := map b_lru order']> F').
Proof.
  intros C HF Hlr Hb. rewrite (c_lru _ _ _ _ _ _ _ _ C) in Hlr.
  assert (b ∈ order) as Hin by by rewrite (c_order _ _ _ _ _ _ _ _ C).
  apply list_elem_of_split in Hin as (ys & zs & ->). rewrite map_app in Hlr. cbn [map] in Hlr.
  destruct (list_move_family st F' _ _ _ _ HF Hlr) as (st' & Hr & HF' & _). exists st', (b :: ys ++ zs).
  split; [exact Hr|]. split; [apply Permutation_middle|]. cbn [map]. by rewrite map_app.
Qed.

(** The end of both branches of [bcache_get]. *)
Lemma get_end st ps K hb pend order F D h s b :
  reg_ok (disk := disk) ps s -> family (k_links s) F -> disk (k_env s) = D ->
  cache K ({[b]} ∪ hb) pend order F (k_bufs s) (k_data s) D -> b ∈ bufs -> b ∉ hb -> held_ok hb ->
  hart_ok (k_cpu s) st ({[bcache_lock]} ∪ lock_set hb) h ->
  wp False (do! release bcache_lock in do! acquire (b_lock b) in ret b)
    (fun r s' => r = b /\ exists h, s' = set_k_hart h s /\ inv st ps K ({[b]} ∪ hb) pend order F D s') (set_k_hart h s).
Proof.
  intros Hr HF He C Hb Hnb Hh Hl. apply wp_bind. eapply (wp_release st (lock_set hb)).
  { destruct s; exact Hl. } { by apply bcache_lock_free. } { by apply lock_set_few. }
  intros h1 Hh1. apply wp_bind. eapply (wp_acquire st (lock_set hb)).
  { destruct s; exact Hh1. } { by rewrite in_lock_set. } { by apply lock_set_few. }
  intros h2 Hh2. apply wp_ret. split; [done|]. exists h2. destruct s; cbn in *. split; [done|].
  split; cbn; [by rewrite lock_set_add|by eapply reg_ok_same|done..].
Qed.

Lemma locks_bcache st hb s (Q : unit -> blk E -> Prop) :
  locks st (lock_set hb) s -> held_ok hb ->
  (forall h, hart_ok (k_cpu s) st ({[bcache_lock]} ∪ lock_set hb) h -> Q tt (set_k_hart h s)) ->
  wp False (acquire bcache_lock) Q s.
Proof. intros. eapply wp_acquire; [done|by apply bcache_lock_free|by apply lock_set_few|done]. Qed.

(** What [bcache_get] of the block [k] leaves. *)
Definition got (st : Z) (ps : list Z) (K : gmap (Z * Z) Z) (hb : gset Z) (D : gmap (Z * Z) (list Z)) s (k : Z * Z) (b : Z) s' : Prop :=
  exists K' order' F' pend', inv st ps K' ({[b]} ∪ hb) pend' order' F' D s' /\ K' !! k = Some b /\ b ∉ hb /\
    k_data s' = k_data s /\ (pend' = ∅ /\ k_data s !! b = D !! k \/ pend' = {[b]}) /\
    forall k' b', b' ∈ hb -> K !! k' = Some b' -> K' !! k' = Some b'.

(** The block is in the cache. *)
Lemma get_hit st ps K hb order F D k b s :
  inv st ps K hb ∅ order F D s -> K !! k = Some b -> b ∉ hb ->
  wp False (bcache_get k.1 k.2) (fun r s' => r = b /\ got st ps K hb D s k b s') s.
Proof.
  intros [Hl Hr HF He C] Hk Hnb. pose proof (ch_bufs _ _ _ (c_chains _ _ _ _ _ _ _ _ C) _ _ Hk) as Hb.
  pose proof (held_bufs _ _ _ _ _ _ _ _ C) as Hh. destruct (c_buf _ _ _ _ _ _ _ _ C b Hb) as (x & Hx & Hd & Hrc).
  destruct (lru_front _ _ _ _ _ _ _ _ _ _ b C HF eq_refl Hb) as (st' & order' & Hlr & Hor & HF').
  pose proof (c_key _ _ _ _ _ _ _ _ C k b x Hk Hx) as [Hke Hva]. rewrite decide_False in Hrc by done.
  unfold bcache_get. apply wp_bind. eapply locks_bcache; [done..|]. intros h Hh1.
  apply wp_bind. eapply wp_run; [apply (bcache_lookup_run K hb ∅ order F D); destruct s; done|].
  destruct k as [dev no]. cbn [fst snd] in *. rewrite Hk. change (default NULL (Some b)) with b.
  destruct (Z.eqb_spec b NULL) as [->|_]; [exfalso; clear -Hb; addr|]. cbn [negb].
  apply wp_bind. eapply wp_run; [apply upd_buf_run; destruct s; exact Hx|].
  apply wp_bind. eapply wp_run; [apply on_links_run; destruct s; exact Hlr|]. rewrite Hrc. change (u32 (0 + 1)) with 1.
  replace (set_k_links _ _) with (set_k_hart h (set_k_links st' (set_k_bufs (<[b := set_refcnt 1 x]> (k_bufs s)) s))) by by destruct s.
  eapply wp_mono; [eapply (get_end st ps K hb ∅ order' (<[lru_list := map b_lru order']> F) D)|done|].
  - eapply reg_ok_same; [exact Hr|]. by destruct s.
  - by destruct s.
  - by destruct s.
  - destruct s; cbn in *. eapply (cache_take K hb order F); try done; [by apply chains_lru, C|apply lookup_insert_eq|by eapply c_block].
  - done.
  - done.
  - done.
  - by destruct s.
  - cbv beta. intros r s' [-> (h2 & -> & HI)]. split; [done|]. eexists K, order', _, ∅. split; [exact HI|].
    split; [done|]. split; [done|]. split; [by destruct s|]. split; [left; split; [done|]; by eapply c_disk|done].
Qed.

(** The block is not in the cache: a free buffer is reused. *)
Lemma get_miss st ps K hb order F D k s :
  inv st ps K hb ∅ order F D s -> K !! k = None -> (size hb < 128)%nat -> is_Some (D !! k) ->
  wp False (bcache_get k.1 k.2) (fun b s' => got st ps K hb D s k b s') s.
Proof.
  intros [Hl Hr HF He C] Hk Hsz HD1. pose proof (held_bufs _ _ _ _ _ _ _ _ C) as Hh.
  unfold bcache_get. apply wp_bind. eapply locks_bcache; [done..|]. intros h Hh1.
  apply wp_bind. eapply wp_run; [apply (bcache_lookup_run K hb ∅ order F D); destruct s; done|].
  destruct k as [dev no]. cbn [fst snd] in *. rewrite Hk. change (default NULL None) with NULL. rewrite Z.eqb_refl. cbn [negb].
  edestruct (bcache_evict_run K hb ∅ order F D (set_k_hart h s)) as (b & x & st1 & F1 & K1 & Hrun & Hb & Hnb & HF1 & Hlo & Hal & Hlr & HC1 & HK1 & HKn);
    [by destruct s..|]. apply wp_bind. eapply wp_run; [exact Hrun|].
  destruct (Z.eqb_spec b NULL) as [->|_]; [exfalso; clear -Hb; addr|].
  assert (K1 !! (dev, no) = None) as Hk1.
  { destruct (K1 !! (dev, no)) as [b'|] eqn:E1; [|done]. apply HK1 in E1 as [E1 _]. congruence. }
  destruct (hash_add st1 F1 K1 b (dev, no)) as (st2 & F2 & Hadd & HF2 & Hlr2 & HC2); [done..| |].
  { intros k' Hk'. by apply HK1 in Hk' as [_ ?]. }
  destruct (lru_front _ _ _ _ _ _ _ _ _ _ b C HF2 (eq_trans Hlr2 Hlr) Hb) as (st3 & order' & Hlru & Hor & HF3).
  apply wp_bind. eapply wp_run; [apply upd_buf_run; destruct s; apply lookup_insert_eq|].
  apply wp_bind. eapply wp_run; [apply on_links_run; destruct s; exact Hadd|].
  apply wp_bind. eapply wp_run; [apply on_links_run; destruct s; exact Hlru|].
  replace (set_k_links st3 _) with (set_k_hart h (set_k_links st3 (set_k_bufs (<[b := Buf no dev 1 false false]> (k_bufs s)) s)))
    by (destruct s; cbn; by rewrite insert_insert_eq).
  eapply wp_mono; [eapply (get_end st ps (<[(dev, no) := b]> K1) hb {[b]} order' (<[lru_list := map b_lru order']> F2) D)|done|].
  - eapply reg_ok_same; [exact Hr|]. by destruct s.
  - by destruct s.
  - by destruct s.
  - destruct s; cbn in *. eapply (cache_take K hb order F _ _ _ _ _ _ _ (dev, no)); try done.
    + apply lookup_insert_eq.
    + by apply chains_lru.
    + apply lookup_insert_eq.
    + rewrite bool_decide_false by set_solver. done.
    + intros k' b' Hne [[_ ->]|[_ Hk']]%lookup_insert_Some; [done|]. by apply HK1.
    + intros k' b' Hin Hk'. rewrite lookup_insert_ne by congruence. rewrite HKn; [done|]. intros Hk2. rewrite Hk' in Hk2. injection Hk2 as ->. done.
  - done.
  - done.
  - done.
  - by destruct s.
  - cbv beta. intros r s' [-> (h2 & -> & HI)]. eexists _, order', _, {[b]}. split; [exact HI|].
    split; [apply lookup_insert_eq|]. split; [done|]. split; [by destruct s|]. split; [by right|].
    intros k' b' Hin Hk'. rewrite lookup_insert_ne by congruence. rewrite HKn; [done|]. intros Hk2. rewrite Hk' in Hk2. injection Hk2 as ->. done.
Qed.

(** ** The operations of clients *)

Lemma bcache_get_spec st ps K hb order F D k s :
  inv st ps K hb ∅ order F D s -> (forall b, K !! k = Some b -> b ∉ hb) -> (size hb < 128)%nat -> is_Some (D !! k) ->
  wp False (bcache_get k.1 k.2) (fun b s' => got st ps K hb D s k b s') s.
Proof.
  intros HI Hk Hsz HD1. destruct (K !! k) as [b|] eqn:E1; [|by eapply get_miss].
  eapply wp_mono; [eapply get_hit; eauto|done|]. by intros ? s' [-> ?].
Qed.

(** The data of the buffer [b] is the block of [k], and is marked so. *)
Lemma cache_loaded K hb order F bm dm D k b x d :
  cache K hb {[b]} order F bm dm D -> K !! k = Some b -> bm !! b = Some x -> b ∈ hb ->
  cache K hb ∅ order F (<[b := set_valid true x]> bm) (<[b := d]> dm) D.
Proof.
  intros C Hk Hx Hin. pose proof (ch_bufs _ _ _ (c_chains _ _ _ _ _ _ _ _ C) _ _ Hk) as Hb.
  pose proof (c_key _ _ _ _ _ _ _ _ C k b x Hk Hx) as [Hke _]. split; try apply C.
  - intros b' Hb'. destruct (c_buf _ _ _ _ _ _ _ _ C b' Hb') as (x' & Hx' & Hd' & Hr').
    destruct (decide (b' = b)) as [->|Hne]; [|exists x'; by rewrite lookup_insert_ne].
    exists (set_valid true x). rewrite lookup_insert_eq. rewrite Hx in Hx'. injection Hx' as <-. done.
  - intros k' b' x' Hk' [[<- <-]|[Hne Hx']]%lookup_insert_Some.
    + rewrite (ch_inj _ _ _ (c_chains _ _ _ _ _ _ _ _ C) k' k b) by done. by rewrite bool_decide_true by set_solver.
    + destruct (c_key _ _ _ _ _ _ _ _ C k' b' x') as [H1 H2]; [done..|]. split; [done|]. rewrite H2. apply bool_decide_ext. set_solver.
  - intros b' Hb'. destruct (decide (b' = b)) as [->|]; [rewrite lookup_insert_eq; by eexists|].
    rewrite lookup_insert_ne by done. by apply C.
  - intros k' b' Hk' Hn. rewrite lookup_insert_ne by set_solver. by eapply c_disk.
Qed.

(** Clients write to the buffers they hold. *)
Lemma cache_store K hb order F bm dm D b d :
  cache K hb ∅ order F bm dm D -> b ∈ hb -> cache K hb ∅ order F bm (<[b := d]> dm) D.
Proof.
  intros C Hin. split; try apply C.
  - intros b' Hb'. destruct (decide (b' = b)) as [->|]; [rewrite lookup_insert_eq; by eexists|].
    rewrite lookup_insert_ne by done. by apply C.
  - intros k' b' Hk' Hn. rewrite lookup_insert_ne by set_solver. by eapply c_disk.
Qed.

Lemma valid_held K hb pend order F bm dm D k b :
  cache K hb pend order F bm dm D -> K !! k = Some b ->
  exists x, bm !! b = Some x /\ (b_dev x, blockno x) = k /\ valid x = bool_decide (b ∉ pend) /\ dirty x = false /\
    refcnt x = if decide (b ∈ hb) then 1 else 0.
Proof.
  intros C Hk. destruct (c_buf _ _ _ _ _ _ _ _ C b) as (x & Hx & ? & ?); [by eapply ch_bufs; [apply C|]|].
  exists x. destruct (c_key _ _ _ _ _ _ _ _ C k b x Hk Hx). auto.
Qed.

Lemma bread_spec st ps K hb order F D k d s :
  inv st ps K hb ∅ order F D s -> (forall b, K !! k = Some b -> b ∉ hb) -> (size hb < 128)%nat -> D !! k = Some d ->
  wp False (bread k.1 k.2) (fun b s' => exists K' order' F', inv st ps K' ({[b]} ∪ hb) ∅ order' F' D s' /\
    K' !! k = Some b /\ b ∉ hb /\ k_data s' !! b = Some d /\ (forall b', b' <> b -> k_data s' !! b' = k_data s !! b') /\
    forall k' b', b' ∈ hb -> K !! k' = Some b' -> K' !! k' = Some b') s.
Proof.
  intros HI Hk Hsz HD1. unfold bread. eapply wp_bind_mono; [eapply bcache_get_spec; eauto|]. cbv beta.
  intros b s1 (K1 & order1 & F1 & pend1 & [Hl Hr HF He C] & Hk1 & Hnb & Hdata & Hp & Hmono).
  destruct (valid_held _ _ _ _ _ _ _ _ _ _ C Hk1) as (x & Hx & Hke & Hva & _).
  apply wp_bind. eapply wp_run; [by apply get_buf_run|]. rewrite Hva.
  destruct Hp as [[-> Hd]| ->].
  - rewrite bool_decide_true by set_solver. cbn [negb]. apply wp_bind, wp_ret, wp_ret. exists K1, order1, F1.
    split; [done|]. split; [done|]. split; [done|]. rewrite Hdata. split; [congruence|]. done.
  - rewrite bool_decide_false by set_solver. cbn [negb]. apply wp_bind. destruct k as [dev no]; cbn [fst snd].
    pose proof (ch_bufs _ _ _ (c_chains _ _ _ _ _ _ _ _ C) _ _ Hk1) as Hb.
    eapply wp_bind_mono; [eapply (blk_read_spec (disk := disk)); [exact Hl| |exact Hr|by rewrite He|by apply C]|].
    { eapply lock_set_static, held_bufs, C. }
    cbv beta. intros r s2 (_ & h & e & -> & Hh & Hdk). eapply wp_run; [apply upd_buf_run; destruct s1; exact Hx|].
    apply wp_ret. exists K1, order1, F1. pose proof Hr as Hr'. destruct s1; cbn in *. split.
    + split; cbn; [done| |done|by rewrite Hdk|eapply cache_loaded; [done..|set_solver]].
      eapply reg_ok_same; [exact Hr|]. split_and!; try done. cbn. by rewrite Hdk.
    + split; [done|]. split; [done|]. split; [by rewrite lookup_insert_eq|]. split; [|done].
      intros b' Hne. rewrite lookup_insert_ne by done. by rewrite Hdata.
Qed.

(** A block of the disk replaced. *)
Lemma cache_write K hb order F bm dm D k b d :
  cache K hb ∅ order F bm dm D -> K !! k = Some b -> b ∈ hb -> cache K hb ∅ order F bm dm (<[k := d]> D).
Proof.
  intros C Hk Hin. split; try apply C.
  - intros k' b' Hk'. destruct (decide (k' = k)) as [->|]; [rewrite lookup_insert_eq; by eexists|].
    rewrite lookup_insert_ne by done. by eapply c_block.
  - intros k' b' Hk' Hn. rewrite lookup_insert_ne by congruence. by eapply c_disk.
Qed.

Lemma bwrite_spec st ps K hb order F D k b d s :
  inv st ps K hb ∅ order F D s -> K !! k = Some b -> b ∈ hb -> k_data s !! b = Some d ->
  wp False (bwrite b) (fun _ s' => inv st ps K hb ∅ order F (<[k := d]> D) s' /\ k_data s' = k_data s) s.
Proof.
  intros [Hl Hr HF He C] Hk Hin Hd. destruct (valid_held _ _ _ _ _ _ _ _ _ _ C Hk) as (x & Hx & Hke & Hva & Hdi & _).
  unfold bwrite. apply wp_bind. eapply wp_run; [by apply get_buf_run|].
  rewrite Hva, bool_decide_true by set_solver. cbn [negb].
  apply wp_bind. eapply wp_run; [by apply upd_buf_run|].
  set (s1 := set_k_bufs _ _). assert (locks st (lock_set hb) s1) as Hl1 by by destruct s.
  assert (reg_ok (disk := disk) ps s1) as Hr1 by (eapply reg_ok_same; [exact Hr|]; by destruct s).
  assert (k_env s1 = k_env s) as He1 by by destruct s.
  eapply wp_bind_mono; [eapply (blk_write_spec (disk := disk)); [exact Hl1| |exact Hr1| |]|].
  { eapply lock_set_static, held_bufs, C. } { rewrite He1, He, Hke. by eapply c_block. } { destruct s; exact Hd. }
  cbv beta. intros r s2 (_ & h & e & -> & Hh & Hdk). eapply wp_run.
  { apply upd_buf_run. destruct s; apply lookup_insert_eq. }
  pose proof (cache_write _ _ _ _ _ _ _ _ _ d C Hk Hin) as C'. pose proof (c_block _ _ _ _ _ _ _ _ C _ _ Hk) as HDk.
  assert (set_dirty false (set_dirty true x) = x) as Hxx by (destruct x; cbn in *; by subst).
  rewrite He1, He, Hke in Hdk. destruct s; cbn in *. rewrite insert_insert_eq, Hxx, (insert_id k_bufs) by done.
  split; [|done]. split; cbn; try done. eapply reg_ok_same; [exact Hr|]. split_and!; try done. cbn. rewrite Hdk, He.
  rewrite dom_insert_L. apply elem_of_dom in HDk. set_solver.
Qed.

(** A buffer released, at either end of the LRU list. *)
Lemma cache_drop K hb order F bm dm D order' F' k b x :
  cache K ({[b]} ∪ hb) ∅ order F bm dm D -> K !! k = Some b -> bm !! b = Some x -> b ∉ hb -> dm !! b = D !! k ->
  F' = <[lru_list := map b_lru order']> F -> order' ≡ₚ order ->
  cache K hb ∅ order' F' (<[b := set_refcnt 0 x]> bm) dm D.
Proof.
  intros C Hk Hx Hnb Hd -> Hor. split.
  - rewrite Hor. apply C.
  - apply lookup_insert_eq.
  - by apply chains_lru, C.
  - intros b' Hb'. destruct (c_buf _ _ _ _ _ _ _ _ C b' Hb') as (x' & Hx' & Hd' & Hr').
    destruct (decide (b' = b)) as [->|Hne].
    + exists (set_refcnt 0 x). rewrite lookup_insert_eq, decide_False by done. rewrite Hx in Hx'. by injection Hx' as <-.
    + exists x'. rewrite lookup_insert_ne by done. split; [done|]. split; [done|]. rewrite Hr'. repeat case_decide; set_solver.
  - intros k' b' x' Hk' [[<- <-]|[Hne Hx']]%lookup_insert_Some; [|by eapply c_key].
    by apply (c_key _ _ _ _ _ _ _ _ C k' b x Hk').
  - intros b' Hb'. eapply c_held; [exact C|]. set_solver.
  - apply C.
  - apply C.
  - intros k' b' Hk' Hn. destruct (decide (b' = b)) as [->|Hne].
    + by rewrite (ch_inj _ _ _ (c_chains _ _ _ _ _ _ _ _ C) k' k b).
    + eapply c_disk; [exact C|done|set_solver].
Qed.

Lemma brelse_spec st ps K hb order F D k b s :
  inv st ps K ({[b]} ∪ hb) ∅ order F D s -> K !! k = Some b -> b ∉ hb -> k_data s !! b = D !! k ->
  wp False (brelse b) (fun _ s' => exists order' F', inv st ps K hb ∅ order' F' D s' /\ k_data s' = k_data s) s.
Proof.
  intros [Hl Hr HF He C] Hk Hnb Hd. destruct (valid_held _ _ _ _ _ _ _ _ _ _ C Hk) as (x & Hx & _ & _ & _ & Hrc).
  rewrite decide_True in Hrc by set_solver. pose proof (held_bufs _ _ _ _ _ _ _ _ C) as Hh.
  assert (held_ok hb) as Hh' by (intros b' Hb'; apply Hh; set_solver).
  unfold brelse. apply wp_bind. rewrite lock_set_add in Hl.
  eapply (wp_release st (lock_set hb)); [exact Hl|by rewrite in_lock_set|by apply lock_set_few|]. intros h Hh1.
  apply wp_bind. eapply (locks_bcache st hb); [by destruct s|done|]. intros h1 Hh2.
  apply wp_bind. eapply wp_run; [apply upd_buf_run; destruct s; exact Hx|]. cbv beta. rewrite Hrc. change (u32 (1 - 1)) with 0.
  apply wp_bind. eapply wp_run; [apply get_buf_run; destruct s; apply lookup_insert_eq|]. cbn [refcnt set_refcnt].
  change (0 =? 0) with true. cbv iota.
  assert (b ∈ order) as Hin. { rewrite (c_order _ _ _ _ _ _ _ _ C). apply Hh. set_solver. }
  apply list_elem_of_split in Hin as (ys & zs & Ho).
  pose proof (c_lru _ _ _ _ _ _ _ _ C) as Hlr. rewrite Ho, map_app in Hlr. cbn [map] in Hlr.
  destruct (list_move_tail_family (k_links s) F _ _ _ _ HF Hlr) as (st' & Hrun & HF' & _).
  apply wp_bind. eapply wp_run; [apply on_links_run; destruct s; exact Hrun|].
  eapply (wp_release st (lock_set hb)); [destruct s; exact Hh2|by apply bcache_lock_free|by apply lock_set_few|]. intros h2 Hh3.
  assert (cache K hb ∅ (ys ++ zs ++ [b]) (<[lru_list := map b_lru (ys ++ zs ++ [b])]> F) (<[b := set_refcnt 0 x]> (k_bufs s)) (k_data s) D) as C'.
  { eapply cache_drop; try done. rewrite Ho. rewrite (Permutation_app_comm zs [b]). done. }
  exists (ys ++ zs ++ [b]), (<[lru_list := map b_lru (ys ++ zs ++ [b])]> F). destruct s; cbn in *. split; [|done].
  split; cbn; try done; [by eapply reg_ok_same|]. by rewrite !map_app.
Qed.

(** There is nothing to write back. *)
Lemma write_back_clean wanted s head ys zs fuel :
  is_list (k_links s) head (ys ++ map b_lru zs) -> (length zs < fuel)%nat ->
  (forall b, b ∈ zs -> exists x, k_bufs s !! b = Some x /\ dirty x = false) ->
  write_back fuel wanted (gap_next head (map b_lru zs)) head s = Ok (tt, s).
Proof.
  revert ys fuel. induction zs as [|z zs IH]; intros ys fuel Hl Hf Hd; (destruct fuel as [|fuel]; [cbn in Hf; lia|]);
    cbn [write_back gap_next List.hd map].
  - by rewrite Z.eqb_refl.
  - cbn [map] in Hl. destruct (Z.eqb_spec (b_lru z) head) as [<-|_].
    { destruct Hl as [Hnd _]. apply NoDup_cons in Hnd as [Hnd _]. set_solver. }
    replace (b_lru z - 560) with z by (unfold b_lru; lia). destruct (Hd z ltac:(left)) as (x & Hx & Hdx).
    rewrite (bind_Ok _ _ _ _ _ (get_buf_run _ _ _ Hx)), Hdx, andb_false_r. unfold bind at 1, ret at 1.
    pose proof (is_list_node _ _ _ _ _ Hl) as [Hn _]. rewrite (bind_Ok _ _ _ _ _ (get_next_on_links (HM := blk_machine) _ _ s Hn)).
    apply (IH (ys ++ [b_lru z])); [by rewrite <- app_assoc|cbn in Hf; lia|]. intros b Hb. apply Hd. by right.
Qed.

Lemma flush_spec st ps K hb order F D wanted s :
  inv st ps K hb ∅ order F D s ->
  wp False (do! acquire bcache_lock in let! fuel := walk_fuel in let! pos := on_links (get_next lru_list) in
            do! write_back fuel wanted pos lru_list in release bcache_lock)
    (fun _ s' => inv st ps K hb ∅ order F D s' /\ k_data s' = k_data s) s.
Proof.
  intros [Hl Hr HF He C]. pose proof (held_bufs _ _ _ _ _ _ _ _ C) as Hh.
  pose proof (fam_list _ _ HF _ _ (c_lru _ _ _ _ _ _ _ _ C)) as Hli.
  apply wp_bind. eapply (locks_bcache st hb); [done..|]. intros h Hh1. apply wp_bind, wp_gets.
  assert (lnext (k_links s) !! lru_list = Some (gap_next lru_list (map b_lru order))) as Hnx.
  { pose proof (is_list_gap (k_links s) lru_list [] (map b_lru order)) as Hg. by apply Hg in Hli as (_ & _ & H1 & _). }
  apply wp_bind. eapply wp_run; [apply get_next_on_links; destruct s; exact Hnx|].
  apply wp_bind. eapply wp_run; [apply (write_back_clean _ _ _ [])|].
  - destruct s; exact Hli.
  - pose proof (is_list_length _ _ _ Hli) as Hlen. rewrite length_map in Hlen. destruct s; cbn in *. lia.
  - intros b Hb. rewrite (c_order _ _ _ _ _ _ _ _ C) in Hb. destruct (c_buf _ _ _ _ _ _ _ _ C b Hb) as (x & Hx & Hd & _).
    exists x. by destruct s.
  - eapply (wp_release st (lock_set hb)); [destruct s; exact Hh1|by apply bcache_lock_free|by apply lock_set_few|].
    intros h1 Hh2. destruct s; cbn in *. split; [|done]. split; cbn; try done. by eapply reg_ok_same.
Qed.

End cache.
