(* ===== verification/BcacheTop.v ===== *)
(** The buffer cache as a whole: its initialisation, and the sessions of
    clients between the cache and the disk. *)

From S2P Require Import Prelude ListHead ListFamily Sync Machine Blk BlkProof Bcache BcacheProof.

(** ** Initialisation *)

Section init.
Context {E : Type} `{BlkCode E} {disk : E -> gmap (Z * Z) (list Z)}.
Implicit Types s : blk E.

(** The list heads of the cache are in static storage. *)
Definition static_links (l : lstore) : Prop :=
  allocated l lru_list /\ (forall j, 0 <= j < BCACHE_HASH_SIZE -> allocated l (hash_table j)) /\
  (forall b, b ∈ bufs -> allocated l (b_hash b) /\ allocated l (b_lru b)).

Lemma static_links_mono l l' : static_links l -> (forall a, allocated l a -> allocated l' a) -> static_links l'.
Proof. intros (H1 & H2 & H3) Ha. split; [|split]; [auto..|]. intros b Hb. destruct (H3 b Hb). auto. Qed.

Lemma on_links_wp {B} (m : ST lstore B) v l s (Q : B -> blk E -> Prop) :
  m (k_links s) = Ok (v, l) -> Q v (set_k_links l s) -> wp False (on_links m) Q s.
Proof. intros Hm HQ. eapply wp_run; [by apply on_links_run|done]. Qed.

(** The chains after [i] iterations of the first loop. *)
Definition heads_ok (i : Z) (F : gmap Z (list Z)) : Prop :=
  F !! lru_list = Some [] /\ (forall j, 0 <= j < i -> F !! hash_table j = Some []) /\
  forall h xs, F !! h = Some xs -> xs = [] /\ (h = lru_list \/ exists j, 0 <= j < i /\ h = hash_table j).

Lemma heads_step l F i :
  family l F -> static_links l -> heads_ok i F -> 0 <= i < BCACHE_HASH_SIZE ->
  exists l' F', INIT_LIST_HEAD (hash_table i) l = Ok (tt, l') /\ family l' F' /\ static_links l' /\ heads_ok (i + 1) F'.
Proof.
  intros HF Hs (H1 & H2 & H3) Hi.
  assert (loose F (hash_table i)) as Hl.
  { intros h xs [-> Hc]%H3 Hin. apply list_elem_of_singleton in Hin. destruct Hc as [->|(j & ? & ->)]; addr. }
  destruct (INIT_LIST_HEAD_family l F _ HF Hl ltac:(by apply Hs)) as (l' & Hr & HF' & Ha).
  eexists l', _. split; [exact Hr|]. split; [exact HF'|]. split; [by eapply static_links_mono|]. split; [|split].
  - rewrite lookup_insert_ne by addr. done.
  - intros j Hj. destruct (decide (j = i)) as [->|]; [apply lookup_insert_eq|].
    rewrite lookup_insert_ne by addr. apply H2. lia.
  - intros h xs [[<- <-]|[_ Hh]]%lookup_insert_Some; [split; [done|]; right; exists i; split; [lia|done]|].
    apply H3 in Hh as [-> [->|(j & Hj & ->)]]; (split; [done|]); [by left|right; exists j; split; [lia|done]].
Qed.

(** The lists after [i] iterations of the second. *)
Definition nodes_ok (i : Z) (o : list Z) (F : gmap Z (list Z)) : Prop :=
  o ≡ₚ map buf_at (seqZ 0 i) /\ F !! lru_list = Some (map b_lru o) /\
  (forall j, 0 <= j < BCACHE_HASH_SIZE -> F !! hash_table j = Some []) /\
  (forall j, 0 <= j < i -> F !! b_hash (buf_at j) = Some []) /\
  forall h xs, F !! h = Some xs -> h = lru_list \/ xs = [] /\
    ((exists j, 0 <= j < BCACHE_HASH_SIZE /\ h = hash_table j) \/ exists j, 0 <= j < i /\ h = b_hash (buf_at j)).

Lemma nodes_loose i o F a :
  nodes_ok i o F -> 0 <= i -> a <> lru_list -> (forall j, 0 <= j < BCACHE_HASH_SIZE -> a <> hash_table j) ->
  (forall j, 0 <= j < i -> a <> b_hash (buf_at j) /\ a <> b_lru (buf_at j)) -> loose F a.
Proof.
  intros (Ho & Hl & _ & _ & Hk) Hi H1 H2 H3 h xs Hh Hin.
  destruct (Hk _ _ Hh) as [->|[-> Hc]].
  - rewrite Hl in Hh. injection Hh as <-. apply elem_of_cons in Hin as [?|(b & -> & Hb)%list_elem_of_fmap]; [done|].
    rewrite Ho in Hb. apply list_elem_of_fmap in Hb as (j & -> & Hj%elem_of_seqZ). by destruct (H3 j ltac:(lia)).
  - apply list_elem_of_singleton in Hin as ->. destruct Hc as [(j & Hj & ->)|(j & Hj & ->)]; [by apply (H2 j)|by destruct (H3 j)].
Qed.

Lemma nodes_step l o F i :
  family l F -> static_links l -> nodes_ok i o F -> 0 <= i < BCACHE_SIZE ->
  exists l1 l2 l3 F', INIT_LIST_HEAD (b_hash (buf_at i)) l = Ok (tt, l1) /\ INIT_LIST_HEAD (b_lru (buf_at i)) l1 = Ok (tt, l2) /\
    list_add (b_lru (buf_at i)) lru_list l2 = Ok (tt, l3) /\ family l3 F' /\ static_links l3 /\ nodes_ok (i + 1) (buf_at i :: o) F'.
Proof.
  intros HF Hs HN Hi. assert (buf_at i ∈ bufs) as Hb by (apply in_bufs; eauto).
  assert (loose F (b_hash (buf_at i))) as Hl1 by (eapply nodes_loose; [exact HN|lia|addr|intros; addr|intros; split; addr]).
  assert (loose F (b_lru (buf_at i))) as Hl2 by (eapply nodes_loose; [exact HN|lia|addr|intros; addr|intros; split; addr]).
  destruct HN as (Ho & Hlru & Hh & Hbh & Hk).
  destruct (INIT_LIST_HEAD_family l F _ HF Hl1 ltac:(by apply Hs)) as (l1 & Hr1 & HF1 & Ha1).
  assert (loose (<[b_hash (buf_at i) := []]> F) (b_lru (buf_at i))) as Hl2'.
  { intros h xs [[<- <-]|[_ Hx]]%lookup_insert_Some; [|by apply Hl2]. intros Hin%list_elem_of_singleton. addr. }
  destruct (INIT_LIST_HEAD_family l1 _ _ HF1 Hl2' ltac:(apply Ha1; by apply Hs)) as (l2 & Hr2 & HF2 & Ha2).
  destruct (list_del_alone _ _ _ HF2 (lookup_insert_eq _ _ _)) as (_ & HF2' & Hl3).
  rewrite delete_insert_id in HF2', Hl3 by by apply loose_lookup.
  assert (<[b_hash (buf_at i) := []]> F !! lru_list = Some (map b_lru o)) as Hlru' by (rewrite lookup_insert_ne by addr; done).
  destruct (list_add_family l2 _ _ _ _ HF2' Hlru' Hl3 ltac:(apply Ha2, Ha1; by apply Hs)) as (l3 & Hr3 & HF3 & Ha3).
  eexists l1, l2, l3, _. split; [done|]. split; [done|]. split; [done|]. split; [exact HF3|].
  split; [eapply static_links_mono; [exact Hs|auto]|]. split_and!.
  - rewrite seqZ_app, map_app, Ho by lia. apply Permutation_cons_append.
  - apply lookup_insert_eq.
  - intros j Hj. rewrite !lookup_insert_ne by addr. auto.
  - intros j Hj. rewrite lookup_insert_ne by addr. destruct (decide (j = i)) as [->|]; [apply lookup_insert_eq|].
    rewrite lookup_insert_ne by addr. apply Hbh. lia.
  - intros h xs [[<- <-]|[_ [[<- <-]|[_ Hx]]%lookup_insert_Some]]%lookup_insert_Some; [by left|right; split; [done|]; right; exists i; split; [lia|done]|].
    destruct (Hk _ _ Hx) as [?|[? [?|(j & ? & ?)]]]; [by left|by right; split; [|left]|].
    right. split; [done|]. right. exists j. split; [lia|done].
Qed.

(** The part of the state that [bcache_init] leaves alone. *)
Definition same_blk s s' : Prop :=
  k_cpu s' = k_cpu s /\ k_devices s' = k_devices s /\ k_count s' = k_count s /\ k_devs s' = k_devs s /\
  k_data s' = k_data s /\ k_env s' = k_env s.

Definition clean : buf := Buf 0 0 0 false false.

Definition init_inv1 s0 st i s : Prop :=
  locks st {[bcache_lock]} s /\ same_blk s0 s /\ static_links (k_links s) /\ exists F, family (k_links s) F /\ heads_ok i F.

Definition init_inv2 s0 st i s : Prop :=
  locks st {[bcache_lock]} s /\ same_blk s0 s /\ static_links (k_links s) /\
  (forall j, 0 <= j < i -> k_bufs s !! buf_at j = Some clean) /\ exists o F, family (k_links s) F /\ nodes_ok i o F.

Lemma init_step1 s0 st i s :
  0 <= i < BCACHE_HASH_SIZE -> init_inv1 s0 st i s ->
  wp False (on_links (INIT_LIST_HEAD (hash_table i))) (fun _ => init_inv1 s0 st (i + 1)) s.
Proof.
  intros Hi (Hl & Hs & Hst & F & HF & HH). destruct (heads_step _ _ _ HF Hst HH Hi) as (l' & F' & Hr & HF' & Hst' & HH').
  eapply on_links_wp; [exact Hr|]. destruct s; cbn in *. split; [done|]. split; [done|]. split; [done|]. by exists F'.
Qed.

Lemma init_step2 s0 st i s :
  0 <= i < BCACHE_SIZE -> init_inv2 s0 st i s ->
  wp False (let b := buf_at i in
        do! modify (fun s => set_k_bufs (<[b := Buf 0 0 0 false false]> (k_bufs s)) s) in
        do! lock_init (b_lock b) in
        do! on_links (INIT_LIST_HEAD (b_hash b)) in
        do! on_links (INIT_LIST_HEAD (b_lru b)) in
        on_links (list_add (b_lru b) lru_list)) (fun _ => init_inv2 s0 st (i + 1)) s.
Proof.
  intros Hi (Hl & Hs & Hst & Hb & o & F & HF & HN).
  destruct (nodes_step _ _ _ _ HF Hst HN Hi) as (l1 & l2 & l3 & F' & Hr1 & Hr2 & Hr3 & HF' & Hst' & HN').
  cbv zeta. apply wp_bind, wp_modify, wp_bind, wp_modify.
  apply wp_bind. eapply on_links_wp; [destruct s; exact Hr1|].
  apply wp_bind. eapply on_links_wp; [destruct s; exact Hr2|]. eapply on_links_wp; [destruct s; exact Hr3|].
  destruct s; cbn in *. split; [|split; [done|split; [done|split]]].
  - apply hart_ok_lock_init; [exact Hl|]. intros Hin%elem_of_singleton. addr.
  - intros j Hj. cbn. destruct (decide (j = i)) as [->|]; [apply lookup_insert_eq|].
    rewrite lookup_insert_ne by addr. apply Hb. lia.
  - by exists (buf_at i :: o), F'.
Qed.

(** An empty cache. *)
Lemma cache_empty o F bm dm D :
  nodes_ok BCACHE_SIZE o F -> (forall j, 0 <= j < BCACHE_SIZE -> bm !! buf_at j = Some clean) ->
  (forall b, b ∈ bufs -> is_Some (dm !! b)) -> cache ∅ ∅ ∅ o F bm dm D.
Proof.
  intros (Ho & Hl & Hh & Hb & _) Hbm Hdm. split; try done.
  - split; try done.
    + intros j Hj. exists []. split; [by apply Hh|]. intros b. split; [set_solver|]. intros (k & Hk & _). by rewrite lookup_empty in Hk.
    + intros b (j & Hj & ->)%in_bufs _ _. by apply Hb.
  - intros b (j & Hj & ->)%in_bufs. exists clean. rewrite decide_False by set_solver. split; [by apply Hbm|done].
Qed.

Lemma bcache_init_spec st D s :
  locks st ∅ s -> static_links (k_links s) -> (forall b, b ∈ bufs -> is_Some (k_data s !! b)) ->
  wp False bcache_init (fun _ s' => locks st ∅ s' /\ same_blk s s' /\
    exists order F, family (k_links s') F /\ cache ∅ ∅ ∅ order F (k_bufs s') (k_data s') D) s.
Proof.
  intros Hl Hst Hd. unfold bcache_init. eapply wp_enter; [exact Hl|]. intros h Hh.
  destruct (INIT_LIST_HEAD_family (k_links s) ∅ lru_list (family_empty _)) as (l1 & Hr1 & HF1 & Ha1);
    [intros ? ? Hx; by rewrite lookup_empty in Hx|exact (proj1 Hst)|].
  apply wp_bind. eapply on_links_wp; [destruct s; exact Hr1|].
  eapply wp_bind_mono.
  { apply (wp_for_up _ (init_inv1 s st)).
    - intros j t Hj. apply init_step1. change (Z.of_nat _) with BCACHE_HASH_SIZE in Hj. lia.
    - destruct s; cbn in *. split; [done|]. split; [done|]. split; [by eapply static_links_mono|]. eexists. split; [exact HF1|].
      split; [apply lookup_insert_eq|]. split; [intros; lia|]. intros h' xs [[<- <-]|[_ Hx]]%lookup_insert_Some; [|done].
      split; [done|by left]. }
  change (0 + Z.of_nat (Z.to_nat BCACHE_HASH_SIZE)) with BCACHE_HASH_SIZE.
  intros _ s1 (Hl1 & Hs1 & Hst1 & F1 & HF1' & H1 & H2 & H3). eapply wp_bind_mono.
  { apply (wp_for_up _ (init_inv2 s st)).
    - intros j t Hj. apply init_step2. change (Z.of_nat _) with BCACHE_SIZE in Hj. lia.
    - split; [done|]. split; [done|]. split; [done|]. split; [intros; lia|]. exists [], F1. split; [done|].
      split_and!; [done|done|done|intros; lia|]. intros h' xs [-> [->|Hx]]%H3; [by left|by right; split; [|left]]. }
  change (0 + Z.of_nat (Z.to_nat BCACHE_SIZE)) with BCACHE_SIZE.
  intros _ s2 (Hl2 & Hs2 & Hst2 & Hb & o & F & HF & HN).
  eapply wp_exit; [exact Hl2|]. intros h2 Hh2. pose proof Hs2 as (_ & _ & _ & _ & Hda & _).
  destruct s2; cbn in *. split; [done|]. split; [done|]. exists o, F. split; [done|].
  apply cache_empty; [done..|]. by rewrite Hda.
Qed.

(** ** Registration *)

Lemma wp_set_devices i p s (Q : unit -> blk E -> Prop) :
  0 <= i < Z.of_nat (length (k_devices s)) -> Q tt (set_k_devices (<[Z.to_nat i := p]> (k_devices s)) s) ->
  wp False (set_devices i p) Q s.
Proof. intros Hi HQ. unfold set_devices. eapply wp_store; [by rewrite decide_True|done]. Qed.

(** The part of the state that the registry leaves alone. *)
Definition same_cache s s' : Prop :=
  k_cpu s' = k_cpu s /\ k_links s' = k_links s /\ k_devs s' = k_devs s /\ k_bufs s' = k_bufs s /\
  k_data s' = k_data s /\ k_env s' = k_env s /\ length (k_devices s') = length (k_devices s).

Lemma blk_init_spec st s :
  locks st ∅ s -> Z.of_nat (length (k_devices s)) = BLK_MAX_DEVICES ->
  wp False blk_init (fun _ s' => locks st ∅ s' /\ k_count s' = 0 /\ same_cache s s') s.
Proof.
  intros Hl Hd. unfold blk_init. apply wp_bind, wp_modify, wp_bind, wp_modify.
  eapply wp_mono; [apply (wp_for_up _ (fun _ s' => locks st ∅ s' /\ k_count s' = 0 /\ same_cache s s'))|done|by intros].
  - intros j t Hj (Hlt & Hct & Hs). change (Z.of_nat _) with BLK_MAX_DEVICES in Hj.
    pose proof Hs as (? & ? & ? & ? & ? & ? & Hlen). apply wp_set_devices; [rewrite Hlen; lia|].
    destruct t; cbn in *. split; [done|]. split; [done|]. split_and!; try done. cbn. by rewrite length_insert.
  - destruct s; cbn in *. split; [|done]. apply hart_ok_lock_init; [done|set_solver].
Qed.

(** The registered devices are [ps], in order. *)
Definition registered (ps : list Z) s : Prop :=
  k_count s = Z.of_nat (length ps) /\ exists rest, k_devices s = ps ++ rest.

Lemma blk_register_spec st ps p s :
  locks st ∅ s -> registered ps s -> Z.of_nat (length (k_devices s)) = BLK_MAX_DEVICES ->
  Z.of_nat (length ps) < BLK_MAX_DEVICES -> (forall q, q ∈ ps ++ [p] -> is_Some (k_devs s !! q)) ->
  (forall q v w, q ∈ ps -> k_devs s !! q = Some v -> k_devs s !! p = Some w -> devno v <> devno w) ->
  wp False (blk_register p) (fun r s' => r = 0 /\ locks st ∅ s' /\ registered (ps ++ [p]) s' /\ same_cache s s') s.
Proof.
  intros Hl [Hc [rest Hr]] Hlen Hlt Hv Hno. unfold blk_register. eapply wp_enter; [exact Hl|]. intros h Hh.
  destruct (Hv p ltac:(set_solver)) as [w Hw].
  assert (rest <> []) as Hne. { intros ->. rewrite app_nil_r in Hr. rewrite Hr in Hlen. lia. }
  destruct rest as [|r0 rest]; [done|].
  apply wp_bind, wp_gets. destruct s; cbn in *. subst k_count. destruct (Z.leb_spec BLK_MAX_DEVICES (Z.of_nat (length ps))) as [|_]; [lia|].
  apply wp_bind. eapply wp_load; [exact Hw|]. apply wp_bind. eapply wp_run.
  { rewrite Nat2Z.id. apply (find_device_run _ ps [] _ (r0 :: rest)); [exact Hr|]. intros q Hq. apply Hv. set_solver. }
  destruct (List.find _ ps) as [q|] eqn:Hf.
  { exfalso. apply List.find_some in Hf as [Hq Ht]. apply list_elem_of_In in Hq. cbn in Ht.
    destruct (Hv q ltac:(set_solver)) as [v Hv']. rewrite Hv' in Ht. apply Z.eqb_eq in Ht. by apply (Hno q v w). }
  change (default NULL None) with NULL. rewrite Z.eqb_refl. cbn [negb].
  apply wp_bind, wp_set_devices; [cbn; rewrite Hr, length_app; cbn; lia|].
  apply wp_bind, wp_modify. apply wp_bind. eapply wp_exit; [exact Hh|]. intros h1 Hh1. apply wp_ret. cbn.
  split; [done|]. split; [done|]. split; [split; cbn|].
  - rewrite length_app. cbn. change BLK_MAX_DEVICES with 16 in Hlt. rewrite wrap_small by (split; lia). lia.
  - exists rest. rewrite Hr, Nat2Z.id, insert_app_r_alt, Nat.sub_diag by lia. cbn. by rewrite <- app_assoc.
  - split_and!; try done. cbn. by rewrite length_insert.
Qed.

End init.

(** ** Sessions

    The clients of the cache name blocks by device and block number; [P] is
    the buffer they got for each block they hold. *)

Inductive request : Type :=
  | Bread (k : Z * Z)
  | Load (k : Z * Z)                  (* read the data of a held buffer *)
  | Store (k : Z * Z) (d : list Z)    (* write to the data of a held buffer *)
  | Bwrite (k : Z * Z)
  | Brelse (k : Z * Z)
  | Flush (dev : Z)
  | Sync.

Section session.
Context {E : Type} `{BlkCode E}.

Definition serve (r : request) (P : gmap (Z * Z) Z) : ST (blk E) (gmap (Z * Z) Z * list (list Z)) :=
  let held k := load (fun _ => P !! k) in
  match r with
  | Bread k => let! b := bread k.1 k.2 in ret (<[k := b]> P, [])
  | Load k => let! b := held k in let! d := load (fun s => k_data s !! b) in ret (P, [d])
  | Store k d => let! b := held k in do! modify (fun s => set_k_data (<[b := d]> (k_data s)) s) in ret (P, [])
  | Bwrite k => let! b := held k in do! bwrite b in ret (P, [])
  | Brelse k => let! b := held k in do! brelse b in ret (delete k P, [])
  | Flush dev => do! bcache_flush dev in ret (P, [])
  | Sync => do! bcache_sync in ret (P, [])
  end.

Fixpoint serve_all (rs : list request) (P : gmap (Z * Z) Z) : ST (blk E) (list (list Z)) :=
  match rs with
  | [] => ret []
  | r :: rs => let! x := serve r P in let! out := serve_all rs x.1 in ret (x.2 ++ out)
  end.

(** The devices of [ps] are registered once the layer and the cache are set up. *)
Fixpoint register_all (ps : list Z) : ST (blk E) unit :=
  match ps with
  | [] => ret tt
  | p :: ps => let! _ := blk_register p in register_all ps
  end.

Definition boot (ps : list Z) : ST (blk E) unit :=
  do! blk_init in do! bcache_init in register_all ps.

End session.

(** The same sessions without a cache: [V] are the private copies of the
    blocks that are held, [D] is the disk.  [None] is a request that breaks
    the rules: a block that does not exist or is held already, more than 128
    blocks at a time, a block released before its changes are written. *)
Definition spec (r : request) (V D : gmap (Z * Z) (list Z)) :
    option (gmap (Z * Z) (list Z) * gmap (Z * Z) (list Z) * list (list Z)) :=
  match r with
  | Bread k =>
      d ← D !! k;
      if decide (V !! k = None /\ (size V < 128)%nat) then Some (<[k := d]> V, D, []) else None
  | Load k => d ← V !! k; Some (V, D, [d])
  | Store k d => _ ← V !! k; Some (<[k := d]> V, D, [])
  | Bwrite k => d ← V !! k; Some (V, <[k := d]> D, [])
  | Brelse k => d ← V !! k; if decide (D !! k = Some d) then Some (delete k V, D, []) else None
  | Flush _ | Sync => Some (V, D, [])
  end.

Fixpoint spec_all (rs : list request) (V D : gmap (Z * Z) (list Z)) :
    option (gmap (Z * Z) (list Z) * list (list Z)) :=
  match rs with
  | [] => Some (D, [])
  | r :: rs =>
      match spec r V D with
      | Some (V', D', out) => '(D2, out2) ← spec_all rs V' D'; Some (D2, out ++ out2)
      | None => None
      end
  end.

Section simulation.
Context {E : Type} `{BlkCode E} {disk : E -> gmap (Z * Z) (list Z)} {HD : BlkDriver E disk}.
Implicit Types s : blk E.

(** The clients hold the buffers of [P], whose data are the copies of [V]. *)
Definition sim (st : Z) (ps : list Z) (P : gmap (Z * Z) Z) (V D : gmap (Z * Z) (list Z)) s : Prop :=
  exists K hb order F, inv (disk := disk) st ps K hb ∅ order F D s /\ size hb = size V /\ dom P = dom V /\
    (forall k b, P !! k = Some b -> K !! k = Some b /\ b ∈ hb /\ k_data s !! b = V !! k) /\
    (forall b, b ∈ hb -> exists k, P !! k = Some b).

Lemma held_of (P : gmap (Z * Z) Z) (V : gmap (Z * Z) (list Z)) k d : dom P = dom V -> V !! k = Some d -> exists b, P !! k = Some b.
Proof. intros Hd Hk. apply elem_of_dom. rewrite Hd. by apply elem_of_dom_2 in Hk. Qed.

Lemma sim_bread st ps P V D k d s :
  sim st ps P V D s -> D !! k = Some d -> V !! k = None -> (size V < 128)%nat ->
  wp False (serve (Bread k) P) (fun x s' => x.2 = [] /\ sim st ps x.1 (<[k := d]> V) D s') s.
Proof.
  intros (K & hb & order & F & HI & Hsz & Hdom & HP & Hhb) Hd Hv Hlt.
  assert (P !! k = None) as Hpk. { apply not_elem_of_dom. rewrite Hdom. by apply not_elem_of_dom. }
  cbn [serve]. eapply wp_bind_mono; [eapply bread_spec; [exact HI| |lia|exact Hd]|].
  { intros b Hkb Hin. destruct (Hhb b Hin) as [k' Hk']. destruct (HP k' b Hk') as (Hkb' & _).
    rewrite (ch_inj _ _ _ (c_chains _ _ _ _ _ _ _ _ (i_cache _ _ _ _ _ _ _ _ _ HI)) k k' b) in Hpk by done. congruence. }
  cbv beta. intros b s' (K' & order' & F' & HI' & Hk' & Hnb & Hdb & Hdo & Hmono). apply wp_ret. split; [done|]. cbn [fst].
  exists K', ({[b]} ∪ hb), order', F'. split; [done|]. split; [|split; [|split]].
  - rewrite size_union, size_singleton by set_solver. rewrite map_size_insert_None by done. lia.
  - by rewrite !dom_insert_L, Hdom.
  - intros k' b' [[<- <-]|[Hne Hp]]%lookup_insert_Some.
    + rewrite lookup_insert_eq. split; [done|]. split; [set_solver|done].
    + destruct (HP k' b' Hp) as (H1 & H2 & H3). rewrite lookup_insert_ne by done. split; [auto|]. split; [set_solver|].
      rewrite Hdo; [done|]. intros ->. done.
  - intros b' [->%elem_of_singleton|Hin]%elem_of_union; [exists k; by rewrite lookup_insert_eq|].
    destruct (Hhb b' Hin) as [k' Hp]. exists k'. rewrite lookup_insert_ne; [done|]. congruence.
Qed.

Lemma sim_store st ps P V D k d0 d s :
  sim st ps P V D s -> V !! k = Some d0 ->
  wp False (serve (Store k d) P) (fun x s' => x.2 = [] /\ sim st ps x.1 (<[k := d]> V) D s') s.
Proof.
  intros (K & hb & order & F & [Hl Hr HF He C] & Hsz & Hdom & HP & Hhb) Hv. destruct (held_of _ _ _ _ Hdom Hv) as [b Hb].
  cbn [serve]. apply wp_bind. eapply wp_load; [exact Hb|]. apply wp_bind, wp_modify, wp_ret. split; [done|]. cbn [fst].
  destruct (HP k b Hb) as (Hk & Hin & _). exists K, hb, order, F. split; [|split; [|split; [|split]]].
  - destruct s; cbn in *. split; cbn; try done; [by eapply reg_ok_same|]. by apply cache_store.
  - by rewrite map_size_insert_Some by by rewrite Hv.
  - rewrite dom_insert_lookup_L; [done|]. by eexists.
  - intros k' b' Hp. destruct (HP k' b' Hp) as (H1 & H2 & H3). split; [done|]. split; [done|]. destruct s; cbn in *.
    destruct (decide (k' = k)) as [->|Hne].
    + rewrite Hb in Hp. injection Hp as <-. by rewrite !lookup_insert_eq.
    + rewrite !lookup_insert_ne; [done|done|]. intros ->. apply Hne.
      by apply (ch_inj _ _ _ (c_chains _ _ _ _ _ _ _ _ C) k' k b').
  - done.
Qed.

Lemma sim_bwrite st ps P V D k d s :
  sim st ps P V D s -> V !! k = Some d ->
  wp False (serve (Bwrite k) P) (fun x s' => x.2 = [] /\ sim st ps x.1 V (<[k := d]> D) s') s.
Proof.
  intros (K & hb & order & F & HI & Hsz & Hdom & HP & Hhb) Hv. destruct (held_of _ _ _ _ Hdom Hv) as [b Hb].
  destruct (HP k b Hb) as (Hk & Hin & Hd). cbn [serve]. apply wp_bind. eapply wp_load; [exact Hb|].
  eapply wp_bind_mono; [eapply bwrite_spec; [exact HI|exact Hk|done|by rewrite Hd]|].
  cbv beta. intros _ s' [HI' Hda]. apply wp_ret. split; [done|]. exists K, hb, order, F. rewrite Hda. auto.
Qed.

Lemma sim_brelse st ps P V D k d s :
  sim st ps P V D s -> V !! k = Some d -> D !! k = Some d ->
  wp False (serve (Brelse k) P) (fun x s' => x.2 = [] /\ sim st ps x.1 (delete k V) D s') s.
Proof.
  intros (K & hb & order & F & HI & Hsz & Hdom & HP & Hhb) Hv Hd. destruct (held_of _ _ _ _ Hdom Hv) as [b Hb].
  destruct (HP k b Hb) as (Hk & Hin & Hdb). cbn [serve]. apply wp_bind. eapply wp_load; [exact Hb|].
  assert (hb = {[b]} ∪ (hb ∖ {[b]})) as Hu by by apply union_difference_singleton_L. rewrite Hu in HI.
  pose proof (ch_inj _ _ _ (c_chains _ _ _ _ _ _ _ _ (i_cache _ _ _ _ _ _ _ _ _ HI))) as Hinj.
  eapply wp_bind_mono; [eapply brelse_spec; [exact HI|exact Hk|set_solver|congruence]|].
  cbv beta. intros _ s' (order' & F' & HI' & Hda). apply wp_ret. split; [done|]. cbn [fst].
  exists K, (hb ∖ {[b]}), order', F'. split; [done|]. split; [|split; [|split]].
  - rewrite size_difference, size_singleton by set_solver. rewrite map_size_delete_Some by by rewrite Hv. lia.
  - by rewrite !dom_delete_L, Hdom.
  - intros k' b' [Hne Hp]%lookup_delete_Some. destruct (HP k' b' Hp) as (H1 & H2 & H3).
    rewrite lookup_delete_ne, Hda by done. split; [done|]. split; [|done].
    apply elem_of_difference. split; [done|]. intros ->%elem_of_singleton. apply Hne. by apply (Hinj k k' b).
  - intros b' [Hin' Hne]%elem_of_difference. destruct (Hhb b' Hin') as [k' Hp]. exists k'.
    rewrite lookup_delete_ne; [done|]. intros <-. apply Hne. rewrite Hb in Hp. injection Hp as ->. set_solver.
Qed.

Lemma sim_step st ps P V D r V' D' out s :
  sim st ps P V D s -> spec r V D = Some (V', D', out) ->
  wp False (serve r P) (fun x s' => x.2 = out /\ sim st ps x.1 V' D' s') s.
Proof.
  intros HS. destruct r as [k|k|k d|k|k|dev|]; cbn [spec]; intros Hsp.
  - apply bind_Some in Hsp as (d & Hd & Hsp). case_decide as Hc; [|done]. injection Hsp as <- <- <-.
    destruct Hc. by apply sim_bread.
  - apply bind_Some in Hsp as (d & Hd & [= <- <- <-]). pose proof HS as (K & hb & order & F & HI & Hsz & Hdom & HP & Hhb).
    destruct (held_of _ _ _ _ Hdom Hd) as [b Hb]. destruct (HP k b Hb) as (_ & _ & Hdb). cbn [serve].
    apply wp_bind. eapply wp_load; [exact Hb|]. apply wp_bind. eapply wp_load; [by rewrite Hdb|]. by apply wp_ret.
  - apply bind_Some in Hsp as (d0 & Hd & [= <- <- <-]). by eapply sim_store.
  - apply bind_Some in Hsp as (d & Hd & [= <- <- <-]). by apply sim_bwrite.
  - apply bind_Some in Hsp as (d & Hd & Hsp). case_decide as Hc; [|done]. injection Hsp as <- <- <-. by eapply sim_brelse.
  - injection Hsp as <- <- <-. destruct HS as (K & hb & order & F & HI & Hsz & Hdom & HP & Hhb). cbn [serve].
    eapply wp_bind_mono; [unfold bcache_flush; by eapply flush_spec|]. cbv beta. intros _ s' [HI' Hda]. apply wp_ret.
    split; [done|]. exists K, hb, order, F. by rewrite Hda.
  - injection Hsp as <- <- <-. destruct HS as (K & hb & order & F & HI & Hsz & Hdom & HP & Hhb). cbn [serve].
    eapply wp_bind_mono; [unfold bcache_sync; by eapply flush_spec|]. cbv beta. intros _ s' [HI' Hda]. apply wp_ret.
    split; [done|]. exists K, hb, order, F. by rewrite Hda.
Qed.

Lemma sim_all st ps rs : forall P V D D' outs s,
  sim st ps P V D s -> spec_all rs V D = Some (D', outs) ->
  wp False (serve_all rs P) (fun x s' => x = outs /\ disk (k_env s') = D') s.
Proof.
  induction rs as [|r rs IH]; intros P V D D' outs s HS Hsp; cbn [spec_all serve_all] in *.
  - injection Hsp as <- <-. apply wp_ret. split; [done|]. destruct HS as (K & hb & order & F & HI & _). apply HI.
  - destruct (spec r V D) as [[[V1 D1] out1]|] eqn:Hr; [|done].
    apply bind_Some in Hsp as ([D2 out2] & Hsp & [= <- <-]).
    eapply wp_bind_mono; [by eapply sim_step|]. cbv beta. intros x s1 [-> HS1].
    eapply wp_bind_mono; [by eapply IH|]. cbv beta. intros y s2 [-> HD2]. by apply wp_ret.
Qed.

End simulation.

(** ** The whole *)

Section top.
Context {E : Type} `{BlkCode E} {disk : E -> gmap (Z * Z) (list Z)} {HD : BlkDriver E disk}.
Implicit Types s : blk E.

(** A machine before boot: no lock is held, the static list heads and data
    are there, and the blocks of the disk are on the devices of [ps], whose
    numbers differ and whose drivers read and write. *)
Record ready (st : Z) (ps : list Z) s : Prop := {
  rd_locks : locks st ∅ s;
  rd_slots : Z.of_nat (length (k_devices s)) = BLK_MAX_DEVICES;
  rd_fit : Z.of_nat (length ps) <= BLK_MAX_DEVICES;
  rd_devs p : p ∈ ps -> 0 < p /\ exists v, k_devs s !! p = Some v /\
    is_Some (entry (bd_ops v) blkops read_op) /\ is_Some (entry (bd_ops v) blkops write_op);
  rd_nodup : NoDup (map (fun p => devno <$> k_devs s !! p) ps);
  rd_blocks k : is_Some (disk (k_env s) !! k) -> exists p v, p ∈ ps /\ k_devs s !! p = Some v /\ devno v = k.1;
  rd_links : static_links (k_links s);
  rd_data b : b ∈ bufs -> is_Some (k_data s !! b)
}.

Lemma register_all_spec st s0 todo : forall ps s,
  locks st ∅ s -> registered ps s -> Z.of_nat (length (k_devices s)) = BLK_MAX_DEVICES ->
  Z.of_nat (length (ps ++ todo)) <= BLK_MAX_DEVICES -> (forall q, q ∈ ps ++ todo -> is_Some (k_devs s !! q)) ->
  NoDup (map (fun p => devno <$> k_devs s !! p) (ps ++ todo)) -> same_cache s0 s ->
  wp False (register_all todo) (fun _ s' => locks st ∅ s' /\ registered (ps ++ todo) s' /\ same_cache s0 s') s.
Proof.
  induction todo as [|p todo IH]; intros ps s Hl Hr Hs Hfit Hv Hnd Hc; cbn [register_all].
  - rewrite app_nil_r. by apply wp_ret.
  - assert (ps ++ p :: todo = (ps ++ [p]) ++ todo) as Ha by by rewrite <- app_assoc. rewrite Ha in *.
    eapply wp_bind_mono; [apply (blk_register_spec (disk := disk) st ps); try done|].
    + rewrite !length_app in Hfit. cbn in Hfit. lia.
    + intros q Hq. apply Hv. set_solver.
    + intros q v w Hq Hqv Hpw He. rewrite map_app, map_app in Hnd. apply NoDup_app in Hnd as [Hnd _].
      apply NoDup_app in Hnd as (_ & Hno & _). apply (Hno (Some (devno v))).
      * apply list_elem_of_fmap. exists q. by rewrite Hqv.
      * cbn. rewrite Hpw, He. left.
    + cbv beta. intros r s1 (_ & Hl1 & Hr1 & H1 & H2 & H3 & H4 & H5 & H6 & H7).
      destruct Hc as (C1 & C2 & C3 & C4 & C5 & C6 & C7).
      apply IH; [done|done|by rewrite H7|done|by rewrite H3|by rewrite H3|]. split_and!; congruence.
Qed.

(** After boot the cache is empty and every device registered. *)
Lemma boot_spec st ps s :
  ready st ps s -> wp False (boot ps) (fun _ s' => sim (disk := disk) st ps ∅ ∅ (disk (k_env s)) s') s.
Proof.
  intros [Hl Hs Hf Hd Hn Hb Hli Hda]. unfold boot. eapply wp_bind_mono; [by apply (blk_init_spec st)|].
  cbv beta. intros _ s1 (Hl1 & Hc1 & H1 & H2 & H3 & H4 & H5 & H6 & H7).
  eapply wp_bind_mono; [apply (bcache_init_spec st (disk (k_env s))); [done|by rewrite H2|by rewrite H5]|].
  cbv beta. intros _ s2 (Hl2 & (B1 & B2 & B3 & B4 & B5 & B6) & o & F & HF & C).
  eapply wp_mono; [apply (register_all_spec st s2 ps [])|done|].
  - done.
  - split; [by rewrite B3|]. by exists (k_devices s2).
  - by rewrite B2, H7.
  - done.
  - intros q Hq. rewrite B4, H3. destruct (Hd q Hq) as (_ & v & -> & _). by eexists.
  - by rewrite B4, H3.
  - done.
  - cbv beta. intros _ s3 (Hl3 & [Hc3 Hr3] & D1 & D2 & D3 & D4 & D5 & D6 & D7). exists ∅, ∅, o, F.
    split; [split|].
    + unfold lock_set. by rewrite set_map_empty.
    + split; try done.
      * intros p Hp. rewrite D3, B4, H3. by apply Hd.
      * rewrite D6, B6, H6, D3, B4, H3. exact Hb.
    + by rewrite D2.
    + by rewrite D6, B6, H6.
    + by rewrite D4, D5.
    + split; [done|]. split; [by rewrite !dom_empty_L|]. split; [|set_solver]. intros k b Hk. by rewrite lookup_empty in Hk.
Qed.

(** [C34] The buffer cache refines direct access to the disk: boot the block layer and the cache, register the drivers, and
    serve any sequence of reads, loads, stores, writes, releases, flushes and syncs that keeps the rules of [spec].  The code
    returns without panic, fault or deadlock, the clients see the data they would see without a cache, whatever hits,
    misses and evictions happen on the way, and the disk at the end holds what they wrote. *)
Theorem bcache_refines st ps rs D' outs s :
  ready st ps s -> spec_all rs ∅ (disk (k_env s)) = Some (D', outs) ->
  wp False (do! boot ps in serve_all rs ∅) (fun x s' => x = outs /\ disk (k_env s') = D') s.
Proof.
  intros Hr Hsp. eapply wp_bind_mono; [by apply boot_spec|]. cbv beta. intros _ s1 HS. by eapply sim_all.
Qed.

End top.

(** ** A disk in memory *)

#[local] Instance ram_code : BlkCode (gmap (Z * Z) (list Z)) := {
  blkops _ := {|
    read_op := Some (fun p sector b n =>
      let! v := get_dev p in
      let! d := load (fun s => k_env s !! (devno v, sector)) in
      do! modify (fun s => set_k_data (<[b := d]> (k_data s)) s) in ret 0);
    write_op := Some (fun p sector b n =>
      let! v := get_dev p in
      let! d := load (fun s => k_data s !! b) in
      do! modify (fun s => set_k_env (<[(devno v, sector) := d]> (k_env s)) s) in ret 0);
    flush_op := None; get_capacity_op := None; get_block_size_op := None |}
}.

#[local] Instance ram_driver : BlkDriver (gmap (Z * Z) (list Z)) id.
Proof.
  split.
  - intros s p v f sector b d Hp Hf Hd Hb. unfold entry in Hf. case_match; [done|]. injection Hf as <-.
    apply wp_bind. eapply wp_load; [exact Hp|]. apply wp_bind. eapply wp_load; [exact Hd|].
    apply wp_bind, wp_modify, wp_ret. split; [done|]. exists (k_env s). by destruct s.
  - intros s p v f sector b d Hp Hf Hd Hb. unfold entry in Hf. case_match; [done|]. injection Hf as <-.
    apply wp_bind. eapply wp_load; [exact Hp|]. apply wp_bind. eapply wp_load; [exact Hb|].
    apply wp_bind, wp_modify, wp_ret. split; [done|]. by eexists.
Qed.

Definition ram_heads : list Z :=
  lru_list :: map hash_table (seqZ 0 BCACHE_HASH_SIZE) ++ map b_hash bufs ++ map b_lru bufs.

Definition ram_links : gmap Z Z := list_to_map (map (fun a => (a, 0)) ram_heads).

(** Two devices with two blocks each. *)
Definition ram_state : blk (gmap (Z * Z) (list Z)) :=
  Blk (Hart (Intr 2 0 0) ∅) 0 (LStore ram_links ram_links) (replicate 16 0) 7
    {[4096 := BlockDevice 5 64 0; 8192 := BlockDevice 6 64 0]} ∅ (list_to_map (map (fun b => (b, [])) bufs))
    {[(5, 0) := [1]; (5, 17) := [2]; (6, 0) := [3]; (6, 3) := [4]]}.

Lemma lookup_const {A} (x : A) (l : list Z) a : a ∈ l -> is_Some ((list_to_map (map (fun a => (a, x)) l) : gmap Z A) !! a).
Proof.
  induction l as [|b l IH]; intros Ha; cbn; [set_solver|]. destruct (decide (a = b)) as [->|Hne].
  - rewrite lookup_insert_eq. by eexists.
  - rewrite lookup_insert_ne by done. apply IH. set_solver.
Qed.

Lemma ram_ready : ready (disk := id) 2 [4096; 8192] ram_state.
Proof.
  assert (forall a, a ∈ ram_heads -> allocated (k_links ram_state) a) as Ha.
  { intros a Hin. assert (is_Some (ram_links !! a)) as Hs; [|by split].
    by apply lookup_const. }
  split.
  - split; [done|]. intros l. unfold get_lock. cbn. by rewrite lookup_empty, decide_False by set_solver.
  - done.
  - done.
  - intros p Hp. repeat (apply elem_of_cons in Hp as [->|Hp]); [| |set_solver].
    + split; [done|]. exists (BlockDevice 5 64 0). split; [done|]. by split; eexists.
    + split; [done|]. exists (BlockDevice 6 64 0). split; [done|]. by split; eexists.
  - apply (bool_decide_unpack _). vm_compute. exact I.
  - intros k [d Hd]. cbn in Hd. rewrite !lookup_insert_Some, lookup_singleton_Some in Hd.
    destruct Hd as [[<- _]|[_ [[<- _]|[_ [[<- _]|[_ [<- _]]]]]]];
      first [exists 4096, (BlockDevice 5 64 0); split; [set_solver|done]|exists 8192, (BlockDevice 6 64 0); split; [set_solver|done]].
  - split; [|split].
    + apply Ha. left.
    + intros j Hj. apply Ha. right. apply elem_of_app. left. apply list_elem_of_fmap. exists j. split; [done|]. apply elem_of_seqZ. lia.
    + intros b Hb. split; apply Ha; right; rewrite !elem_of_app, !list_elem_of_fmap; eauto.
  - intros b Hb. by apply lookup_const.
Qed.

(** Two blocks of one hash chain and a third: changes that are written survive
    the release of the buffer and are read again, from the cache and from the
    disk. *)
Lemma bcache_refines_witness :
  let rs := [Bread (5, 0); Bread (5, 17); Store (5, 0) [10; 11]; Load (5, 17); Bwrite (5, 0); Brelse (5, 0);
             Bread (6, 3); Load (6, 3); Bread (5, 0); Load (5, 0); Sync; Flush 5; Brelse (5, 17)] in
  wp False (do! boot [4096; 8192] in serve_all rs ∅)
    (fun x s' => x = [[2]; [4]; [10; 11]] /\ k_env s' = <[(5, 0) := [10; 11]]> (k_env ram_state)) ram_state.
Proof.
  intros rs. exact (bcache_refines (disk := id) (HD := ram_driver) 2 [4096; 8192] rs
    (<[(5, 0) := [10; 11]]> (k_env ram_state)) [[2]; [4]; [10; 11]] ram_state ram_ready eq_refl).
Defined.

(** ** Two observations *)

(** The buffer that was released last is the first to be reused: with 127
    buffers never used, the second block replaces the first. *)
Lemma evicts_last_released :
  match (do! boot [4096; 8192] in
         let! a := bread 5 0 in do! brelse a in
         let! b := bread 6 0 in do! brelse b in ret (a, b)) ram_state with
  | Ok ((a, b), _) => a = b
  | _ => False
  end.
Proof. by vm_compute. Qed.

(** A block that could not be read is valid nevertheless: here no device is
    registered. *)
Lemma bread_ignores_errors :
  match (do! boot [] in let! b := bread 5 0 in get_buf b) ram_state with
  | Ok (x, _) => valid x = true
  | _ => False
  end.
Proof. by vm_compute. Qed.
