(* ===== verification/Virtio.v ===== *)
(** The structures of [hal/virtio.h] and [hal/virtio/device.h], and the state
    of the virtio driver.

    The memory that the driver shares with the device, the descriptor table
    and the two rings of a virtqueue, is found by the address of the table.
    The device itself is the class [VirtioDevice]: reads and writes of its
    registers, and a step that it may take between two accesses of the driver
    to the shared memory. *)

From S2P Require Import Prelude ListHead Sync Machine Alloc Blk.

Definition VRING_DESC_F_NEXT : Z := 1.
Definition VRING_DESC_F_WRITE : Z := 2.
Definition VRING_ALIGN : Z := 4096.

Definition VIRTIO_DEVICE_TYPE_DISK : Z := 2.
Definition VIRTIO_BLK_T_IN : Z := 0.
Definition VIRTIO_BLK_T_OUT : Z := 1.
Definition VIRTIO_BLK_S_OK : Z := 0.
Definition VIRTIO_BLK_S_IOERR : Z := 1.

Record virtq_desc := Desc { d_addr : Z; d_len : Z; d_flags : Z; d_next : Z }.

(** [struct virtq_avail] and [struct virtq_used]. *)
Record virtq_avail := Avail { a_flags : Z; a_idx : Z; a_ring : list Z }.
Record virtq_used_elem := UsedElem { u_id : Z; u_len : Z }.
Record virtq_used := Used { us_flags : Z; us_idx : Z; us_ring : list virtq_used_elem }.

(** The memory of one virtqueue. *)
Record vring := Vring { vr_descs : list virtq_desc; vr_avail : virtq_avail; vr_used : virtq_used }.

Record virtq := Virtq {
  vq_regs : Z; queue_idx : Z;
  descs : Z; avail : Z; used : Z;         (* addresses *)
  num : Z; free_head : Z; num_free : Z;
  avail_idx : Z; used_idx : Z;
  data : list Z                           (* [VIRTQ_SIZE] tokens *)
}.
Definition sizeof_virtq : Z := 336.
Definition vq_lock (vq : Z) : Z := vq + 56.

Record virtq_buf := VBuf { vb_addr : Z; vb_len : Z }.

Definition vring_size (num : Z) : Z :=
  let desc_size := 16 * num in
  let avail_size := 2 * (3 + num) in
  let used_size := 2 * 3 + 8 * num in
  desc_size + avail_size + used_size + VRING_ALIGN * 2.

(** [struct virtio_device], embedded in [struct virtio_blk_device], and
    [struct virtio_blk_request]. *)
Record virtio_device := VDev {
  vd_regs : Z; vd_irqno : Z; vd_device_id : Z; vd_vendor_id : Z; negotiated_features : Z;
  vqs : list Z; num_vqs : Z; polling_mode : bool
}.
Record virtio_blk_device := VBlk { vdev : virtio_device; vblk_capacity : Z; vblk_block_size : Z }.
Record virtio_blk_request := VReq {
  r_type : Z; r_sector : Z; r_data : Z; r_status : Z; r_nsectors : Z; r_completed : bool
}.

(** ** State *)

Record vio (A D : Type) := Vio {
  x_alloc : A;
  x_virtqs : gmap Z virtq;
  x_rings : gmap Z vring;
  x_devs : gmap Z virtio_blk_device;
  x_reqs : gmap Z virtio_blk_request;
  x_virtio_blk : Z;                       (* [virtio_blk] *)
  x_dev : D                               (* the device *)
}.
Arguments Vio {A D}.
Arguments x_alloc {A D}.
Arguments x_virtqs {A D}.
Arguments x_rings {A D}.
Arguments x_devs {A D}.
Arguments x_reqs {A D}.
Arguments x_virtio_blk {A D}.
Arguments x_dev {A D}.

Section state.
Context {A D : Type}.
Implicit Types v : vio A D.

Definition set_x_alloc x v : vio A D := let 'Vio _ q r d t p e := v in Vio x q r d t p e.
Definition set_x_virtqs x v : vio A D := let 'Vio a _ r d t p e := v in Vio a x r d t p e.
Definition set_x_rings x v : vio A D := let 'Vio a q _ d t p e := v in Vio a q x d t p e.
Definition set_x_devs x v : vio A D := let 'Vio a q r _ t p e := v in Vio a q r x t p e.
Definition set_x_reqs x v : vio A D := let 'Vio a q r d _ p e := v in Vio a q r d x p e.
Definition set_x_virtio_blk x v : vio A D := let 'Vio a q r d t _ e := v in Vio a q r d t x e.
Definition set_x_dev x v : vio A D := let 'Vio a q r d t p _ := v in Vio a q r d t p x.

Definition on_vio {B} (m : ST (vio A D) B) : ST (blk (vio A D)) B := lift k_env set_k_env m.
Definition on_valloc {B} (m : ST A B) : ST (blk (vio A D)) B := on_vio (lift x_alloc set_x_alloc m).

Definition get_virtq (vq : Z) : ST (blk (vio A D)) virtq := on_vio (load (fun v => x_virtqs v !! vq)).
Definition upd_virtq (vq : Z) (f : virtq -> virtq) : ST (blk (vio A D)) unit :=
  on_vio (store (fun v => x ← x_virtqs v !! vq; Some (set_x_virtqs (<[vq := f x]> (x_virtqs v)) v))).

(** The ring that a virtqueue points at. *)
Definition get_vring (vq : Z) : ST (blk (vio A D)) vring :=
  let! q := get_virtq vq in on_vio (load (fun v => x_rings v !! descs q)).
Definition upd_vring (vq : Z) (f : vring -> option vring) : ST (blk (vio A D)) unit :=
  let! q := get_virtq vq in
  on_vio (store (fun v => r ← x_rings v !! descs q; r' ← f r; Some (set_x_rings (<[descs q := r']> (x_rings v)) v))).

Definition get_desc (vq i : Z) : ST (blk (vio A D)) virtq_desc :=
  let! r := get_vring vq in load (fun _ => if i <? 0 then None else vr_descs r !! Z.to_nat i).
Definition upd_desc (vq i : Z) (f : virtq_desc -> virtq_desc) : ST (blk (vio A D)) unit :=
  upd_vring vq (fun r =>
    if i <? 0 then None else
    d ← vr_descs r !! Z.to_nat i;
    Some (Vring (<[Z.to_nat i := f d]> (vr_descs r)) (vr_avail r) (vr_used r))).

(** [vq->data[i]]. *)
Definition get_token (vq i : Z) : ST (blk (vio A D)) Z :=
  let! q := get_virtq vq in load (fun _ => if i <? 0 then None else data q !! Z.to_nat i).

End state.

Definition set_d_addr x (d : virtq_desc) := Desc x (d_len d) (d_flags d) (d_next d).
Definition set_d_len x (d : virtq_desc) := Desc (d_addr d) x (d_flags d) (d_next d).
Definition set_d_flags x (d : virtq_desc) := Desc (d_addr d) (d_len d) x (d_next d).
Definition set_d_next x (d : virtq_desc) := Desc (d_addr d) (d_len d) (d_flags d) x.

Definition set_free_head x (q : virtq) : virtq :=
  let 'Virtq r i d a u n _ f ai ui t := q in Virtq r i d a u n x f ai ui t.
Definition set_num_free x (q : virtq) : virtq :=
  let 'Virtq r i d a u n h _ ai ui t := q in Virtq r i d a u n h x ai ui t.
Definition set_avail_idx x (q : virtq) : virtq :=
  let 'Virtq r i d a u n h f _ ui t := q in Virtq r i d a u n h f x ui t.
Definition set_used_idx x (q : virtq) : virtq :=
  let 'Virtq r i d a u n h f ai _ t := q in Virtq r i d a u n h f ai x t.
Definition set_data x (q : virtq) : virtq :=
  let 'Virtq r i d a u n h f ai ui _ := q in Virtq r i d a u n h f ai ui x.

Definition upd_vqs x (v : virtio_device) := let 'VDev r i d e f _ n p := v in VDev r i d e f x (u32 (n + 1)) p.
Definition set_ids x y (v : virtio_device) := let 'VDev r i _ _ f q n p := v in VDev r i x y f q n p.
Definition set_features x (v : virtio_device) := let 'VDev r i d e _ q n p := v in VDev r i d e x q n p.
Definition set_r_status x (r : virtio_blk_request) := let 'VReq t s d _ n c := r in VReq t s d x n c.
Definition set_r_completed x (r : virtio_blk_request) := let 'VReq t s d u n _ := r in VReq t s d u n x.

Section objects.
Context {A D : Type}.

Definition get_vblk (p : Z) : ST (blk (vio A D)) virtio_blk_device := on_vio (load (fun v => x_devs v !! p)).
Definition upd_vblk (p : Z) (f : virtio_blk_device -> virtio_blk_device) : ST (blk (vio A D)) unit :=
  on_vio (store (fun v => x ← x_devs v !! p; Some (set_x_devs (<[p := f x]> (x_devs v)) v))).

(** The [virtio_device] is the first member of the [virtio_blk_device]. *)
Definition get_vdev (p : Z) : ST (blk (vio A D)) virtio_device := let! b := get_vblk p in ret (vdev b).
Definition upd_vdev (p : Z) (f : virtio_device -> virtio_device) : ST (blk (vio A D)) unit :=
  upd_vblk p (fun b => VBlk (f (vdev b)) (vblk_capacity b) (vblk_block_size b)).

Definition get_req (p : Z) : ST (blk (vio A D)) virtio_blk_request := on_vio (load (fun v => x_reqs v !! p)).
Definition upd_req (p : Z) (f : virtio_blk_request -> virtio_blk_request) : ST (blk (vio A D)) unit :=
  on_vio (store (fun v => x ← x_reqs v !! p; Some (set_x_reqs (<[p := f x]> (x_reqs v)) v))).

End objects.

(** The registers are read and written with [mmio_read32] and [mmio_write32];
    [device_step] is what the device does to the shared memory meanwhile.  A
    loop that waits for the device is given up after [patience] turns. *)
Class VirtioDevice (A D : Type) := {
  patience : nat;
  mmio_read32 : Z -> ST (blk (vio A D)) Z;
  mmio_write32 : Z -> Z -> ST (blk (vio A D)) unit;
  device_step : ST (blk (vio A D)) unit
}.
