(* ===== verification/Virtq.v ===== *)
(** Virtqueues, [src/hal/virtio/virtq.c]: a table of descriptors, the free ones
    in a chain through their [next] fields, and the rings of requests offered
    to the device and returned by it.  An index outside a table or ring is a
    fault. *)

From S2P Require Import Prelude ListHead Sync Machine Alloc Blk Virtio.

(** The kernel maps itself one to one. *)
Definition virt_to_phys (va : Z) : Z := va.

Section virtq.
Context {A D : Type} `{KAlloc A}.

(** The members of a new structure; the memory of a new ring is cleared. *)
Definition put_virtq (vq : Z) (q : virtq) : ST (blk (vio A D)) unit :=
  on_vio (modify (fun v => set_x_virtqs (<[vq := q]> (x_virtqs v)) v)).
Definition new_vring (mem num : Z) : ST (blk (vio A D)) unit :=
  let n := Z.to_nat num in
  on_vio (modify (fun v => set_x_rings (<[mem :=
    Vring (replicate n (Desc 0 0 0 0)) (Avail 0 0 (replicate n 0)) (Used 0 0 (replicate n (UsedElem 0 0)))]> (x_rings v)) v)).
Definition free_vring (mem : Z) : ST (blk (vio A D)) unit :=
  do! on_valloc (ka_free mem) in on_vio (modify (fun v => set_x_rings (delete mem (x_rings v)) v)).

Definition virtq_create (regs queue_idx num : Z) : ST (blk (vio A D)) Z :=
  let size := ALIGN_UP (vring_size num) PAGE_SIZE in
  let! mem := on_valloc (ka_alloc size) in
  if mem =? NULL then ret NULL else
  do! new_vring mem num in
  let! vq := on_valloc (ka_alloc sizeof_virtq) in
  if vq =? NULL then do! free_vring mem in ret NULL else
  let avail_offset := 16 * num in
  let used_offset := ALIGN_UP (avail_offset + 2 * (3 + num)) VRING_ALIGN in
  do! put_virtq vq (Virtq regs queue_idx (virt_to_phys mem) (mem + avail_offset) (mem + used_offset) num 0 num 0 0
                      (replicate (Z.to_nat VIRTQ_SIZE) NULL)) in
  do! lock_init (vq_lock vq) in
  do! for_up (Z.to_nat num) 0 (fun i => upd_desc vq i (fun _ => Desc 0 0 VRING_DESC_F_NEXT (u16 (Z.rem (i + 1) num)))) in
  do! upd_desc vq (num - 1) (fun d => set_d_next 0 (set_d_flags 0 d)) in
  do! upd_vring vq (fun r => Some (Vring (vr_descs r) (Avail 0 0 (a_ring (vr_avail r))) (Used 0 0 (us_ring (vr_used r))))) in
  ret vq.

Definition virtq_destroy (vq : Z) : ST (blk (vio A D)) unit :=
  if vq =? NULL then ret tt else
  let! q := get_virtq vq in
  do! free_vring (descs q) in
  do! on_valloc (ka_free vq) in
  on_vio (modify (fun v => set_x_virtqs (delete vq (x_virtqs v)) v)).

Definition virtq_alloc_desc (vq : Z) : ST (blk (vio A D)) Z :=
  let! q := get_virtq vq in
  if num_free q =? 0 then ret (u16 (-1)) else
  let idx := free_head q in
  let! d := get_desc vq idx in
  do! upd_virtq vq (fun q => set_num_free (u16 (num_free q - 1)) (set_free_head (d_next d) q)) in
  ret idx.

Definition virtq_free_desc (vq idx : Z) : ST (blk (vio A D)) unit :=
  let! q := get_virtq vq in
  do! upd_desc vq idx (fun _ => Desc 0 0 VRING_DESC_F_NEXT (free_head q)) in
  upd_virtq vq (fun q => set_num_free (u16 (num_free q + 1)) (set_free_head idx q)).

(** The descriptor after [prev] in a new chain. *)
Definition chain_next (vq prev : Z) : ST (blk (vio A D)) Z :=
  let! next := virtq_alloc_desc vq in
  do! upd_desc vq prev (fun d => set_d_flags (Z.lor (d_flags d) VRING_DESC_F_NEXT) (set_d_next next d)) in
  ret next.

(** The two loops of [virtq_add_buf], from the descriptor [prev] and the
    buffers that are left. *)
Fixpoint add_in (vq prev : Z) (in_bufs : list virtq_buf) (n_out : Z) : ST (blk (vio A D)) Z :=
  match in_bufs with
  | [] => ret prev
  | b :: rest =>
      do! upd_desc vq prev (fun d => set_d_flags 0 (set_d_len (vb_len b) (set_d_addr (virt_to_phys (vb_addr b)) d))) in
      if (0 <? Z.of_nat (length rest)) || (0 <? n_out) then
        let! next := chain_next vq prev in add_in vq next rest n_out
      else add_in vq prev rest n_out
  end.

Fixpoint add_out (vq prev : Z) (out_bufs : list virtq_buf) : ST (blk (vio A D)) Z :=
  match out_bufs with
  | [] => ret prev
  | b :: rest =>
      do! upd_desc vq prev (fun d =>
            set_d_flags VRING_DESC_F_WRITE (set_d_len (vb_len b) (set_d_addr (virt_to_phys (vb_addr b)) d))) in
      if 0 <? Z.of_nat (length rest) then
        let! next := chain_next vq prev in add_out vq next rest
      else add_out vq prev rest
  end.

(** [vq->data[head] = token]. *)
Definition set_token (vq head token : Z) : ST (blk (vio A D)) unit :=
  do! get_token vq head in upd_virtq vq (fun q => set_data (<[Z.to_nat head := token]> (data q)) q).

Definition virtq_add_buf (vq : Z) (in_bufs out_bufs : list virtq_buf) (token : Z) : ST (blk (vio A D)) Z :=
  do! acquire (vq_lock vq) in
  let n_in := Z.of_nat (length in_bufs) in
  let n_out := Z.of_nat (length out_bufs) in
  let! q := get_virtq vq in
  if num_free q <? n_in + n_out then do! release (vq_lock vq) in ret (-1) else
  let! head := virtq_alloc_desc vq in
  do! set_token vq head token in
  let! prev := add_in vq head in_bufs n_out in
  let! prev := add_out vq prev out_bufs in
  do! upd_desc vq prev (fun d => set_d_next 0 (set_d_flags (and_not (d_flags d) VRING_DESC_F_NEXT) d)) in
  let! q := get_virtq vq in
  let i := Z.rem (avail_idx q) (num q) in
  do! upd_vring vq (fun r =>
        let a := vr_avail r in
        if decide (0 <= i < Z.of_nat (length (a_ring a))) then
          Some (Vring (vr_descs r) (Avail (a_flags a) (a_idx a) (<[Z.to_nat i := head]> (a_ring a))) (vr_used r))
        else None) in
  do! upd_virtq vq (fun q => set_avail_idx (u16 (avail_idx q + 1)) q) in
  do! upd_vring vq (fun r =>
        let a := vr_avail r in
        Some (Vring (vr_descs r) (Avail (a_flags a) (u16 (avail_idx q + 1)) (a_ring a)) (vr_used r))) in
  do! release (vq_lock vq) in
  ret head.

(** The loop of [virtq_get_buf] that gives a chain back. *)
Fixpoint free_chain (fuel : nat) (vq head : Z) : ST (blk (vio A D)) Z :=
  match fuel with
  | O => no_fuel
  | S fuel =>
      let! d := get_desc vq head in
      if Z.land (d_flags d) VRING_DESC_F_NEXT =? 0 then ret head else
      let next := d_next d in
      do! virtq_free_desc vq head in
      free_chain fuel vq next
  end.

(** The token and the length the device reports. *)
Definition virtq_get_buf (vq : Z) : ST (blk (vio A D)) (Z * option Z) :=
  do! acquire (vq_lock vq) in
  let! r := get_vring vq in
  let! q := get_virtq vq in
  if used_idx q =? us_idx (vr_used r) then do! release (vq_lock vq) in ret (NULL, None) else
  let idx := Z.rem (used_idx q) (num q) in
  let! e := load (fun _ => us_ring (vr_used r) !! Z.to_nat idx) in
  let head := u16 (u_id e) in
  let! token := get_token vq head in
  do! set_token vq head NULL in
  let! last := free_chain (S (length (vr_descs r))) vq head in
  do! virtq_free_desc vq last in
  do! upd_virtq vq (fun q => set_used_idx (u16 (used_idx q + 1)) q) in
  do! release (vq_lock vq) in
  ret (token, Some (u_len e)).

Definition virtq_has_buf (vq : Z) : ST (blk (vio A D)) bool :=
  let! q := get_virtq vq in
  let! r := get_vring vq in
  ret (negb (used_idx q =? us_idx (vr_used r))).

Definition virtq_kick `{VirtioDevice A D} (vq : Z) : ST (blk (vio A D)) unit :=
  let! r := get_vring vq in
  if negb (Z.land (a_flags (vr_avail r)) 1 =? 0) then ret tt else
  let! q := get_virtq vq in
  mmio_write32 (vq_regs q + 0x50) (queue_idx q).

Definition virtq_desc_count (vq : Z) : ST (blk (vio A D)) Z :=
  do! acquire (vq_lock vq) in
  let! q := get_virtq vq in
  let count := u16 (num q - num_free q) in
  do! release (vq_lock vq) in
  ret count.

End virtq.
