(* ===== verification/VirtqProof.v ===== *)
(** Virtqueues refine a queue of requests: what the driver offers reaches the
    device buffer by buffer, and comes back once. *)

From S2P Require Import Prelude ListHead Sync Machine Alloc Blk Virtio Virtq.

(** ** Rings

    The entries [xs] from position [start] on, around a ring of [n] slots. *)

Definition ring_at {A} (ring : list A) (n start : Z) (xs : list A) : Prop :=
  forall k x, xs !! k = Some x -> ring !! Z.to_nat ((start + Z.of_nat k) mod n) = Some x.

Lemma ring_at_nil {A} (ring : list A) n start : ring_at ring n start [].
Proof. done. Qed.

Lemma ring_at_pop {A} (ring : list A) n start x xs :
  ring_at ring n start (x :: xs) -> ring !! Z.to_nat (start mod n) = Some x /\ ring_at ring n (start + 1) xs.
Proof.
  intros Hr. split.
  - specialize (Hr 0%nat x eq_refl). by rewrite Z.add_0_r in Hr.
  - intros k y Hk. specialize (Hr (S k) y Hk). by replace (start + 1 + Z.of_nat k) with (start + Z.of_nat (S k)) by lia.
Qed.

Lemma ring_at_push {A} (ring : list A) n start xs x :
  0 < n -> Z.of_nat (length ring) = n -> Z.of_nat (length xs) < n -> ring_at ring n start xs ->
  ring_at (<[Z.to_nat ((start + Z.of_nat (length xs)) mod n) := x]> ring) n start (xs ++ [x]).
Proof.
  intros Hn Hlen Hxs Hr k y Hk. pose proof (Z.mod_pos_bound (start + Z.of_nat k) n Hn) as Hb.
  pose proof (Z.mod_pos_bound (start + Z.of_nat (length xs)) n Hn) as Hb'.
  apply lookup_app_Some in Hk as [Hk|[Hk Hy]].
  - pose proof (lookup_lt_Some _ _ _ Hk) as Hlt. rewrite list_lookup_insert_ne; [by apply Hr|]. intros He.
    apply Z2Nat.inj in He; [|lia..].
    assert (exists c, Z.of_nat (length xs) - Z.of_nat k = n * c) as [c Hc].
    { exists ((start + Z.of_nat (length xs)) / n - (start + Z.of_nat k) / n).
      pose proof (Z.div_mod (start + Z.of_nat (length xs)) n ltac:(lia)). pose proof (Z.div_mod (start + Z.of_nat k) n ltac:(lia)). lia. }
    destruct (Z.le_gt_cases c 0); nia.
  - apply list_lookup_singleton_Some in Hy as [Hy <-]. assert (k = length xs) as -> by lia.
    rewrite list_lookup_insert_eq; [done|]. lia.
Qed.

(** The counters of the rings wrap at 2^16, a multiple of the size. *)
Definition queue_size (n : Z) : Prop := 0 < n <= VIRTQ_SIZE /\ (n | 2 ^ 16).

Lemma counter_slot n c : queue_size n -> 0 <= c -> Z.rem (u16 c) n = c mod n.
Proof.
  intros [Hn [m Hm]] Hc. pose proof (wrap_range 16 c ltac:(lia)). rewrite Z.rem_mod_nonneg by lia.
  unfold wrap. rewrite (Z.mul_comm m) in Hm. rewrite Hm, Z.rem_mul_r by nia.
  rewrite Z.mul_comm, Z.mod_add by lia. by rewrite Z.mod_mod by lia.
Qed.

Lemma counter_eq n a b : queue_size n -> 0 <= a -> a <= b <= a + n -> u16 a =? u16 b = (a =? b).
Proof.
  intros [Hn _] Ha Hb. unfold VIRTQ_SIZE in Hn. destruct (Z.eqb_spec a b) as [->|Hne]; [apply Z.eqb_refl|]. apply Z.eqb_neq.
  unfold wrap. intros He. pose proof (Z.div_mod a (2 ^ 16) ltac:(lia)). pose proof (Z.div_mod b (2 ^ 16) ltac:(lia)). nia.
Qed.

Lemma u16_succ c : u16 (u16 c + 1) = u16 (c + 1).
Proof. unfold wrap. by rewrite Zplus_mod_idemp_l. Qed.

(** ** Descriptors *)

(** [fl] are the free descriptors from [h] on. *)
Fixpoint free_list (d : list virtq_desc) (h : Z) (fl : list Z) : Prop :=
  match fl with
  | [] => True
  | i :: fl => h = i /\ exists x, 0 <= i /\ d !! Z.to_nat i = Some x /\ free_list d (d_next x) fl
  end.

(** A buffer of a request: its bytes, and whether the device writes them. *)
Record vbuf := Buffer { b_addr : Z; b_len : Z; b_write : bool }.

Definition buf_flags (b : vbuf) : Z := if b_write b then VRING_DESC_F_WRITE else 0.

(** The descriptors [ids] describe the buffers [bs]. *)
Fixpoint chain_of (d : list virtq_desc) (ids : list Z) (bs : list vbuf) : Prop :=
  match ids, bs with
  | [i], [b] => 0 <= i /\ d !! Z.to_nat i = Some (Desc (b_addr b) (b_len b) (buf_flags b) 0)
  | i :: ((j :: _) as ids), b :: bs =>
      0 <= i /\ d !! Z.to_nat i = Some (Desc (b_addr b) (b_len b) (buf_flags b + VRING_DESC_F_NEXT) j) /\ chain_of d ids bs
  | _, _ => False
  end.

Definition same_at (d d' : list virtq_desc) (ids : list Z) : Prop :=
  forall i, i ∈ ids -> 0 <= i -> d' !! Z.to_nat i = d !! Z.to_nat i.

Lemma free_list_frame d d' fl : forall h, free_list d h fl -> same_at d d' fl -> free_list d' h fl.
Proof.
  induction fl as [|i fl IH]; intros h; [done|]. intros (-> & x & Hi & Hx & Hf) Hs. split; [done|].
  exists x. split; [done|]. rewrite Hs by (done || left). split; [done|]. apply IH; [done|]. intros j Hj. apply Hs. by right.
Qed.

Lemma chain_of_frame d d' ids : forall bs, chain_of d ids bs -> same_at d d' ids -> chain_of d' ids bs.
Proof.
  induction ids as [|i [|j ids] IH]; intros [|b bs]; try done.
  - destruct bs; [|done]. intros [Hi Hd] Hs. split; [done|]. rewrite Hs; [done|left|done].
  - intros (Hi & Hd & Hc) Hs. split; [done|]. split; [rewrite Hs; [done|left|done]|].
    apply IH; [done|]. intros k Hk. apply Hs. by right.
Qed.

Lemma chain_of_length d ids : forall bs, chain_of d ids bs -> length ids = length bs /\ ids <> [].
Proof.
  induction ids as [|i [|j ids] IH]; intros [|b bs]; try done.
  - by destruct bs.
  - intros (_ & _ & Hc). destruct (IH _ Hc) as [IHl _]. split; [cbn in *; lia|done].
Qed.

Lemma chain_of_nonneg d ids : forall bs, chain_of d ids bs -> forall i, i ∈ ids -> 0 <= i.
Proof.
  induction ids as [|i [|j ids] IH]; intros [|b bs]; try done.
  - destruct bs; [|done]. intros [Hi _] k ->%list_elem_of_singleton. done.
  - intros (Hi & _ & Hc) k [->|Hk]%elem_of_cons; [done|]. by apply (IH _ Hc).
Qed.

Lemma free_list_nonneg d fl : forall h, free_list d h fl -> forall i, i ∈ fl -> 0 <= i.
Proof.
  induction fl as [|j fl IH]; intros h; [set_solver|]. intros (-> & x & Hj & _ & Hf) i [->|Hi]%elem_of_cons; [done|]. by eapply IH.
Qed.

Lemma same_at_insert d i x ids : 0 <= i -> i ∉ ids -> same_at d (<[Z.to_nat i := x]> d) ids.
Proof.
  intros Hi Hn j Hj Hj0. rewrite list_lookup_insert_ne; [done|]. intros He%Z2Nat.inj; [|done..]. subst. done.
Qed.

(** ** One virtqueue and its ring *)

Section focus.
Context {A D : Type} `{KAlloc A}.
Implicit Types s : blk (vio A D).

(** The state with the virtqueue [vq] replaced. *)
Definition put (vq : Z) (q : virtq) (r : vring) s : blk (vio A D) :=
  set_k_env (set_x_rings (<[descs q := r]> (x_rings (k_env s))) (set_x_virtqs (<[vq := q]> (x_virtqs (k_env s))) (k_env s))) s.

Definition at_vq (vq : Z) (q : virtq) (r : vring) s : Prop :=
  x_virtqs (k_env s) !! vq = Some q /\ x_rings (k_env s) !! descs q = Some r.

Lemma put_id vq q r s : at_vq vq q r s -> put vq q r s = s.
Proof. intros [H1 H2]. destruct s as [????????[]]; cbn in *. by rewrite !insert_id. Qed.

Lemma put_put vq q r q' r' s : descs q' = descs q -> put vq q' r' (put vq q r s) = put vq q' r' s.
Proof. intros He. destruct s as [????????[]]; unfold put; cbn. by rewrite He, !insert_insert_eq. Qed.

Lemma at_put vq q r s : at_vq vq q r (put vq q r s).
Proof. destruct s as [????????[]]. split; apply lookup_insert_eq. Qed.

Lemma get_virtq_run vq q r s : get_virtq vq (put vq q r s) = Ok (q, put vq q r s).
Proof. destruct s as [????????[]]. unfold get_virtq, on_vio, lift, load, put. cbn. by rewrite lookup_insert_eq. Qed.

Lemma get_vring_run vq q r s : get_vring vq (put vq q r s) = Ok (r, put vq q r s).
Proof.
  unfold get_vring. rewrite (bind_Ok _ _ _ _ _ (get_virtq_run _ _ _ _)). destruct s as [????????[]].
  unfold on_vio, lift, load, put. cbn. by rewrite lookup_insert_eq.
Qed.

Lemma upd_virtq_run vq f q r s :
  descs (f q) = descs q -> upd_virtq vq f (put vq q r s) = Ok (tt, put vq (f q) r s).
Proof.
  intros He. destruct s as [????????[]]. unfold upd_virtq, on_vio, lift, store, put. cbn. rewrite lookup_insert_eq. cbn.
  by rewrite He, insert_insert_eq.
Qed.

Lemma upd_vring_run vq f q r r' s : f r = Some r' -> upd_vring vq f (put vq q r s) = Ok (tt, put vq q r' s).
Proof.
  intros Hf. unfold upd_vring. rewrite (bind_Ok _ _ _ _ _ (get_virtq_run _ _ _ _)). destruct s as [????????[]].
  unfold on_vio, lift, store, put. cbn. rewrite lookup_insert_eq. cbn. rewrite Hf. cbn. by rewrite insert_insert_eq.
Qed.

(** The descriptor table replaced. *)
Definition with_descs (d : list virtq_desc) (r : vring) : vring := Vring d (vr_avail r) (vr_used r).

Lemma with_descs_id r : with_descs (vr_descs r) r = r.
Proof. by destruct r. Qed.

Lemma get_desc_run vq i d x q r s :
  0 <= i -> d !! Z.to_nat i = Some x -> get_desc vq i (put vq q (with_descs d r) s) = Ok (x, put vq q (with_descs d r) s).
Proof.
  intros Hi Hx. unfold get_desc. rewrite (bind_Ok _ _ _ _ _ (get_vring_run _ _ _ _)). unfold load.
  destruct (Z.ltb_spec i 0); [lia|]. cbn. by rewrite Hx.
Qed.

Lemma upd_desc_run vq i f d x q r s :
  0 <= i -> d !! Z.to_nat i = Some x ->
  upd_desc vq i f (put vq q (with_descs d r) s) = Ok (tt, put vq q (with_descs (<[Z.to_nat i := f x]> d) r) s).
Proof.
  intros Hi Hx. unfold upd_desc. apply upd_vring_run. destruct (Z.ltb_spec i 0); [lia|]. cbn. by rewrite Hx.
Qed.

Lemma set_token_run vq head token t q r s :
  0 <= head -> data q !! Z.to_nat head = Some t ->
  set_token vq head token (put vq q r s) = Ok (tt, put vq (set_data (<[Z.to_nat head := token]> (data q)) q) r s).
Proof.
  intros Hh Ht. unfold set_token, get_token. rewrite bind_assoc.
  rewrite (bind_Ok _ _ _ _ _ (get_virtq_run _ _ _ _)). unfold load, bind at 1. destruct (Z.ltb_spec head 0); [lia|].
  rewrite Ht. by rewrite upd_virtq_run by by destruct q.
Qed.

(** ** Taking descriptors and giving them back *)

Lemma alloc_desc_run vq i fl d q r s :
  free_list d (free_head q) (i :: fl) -> num_free q = Z.of_nat (S (length fl)) -> Z.of_nat (length fl) < 2 ^ 16 ->
  exists nx, virtq_alloc_desc vq (put vq q (with_descs d r) s) =
      Ok (i, put vq (set_num_free (Z.of_nat (length fl)) (set_free_head nx q)) (with_descs d r) s) /\ free_list d nx fl.
Proof.
  intros (Hh & x & Hi & Hx & Hf) Hn Hlt. exists (d_next x). split; [|done]. unfold virtq_alloc_desc.
  rewrite (bind_Ok _ _ _ _ _ (get_virtq_run _ _ _ _)). destruct (Z.eqb_spec (num_free q) 0); [lia|]. rewrite Hh.
  rewrite (bind_Ok _ _ _ _ _ (get_desc_run _ _ _ _ _ _ _ Hi Hx)).
  erewrite bind_Ok by (apply upd_virtq_run; by destruct q). cbv beta. rewrite Hn. unfold ret.
  replace (Z.of_nat (S (length fl)) - 1) with (Z.of_nat (length fl)) by lia. by rewrite wrap_small by (split; lia).
Qed.

Lemma free_desc_run vq i fl d x q r s :
  0 <= i -> d !! Z.to_nat i = Some x -> i ∉ fl -> free_list d (free_head q) fl -> num_free q = Z.of_nat (length fl) ->
  Z.of_nat (S (length fl)) < 2 ^ 16 ->
  let d' := <[Z.to_nat i := Desc 0 0 VRING_DESC_F_NEXT (free_head q)]> d in
  let q' := set_num_free (Z.of_nat (S (length fl))) (set_free_head i q) in
  virtq_free_desc vq i (put vq q (with_descs d r) s) = Ok (tt, put vq q' (with_descs d' r) s) /\
  free_list d' i (i :: fl).
Proof.
  intros Hi Hx Hn Hf Hnf Hlt d' q'. split.
  - unfold virtq_free_desc. rewrite (bind_Ok _ _ _ _ _ (get_virtq_run _ _ _ _)).
    rewrite (bind_Ok _ _ _ _ _ (upd_desc_run _ _ _ _ _ _ _ _ Hi Hx)).
    rewrite upd_virtq_run by by destruct q. cbv beta. subst q' d'. rewrite Hnf.
    replace (Z.of_nat (length fl) + 1) with (Z.of_nat (S (length fl))) by lia. by rewrite wrap_small by (split; lia).
  - split; [done|]. eexists. split; [done|]. split; [apply list_lookup_insert_eq; by eapply lookup_lt_Some|].
    eapply free_list_frame; [exact Hf|]. by apply same_at_insert.
Qed.

(** The two loops of [virtq_add_buf] are one loop over all buffers. *)
Definition view (in_bufs out_bufs : list virtq_buf) : list vbuf :=
  map (fun b => Buffer (vb_addr b) (vb_len b) false) in_bufs ++ map (fun b => Buffer (vb_addr b) (vb_len b) true) out_bufs.

Definition write_buf (b : vbuf) (d : virtq_desc) : virtq_desc :=
  set_d_flags (buf_flags b) (set_d_len (b_len b) (set_d_addr (b_addr b) d)).

Definition close (d : virtq_desc) : virtq_desc := set_d_next 0 (set_d_flags (and_not (d_flags d) VRING_DESC_F_NEXT) d).

Fixpoint write_all (vq prev : Z) (bs : list vbuf) : ST (blk (vio A D)) unit :=
  match bs with
  | [] => upd_desc vq prev close
  | b :: rest =>
      do! upd_desc vq prev (write_buf b) in
      match rest with
      | [] => upd_desc vq prev close
      | _ => let! next := chain_next vq prev in write_all vq next rest
      end
  end.

Lemma loops_out vq outs : forall prev s,
  (let! p := add_out vq prev outs in upd_desc vq p close) s =
  write_all vq prev (map (fun b => Buffer (vb_addr b) (vb_len b) true) outs) s.
Proof.
  induction outs as [|b outs IH]; intros prev s; [done|]. cbn [add_out map write_all]. rewrite bind_assoc. apply bind_ext.
  intros [] s1. destruct outs as [|b' outs]; [apply IH|].
  destruct (Z.ltb_spec 0 (Z.of_nat (length (b' :: outs)))); [|cbn in *; lia].
  cbn [map]. rewrite bind_assoc. apply bind_ext. intros next s2. apply IH.
Qed.

Lemma loops_all vq ins outs : forall prev s,
  (let! p := add_in vq prev ins (Z.of_nat (length outs)) in let! p := add_out vq p outs in upd_desc vq p close) s =
  write_all vq prev (view ins outs) s.
Proof.
  induction ins as [|b ins IH]; intros prev s; [apply loops_out|]. cbn [add_in view map app write_all]. rewrite bind_assoc. apply bind_ext.
  intros [] s1. destruct ins as [|b' ins], outs as [|c outs]; cbn [map app].
  - apply IH.
  - destruct (Z.ltb_spec 0 (Z.of_nat (length (c :: outs)))); [|cbn in *; lia]. rewrite orb_true_r, bind_assoc. apply bind_ext.
    intros next s2. apply IH.
  - destruct (Z.ltb_spec 0 (Z.of_nat (length (b' :: ins)))); [|cbn in *; lia]. cbn [orb]. rewrite bind_assoc. apply bind_ext.
    intros next s2. apply IH.
  - destruct (Z.ltb_spec 0 (Z.of_nat (length (b' :: ins)))); [|cbn in *; lia]. cbn [orb]. rewrite bind_assoc. apply bind_ext.
    intros next s2. apply IH.
Qed.

Lemma close_write b x : close (write_buf b x) = Desc (b_addr b) (b_len b) (buf_flags b) 0.
Proof. unfold close, write_buf, buf_flags. by destruct x, (b_write b). Qed.

Lemma link_write b x i :
  set_d_flags (Z.lor (d_flags (write_buf b x)) VRING_DESC_F_NEXT) (set_d_next i (write_buf b x)) =
  Desc (b_addr b) (b_len b) (buf_flags b + VRING_DESC_F_NEXT) i.
Proof. unfold write_buf, buf_flags. by destruct x, (b_write b). Qed.

Definition refree (q : virtq) (n h : Z) : virtq := set_num_free n (set_free_head h q).

Lemma refree_refree q n h n' h' : refree (refree q n h) n' h' = refree q n' h'.
Proof. by destruct q. Qed.

Lemma write_all_run vq bs : forall b prev fl d q r s,
  free_list d (free_head q) fl -> num_free q = Z.of_nat (length fl) -> Z.of_nat (length fl) < 2 ^ 16 ->
  0 <= prev -> is_Some (d !! Z.to_nat prev) -> prev ∉ fl -> NoDup fl -> (length bs <= length fl)%nat ->
  exists d' h, write_all vq prev (b :: bs) (put vq q (with_descs d r) s) =
      Ok (tt, put vq (refree q (Z.of_nat (length (drop (length bs) fl))) h) (with_descs d' r) s) /\
    chain_of d' (prev :: take (length bs) fl) (b :: bs) /\ free_list d' h (drop (length bs) fl) /\ length d' = length d /\
    (forall ids, prev ∉ ids -> (forall i, i ∈ take (length bs) fl -> i ∉ ids) -> same_at d d' ids).
Proof.
  induction bs as [|b2 bs IH]; intros b prev fl d q r s Hf Hn Hlt Hp [x Hx] Hnp Hnd Hlen.
  - cbn [length firstn skipn write_all]. pose proof (lookup_lt_Some _ _ _ Hx) as Hb. eexists (<[Z.to_nat prev := _]> d), (free_head q).
    rewrite (bind_Ok _ _ _ _ _ (upd_desc_run _ _ _ _ _ _ _ _ Hp Hx)).
    erewrite upd_desc_run by (done || by apply list_lookup_insert_eq). rewrite list_insert_insert_eq, close_write.
    split; [|split; [|split; [|split]]].
    + rewrite drop_0, <- Hn. unfold refree. by destruct q.
    + split; [done|]. by apply list_lookup_insert_eq.
    + eapply free_list_frame; [exact Hf|]. by apply same_at_insert.
    + by rewrite length_insert.
    + intros ids Hids _. by apply same_at_insert.
  - destruct fl as [|i fl]; [cbn in Hlen; lia|]. cbn [length firstn skipn]. cbn [write_all].
    pose proof (lookup_lt_Some _ _ _ Hx) as Hb. apply NoDup_cons in Hnd as [Hni Hnd].
    rewrite (bind_Ok _ _ _ _ _ (upd_desc_run _ _ _ _ _ _ _ _ Hp Hx)).
    assert (free_list (<[Z.to_nat prev := write_buf b x]> d) (free_head q) (i :: fl)) as Hf1.
    { eapply free_list_frame; [exact Hf|]. by apply same_at_insert. }
    destruct (alloc_desc_run vq i fl _ q r s Hf1 Hn ltac:(cbn in Hlt; lia)) as (nx & Ha & Hf2).
    unfold chain_next. rewrite bind_assoc. rewrite (bind_Ok _ _ _ _ _ Ha), bind_assoc.
    erewrite bind_Ok by (apply upd_desc_run; [done|by apply list_lookup_insert_eq]). rewrite list_insert_insert_eq, link_write.
    unfold bind at 1, ret at 1.
    set (d2 := <[Z.to_nat prev := _]> d). assert (i <> prev) as Hip by (intros ->; apply Hnp; left).
    assert (0 <= i) as Hi0. { eapply free_list_nonneg; [exact Hf|left]. }
    assert (same_at (<[Z.to_nat prev := write_buf b x]> d) d2 fl) as Hs12.
    { intros j Hj Hj0. subst d2. rewrite !list_lookup_insert_ne; [done|..]; intros He%Z2Nat.inj; try done; subst; apply Hnp; by right. }
    destruct Hf as (_ & xi & _ & Hxi & _).
    edestruct (IH b2 i fl d2 (refree q (Z.of_nat (length fl)) nx) r s) as (d' & h & Hrun & Hc & Hf' & Hl' & Hs').
    { replace (free_head (refree q (Z.of_nat (length fl)) nx)) with nx by by destruct q. by eapply free_list_frame. }
    { by destruct q. } { cbn in Hlt; lia. } { done. }
    { subst d2. rewrite list_lookup_insert_ne by (intros He%Z2Nat.inj; [|done..]; congruence). by eexists. }
    { done. } { done. } { cbn in Hlen; lia. }
    exists d', h. split; [|split; [|split; [exact Hf'|split]]].
    + etransitivity; [exact Hrun|]. by rewrite refree_refree.
    + cbn [chain_of]. split; [done|]. split; [|exact Hc]. rewrite (Hs' [prev]); [subst d2; by apply list_lookup_insert_eq|set_solver| |left|done].
      intros j Hj%elem_of_take Hjp. destruct Hj as (k & Hk & _). apply list_elem_of_singleton in Hjp as ->. apply Hnp. right.
      by eapply list_elem_of_lookup_2.
    + rewrite Hl'. subst d2. by rewrite length_insert.
    + intros ids Hids Htk j Hj Hj0. rewrite (Hs' ids); [|apply Htk; left|intros k Hk; apply Htk; by right|done|done].
      subst d2. rewrite list_lookup_insert_ne; [done|]. intros He%Z2Nat.inj; [|done..]. by subst.
Qed.

(** A chain given back: its descriptors are free again, in reverse order. *)
Lemma free_chain_run vq ids : forall fuel i bs fl d q r s,
  chain_of d (i :: ids) bs -> NoDup (i :: ids) -> (forall j, j ∈ i :: ids -> j ∉ fl) ->
  free_list d (free_head q) fl -> num_free q = Z.of_nat (length fl) -> Z.of_nat (length fl + length (i :: ids)) < 2 ^ 16 ->
  (length ids < fuel)%nat ->
  exists d' h, (let! last := free_chain fuel vq i in virtq_free_desc vq last) (put vq q (with_descs d r) s) =
      Ok (tt, put vq (refree q (Z.of_nat (length (rev (i :: ids) ++ fl))) h) (with_descs d' r) s) /\
    free_list d' h (rev (i :: ids) ++ fl) /\ length d' = length d /\
    (forall js, (forall j, j ∈ i :: ids -> j ∉ js) -> same_at d d' js).
Proof.
  induction ids as [|i2 ids IH]; intros fuel i bs fl d q r s Hc Hnd Hdis Hf Hn Hlt Hfuel; (destruct fuel as [|fuel]; [lia|]);
    cbn [free_chain]; destruct bs as [|b bs]; try done.
  - destruct bs; [|done]. destruct Hc as [Hi Hx]. rewrite bind_assoc, (bind_Ok _ _ _ _ _ (get_desc_run _ _ _ _ _ _ _ Hi Hx)).
    cbn [d_flags]. replace (Z.land (buf_flags b) VRING_DESC_F_NEXT) with 0 by (unfold buf_flags; by destruct (b_write b)).
    cbn [Z.eqb]. unfold bind at 1, ret at 1. cbn [rev app].
    edestruct (free_desc_run vq i fl d) as [Hr Hfr]; [done|exact Hx|apply Hdis; left|exact Hf|exact Hn|cbn in Hlt; lia|].
    eexists _, _. split; [exact Hr|]. split; [exact Hfr|]. split; [by rewrite length_insert|]. intros js Hjs. apply same_at_insert; [done|]. apply Hjs. left.
  - destruct Hc as (Hi & Hx & Hc). rewrite bind_assoc, (bind_Ok _ _ _ _ _ (get_desc_run _ _ _ _ _ _ _ Hi Hx)).
    cbn [d_flags d_next]. replace (Z.land (buf_flags b + VRING_DESC_F_NEXT) VRING_DESC_F_NEXT) with 1 by (unfold buf_flags; by destruct (b_write b)).
    cbn [Z.eqb]. rewrite bind_assoc. apply NoDup_cons in Hnd as [Hni Hnd].
    edestruct (free_desc_run vq i fl d) as [Hr Hfr]; [done|exact Hx|apply Hdis; left|exact Hf|exact Hn|cbn in Hlt; lia|].
    rewrite (bind_Ok _ _ _ _ _ Hr).
    edestruct (IH fuel i2 bs (i :: fl)) as (d' & h & Hrun & Hf' & Hl' & Hs').
    { eapply chain_of_frame; [exact Hc|]. by apply same_at_insert. } { done. }
    { intros j Hj [->|Hin]%elem_of_cons; [done|]. eapply Hdis; [right; exact Hj|done]. }
    { instantiate (1 := set_num_free (Z.of_nat (S (length fl))) (set_free_head i q)). by destruct q. } { by destruct q. } { cbn in *. lia. } { cbn in Hfuel. lia. }
    exists d', h. cbn [rev] in *. rewrite <- !app_assoc in *. cbn [app] in *.
    split; [|split; [exact Hf'|split]].
    + etransitivity; [exact Hrun|]. by destruct q.
    + rewrite Hl'. by rewrite length_insert.
    + intros js Hjs j Hj Hj0. rewrite (Hs' js); [|intros k Hk; apply Hjs; by right|done|done].
      rewrite list_lookup_insert_ne; [done|]. intros He%Z2Nat.inj; [|done..]. subst. eapply Hjs; [left|done].
Qed.

End focus.
