(* ===== verification/VirtqTop.v ===== *)
(** Virtqueues between the driver and the device: sessions of both sides, and
    the machine they implement. *)

From S2P Require Import Prelude ListHead Sync Machine Alloc Blk Virtio Virtq VirtqProof.

(** ** The abstract machine

    A request is offered, then being served, then returned with a length; it
    is known by the number of its first descriptor. *)

Record req := Req { rq_head : Z; rq_token : Z; rq_bufs : list vbuf }.

Record vspec := VSpec { offered : list req; busy : list req; returned : list (req * Z) }.

Definition all (a : vspec) : list req := offered a ++ busy a ++ map fst (returned a).

Definition room (n : Z) (a : vspec) : Z := n - foldr (fun x k => Z.of_nat (length (rq_bufs x)) + k) 0 (all a).

(** What the driver does with a virtqueue, and the device. *)
Inductive vq_event : Type :=
  | Add (in_bufs out_bufs : list virtq_buf) (token : Z)
  | Get
  | Has
  | Count
  | Fetch                       (* the device takes the next request *)
  | Complete (head len : Z).    (* the device returns one *)

Inductive vq_out : Type :=
  | OInt (z : Z)
  | OBool (b : bool)
  | OGot (token : Z) (len : option Z)
  | OFetched (x : option (Z * list vbuf))
  | ONone.

Inductive vq_step (n : Z) : vspec -> vq_event -> vq_out -> vspec -> Prop :=
  | AddFull a ins outs t :
      room n a < Z.of_nat (length (view ins outs)) -> vq_step n a (Add ins outs t) (OInt (-1)) a
  | AddOk h o b r ins outs t :
      Z.of_nat (length (view ins outs)) <= room n (VSpec o b r) -> 0 <= h < n -> h ∉ map rq_head (all (VSpec o b r)) ->
      vq_step n (VSpec o b r) (Add ins outs t) (OInt h) (VSpec (o ++ [Req h t (view ins outs)]) b r)
  | GetNone o b : vq_step n (VSpec o b []) Get (OGot NULL None) (VSpec o b [])
  | GetOk o b x l r : vq_step n (VSpec o b ((x, l) :: r)) Get (OGot (rq_token x) (Some l)) (VSpec o b r)
  | HasStep a : vq_step n a Has (OBool (bool_decide (returned a <> []))) a
  | CountStep a : vq_step n a Count (OInt (n - room n a)) a
  | FetchNone b r : vq_step n (VSpec [] b r) Fetch (OFetched None) (VSpec [] b r)
  | FetchOk x o b r : vq_step n (VSpec (x :: o) b r) Fetch (OFetched (Some (rq_head x, rq_bufs x))) (VSpec o (b ++ [x]) r)
  | CompleteOk o b1 x b2 r l :
      vq_step n (VSpec o (b1 ++ x :: b2) r) (Complete (rq_head x) l) ONone (VSpec o (b1 ++ b2) (r ++ [(x, l)])).

(** A request has a buffer, and the device returns what it took. *)
Definition allowed (a : vspec) (e : vq_event) : Prop :=
  match e with
  | Add ins outs _ => view ins outs <> []
  | Complete h _ => h ∈ map rq_head (busy a)
  | _ => True
  end.

(** ** The code of both sides *)

Section events.
Context {A D : Type} `{KAlloc A}.

(** The device follows the chain from descriptor [i]. *)
Fixpoint read_chain (fuel : nat) (d : list virtq_desc) (i : Z) : option (list vbuf) :=
  match fuel with
  | O => None
  | S fuel =>
      x ← d !! Z.to_nat i;
      let b := Buffer (d_addr x) (d_len x) (Z.testbit (d_flags x) 1) in
      if Z.testbit (d_flags x) 0 then rest ← read_chain fuel d (d_next x); Some (b :: rest) else Some [b]
  end.

(** The counter [seen] of the device is private to it. *)
Definition device_fetch (vq seen : Z) : ST (blk (vio A D)) (Z * vq_out) :=
  let! q := get_virtq vq in
  let! r := get_vring vq in
  if seen =? a_idx (vr_avail r) then ret (seen, OFetched None) else
  let! h := load (fun _ => a_ring (vr_avail r) !! Z.to_nat (Z.rem seen (num q))) in
  let! bs := load (fun _ => read_chain (S (length (vr_descs r))) (vr_descs r) h) in
  ret (u16 (seen + 1), OFetched (Some (h, bs))).

Definition device_complete (vq head len : Z) : ST (blk (vio A D)) unit :=
  let! q := get_virtq vq in
  upd_vring vq (fun r =>
    let u := vr_used r in
    let i := Z.to_nat (Z.rem (us_idx u) (num q)) in
    _ ← us_ring u !! i;
    Some (Vring (vr_descs r) (vr_avail r) (Used (us_flags u) (u16 (us_idx u + 1)) (<[i := UsedElem head len]> (us_ring u))))).

Definition run_vq (vq seen : Z) (e : vq_event) : ST (blk (vio A D)) (Z * vq_out) :=
  match e with
  | Add ins outs t => let! h := virtq_add_buf vq ins outs t in ret (seen, OInt h)
  | Get => let! x := virtq_get_buf vq in ret (seen, OGot x.1 x.2)
  | Has => let! b := virtq_has_buf vq in ret (seen, OBool b)
  | Count => let! n := virtq_desc_count vq in ret (seen, OInt n)
  | Fetch => device_fetch vq seen
  | Complete h l => do! device_complete vq h l in ret (seen, ONone)
  end.

(** Every event the machine allows runs, and what it shows is a step of the
    machine. *)
Fixpoint conforms (n vq seen : Z) (a : vspec) (es : list vq_event) (s : blk (vio A D)) : Prop :=
  match es with
  | [] => True
  | e :: es =>
      allowed a e ->
      wp False (run_vq vq seen e) (fun x s' => exists a', vq_step n a e x.2 a' /\ conforms n vq x.1 a' es s') s
  end.

End events.

(** ** The representation *)

(** [ids] gives the other descriptors of the request at a head. *)
Definition whole (ids : Z -> list Z) (x : req) : list Z := rq_head x :: ids (rq_head x).

Record vrep (n : Z) (q : virtq) (r : vring) (seen : Z) (a : vspec) (ids : Z -> list Z) (fl : list Z) (S G : Z) : Prop := {
  v_size : queue_size n;
  v_num : num q = n;
  v_free : free_list (vr_descs r) (free_head q) fl;
  v_num_free : num_free q = Z.of_nat (length fl);
  v_len : Z.of_nat (length (vr_descs r)) = n /\ Z.of_nat (length (a_ring (vr_avail r))) = n /\
    Z.of_nat (length (us_ring (vr_used r))) = n /\ Z.of_nat (length (data q)) = VIRTQ_SIZE;
  v_perm : fl ++ flat_map (whole ids) (all a) ≡ₚ seqZ 0 n;
  v_chain x : x ∈ all a -> chain_of (vr_descs r) (whole ids x) (rq_bufs x);
  v_data x : x ∈ all a -> data q !! Z.to_nat (rq_head x) = Some (rq_token x);
  v_count : 0 <= S /\ 0 <= G;
  v_avail : avail_idx q = u16 (S + Z.of_nat (length (offered a))) /\
    a_idx (vr_avail r) = u16 (S + Z.of_nat (length (offered a))) /\ seen = u16 S /\
    ring_at (a_ring (vr_avail r)) n S (map rq_head (offered a));
  v_used : us_idx (vr_used r) = u16 (G + Z.of_nat (length (returned a))) /\ used_idx q = u16 G /\
    ring_at (us_ring (vr_used r)) n G (map (fun y => UsedElem (rq_head y.1) y.2) (returned a))
}.

Section rep.
Context {n : Z} {q : virtq} {r : vring} {seen : Z} {a : vspec} {ids : Z -> list Z} {fl : list Z} {S G : Z}.
Context (HR : vrep n q r seen a ids fl S G).

Lemma rep_nodup : NoDup (fl ++ flat_map (whole ids) (all a)).
Proof. rewrite (v_perm _ _ _ _ _ _ _ _ _ HR). apply NoDup_seqZ. Qed.

Lemma rep_in i : i ∈ fl \/ (exists x, x ∈ all a /\ i ∈ whole ids x) -> 0 <= i < n.
Proof.
  intros Hi. assert (i ∈ seqZ 0 n) as Hin; [|apply elem_of_seqZ in Hin; lia].
  rewrite <- (v_perm _ _ _ _ _ _ _ _ _ HR), elem_of_app. destruct Hi as [Hi|(x & Hx & Hi)]; [by left|right].
  rewrite list_elem_of_In, in_flat_map. exists x. by rewrite <- !list_elem_of_In.
Qed.

Lemma rep_length :
  n = Z.of_nat (length fl) + foldr (fun x k => Z.of_nat (length (rq_bufs x)) + k) 0 (all a) /\
  Z.of_nat (length (all a)) + Z.of_nat (length fl) <= n.
Proof.
  pose proof (v_size _ _ _ _ _ _ _ _ _ HR) as [Hn _].
  assert (Z.of_nat (length (fl ++ flat_map (whole ids) (all a))) = n) as Hl.
  { rewrite (Permutation_length (v_perm _ _ _ _ _ _ _ _ _ HR)), length_seqZ. lia. }
  assert (forall l, (forall x, x ∈ l -> chain_of (vr_descs r) (whole ids x) (rq_bufs x)) ->
    Z.of_nat (length (flat_map (whole ids) l)) = foldr (fun x k => Z.of_nat (length (rq_bufs x)) + k) 0 l /\
    (length l <= length (flat_map (whole ids) l))%nat) as Hf.
  { induction l as [|x l IH]; intros Hc; [done|]. destruct IH as [IH1 IH2]; [intros; apply Hc; by right|].
    destruct (chain_of_length _ _ _ (Hc x ltac:(left))) as [Hx _]. cbn [flat_map foldr length]. rewrite length_app.
    unfold whole in *. cbn [length] in *. lia. }
  destruct (Hf (all a) (v_chain _ _ _ _ _ _ _ _ _ HR)) as [H1 H2]. rewrite length_app in Hl. lia.
Qed.

Lemma rep_room : room n a = Z.of_nat (length fl).
Proof. unfold room. destruct rep_length as [H1 _]. lia. Qed.

Lemma rep_heads : NoDup (map rq_head (all a)).
Proof.
  pose proof rep_nodup as Hnd. apply NoDup_app in Hnd as (_ & _ & Hnd). revert Hnd. generalize (all a).
  induction l as [|x l IH]; intros Hnd; cbn in *; [constructor|]. apply NoDup_cons in Hnd as [Hx Hnd].
  apply NoDup_app in Hnd as (_ & _ & Hnd). apply NoDup_cons. split; [|auto].
  intros (y & Hy & Hin)%list_elem_of_fmap. apply Hx. rewrite elem_of_app. right.
  rewrite list_elem_of_In, in_flat_map. exists y. rewrite <- list_elem_of_In. split; [done|]. rewrite Hy. by left.
Qed.

(** The offered and the returned requests fit in the rings. *)
Lemma rep_fit : Z.of_nat (length (offered a)) + Z.of_nat (length fl) <= n /\ Z.of_nat (length (returned a)) <= n.
Proof.
  destruct rep_length as [_ Hl]. unfold all in Hl. rewrite !length_app, length_map in Hl. lia.
Qed.

(** A free descriptor is not in use. *)
Lemma free_not_used i x : i ∈ fl -> x ∈ all a -> i ∉ whole ids x.
Proof.
  intros Hi Hx Hw. pose proof rep_nodup as Hnd. apply NoDup_app in Hnd as (_ & Hd & _). apply (Hd i Hi).
  rewrite list_elem_of_In, in_flat_map. exists x. by rewrite <- !list_elem_of_In.
Qed.

End rep.

(** ** The simulation *)

Section simulation.
Context {A D : Type} `{KAlloc A}.
Implicit Types s : blk (vio A D).

Definition sim (st n vq seen : Z) (a : vspec) s : Prop :=
  exists q r ids fl S G, at_vq vq q r s /\ locks st ∅ s /\ vrep n q r seen a ids fl S G.

Lemma put_hart vq q r h s : set_k_hart h (put vq q r s) = put vq q r (set_k_hart h s).
Proof. by destruct s as [????????[]]. Qed.

(** A critical section on the lock of the virtqueue, around code that changes
    the virtqueue only. *)
Lemma locked {B} st vq q r s (m : ST (blk (vio A D)) B) (Q : B -> blk (vio A D) -> Prop) :
  at_vq vq q r s -> locks st ∅ s ->
  (forall h, hart_ok (k_cpu s) st {[vq_lock vq]} h -> wp False m Q (put vq q r (set_k_hart h s))) ->
  wp False (do! acquire (vq_lock vq) in m) Q s.
Proof.
  intros Ha Hl Hm. rewrite <- (put_id vq q r s Ha). eapply wp_enter.
  { rewrite (put_id vq q r s Ha). exact Hl. }
  intros h Hh. replace (set_hart h (put vq q r s)) with (put vq q r (set_k_hart h s)) by by rewrite <- put_hart.
  apply Hm. by destruct s as [????????[]].
Qed.

Lemma unlocked {B} st vq q r h s (v : B) (Q : B -> blk (vio A D) -> Prop) :
  hart_ok (k_cpu s) st {[vq_lock vq]} h ->
  (forall s', at_vq vq q r s' -> locks st ∅ s' -> Q v s') ->
  wp False (do! release (vq_lock vq) in ret v) Q (put vq q r (set_k_hart h s)).
Proof.
  intros Hh HQ. rewrite <- put_hart. eapply wp_leave; [destruct s as [????????[]]; exact Hh|].
  intros h1 Hh1. apply wp_ret. change (set_hart h1 _) with (set_k_hart h1 (set_k_hart h (put vq q r s))).
  replace (set_k_hart h1 _) with (put vq q r (set_k_hart h1 s)) by by destruct s as [????????[]].
  apply HQ; [apply at_put|]. destruct s as [????????[]]. exact Hh1.
Qed.

(** The two loops and the end of [virtq_add_buf]'s chain. *)
Lemma loops_run {B} vq head ins outs (k : ST (blk (vio A D)) B) s s' :
  write_all vq head (view ins outs) s = Ok (tt, s') ->
  (let! prev := add_in vq head ins (Z.of_nat (length outs)) in
   let! prev := add_out vq prev outs in
   do! upd_desc vq prev close in k) s = k s'.
Proof.
  rewrite <- loops_all. intros Hw. transitivity (bind (let! p := add_in vq head ins (Z.of_nat (length outs)) in
    let! p := add_out vq p outs in upd_desc vq p close) (fun _ => k) s).
  - rewrite !bind_assoc. apply bind_ext. intros p s1. by rewrite bind_assoc.
  - by rewrite (bind_Ok _ _ _ _ _ Hw).
Qed.

Lemma view_length ins outs : Z.of_nat (length (view ins outs)) = Z.of_nat (length ins) + Z.of_nat (length outs).
Proof. unfold view. rewrite length_app, !length_map. lia. Qed.

(** The slot of [avail->ring] and the counters. *)
Lemma offer_run {B} vq head (k : ST (blk (vio A D)) B) q r s :
  0 <= Z.rem (avail_idx q) (num q) < Z.of_nat (length (a_ring (vr_avail r))) ->
  (let! q := get_virtq vq in
   let i := Z.rem (avail_idx q) (num q) in
   do! upd_vring vq (fun r =>
         let a := vr_avail r in
         if decide (0 <= i < Z.of_nat (length (a_ring a))) then
           Some (Vring (vr_descs r) (Avail (a_flags a) (a_idx a) (<[Z.to_nat i := head]> (a_ring a))) (vr_used r))
         else None) in
   do! upd_virtq vq (fun q => set_avail_idx (u16 (avail_idx q + 1)) q) in
   do! upd_vring vq (fun r =>
         let a := vr_avail r in
         Some (Vring (vr_descs r) (Avail (a_flags a) (u16 (avail_idx q + 1)) (a_ring a)) (vr_used r))) in k) (put vq q r s) =
  k (put vq (set_avail_idx (u16 (avail_idx q + 1)) q)
       (Vring (vr_descs r) (Avail (a_flags (vr_avail r)) (u16 (avail_idx q + 1))
          (<[Z.to_nat (Z.rem (avail_idx q) (num q)) := head]> (a_ring (vr_avail r)))) (vr_used r)) s).
Proof.
  intros Hi. rewrite (bind_Ok _ _ _ _ _ (get_virtq_run _ _ _ _)). cbv zeta.
  erewrite bind_Ok by (apply upd_vring_run; by rewrite decide_True).
  erewrite bind_Ok by (apply upd_virtq_run; by destruct q).
  by erewrite bind_Ok by by apply upd_vring_run.
Qed.

End simulation.

(** ** The representation after each operation *)

Definition new_ids (ids : Z -> list Z) (h : Z) (l : list Z) : Z -> list Z := fun i => if i =? h then l else ids i.

Lemma flat_map_ext_in {A B} (f g : A -> list B) l : (forall x, x ∈ l -> f x = g x) -> flat_map f l = flat_map g l.
Proof. intros Hx. induction l as [|a l IH]; [done|]. cbn. rewrite Hx by left. f_equal. apply IH. intros y Hy. apply Hx. by right. Qed.

Section updates.
Context {n : Z} {q : virtq} {r : vring} {seen : Z} {a : vspec} {ids : Z -> list Z} {fl : list Z} {S G : Z}.

Lemma vrep_add h fl0 bs t d' hh :
  vrep n q r seen a ids fl S G -> fl = h :: fl0 -> (0 < length bs <= length fl)%nat ->
  let k := (length bs - 1)%nat in
  chain_of d' (h :: take k fl0) bs -> free_list d' hh (drop k fl0) -> length d' = length (vr_descs r) ->
  (forall js, h ∉ js -> (forall i, i ∈ take k fl0 -> i ∉ js) -> same_at (vr_descs r) d' js) ->
  let c := u16 (avail_idx q + 1) in
  vrep n (set_avail_idx c (refree (set_data (<[Z.to_nat h := t]> (data q)) q) (Z.of_nat (length (drop k fl0))) hh))
    (Vring d' (Avail (a_flags (vr_avail r)) c
       (<[Z.to_nat (Z.rem (avail_idx q) (num q)) := h]> (a_ring (vr_avail r)))) (vr_used r))
    seen (VSpec (offered a ++ [Req h t bs]) (busy a) (returned a)) (new_ids ids h (take k fl0)) (drop k fl0) S G.
Proof.
  intros HR Hfl Hbs k Hc Hf Hd Hs c. destruct a as [o b re]. pose proof (rep_fit HR) as [Hfit _].
  pose proof (rep_nodup HR) as Hnd. rewrite Hfl in Hnd. cbn [app] in Hnd. apply NoDup_cons in Hnd as [Hh Hnd].
  assert (0 <= h < n) as Hhn by (apply (rep_in HR); left; rewrite Hfl; left).
  assert (forall x, x ∈ all (VSpec o b re) -> rq_head x <> h) as Hne.
  { intros x Hx <-. apply (free_not_used HR (rq_head x) x); [rewrite Hfl; left|done|left]. }
  assert (forall x, x ∈ all (VSpec o b re) -> 0 <= rq_head x) as Hnn.
  { intros x Hx. apply (rep_in HR). right. exists x. split; [done|left]. }
  assert (forall x, x ∈ all (VSpec o b re) -> whole (new_ids ids h (take k fl0)) x = whole ids x) as Hw.
  { intros x Hx. unfold whole, new_ids. destruct (Z.eqb_spec (rq_head x) h) as [He|]; [by destruct (Hne x Hx)|done]. }
  assert (all (VSpec (o ++ [Req h t bs]) b re) ≡ₚ Req h t bs :: all (VSpec o b re)) as Hall.
  { unfold all. cbn. rewrite <- app_assoc. cbn. symmetry. apply Permutation_middle. }
  assert (whole (new_ids ids h (take k fl0)) (Req h t bs) = h :: take k fl0) as Hwh by (unfold whole, new_ids; cbn; by rewrite Z.eqb_refl).
  destruct HR as [[Hn Hdiv] Hnum Hfr Hnf (L1 & L2 & L3 & L4) Hp Hch Hda [HS HG] (A1 & A2 & A3 & A4) (U1 & U2 & U3)].
  assert (forall x, x ∈ all (VSpec (o ++ [Req h t bs]) b re) -> chain_of d' (whole (new_ids ids h (take k fl0)) x) (rq_bufs x)) as Hch'.
  { intros x. rewrite Hall. intros [->|Hx]%elem_of_cons; [by rewrite Hwh|]. rewrite (Hw x Hx).
    eapply chain_of_frame; [by apply Hch|]. apply Hs.
    + intros Hi. apply Hh. rewrite elem_of_app. right. rewrite list_elem_of_In, in_flat_map. exists x. by rewrite <- !list_elem_of_In.
    + intros i Hi Hi'. apply elem_of_take in Hi as (m & Hm & _). apply list_elem_of_lookup_2 in Hm.
      apply NoDup_app in Hnd as (_ & Hdis & _). apply (Hdis i Hm). rewrite list_elem_of_In, in_flat_map. exists x. by rewrite <- !list_elem_of_In. }
  cbn [offered returned busy] in *. destruct q as [rg qi ds av us nm fh nf ai ui dt]. cbn in *. subst nm. split; cbn.
  - done.
  - done.
  - done.
  - done.
  - rewrite !length_insert. by rewrite Hd.
  - rewrite Hall. cbn [flat_map]. rewrite Hwh, (flat_map_ext_in _ (whole ids)) by done.
    rewrite <- Hp, Hfl. cbn [app]. rewrite <- (Permutation_middle (drop k fl0)). cbn. apply perm_skip.
    by rewrite app_assoc, (Permutation_app_comm (drop k fl0)), take_drop.
  - exact Hch'.
  - intros x. rewrite Hall. intros [->|Hx]%elem_of_cons; cbn.
    + apply list_lookup_insert_eq. unfold VIRTQ_SIZE in *. lia.
    + rewrite list_lookup_insert_ne; [by apply Hda|]. intros He%Z2Nat.inj; [by destruct (Hne x Hx)|lia|by apply Hnn].
  - done.
  - subst c. rewrite A1, u16_succ, length_app. cbn. split; [f_equal; lia|]. split; [f_equal; lia|]. split; [done|].
    rewrite map_app. cbn. rewrite counter_slot by (done || lia).
    rewrite <- (length_map rq_head o). apply ring_at_push; [lia|done| |done].
    rewrite length_map. rewrite Hfl in Hfit. cbn in Hfit. lia.
  - done.
Qed.

End updates.

Section updates2.
Context {n : Z} {q : virtq} {r : vring} {seen : Z} {ids : Z -> list Z} {fl : list Z} {S G : Z}.

(** The device takes the first offered request. *)
Lemma vrep_fetch x o b re :
  vrep n q r seen (VSpec (x :: o) b re) ids fl S G -> vrep n q r (u16 (seen + 1)) (VSpec o (b ++ [x]) re) ids fl (S + 1) G.
Proof.
  intros [Hn Hnum Hfr Hnf HL Hp Hch Hda [HS HG] (A1 & A2 & A3 & A4) HU].
  assert (all (VSpec o (b ++ [x]) re) ≡ₚ all (VSpec (x :: o) b re)) as Hall.
  { unfold all. cbn. rewrite <- app_assoc. cbn. rewrite app_assoc, <- Permutation_middle, <- app_assoc. done. }
  split; try done.
  - by rewrite Hall.
  - intros y. rewrite Hall. apply Hch.
  - intros y. rewrite Hall. apply Hda.
  - lia.
  - cbn in *. apply ring_at_pop in A4 as [_ A4]. rewrite A1, A2, A3, u16_succ.
    split; [f_equal; lia|]. split; [f_equal; lia|]. done.
Qed.

(** The device returns a request. *)
Lemma vrep_complete x o b1 b2 re l :
  vrep n q r seen (VSpec o (b1 ++ x :: b2) re) ids fl S G ->
  let u := vr_used r in let i := Z.to_nat (Z.rem (us_idx u) (num q)) in
  is_Some (us_ring u !! i) /\
  vrep n q (Vring (vr_descs r) (vr_avail r) (Used (us_flags u) (u16 (us_idx u + 1)) (<[i := UsedElem (rq_head x) l]> (us_ring u))))
    seen (VSpec o (b1 ++ b2) (re ++ [(x, l)])) ids fl S G.
Proof.
  intros HR u i. pose proof (rep_length HR) as [_ Hfit].
  destruct HR as [Hn Hnum Hfr Hnf (L1 & L2 & L3 & L4) Hp Hch Hda [HS HG] HA (U1 & U2 & U3)].
  assert (all (VSpec o (b1 ++ b2) (re ++ [(x, l)])) ≡ₚ all (VSpec o (b1 ++ x :: b2) re)) as Hall.
  { unfold all. cbn. apply Permutation_app_head. rewrite map_app, <- !app_assoc. cbn. apply Permutation_app_head.
    rewrite app_assoc, <- Permutation_middle, app_nil_r. done. }
  assert (Z.of_nat (length re) < n) as Hlt.
  { unfold all in Hfit. cbn in Hfit. rewrite !length_app, length_map in Hfit. cbn in Hfit. lia. }
  cbn [returned offered] in *. subst u i. rewrite Hnum, U1, counter_slot by (done || lia).
  pose proof (Z.mod_pos_bound (G + Z.of_nat (length re)) n ltac:(destruct Hn; lia)) as Hb.
  split; [apply lookup_lt_is_Some; lia|]. split; try done; cbn.
  - rewrite length_insert. done.
  - by rewrite Hall.
  - intros y. rewrite Hall. apply Hch.
  - intros y. rewrite Hall. apply Hda.
  - rewrite u16_succ, length_app. cbn. split; [f_equal; lia|]. split; [done|]. rewrite map_app. cbn.
    rewrite <- (length_map (fun y => UsedElem (rq_head y.1) y.2) re). apply ring_at_push; [destruct Hn; lia|done| |done].
    by rewrite length_map.
Qed.

(** The driver takes the first returned request, and its chain is free again. *)
Lemma vrep_get x l o b re d' hh :
  vrep n q r seen (VSpec o b ((x, l) :: re)) ids fl S G ->
  free_list d' hh (rev (whole ids x) ++ fl) -> length d' = length (vr_descs r) ->
  (forall js, (forall j, j ∈ whole ids x -> j ∉ js) -> same_at (vr_descs r) d' js) ->
  vrep n (set_used_idx (u16 (used_idx q + 1))
      (refree (set_data (<[Z.to_nat (rq_head x) := NULL]> (data q)) q) (Z.of_nat (length (rev (whole ids x) ++ fl))) hh))
    (with_descs d' r) seen (VSpec o b re) ids (rev (whole ids x) ++ fl) S (G + 1).
Proof.
  intros HR Hf Hd Hs. pose proof (rep_nodup HR) as Hnd. pose proof (rep_heads HR) as Hhd.
  pose proof (fun y => rep_in HR (rq_head y)) as Hin.
  assert (all (VSpec o b ((x, l) :: re)) ≡ₚ x :: all (VSpec o b re)) as Hall.
  { unfold all. cbn. by rewrite !(app_assoc o), <- Permutation_middle. }
  destruct HR as [Hn Hnum Hfr Hnf (L1 & L2 & L3 & L4) Hp Hch Hda [HS HG] HA (U1 & U2 & U3)].
  rewrite Hall in Hnd, Hp, Hhd. cbn [flat_map map] in Hnd, Hp, Hhd.
  assert (forall y, y ∈ all (VSpec o b re) -> y ∈ all (VSpec o b ((x, l) :: re))) as Hsub by (intros y Hy; rewrite Hall; by right).
  assert (forall y, y ∈ all (VSpec o b re) -> chain_of d' (whole ids y) (rq_bufs y)) as Hch'.
  { intros y Hy. eapply chain_of_frame; [by apply Hch, Hsub|]. apply Hs. intros j Hj Hjy.
    apply NoDup_app in Hnd as (_ & _ & Hnd). apply NoDup_app in Hnd as (_ & Hd2 & _). apply (Hd2 j Hj).
    rewrite list_elem_of_In, in_flat_map. exists y. by rewrite <- !list_elem_of_In. }
  assert (forall y, y ∈ all (VSpec o b re) -> <[Z.to_nat (rq_head x) := NULL]> (data q) !! Z.to_nat (rq_head y) = Some (rq_token y)) as Hda'.
  { intros y Hy. rewrite list_lookup_insert_ne; [by apply Hda, Hsub|].
    assert (0 <= rq_head x < n) by (apply Hin; right; exists x; split; [rewrite Hall; left|left]).
    assert (0 <= rq_head y < n) by (apply Hin; right; exists y; split; [by apply Hsub|left]).
    intros He%Z2Nat.inj; [|lia..]. apply NoDup_cons in Hhd as [Hx _]. apply Hx. rewrite He. apply list_elem_of_fmap. by exists y. }
  destruct HA as (A1 & A2 & A3 & A4). cbn [offered busy returned] in *.
  destruct q as [rg qi ds av us nm fh nf ai ui dt]. cbn [num used_idx data avail_idx free_head num_free] in *.
  split; try done; cbn [set_used_idx refree set_num_free set_free_head set_data with_descs vr_descs vr_avail vr_used
    num used_idx data avail_idx free_head num_free offered busy returned].
  - rewrite length_insert, Hd. done.
  - rewrite <- Hp, <- (Permutation_rev (whole ids x)), <- app_assoc. apply Permutation_app_swap_app.
  - lia.
  - rewrite U1, U2, u16_succ. apply ring_at_pop in U3 as [_ U3]. split; [f_equal; cbn; lia|]. done.
Qed.

End updates2.

(** The device reads from the table what the driver wrote. *)
Lemma read_chain_run d ids : forall bs fuel i,
  chain_of d (i :: ids) bs -> (length ids < fuel)%nat -> read_chain fuel d i = Some bs.
Proof.
  induction ids as [|j ids IH]; intros [|b bs] fuel i Hc Hf; try done; (destruct fuel as [|fuel]; [lia|]); cbn [read_chain].
  - destruct bs; [|done]. destruct Hc as [_ ->]. cbn [mbind option_bind d_flags d_addr d_len]. unfold buf_flags. by destruct b as [? ? []].
  - destruct Hc as (_ & -> & Hc). cbn [mbind option_bind d_flags d_addr d_len d_next].
    replace (Z.testbit (buf_flags b + VRING_DESC_F_NEXT) 0) with true by (unfold buf_flags; by destruct (b_write b)).
    rewrite (IH _ _ _ Hc) by (cbn in Hf; lia). cbn. do 2 f_equal. unfold buf_flags. by destruct b as [? ? []].
Qed.

Section steps.
Context {A D : Type} `{KAlloc A}.
Implicit Types s : blk (vio A D).

(** What has to be shown of an event. *)
Definition step_ok (st n vq seen : Z) (a : vspec) (e : vq_event) s : Prop :=
  wp False (run_vq vq seen e) (fun x s' => exists a', vq_step n a e x.2 a' /\ sim st n vq x.1 a' s') s.

Lemma step_add_full st n vq seen a ins outs t s :
  sim st n vq seen a s -> room n a < Z.of_nat (length (view ins outs)) -> step_ok st n vq seen a (Add ins outs t) s.
Proof.
  intros (q & r & ids & fl & S & G & Hat & Hl & HR) Hroom. unfold step_ok, run_vq, virtq_add_buf.
  pose proof (rep_room HR) as Hrm. apply wp_bind. eapply locked; [exact Hat|exact Hl|]. intros h Hh. cbv zeta.
  apply wp_bind. eapply wp_run; [apply get_virtq_run|]. rewrite <- view_length, (v_num_free _ _ _ _ _ _ _ _ _ HR), <- Hrm.
  rewrite (proj2 (Z.ltb_lt _ _) Hroom). eapply unlocked; [exact Hh|]. intros s' Hat' Hl'. apply wp_ret. exists a. split; [by constructor|].
  by exists q, r, ids, fl, S, G.
Qed.

Lemma step_add st n vq seen a ins outs t s :
  sim st n vq seen a s -> view ins outs <> [] -> Z.of_nat (length (view ins outs)) <= room n a ->
  step_ok st n vq seen a (Add ins outs t) s.
Proof.
  intros (q & r & ids & fl & S & G & Hat & Hl & HR) Hne Hroom. unfold step_ok, run_vq, virtq_add_buf.
  pose proof (rep_room HR) as Hrm. pose proof (v_size _ _ _ _ _ _ _ _ _ HR) as Hsz. pose proof Hsz as [Hn _].
  pose proof (rep_fit HR) as [Hfit _]. pose proof (v_len _ _ _ _ _ _ _ _ _ HR) as (L1 & L2 & _ & L4).
  apply wp_bind. eapply locked; [exact Hat|exact Hl|]. intros h Hh. cbv zeta.
  apply wp_bind. eapply wp_run; [apply get_virtq_run|]. rewrite <- view_length, (v_num_free _ _ _ _ _ _ _ _ _ HR), <- Hrm.
  destruct (Z.ltb_spec (room n a) (Z.of_nat (length (view ins outs)))) as [|_]; [lia|].
  destruct (view ins outs) as [|b bs] eqn:Hview; [done|]. destruct fl as [|i fl0] eqn:Hfl; [cbn in *; lia|].
  pose proof (rep_nodup HR) as Hnd. apply NoDup_app in Hnd as (Hnd & _). apply NoDup_cons in Hnd as [Hni Hnd].
  assert (0 <= i < n) as Hi by (apply (rep_in HR); left; left). unfold VIRTQ_SIZE in *.
  destruct (alloc_desc_run vq i fl0 (vr_descs r) q r (set_k_hart h s)) as (nx & Halloc & Hf1);
    [apply (v_free _ _ _ _ _ _ _ _ _ HR)|apply (v_num_free _ _ _ _ _ _ _ _ _ HR)|cbn in *; lia|].
  rewrite with_descs_id in Halloc. apply wp_bind. eapply wp_run; [exact Halloc|].
  destruct (lookup_lt_is_Some_2 (data q) (Z.to_nat i)) as [t0 Ht0]; [lia|].
  apply wp_bind. eapply wp_run; [apply (set_token_run _ _ _ t0); [lia|by destruct q]|].
  set (q1 := set_data _ _). edestruct (write_all_run vq bs b i fl0 (vr_descs r) q1 r (set_k_hart h s)) as (d' & hh & Hw & Hc & Hf' & Hd' & Hs');
    [by destruct q|by destruct q|cbn in *; lia|lia|apply lookup_lt_is_Some_2; lia|done|done|cbn in *; lia|].
  rewrite with_descs_id, <- Hview in Hw.
  pose proof (vrep_add i fl0 (b :: bs) t d' hh HR eq_refl ltac:(cbn in *; lia)) as HR'. cbv zeta in HR'.
  replace (length (b :: bs) - 1)%nat with (length bs) in HR' by (cbn; lia). specialize (HR' Hc Hf' Hd' Hs').
  unfold wp. change (fun d => set_d_next 0 (set_d_flags (and_not (d_flags d) VRING_DESC_F_NEXT) d)) with close.
  rewrite (loops_run _ _ _ _ _ _ _ Hw). rewrite offer_run.
  2: { destruct HR as [_ Hnum _ _ _ _ _ _ [HS _] (A1 & _) _].
       replace (num (refree q1 _ hh)) with n by by destruct q. replace (avail_idx (refree q1 _ hh)) with (avail_idx q) by by destruct q.
       rewrite A1, counter_slot by (done || lia). cbn [with_descs vr_avail]. rewrite L2. apply Z.mod_pos_bound. lia. }
  eapply unlocked; [exact Hh|]. intros s' Hat' Hl'. cbv beta. apply wp_ret.
  destruct a as [o bz re]. eexists. split; [apply (AddOk n i o bz re ins outs t)|].
  - by rewrite Hview.
  - done.
  - intros (y & Hy & Hin)%list_elem_of_fmap. apply (free_not_used HR i y); [left|done|]. unfold whole. rewrite Hy. left.
  - rewrite Hview. eexists _, _, _, _, S, G. split; [exact Hat'|]. split; [exact Hl'|].
    destruct q, r. exact HR'.
Qed.

Lemma step_get st n vq seen a s : sim st n vq seen a s -> step_ok st n vq seen a Get s.
Proof.
  intros (q & r & ids & fl & S & G & Hat & Hl & HR). unfold step_ok, run_vq, virtq_get_buf.
  pose proof (v_size _ _ _ _ _ _ _ _ _ HR) as Hsz. pose proof Hsz as [Hn _]. pose proof (rep_fit HR) as [_ Hfit].
  pose proof (v_used _ _ _ _ _ _ _ _ _ HR) as (U1 & U2 & U3). pose proof (v_count _ _ _ _ _ _ _ _ _ HR) as [_ HG].
  pose proof (v_len _ _ _ _ _ _ _ _ _ HR) as (L1 & _ & _ & L4).
  apply wp_bind. eapply locked; [exact Hat|exact Hl|]. intros h Hh. apply wp_bind. eapply wp_run; [apply get_vring_run|].
  apply wp_bind. eapply wp_run; [apply get_virtq_run|]. rewrite U1, U2, (counter_eq n) by (done || lia).
  destruct a as [o b [|[x l] re]]; cbn [returned length] in *.
  - rewrite Z.add_0_r, Z.eqb_refl. eapply unlocked; [exact Hh|]. intros s' Hat' Hl'. apply wp_ret. eexists. split; [constructor|].
    by exists q, r, ids, fl, S, G.
  - destruct (Z.eqb_spec G (G + Z.of_nat (Datatypes.S (length re)))) as [|_]; [lia|]. rewrite (v_num _ _ _ _ _ _ _ _ _ HR).
    rewrite counter_slot by done. cbn [map] in U3. pose proof (ring_at_pop _ _ _ _ _ U3) as [Hslot _].
    apply wp_bind. eapply wp_load; [exact Hslot|]. cbn [u_id u_len fst snd].
    assert (x ∈ all (VSpec o b ((x, l) :: re))) as Hx by (unfold all; cbn; set_solver).
    assert (0 <= rq_head x < n) as Hhx by (apply (rep_in HR); right; exists x; split; [done|left]).
    unfold VIRTQ_SIZE in *. rewrite (wrap_small 16) by (split; lia). pose proof (v_data _ _ _ _ _ _ _ _ _ HR x Hx) as Htok.
    unfold get_token at 1. apply wp_bind, wp_bind. eapply wp_run; [apply get_virtq_run|].
    eapply wp_load; [destruct (Z.ltb_spec (rq_head x) 0); [lia|exact Htok]|].
    apply wp_bind. eapply wp_run; [eapply set_token_run; [lia|exact Htok]|]. set (q1 := set_data _ q).
    pose proof (v_chain _ _ _ _ _ _ _ _ _ HR x Hx) as Hc. pose proof (rep_nodup HR) as Hnd.
    pose proof (rep_length HR) as [Hlen _]. destruct (chain_of_length _ _ _ Hc) as [Hlc _].
    assert (Z.of_nat (length fl) + Z.of_nat (length (whole ids x)) <= n) as Hsum.
    { pose proof (Permutation_length (v_perm _ _ _ _ _ _ _ _ _ HR)) as Hpl. rewrite length_app, length_seqZ in Hpl.
      assert (length (whole ids x) <= length (flat_map (whole ids) (all (VSpec o b ((x, l) :: re)))))%nat; [|lia].
      apply list_elem_of_split in Hx as (l1 & l2 & ->). rewrite flat_map_app. cbn [flat_map]. rewrite !length_app. lia. }
    edestruct (free_chain_run vq (ids (rq_head x)) (Datatypes.S (length (vr_descs r))) (rq_head x) (rq_bufs x) fl (vr_descs r) q1 r
                 (set_k_hart h s)) as (d' & hh & Hrun & Hf' & Hd' & Hs').
    { exact Hc. }
    { apply NoDup_app in Hnd as (_ & _ & Hnd). apply list_elem_of_split in Hx as (l1 & l2 & Hx). rewrite Hx, flat_map_app in Hnd.
      apply NoDup_app in Hnd as (_ & _ & Hnd). cbn [flat_map] in Hnd. by apply NoDup_app in Hnd as [? _]. }
    { intros j Hj Hjf. by apply (free_not_used HR j x). }
    { destruct q; apply (v_free _ _ _ _ _ _ _ _ _ HR). } { destruct q; apply (v_num_free _ _ _ _ _ _ _ _ _ HR). }
    { unfold whole in Hsum. lia. } { unfold whole in Hsum. cbn in Hsum. lia. }
    rewrite with_descs_id in Hrun. unfold wp. rewrite <- (bind_assoc (free_chain _ _ _) (fun last => virtq_free_desc vq last)).
    rewrite (bind_Ok _ _ _ _ _ Hrun). erewrite bind_Ok by (apply upd_virtq_run; by destruct q).
    pose proof (vrep_get x l o b re d' hh HR Hf' Hd' Hs') as HR'.
    eapply unlocked; [exact Hh|]. intros s' Hat' Hl'. apply wp_ret. eexists. split; [constructor|].
    eexists _, _, _, _, S, (G + 1). split; [exact Hat'|]. split; [exact Hl'|]. destruct q, r. exact HR'.
Qed.

Lemma step_count st n vq seen a s : sim st n vq seen a s -> step_ok st n vq seen a Count s.
Proof.
  intros (q & r & ids & fl & S & G & Hat & Hl & HR). unfold step_ok, run_vq, virtq_desc_count.
  pose proof (v_size _ _ _ _ _ _ _ _ _ HR) as [Hn _]. unfold VIRTQ_SIZE in Hn. pose proof (rep_room HR) as Hrm. pose proof (rep_fit HR) as [Hfit _].
  apply wp_bind. eapply locked; [exact Hat|exact Hl|]. intros h Hh. apply wp_bind. eapply wp_run; [apply get_virtq_run|]. cbv zeta.
  rewrite (v_num _ _ _ _ _ _ _ _ _ HR), (v_num_free _ _ _ _ _ _ _ _ _ HR), <- Hrm, wrap_small by (split; lia).
  eapply unlocked; [exact Hh|]. intros s' Hat' Hl'. apply wp_ret. exists a. split; [constructor|].
  by exists q, r, ids, fl, S, G.
Qed.

Lemma step_has st n vq seen a s : sim st n vq seen a s -> step_ok st n vq seen a Has s.
Proof.
  intros HS. pose proof HS as (q & r & ids & fl & S & G & Hat & Hl & HR). unfold step_ok, run_vq, virtq_has_buf.
  pose proof (v_size _ _ _ _ _ _ _ _ _ HR) as Hsz. pose proof (rep_fit HR) as [_ Hfit].
  pose proof (v_used _ _ _ _ _ _ _ _ _ HR) as (U1 & U2 & _). pose proof (v_count _ _ _ _ _ _ _ _ _ HR) as [_ HG].
  rewrite <- (put_id vq q r s Hat) in *. apply wp_bind, wp_bind. eapply wp_run; [apply get_virtq_run|].
  apply wp_bind. eapply wp_run; [apply get_vring_run|]. apply wp_ret, wp_ret.
  rewrite U1, U2, (counter_eq n) by (done || lia). exists a. split; [|done].
  replace (negb _) with (bool_decide (returned a <> [])); [constructor|]. destruct (returned a) as [|y re]; cbn [length].
  - by rewrite Z.add_0_r, Z.eqb_refl.
  - destruct (Z.eqb_spec G (G + Z.of_nat (Datatypes.S (length re)))); [lia|done].
Qed.

Lemma step_fetch st n vq seen a s : sim st n vq seen a s -> step_ok st n vq seen a Fetch s.
Proof.
  intros HS. pose proof HS as (q & r & ids & fl & S & G & Hat & Hl & HR). unfold step_ok, run_vq, device_fetch.
  pose proof (v_size _ _ _ _ _ _ _ _ _ HR) as Hsz. pose proof (rep_fit HR) as [Hfit _].
  pose proof (v_avail _ _ _ _ _ _ _ _ _ HR) as (_ & A2 & A3 & A4). pose proof (v_count _ _ _ _ _ _ _ _ _ HR) as [HS0 _].
  rewrite <- (put_id vq q r s Hat) in *. apply wp_bind. eapply wp_run; [apply get_virtq_run|].
  apply wp_bind. eapply wp_run; [apply get_vring_run|]. rewrite A2, (v_num _ _ _ _ _ _ _ _ _ HR), A3, (counter_eq n) by (done || lia).
  destruct a as [[|x o] b re]; cbn [offered length map] in *.
  - rewrite Z.add_0_r, Z.eqb_refl. apply wp_ret. eexists. split; [constructor|]. rewrite A3 in HS. exact HS.
  - destruct (Z.eqb_spec S (S + Z.of_nat (Datatypes.S (length o)))); [lia|]. rewrite counter_slot by done.
    apply ring_at_pop in A4 as [Hslot _]. apply wp_bind. eapply wp_load; [exact Hslot|].
    pose proof (v_chain _ _ _ _ _ _ _ _ _ HR x ltac:(left)) as Hc. apply wp_bind. eapply wp_load.
    { apply (read_chain_run _ (ids (rq_head x))); [exact Hc|]. destruct (chain_of_length _ _ _ Hc) as [Hlc _].
      pose proof (rep_length HR) as [Hlen _]. pose proof (v_len _ _ _ _ _ _ _ _ _ HR) as (L1 & _). unfold all in Hlen. cbn in Hlen.
      unfold whole in Hlc. cbn in Hlc.
      assert (0 <= foldr (fun x k => Z.of_nat (length (rq_bufs x)) + k) 0 (o ++ b ++ map fst re)) by (clear; induction (o ++ b ++ map fst re); cbn; lia).
      lia. }
    apply wp_ret. eexists. split; [constructor|]. exists q, r, ids, fl, (S + 1), G. split; [apply at_put|]. split; [destruct s as [????????[]]; exact Hl|].
    rewrite <- A3. by apply vrep_fetch.
Qed.

Lemma step_complete st n vq seen a h l s :
  sim st n vq seen a s -> h ∈ map rq_head (busy a) -> step_ok st n vq seen a (Complete h l) s.
Proof.
  intros (q & r & ids & fl & S & G & Hat & Hl & HR) (x & -> & Hx)%list_elem_of_fmap. unfold step_ok, run_vq, device_complete.
  apply list_elem_of_split in Hx as (b1 & b2 & Hb). destruct a as [o b re]; cbn [busy] in Hb. subst b.
  destruct (vrep_complete x o b1 b2 re l HR) as [[e He] HR']. rewrite <- (put_id vq q r s Hat) in *.
  apply wp_bind, wp_bind. eapply wp_run; [apply get_virtq_run|]. eapply wp_run; [apply upd_vring_run; cbv zeta; rewrite He; done|].
  apply wp_ret. eexists. split; [constructor|]. eexists _, _, ids, fl, S, G. split; [apply at_put|]. split; [|exact HR'].
  destruct s as [????????[]]. exact Hl.
Qed.

Lemma step_event st n vq seen a e s : sim st n vq seen a s -> allowed a e -> step_ok st n vq seen a e s.
Proof.
  intros HS Ha. destruct e as [ins outs t| | | | |h l]; cbn [allowed] in Ha.
  - destruct (Z.lt_ge_cases (room n a) (Z.of_nat (length (view ins outs)))); [by apply step_add_full|by apply step_add].
  - by apply step_get.
  - by apply step_has.
  - by apply step_count.
  - by apply step_fetch.
  - by apply step_complete.
Qed.

Lemma sim_conforms st n vq es : forall seen a s, sim st n vq seen a s -> conforms n vq seen a es s.
Proof.
  induction es as [|e es IH]; intros seen a s HS; cbn [conforms]; [done|]. intros Ha.
  eapply wp_mono; [by apply (step_event st)|done|]. cbv beta. intros x s' (a' & Hs & HS'). exists a'. auto.
Qed.

End steps.

(** ** Creation *)

Section create.
Context {A D : Type} `{KAlloc A} {own : A -> gset Z -> Prop} {HOk : KAllocOk A own}.
Implicit Types s : blk (vio A D).

(** A table whose first [n - 1] descriptors point at their successors. *)
Lemma free_list_seq d n m :
  (forall j, 0 <= j < n - 1 -> exists x, d !! Z.to_nat j = Some x /\ d_next x = j + 1) -> is_Some (d !! Z.to_nat (n - 1)) ->
  forall k, 0 <= k -> m = Z.to_nat (n - k) -> free_list d k (seqZ k (Z.of_nat m)).
Proof.
  intros Hd [x1 Hx1]. induction m as [|m IH]; intros k Hk Hm; [done|]. rewrite seqZ_cons by lia. split; [done|].
  replace (Z.pred (Z.of_nat (Datatypes.S m))) with (Z.of_nat m) by lia.
  destruct (decide (k = n - 1)) as [->|Hne].
  - exists x1. split; [lia|]. split; [done|]. by replace m with 0%nat by lia.
  - destruct (Hd k) as (x & Hx & Hnx); [lia|]. exists x. split; [done|]. split; [done|]. rewrite Hnx.
    change (Z.succ k) with (k + 1). apply IH; lia.
Qed.

Lemma fill_descs vq q r s n :
  queue_size n -> Z.of_nat (length (vr_descs r)) = n ->
  wp False (for_up (Z.to_nat n) 0 (fun i => upd_desc vq i (fun _ => Desc 0 0 VRING_DESC_F_NEXT (u16 (Z.rem (i + 1) n)))))
    (fun _ s' => exists d, s' = put vq q (with_descs d r) s /\ Z.of_nat (length d) = n /\
       forall j, 0 <= j < n -> exists x, d !! Z.to_nat j = Some x /\ (j < n - 1 -> d_next x = j + 1)) (put vq q r s).
Proof.
  intros [Hn Hdiv] Hl. unfold VIRTQ_SIZE in Hn. eapply wp_mono.
  - apply (wp_for_up _ (fun i s' => exists d, s' = put vq q (with_descs d r) s /\ Z.of_nat (length d) = n /\
       forall j, 0 <= j < i -> exists x, d !! Z.to_nat j = Some x /\ (j < n - 1 -> d_next x = j + 1))).
    + intros i t Hi (d & -> & Hd & Hx). destruct (lookup_lt_is_Some_2 d (Z.to_nat i)) as [x0 Hx0]; [lia|].
      eapply wp_run; [apply (upd_desc_run _ _ _ _ x0); [lia|done]|]. eexists. split; [done|]. split; [by rewrite length_insert|].
      intros j Hj. destruct (decide (j = i)) as [->|Hne].
      * rewrite list_lookup_insert_eq by lia. eexists. split; [done|]. cbn. intros Hlt.
        rewrite Z.rem_small, wrap_small by (try split; lia). done.
      * rewrite list_lookup_insert_ne by lia. apply Hx. lia.
    + exists (vr_descs r). rewrite with_descs_id. split; [done|]. split; [done|]. intros; lia.
  - done.
  - cbv beta. intros [] s' (d & -> & Hd & Hx). exists d. split; [done|]. split; [done|]. intros j Hj. apply Hx. lia.
Qed.

Lemma virtq_create_spec st X regs idx n s :
  locks st ∅ s -> own (x_alloc (k_env s)) X -> queue_size n ->
  wp False (virtq_create regs idx n) (fun vq s' => vq = NULL \/ sim st n vq 0 (VSpec [] [] []) s') s.
Proof.
  intros Hl Ho Hsz. pose proof Hsz as [Hn Hdiv]. unfold VIRTQ_SIZE in Hn. unfold virtq_create.
  destruct s as [h c lk dv ct ds bf da [al vqs0 rg dev rq vb e]]; cbn in Ho.
  apply wp_bind, wp_lift, wp_lift. cbn. eapply wp_ka_alloc; [exact Ho|intros a1 _; apply wp_ret; by left|].
  intros mem a1 Hmem Hfresh Ho1. cbn. destruct (Z.eqb_spec mem NULL) as [->|_]; [done|].
  apply wp_bind, wp_lift, wp_modify. cbn. apply wp_bind, wp_lift, wp_lift. cbn.
  eapply wp_ka_alloc; [exact Ho1| |].
  { intros a2 Ho2. cbn. apply wp_bind. unfold free_vring. apply wp_bind, wp_lift, wp_lift. cbn.
    eapply wp_ka_free; [exact Ho2|set_solver|]. intros a3 _. cbn. apply wp_lift, wp_modify. apply wp_ret. by left. }
  intros vq a2 Hvq _ _. cbn [fst snd]. destruct (Z.eqb_spec vq NULL) as [->|_]; [done|].
  apply wp_bind, wp_lift, wp_modify. cbn. apply wp_bind, wp_modify. cbn.
  set (q := Virtq _ _ _ _ _ _ _ _ _ _ _). set (r := Vring _ _ _).
  match goal with |- wp _ _ _ ?t => set (s1 := t) end. assert (at_vq vq q r s1) as Hat by (split; apply lookup_insert_eq).
  assert (locks st ∅ s1) as Hl1 by (apply hart_ok_lock_init; [exact Hl|set_solver]).
  rewrite <- (put_id vq q r s1 Hat). eapply wp_bind_mono; [apply fill_descs; [done|cbn; rewrite length_replicate; lia]|].
  cbv beta. intros _ s2 (d & -> & Hd & Hdx). destruct (Hdx (n - 1)) as (x & Hx & _); [lia|].
  apply wp_bind. eapply wp_run; [apply (upd_desc_run _ _ _ _ x); [lia|done]|].
  apply wp_bind. eapply wp_run; [by apply upd_vring_run|]. apply wp_ret. right.
  eexists q, _, (fun _ => []), (seqZ 0 n), 0, 0. split; [apply at_put|]. split; [exact Hl1|].
  split; cbn; rewrite ?length_insert, ?length_replicate; try done; try lia.
  - replace (seqZ 0 n) with (seqZ 0 (Z.of_nat (Z.to_nat n))) by (f_equal; lia). apply (free_list_seq _ n); [|rewrite list_lookup_insert_eq by lia; by eexists|lia|f_equal; lia].
    intros j Hj. rewrite list_lookup_insert_ne by lia. destruct (Hdx j) as (y & Hy & Hny); [lia|]. exists y. split; [done|]. apply Hny. lia.
  - rewrite length_seqZ. lia.
  - split_and!; try done; lia.
  - by rewrite app_nil_r.
  - intros y Hy. by apply not_elem_of_nil in Hy.
  - intros y Hy. by apply not_elem_of_nil in Hy.
Qed.

(** [C35] A virtqueue refines a queue of requests, under every interleaving of the driver and the device: an added request
    has a head of its own and reaches the device with exactly its buffers, in order and with their directions; the device
    may return requests in any order; each comes back to the driver once, with its token and length; requests are refused
    exactly when the free descriptors do not suffice, no descriptor is lost, and the 16-bit counters may wrap.  No event
    panics, faults or runs off a table. *)
Theorem virtq_refines st X regs idx n es s :
  locks st ∅ s -> own (x_alloc (k_env s)) X -> queue_size n ->
  wp False (virtq_create regs idx n) (fun vq s' => vq = NULL \/ conforms n vq 0 (VSpec [] [] []) es s') s.
Proof.
  intros Hl Ho Hn. eapply wp_mono; [by apply (virtq_create_spec st X)|done|]. cbv beta.
  intros vq s' [->|HS]; [by left|right]. by eapply sim_conforms.
Qed.

End create.

(** Four descriptors: a request of three buffers is served, a second one does
    not fit until the first has come back. *)
Definition idle_vio : blk (vio bump unit) :=
  Blk (Hart (Intr 2 0 0) ∅) 0 (LStore ∅ ∅) [] 0 ∅ ∅ ∅ (Vio (Bump 4096 9 ∅) ∅ ∅ ∅ ∅ 0 tt).

Lemma virtq_refines_witness :
  let es := [Add [VBuf 100 16] [VBuf 200 512; VBuf 300 1] 7; Add [VBuf 400 16] [VBuf 500 1] 8; Fetch; Fetch; Has; Get;
             Complete 0 513; Has; Count; Get; Add [VBuf 400 16] [VBuf 500 1] 8; Fetch] in
  wp False (virtq_create 0x10001000 0 4) (fun vq s' => vq = NULL \/ conforms 4 vq 0 (VSpec [] [] []) es s') idle_vio.
Proof.
  intros es. refine (virtq_refines (own := bump_own) 2 ∅ 0x10001000 0 4 es idle_vio _ _ _).
  - split; [done|]. intros l. unfold get_lock. cbn. by rewrite lookup_empty, decide_False by set_solver.
  - split; [done|]. split; [done|]. set_solver.
  - split; [done|]. by exists (2 ^ 14).
Defined.
