(* ===== verification/VirtioMmio.v ===== *)
(** The MMIO transport, [src/hal/virtio/virtio_mmio.c]: the handshake with a
    device, the set-up of its queues, and its configuration space.  Barriers
    have no effect in the model. *)

From S2P Require Import Prelude ListHead Sync Machine Alloc Blk Virtio Virtq.

Definition VIRTIO_CONFIG_S_ACKNOWLEDGE : Z := 1.
Definition VIRTIO_CONFIG_S_DRIVER : Z := 2.
Definition VIRTIO_CONFIG_S_DRIVER_OK : Z := 4.
Definition VIRTIO_CONFIG_S_FEATURES_OK : Z := 8.
Definition VIRTIO_CONFIG_S_FAILED : Z := 128.

Definition VIRTIO_MMIO_MAGIC : Z := 0x74726976.
Definition VIRTIO_MMIO_VERSION : Z := 2.

Definition VIRTIO_REG_MAGIC_VALUE : Z := 0x000.
Definition VIRTIO_REG_VERSION : Z := 0x004.
Definition VIRTIO_REG_DEVICE_ID : Z := 0x008.
Definition VIRTIO_REG_VENDOR_ID : Z := 0x00c.
Definition VIRTIO_REG_DEVICE_FEATURES : Z := 0x010.
Definition VIRTIO_REG_DRIVER_FEATURES : Z := 0x020.
Definition VIRTIO_REG_QUEUE_SEL : Z := 0x030.
Definition VIRTIO_REG_QUEUE_NUM_MAX : Z := 0x034.
Definition VIRTIO_REG_QUEUE_NUM : Z := 0x038.
Definition VIRTIO_REG_QUEUE_READY : Z := 0x044.
Definition VIRTIO_REG_INT_STATUS : Z := 0x060.
Definition VIRTIO_REG_INT_ACK : Z := 0x064.
Definition VIRTIO_REG_STATUS : Z := 0x070.
Definition VIRTIO_REG_QUEUE_DESC_LO : Z := 0x080.
Definition VIRTIO_REG_QUEUE_DESC_HI : Z := 0x084.
Definition VIRTIO_REG_QUEUE_AVAIL_LO : Z := 0x090.
Definition VIRTIO_REG_QUEUE_AVAIL_HI : Z := 0x094.
Definition VIRTIO_REG_QUEUE_USED_LO : Z := 0x0a0.
Definition VIRTIO_REG_QUEUE_USED_HI : Z := 0x0a4.
Definition VIRTIO_REG_CONFIG_GEN : Z := 0x0fc.
Definition VIRTIO_REG_CONFIG : Z := 0x100.

Section mmio.
Context {A D : Type} `{KAlloc A} `{VirtioDevice A D}.

Definition virtio_read_reg (dev offset : Z) : ST (blk (vio A D)) Z :=
  let! d := get_vdev dev in mmio_read32 (u64 (vd_regs d + offset)).

Definition virtio_write_reg (dev offset val : Z) : ST (blk (vio A D)) unit :=
  let! d := get_vdev dev in mmio_write32 (u64 (vd_regs d + offset)) val.

Definition virtio_set_status (dev status : Z) : ST (blk (vio A D)) unit :=
  virtio_write_reg dev VIRTIO_REG_STATUS status.

Definition virtio_get_status (dev : Z) : ST (blk (vio A D)) Z :=
  virtio_read_reg dev VIRTIO_REG_STATUS.

Definition virtio_mmio_probe (regs irqno : Z) : ST (blk (vio A D)) Z :=
  let! magic := mmio_read32 (regs + VIRTIO_REG_MAGIC_VALUE) in
  let! version := mmio_read32 (regs + VIRTIO_REG_VERSION) in
  let! device_id := mmio_read32 (regs + VIRTIO_REG_DEVICE_ID) in
  let! vendor_id := mmio_read32 (regs + VIRTIO_REG_VENDOR_ID) in
  if negb (magic =? VIRTIO_MMIO_MAGIC) then ret (-1) else
  if negb (version =? VIRTIO_MMIO_VERSION) then ret (-1) else
  if device_id =? 0 then ret (-1) else
  ret 0.

Definition virtio_mmio_init (dev : Z) : ST (blk (vio A D)) Z :=
  do! virtio_set_status dev 0 in
  do! virtio_set_status dev VIRTIO_CONFIG_S_ACKNOWLEDGE in
  let! status := virtio_get_status dev in
  if Z.land status VIRTIO_CONFIG_S_ACKNOWLEDGE =? 0 then ret (-1) else
  do! virtio_set_status dev (Z.lor VIRTIO_CONFIG_S_ACKNOWLEDGE VIRTIO_CONFIG_S_DRIVER) in
  let! status := virtio_get_status dev in
  if Z.land status VIRTIO_CONFIG_S_DRIVER =? 0 then ret (-1) else
  let! device_id := virtio_read_reg dev VIRTIO_REG_DEVICE_ID in
  let! vendor_id := virtio_read_reg dev VIRTIO_REG_VENDOR_ID in
  do! upd_vdev dev (set_ids device_id vendor_id) in
  ret 0.

Definition virtio_negotiate_features (dev required rejected : Z) : ST (blk (vio A D)) Z :=
  let! device_features := virtio_read_reg dev VIRTIO_REG_DEVICE_FEATURES in
  let driver_features := Z.lor (and_not device_features rejected) required in
  do! virtio_write_reg dev VIRTIO_REG_DRIVER_FEATURES driver_features in
  do! upd_vdev dev (set_features driver_features) in
  let! status := virtio_get_status dev in
  do! virtio_set_status dev (Z.lor status VIRTIO_CONFIG_S_FEATURES_OK) in
  let! status := virtio_get_status dev in
  if Z.land status VIRTIO_CONFIG_S_FEATURES_OK =? 0 then
    do! virtio_set_status dev VIRTIO_CONFIG_S_FAILED in ret (-1)
  else ret 0.

(** The addresses of the three parts of the queue are written as two words. *)
Definition write_queue_addr (dev lo hi pa : Z) : ST (blk (vio A D)) unit :=
  do! virtio_write_reg dev lo (u32 (Z.land pa 0xffffffff)) in
  virtio_write_reg dev hi (u32 (Z.shiftr pa 32)).

Definition virtio_setup_vq (dev vq_idx num : Z) : ST (blk (vio A D)) Z :=
  if 8 <=? vq_idx then ret (-1) else
  do! virtio_write_reg dev VIRTIO_REG_QUEUE_SEL vq_idx in
  let! max := virtio_read_reg dev VIRTIO_REG_QUEUE_NUM_MAX in
  let num := if max <? num then u16 max else num in
  if num =? 0 then ret (-1) else
  let! d := get_vdev dev in
  let! vq := virtq_create (vd_regs d) (u16 vq_idx) num in
  if vq =? NULL then ret (-1) else
  do! virtio_write_reg dev VIRTIO_REG_QUEUE_NUM num in
  let! q := get_virtq vq in
  do! write_queue_addr dev VIRTIO_REG_QUEUE_DESC_LO VIRTIO_REG_QUEUE_DESC_HI (descs q) in
  do! write_queue_addr dev VIRTIO_REG_QUEUE_AVAIL_LO VIRTIO_REG_QUEUE_AVAIL_HI (avail q) in
  do! write_queue_addr dev VIRTIO_REG_QUEUE_USED_LO VIRTIO_REG_QUEUE_USED_HI (used q) in
  do! virtio_write_reg dev VIRTIO_REG_QUEUE_READY 1 in
  do! upd_vdev dev (fun d => upd_vqs (<[Z.to_nat vq_idx := vq]> (vqs d)) d) in
  ret 0.

Definition virtio_irq_handler (dev : Z) : ST (blk (vio A D)) unit :=
  let! status := virtio_read_reg dev VIRTIO_REG_INT_STATUS in
  virtio_write_reg dev VIRTIO_REG_INT_ACK status.

(** The value is read until the configuration did not change meanwhile. *)
Fixpoint read_config_loop (fuel : nat) (dev offset : Z) : ST (blk (vio A D)) Z :=
  match fuel with
  | O => no_fuel
  | S fuel =>
      let! old_gen := virtio_read_reg dev VIRTIO_REG_CONFIG_GEN in
      let! value := virtio_read_reg dev (u32 (VIRTIO_REG_CONFIG + offset)) in
      let! new_gen := virtio_read_reg dev VIRTIO_REG_CONFIG_GEN in
      if old_gen =? new_gen then ret value else read_config_loop fuel dev offset
  end.

Definition virtio_read_config (dev offset : Z) : ST (blk (vio A D)) Z :=
  read_config_loop patience dev offset.

Definition virtio_write_config (dev offset value : Z) : ST (blk (vio A D)) unit :=
  virtio_write_reg dev (u32 (VIRTIO_REG_CONFIG + offset)) value.

End mmio.
