(* ===== verification/VirtioBlk.v ===== *)
(** The driver for block devices, [src/hal/virtio/virtio_blk.c] and
    [src/hal/virtio/device.c]: requests on one virtqueue, each waited for. *)

From S2P Require Import Prelude ListHead Sync Machine Alloc Blk Virtio Virtq VirtioMmio.

Definition VIRTIO_BLK_F_RO : Z := Z.shiftl 1 5.
Definition VIRTIO_BLK_F_SCSI : Z := Z.shiftl 1 7.
Definition VIRTIO_BLK_F_CONFIG_WCE : Z := Z.shiftl 1 11.
Definition VIRTIO_BLK_F_MQ : Z := Z.shiftl 1 12.
Definition VIRTIO_F_ANY_LAYOUT : Z := Z.shiftl 1 27.
Definition VIRTIO_RING_F_INDIRECT_DESC : Z := Z.shiftl 1 28.
Definition VIRTIO_RING_F_EVENT_IDX : Z := Z.shiftl 1 29.

(** [VIRTIO_MMIO_0] of the platform. *)
Definition VIRTIO_MMIO_0_addr : Z := 0x10001000.
Definition VIRTIO_MMIO_0_irqno : Z := 1.
Definition BLK_MAJOR_VIRTIO : Z := 1.

(** The table [virtio_blk_ops], and offsets in the structures. *)
Definition virtio_blk_ops : Z := -2000.
Definition sizeof_virtio_blk_device : Z := 200.
Definition blk_dev_of (p : Z) : Z := p + 120.
Definition sizeof_virtio_blk_request : Z := 40.
Definition sizeof_hdr : Z := 16.
Definition r_status_addr (req : Z) : Z := req + 24.

Section driver.
Context {A D : Type} `{KAlloc A} `{VirtioDevice A D}.

Definition kfree_req (req : Z) : ST (blk (vio A D)) unit :=
  do! on_valloc (ka_free req) in on_vio (modify (fun v => set_x_reqs (delete req (x_reqs v)) v)).

(** The loop that waits for the request, whatever requests are returned before. *)
Fixpoint wait_req (fuel : nat) (vq req : Z) : ST (blk (vio A D)) unit :=
  match fuel with
  | O => no_fuel
  | S fuel =>
      let! r := get_req req in
      if r_completed r then ret tt else
      do! device_step in
      let! b := virtq_has_buf vq in
      do! (if b then
             let! '(done, _) := virtq_get_buf vq in
             if done =? NULL then ret tt else upd_req done (set_r_completed true)
           else ret tt) in
      wait_req fuel vq req
  end.

Definition virtio_blk_rw_internal (dev sector buf nsectors : Z) (write : bool) : ST (blk (vio A D)) Z :=
  let! d := get_dev dev in
  let! b := get_vblk (bd_private d) in
  let! vq := load (fun _ => vqs (vdev b) !! 0%nat) in
  if vq =? NULL then ret (-1) else
  if vblk_capacity b <? u64 (sector + nsectors) then ret (-1) else
  let! req := on_valloc (ka_alloc sizeof_virtio_blk_request) in
  if req =? NULL then ret (-1) else
  do! on_vio (modify (fun v => set_x_reqs (<[req :=
        VReq (if write then VIRTIO_BLK_T_OUT else VIRTIO_BLK_T_IN) sector buf VIRTIO_BLK_S_IOERR nsectors false]> (x_reqs v)) v)) in
  let in_bufs := [VBuf req sizeof_hdr] in
  let out_bufs := [VBuf buf (u32 (nsectors * BLOCK_SIZE)); VBuf (r_status_addr req) 1] in
  let! idx := virtq_add_buf vq in_bufs out_bufs req in
  if idx <? 0 then do! kfree_req req in ret (-1) else
  do! virtq_kick vq in
  do! wait_req patience vq req in
  let! r := get_req req in
  let res := if r_status r =? VIRTIO_BLK_S_OK then 0 else -1 in
  do! kfree_req req in
  ret res.

Definition virtio_blk_read (dev sector buf nsectors : Z) : ST (blk (vio A D)) Z :=
  virtio_blk_rw_internal dev sector buf nsectors false.
Definition virtio_blk_write (dev sector buf nsectors : Z) : ST (blk (vio A D)) Z :=
  virtio_blk_rw_internal dev sector buf nsectors true.
Definition virtio_blk_flush (dev : Z) : ST (blk (vio A D)) Z := ret 0.
Definition virtio_blk_capacity (dev : Z) : ST (blk (vio A D)) Z :=
  let! d := get_dev dev in let! b := get_vblk (bd_private d) in ret (vblk_capacity b).
Definition virtio_blk_block_size (dev : Z) : ST (blk (vio A D)) Z :=
  let! d := get_dev dev in let! b := get_vblk (bd_private d) in ret (vblk_block_size b).

(** The table as it is when a device is registered. *)
#[export] Instance virtio_code : BlkCode (vio A D) := {
  blkops p :=
    if p =? virtio_blk_ops then
      {| read_op := Some virtio_blk_read; write_op := Some virtio_blk_write; flush_op := Some virtio_blk_flush;
         get_capacity_op := Some virtio_blk_capacity; get_block_size_op := Some virtio_blk_block_size |}
    else {| read_op := None; write_op := None; flush_op := None; get_capacity_op := None; get_block_size_op := None |}
}.

(** The loop of [virtio_blk_isr] over the requests that were returned. *)
Fixpoint drain (fuel : nat) (vq : Z) : ST (blk (vio A D)) unit :=
  match fuel with
  | O => no_fuel
  | S fuel =>
      let! b := virtq_has_buf vq in
      if negb b then ret tt else
      let! '(req, _) := virtq_get_buf vq in
      do! (if req =? NULL then ret tt else upd_req req (set_r_completed true)) in
      drain fuel vq
  end.

Definition virtio_blk_isr : ST (blk (vio A D)) unit :=
  let! virtio_blk := on_vio (gets x_virtio_blk) in
  if virtio_blk =? NULL then ret tt else
  do! virtio_irq_handler virtio_blk in
  let! d := get_vdev virtio_blk in
  let! vq := load (fun _ => vqs d !! 0%nat) in
  if vq =? NULL then ret tt else
  let! q := get_virtq vq in
  let! r := get_vring vq in
  drain (S (Z.to_nat (u16 (us_idx (vr_used r) - used_idx q)))) vq.

(** [kfree(virtio_blk)]: the static pointer keeps its value. *)
Definition kfree_vblk (p : Z) : ST (blk (vio A D)) unit :=
  do! on_valloc (ka_free p) in on_vio (modify (fun v => set_x_devs (delete p (x_devs v)) v)).

Definition virtio_blk_init : ST (blk (vio A D)) Z :=
  let regs := VIRTIO_MMIO_0_addr in
  let! ok := virtio_mmio_probe regs VIRTIO_MMIO_0_irqno in
  if ok <? 0 then ret (-1) else
  let! device_id := mmio_read32 (regs + VIRTIO_REG_DEVICE_ID) in
  if negb (device_id =? VIRTIO_DEVICE_TYPE_DISK) then ret (-1) else
  let! p := on_valloc (ka_alloc sizeof_virtio_blk_device) in
  do! on_vio (modify (set_x_virtio_blk p)) in
  if p =? NULL then ret (-1) else
  do! on_vio (modify (fun v => set_x_devs (<[p :=
        VBlk (VDev regs VIRTIO_MMIO_0_irqno 0 0 0 (replicate 8 NULL) 0 true) 0 0]> (x_devs v)) v)) in
  do! lock_init p in
  let! ok := virtio_mmio_init p in
  if ok <? 0 then do! kfree_vblk p in ret (-1) else
  let rejected := Z.lor (Z.lor (Z.lor (Z.lor (Z.lor (Z.lor VIRTIO_BLK_F_RO VIRTIO_BLK_F_SCSI)
    VIRTIO_BLK_F_CONFIG_WCE) VIRTIO_BLK_F_MQ) VIRTIO_F_ANY_LAYOUT) VIRTIO_RING_F_INDIRECT_DESC) VIRTIO_RING_F_EVENT_IDX in
  let! ok := virtio_negotiate_features p 0 rejected in
  if ok <? 0 then do! kfree_vblk p in ret (-1) else
  let! ok := virtio_setup_vq p 0 VIRTQ_SIZE in
  if ok <? 0 then do! kfree_vblk p in ret (-1) else
  let! capacity_lo := virtio_read_config p 0 in
  let! capacity_hi := virtio_read_config p 4 in
  let! block_size := virtio_read_config p 20 in
  do! upd_vblk p (fun b => VBlk (vdev b) (Z.lor (Z.shiftl capacity_hi 32) capacity_lo)
                             (if block_size =? 0 then BLOCK_SIZE else block_size)) in
  let! status := virtio_get_status p in
  do! virtio_set_status p (Z.lor status VIRTIO_CONFIG_S_DRIVER_OK) in
  do! modify (fun s => let 'Blk h c l d n v b t e := s in
        Blk h c l d n (<[blk_dev_of p := BlockDevice (MKDEV BLK_MAJOR_VIRTIO 0) virtio_blk_ops p]> v) b t e) in
  do! lock_init (bd_lock (blk_dev_of p)) in
  let! ok := blk_register (blk_dev_of p) in
  if ok <? 0 then
    do! modify (fun s => let 'Blk h c l d n v b t e := s in Blk h c l d n (delete (blk_dev_of p) v) b t e) in
    do! kfree_vblk p in ret (-1)
  else ret 0.

Definition virtio_init : ST (blk (vio A D)) Z :=
  let! r := virtio_blk_init in
  if r <? 0 then ret r else ret 0.

End driver.
