(* ===== verification/VirtioDisk.v ===== *)
(** A virtio disk that follows the standard, and runs of the driver on it. *)

From S2P Require Import Prelude ListHead Sync Machine Alloc Blk Virtio Virtq VirtqProof VirtqTop VirtioMmio VirtioBlk.

(** The disk: its sectors, the registers that were written, and the number of
    requests it has taken from its queue. *)
Record vdisk := VDisk { sectors : gmap Z (list Z); written : gmap Z Z; taken : Z }.

Section disk.
Context {A : Type} `{KAlloc A}.

Definition on_disk {B} (m : ST vdisk B) : ST (blk (vio A vdisk)) B := on_vio (lift x_dev set_x_dev m).

Definition disk_reg (k : Z) : ST (blk (vio A vdisk)) Z := on_disk (gets (fun d => default 0 (written d !! k))).

(** The registers of the platform's first device, with 64 sectors. *)
Definition disk_read32 (addr : Z) : ST (blk (vio A vdisk)) Z :=
  let k := addr - VIRTIO_MMIO_0_addr in
  if k =? VIRTIO_REG_MAGIC_VALUE then ret VIRTIO_MMIO_MAGIC else
  if k =? VIRTIO_REG_VERSION then ret VIRTIO_MMIO_VERSION else
  if k =? VIRTIO_REG_DEVICE_ID then ret VIRTIO_DEVICE_TYPE_DISK else
  if k =? VIRTIO_REG_QUEUE_NUM_MAX then ret 1024 else
  if k =? VIRTIO_REG_CONFIG then ret 64 else
  disk_reg k.

Definition disk_write32 (addr v : Z) : ST (blk (vio A vdisk)) unit :=
  on_disk (modify (fun d => VDisk (sectors d) (<[addr - VIRTIO_MMIO_0_addr := v]> (written d)) (taken d))).

(** A request is a header and a status byte with the data between them.  The
    device may only read buffers that are not marked for it to write, and may
    only write those that are. *)
Definition disk_serve (bs : list vbuf) : ST (blk (vio A vdisk)) unit :=
  match bs with
  | [Buffer hdr _ false; Buffer buf len w; Buffer _ _ true] =>
      let! r := get_req hdr in
      let! secs := on_disk (gets sectors) in
      match r_type r, w with
      | 0, true =>
          match secs !! r_sector r with
          | Some d =>
              do! modify (fun s => set_k_data (<[buf := d]> (k_data s)) s) in
              upd_req hdr (set_r_status VIRTIO_BLK_S_OK)
          | None => upd_req hdr (set_r_status VIRTIO_BLK_S_IOERR)
          end
      | 1, false =>
          let! d := load (fun s => k_data s !! buf) in
          do! on_disk (modify (fun v => VDisk (<[r_sector r := d]> (sectors v)) (written v) (taken v))) in
          upd_req hdr (set_r_status VIRTIO_BLK_S_OK)
      | _, _ => upd_req hdr (set_r_status VIRTIO_BLK_S_IOERR)
      end
  | _ => fault
  end.

(** One turn: the next request, if there is one. *)
Definition disk_step : ST (blk (vio A vdisk)) unit :=
  let! mem := disk_reg VIRTIO_REG_QUEUE_DESC_LO in
  let! n := disk_reg VIRTIO_REG_QUEUE_NUM in
  let! k := on_disk (gets taken) in
  let! r := on_vio (load (fun v => x_rings v !! mem)) in
  if k =? a_idx (vr_avail r) then ret tt else
  let! h := load (fun _ => a_ring (vr_avail r) !! Z.to_nat (k mod n)) in
  let! bs := load (fun _ => read_chain (S (length (vr_descs r))) (vr_descs r) h) in
  do! disk_serve bs in
  do! on_disk (modify (fun d => VDisk (sectors d) (written d) (u16 (k + 1)))) in
  let u := vr_used r in
  on_vio (modify (fun v => set_x_rings (<[mem := Vring (vr_descs r) (vr_avail r)
    (Used (us_flags u) (u16 (us_idx u + 1)) (<[Z.to_nat (us_idx u mod n) := UsedElem h 1]> (us_ring u)))]> (x_rings v)) v)).

#[export] Instance disk_device : VirtioDevice A vdisk := {
  patience := 5; mmio_read32 := disk_read32; mmio_write32 := disk_write32; device_step := disk_step
}.

End disk.

(** A machine with this disk, after [virtio_init], with a sector in memory at
    address 8. *)
Definition disk_machine : blk (vio bump vdisk) :=
  Blk (Hart (Intr 2 0 0) ∅) 0 (LStore ∅ ∅) (replicate 16 0) 0 ∅ ∅ {[8 := [1; 2; 3]]}
    (Vio (Bump 4096 9 ∅) ∅ ∅ ∅ ∅ 0 (VDisk {[0 := [7]; 5 := [9; 9]]} ∅ 0)).

Definition the_disk : Z := MKDEV BLK_MAJOR_VIRTIO 0.

(** The driver comes up, learns the size of the disk, and reads a sector. *)
Lemma virtio_read_works :
  match (let! ok := virtio_init in let! c := blk_capacity the_disk in let! r := blk_read the_disk 5 8 1 in
         ret (ok, c, r)) disk_machine with
  | Ok (x, s) => x = (0, 64, 0) /\ k_data s !! 8 = Some [9; 9]
  | _ => False
  end.
Proof. vm_compute. done. Qed.

(** A write fails: [virtq_add_buf] marks every buffer of the second array for
    the device to write, the data of a write request too. *)
Lemma virtio_write_fails :
  match (let! ok := virtio_init in blk_write the_disk 5 8 1) disk_machine with
  | Ok (r, s) => r = -1 /\ sectors (x_dev (k_env s)) !! 5 = Some [9; 9]
  | _ => False
  end.
Proof. vm_compute. done. Qed.

(** The bounds check wraps: a sector beyond the capacity is refused by the
    driver, but the last sector number of all is passed to the device. *)
Lemma virtio_bounds_wrap :
  match (let! _ := virtio_init in let! r := blk_read the_disk 64 8 1 in let! k := on_disk (gets taken) in
         let! r' := blk_read the_disk (2 ^ 64 - 1) 8 1 in let! k' := on_disk (gets taken) in ret (r, k, r', k')) disk_machine with
  | Ok (x, _) => x = (-1, 0, -1, 1)
  | _ => False
  end.
Proof. vm_compute. done. Qed.

(** The interrupt handler finds no request that the polling loop left. *)
Lemma virtio_isr_idle :
  match (let! _ := virtio_init in let! r := blk_read the_disk 5 8 1 in do! virtio_blk_isr in ret r) disk_machine with
  | Ok (r, s) => r = 0 /\ x_reqs (k_env s) = ∅
  | _ => False
  end.
Proof. vm_compute. done. Qed.
