(* ===== verification/Plic.v ===== *)
(** The interrupt controller, [src/hal/plic.c].

    Its registers are device memory behind [plic.regs]: loads and stores of the
    class [PlicDevice], as claiming an interrupt changes the device.  A failed
    [assert] is a panic; before [plic_init] the pointer is null. *)

From S2P Require Import Prelude.

Definition PLIC_MAX_IRQ_NUM : Z := 1024.
Definition PLIC_MAX_CTX_NUM : Z := 15872.
Definition PLIC_addr : Z := 0x0c000000.

(** [mode] is a character. *)
Definition mode_S : Z := 83.
Definition mode_M : Z := 77.

Definition PLIC_CTX (hart mode : Z) : Z := hart * 2 + (if mode =? mode_S then 1 else 0).

(** Offsets in [struct plic_regs]. *)
Definition plic_priority (irqno : Z) : Z := 4 * irqno.
Definition plic_enable_base (ctx : Z) : Z := 0x2000 + PLIC_MAX_IRQ_NUM / 8 * ctx.
Definition plic_threshold (ctx : Z) : Z := 0x200000 + 0x1000 * ctx.
Definition plic_claim_complete (ctx : Z) : Z := 0x200000 + 0x1000 * ctx + 4.

Class PlicDevice (P : Type) := {
  plic_load32 : Z -> ST P Z;
  plic_store32 : Z -> Z -> ST P unit;
  plic_load8 : Z -> ST P Z;
  plic_store8 : Z -> Z -> ST P unit
}.

Record plic (P : Type) := Plic { plic_regs : Z; plic_dev : P }.
Arguments Plic {P}.
Arguments plic_regs {P}.
Arguments plic_dev {P}.

Section plic.
Context {P : Type} `{PlicDevice P}.

Definition on_plic {B} (m : ST P B) : ST (plic P) B := lift plic_dev (fun d s => Plic (plic_regs s) d) m.

(** The address of a register. *)
Definition plic_reg (offset : Z) : ST (plic P) Z :=
  let! regs := gets plic_regs in if regs =? NULL then fault else ret (regs + offset).

Definition assert (b : bool) : ST (plic P) unit := if b then ret tt else panic.

Definition check_mode (mode : Z) : ST (plic P) unit := assert ((mode =? mode_S) || (mode =? mode_M)).
Definition check_hartid (hartid : Z) : ST (plic P) unit := assert (hartid <? CPU_NUM).
Definition check_irqno (irqno : Z) : ST (plic P) unit := assert ((0 <? irqno) && (irqno <? PLIC_MAX_IRQ_NUM)).

Definition plic_init : ST (plic P) unit := modify (fun s => Plic PLIC_addr (plic_dev s)).

Definition plic_set_priority (irqno priority : Z) : ST (plic P) unit :=
  do! check_irqno irqno in
  let! a := plic_reg (plic_priority irqno) in
  on_plic (plic_store32 a priority).

(** [bitmap_set] and [bitmap_clear] on the enable registers, one byte at a time. *)
Definition plic_enable (mode hartid irqno : Z) : ST (plic P) unit :=
  do! check_mode mode in
  do! check_hartid hartid in
  do! check_irqno irqno in
  let! a := plic_reg (plic_enable_base (PLIC_CTX hartid mode) + Z.shiftr irqno 3) in
  let! b := on_plic (plic_load8 a) in
  on_plic (plic_store8 a (u8 (Z.lor b (Z.shiftl 1 (Z.land irqno 7))))).

Definition plic_disable (mode hartid irqno : Z) : ST (plic P) unit :=
  do! check_mode mode in
  do! check_hartid hartid in
  do! check_irqno irqno in
  let! a := plic_reg (plic_enable_base (PLIC_CTX hartid mode) + Z.shiftr irqno 3) in
  let! b := on_plic (plic_load8 a) in
  on_plic (plic_store8 a (u8 (and_not b (Z.shiftl 1 (Z.land irqno 7))))).

Definition plic_set_threshold (mode hartid threshold : Z) : ST (plic P) unit :=
  do! check_mode mode in
  do! check_hartid hartid in
  let! a := plic_reg (plic_threshold (PLIC_CTX hartid mode)) in
  on_plic (plic_store32 a threshold).

Definition plic_claim (mode hartid : Z) : ST (plic P) Z :=
  do! check_mode mode in
  do! check_hartid hartid in
  let! a := plic_reg (plic_claim_complete (PLIC_CTX hartid mode)) in
  on_plic (plic_load32 a).

Definition plic_complete (mode hartid irqno : Z) : ST (plic P) unit :=
  do! check_mode mode in
  do! check_hartid hartid in
  do! check_irqno irqno in
  let! a := plic_reg (plic_claim_complete (PLIC_CTX hartid mode)) in
  on_plic (plic_store32 a irqno).

End plic.
