(* ===== verification/Trap.v ===== *)
(** Traps taken in the kernel, [src/trap/trap.c], and the timer of
    [src/hal/timer.c]: the state that the scheduler, the block driver and the
    interrupt controller share through the trap handler. *)

From S2P Require Import Prelude Sync Machine Alloc Vfs Proc Sched Blk Virtio VirtioBlk Plic.

(** [scause] of exceptions and interrupts. *)
Definition SupervisorSoft : Z := 1.
Definition SupervisorTimer : Z := 5.
Definition SupervisorExternal : Z := 9.
Definition IRQ_BIT : Z := 63.

Definition TIMEBASE_FREQ : Z := 10000000.
Definition TIMER_IRQ_HZ : Z := 100.

Definition us_to_cputime (us : Z) : Z := u64 (us * TIMEBASE_FREQ) / 1000000.

(** What [kerneltrap] reads of the [ktrapframe]. *)
Record ktrapframe := Ktf { sepc : Z; k_sstatus : Z; scause : Z }.

(** [tr_virtio] is the state of the block driver without its hart, which is
    that of [tr_task]. *)
Record trap (A B D P : Type) := Trap {
  tr_task : task A;
  tr_virtio : blk (vio B D);
  tr_plic : plic P;
  kernel_tick : Z; last : Z; interval : Z;
  tr_time : Z;                            (* the time register *)
  tr_timecmp : Z;                         (* the next timer interrupt, [sbi_set_timer] *)
  tr_stvec : Z; tr_sie : Z;
  machine_mode : bool;                    (* the privilege mode of the hart *)
  sched_enabled : bool
}.
Arguments Trap {A B D P}.
Arguments tr_task {A B D P}.
Arguments tr_virtio {A B D P}.
Arguments tr_plic {A B D P}.
Arguments kernel_tick {A B D P}.
Arguments last {A B D P}.
Arguments interval {A B D P}.
Arguments tr_time {A B D P}.
Arguments tr_timecmp {A B D P}.
Arguments tr_stvec {A B D P}.
Arguments tr_sie {A B D P}.
Arguments machine_mode {A B D P}.
Arguments sched_enabled {A B D P}.

Section trap.
Context {A B D P : Type} `{KAlloc A} `{FsCode A} `{KAlloc B} `{VirtioDevice B D} `{PlicDevice P}.
Implicit Types s : trap A B D P.

Definition set_tr_task x s : trap A B D P :=
  let 'Trap _ v p k l i t c sv se m e := s in Trap x v p k l i t c sv se m e.
Definition set_tr_virtio x s : trap A B D P :=
  let 'Trap a _ p k l i t c sv se m e := s in Trap a x p k l i t c sv se m e.
Definition set_tr_plic x s : trap A B D P :=
  let 'Trap a v _ k l i t c sv se m e := s in Trap a v x k l i t c sv se m e.
Definition set_clock k l i s : trap A B D P :=
  let 'Trap a v p _ _ _ t c sv se m e := s in Trap a v p k l i t c sv se m e.
Definition set_tr_timecmp x s : trap A B D P :=
  let 'Trap a v p k l i t _ sv se m e := s in Trap a v p k l i t x sv se m e.
Definition set_tr_stvec x s : trap A B D P :=
  let 'Trap a v p k l i t c _ se m e := s in Trap a v p k l i t c x se m e.
Definition set_tr_sie x s : trap A B D P :=
  let 'Trap a v p k l i t c sv _ m e := s in Trap a v p k l i t c sv x m e.

Definition on_task {C} (m : ST (task A) C) : ST (trap A B D P) C := lift tr_task set_tr_task m.
Definition on_tplic {C} (m : ST (plic P) C) : ST (trap A B D P) C := lift tr_plic set_tr_plic m.

(** The driver runs on the hart of the task that was interrupted. *)
Definition on_virtio {C} (m : ST (blk (vio B D)) C) : ST (trap A B D P) C :=
  lift (fun s => set_k_hart (hart_of (tr_task s)) (tr_virtio s))
       (fun v s => set_tr_virtio v (set_tr_task (set_hart (k_hart v) (tr_task s)) s)) m.

Definition r_time : ST (trap A B D P) Z := gets tr_time.
Definition sbi_set_timer (t : Z) : ST (trap A B D P) unit := modify (set_tr_timecmp t).

(** The number of the hart is a register of the machine mode: to read it in
    another mode is an illegal instruction, and the trap handler panics. *)
Definition r_mhartid : ST (trap A B D P) Z :=
  let! m := gets machine_mode in if m then gets (fun s => cpu_of (tr_task s)) else panic.

(** ** timer.c *)

Definition tick : ST (trap A B D P) Z := gets kernel_tick.

Definition timer_init : ST (trap A B D P) unit :=
  let i := us_to_cputime (1000000 / TIMER_IRQ_HZ) in
  let! l := r_time in
  do! sbi_set_timer (u64 (l + i)) in
  if i =? 0 then fault else
  modify (set_clock (l / i) l i).

Definition handle_timer : ST (trap A B D P) unit :=
  do! modify (fun s => set_clock (u64 (kernel_tick s + 1)) (u64 (last s + interval s)) (interval s) s) in
  let! l := gets last in
  let! i := gets interval in
  do! sbi_set_timer (u64 (l + i)) in
  on_task (upd_cpu (set_need_resched true)).

(** ** trap.c *)

Definition handle_external : ST (trap A B D P) unit :=
  let! hartid := r_mhartid in
  let! irqno := on_tplic (plic_claim mode_S hartid) in
  if irqno =? 0 then ret tt else
  do! (if irqno =? 1 then on_virtio virtio_blk_isr else ret tt) in
  on_tplic (plic_complete mode_S hartid irqno).

Definition set_kerneltrap (kernelvec : Z) : ST (trap A B D P) unit :=
  modify (set_tr_stvec (and_not kernelvec 3)).

Definition trap_init (kernelvec : Z) : ST (trap A B D P) Z :=
  do! set_kerneltrap kernelvec in
  do! modify (fun s => set_tr_sie (Z.lor (tr_sie s) (Z.lor (Z.lor (Z.shiftl 1 9) (Z.shiftl 1 5)) (Z.shiftl 1 1))) s) in
  do! on_task (let! st := r_sstatus in w_sstatus (Z.lor st SSTATUS_SIE)) in
  ret 0.

(** Every exception is a panic.  The result is the thread that has the hart
    when the handler has yielded. *)
Definition kerneltrap (ktf : ktrapframe) : ST (trap A B D P) (option Z) :=
  if negb (Z.testbit (scause ktf) IRQ_BIT) then panic else
  let irq := s32 (Z.land (scause ktf) 0x3FF) in
  do! (if irq =? SupervisorSoft then ret tt
       else if irq =? SupervisorTimer then handle_timer
       else if irq =? SupervisorExternal then handle_external
       else panic) in
  let! enabled := gets sched_enabled in
  if enabled then
    let! c := on_task thiscpu in
    if need_resched c then let! p := on_task (sched_yield yield_returns) in ret (Some p) else ret None
  else ret None.

End trap.
