(* ===== verification/TrapProof.v ===== *)
(** Timer interrupts: the clock advances evenly, and the threads share the hart
    without yielding themselves. *)

From S2P Require Import Prelude ListHead Sync Machine Alloc Vfs VfsProof FdProof Proc Sched ProcProof SchedProof Blk Virtio VirtioBlk Plic Trap.

(** A round of the machine [rr_next] in which the running thread goes to the
    end of the queue. *)
Definition rr_turn (idle : Z) (st : Z * list Z) : Z * list Z :=
  rr_next idle (if st.1 =? idle then st.2 else st.2 ++ [st.1]).

Fixpoint rr_turns (k : nat) (idle : Z) (st : Z * list Z) : list Z * (Z * list Z) :=
  match k with
  | O => ([], st)
  | S k => let st' := rr_turn idle st in let r := rr_turns k idle st' in (st'.1 :: r.1, r.2)
  end.

(** The thread at position [i] of the queue has the hart after turn [i]. *)
Lemma rr_turns_fair k idle : forall st i p,
  st.2 !! i = Some p -> (i < k)%nat -> (rr_turns k idle st).1 !! i = Some p.
Proof.
  induction k as [|k IH]; intros [cur q] i p Hi Hk; [lia|]. cbn [rr_turns fst snd] in *.
  assert ((if cur =? idle then q else q ++ [cur]) !! i = Some p) as Hi'.
  { destruct (cur =? idle); [done|]. rewrite lookup_app_l; [done|]. by eapply lookup_lt_Some. }
  unfold rr_turn at 1 2. cbn [fst snd]. destruct (if cur =? idle then q else q ++ [cur]) as [|p0 q0]; [done|].
  destruct i as [|i]; cbn [rr_next fst snd lookup list_lookup] in *; [done|]. apply IH; [done|lia].
Qed.

Section timer.
Context {A B D P : Type} `{KAlloc A} `{FsCode A} {own : A -> gmap Z Z -> Prop} {HB : KBlocks A own}.
Context `{KAlloc B} `{VirtioDevice B D} `{PlicDevice P}.
Implicit Types s : trap A B D P.

(** A sequence of traps; the threads that have the hart after each. *)
Fixpoint run_traps (fs : list ktrapframe) : ST (trap A B D P) (list (option Z)) :=
  match fs with
  | [] => ret []
  | f :: fs => let! p := kerneltrap f in let! ps := run_traps fs in ret (p :: ps)
  end.

Definition timer_frame (f : ktrapframe) : Prop := scause f = 2 ^ IRQ_BIT + SupervisorTimer.

(** The clock after [k] timer interrupts. *)
Definition clock_after (k : nat) s s' : Prop :=
  interval s' = interval s /\ sched_enabled s' = sched_enabled s /\
  kernel_tick s' = u64 (kernel_tick s + Z.of_nat k) /\ last s' = u64 (last s + Z.of_nat k * interval s) /\
  (k <> 0%nat -> tr_timecmp s' = u64 (last s + (Z.of_nat k + 1) * interval s)).

Lemma sched_cpu_flag X n cur q c b (t : task A) :
  sched_inv (own := own) X n cur q t -> t_cpus t !! cpu_of t = Some c ->
  sched_inv (own := own) X n cur q (set_t_cpus (<[cpu_of t := set_need_resched b c]> (t_cpus t)) t).
Proof.
  intros [Hb (c' & Hc' & Hcur) Hp Hr] Hc. rewrite Hc in Hc'. injection Hc' as <-.
  split; [by apply base_cpus| |by destruct t as [[] ???????]|by destruct t as [[] ???????]].
  exists (set_need_resched b c). destruct t as [[] ???????]; cbn in *. split; [apply lookup_insert_eq|done].
Qed.

Lemma u64_add a b : u64 (u64 a + b) = u64 (a + b).
Proof. unfold wrap. by rewrite Zplus_mod_idemp_l. Qed.

(** One timer interrupt. *)
Lemma timer_trap X n cur q f s :
  sched_inv (own := own) X n cur q (tr_task s) -> sched_enabled s = true -> timer_frame f ->
  wp False (kerneltrap f)
    (fun p s' => let st' := rr_turn (idle_of (tr_task s)) (cur, q) in
       p = Some st'.1 /\ sched_inv (own := own) X n st'.1 st'.2 (tr_task s') /\ idle_of (tr_task s') = idle_of (tr_task s) /\
       clock_after 1 s s' /\ tr_timecmp s' = u64 (last s' + interval s)) s.
Proof.
  intros Hinv Hen Hf. destruct s as [t v p k l i tm tc sv se m e]. cbn in Hinv, Hen. subst e. unfold kerneltrap. rewrite Hf.
  change (negb _) with false. change (s32 _) with SupervisorTimer. cbv iota. change (SupervisorTimer =? SupervisorSoft) with false.
  change (SupervisorTimer =? SupervisorTimer) with true. cbv iota. destruct (si_cur _ _ _ _ _ Hinv) as (c & Hc & _).
  apply wp_bind. unfold handle_timer. apply wp_bind, wp_modify, wp_bind, wp_gets, wp_bind, wp_gets, wp_bind, wp_modify. cbn.
  apply wp_lift. cbn. eapply wp_upd_cpu; [exact Hc|]. cbn. apply wp_bind, wp_gets. cbn.
  pose proof (sched_cpu_flag X n cur q c true t Hinv Hc) as Hinv1.
  set (t1 := set_t_cpus _ t) in *. clear Hinv.
  assert (t_cpus t1 !! cpu_of t1 = Some (set_need_resched true c)) as Hc1 by (subst t1; destruct t as [[] ???????]; apply lookup_insert_eq).
  assert (idle_of t1 = idle_of t) as Hid by (subst t1; by destruct t as [[] ???????]).
  apply wp_bind, wp_lift. eapply wp_load; [exact Hc1|]. cbn. apply wp_bind, wp_lift. cbn.
  eapply wp_mono; [by eapply yield_spec|done|]. cbv beta. intros p1 t2 (Hi2 & -> & Hinv2). apply wp_ret. cbn.
  rewrite Hid in *. split; [done|]. split; [exact Hinv2|]. split; [done|]. split; [|done].
  split; [done|]. split; [done|]. split; [done|]. split; [cbn; f_equal; lia|]. intros _. cbn. rewrite u64_add. f_equal. lia.
Qed.

Lemma clock_add k s s1 s2 :
  clock_after 1 s s1 -> clock_after k s1 s2 ->
  (k = 0%nat -> tr_timecmp s2 = u64 (last s + 2 * interval s)) -> clock_after (S k) s s2.
Proof.
  intros (I1 & E1 & T1 & L1 & _) (I2 & E2 & T2 & L2 & C2) Hz. rewrite I1 in *. split; [done|]. split; [congruence|].
  split; [rewrite T2, T1, u64_add; f_equal; lia|]. split; [rewrite L2, L1, u64_add; f_equal; lia|]. intros _.
  destruct k as [|k]; [rewrite Hz by done; f_equal; lia|]. rewrite C2, L1, u64_add by done. f_equal. lia.
Qed.

Lemma timer_traps X n fs : forall cur q s,
  sched_inv (own := own) X n cur q (tr_task s) -> sched_enabled s = true -> (forall f, f ∈ fs -> timer_frame f) ->
  kernel_tick s = u64 (kernel_tick s) -> last s = u64 (last s) ->
  wp False (run_traps fs)
    (fun ps s' => let r := rr_turns (length fs) (idle_of (tr_task s)) (cur, q) in
       ps = map Some r.1 /\ sched_inv (own := own) X n r.2.1 r.2.2 (tr_task s') /\ clock_after (length fs) s s' /\
       (fs = [] -> tr_timecmp s' = tr_timecmp s)) s.
Proof.
  induction fs as [|f fs IH]; intros cur q s Hinv Hen Hf Hk Hl; cbn [run_traps length rr_turns].
  - apply wp_ret. split; [done|]. split; [done|]. split; [|done]. split; [done|]. split; [done|].
    split; [rewrite Z.add_0_r; done|]. split; [cbn; rewrite Z.add_0_r; done|done].
  - eapply wp_bind_mono; [eapply timer_trap; [exact Hinv|done|apply Hf; left]|]. cbv beta. intros p s1 (-> & Hinv1 & Hid & Hck & Htc).
    destruct (rr_turn (idle_of (tr_task s)) (cur, q)) as [cur1 q1]. cbn [fst snd] in *.
    pose proof Hck as (I1 & E1 & T1 & L1 & C1).
    eapply wp_bind_mono; [eapply IH; [exact Hinv1|congruence|intros g Hg; apply Hf; by right| |]|].
    { rewrite T1. unfold wrap. by rewrite Z.mod_mod by done. } { rewrite L1. unfold wrap. by rewrite Z.mod_mod by done. }
    cbv beta. intros ps s2 (-> & Hinv2 & Hck2 & Hz). apply wp_ret. rewrite Hid in *. split; [done|]. split; [exact Hinv2|]. split; [|done].
    eapply clock_add; [exact Hck|exact Hck2|]. intros Hlen. destruct fs; [|done]. rewrite Hz by done. rewrite C1 by done. f_equal; lia.
Qed.

(** [C36] Timer interrupts are regular and preempt fairly: any number of them, taken while threads run that never yield, returns
    without a panic or a fault; each advances the tick by one and arms the timer exactly one interval after the last due time,
    so no drift accumulates however late the handler runs; each hands the hart to the next thread in turn, and a waiting thread at
    position [i] of the queue runs after interrupt [i + 1]. *)
Theorem timer_preempts X n cur q fs s :
  sched_inv (own := own) X n cur q (tr_task s) -> sched_enabled s = true -> (forall f, f ∈ fs -> timer_frame f) ->
  kernel_tick s = u64 (kernel_tick s) -> last s = u64 (last s) ->
  wp False (run_traps fs)
    (fun ps s' => clock_after (length fs) s s' /\
       (exists cur' q', sched_inv (own := own) X n cur' q' (tr_task s')) /\
       ps = map Some (rr_turns (length fs) (idle_of (tr_task s)) (cur, q)).1 /\
       forall i p, q !! i = Some p -> (i < length fs)%nat -> ps !! i = Some (Some p)) s.
Proof.
  intros Hinv Hen Hf Hk Hl. eapply wp_mono; [by apply timer_traps|done|]. cbv beta. intros ps s' (-> & Hinv' & Hck & _).
  split; [done|]. split; [by eexists _, _|]. split; [done|]. intros i p Hi Hlt.
  rewrite list_lookup_fmap. by rewrite (rr_turns_fair _ _ (cur, q) i p).
Qed.

(** The window in [sched_yield]: between the store to [cpu->proc] and the switch
    the hart has no thread, and a timer interrupt there panics. *)
Lemma yield_window_panics f s :
  (exists c, t_cpus (tr_task s) !! cpu_of (tr_task s) = Some c /\ c_proc c = NULL) -> sched_enabled s = true -> timer_frame f ->
  kerneltrap f s = Panic.
Proof.
  intros (c & Hc & Hn) Hen Hf. destruct s as [t v p k l i tm tc sv se m e]. cbn in Hc, Hen. subst e. unfold kerneltrap. rewrite Hf.
  change (negb _) with false. change (s32 _) with SupervisorTimer. cbv iota. change (SupervisorTimer =? SupervisorSoft) with false.
  change (SupervisorTimer =? SupervisorTimer) with true. cbv iota. cbn in Hc.
  destruct t as [vf procs cpus vmas tables words np kp]. cbn in Hc.
  unfold handle_timer, on_task, upd_cpu, thiscpu, sched_yield, put_back, Proc.thiscpu, bind, modify, gets, lift, store, load, sbi_set_timer. cbn.
  rewrite Hc. cbn. rewrite lookup_insert_eq. cbn. rewrite lookup_insert_eq. cbn. by rewrite Hn.
Qed.

(** In the supervisor mode of the kernel no external interrupt is served. *)
Lemma handle_external_panics s : machine_mode s = false -> handle_external s = Panic.
Proof. intros Hm. unfold handle_external, r_mhartid, bind, gets. by rewrite Hm. Qed.

End timer.

(** Two threads wait while the hart idles; the clock is about to wrap. *)
#[local] Instance no_plic : PlicDevice unit := {
  plic_load32 _ := ret 0; plic_store32 _ _ := ret tt; plic_load8 _ := ret 0; plic_store8 _ _ := ret tt
}.

#[local] Instance no_virtio : VirtioDevice bump unit := {
  patience := 0; mmio_read32 _ := ret 0; mmio_write32 _ _ := ret tt; device_step := ret tt
}.

Definition two_ticking : trap bump bump unit unit :=
  Trap two_waiting (Blk (Hart (Intr 2 0 0) ∅) 0 (LStore ∅ ∅) [] 0 ∅ ∅ ∅ (Vio (Bump 4096 9 ∅) ∅ ∅ ∅ ∅ 0 tt)) (Plic 0 tt)
    (2 ^ 64 - 2) (2 ^ 64 - 5) 100000 0 0 0 0 false true.

Lemma timer_preempts_witness :
  wp False (run_traps [Ktf 0 0 (2 ^ 63 + 5); Ktf 8 0 (2 ^ 63 + 5); Ktf 16 2 (2 ^ 63 + 5)])
    (fun ps s' => clock_after 3 two_ticking s' /\
       (exists X n cur' q', sched_inv (own := bump_blocks) X n cur' q' (tr_task s')) /\
       ps = [Some 4096; Some 9056; Some 4096]) two_ticking.
Proof.
  destruct two_waiting_inv as (X & n & _ & Hinv).
  assert (idle_of two_waiting = cpu_idle 0) as Hid by (vm_compute; reflexivity).
  eapply wp_mono; [refine (timer_preempts (own := bump_blocks) X n (cpu_idle 0) [4096; 9056]
    [Ktf 0 0 (2 ^ 63 + 5); Ktf 8 0 (2 ^ 63 + 5); Ktf 16 2 (2 ^ 63 + 5)] two_ticking Hinv eq_refl _ eq_refl eq_refl)|done|].
  - intros f Hf. clear -Hf. rewrite !elem_of_cons, elem_of_nil in Hf. destruct Hf as [->|[->|[->|[]]]]; reflexivity.
  - cbv beta. intros ps s' (Hck & (cur' & q' & Hinv') & -> & _). split; [exact Hck|]. split; [by exists X, n, cur', q'|].
    change (tr_task two_ticking) with two_waiting. rewrite Hid. reflexivity.
Defined.
