(* ===== verification/Printf.v ===== *)
(** Formatted printing, [src/misc/printf.c], as it is configured here:
    integers, characters, strings and pointers ([PRINTF_DISABLE_SUPPORT_FLOAT]
    leaves the floating point conversions out).

    [long], [long long], [size_t] and pointers have 64 bits, so that [t], [j]
    and [z] mean [long]; [char] is unsigned on RISC-V.  A variable argument is a
    slot of 64 bits of which [va_arg] reads the part its type has.  The
    conversion buffer [buf] with its [len] is the list of the characters written
    so far, least significant first. *)

From Stdlib Require Import Ascii.
From S2P Require Import Prelude Sync CString.

(** The code of a character constant. *)
Definition ch (a : Ascii.ascii) : Z := Z.of_N (Ascii.N_of_ascii a).
Arguments ch a%_char_scope.

(** ** Constants *)

Definition PRINTF_NTOA_BUFFER_SIZE : Z := 32.

Definition FLAGS_ZEROPAD : Z := Z.shiftl 1 0.
Definition FLAGS_LEFT : Z := Z.shiftl 1 1.
Definition FLAGS_PLUS : Z := Z.shiftl 1 2.
Definition FLAGS_SPACE : Z := Z.shiftl 1 3.
Definition FLAGS_HASH : Z := Z.shiftl 1 4.
Definition FLAGS_UPPERCASE : Z := Z.shiftl 1 5.
Definition FLAGS_CHAR : Z := Z.shiftl 1 6.
Definition FLAGS_SHORT : Z := Z.shiftl 1 7.
Definition FLAGS_LONG : Z := Z.shiftl 1 8.
Definition FLAGS_LONG_LONG : Z := Z.shiftl 1 9.
Definition FLAGS_PRECISION : Z := Z.shiftl 1 10.

(** [flags & m] as a condition. *)
Definition has (flags m : Z) : bool := negb (Z.land flags m =? 0).

(** ** State *)

(** Memory, the characters sent to the console, the variable arguments that
    are left, and the hart with the lock of [printf_]. *)
Record pst := PS { p_mem : mem; p_con : list Z; p_va : list Z; p_lock : hart_lock }.

Definition on_mem {A} (m : ST mem A) : ST pst A :=
  lift p_mem (fun m s => PS m (p_con s) (p_va s) (p_lock s)) m.
Definition on_lock {A} (m : ST hart_lock A) : ST pst A :=
  lift p_lock (fun l s => PS (p_mem s) (p_con s) (p_va s) l) m.
Definition set_va (va : list Z) : ST pst unit :=
  modify (fun s => PS (p_mem s) (p_con s) va (p_lock s)).

Definition lds (p : Z) : ST pst Z := on_mem (ld p).

(** The next slot; reading past the arguments is undefined. *)
Definition va_arg : ST pst Z :=
  let! va := gets p_va in
  match va with [] => fault | a :: va => do! set_va va in ret a end.

(** A loop that ends with the data in memory. *)
Definition by_mem {A} (f : nat -> ST pst A) : ST pst A :=
  let! n := gets (fun s => size (p_mem s)) in f (S n).

Definition _putchar (character : Z) : ST pst unit :=
  modify (fun s => PS (p_mem s) (p_con s ++ [character]) (p_va s) (p_lock s)).

Section printf.

(** The function a caller passes to [fctprintf], with its second argument,
    and the address of the local buffer or wrapper on the stack. *)
Context (fct : Z -> Z -> ST mem unit) (local : Z).

(** ** Output functions *)

(** The four functions of the type; the wrapper [buffer] points to is the
    argument of [OutFct]. *)
Inductive out_fct_type := OutBuffer | OutNull | OutChar | OutFct (arg : Z).

Definition _out_buffer (character buffer idx maxlen : Z) : ST pst unit :=
  if idx <? maxlen then on_mem (st (buffer + idx) character) else ret tt.

Definition _out_null (character buffer idx maxlen : Z) : ST pst unit := ret tt.

Definition _out_char (character buffer idx maxlen : Z) : ST pst unit :=
  if negb (character =? 0) then _putchar character else ret tt.

Definition _out_fct (arg character buffer idx maxlen : Z) : ST pst unit :=
  if negb (character =? 0) then on_mem (fct character arg) else ret tt.

Definition out (f : out_fct_type) : Z -> Z -> Z -> Z -> ST pst unit :=
  match f with
  | OutBuffer => _out_buffer
  | OutNull => _out_null
  | OutChar => _out_char
  | OutFct arg => _out_fct arg
  end.

(** [for (...) out(c, buffer, idx++, maxlen)] over the characters of a list. *)
Fixpoint outs (f : out_fct_type) (buffer idx maxlen : Z) (l : list Z) : ST pst Z :=
  match l with
  | [] => ret idx
  | c :: l => do! out f c buffer idx maxlen in outs f buffer (u64 (idx + 1)) maxlen l
  end.

(** [n] spaces; no space when [n] is negative. *)
Definition out_spaces (f : out_fct_type) (buffer idx maxlen n : Z) : ST pst Z :=
  outs f buffer idx maxlen (repeat (ch " ") (Z.to_nat n)).

(** ** Scanning *)

Fixpoint strnlen_s_loop (fuel : nat) (s maxsize : Z) : ST pst Z :=
  match fuel with
  | O => no_fuel
  | S fuel =>
      let! c := lds s in
      if c =? 0 then ret s else
      if maxsize =? 0 then ret s else strnlen_s_loop fuel (s + 1) (maxsize - 1)
  end.

Definition _strnlen_s (str maxsize : Z) : ST pst Z :=
  let! s := by_mem (fun n => strnlen_s_loop n str maxsize) in ret (u32 (s - str)).

Definition _is_digit (c : Z) : bool := (ch "0" <=? c) && (c <=? ch "9").

(** The number and the pointer behind it. *)
Fixpoint atoi_loop (fuel : nat) (str i : Z) : ST pst (Z * Z) :=
  match fuel with
  | O => no_fuel
  | S fuel =>
      let! c := lds str in
      if _is_digit c then atoi_loop fuel (str + 1) (u32 (i * 10 + u32 (c - ch "0"))) else ret (i, str)
  end.

Definition _atoi (str : Z) : ST pst (Z * Z) := by_mem (fun n => atoi_loop n str 0).

(** ** Numbers *)

(** [while (idx - start_idx < width) out(' ', buffer, idx++, maxlen)]. *)
Fixpoint pad_to (fuel : nat) (f : out_fct_type) (buffer start_idx idx maxlen width : Z) : ST pst Z :=
  match fuel with
  | O => no_fuel
  | S fuel =>
      if u64 (idx - start_idx) <? width
      then do! out f (ch " ") buffer idx maxlen in
           pad_to fuel f buffer start_idx (u64 (idx + 1)) maxlen width
      else ret idx
  end.

Definition _out_rev (f : out_fct_type) (buffer idx maxlen : Z) (buf : list Z) (width flags : Z) : ST pst Z :=
  let start_idx := idx in
  let! idx :=
    (if negb (has flags FLAGS_LEFT) && negb (has flags FLAGS_ZEROPAD)
     then out_spaces f buffer idx maxlen (width - Z.of_nat (length buf)) else ret idx) in
  let! idx := outs f buffer idx maxlen (rev buf) in
  if has flags FLAGS_LEFT then pad_to (S (Z.to_nat width)) f buffer start_idx idx maxlen width
  else ret idx.

(** [buf[len++] = c]. *)
Definition push (buf : list Z) (c : Z) : ST pst (list Z) :=
  if Z.of_nat (length buf) <? PRINTF_NTOA_BUFFER_SIZE then ret (buf ++ [u8 c]) else fault.

Definition fits (buf : list Z) : bool := Z.of_nat (length buf) <? PRINTF_NTOA_BUFFER_SIZE.

(** [while ((len < n) && (len < PRINTF_NTOA_BUFFER_SIZE)) buf[len++] = '0']. *)
Fixpoint pad_zeros (fuel : nat) (buf : list Z) (n : Z) : ST pst (list Z) :=
  match fuel with
  | O => no_fuel
  | S fuel =>
      if (Z.of_nat (length buf) <? n) && fits buf
      then let! buf := push buf (ch "0") in pad_zeros fuel buf n else ret buf
  end.

(** The part of [_ntoa_format] that pads with zeros; it may decrease [width]. *)
Definition ntoa_zeros (buf : list Z) (negative : bool) (prec width flags : Z) : ST pst (list Z * Z) :=
  if has flags FLAGS_LEFT then ret (buf, width) else
  let width := if negb (width =? 0) && has flags FLAGS_ZEROPAD
                  && (negative || has flags (Z.lor FLAGS_PLUS FLAGS_SPACE))
               then width - 1 else width in
  let! buf := pad_zeros 33 buf prec in
  let! buf := (if has flags FLAGS_ZEROPAD then pad_zeros 33 buf width else ret buf) in
  ret (buf, width).

(** The part that handles the [#] flag; [removelast] is [len--]. *)
Definition ntoa_hash (buf : list Z) (base prec width flags : Z) : ST pst (list Z) :=
  if negb (has flags FLAGS_HASH) then ret buf else
  let len := Z.of_nat (length buf) in
  let buf :=
    if negb (has flags FLAGS_PRECISION) && negb (len =? 0) && ((len =? prec) || (len =? width))
    then let buf := removelast buf in
         if negb (Z.of_nat (length buf) =? 0) && (base =? 16) then removelast buf else buf
    else buf in
  let! buf :=
    (if (base =? 16) && negb (has flags FLAGS_UPPERCASE) && fits buf then push buf (ch "x")
     else if (base =? 16) && has flags FLAGS_UPPERCASE && fits buf then push buf (ch "X")
     else if (base =? 2) && fits buf then push buf (ch "b") else ret buf) in
  if fits buf then push buf (ch "0") else ret buf.

Definition ntoa_sign (buf : list Z) (negative : bool) (flags : Z) : ST pst (list Z) :=
  if fits buf then
    if negative then push buf (ch "-")
    else if has flags FLAGS_PLUS then push buf (ch "+")
    else if has flags FLAGS_SPACE then push buf (ch " ") else ret buf
  else ret buf.

Definition _ntoa_format (f : out_fct_type) (buffer idx maxlen : Z) (buf : list Z) (negative : bool)
    (base prec width flags : Z) : ST pst Z :=
  let! '(buf, width) := ntoa_zeros buf negative prec width flags in
  let! buf := ntoa_hash buf base prec width flags in
  let! buf := ntoa_sign buf negative flags in
  _out_rev f buffer idx maxlen buf width flags.

(** The [do ... while] loop; the buffer bounds the iterations. *)
Fixpoint ntoa_digits (fuel : nat) (buf : list Z) (value base flags : Z) : ST pst (list Z) :=
  match fuel with
  | O => no_fuel
  | S fuel =>
      let digit := u8 (value mod base) in
      let! buf := push buf (if digit <? 10 then ch "0" + digit
                            else (if has flags FLAGS_UPPERCASE then ch "A" else ch "a") + digit - 10) in
      let value := value / base in
      if negb (value =? 0) && fits buf then ntoa_digits fuel buf value base flags else ret buf
  end.

(** The digits of a value, none for zero with an explicit precision. *)
Definition ntoa_buf (value base flags : Z) : ST pst (list Z) :=
  if negb (has flags FLAGS_PRECISION) || negb (value =? 0)
  then ntoa_digits (Z.to_nat PRINTF_NTOA_BUFFER_SIZE) [] value base flags else ret [].

Definition _ntoa_long (f : out_fct_type) (buffer idx maxlen value : Z) (negative : bool)
    (base prec width flags : Z) : ST pst Z :=
  let flags := if value =? 0 then and_not flags FLAGS_HASH else flags in
  let! buf := ntoa_buf value base flags in
  _ntoa_format f buffer idx maxlen buf negative (u32 base) prec width flags.

Definition _ntoa_long_long (f : out_fct_type) (buffer idx maxlen value : Z) (negative : bool)
    (base prec width flags : Z) : ST pst Z :=
  let flags := if value =? 0 then and_not flags FLAGS_HASH else flags in
  let! buf := ntoa_buf value base flags in
  _ntoa_format f buffer idx maxlen buf negative (u32 base) prec width flags.

(** ** The directive *)

Definition flag_of (c : Z) : option Z :=
  if c =? ch "0" then Some FLAGS_ZEROPAD
  else if c =? ch "-" then Some FLAGS_LEFT
  else if c =? ch "+" then Some FLAGS_PLUS
  else if c =? ch " " then Some FLAGS_SPACE
  else if c =? ch "#" then Some FLAGS_HASH else None.

Fixpoint flags_loop (fuel : nat) (format flags : Z) : ST pst (Z * Z) :=
  match fuel with
  | O => no_fuel
  | S fuel =>
      let! c := lds format in
      match flag_of c with
      | Some m => flags_loop fuel (format + 1) (Z.lor flags m)
      | None => ret (format, flags)
      end
  end.

Definition eval_flags (format : Z) : ST pst (Z * Z) := by_mem (fun n => flags_loop n format 0).

Definition eval_width (format flags : Z) : ST pst (Z * Z * Z) :=
  let! c := lds format in
  if _is_digit c then let! '(width, format) := _atoi format in ret (format, flags, width)
  else if c =? ch "*" then
    let! a := va_arg in
    let w := s32 a in
    if w <? 0 then ret (format + 1, Z.lor flags FLAGS_LEFT, u32 (- w))
    else ret (format + 1, flags, u32 w)
  else ret (format, flags, 0).

Definition eval_precision (format flags : Z) : ST pst (Z * Z * Z) :=
  let! c := lds format in
  if negb (c =? ch ".") then ret (format, flags, 0) else
  let flags := Z.lor flags FLAGS_PRECISION in
  let format := format + 1 in
  let! c := lds format in
  if _is_digit c then let! '(precision, format) := _atoi format in ret (format, flags, precision)
  else if c =? ch "*" then
    let! a := va_arg in
    let prec := s32 a in
    ret (format + 1, flags, if 0 <? prec then u32 prec else 0)
  else ret (format, flags, 0).

Definition eval_length (format flags : Z) : ST pst (Z * Z) :=
  let! c := lds format in
  if c =? ch "l" then
    let flags := Z.lor flags FLAGS_LONG in
    let! c := lds (format + 1) in
    if c =? ch "l" then ret (format + 2, Z.lor flags FLAGS_LONG_LONG) else ret (format + 1, flags)
  else if c =? ch "h" then
    let flags := Z.lor flags FLAGS_SHORT in
    let! c := lds (format + 1) in
    if c =? ch "h" then ret (format + 2, Z.lor flags FLAGS_CHAR) else ret (format + 1, flags)
  else if (c =? ch "t") || (c =? ch "j") || (c =? ch "z")
  then ret (format + 1, Z.lor flags FLAGS_LONG)
  else ret (format, flags).

(** ** The conversions *)

Definition int_base (c : Z) : Z :=
  if (c =? ch "x") || (c =? ch "X") then 16
  else if c =? ch "o" then 8 else if c =? ch "b" then 2 else 10.

Definition int_flags (c flags : Z) : Z :=
  let flags := if int_base c =? 10 then and_not flags FLAGS_HASH else flags in
  let flags := if c =? ch "X" then Z.lor flags FLAGS_UPPERCASE else flags in
  let flags := if negb (c =? ch "i") && negb (c =? ch "d")
               then and_not flags (Z.lor FLAGS_PLUS FLAGS_SPACE) else flags in
  if has flags FLAGS_PRECISION then and_not flags FLAGS_ZEROPAD else flags.

Definition conv_int (f : out_fct_type) (buffer idx maxlen c precision width flags : Z) : ST pst Z :=
  let base := int_base c in
  let flags := int_flags c flags in
  let! a := va_arg in
  if (c =? ch "i") || (c =? ch "d") then
    if has flags FLAGS_LONG_LONG then
      let value := s64 a in
      _ntoa_long_long f buffer idx maxlen (u64 (if 0 <? value then value else s64 (0 - value)))
        (value <? 0) base precision width flags
    else if has flags FLAGS_LONG then
      let value := s64 a in
      _ntoa_long f buffer idx maxlen (u64 (if 0 <? value then value else s64 (0 - value)))
        (value <? 0) base precision width flags
    else
      let value := if has flags FLAGS_CHAR then u8 (s32 a)
                   else if has flags FLAGS_SHORT then swrap 16 (s32 a) else s32 a in
      _ntoa_long f buffer idx maxlen (u32 (if 0 <? value then value else s32 (0 - value)))
        (value <? 0) base precision width flags
  else
    if has flags FLAGS_LONG_LONG then
      _ntoa_long_long f buffer idx maxlen (u64 a) false base precision width flags
    else if has flags FLAGS_LONG then
      _ntoa_long f buffer idx maxlen (u64 a) false base precision width flags
    else
      let value := if has flags FLAGS_CHAR then u8 (u32 a)
                   else if has flags FLAGS_SHORT then u16 (u32 a) else u32 a in
      _ntoa_long f buffer idx maxlen value false base precision width flags.

(** [while (l++ < width) out(' ', ...)] runs [width - l] times. *)
Definition conv_char (f : out_fct_type) (buffer idx maxlen width flags : Z) : ST pst Z :=
  let l := 1 in
  let! idx := (if negb (has flags FLAGS_LEFT) then out_spaces f buffer idx maxlen (width - l) else ret idx) in
  let! a := va_arg in
  do! out f (u8 (s32 a)) buffer idx maxlen in
  let idx := u64 (idx + 1) in
  if has flags FLAGS_LEFT then out_spaces f buffer idx maxlen (width - l) else ret idx.

Fixpoint str_loop (fuel : nat) (f : out_fct_type) (buffer idx maxlen p precision flags : Z) : ST pst Z :=
  match fuel with
  | O => no_fuel
  | S fuel =>
      let! c := lds p in
      if negb (c =? 0) && (negb (has flags FLAGS_PRECISION) || negb (precision =? 0)) then
        do! out f c buffer idx maxlen in
        str_loop fuel f buffer (u64 (idx + 1)) maxlen (p + 1)
          (if has flags FLAGS_PRECISION then precision - 1 else precision) flags
      else ret idx
  end.

Definition conv_str (f : out_fct_type) (buffer idx maxlen precision width flags : Z) : ST pst Z :=
  let! p := va_arg in
  let! l := _strnlen_s p (if negb (precision =? 0) then precision else u64 (-1)) in
  let l := if has flags FLAGS_PRECISION then if l <? precision then l else precision else l in
  let! idx := (if negb (has flags FLAGS_LEFT) then out_spaces f buffer idx maxlen (width - l) else ret idx) in
  let! idx := by_mem (fun n => str_loop n f buffer idx maxlen p precision flags) in
  if has flags FLAGS_LEFT then out_spaces f buffer idx maxlen (width - l) else ret idx.

Definition conv_ptr (f : out_fct_type) (buffer idx maxlen precision flags : Z) : ST pst Z :=
  let! a := va_arg in
  _ntoa_long_long f buffer idx maxlen (u64 a) false 16 precision (8 * 2)
    (Z.lor flags (Z.lor FLAGS_ZEROPAD FLAGS_UPPERCASE)).

Definition out1 (f : out_fct_type) (c buffer idx maxlen : Z) : ST pst Z :=
  do! out f c buffer idx maxlen in ret (u64 (idx + 1)).

Definition is_int_conv (c : Z) : bool :=
  (c =? ch "d") || (c =? ch "i") || (c =? ch "u") || (c =? ch "x") || (c =? ch "X")
  || (c =? ch "o") || (c =? ch "b").

(** The switch on the specifier; every case steps over it. *)
Definition eval_specifier (f : out_fct_type) (buffer idx maxlen c precision width flags : Z) : ST pst Z :=
  if is_int_conv c then conv_int f buffer idx maxlen c precision width flags
  else if c =? ch "c" then conv_char f buffer idx maxlen width flags
  else if c =? ch "s" then conv_str f buffer idx maxlen precision width flags
  else if c =? ch "p" then conv_ptr f buffer idx maxlen precision flags
  else if c =? ch "%" then out1 f (ch "%") buffer idx maxlen
  else out1 f c buffer idx maxlen.

Fixpoint format_loop (fuel : nat) (f : out_fct_type) (buffer idx maxlen format : Z) : ST pst Z :=
  match fuel with
  | O => no_fuel
  | S fuel =>
      let! c := lds format in
      if c =? 0 then ret idx else
      if negb (c =? ch "%") then
        let! idx := out1 f c buffer idx maxlen in
        format_loop fuel f buffer idx maxlen (format + 1)
      else
        let! '(format, flags) := eval_flags (format + 1) in
        let! '(format, flags, width) := eval_width format flags in
        let! '(format, flags, precision) := eval_precision format flags in
        let! '(format, flags) := eval_length format flags in
        let! c := lds format in
        let! idx := eval_specifier f buffer idx maxlen c precision width flags in
        format_loop fuel f buffer idx maxlen (format + 1)
  end.

Definition _vsnprintf (f : out_fct_type) (buffer maxlen format : Z) : ST pst Z :=
  let f := if buffer =? NULL then OutNull else f in
  let! idx := by_mem (fun n => format_loop n f buffer 0 maxlen format) in
  do! out f 0 buffer (if idx <? maxlen then idx else u64 (maxlen - 1)) maxlen in
  ret (s32 idx).

(** ** The interface *)

Definition printf_ (hart format : Z) (args : list Z) : ST pst Z :=
  do! set_va args in
  do! on_lock (spinlock_acquire_bare hart) in
  let! r := _vsnprintf OutChar local (u64 (-1)) format in
  do! on_lock (spinlock_release_bare hart) in
  ret r.

Definition sprintf_ (buffer format : Z) (args : list Z) : ST pst Z :=
  do! set_va args in _vsnprintf OutBuffer buffer (u64 (-1)) format.

Definition snprintf_ (buffer count format : Z) (args : list Z) : ST pst Z :=
  do! set_va args in _vsnprintf OutBuffer buffer count format.

Definition vprintf_ (format : Z) : ST pst Z := _vsnprintf OutChar local (u64 (-1)) format.

Definition vsnprintf_ (buffer count format : Z) : ST pst Z := _vsnprintf OutBuffer buffer count format.

Definition fctprintf (arg format : Z) (args : list Z) : ST pst Z :=
  do! set_va args in _vsnprintf (OutFct arg) local (u64 (-1)) format.

End printf.
