(* ===== verification/PrintfSpec.v ===== *)
(** What formatted printing promises, on lists of characters: a format is a
    sequence of literal characters and directives with a concrete syntax, and
    each directive takes its arguments and stands for a text.  Nothing here
    scans a format. *)

From Stdlib Require Import Ascii.
From S2P Require Import Prelude Printf.

(** ** Formats *)

Inductive pflag := FZero | FLeft | FPlus | FSpace | FHash.
#[global] Instance pflag_eq_dec : EqDecision pflag.
Proof. solve_decision. Defined.

(** A width is a numeral that does not start with zero or is taken from the
    arguments. *)
Inductive pwidth := NoWidth | Width (d : Z) (ds : list Z) | StarWidth.
Inductive pprec := NoPrec | Prec (ds : list Z) | StarPrec.
Inductive plen := NoLen | Lh | Lhh | Ll | Lll | Lt | Lj | Lz.
Inductive pspec := Sd | Si | Su | Sx | SX | So | Sb | Sc | Ss | Sp | Spercent | Sother (c : Z).
Inductive piece := Lit (c : Z) | Dir (fs : list pflag) (w : pwidth) (p : pprec) (l : plen) (sp : pspec).

Definition digit_char (d : Z) : Z := ch "0" + d.

Definition show_flag (f : pflag) : Z :=
  match f with FZero => ch "0" | FLeft => ch "-" | FPlus => ch "+" | FSpace => ch " " | FHash => ch "#" end.
Definition show_width (w : pwidth) : list Z :=
  match w with NoWidth => [] | Width d ds => map digit_char (d :: ds) | StarWidth => [ch "*"] end.
Definition show_prec (p : pprec) : list Z :=
  match p with NoPrec => [] | Prec ds => ch "." :: map digit_char ds | StarPrec => [ch "."; ch "*"] end.
Definition show_len (l : plen) : list Z :=
  match l with
  | NoLen => [] | Lh => [ch "h"] | Lhh => [ch "h"; ch "h"] | Ll => [ch "l"] | Lll => [ch "l"; ch "l"]
  | Lt => [ch "t"] | Lj => [ch "j"] | Lz => [ch "z"]
  end.
Definition show_spec (sp : pspec) : Z :=
  match sp with
  | Sd => ch "d" | Si => ch "i" | Su => ch "u" | Sx => ch "x" | SX => ch "X" | So => ch "o" | Sb => ch "b"
  | Sc => ch "c" | Ss => ch "s" | Sp => ch "p" | Spercent => ch "%" | Sother c => c
  end.

(** The concrete syntax of a piece. *)
Definition show (x : piece) : list Z :=
  match x with
  | Lit c => [c]
  | Dir fs w p l sp =>
      ch "%" :: map show_flag fs ++ show_width w ++ show_prec p ++ show_len l ++ [show_spec sp]
  end.

(** A character with a meaning of its own after [%]. *)
Definition reserved (c : Z) : bool :=
  existsb (Z.eqb c) (map ch ["-"; "+"; " "; "#"; "*"; "."; "l"; "h"; "t"; "j"; "z";
                             "d"; "i"; "u"; "x"; "X"; "o"; "b"; "c"; "s"; "p"; "%"]%char)
  || _is_digit c.

Definition is_dec (d : Z) : Prop := 0 <= d <= 9.

Definition wf_piece (x : piece) : Prop :=
  match x with
  | Lit c => 0 < c < 256 /\ c <> ch "%"
  | Dir _ w p _ sp =>
      match w with Width d ds => 1 <= d <= 9 /\ Forall is_dec ds | _ => True end /\
      match p with Prec ds => Forall is_dec ds | _ => True end /\
      match sp with Sother c => 0 < c < 256 /\ reserved c = false | _ => True end
  end.

(** ** Numbers *)

(** What a directive says of a number. *)
Record opts := Opts {
  o_zero : bool; o_left : bool; o_plus : bool; o_space : bool; o_hash : bool; o_upper : bool;
  o_prec : option Z; o_width : Z }.

Definition digit (upper : bool) (d : Z) : Z :=
  if d <? 10 then ch "0" + d else (if upper then ch "A" else ch "a") + d - 10.

(** The digits of a value, the least significant first; [n] bounds their
    number. *)
Fixpoint digits (n : nat) (base v : Z) : list Z :=
  match n with
  | O => []
  | S n => v mod base :: (if v / base =? 0 then [] else digits n base (v / base))
  end.

Definition zeros (n : Z) : list Z := repeat (ch "0") (Z.to_nat n).
Definition spaces (n : Z) : list Z := repeat (ch " ") (Z.to_nat n).

Definition sign_of (o : opts) (neg : bool) : list Z :=
  if neg then [ch "-"] else if o_plus o then [ch "+"] else if o_space o then [ch " "] else [].

Definition len {A} (l : list A) : Z := Z.of_nat (length l).

(** The digits of a number padded with zeros, from the last to the first:
    the flag [-] turns every padding with zeros off, a sign uses up one place
    of the width, and no more than 32 places are filled. *)
Definition num_width (o : opts) (neg : bool) : Z :=
  if negb (o_left o) && negb (o_width o =? 0) && o_zero o && (neg || o_plus o || o_space o)
  then o_width o - 1 else o_width o.

Definition num_digits (o : opts) (base v : Z) : list Z :=
  if bool_decide (is_Some (o_prec o)) && (v =? 0) then [] else map (digit (o_upper o)) (digits 32 base v).

Definition num_body (o : opts) (neg : bool) (base v : Z) : list Z :=
  let ds := num_digits o base v in
  if o_left o then ds else
  let l1 := len ds `max` (default 0 (o_prec o) `min` 32) in
  let l2 := if o_zero o then l1 `max` (num_width o neg `min` 32) else l1 in
  ds ++ zeros (l2 - len ds).

(** The prefix of the flag [#] takes the places of the first zeros when there
    are as many characters as the width asks for. *)
Definition hash_prefix (o : opts) (base : Z) : list Z :=
  (if base =? 16 then [if o_upper o then ch "X" else ch "x"] else if base =? 2 then [ch "b"] else [])
  ++ [ch "0"].

Definition num_hashed (o : opts) (neg : bool) (base v : Z) : list Z :=
  let body := num_body o neg base v in
  if negb (o_hash o) || (v =? 0) then body else
  let body :=
    if negb (bool_decide (is_Some (o_prec o))) && negb (len body =? 0) && (len body =? num_width o neg)
    then take (length body - (if (base =? 16) && negb (len body =? 1) then 2 else 1)) body else body in
  take 32 (body ++ hash_prefix o base).

Definition num_text (o : opts) (neg : bool) (base v : Z) : list Z :=
  let text := rev (take 32 (num_hashed o neg base v ++ sign_of o neg)) in
  (if negb (o_left o) && negb (o_zero o) then spaces (num_width o neg - len text) else [])
  ++ text ++
  (if o_left o then spaces (num_width o neg - len text) else []).

(** ** Directives *)

Definition numeral (ds : list Z) : Z := fold_left (fun n d => u32 (n * 10 + d)) ds 0.

(** The width with the arguments that are left; a negative argument is the flag [-]. *)
Definition the_width (w : pwidth) (args : list Z) : option (bool * Z * list Z) :=
  match w with
  | NoWidth => Some (false, 0, args)
  | Width d ds => Some (false, numeral (d :: ds), args)
  | StarWidth => match args with a :: args => Some (s32 a <? 0, Z.abs (s32 a), args) | [] => None end
  end.

Definition the_prec (p : pprec) (args : list Z) : option (option Z * list Z) :=
  match p with
  | NoPrec => Some (None, args)
  | Prec ds => Some (Some (numeral ds), args)
  | StarPrec => match args with a :: args => Some (Some (Z.max 0 (s32 a)), args) | [] => None end
  end.

(** The part of a slot that an integer conversion reads. *)
Definition signed_arg (l : plen) (a : Z) : Z :=
  match l with NoLen => s32 a | Lh => swrap 16 a | Lhh => u8 a | _ => s64 a end.
Definition unsigned_arg (l : plen) (a : Z) : Z :=
  match l with NoLen => u32 a | Lh => u16 a | Lhh => u8 a | _ => u64 a end.

Definition int_opts (sp : pspec) (o : opts) : opts :=
  let signed := match sp with Sd | Si => true | _ => false end in
  let dec := match sp with Sd | Si | Su => true | _ => false end in
  Opts (o_zero o && negb (bool_decide (is_Some (o_prec o)))) (o_left o) (o_plus o && signed)
    (o_space o && signed) (o_hash o && negb dec) (match sp with SX => true | _ => false end)
    (o_prec o) (o_width o).

Definition ptr_opts (o : opts) : opts :=
  Opts true (o_left o) (o_plus o) (o_space o) (o_hash o) true (o_prec o) 16.

(** Text flushed right, or left with the flag [-]. *)
Definition flush (o : opts) (text : list Z) : list Z :=
  (if o_left o then [] else spaces (o_width o - len text)) ++ text ++
  (if o_left o then spaces (o_width o - len text) else []).

(** The text of a conversion of an argument; [strs] holds the strings the
    arguments may point to. *)
Definition conv_text (strs : gmap Z (list Z)) (sp : pspec) (l : plen) (o : opts) (a : Z) : option (list Z) :=
  match sp with
  | Sd | Si => let v := signed_arg l a in Some (num_text (int_opts sp o) (v <? 0) 10 (Z.abs v))
  | Su => Some (num_text (int_opts sp o) false 10 (unsigned_arg l a))
  | Sx | SX => Some (num_text (int_opts sp o) false 16 (unsigned_arg l a))
  | So => Some (num_text (int_opts sp o) false 8 (unsigned_arg l a))
  | Sb => Some (num_text (int_opts sp o) false 2 (unsigned_arg l a))
  | Sp => Some (num_text (ptr_opts o) false 16 (u64 a))
  | Sc => Some (flush o [u8 a])
  | Ss => str ← strs !! a;
          Some (flush o (match o_prec o with Some n => take (Z.to_nat n) str | None => str end))
  | _ => None
  end.

Definition render_piece (strs : gmap Z (list Z)) (x : piece) (args : list Z) : option (list Z * list Z) :=
  match x with
  | Lit c => Some ([c], args)
  | Dir fs w p l sp =>
      '(neg, width, args) ← the_width w args;
      '(prec, args) ← the_prec p args;
      match sp with
      | Spercent => Some ([ch "%"], args)
      | Sother c => Some ([c], args)
      | _ =>
          match args with
          | [] => None
          | a :: args =>
              text ← conv_text strs sp l
                (Opts (bool_decide (FZero ∈ fs)) (bool_decide (FLeft ∈ fs) || neg) (bool_decide (FPlus ∈ fs))
                   (bool_decide (FSpace ∈ fs)) (bool_decide (FHash ∈ fs)) false prec width) a;
              Some (text, args)
          end
      end
  end.

(** The text of a format, and the arguments it leaves. *)
Fixpoint render (strs : gmap Z (list Z)) (xs : list piece) (args : list Z) : option (list Z * list Z) :=
  match xs with
  | [] => Some ([], args)
  | x :: xs =>
      '(t, args) ← render_piece strs x args;
      '(ts, args) ← render strs xs args;
      Some (t ++ ts, args)
  end.

(** ** Numerals *)

(** A text is a numeral of a value: digits of the base, most significant
    first. *)
Definition numeral_of (u : bool) (base v : Z) (text : list Z) : Prop :=
  exists ds : list Z, text = map (digit u) ds /\ Forall (fun d => 0 <= d < base) ds /\
    fold_left (fun a d => a * base + d) ds 0 = v.
