(* ===== verification/PrintfProof.v ===== *)
(** Numbers are printed as [PrintfSpec] says: the conversion buffer, the flags
    and the padding. *)

From Stdlib Require Import Ascii.
From S2P Require Import Prelude Sync CString CStringProof Printf PrintfSpec.

(** ** Flag words *)

Lemma has_lor x m k : has (Z.lor x m) k = has x k || has m k.
Proof.
  unfold has. rewrite Z.land_lor_distr_l.
  destruct (Z.eqb_spec (Z.land x k) 0) as [->|Hx], (Z.eqb_spec (Z.land m k) 0) as [->|Hm]; cbn; try done;
    apply negb_true_iff, Z.eqb_neq; rewrite Z.lor_eq_0_iff; tauto.
Qed.

Lemma has_or x a b : has x (Z.lor a b) = has x a || has x b.
Proof.
  unfold has. rewrite !(Z.land_comm x), Z.land_lor_distr_l.
  destruct (Z.eqb_spec (Z.land a x) 0) as [->|Hx], (Z.eqb_spec (Z.land b x) 0) as [->|Hm]; cbn; try done;
    apply negb_true_iff, Z.eqb_neq; rewrite Z.lor_eq_0_iff; tauto.
Qed.

Lemma has_testbit x k : 0 <= k -> has x (Z.shiftl 1 k) = Z.testbit x k.
Proof.
  intros Hk. unfold has.
  assert (forall i, Z.testbit (Z.land x (Z.shiftl 1 k)) i = Z.testbit x i && (i =? k)) as Hb.
  { intros i. rewrite Z.land_spec. f_equal. rewrite Z.shiftl_1_l, Z.pow2_bits_eqb by done. by rewrite Z.eqb_sym. }
  destruct (Z.testbit x k) eqn:Ex.
  - apply negb_true_iff, Z.eqb_neq. intros E. specialize (Hb k). rewrite E, Z.bits_0, Ex, Z.eqb_refl in Hb. done.
  - apply negb_false_iff, Z.eqb_eq. apply Z.bits_inj'. intros i _. rewrite Hb, Z.bits_0.
    destruct (Z.eqb_spec i k) as [->|]; [by rewrite Ex|by rewrite andb_false_r].
Qed.

Lemma has_and_not x m k : 0 <= k ->
  has (and_not x m) (Z.shiftl 1 k) = has x (Z.shiftl 1 k) && negb (has m (Z.shiftl 1 k)).
Proof. intros Hk. rewrite !has_testbit by done. apply Z.ldiff_spec. Qed.

(** A flag word says what a record of options says. *)
Record flags_ok (fl : Z) (o : opts) : Prop := {
  fo_zero : has fl FLAGS_ZEROPAD = o_zero o;
  fo_left : has fl FLAGS_LEFT = o_left o;
  fo_plus : has fl FLAGS_PLUS = o_plus o;
  fo_space : has fl FLAGS_SPACE = o_space o;
  fo_hash : has fl FLAGS_HASH = o_hash o;
  fo_upper : has fl FLAGS_UPPERCASE = o_upper o;
  fo_prec : has fl FLAGS_PRECISION = bool_decide (is_Some (o_prec o)) }.

(** It says what a length says. *)
Record len_ok (fl : Z) (l : plen) : Prop := {
  fo_char : has fl FLAGS_CHAR = match l with Lhh => true | _ => false end;
  fo_short : has fl FLAGS_SHORT = match l with Lh | Lhh => true | _ => false end;
  fo_long : has fl FLAGS_LONG = match l with Ll | Lll | Lt | Lj | Lz => true | _ => false end;
  fo_long_long : has fl FLAGS_LONG_LONG = match l with Lll => true | _ => false end }.

(** Evaluates a condition on a flag word built from others. *)
Ltac flag_eval :=
  unfold FLAGS_ZEROPAD, FLAGS_LEFT, FLAGS_PLUS, FLAGS_SPACE, FLAGS_HASH, FLAGS_UPPERCASE, FLAGS_CHAR,
    FLAGS_SHORT, FLAGS_LONG, FLAGS_LONG_LONG, FLAGS_PRECISION in *;
  rewrite ?has_or, ?has_and_not, ?has_lor by lia;
  repeat match goal with
  | |- context [has ?a ?b] =>
      lazymatch isZcst a with true => let v := eval vm_compute in (has a b) in change (has a b) with v end
  end.

(** ** Emitting characters *)

(** Replaces the character constants of the goal by their codes. *)
Ltac chars :=
  repeat match goal with
  | |- context [ch ?a] => let v := eval vm_compute in (ch a) in change (ch a) with v
  end.

Lemma ch_byte a : in_width 8 (ch a).
Proof. destruct a as [[] [] [] [] [] [] [] []]; vm_compute; split; (done || discriminate). Qed.

Section outs.
Context (fct : Z -> Z -> ST mem unit).
Abbreviation outs := (outs fct).

Lemma outs_app f b ml l1 : forall l2 idx s,
  outs f b idx ml (l1 ++ l2) s = bind (outs f b idx ml l1) (fun i => outs f b i ml l2) s.
Proof.
  induction l1 as [|c l1 IH]; intros l2 idx s; cbn [app Printf.outs]; [done|].
  rewrite bind_assoc. apply bind_ext. intros [] s'. apply IH.
Qed.

Lemma outs_idx f b ml l : forall idx s i s',
  0 <= idx < 2 ^ 64 -> outs f b idx ml l s = Ok (i, s') -> i = u64 (idx + len l).
Proof.
  unfold len. induction l as [|c l IH]; intros idx s i s' Hi; cbn [Printf.outs length].
  - unfold ret. intros [= <- <-]. rewrite Z.add_0_r, wrap_small; [done|apply Hi].
  - intros H. apply bind_inv in H as ([] & s1 & _ & H). apply IH in H; [|apply wrap_range; lia].
    rewrite H. unfold wrap. rewrite Zplus_mod_idemp_l. f_equal. lia.
Qed.

(** What follows characters that were sent may use the index. *)
Lemma outs_bind {B} f b ml l (k k' : Z -> ST pst B) idx s :
  0 <= idx < 2 ^ 64 ->
  (forall s', k (u64 (idx + len l)) s' = k' (u64 (idx + len l)) s') ->
  bind (outs f b idx ml l) k s = bind (outs f b idx ml l) k' s.
Proof.
  intros Hi Hk. unfold bind. destruct (outs f b idx ml l s) as [[i s']| | |] eqn:E; try done.
  apply outs_idx in E; [|done]. by subst.
Qed.

Lemma pad_to_outs f b ml width start n : forall fuel k s,
  0 <= start < 2 ^ 64 -> 0 <= k -> k + Z.of_nat n < 2 ^ 64 ->
  n = Z.to_nat (width - k) -> (n < fuel)%nat ->
  pad_to fct fuel f b start (u64 (start + k)) ml width s =
  outs f b (u64 (start + k)) ml (repeat (ch " ") n) s.
Proof.
  induction n as [|n IH]; intros [|fuel] k s Hs Hk Hb Hn Hf; try lia; cbn [pad_to repeat Printf.outs].
  all: assert (u64 (u64 (start + k) - start) = k) as E
    by (unfold wrap; rewrite Zminus_mod_idemp_l; replace (start + k - start) with k by lia; apply Z.mod_small; lia).
  all: rewrite E.
  - by replace (k <? width) with false by (symmetry; apply Z.ltb_ge; lia).
  - replace (k <? width) with true by (symmetry; apply Z.ltb_lt; lia). apply bind_ext. intros [] s'.
    replace (u64 (u64 (start + k) + 1)) with (u64 (start + (k + 1)))
      by (unfold wrap; rewrite Zplus_mod_idemp_l; f_equal; lia).
    apply IH; lia.
Qed.

(** ** The conversion buffer *)

Lemma push_ok buf c s : len buf < 32 -> in_width 8 c -> push buf c s = Ok (buf ++ [c], s).
Proof.
  unfold len. intros Hl Hc. unfold push, PRINTF_NTOA_BUFFER_SIZE.
  replace (Z.of_nat (length buf) <? 32) with true by (symmetry; by apply Z.ltb_lt). by rewrite wrap_small.
Qed.

Lemma push_bind {B} buf c (k : list Z -> ST pst B) s :
  len buf < 32 -> in_width 8 c -> bind (push buf c) k s = k (buf ++ [c]) s.
Proof. intros H1 H2. unfold bind. by rewrite push_ok. Qed.

Lemma fits_spec buf : fits buf = (len buf <? 32).
Proof. done. Qed.

Lemma pad_zeros_spec n : forall fuel buf m s,
  (length buf <= 32)%nat -> n = Z.to_nat (m `min` 32 - len buf) -> (n < fuel)%nat ->
  pad_zeros fuel buf m s = Ok (buf ++ repeat (ch "0") n, s).
Proof.
  unfold len. induction n as [|n IH]; intros [|fuel] buf m s Hl Hn Hf; try lia; cbn [pad_zeros repeat];
    unfold fits, PRINTF_NTOA_BUFFER_SIZE.
  - rewrite app_nil_r. case_Z; cbn; try done. lia.
  - case_Z; cbn; try lia. rewrite push_bind by (first [apply ch_byte | unfold len; lia]).
    rewrite (IH fuel) by (rewrite ?length_app; cbn [length]; lia). by rewrite <- app_assoc.
Qed.

Lemma digit_byte u d : 0 <= d < 16 -> in_width 8 (digit u d).
Proof. unfold digit, in_width. intros. destruct u; chars; case_Z; lia. Qed.

Lemma ntoa_digits_spec fl base n : forall v buf s,
  2 <= base <= 16 -> 0 <= v -> (length buf + n = 32)%nat -> (0 < n)%nat ->
  ntoa_digits n buf v base fl s =
  Ok (buf ++ map (digit (has fl FLAGS_UPPERCASE)) (digits n base v), s).
Proof.
  induction n as [|n IH]; intros v buf s Hb Hv Hl Hn; [lia|]. cbn [ntoa_digits digits map].
  pose proof (Z.mod_pos_bound v base ltac:(lia)) as Hm.
  rewrite (wrap_small 8 (v mod base)) by (unfold in_width; lia).
  change (if v mod base <? 10 then ch "0" + v mod base
          else (if has fl FLAGS_UPPERCASE then ch "A" else ch "a") + v mod base - 10)
    with (digit (has fl FLAGS_UPPERCASE) (v mod base)).
  rewrite push_bind by (first [apply digit_byte; lia | unfold len; lia]).
  rewrite fits_spec. unfold len. rewrite length_app. cbn [length].
  destruct (Z.eqb_spec (v / base) 0); cbn [negb andb map]; [done|].
  destruct n as [|n].
  - replace (Z.of_nat (length buf + 1) <? 32) with false by (symmetry; apply Z.ltb_ge; lia). done.
  - replace (Z.of_nat (length buf + 1) <? 32) with true by (symmetry; apply Z.ltb_lt; lia).
    rewrite IH; [by rewrite <- app_assoc|done|by apply Z.div_pos; lia|rewrite length_app; cbn; lia|lia].
Qed.

Lemma length_digits n base v : (length (digits n base v) <= n)%nat.
Proof.
  revert v. induction n as [|n IH]; intros v; cbn [digits length]; [lia|].
  case_match; cbn; [lia|]. specialize (IH (v / base)). lia.
Qed.

Lemma length_num_digits o base v : (length (num_digits o base v) <= 32)%nat.
Proof.
  unfold num_digits. case_match; cbn [length]; [lia|]. rewrite length_map. apply length_digits.
Qed.

Lemma ntoa_buf_spec fl o base v s :
  flags_ok fl o -> 2 <= base <= 16 -> 0 <= v ->
  ntoa_buf v base fl s = Ok (num_digits o base v, s).
Proof.
  intros Hf Hb Hv. unfold ntoa_buf, num_digits. rewrite (fo_prec _ _ Hf).
  destruct (bool_decide _), (v =? 0); cbn [negb orb andb]; try done;
    change (Z.to_nat PRINTF_NTOA_BUFFER_SIZE) with 32%nat;
    rewrite ntoa_digits_spec by (cbn [length]; lia); by rewrite (fo_upper _ _ Hf).
Qed.

Lemma num_width_range o neg : 0 <= o_width o < 2 ^ 32 -> 0 <= num_width o neg < 2 ^ 32.
Proof. intros H. unfold num_width. destruct (o_left o), (Z.eqb_spec (o_width o) 0), (o_zero o); cbn; repeat case_match; lia. Qed.

Lemma ntoa_zeros_spec fl o base v neg s :
  flags_ok fl o -> 0 <= o_width o < 2 ^ 32 ->
  ntoa_zeros (num_digits o base v) neg (default 0 (o_prec o)) (o_width o) fl s =
  Ok (num_body o neg base v, num_width o neg, s).
Proof.
  intros Hf Hw. pose proof (length_num_digits o base v) as Hl.
  unfold ntoa_zeros, num_body. rewrite has_or.
  rewrite (fo_left _ _ Hf), (fo_zero _ _ Hf), (fo_plus _ _ Hf), (fo_space _ _ Hf).
  unfold num_width. destruct (o_left o) eqn:El; [done|]. cbn [negb andb].
  rewrite orb_assoc. set (w := if _ && _ && _ then _ else _).
  unfold len, zeros. set (ds := num_digits o base v) in *. set (p := default 0 (o_prec o)).
  erewrite bind_run by (apply (pad_zeros_spec (Z.to_nat (p `min` 32 - len ds))); unfold len; lia).
  destruct (o_zero o).
  - erewrite bind_run.
    2: { apply (pad_zeros_spec (Z.to_nat (w `min` 32 - len (ds ++ repeat (ch "0") (Z.to_nat (p `min` 32 - len ds))))));
         unfold len; rewrite ?length_app, ?repeat_length; lia. }
    unfold ret. rewrite <- app_assoc, <- repeat_app. do 4 f_equal.
    unfold len. rewrite ?length_app, ?repeat_length. f_equal. lia.
  - unfold bind, ret. do 4 f_equal. f_equal. unfold len. lia.
Qed.

Lemma length_num_body o neg base v : (length (num_body o neg base v) <= 32)%nat.
Proof.
  pose proof (length_num_digits o base v) as Hl. unfold num_body, zeros, len.
  destruct (o_left o); [done|]. rewrite length_app, repeat_length. destruct (o_zero o); lia.
Qed.

(** A guarded write at the end of the buffer. *)
Lemma push_take buf a s : (length buf <= 32)%nat ->
  (if fits buf then push buf (ch a) else ret buf) s = Ok (take 32 (buf ++ [ch a]), s).
Proof.
  intros Hl. rewrite fits_spec. unfold len. case_Z.
  - rewrite push_ok by (first [apply ch_byte | unfold len; lia]).
    rewrite take_ge; [done|]. rewrite length_app. cbn [length]. lia.
  - unfold ret. rewrite take_app_le, take_ge by lia. done.
Qed.

Lemma ntoa_sign_spec fl o neg buf s :
  flags_ok fl o -> (length buf <= 32)%nat ->
  ntoa_sign buf neg fl s = Ok (take 32 (buf ++ sign_of o neg), s).
Proof.
  intros Hf Hl. unfold ntoa_sign, sign_of. rewrite (fo_plus _ _ Hf), (fo_space _ _ Hf).
  destruct neg; [by apply push_take|]. destruct (o_plus o); [by apply push_take|].
  destruct (o_space o); [by apply push_take|]. rewrite app_nil_r, take_ge by done. by case_match.
Qed.

Lemma take_take_app {A} n (l1 l2 l3 : list A) :
  take n (take n (l1 ++ l2) ++ l3) = take n (l1 ++ l2 ++ l3).
Proof.
  rewrite app_assoc. destruct (decide (n <= length (l1 ++ l2))%nat).
  - rewrite take_app_le by (rewrite length_take; lia). rewrite take_take, Nat.min_id. by rewrite (take_app_le (l1 ++ l2)).
  - by rewrite (take_ge (l1 ++ l2)) by lia.
Qed.

(** The letter of the prefix, then its zero. *)
Lemma hash_push_spec buf base upper s : (length buf <= 32)%nat ->
  bind (if (base =? 16) && negb upper && fits buf then push buf (ch "x")
        else if (base =? 16) && upper && fits buf then push buf (ch "X")
        else if (base =? 2) && fits buf then push buf (ch "b") else ret buf)
    (fun buf => if fits buf then push buf (ch "0") else ret buf) s =
  Ok (take 32 (buf ++
    (if base =? 16 then [if upper then ch "X" else ch "x"] else if base =? 2 then [ch "b"] else []) ++ [ch "0"]), s).
Proof.
  intros Hl.
  assert (forall a, bind (if fits buf then push buf (ch a) else ret buf)
      (fun buf => if fits buf then push buf (ch "0") else ret buf) s =
    Ok (take 32 (buf ++ [ch a] ++ [ch "0"]), s)) as Hp.
  { intros a. erewrite bind_run by (by apply push_take).
    rewrite push_take by (rewrite length_take; lia). by rewrite take_take_app. }
  destruct (Z.eqb_spec base 16) as [->|]; cbn [andb].
  - destruct upper; cbn [andb negb]; rewrite <- Hp; cbn [Z.eqb andb]; by destruct (fits buf).
  - destruct (base =? 2); cbn [andb]; [by rewrite Hp|].
    unfold bind, ret at 1. rewrite push_take by done. done.
Qed.

Lemma removelast_take {A} (l : list A) : removelast l = take (length l - 1) l.
Proof. rewrite removelast_firstn_len. f_equal. lia. Qed.

Lemma length_hashed o neg base v : (length (num_hashed o neg base v) <= 32)%nat.
Proof.
  pose proof (length_num_body o neg base v). unfold num_hashed. case_match; [done|].
  rewrite length_take. lia.
Qed.

(** The places the prefix takes over. *)
Lemma hash_drop_spec o neg base (body : list Z) :
  (if negb (bool_decide (is_Some (o_prec o))) && negb (len body =? 0) &&
      ((len body =? default 0 (o_prec o)) || (len body =? num_width o neg))
   then if negb (Z.of_nat (length (removelast body)) =? 0) && (base =? 16)
        then removelast (removelast body) else removelast body
   else body) =
  (if negb (bool_decide (is_Some (o_prec o))) && negb (len body =? 0) && (len body =? num_width o neg)
   then take (length body - (if (base =? 16) && negb (len body =? 1) then 2 else 1)) body else body).
Proof.
  case_bool_decide as Hp; cbn [negb andb]; [done|].
  destruct (o_prec o) as [p|]; [destruct Hp; eauto|]. cbn [default]. unfold len.
  destruct (Z.eqb_spec (Z.of_nat (length body)) 0) as [->|]; cbn [negb andb orb]; [done|].
  destruct (_ =? num_width o neg); [|done]. rewrite removelast_take, length_take, andb_comm.
  destruct (base =? 16); cbn [andb]; [|done].
  destruct (Z.eqb_spec (Z.of_nat (length body)) 1) as [E|]; cbn [negb].
  - by replace (Z.of_nat (Nat.min (length body - 1) (length body))) with 0 by lia.
  - replace (Z.of_nat (Nat.min (length body - 1) (length body)) =? 0) with false by (symmetry; apply Z.eqb_neq; lia).
    cbn [negb]. rewrite removelast_take, take_take, length_take. f_equal. lia.
Qed.

Lemma ntoa_hash_spec fl o base v neg s :
  flags_ok fl o -> (o_hash o = true -> v <> 0) ->
  ntoa_hash (num_body o neg base v) base (default 0 (o_prec o)) (num_width o neg) fl s =
  Ok (num_hashed o neg base v, s).
Proof.
  intros Hf Hv. pose proof (length_num_body o neg base v) as Hl. unfold ntoa_hash, num_hashed.
  rewrite (fo_hash _ _ Hf), (fo_prec _ _ Hf), (fo_upper _ _ Hf).
  destruct (o_hash o); cbn [negb orb]; [|done].
  replace (v =? 0) with false by (symmetry; apply Z.eqb_neq; auto).
  cbv zeta. fold (len (num_body o neg base v)). rewrite hash_drop_spec.
  apply hash_push_spec. case_match; [rewrite length_take; lia|done].
Qed.

Lemma outs_nil_bind {B} f b ml idx (k : Z -> ST pst B) s : bind (outs f b idx ml []) k s = k idx s.
Proof. done. Qed.

Lemma out_rev_spec fl o neg f b idx ml buf s :
  flags_ok fl o -> 0 <= o_width o < 2 ^ 32 -> 0 <= idx < 2 ^ 64 -> (length buf <= 32)%nat ->
  _out_rev fct f b idx ml buf (num_width o neg) fl s =
  outs f b idx ml
    ((if negb (o_left o) && negb (o_zero o) then spaces (num_width o neg - len (rev buf)) else []) ++
     rev buf ++ (if o_left o then spaces (num_width o neg - len (rev buf)) else [])) s.
Proof.
  intros Hf Hw Hi Hl. pose proof (num_width_range o neg Hw) as Hn.
  unfold _out_rev. rewrite (fo_left _ _ Hf), (fo_zero _ _ Hf).
  assert (len (rev buf) = Z.of_nat (length buf)) as El by (unfold len; by rewrite length_rev).
  rewrite El. unfold spaces, out_spaces. destruct (o_left o); cbn [negb andb app].
  - unfold bind at 1, ret at 1. rewrite outs_app. apply outs_bind; [done|]. intros s'. rewrite El.
    apply pad_to_outs; lia.
  - destruct (o_zero o); cbn [negb andb app]; rewrite !app_nil_r.
    + unfold bind, ret. by destruct (outs f b idx ml (rev buf) s) as [[]| | |].
    + rewrite outs_app. apply bind_ext. intros i s'. unfold bind, ret.
      by destruct (outs f b i ml (rev buf) s') as [[]| | |].
Qed.

Lemma num_text_hash o neg base v (h := o_hash o && negb (v =? 0)) :
  num_text o neg base v =
  num_text (Opts (o_zero o) (o_left o) (o_plus o) (o_space o) h (o_upper o) (o_prec o) (o_width o)) neg base v.
Proof.
  unfold num_text, num_hashed. subst h. cbn [o_hash]. destruct (o_hash o); cbn [negb orb andb]; [|done].
  by destruct (Z.eqb_spec v 0).
Qed.

Lemma flags_no_hash fl o v :
  flags_ok fl o ->
  flags_ok (if v =? 0 then and_not fl FLAGS_HASH else fl)
    (Opts (o_zero o) (o_left o) (o_plus o) (o_space o) (o_hash o && negb (v =? 0)) (o_upper o) (o_prec o) (o_width o)).
Proof.
  intros []. destruct (v =? 0); constructor; cbn; rewrite ?andb_true_r, ?andb_false_r; try done; flag_eval;
    cbn [negb]; rewrite ?andb_true_r, ?andb_false_r; done.
Qed.

(** The number conversions send the text of the number. *)
Lemma ntoa_long_spec f b idx ml v neg base fl o s :
  flags_ok fl o -> 0 <= o_width o < 2 ^ 32 -> 2 <= base <= 16 -> 0 <= v -> 0 <= idx < 2 ^ 64 ->
  _ntoa_long fct f b idx ml v neg base (default 0 (o_prec o)) (o_width o) fl s =
  outs f b idx ml (num_text o neg base v) s.
Proof.
  intros Hf Hw Hb Hv Hi. unfold _ntoa_long. rewrite num_text_hash.
  pose proof (flags_no_hash fl o v Hf) as Hf'. set (fl' := if v =? 0 then _ else _) in *.
  set (o' := Opts _ _ _ _ _ _ _ _) in *.
  change (o_prec o) with (o_prec o'). change (o_width o) with (o_width o').
  change (o_width o) with (o_width o') in Hw.
  assert (o_hash o' = true -> v <> 0) as Hh.
  { cbn. intros H ->. by rewrite andb_false_r in H. }
  clearbody o' fl'. erewrite bind_run by (by eapply ntoa_buf_spec). unfold _ntoa_format.
  rewrite wrap_small by (unfold in_width; lia).
  erewrite bind_run by (by eapply ntoa_zeros_spec). cbn beta iota.
  erewrite bind_run by (by eapply ntoa_hash_spec).
  erewrite bind_run by (eapply ntoa_sign_spec; [done|apply length_hashed]).
  erewrite out_rev_spec; [done|done|done|done|]. rewrite length_take. lia.
Qed.

Lemma ntoa_long_long_eq f b idx ml v neg base prec width fl :
  _ntoa_long_long fct f b idx ml v neg base prec width fl = _ntoa_long fct f b idx ml v neg base prec width fl.
Proof. done. Qed.

(** ** Numerals *)

Definition value_lsb (base : Z) (ds : list Z) : Z := fold_right (fun d a => d + base * a) 0 ds.

Lemma digits_value n base : forall v, 2 <= base -> 0 <= v < base ^ Z.of_nat n -> value_lsb base (digits n base v) = v.
Proof.
  induction n as [|n IH]; intros v Hb Hv; cbn [digits value_lsb fold_right].
  - change (base ^ Z.of_nat 0) with 1 in Hv. lia.
  - pose proof (Z.div_mod v base ltac:(lia)) as Hd. fold (value_lsb base).
    destruct (Z.eqb_spec (v / base) 0) as [E|]; cbn [fold_right value_lsb]; [lia|].
    fold (value_lsb base (digits n base (v / base))). rewrite IH; [lia|done|].
    rewrite Nat2Z.inj_succ, Z.pow_succ_r in Hv by lia. split; [apply Z.div_pos; lia|].
    apply Z.div_lt_upper_bound; lia.
Qed.

Lemma digits_range n base : forall v, 2 <= base -> Forall (fun d => 0 <= d < base) (digits n base v).
Proof.
  induction n as [|n IH]; intros v Hb; cbn [digits]; constructor; [apply Z.mod_pos_bound; lia|].
  case_match; [constructor|auto].
Qed.

Lemma digits_short base k : forall n v, 2 <= base -> 0 <= v < base ^ Z.of_nat (S k) -> (length (digits n base v) <= S k)%nat.
Proof.
  induction k as [|k IH]; intros [|n] v Hb Hv; cbn [digits length]; try lia;
    destruct (Z.eqb_spec (v / base) 0) as [|Hne]; cbn [length]; try lia.
  - rewrite Z.pow_1_r in Hv. rewrite Z.div_small in Hne; lia.
  - specialize (IH n (v / base) Hb).
    rewrite (Nat2Z.inj_succ (S k)), Z.pow_succ_r in Hv by lia.
    assert (0 <= v / base < base ^ Z.of_nat (S k)) as H.
    { split; [apply Z.div_pos; lia|apply Z.div_lt_upper_bound; lia]. }
    specialize (IH H). lia.
Qed.

(** The digits of a numeral, zeros in front included. *)
Lemma numeral_rev u base ds n :
  Forall (fun d => 0 <= d < base) ds -> 2 <= base ->
  numeral_of u base (value_lsb base ds) (rev (map (digit u) ds ++ repeat (ch "0") n)).
Proof.
  intros Hd Hb. exists (rev (ds ++ repeat 0 n)). split_and!.
  - rewrite map_rev, map_app. do 2 f_equal. induction n as [|n IH]; cbn [repeat map]; [done|]. by rewrite <- IH.
  - apply Forall_rev, Forall_app. split; [done|]. apply Forall_forall. intros x Hx.
    apply list_elem_of_In, repeat_spec in Hx. lia.
  - rewrite <- fold_left_rev_right, rev_involutive. unfold value_lsb.
    rewrite fold_right_app. replace (fold_right _ 0 (repeat 0 n)) with 0.
    + induction ds as [|d ds IH]; cbn [fold_right]; [done|]. apply Forall_cons in Hd as [_ Hd]. rewrite IH by done. lia.
    + induction n as [|n IH]; cbn [repeat fold_right]; [done|]. rewrite <- IH. lia.
Qed.

Lemma num_body_split o neg base v : exists n,
  num_body o neg base v = num_digits o base v ++ repeat (ch "0") n /\
  (o_left o = true -> n = O) /\
  (o_left o = false ->
   Z.of_nat (length (num_digits o base v) + n) =
   len (num_digits o base v) `max` (default 0 (o_prec o) `min` 32) `max`
   (if o_zero o then num_width o neg `min` 32 else 0)).
Proof.
  unfold num_body, zeros, len. destruct (o_left o).
  - exists O. rewrite app_nil_r. split_and!; [done|done|discriminate].
  - eexists. split_and!; [done|discriminate|intros _]. destruct (o_zero o); lia.
Qed.

Lemma num_digits_short o base v :
  2 <= base -> 0 <= v < base ^ 31 -> (length (num_digits o base v) <= 31)%nat.
Proof.
  intros Hb Hv. unfold num_digits. destruct (_ && _); [cbn [length]; lia|].
  rewrite length_map. by apply (digits_short base 30).
Qed.

Lemma num_body_numeral o neg base v :
  2 <= base -> 0 <= v < base ^ 32 -> numeral_of (o_upper o) base v (rev (num_body o neg base v)).
Proof.
  intros Hb Hv. destruct (num_body_split o neg base v) as (n & -> & _ & _). unfold num_digits.
  destruct (_ && _) eqn:E.
  - apply andb_prop in E as [_ E]. apply Z.eqb_eq in E as ->.
    apply (numeral_rev (o_upper o) base [] n); [constructor|done].
  - rewrite <- (digits_value 32 base v Hb Hv) at 1. apply numeral_rev; [by apply digits_range|done].
Qed.

Lemma length_sign o neg :
  len (sign_of o neg) = if neg || o_plus o || o_space o then 1 else 0.
Proof. unfold sign_of. by destruct neg, (o_plus o), (o_space o). Qed.

Lemma rev_sign o neg : rev (sign_of o neg) = sign_of o neg.
Proof. unfold sign_of. by destruct neg, (o_plus o), (o_space o). Qed.

Lemma length_body o neg base v (d := Z.of_nat (length (num_digits o base v))) :
  len (num_body o neg base v) =
  if o_left o then d
  else d `max` (default 0 (o_prec o) `min` 32) `max` (if o_zero o then num_width o neg `min` 32 else 0).
Proof.
  destruct (num_body_split o neg base v) as (n & Hn & Hl & Hr). unfold len in *. rewrite Hn, length_app, repeat_length.
  destruct (o_left o); [rewrite Hl by done|rewrite Hr by done]; subst d; lia.
Qed.

(** The text of a number that fits the buffer. *)
Lemma num_text_shape o neg base v :
  o_hash o = false -> (length (num_digits o base v) <= 31)%nat -> 0 <= default 0 (o_prec o) < 32 ->
  0 <= o_width o < 2 ^ 32 -> (o_zero o = true -> o_width o <= 32) ->
  let sgn := sign_of o neg in
  let body := rev (num_body o neg base v) in
  exists lead trail,
    num_text o neg base v = spaces lead ++ sgn ++ body ++ spaces trail /\ 0 <= lead /\ 0 <= trail /\
    lead + len sgn + len body + trail = o_width o `max` (len sgn + len body) /\
    (if o_left o then lead = 0
     else trail = 0 /\ default 0 (o_prec o) <= len body /\ (o_zero o = true -> lead = 0)).
Proof.
  intros Hh Hd Hp Hw Hz sgn body.
  pose proof (length_body o neg base v) as Hb. pose proof (length_sign o neg) as Hs. fold sgn in Hs.
  assert (len body = len (num_body o neg base v)) as Eb by (unfold len, body; by rewrite length_rev).
  assert (rev (take 32 (num_hashed o neg base v ++ sgn)) = sgn ++ body) as Et.
  { unfold num_hashed. rewrite Hh. cbn [negb orb]. rewrite take_ge, rev_app_distr; [unfold sgn; by rewrite rev_sign|].
    rewrite length_app. unfold len in *. unfold num_width in Hb.
    destruct (o_left o), (o_zero o), (neg || o_plus o || o_space o) eqn:E;
      rewrite ?orb_assoc, ?E in *; cbn [negb andb] in *; try lia.
    all: destruct (Z.eqb_spec (o_width o) 0); cbn [negb andb] in *; lia. }
  unfold num_text. fold sgn. cbv zeta. rewrite Et.
  assert (len (sgn ++ body) = len sgn + len body) as El by (unfold len; rewrite length_app; lia).
  rewrite El. rewrite <- Eb in Hb. unfold num_width in *.
  exists (if negb (o_left o) && negb (o_zero o) then 0 `max` (o_width o - (len sgn + len body)) else 0).
  exists (if o_left o then 0 `max` (o_width o - (len sgn + len body)) else 0).
  assert (forall n, spaces (0 `max` n) = spaces n) as Hsp by (intros n; unfold spaces; f_equal; lia).
  destruct (o_left o) eqn:Eleft; cbn [negb andb] in *.
  - rewrite Hsp. change (spaces 0) with (@nil Z). cbn [app]. unfold len in *. split_and!; [by rewrite <- !app_assoc|lia..].
  - destruct (o_zero o) eqn:Ez; cbn [negb andb] in *.
    + rewrite app_nil_r. unfold len in *. split_and!; [by rewrite app_nil_r|lia|lia| |done|lia|done].
      specialize (Hz eq_refl). rewrite Hs in *.
      destruct (neg || o_plus o || o_space o) eqn:E; rewrite ?orb_assoc, ?E in *;
        destruct (Z.eqb_spec (o_width o) 0); cbn [negb andb] in *; lia.
    + rewrite andb_false_r, Hsp. cbn [andb]. unfold len in *. split_and!; [by rewrite !app_nil_r|lia..|done].
Qed.


End outs.

