(* ===== verification/PrintfTop.v ===== *)
(** The scanner of formatted printing reads a directive as it was written (each
    part of [_vsnprintf] on the concrete syntax of [PrintfSpec]); then formatted
    printing as a whole: what an output function promises ([Sink]), and the
    conversions and the loop against that interface. *)

From Stdlib Require Import Ascii.
From S2P Require Import Prelude Sync CString CStringProof Printf PrintfSpec PrintfProof.

(** ** Reading memory *)

Definition sva (va : list Z) (s : pst) : pst := PS (p_mem s) (p_con s) va (p_lock s).

Lemma sva_id s : sva (p_va s) s = s.
Proof. by destruct s. Qed.

(** The first character of a string, zero at its end. *)
Definition hd0 (l : list Z) : Z := match l with c :: _ => c | [] => 0 end.

Lemma lds_hd s p l : cstr (p_mem s) p l -> lds p s = Ok (hd0 l, s).
Proof.
  intros H. assert (p_mem s !! p = Some (hd0 l)) as Hc by (destruct l; cbn in H; [done|apply H]).
  unfold lds, on_mem, lift, ld, load. rewrite Hc. by destruct s.
Qed.

Lemma lds_bind {B} s p l (k : Z -> ST pst B) : cstr (p_mem s) p l -> bind (lds p) k s = k (hd0 l) s.
Proof. intros H. erewrite bind_run; [done|by apply lds_hd]. Qed.

Lemma cstr_tail m p c l : cstr m p (c :: l) -> cstr m (p + 1) l.
Proof. by intros (_ & _ & H). Qed.

Lemma cstr_app m p l1 l2 : cstr m p (l1 ++ l2) -> cstr m (p + len l1) l2.
Proof.
  revert p. unfold len. induction l1 as [|c l1 IH]; intros p H; cbn [app length] in *; [by rewrite Z.add_0_r|].
  apply cstr_tail, IH in H. by replace (p + Z.of_nat (S (length l1))) with (p + 1 + Z.of_nat (length l1)) by lia.
Qed.

Lemma by_mem_run {A} (f : nat -> ST pst A) s : by_mem f s = f (S (size (p_mem s))) s.
Proof. done. Qed.

Lemma va_arg_run {B} s a va (k : Z -> ST pst B) : p_va s = a :: va -> bind va_arg k s = k a (sva va s).
Proof. intros H. unfold bind, va_arg, gets, bind. rewrite H. done. Qed.

(** ** Flags *)

Definition flag_bit (f : pflag) : Z :=
  match f with
  | FZero => FLAGS_ZEROPAD | FLeft => FLAGS_LEFT | FPlus => FLAGS_PLUS
  | FSpace => FLAGS_SPACE | FHash => FLAGS_HASH
  end.

Definition flag_word (fs : list pflag) (fl : Z) : Z := fold_left (fun a f => Z.lor a (flag_bit f)) fs fl.

Lemma flag_of_show f : flag_of (show_flag f) = Some (flag_bit f).
Proof. by destruct f. Qed.

Lemma has_flag_word fs : forall fl f, has (flag_word fs fl) (flag_bit f) = has fl (flag_bit f) || bool_decide (f ∈ fs).
Proof.
  unfold flag_word. induction fs as [|g fs IH]; intros fl f; cbn [fold_left].
  - rewrite bool_decide_eq_false_2 by apply not_elem_of_nil. by rewrite orb_false_r.
  - rewrite IH, has_lor. rewrite (bool_decide_ext (f ∈ g :: fs) (f = g \/ f ∈ fs)) by apply elem_of_cons.
    rewrite bool_decide_or, orb_assoc. do 2 f_equal. by destruct f, g.
Qed.

(** The bits a directive does not set by its flags. *)
Lemma flag_word_other fs m : (forall f, has (flag_bit f) m = false) -> forall fl, has (flag_word fs fl) m = has fl m.
Proof.
  intros Hm. unfold flag_word. induction fs as [|g fs IH]; intros fl; cbn [fold_left]; [done|].
  by rewrite IH, has_lor, Hm, orb_false_r.
Qed.

Lemma flags_loop_spec fs : forall fuel p fl rest s,
  cstr (p_mem s) p (map show_flag fs ++ rest) -> flag_of (hd0 rest) = None -> (length fs < fuel)%nat ->
  flags_loop fuel p fl s = Ok (p + len fs, flag_word fs fl, s).
Proof.
  unfold len. induction fs as [|f fs IH]; intros [|fuel] p fl rest s Hs Hr Hf; cbn [length map app] in *; try lia;
    cbn [flags_loop]; erewrite lds_bind by done.
  - rewrite Hr. unfold ret. by rewrite Z.add_0_r.
  - cbn [hd0]. rewrite flag_of_show. rewrite (IH fuel (p + 1) _ rest); [|by eapply cstr_tail|done|lia].
    unfold flag_word. cbn [fold_left]. do 3 f_equal. lia.
Qed.

Lemma eval_flags_spec fs p rest s :
  cstr (p_mem s) p (map show_flag fs ++ rest) -> flag_of (hd0 rest) = None ->
  eval_flags p s = Ok (p + len fs, flag_word fs 0, s).
Proof.
  intros Hs Hr. unfold eval_flags. rewrite by_mem_run. eapply flags_loop_spec; [done|done|].
  apply cstr_fuel in Hs. rewrite length_app, length_map in Hs. lia.
Qed.

(** ** Numerals *)

Lemma is_digit_dec d : is_dec d -> _is_digit (digit_char d) = true.
Proof. unfold is_dec, _is_digit, digit_char. chars. intros. case_Z; lia || done. Qed.

Lemma numeral_range ds : forall i, 0 <= i < 2 ^ 32 -> 0 <= fold_left (fun n d => u32 (n * 10 + d)) ds i < 2 ^ 32.
Proof. induction ds as [|d ds IH]; intros i Hi; cbn [fold_left]; [done|]. apply IH, wrap_range. lia. Qed.

Lemma atoi_loop_spec ds : forall fuel p i rest s,
  cstr (p_mem s) p (map digit_char ds ++ rest) -> Forall is_dec ds -> _is_digit (hd0 rest) = false ->
  (length ds < fuel)%nat ->
  atoi_loop fuel p i s = Ok (fold_left (fun n d => u32 (n * 10 + d)) ds i, p + len ds, s).
Proof.
  unfold len. induction ds as [|d ds IH]; intros [|fuel] p i rest s Hs Hd Hr Hf; cbn [length map app] in *; try lia;
    cbn [atoi_loop]; erewrite lds_bind by done.
  - rewrite Hr. unfold ret. by rewrite Z.add_0_r.
  - cbn [hd0]. apply Forall_cons in Hd as [Hd Hds]. rewrite is_digit_dec by done.
    replace (u32 (digit_char d - ch "0")) with d.
    2: { unfold digit_char. replace (ch "0" + d - ch "0") with d by lia.
         rewrite wrap_small; [done|]. unfold is_dec, in_width in *. lia. }
    rewrite (IH fuel (p + 1) _ rest); [|by eapply cstr_tail|done|done|lia]. cbn [fold_left]. do 2 f_equal. f_equal. lia.
Qed.

Lemma atoi_spec ds p rest s :
  cstr (p_mem s) p (map digit_char ds ++ rest) -> Forall is_dec ds -> _is_digit (hd0 rest) = false ->
  _atoi p s = Ok (numeral ds, p + len ds, s).
Proof.
  intros Hs Hd Hr. unfold _atoi. rewrite by_mem_run. eapply atoi_loop_spec; [done|done|done|].
  apply cstr_fuel in Hs. rewrite length_app, length_map in Hs. lia.
Qed.

(** ** What may follow a part of a directive *)

Definition no_flag (c : Z) : Prop := flag_of c = None.
Definition no_width (c : Z) : Prop := _is_digit c = false /\ (c =? ch "*") = false.
Definition no_prec (c : Z) : Prop := (c =? ch ".") = false.
Definition no_len (c : Z) : Prop :=
  (c =? ch "l") = false /\ (c =? ch "h") = false /\ (c =? ch "t") || (c =? ch "j") || (c =? ch "z") = false.

Definition wf_spec (sp : pspec) : Prop :=
  match sp with Sother c => 0 < c < 256 /\ reserved c = false | _ => True end.

Lemma spec_quiet sp : wf_spec sp ->
  no_flag (show_spec sp) /\ no_width (show_spec sp) /\ no_prec (show_spec sp) /\ no_len (show_spec sp).
Proof.
  destruct sp; cbn [wf_spec]; intros Hc; try by repeat split.
  destruct Hc as [_ Hc]. cbn [show_spec]. unfold reserved in Hc. cbn [existsb map] in Hc.
  rewrite !orb_false_iff in Hc. destruct_and! Hc.
  assert ((c =? ch "0") = false) as Hz by (apply Z.eqb_neq; intros ->; discriminate).
  unfold no_flag, no_width, no_prec, no_len, flag_of.
  repeat match goal with H : _ = false |- _ => rewrite H; clear H end. done.
Qed.

Definition after_prec (l : plen) (sp : pspec) (more : list Z) : list Z := show_len l ++ show_spec sp :: more.
Definition after_width (p : pprec) (l : plen) (sp : pspec) (more : list Z) : list Z :=
  show_prec p ++ after_prec l sp more.

Lemma after_prec_quiet l sp more : wf_spec sp ->
  let c := hd0 (after_prec l sp more) in no_flag c /\ no_width c /\ no_prec c.
Proof.
  intros Hs. pose proof (spec_quiet sp Hs) as (H1 & H2 & H3 & _). by destruct l.
Qed.

Lemma after_width_quiet p l sp more : wf_spec sp ->
  let c := hd0 (after_width p l sp more) in no_flag c /\ no_width c.
Proof.
  intros Hs. pose proof (after_prec_quiet l sp more Hs) as (H1 & H2 & _). by destruct p.
Qed.

Lemma digit_no_flag d : 1 <= d <= 9 -> no_flag (digit_char d).
Proof. unfold no_flag, flag_of, digit_char. chars. intros. case_Z; lia || done. Qed.

Lemma after_flags_quiet w p l sp more :
  wf_spec sp -> match w with Width d ds => 1 <= d <= 9 /\ Forall is_dec ds | _ => True end ->
  no_flag (hd0 (show_width w ++ after_width p l sp more)).
Proof.
  intros Hs Hw. destruct w; cbn [show_width app map hd0]; [by apply after_width_quiet| |done].
  apply digit_no_flag, Hw.
Qed.

(** ** Width, precision and length *)

Lemma s32_range a : - 2 ^ 31 <= s32 a < 2 ^ 31.
Proof.
  unfold swrap. change (2 ^ (32 - 1)) with (2 ^ 31). pose proof (Z.mod_pos_bound a (2 ^ 32) ltac:(lia)). case_Z; lia.
Qed.

Lemma the_width_range w va neg width va' : the_width w va = Some (neg, width, va') -> 0 <= width < 2 ^ 32.
Proof.
  destruct w as [|d ds|]; cbn; intros H.
  - simplify_eq. lia.
  - simplify_eq. apply numeral_range. cbn. apply wrap_range. lia.
  - destruct va as [|a va]; simplify_eq. pose proof (s32_range a). lia.
Qed.

Lemma the_prec_range p va prec va' : the_prec p va = Some (prec, va') -> 0 <= default 0 prec < 2 ^ 32.
Proof.
  destruct p as [|ds|]; cbn; intros H.
  - simplify_eq. cbn. lia.
  - simplify_eq. cbn. apply numeral_range. lia.
  - destruct va as [|a va]; simplify_eq. pose proof (s32_range a). cbn. lia.
Qed.

Lemma eval_width_spec w p fl rest s neg width va :
  cstr (p_mem s) p (show_width w ++ rest) -> no_width (hd0 rest) ->
  match w with Width d ds => 1 <= d <= 9 /\ Forall is_dec ds | _ => True end ->
  the_width w (p_va s) = Some (neg, width, va) ->
  eval_width p fl s = Ok (p + len (show_width w), if neg then Z.lor fl FLAGS_LEFT else fl, width, sva va s).
Proof.
  intros Hs [Hd Ha] Hw Hv. unfold eval_width. erewrite lds_bind by done.
  destruct w as [|d ds|]; cbn [show_width the_width] in *.
  - cbn [app]. rewrite Hd, Ha. simplify_eq. unfold ret, len. cbn [length]. by rewrite Z.add_0_r, sva_id.
  - destruct Hw as [Hd1 Hds]. cbn [map app hd0]. rewrite is_digit_dec by (unfold is_dec; lia).
    erewrite bind_run.
    2: { apply (atoi_spec (d :: ds) p rest); [done|constructor; [unfold is_dec; lia|done]|done]. }
    simplify_eq. unfold ret, len. cbn [length]. rewrite length_map. by rewrite sva_id.
  - cbn [app hd0]. change (_is_digit (ch "*")) with false. change (ch "*" =? ch "*") with true. cbv iota.
    destruct (p_va s) as [|a va'] eqn:Ev; [done|]. erewrite va_arg_run by done. simplify_eq. pose proof (s32_range a).
    unfold ret, len. cbn [length]. change (Z.of_nat 1) with 1.
    destruct (Z.ltb_spec (s32 a) 0); rewrite wrap_small by (unfold in_width; lia); do 3 f_equal; lia.
Qed.

Lemma eval_precision_spec q p fl rest s prec va :
  cstr (p_mem s) p (show_prec q ++ rest) -> no_width (hd0 rest) -> no_prec (hd0 rest) ->
  match q with Prec ds => Forall is_dec ds | _ => True end ->
  the_prec q (p_va s) = Some (prec, va) ->
  eval_precision p fl s =
  Ok (p + len (show_prec q), if bool_decide (is_Some prec) then Z.lor fl FLAGS_PRECISION else fl,
      default 0 prec, sva va s).
Proof.
  intros Hs [Hd Ha] Hn Hw Hv. unfold eval_precision. erewrite lds_bind by done.
  destruct q as [|ds|]; cbn [show_prec the_prec] in *.
  - cbn [app]. rewrite Hn. simplify_eq. unfold ret, len. cbn [length negb]. by rewrite Z.add_0_r, sva_id.
  - cbn [app hd0]. change (ch "." =? ch ".") with true. cbn [negb]. apply cstr_tail in Hs.
    erewrite lds_bind by done. simplify_eq. unfold len. cbn [length]. rewrite length_map.
    rewrite bool_decide_eq_true_2 by eauto. cbn [default]. rewrite sva_id. destruct ds as [|d ds].
    + cbn [map app]. rewrite Hd, Ha. done.
    + apply Forall_cons in Hw as [Hd1 Hds]. cbn [map app hd0]. rewrite is_digit_dec by done.
      erewrite bind_run by (apply (atoi_spec (d :: ds) (p + 1) rest); [done|by constructor|done]).
      unfold ret, len. do 4 f_equal. lia.
  - cbn [app hd0]. change (ch "." =? ch ".") with true. cbn [negb]. apply cstr_tail in Hs.
    erewrite lds_bind by done. cbn [hd0]. change (_is_digit (ch "*")) with false.
    change (ch "*" =? ch "*") with true. cbv iota.
    destruct (p_va s) as [|a va'] eqn:Ev; [done|]. erewrite va_arg_run by done. simplify_eq. pose proof (s32_range a).
    rewrite bool_decide_eq_true_2 by eauto. unfold ret, len. cbn [length default].
    replace (if 0 <? s32 a then u32 (s32 a) else 0) with (Z.max 0 (s32 a)).
    2: { destruct (Z.ltb_spec 0 (s32 a)); [rewrite wrap_small by (unfold in_width; lia)|]; lia. }
    do 4 f_equal. lia.
Qed.

Definition len_bits (l : plen) (fl : Z) : Z :=
  match l with
  | NoLen => fl
  | Lh => Z.lor fl FLAGS_SHORT
  | Lhh => Z.lor (Z.lor fl FLAGS_SHORT) FLAGS_CHAR
  | Lll => Z.lor (Z.lor fl FLAGS_LONG) FLAGS_LONG_LONG
  | _ => Z.lor fl FLAGS_LONG
  end.

Lemma eval_length_spec l sp p fl more s :
  wf_spec sp -> cstr (p_mem s) p (after_prec l sp more) ->
  eval_length p fl s = Ok (p + len (show_len l), len_bits l fl, s).
Proof.
  intros Hs Hc. destruct (spec_quiet sp Hs) as (_ & _ & _ & Hl & Hh & Ht).
  unfold eval_length, after_prec in *. erewrite lds_bind by done.
  destruct l; cbn [show_len app hd0] in *; unfold len; cbn [length].
  1: rewrite Hl, Hh, Ht; unfold ret; by rewrite Z.add_0_r.
  all: try reflexivity.
  all: apply cstr_tail in Hc.
  all: match goal with |- context [ch ?a =? ch "l"] =>
         let v := eval vm_compute in (ch a =? ch "l") in change (ch a =? ch "l") with v end; cbv iota.
  3, 4: erewrite lds_bind by done; cbn [hd0]; rewrite ?Hl; reflexivity.
  all: change (ch "h" =? ch "h") with true; cbv iota; erewrite lds_bind by done; cbn [hd0]; rewrite ?Hh; reflexivity.
Qed.

(** ** The flag word of a directive *)

Definition dir_opts (fs : list pflag) (neg : bool) (prec : option Z) (width : Z) : opts :=
  Opts (bool_decide (FZero ∈ fs)) (bool_decide (FLeft ∈ fs) || neg) (bool_decide (FPlus ∈ fs))
    (bool_decide (FSpace ∈ fs)) (bool_decide (FHash ∈ fs)) false prec width.

Definition dir_word (fs : list pflag) (neg : bool) (prec : option Z) (l : plen) : Z :=
  let fl := flag_word fs 0 in
  let fl := if neg then Z.lor fl FLAGS_LEFT else fl in
  let fl := if bool_decide (is_Some prec) then Z.lor fl FLAGS_PRECISION else fl in
  len_bits l fl.

Lemma has_len_bits l fl m :
  has (len_bits l fl) m = has fl m || match l with
    | NoLen => false | Lh => has FLAGS_SHORT m | Lhh => has FLAGS_SHORT m || has FLAGS_CHAR m
    | Lll => has FLAGS_LONG m || has FLAGS_LONG_LONG m | _ => has FLAGS_LONG m end.
Proof. destruct l; cbn [len_bits]; by rewrite ?has_lor, ?orb_false_r, ?orb_assoc. Qed.

Lemma has_cond (b : bool) fl x m : has (if b then Z.lor fl x else fl) m = has fl m || (b && has x m).
Proof. destruct b; [apply has_lor|by rewrite orb_false_r]. Qed.

Lemma has_dir fs neg prec l m :
  has (dir_word fs neg prec l) m =
  has (flag_word fs 0) m || (neg && has FLAGS_LEFT m) || (bool_decide (is_Some prec) && has FLAGS_PRECISION m) ||
  match l with
    | NoLen => false | Lh => has FLAGS_SHORT m | Lhh => has FLAGS_SHORT m || has FLAGS_CHAR m
    | Lll => has FLAGS_LONG m || has FLAGS_LONG_LONG m | _ => has FLAGS_LONG m end.
Proof. unfold dir_word. cbv zeta. by rewrite has_len_bits, !has_cond. Qed.

(** Evaluates [has] of constants. *)
Ltac has_consts :=
  repeat match goal with
  | |- context [has ?a ?b] =>
      let v := eval vm_compute in (has a b) in
      match v with true => change (has a b) with true | false => change (has a b) with false end
  end;
  rewrite ?andb_false_r, ?andb_true_r, ?orb_false_r, ?orb_true_r; cbn [orb].

Lemma dir_word_ok fs neg prec l width :
  flags_ok (dir_word fs neg prec l) (dir_opts fs neg prec width) /\ len_ok (dir_word fs neg prec l) l.
Proof.
  split; constructor; rewrite has_dir; cbn [dir_opts o_zero o_left o_plus o_space o_hash o_upper o_prec];
    first
      [ change FLAGS_ZEROPAD with (flag_bit FZero); rewrite has_flag_word
      | change FLAGS_LEFT with (flag_bit FLeft); rewrite has_flag_word
      | change FLAGS_PLUS with (flag_bit FPlus); rewrite has_flag_word
      | change FLAGS_SPACE with (flag_bit FSpace); rewrite has_flag_word
      | change FLAGS_HASH with (flag_bit FHash); rewrite has_flag_word
      | rewrite flag_word_other by (by intros []) ];
    destruct l; has_consts; done.
Qed.

Abbreviation bytes := (Forall (in_width 8)).

(** ** Narrowing twice *)

Lemma wrap_wrap w v a : 0 <= w <= v -> wrap w (wrap v a) = wrap w a.
Proof.
  intros H. rewrite !wrap_land by lia. rewrite <- Z.land_assoc, Z.land_ones by lia. f_equal.
  rewrite <- (Z.land_ones (Z.ones v)) by lia. apply Z.bits_inj'. intros i Hi.
  rewrite !Z.land_spec, !Z.testbit_ones by lia. case_Z; try done; lia.
Qed.

Lemma wrap_swrap w v a : 0 <= w <= v -> wrap w (swrap v a) = wrap w a.
Proof.
  intros H. rewrite <- (wrap_wrap w v a H). unfold swrap. fold (wrap v a). case_match; [done|].
  unfold wrap at 1. replace (2 ^ v) with (2 ^ (v - w) * 2 ^ w) by (rewrite <- Z.pow_add_r by lia; f_equal; lia).
  replace (wrap v a - _) with (wrap v a + (- 2 ^ (v - w)) * 2 ^ w) by lia. apply Z_mod_plus_full.
Qed.

Lemma swrap_swrap w v a : 0 <= w <= v -> swrap w (swrap v a) = swrap w a.
Proof. intros H. unfold swrap at 1 3. fold (wrap w (swrap v a)). fold (wrap w a). by rewrite wrap_swrap. Qed.

(** Decides comparisons of constants. *)
Ltac closed_eqb :=
  repeat match goal with
  | |- context [?a =? ?b] =>
      let v := eval vm_compute in (a =? b) in
      match v with true => change (a =? b) with true | false => change (a =? b) with false end
  end.

(** ** The output functions as sinks *)

(** [I t s]: in state [s] exactly the characters [t] have been sent.  A sink
    takes at most [N] characters. *)
Class Sink (fct : Z -> Z -> ST mem unit) (f : out_fct_type) (buffer ml N : Z)
    (I : list Z -> pst -> Prop) : Prop := {
  sink_out t c s : I t s -> len t < N -> in_width 8 c ->
    exists s', out fct f c buffer (len t) ml s = Ok (tt, s') /\ I (t ++ [c]) s' /\ p_va s' = p_va s;
  sink_va t s va : I t s -> I t (sva va s);
  sink_bound : N < 2 ^ 64 }.

Section sink.
Context (fct : Z -> Z -> ST mem unit) (f : out_fct_type) (buffer ml N : Z) (I : list Z -> pst -> Prop).
Context `{!Sink fct f buffer ml N I}.

(** A computation that sends [l] after [t] and leaves the arguments [va]. *)
Definition emits (m : ST pst Z) (t l : list Z) (va : list Z) (s : pst) : Prop :=
  exists s', m s = Ok (len (t ++ l), s') /\ I (t ++ l) s' /\ p_va s' = va.

Lemma len_app {A} (l1 l2 : list A) : len (l1 ++ l2) = len l1 + len l2.
Proof. unfold len. rewrite length_app. lia. Qed.

Lemma len_cons {A} (x : A) l : len (x :: l) = 1 + len l.
Proof. unfold len. cbn [length]. lia. Qed.

Lemma len_snoc {A} (l : list A) x : len (l ++ [x]) = len l + 1.
Proof. unfold len. rewrite length_app. cbn [length]. lia. Qed.

Lemma len_map {A B} (g : A -> B) l : len (map g l) = len l.
Proof. unfold len. by rewrite length_map. Qed.

Lemma len_nonneg {A} (l : list A) : 0 <= len l.
Proof. unfold len. lia. Qed.

Lemma emits_ret t va s : I t s -> p_va s = va -> emits (ret (len t)) t [] va s.
Proof. intros H <-. exists s. by rewrite app_nil_r. Qed.

Lemma emits_bind m k t l1 l2 va1 va s :
  emits m t l1 va1 s ->
  (forall s', I (t ++ l1) s' -> p_va s' = va1 -> emits (k (len (t ++ l1))) (t ++ l1) l2 va s') ->
  emits (bind m k) t (l1 ++ l2) va s.
Proof.
  intros (s1 & Hm & HI & Hva) Hk. destruct (Hk s1 HI Hva) as (s2 & Hk2 & HI2 & Hva2).
  exists s2. rewrite app_assoc. split_and!; [|done|done]. by rewrite (bind_run _ _ _ _ _ Hm).
Qed.

Lemma emits_eq m m' t l va s s' : m s = m' s' -> emits m' t l va s' -> emits m t l va s.
Proof. intros E (s1 & H & ?). exists s1. by rewrite E. Qed.

Lemma outs_emits l : forall t s,
  I t s -> len t + len l <= N -> bytes l -> emits (outs fct f buffer (len t) ml l) t l (p_va s) s.
Proof.
  pose proof sink_bound as HN.
  induction l as [|c l IH]; intros t s HI Hl Hb; cbn [outs]; [by apply emits_ret|].
  apply Forall_cons in Hb as [Hc Hb]. pose proof (len_nonneg l). pose proof (len_nonneg t).
  rewrite len_cons in Hl.
  destruct (sink_out (N := N) t c s HI ltac:(lia) Hc) as (s1 & Ho & HI1 & Hva).
  destruct (IH (t ++ [c]) s1 HI1) as (s2 & Hr & HI2 & Hva2); [rewrite len_snoc; lia|done|].
  rewrite <- app_assoc in *. exists s2. rewrite Hva2, Hva. split_and!; [|done|done].
  rewrite (bind_run _ _ _ _ _ Ho). rewrite len_snoc in Hr.
  rewrite wrap_small by (unfold in_width; lia). exact Hr.
Qed.

Lemma out1_emits c t s :
  I t s -> len t < N -> in_width 8 c -> emits (out1 fct f c buffer (len t) ml) t [c] (p_va s) s.
Proof. intros HI Hl Hc. apply (outs_emits [c] t s); [done|change (len [c]) with 1; lia|by constructor]. Qed.

Lemma spaces_bytes n : bytes (spaces n).
Proof. unfold spaces. apply Forall_forall. intros x Hx. apply list_elem_of_In, repeat_spec in Hx as ->. apply ch_byte. Qed.

Lemma len_spaces n : len (spaces n) = 0 `max` n.
Proof. unfold len, spaces. rewrite repeat_length. lia. Qed.

Lemma out_spaces_emits n t s :
  I t s -> len t + len (spaces n) <= N ->
  emits (out_spaces fct f buffer (len t) ml n) t (spaces n) (p_va s) s.
Proof. intros HI Hl. apply outs_emits; [done|done|apply spaces_bytes]. Qed.

(** ** Strings *)

(** Memory that still holds a string however much was sent. *)
Definition holds (p : Z) (l : list Z) : Prop := forall t s, I t s -> cstr (p_mem s) p l.

Lemma cstr_chars m p l : cstr m p l -> Forall (fun c => 0 < c < 256) l.
Proof. rewrite cstr_bytes. tauto. Qed.

Lemma strnlen_s_loop_spec l : forall fuel p n s,
  cstr (p_mem s) p l -> 0 <= n -> (length l < fuel)%nat ->
  strnlen_s_loop fuel p n s = Ok (p + len l `min` n, s).
Proof.
  unfold len. induction l as [|c l IH]; intros [|fuel] p n s Hc Hn Hf; cbn [length] in *; try lia;
    cbn [strnlen_s_loop]; erewrite lds_bind by done; cbn [hd0].
  - change (0 =? 0) with true. unfold ret. do 2 f_equal. lia.
  - pose proof (cstr_chars _ _ _ Hc) as Hr. apply Forall_cons in Hr as [Hr _].
    replace (c =? 0) with false by (symmetry; apply Z.eqb_neq; lia).
    destruct (Z.eqb_spec n 0); [unfold ret; do 2 f_equal; lia|].
    rewrite (IH fuel (p + 1)) by (first [by eapply cstr_tail | lia]). do 2 f_equal. lia.
Qed.

Lemma strnlen_s_spec l p n s :
  cstr (p_mem s) p l -> 0 <= n -> len l < 2 ^ 32 -> _strnlen_s p n s = Ok (len l `min` n, s).
Proof.
  intros Hc Hn Hl. unfold _strnlen_s, by_mem. pose proof (len_nonneg l).
  erewrite bind_run.
  2: { unfold bind, gets. apply strnlen_s_loop_spec; [done|done|by eapply cstr_fuel]. }
  unfold ret. rewrite wrap_small by (unfold in_width; lia). do 2 f_equal. lia.
Qed.

(** The part of a string that a precision lets through. *)
Definition str_part (o : opts) (l : list Z) : list Z :=
  match o_prec o with Some n => take (Z.to_nat n) l | None => l end.

Lemma str_loop_spec fl l : forall fuel prec p t s,
  0 <= prec ->
  holds p l -> I t s -> (length l < fuel)%nat ->
  let l' := if has fl FLAGS_PRECISION then take (Z.to_nat prec) l else l in
  len t + len l' <= N ->
  emits (str_loop fct fuel f buffer (len t) ml p prec fl) t l' (p_va s) s.
Proof.
  pose proof sink_bound as HN.
  induction l as [|c l IH]; intros [|fuel] prec p t s Hp Hh HI Hf l' Hl; cbn [length] in *; try lia; subst l';
    cbn [str_loop].
  - eapply emits_eq; [eapply lds_bind, Hh, HI|]. cbn [hd0 Z.eqb negb andb].
    destruct (has _ _); rewrite ?take_nil; by apply emits_ret.
  - pose proof (cstr_chars _ _ _ (Hh _ _ HI)) as Hr. apply Forall_cons in Hr as [Hr _].
    eapply emits_eq; [eapply lds_bind, Hh, HI|]. cbn [hd0].
    replace (c =? 0) with false by (symmetry; apply Z.eqb_neq; lia). cbn [negb andb].
    assert (holds (p + 1) l) as Hh'.
    { intros t' s' HI'. eapply cstr_tail, Hh, HI'. }
    destruct (negb (has fl FLAGS_PRECISION) || negb (prec =? 0)) eqn:E.
    + set (prec' := if has fl FLAGS_PRECISION then prec - 1 else prec).
      assert ((if has fl FLAGS_PRECISION then take (Z.to_nat prec) (c :: l) else c :: l) =
              [c] ++ (if has fl FLAGS_PRECISION then take (Z.to_nat prec') l else l)) as El.
      { subst prec'. destruct (has fl FLAGS_PRECISION); [|done]. cbn [negb orb] in E.
        destruct (Z.eqb_spec prec 0); [done|]. by replace (Z.to_nat prec) with (S (Z.to_nat (prec - 1))) by lia. }
      rewrite El in *. rewrite len_app in Hl. change (len [c]) with 1 in Hl.
      pose proof (len_nonneg (if has fl FLAGS_PRECISION then take (Z.to_nat prec') l else l)). pose proof (len_nonneg t).
      eapply emits_eq.
      { symmetry. apply (bind_assoc (out fct f c buffer (len t) ml) (fun _ => ret (u64 (len t + 1)))
          (fun i => str_loop fct fuel f buffer i ml (p + 1) prec' fl)). }
      eapply emits_bind; [apply out1_emits; [done|lia|unfold in_width; lia]|].
      intros s' HI' Hva. rewrite <- Hva. apply IH; [|done|done|lia|rewrite len_snoc; lia].
      subst prec'. destruct (has fl FLAGS_PRECISION); [|done]. cbn [negb orb] in E.
      destruct (Z.eqb_spec prec 0); [done|lia].
    + destruct (has fl FLAGS_PRECISION); [|done]. cbn [negb orb] in E.
      destruct (Z.eqb_spec prec 0) as [->|]; [|done]. by apply emits_ret.
Qed.

(** ** The conversions *)

Lemma pad_emits (b : bool) n t s va :
  I t s -> p_va s = va -> len t + len (if b then spaces n else []) <= N ->
  emits (if b then out_spaces fct f buffer (len t) ml n else ret (len t)) t (if b then spaces n else []) va s.
Proof. intros HI <- Hl. destruct b; [by apply out_spaces_emits|by apply emits_ret]. Qed.

Lemma flush_split o text :
  flush o text =
  (if negb (o_left o) then spaces (o_width o - len text) else []) ++ text ++
  (if o_left o then spaces (o_width o - len text) else []).
Proof. unfold flush. by destruct (o_left o). Qed.

Lemma conv_char_emits fl o a va t s :
  flags_ok fl o -> I t s -> p_va s = a :: va -> len t + len (flush o [u8 a]) <= N ->
  emits (conv_char fct f buffer (len t) ml (o_width o) fl) t (flush o [u8 a]) va s.
Proof.
  intros Hf HI Hva Hl. rewrite flush_split in *. rewrite !len_app in Hl. change (len [u8 a]) with 1 in *.
  pose proof (len_nonneg (if o_left o then spaces (o_width o - 1) else [])) as Hn.
  unfold conv_char. rewrite (fo_left _ _ Hf).
  eapply emits_bind; [apply pad_emits; [done|exact Hva|lia]|]. intros s1 HI1 Hva1.
  eapply emits_eq; [by apply va_arg_run|].
  replace (u8 (s32 a)) with (u8 a).
  2: { symmetry. apply wrap_swrap. lia. }
  eapply emits_eq.
  { symmetry. apply (bind_assoc (out fct f (u8 a) buffer (len (t ++ _)) ml) (fun _ => ret (u64 (len (t ++ _) + 1)))
      (fun i => if o_left o then out_spaces fct f buffer i ml (o_width o - 1) else ret i)). }
  eapply emits_bind.
  { apply out1_emits; [by apply sink_va|rewrite len_app; lia|apply wrap_range; lia]. }
  cbn [p_va sva]. intros s2 HI2 Hva2. apply pad_emits; [done|done|]. rewrite !len_app. change (len [u8 a]) with 1. lia.
Qed.

Lemma len_str_part o l : 0 <= default 0 (o_prec o) ->
  len (str_part o l) = if bool_decide (is_Some (o_prec o)) then len l `min` default 0 (o_prec o) else len l.
Proof.
  unfold str_part. intros Hp. destruct (o_prec o) as [n|]; cbn [default] in *.
  - rewrite bool_decide_eq_true_2 by eauto. unfold len. rewrite length_take. cbn in Hp |- *. lia.
  - by rewrite bool_decide_eq_false_2 by (by intros [? [=]]).
Qed.

Lemma conv_str_emits fl o a va str t s :
  flags_ok fl o -> 0 <= default 0 (o_prec o) < 2 ^ 32 -> holds a str -> len str < 2 ^ 32 ->
  I t s -> p_va s = a :: va -> len t + len (flush o (str_part o str)) <= N ->
  emits (conv_str fct f buffer (len t) ml (default 0 (o_prec o)) (o_width o) fl) t (flush o (str_part o str)) va s.
Proof.
  intros Hf Hp Hh Hs HI Hva Hl. rewrite flush_split in *. rewrite !len_app in Hl.
  set (prec := default 0 (o_prec o)) in *. pose proof (len_nonneg str) as Hn.
  pose proof (len_nonneg (str_part o str)) as Hn2.
  pose proof (len_nonneg (if o_left o then spaces (o_width o - len (str_part o str)) else [])) as Hn3.
  assert (I t (sva va s)) as HI0 by (by apply sink_va).
  unfold conv_str. eapply emits_eq; [by apply va_arg_run|].
  eapply emits_eq; [erewrite bind_run; [reflexivity|apply strnlen_s_spec; [by apply (Hh t)|destruct (prec =? 0); [done|apply Hp]|done]]|].
  replace (if has fl FLAGS_PRECISION
           then if len str `min` (if negb (prec =? 0) then prec else u64 (-1)) <? prec
                then len str `min` (if negb (prec =? 0) then prec else u64 (-1)) else prec
           else len str `min` (if negb (prec =? 0) then prec else u64 (-1))) with (len (str_part o str)).
  2: { rewrite len_str_part by lia. fold prec. rewrite (fo_prec _ _ Hf). change (u64 (-1)) with (2 ^ 64 - 1).
       assert (bool_decide (is_Some (o_prec o)) = false -> prec = 0) as Hz.
       { unfold prec. intros Hd. apply bool_decide_eq_false in Hd. destruct (o_prec o); [destruct Hd; eauto|done]. }
       assert (len str `min` (if negb (prec =? 0) then prec else 2 ^ 64 - 1) =
               if prec =? 0 then len str else len str `min` prec) as -> by (case_Z; cbn [negb]; lia).
       clearbody prec. destruct (bool_decide _); [case_Z; lia|]. rewrite Hz by done. done. }
  rewrite (fo_left _ _ Hf). cbv zeta.
  eapply emits_bind; [apply pad_emits; [done|reflexivity|lia]|]. cbn [p_va sva]. intros s1 HI1 Hva1.
  assert (str_part o str = if has fl FLAGS_PRECISION then take (Z.to_nat prec) str else str) as El.
  { rewrite (fo_prec _ _ Hf). unfold str_part, prec. destruct (o_prec o).
    - by rewrite bool_decide_eq_true_2 by eauto.
    - by rewrite bool_decide_eq_false_2 by (by intros [? [=]]). }
  eapply emits_bind.
  { eapply emits_eq; [apply by_mem_run|]. rewrite <- Hva1.
    pose proof (str_loop_spec fl str (S (size (p_mem s1))) prec a _ s1 (proj1 Hp) Hh HI1) as Hstr.
    cbv zeta in Hstr. rewrite <- El in Hstr. apply Hstr.
    - by eapply cstr_fuel, Hh.
    - rewrite len_app. lia. }
  intros s2 HI2 Hva2. apply pad_emits; [done|congruence|]. rewrite !len_app. lia.
Qed.

Definition is_int (sp : pspec) : bool :=
  match sp with Sd | Si | Su | Sx | SX | So | Sb => true | _ => false end.

Lemma has_ite (b : bool) x y m : has (if b then x else y) m = if b then has x m else has y m.
Proof. by destruct b. Qed.

Lemma int_flags_ok sp fl o l :
  is_int sp = true -> o_upper o = false -> flags_ok fl o -> len_ok fl l ->
  flags_ok (int_flags (show_spec sp) fl) (int_opts sp o) /\ len_ok (int_flags (show_spec sp) fl) l.
Proof.
  intros Hi Hu [] []. unfold int_flags, int_opts.
  destruct sp; try discriminate Hi; closed_eqb; cbn [negb andb]; cbv zeta; split; constructor;
    cbn [o_zero o_left o_plus o_space o_hash o_upper o_prec o_width];
    rewrite has_ite; flag_eval; has_consts; cbn [negb]; rewrite ?andb_true_r, ?andb_false_r.
  all: repeat match goal with H : has ?x ?k = _ |- context [has ?x ?k] => rewrite H end.
  all: rewrite ?Hu; destruct (bool_decide _); cbn [negb]; by rewrite ?andb_true_r, ?andb_false_r.
Qed.

Lemma zeros_bytes n : bytes (repeat (ch "0") n).
Proof. apply Forall_forall. intros x Hx. apply list_elem_of_In, repeat_spec in Hx as ->. apply ch_byte. Qed.

Lemma num_text_bytes o neg base v : 2 <= base <= 16 -> bytes (num_text o neg base v).
Proof.
  intros Hb.
  assert (bytes (num_body o neg base v)) as Hbody.
  { destruct (num_body_split o neg base v) as (n & -> & _). apply Forall_app. split; [|apply zeros_bytes].
    unfold num_digits. destruct (_ && _); [constructor|]. apply Forall_map.
    eapply Forall_impl; [apply digits_range; lia|]. cbn. intros d Hd. apply digit_byte. lia. }
  assert (bytes (num_hashed o neg base v)) as Hhash.
  { unfold num_hashed. destruct (_ || _); [done|]. apply Forall_take, Forall_app. split.
    - destruct (_ && _); [by apply Forall_take|done].
    - unfold hash_prefix. destruct (base =? 16), (base =? 2), (o_upper o); repeat constructor; apply ch_byte. }
  assert (bytes (sign_of o neg)) as Hsign.
  { unfold sign_of. destruct neg, (o_plus o), (o_space o); repeat constructor; apply ch_byte. }
  unfold num_text. rewrite !Forall_app. split_and!.
  - destruct (_ && _); [apply spaces_bytes|constructor].
  - apply Forall_rev, Forall_take, Forall_app. done.
  - destruct (o_left o); [apply spaces_bytes|constructor].
Qed.

Lemma ntoa_emits v neg base fl o t s :
  flags_ok fl o -> 0 <= o_width o < 2 ^ 32 -> 2 <= base <= 16 -> 0 <= v -> I t s ->
  len t + len (num_text o neg base v) <= N ->
  emits (_ntoa_long fct f buffer (len t) ml v neg base (default 0 (o_prec o)) (o_width o) fl) t
    (num_text o neg base v) (p_va s) s.
Proof.
  intros Hf Hw Hb Hv HI Hl. pose proof (sink_bound (N := N)) as HN.
  pose proof (len_nonneg t). pose proof (len_nonneg (num_text o neg base v)).
  eapply emits_eq; [apply ntoa_long_spec; [done|done|done|done|lia]|].
  apply outs_emits; [done|done|by apply num_text_bytes].
Qed.

(** The argument as the signed conversions read it. *)
Lemma abs_word w v : 1 < w -> - 2 ^ (w - 1) <= v < 2 ^ (w - 1) ->
  wrap w (if 0 <? v then v else swrap w (0 - v)) = Z.abs v.
Proof.
  intros Hw Hv. assert (2 ^ w = 2 * 2 ^ (w - 1)) as Hp by (rewrite <- Z.pow_succ_r by lia; f_equal; lia).
  destruct (Z.ltb_spec 0 v); [rewrite wrap_small by (unfold in_width; lia); lia|].
  rewrite wrap_swrap, wrap_small by (unfold in_width; lia). lia.
Qed.

Lemma swrap_range w a : 0 < w -> - 2 ^ (w - 1) <= swrap w a < 2 ^ (w - 1).
Proof.
  intros Hw. assert (2 ^ w = 2 * 2 ^ (w - 1)) as Hp by (rewrite <- Z.pow_succ_r by lia; f_equal; lia).
  unfold swrap. pose proof (Z.mod_pos_bound a (2 ^ w) ltac:(lia)). cbv zeta. case_Z; lia.
Qed.

Definition base_of (sp : pspec) : Z := match sp with Sx | SX => 16 | So => 8 | Sb => 2 | _ => 10 end.

Lemma unsigned_arg_nonneg l a : 0 <= unsigned_arg l a.
Proof. destruct l; cbn [unsigned_arg]; apply wrap_range; lia. Qed.

Lemma conv_int_emits sp fl o l a va t s :
  is_int sp = true -> o_upper o = false -> flags_ok fl o -> len_ok fl l -> 0 <= o_width o < 2 ^ 32 ->
  I t s -> p_va s = a :: va ->
  let text := match sp with
              | Sd | Si => num_text (int_opts sp o) (signed_arg l a <? 0) 10 (Z.abs (signed_arg l a))
              | _ => num_text (int_opts sp o) false (base_of sp) (unsigned_arg l a)
              end in
  len t + len text <= N ->
  emits (conv_int fct f buffer (len t) ml (show_spec sp) (default 0 (o_prec o)) (o_width o) fl) t text va s.
Proof.
  intros Hi Hu Hf Hl Hw HI Hva text Hn.
  destruct (int_flags_ok sp fl o l Hi Hu Hf Hl) as [Hf' Hl'].
  unfold conv_int. eapply emits_eq; [by apply va_arg_run|].
  rewrite (fo_long_long _ _ Hl'), (fo_long _ _ Hl'), (fo_char _ _ Hl'), (fo_short _ _ Hl').
  change (default 0 (o_prec o)) with (default 0 (o_prec (int_opts sp o))).
  change (o_width o) with (o_width (int_opts sp o)) in *.
  replace (int_base (show_spec sp)) with (base_of sp) by (by destruct sp).
  assert (I t (sva va s)) as HI0 by (by apply sink_va).
  assert (2 <= base_of sp <= 16) as Hbase by (destruct sp; cbn; lia).
  destruct ((show_spec sp =? ch "i") || (show_spec sp =? ch "d")) eqn:Es.
  - assert (text = num_text (int_opts sp o) (signed_arg l a <? 0) (base_of sp) (Z.abs (signed_arg l a))) as E
      by (by destruct sp). rewrite E in *. clear text E Es.
    eapply emits_eq; [|by apply (ntoa_emits (Z.abs (signed_arg l a)) (signed_arg l a <? 0)
      (base_of sp) (int_flags (show_spec sp) fl) (int_opts sp o) t (sva va s) Hf' Hw Hbase); [lia| |]].
    pose proof (swrap_range 16 a ltac:(lia)). pose proof (swrap_range 32 a ltac:(lia)).
    pose proof (swrap_range 64 a ltac:(lia)). pose proof (wrap_range 8 a ltac:(lia)).
    destruct l; cbn [signed_arg];
      rewrite ?wrap_swrap, ?swrap_swrap, ?ntoa_long_long_eq by lia; rewrite abs_word by lia; done.
  - assert (text = num_text (int_opts sp o) false (base_of sp) (unsigned_arg l a)) as E
      by (by destruct sp). rewrite E in *. clear text E Es.
    pose proof (unsigned_arg_nonneg l a).
    eapply emits_eq; [|by apply (ntoa_emits (unsigned_arg l a) false
      (base_of sp) (int_flags (show_spec sp) fl) (int_opts sp o) t (sva va s) Hf' Hw Hbase); [lia| |]].
    destruct l; cbn [unsigned_arg]; rewrite ?wrap_wrap, ?ntoa_long_long_eq by lia; done.
Qed.

Lemma conv_ptr_emits fl o a va t s :
  flags_ok fl o -> I t s -> p_va s = a :: va ->
  len t + len (num_text (ptr_opts o) false 16 (u64 a)) <= N ->
  emits (conv_ptr fct f buffer (len t) ml (default 0 (o_prec o)) fl) t (num_text (ptr_opts o) false 16 (u64 a)) va s.
Proof.
  intros Hf HI Hva Hl. unfold conv_ptr. eapply emits_eq; [by apply va_arg_run|].
  assert (I t (sva va s)) as HI0 by (by apply sink_va).
  rewrite ntoa_long_long_eq. change (8 * 2) with (o_width (ptr_opts o)).
  change (o_prec o) with (o_prec (ptr_opts o)).
  apply (ntoa_emits (u64 a) false 16 _ (ptr_opts o) t (sva va s)); [|cbn; lia|lia|apply wrap_range; lia|done|done].
  destruct Hf. constructor; cbn [ptr_opts o_zero o_left o_plus o_space o_hash o_upper o_prec];
    rewrite !has_lor; has_consts; done.
Qed.

(** ** The loop *)

Context (strs : gmap Z (list Z)).
Hypothesis strs_ok : forall p l, strs !! p = Some l -> holds p l /\ len l < 2 ^ 32.

Lemma is_int_conv_spec sp : wf_spec sp -> is_int_conv (show_spec sp) = is_int sp.
Proof.
  destruct sp; cbn [wf_spec]; intros Hc; try done. destruct Hc as [_ Hc]. cbn [show_spec is_int].
  unfold reserved in Hc. cbn [existsb map] in Hc. rewrite !orb_false_iff in Hc. destruct_and! Hc.
  unfold is_int_conv. rewrite !orb_false_iff. done.
Qed.

Lemma specifier_emits sp fl o l a va text t s :
  wf_spec sp -> o_upper o = false -> flags_ok fl o -> len_ok fl l -> 0 <= o_width o < 2 ^ 32 ->
  0 <= default 0 (o_prec o) < 2 ^ 32 -> conv_text strs sp l o a = Some text ->
  I t s -> p_va s = a :: va -> len t + len text <= N ->
  emits (eval_specifier fct f buffer (len t) ml (show_spec sp) (default 0 (o_prec o)) (o_width o) fl) t text va s.
Proof.
  intros Hs Hu Hf Hl Hw Hp Ht HI Hva Hn. unfold eval_specifier. rewrite is_int_conv_spec by done.
  destruct (is_int sp) eqn:Ei.
  - apply (conv_int_emits sp fl o l a va t s) in Hva; try done; destruct sp; simplify_eq/=; done.
  - destruct sp; try discriminate; cbn [conv_text show_spec] in *; closed_eqb; cbv iota; simplify_eq.
    + by apply conv_char_emits.
    + destruct (strs !! a) as [str|] eqn:Estr; [|done]. cbn in Ht. simplify_eq.
      destruct (strs_ok _ _ Estr) as [Hh Hstr]. by eapply conv_str_emits.
    + by eapply conv_ptr_emits.
Qed.

(** A directive without an argument. *)
Lemma specifier_plain sp prec width fl t s :
  wf_spec sp -> match sp with Spercent | Sother _ => True | _ => False end ->
  I t s -> len t < N ->
  emits (eval_specifier fct f buffer (len t) ml (show_spec sp) prec width fl) t [show_spec sp] (p_va s) s.
Proof.
  intros Hs Hsp HI Hl. unfold eval_specifier. rewrite is_int_conv_spec by done.
  destruct sp; try done; cbn [is_int show_spec].
  - closed_eqb. cbv iota. apply out1_emits; [done|done|apply ch_byte].
  - destruct Hs as [Hc Hr]. unfold reserved in Hr. cbn [existsb map] in Hr.
    rewrite !orb_false_iff in Hr. destruct_and! Hr.
    repeat match goal with H : (c =? ch ?x) = false |- context [c =? ch ?x] => rewrite H end.
    apply out1_emits; [done|done|unfold in_width; lia].
Qed.

Lemma directive_emits fs w p l sp prest format t s text va k rest vak :
  wf_piece (Dir fs w p l sp) ->
  holds format (show (Dir fs w p l sp) ++ prest) ->
  render_piece strs (Dir fs w p l sp) (p_va s) = Some (text, va) ->
  I t s -> len t + len text <= N ->
  (forall s', I (t ++ text) s' -> p_va s' = va ->
    emits (k (len (t ++ text)) (format + len (show (Dir fs w p l sp)))) (t ++ text) rest vak s') ->
  emits
    (let! '(format, flags) := eval_flags (format + 1) in
     let! '(format, flags, width) := eval_width format flags in
     let! '(format, flags, precision) := eval_precision format flags in
     let! '(format, flags) := eval_length format flags in
     let! c := lds format in
     let! idx := eval_specifier fct f buffer (len t) ml c precision width flags in
     k idx (format + 1)) t (text ++ rest) vak s.
Proof.
  intros (Hw & Hp & Hs) Hh Hr HI Hl Hk. cbn [render_piece] in Hr.
  destruct (the_width w (p_va s)) as [[[neg width] va1]|] eqn:Ew; [|done]. cbn in Hr.
  destruct (the_prec p va1) as [[prec va2]|] eqn:Ep; [|done]. cbn in Hr.
  pose proof (the_width_range _ _ _ _ _ Ew) as Hwr. pose proof (the_prec_range _ _ _ _ Ep) as Hpr.
  assert (show (Dir fs w p l sp) ++ prest =
          ch "%" :: map show_flag fs ++ show_width w ++ after_width p l sp prest) as Eshow.
  { cbn [show app]. unfold after_width, after_prec. by rewrite <- !app_assoc. }
  assert (len (show (Dir fs w p l sp)) =
          1 + len fs + len (show_width w) + len (show_prec p) + len (show_len l) + 1) as Elen.
  { cbn [show]. rewrite len_cons, !len_app, len_map.
    change (len [show_spec sp]) with 1. lia. }
  rewrite Elen in Hk. clear Elen.
  assert (cstr (p_mem s) (format + 1) (map show_flag fs ++ show_width w ++ after_width p l sp prest)) as Hc1.
  { pose proof (Hh _ _ HI) as Hc. rewrite Eshow in Hc. by eapply cstr_tail. }
  eapply emits_eq; [erewrite bind_run; [reflexivity|]|].
  { eapply eval_flags_spec; [exact Hc1|]. by apply after_flags_quiet. }
  cbn beta iota. apply cstr_app in Hc1. rewrite len_map in Hc1.
  destruct (after_width_quiet p l sp prest Hs) as [_ Hq1].
  eapply emits_eq; [erewrite bind_run; [reflexivity|by eapply eval_width_spec]|].
  cbn beta iota. apply cstr_app in Hc1. change (p_mem s) with (p_mem (sva va1 s)) in Hc1.
  destruct (after_prec_quiet l sp prest Hs) as (_ & Hq2 & Hq3).
  eapply emits_eq; [erewrite bind_run; [reflexivity|by eapply eval_precision_spec]|].
  cbn beta iota. unfold after_width in Hc1. apply cstr_app in Hc1.
  change (p_mem (sva va1 s)) with (p_mem (sva va2 s)) in Hc1.
  change (sva va2 (sva va1 s)) with (sva va2 s).
  eapply emits_eq; [erewrite bind_run; [reflexivity|by eapply eval_length_spec]|].
  cbn beta iota. unfold after_prec in Hc1. apply cstr_app in Hc1.
  eapply emits_eq; [by apply lds_bind|]. cbn [hd0].
  fold (dir_word fs neg prec l).
  replace (format + 1 + len fs + len (show_width w) + len (show_prec p) + len (show_len l) + 1)
    with (format + (1 + len fs + len (show_width w) + len (show_prec p) + len (show_len l) + 1)) by lia.
  eapply emits_bind; [|exact Hk]. clear Hk Hc1 Hh Eshow.
  destruct (dir_word_ok fs neg prec l width) as [Hok Hlok].
  assert (I t (sva va2 s)) as HI2 by (by apply sink_va).
  assert (match sp with Spercent | Sother _ => True | _ => False end \/
    exists a, va2 = a :: va /\ conv_text strs sp l (dir_opts fs neg prec width) a = Some text) as [Hsp|(a & -> & Hct)].
  { destruct sp; try (by left); right; destruct va2 as [|a va2]; try done;
      destruct (conv_text _ _ _ _ a) as [x|] eqn:Ect in Hr; cbn in Hr; simplify_eq; by exists a. }
  - assert (text = [show_spec sp] /\ va = va2) as [-> ->] by (destruct sp; by simplify_eq).
    apply (specifier_plain sp _ _ _ t (sva va2 s)); [done|done|done|]. change (len [show_spec sp]) with 1 in Hl. lia.
  - by apply (specifier_emits sp _ (dir_opts fs neg prec width) l a).
Qed.

Lemma loop_emits xs : forall fuel format t s text va,
  Forall wf_piece xs -> holds format (concat (map show xs)) -> render strs xs (p_va s) = Some (text, va) ->
  I t s -> len t + len text <= N -> (length xs < fuel)%nat ->
  emits (format_loop fct fuel f buffer (len t) ml format) t text va s.
Proof.
  induction xs as [|x xs IH]; intros [|fuel] format t s text va Hwf Hh Hr HI Hl Hf; cbn [length] in *; try lia;
    cbn [map concat] in Hh; cbn [format_loop render] in *.
  - eapply emits_eq; [eapply lds_bind, Hh, HI|]. cbn [hd0]. change (0 =? 0) with true.
    cbv iota. simplify_eq. by apply emits_ret.
  - apply Forall_cons in Hwf as [Hx Hwf].
    destruct (render_piece strs x (p_va s)) as [[t1 va1]|] eqn:Ex; [|done]. cbn in Hr.
    destruct (render strs xs va1) as [[t2 va2]|] eqn:Exs; [|done]. cbn in Hr. simplify_eq.
    rewrite len_app in Hl. pose proof (len_nonneg t2) as Hn2.
    assert (holds (format + len (show x)) (concat (map show xs))) as Hh'.
    { intros t' s' HI'. by eapply cstr_app, Hh. }
    assert (forall s', I (t ++ t1) s' -> p_va s' = va1 ->
      emits (format_loop fct fuel f buffer (len (t ++ t1)) ml (format + len (show x))) (t ++ t1) t2 va s') as Hk.
    { intros s' HI' Hva'. apply IH; [done|done|by rewrite Hva'|done|rewrite len_app; lia|lia]. }
    destruct x as [c|fs w p l sp].
    + destruct Hx as [Hc Hne]. cbn [render_piece] in Ex. simplify_eq.
      eapply emits_eq; [eapply lds_bind, Hh, HI|]. cbn [show app hd0].
      replace (c =? 0) with false by (symmetry; apply Z.eqb_neq; lia).
      replace (c =? ch "%") with false by (symmetry; by apply Z.eqb_neq). cbn [negb].
      apply (emits_bind _ (fun i => format_loop fct fuel f buffer i ml (format + 1)) t [c] t2 (p_va s)); [|exact Hk].
      apply out1_emits; [done|change (len [c]) with 1 in Hl; lia|unfold in_width; lia].
    + eapply emits_eq; [eapply lds_bind, Hh, HI|]. cbn [show app hd0].
      change (ch "%" =? 0) with false. change (ch "%" =? ch "%") with true. cbn [negb].
      apply (directive_emits fs w p l sp (concat (map show xs)) format t s t1 va1
        (fun i q => format_loop fct fuel f buffer i ml q)); [done|done|done|done|lia|exact Hk].
Qed.
End sink.
