(* ===== verification/PrintfMain.v ===== *)
(** The functions of [printf.h]: the four output functions as sinks, and what
    printing into a buffer and to the console does. *)

From Stdlib Require Import Ascii.
From S2P Require Import Prelude Sync CString CStringProof Printf PrintfSpec PrintfProof PrintfTop.

(** The characters an output function that skips zero sends on. *)
Definition nonzero (t : list Z) : list Z := filter (fun c => c <> 0) t.

Lemma nonzero_app t1 t2 : nonzero (t1 ++ t2) = nonzero t1 ++ nonzero t2.
Proof. apply filter_app. Qed.

Lemma nonzero_one c : nonzero [c] = if c =? 0 then [] else [c].
Proof. unfold nonzero. rewrite filter_cons, filter_nil. case_Z; case_decide; done. Qed.

(** ** The body of [_vsnprintf] *)

Section body.
Context (fct : Z -> Z -> ST mem unit) (f0 f : out_fct_type) (buffer ml : Z) (I : list Z -> pst -> Prop).
Hypothesis f_def : f = if buffer =? NULL then OutNull else f0.
Context (strs : gmap Z (list Z)) (xs : list piece) (text rest : list Z).
Context `{!Sink fct f buffer ml (len text) I}.

Lemma vsnprintf_run format s :
  (forall p l, strs !! p = Some l -> holds I p l /\ len l < 2 ^ 32) ->
  Forall wf_piece xs -> holds I format (concat (map show xs)) -> render strs xs (p_va s) = Some (text, rest) ->
  I [] s -> len text < 2 ^ 31 ->
  exists s', I text s' /\ p_va s' = rest /\
    _vsnprintf fct f0 buffer ml format s =
    bind (out fct f 0 buffer (if len text <? ml then len text else u64 (ml - 1)) ml)
      (fun _ => ret (len text)) s'.
Proof.
  intros Hstrs Hwf Hh Hr HI Hl.
  assert (length xs < S (size (p_mem s)))%nat as Hf.
  { pose proof (cstr_fuel _ _ _ (Hh _ _ HI)) as Hf. eapply Nat.le_lt_trans; [|exact Hf].
    clear -xs. induction xs as [|x xs' IH]; cbn [map concat length]; [lia|].
    rewrite length_app. destruct x; cbn [show length]; lia. }
  destruct (loop_emits fct f buffer ml (len text) I strs Hstrs xs _ format [] s text rest Hwf Hh Hr HI
    ltac:(unfold len at 1; cbn [length]; lia) Hf) as (s' & Hrun & HI' & Hva).
  exists s'. split; [done|]. split; [done|]. unfold _vsnprintf. rewrite <- f_def.
  erewrite bind_run; [|rewrite by_mem_run; exact Hrun]. cbn [app].
  pose proof (len_nonneg text). by rewrite swrap_small by lia.
Qed.
End body.

(** ** Printing into a buffer *)

(** What a buffer of [ml] bytes gets of a text. *)
Definition fitted (ml : Z) (text : list Z) : list Z :=
  if ml =? 0 then [] else take (Z.to_nat (ml - 1)) text ++ [0].

Section buffer.
Context (fct : Z -> Z -> ST mem unit) (m : mem) (con : list Z) (lk : hart_lock) (buffer ml N : Z).
Hypothesis ml_word : 0 <= ml < 2 ^ 64.
Hypothesis N_small : N < 2 ^ 64.
Hypothesis buffer_mapped : mapped m buffer (ml `min` (N + 1)).

(** The characters that fit are in the buffer, and nothing else changed. *)
Definition in_buffer (t : list Z) (s : pst) : Prop :=
  len t <= N /\ s = PS (write_bytes buffer (take (Z.to_nat ml) t) m) con (p_va s) lk.

Lemma buffer_st t c : len t < ml -> len t <= N -> in_width 8 c ->
  st (buffer + len t) c (write_bytes buffer t m) = Ok (tt, write_bytes buffer (t ++ [c]) m).
Proof.
  intros H1 H2 Hc. pose proof (len_nonneg t). unfold st, store.
  destruct (write_bytes_mapped buffer t m buffer (ml `min` (N + 1)) buffer_mapped (buffer + len t)) as [x Hx]; [lia|].
  rewrite Hx, wrap_small by done. do 2 f_equal. by rewrite write_bytes_app.
Qed.

#[global] Instance buffer_sink : Sink fct OutBuffer buffer ml N in_buffer.
Proof.
  constructor; [|by intros t s va [? ->]|done].
  intros t c s [Hn HI] Hl Hc. cbn [out]. unfold _out_buffer. pose proof (len_nonneg t) as Ht.
  destruct (Z.ltb_spec (len t) ml).
  - rewrite HI. unfold on_mem, lift. cbn [p_mem]. rewrite take_ge by (unfold len in *; lia).
    rewrite buffer_st by done. eexists. split; [done|]. split; [|done]. split; [rewrite len_snoc; lia|].
    cbn [p_va]. by rewrite take_ge by (rewrite length_app; unfold len in *; cbn [length]; lia).
  - exists s. split; [done|]. split; [|done]. split; [rewrite len_snoc; lia|]. rewrite HI at 1.
    unfold len in *. by rewrite (take_app_le t) by lia.
Qed.

Lemma buffer_holds p l : apart buffer (ml `min` N) p (len l + 1) -> cstr m p l -> holds in_buffer p l.
Proof.
  intros Ha Hc t s [Ht ->]. cbn [p_mem]. eapply cstr_ext; [|done]. intros a Hin.
  apply write_bytes_out. unfold apart, len in *. rewrite length_take. lia.
Qed.

(** The terminating zero. *)
Lemma buffer_end text s : in_buffer text s -> len text = N ->
  out fct OutBuffer 0 buffer (if len text <? ml then len text else u64 (ml - 1)) ml s =
  Ok (tt, PS (write_bytes buffer (fitted ml text) m) con (p_va s) lk).
Proof.
  intros [_ HI] HN. cbn [out]. unfold _out_buffer, fitted. pose proof (len_nonneg text) as Ht.
  destruct (Z.eqb_spec ml 0) as [E|Hne].
  - replace (len text <? ml) with false by (symmetry; apply Z.ltb_ge; lia). rewrite E in *. rewrite HI.
    cbn [Z.to_nat take write_bytes]. done.
  - assert (forall t, t = take (Z.to_nat (ml - 1)) text -> len t < ml /\ len t <= N) as Hfit.
    { intros t ->. unfold len in *. rewrite length_take. lia. }
    destruct (Hfit _ eq_refl) as [H1 H2].
    destruct (Z.ltb_spec (len text) ml).
    + rewrite (proj2 (Z.ltb_lt (len text) ml)) by done. rewrite HI. unfold on_mem, lift. cbn [p_mem].
      rewrite !take_ge by (unfold len in *; lia). by rewrite buffer_st by (done || lia).
    + rewrite wrap_small by (unfold in_width; lia). rewrite (proj2 (Z.ltb_lt (ml - 1) ml)) by lia.
      rewrite HI. unfold on_mem, lift. cbn [p_mem].
      set (t := take (Z.to_nat (ml - 1)) text) in *.
      assert (exists c, take (Z.to_nat ml) text = t ++ [c] /\ len t = ml - 1) as (c & Ec & El).
      { unfold len in *. destruct (lookup_lt_is_Some_2 text (Z.to_nat (ml - 1))) as [c Hc]; [lia|].
        exists c. replace (Z.to_nat ml) with (S (Z.to_nat (ml - 1))) by lia. rewrite (take_S_r _ _ c) by done.
        subst t. rewrite length_take. split; [done|lia]. }
      rewrite Ec, <- El. pose proof (buffer_st t 0 H1 H2 ltac:(unfold in_width; lia)) as Hst.
      unfold st, store in *. rewrite write_bytes_app in *. cbn [write_bytes] in *. fold (len t) in *.
      rewrite lookup_insert_eq. cbn. rewrite insert_insert_eq, write_bytes_app. done.
Qed.
End buffer.

(** ** The other output functions *)

Section other.
Context (fct : Z -> Z -> ST mem unit) (m : mem) (con : list Z) (lk : hart_lock) (buffer ml N : Z).
Hypothesis N_small : N < 2 ^ 64.

Definition unchanged (t : list Z) (s : pst) : Prop := s = PS m con (p_va s) lk.

#[global] Instance null_sink : Sink fct OutNull buffer ml N unchanged.
Proof. constructor; [|by intros t s va ->|done]. intros t c s HI _ _. by exists s. Qed.

(** The console has received the characters other than zero. *)
Definition on_console (t : list Z) (s : pst) : Prop := s = PS m (con ++ nonzero t) (p_va s) lk.

#[global] Instance console_sink : Sink fct OutChar buffer ml N on_console.
Proof.
  constructor; [|by intros t s va ->|done]. intros t c s HI _ _. cbn [out]. unfold _out_char, on_console.
  rewrite nonzero_app, nonzero_one. destruct (c =? 0); cbn [negb].
  - exists s. by rewrite app_nil_r.
  - exists (PS m (con ++ nonzero t ++ [c]) (p_va s) lk). split_and!; [|done|done].
    unfold _putchar, modify. rewrite HI. cbn. by rewrite app_assoc.
Qed.

(** The client's function has been called on the characters other than
    zero; [J] is the client's account of its calls. *)
Context (arg : Z) (J : list Z -> mem -> Prop).
Hypothesis fct_ok : forall t c m, J t m -> c <> 0 -> exists m', fct c arg m = Ok (tt, m') /\ J (t ++ [c]) m'.

Definition by_client (t : list Z) (s : pst) : Prop :=
  J (nonzero t) (p_mem s) /\ s = PS (p_mem s) con (p_va s) lk.

#[global] Instance client_sink : Sink fct (OutFct arg) buffer ml N by_client.
Proof.
  constructor; [|by intros t s va [? ->]|done]. intros t c s [HJ HI] _ _. cbn [out]. unfold _out_fct, by_client.
  rewrite nonzero_app, nonzero_one. destruct (Z.eqb_spec c 0) as [|Hc]; cbn [negb].
  - exists s. by rewrite app_nil_r.
  - destruct (fct_ok _ _ _ HJ Hc) as (m' & Hm & HJ').
    exists (PS m' con (p_va s) lk). split_and!; [|done|done|done].
    unfold on_mem, lift. rewrite Hm. by rewrite HI.
Qed.
End other.

(** ** The interface *)

Section top.
Context (fct : Z -> Z -> ST mem unit) (local : Z).
Context (m : mem) (con : list Z) (lk : hart_lock) (strs : gmap Z (list Z)) (xs : list piece).
Context (args text rest : list Z) (format : Z).

(** A format in memory with the strings its arguments point to. *)
Record printable : Prop := {
  pr_format : cstr m format (concat (map show xs));
  pr_strs : forall p l, strs !! p = Some l -> cstr m p l /\ len l < 2 ^ 32;
  pr_wf : Forall wf_piece xs;
  pr_text : render strs xs args = Some (text, rest);
  pr_len : len text < 2 ^ 31 }.

(** A buffer that can take the text and holds none of the strings. *)
Record target (buffer count : Z) : Prop := {
  tg_nonnull : buffer <> NULL;
  tg_count : in_width 64 count;
  tg_mapped : mapped m buffer (count `min` (len text + 1));
  tg_format : apart buffer (count `min` (len text + 1)) format (len (concat (map show xs)) + 1);
  tg_strs : forall p l, strs !! p = Some l -> apart buffer (count `min` (len text + 1)) p (len l + 1) }.

Lemma apart_less p n n' q k : apart p n q k -> n' <= n -> apart p n' q k.
Proof. unfold apart. lia. Qed.

Lemma buffer_printed buffer count :
  printable -> target buffer count ->
  _vsnprintf fct OutBuffer buffer count format (PS m con args lk) =
  Ok (len text, PS (write_bytes buffer (fitted count text) m) con rest lk).
Proof.
  intros [Hf Hs Hwf Hr Hl] [Hb Hc Hm Hfa Hsa]. pose proof (len_nonneg text) as Hn.
  pose proof (buffer_sink fct m con lk buffer count (len text) ltac:(lia) Hm) as Hsink.
  destruct (vsnprintf_run fct OutBuffer OutBuffer buffer count (in_buffer m con lk buffer count (len text))
    ltac:(by rewrite (proj2 (Z.eqb_neq _ _) Hb)) strs xs text rest format (PS m con args lk)) as (s' & HI & Hva & ->);
    [|done| |done| |done|].
  - intros p l Hp. destruct (Hs p l Hp). split; [|done]. apply buffer_holds; [|done].
    eapply apart_less; [by apply Hsa|lia].
  - apply buffer_holds; [|done]. eapply apart_less; [done|lia].
  - split; [unfold len at 1; cbn [length]; lia|]. by rewrite take_nil.
  - erewrite bind_run; [|by eapply buffer_end]. by rewrite Hva.
Qed.

(** [C38] Printing into a buffer: the terminated text, cut to the size of the
    buffer, is written at its start and no other byte changes; the result is
    the length of the whole text, also when no buffer is given. *)
Theorem snprintf_correct buffer count :
  printable -> target buffer count ->
  let printed := Ok (len text, PS (write_bytes buffer (fitted count text) m) con rest lk) in
  snprintf_ fct buffer count format args (PS m con [] lk) = printed /\
  vsnprintf_ fct buffer count format (PS m con args lk) = printed /\
  (count = 2 ^ 64 - 1 -> sprintf_ fct buffer format args (PS m con [] lk) = printed) /\
  snprintf_ fct NULL count format args (PS m con [] lk) = Ok (len text, PS m con rest lk).
Proof.
  intros Hp Ht. cbv zeta. pose proof (buffer_printed buffer count Hp Ht) as Hrun.
  split_and!; [exact Hrun|exact Hrun| |].
  - intros E. unfold sprintf_. change (u64 (-1)) with (2 ^ 64 - 1). rewrite <- E. exact Hrun.
  - destruct Hp as [Hf Hs Hwf Hr Hl]. pose proof (len_nonneg text).
    pose proof (null_sink fct m con lk NULL count (len text) ltac:(lia)) as Hsink.
    destruct (vsnprintf_run fct OutBuffer OutNull NULL count (unchanged m con lk) eq_refl
      strs xs text rest format (PS m con args lk)) as (s' & HI & Hva & Hrun'); [|done| |done|done|done|].
    + intros p l Hstr. destruct (Hs p l Hstr). split; [|done]. by intros t s ->.
    + by intros t s ->.
    + unfold snprintf_, set_va, bind at 1, modify. cbn [p_mem p_con p_lock]. rewrite Hrun', HI, Hva. done.
Qed.

Lemma console_printed : printable -> local <> NULL ->
  _vsnprintf fct OutChar local (u64 (-1)) format (PS m con args lk) =
  Ok (len text, PS m (con ++ nonzero text) rest lk).
Proof.
  intros [Hf Hs Hwf Hr Hl] Hb. pose proof (len_nonneg text).
  pose proof (console_sink fct m con lk local (u64 (-1)) (len text) ltac:(lia)) as Hsink.
  destruct (vsnprintf_run fct OutChar OutChar local (u64 (-1)) (on_console m con lk)
    ltac:(by rewrite (proj2 (Z.eqb_neq _ _) Hb)) strs xs text rest format (PS m con args lk))
    as (s' & HI & Hva & ->); [|done| |done| |done|].
  - intros p l Hp. destruct (Hs p l Hp). split; [|done]. by intros t s ->.
  - by intros t s ->.
  - unfold on_console. cbn. by rewrite app_nil_r.
  - rewrite HI, Hva. done.
Qed.
End top.

(** ** An example: [%-4d|%s] with -7 and a string *)

Definition example_format : list piece :=
  [Dir [FLeft] (Width 4 []) NoPrec NoLen Sd; Lit (ch "|"); Dir [] NoWidth NoPrec NoLen Ss].
Definition example_strs : gmap Z (list Z) := {[ 100 := [ch "o"; ch "k"] ]}.
Definition example_mem : mem :=
  write_bytes 100 [ch "o"; ch "k"; 0]
    (write_bytes 1000 (concat (map show example_format) ++ [0]) (list_to_map (map (fun a => (a, 255)) (seqZ 10 8)))).
Definition example_text : list Z := map ch ["-"; "7"; " "; " "; "|"; "o"; "k"]%char.

Lemma example_strs_inv (P : Z -> list Z -> Prop) : P 100 [ch "o"; ch "k"] ->
  forall p l, example_strs !! p = Some l -> P p l.
Proof. intros H p l Hp. unfold example_strs in Hp. apply lookup_singleton_Some in Hp as [<- <-]. exact H. Qed.

Lemma example_printable :
  printable example_mem example_strs example_format [u64 (-7); 100] example_text [] 1000.
Proof.
  constructor.
  - vm_compute. repeat split.
  - apply example_strs_inv. vm_compute. repeat split.
  - repeat constructor; vm_compute; (done || intros E; discriminate E).
  - vm_compute. reflexivity.
  - reflexivity.
Qed.

Lemma example_target : target example_mem example_strs example_format example_text 1000 10 6.
Proof.
  constructor.
  - done.
  - split; vm_compute; (done || intros E; discriminate E).
  - intros a Ha. cbn in Ha. assert (a ∈ [10; 11; 12; 13; 14; 15]) as Hin.
    { rewrite !elem_of_cons. change (6 `min` (len example_text + 1)) with 6 in Ha. lia. }
    clear Ha. revert a Hin. apply Forall_forall. repeat constructor; eexists; vm_compute; reflexivity.
  - vm_compute. left. intros E. discriminate E.
  - apply example_strs_inv. vm_compute. left. intros E. discriminate E.
Qed.

Lemma snprintf_correct_witness :
  snprintf_ (fun _ _ => ret tt) 10 6 1000 [u64 (-7); 100]
    (PS example_mem [] [] (HL (Intr 0 0 0) SPINLOCK_INITIALIZER)) =
  Ok (7, PS (write_bytes 10 (map ch ["-"; "7"; " "; " "; "|"]%char ++ [0]) example_mem) [] []
           (HL (Intr 0 0 0) SPINLOCK_INITIALIZER)).
Proof.
  exact (proj1 (snprintf_correct (fun _ _ => ret tt) example_mem [] (HL (Intr 0 0 0) SPINLOCK_INITIALIZER)
    example_strs example_format [u64 (-7); 100] example_text [] 1000 10 6 example_printable example_target)).
Defined.

(** The lock of [printf_] taken and given back: interrupts are masked in
    between, and the status register and the depth are as before. *)
Lemma printf_lock_free hart i (Hi : 0 <= intr_depth i < 2 ^ 31 - 1) :
  let i1 := Intr (if intr_depth i =? 0 then and_not (sstatus i) SSTATUS_SIE else sstatus i)
              (if intr_depth i =? 0 then sstatus i else intr_state i) (intr_depth i + 1) in
  let i2 := Intr (sstatus i) (if intr_depth i =? 0 then sstatus i else intr_state i) (intr_depth i) in
  spinlock_acquire_bare hart (HL i SPINLOCK_INITIALIZER) = Ok (tt, HL i1 (Lock 1 hart)) /\
  spinlock_release_bare hart (HL i1 (Lock 1 hart)) = Ok (tt, HL i2 SPINLOCK_INITIALIZER).
Proof.
  destruct i as [ss st d]. cbn [intr_depth sstatus intr_state] in *. cbv zeta. split.
  - unfold spinlock_acquire_bare, on_intr, intr_off, lift, gets, get, bind, modify, ret, SPINLOCK_INITIALIZER. cbn.
    destruct (Z.eqb_spec d 0); cbn; by rewrite swrap_small by lia.
  - unfold spinlock_release_bare, on_intr, intr_on, lift, gets, get, bind, modify, ret. cbn.
    rewrite Z.eqb_refl. cbn. replace (d + 1 <=? 0) with false by (symmetry; apply Z.leb_gt; lia). cbn.
    rewrite swrap_small by lia. replace (d + 1 - 1) with d by lia. by destruct (Z.eqb_spec d 0).
Qed.

(** Printing to the console: the characters of the text go out in order
    and zeros are skipped, memory is unchanged, the lock is free again with the
    status register and the depth of the hart restored, and the result is the
    length of the text. *)
Theorem printf_correct fct local m con strs xs args text rest format hart i :
  printable m strs xs args text rest format -> local <> NULL -> 0 <= intr_depth i < 2 ^ 31 - 1 ->
  (exists i', sstatus i' = sstatus i /\ intr_depth i' = intr_depth i /\
    printf_ fct local hart format args (PS m con [] (HL i SPINLOCK_INITIALIZER)) =
    Ok (len text, PS m (con ++ nonzero text) rest (HL i' SPINLOCK_INITIALIZER))) /\
  (forall lk, vprintf_ fct local format (PS m con args lk) =
    Ok (len text, PS m (con ++ nonzero text) rest lk)).
Proof.
  intros Hp Hl Hi. destruct (printf_lock_free hart i Hi) as [Ha Hr]. split.
  - eexists (Intr _ _ _). split; [|split]; [reflexivity|reflexivity|].
    unfold printf_, set_va, bind at 1, modify. cbn [p_mem p_con p_lock].
    unfold on_lock at 1, bind at 1, lift at 1. cbn [p_lock]. rewrite Ha. cbn [p_mem p_con p_va].
    erewrite bind_run by (by eapply console_printed).
    unfold on_lock, bind, lift. cbn [p_lock]. rewrite Hr. done.
  - intros lk. by eapply console_printed.
Qed.

Lemma printf_correct_witness :
  exists i', sstatus i' = 2 /\ intr_depth i' = 0 /\
    printf_ (fun _ _ => ret tt) 4096 0 1000 [u64 (-7); 100]
      (PS example_mem [] [] (HL (Intr 2 0 0) SPINLOCK_INITIALIZER)) =
    Ok (7, PS example_mem example_text [] (HL i' SPINLOCK_INITIALIZER)).
Proof.
  refine (proj1 (printf_correct (fun _ _ => ret tt) 4096 example_mem [] example_strs example_format
    [u64 (-7); 100] example_text [] 1000 0 (Intr 2 0 0) example_printable _ _)); [done|cbn; lia].
Defined.

(** A client whose account [J] of its calls is kept by each call, and whose
    calls leave the format and the strings alone, is called on the text. *)
Lemma fctprintf_correct fct local m con strs xs args text rest format arg lk (J : list Z -> mem -> Prop) :
  printable m strs xs args text rest format -> local <> NULL -> J [] m ->
  (forall t c m, J t m -> c <> 0 -> exists m', fct c arg m = Ok (tt, m') /\ J (t ++ [c]) m') ->
  (forall t m', J t m' -> cstr m' format (concat (map show xs)) /\
     forall p l, strs !! p = Some l -> cstr m' p l) ->
  exists m', J (nonzero text) m' /\
    fctprintf fct local arg format args (PS m con [] lk) = Ok (len text, PS m' con rest lk).
Proof.
  intros [Hf Hs Hwf Hr Hl] Hb HJ Hfct Hkeep. pose proof (len_nonneg text).
  pose proof (client_sink fct con lk local (u64 (-1)) (len text) ltac:(lia) arg J Hfct) as Hsink.
  destruct (vsnprintf_run fct (OutFct arg) (OutFct arg) local (u64 (-1)) (by_client con lk J)
    ltac:(by rewrite (proj2 (Z.eqb_neq _ _) Hb)) strs xs text rest format (PS m con args lk))
    as (s' & [HJ' HI] & Hva & Hrun); [|done| |done|by split|done|].
  - intros p l Hp. destruct (Hs p l Hp). split; [|done]. intros t s [Ht _]. by apply (Hkeep _ _ Ht).
  - intros t s [Ht _]. exact (proj1 (Hkeep _ _ Ht)).
  - exists (p_mem s'). split; [done|]. unfold fctprintf, set_va, bind at 1, modify. cbn [p_mem p_con p_lock].
    rewrite Hrun, HI, Hva. done.
Qed.

(** ** What the examples show *)

(** Prints a format into 64 bytes at address 8; the characters that follow the
    format in memory are given, too. *)
Definition print_example (fmt after : list Ascii.ascii) (args : list Z) : option (list Z) :=
  let m := write_bytes 1000 (map ch fmt ++ [0] ++ map ch after ++ [0])
             (list_to_map (map (fun a => (a, 255)) (seqZ 8 64))) in
  match snprintf_ (fun _ _ => ret tt) 8 64 1000 args (PS m [] [] (HL (Intr 0 0 0) SPINLOCK_INITIALIZER)) with
  | Ok (n, s) => mapM (fun a => p_mem s !! a) (seqZ 8 n)
  | _ => None
  end.

(** A format that ends in [%]: the default case prints the terminator and steps
    over it, and what lies behind the format is taken for its continuation. *)
Example lone_percent_reads_on :
  print_example ["5"; "%"]%char ["A"; "B"]%char [] = Some [ch "5"; 0; ch "A"; ch "B"].
Proof. vm_compute. reflexivity. Qed.

(** [%hhd] of -1: the cast is to [char], which is unsigned on RISC-V. *)
Example hhd_prints_unsigned :
  print_example ["%"; "h"; "h"; "d"]%char [] [u64 (-1)] = Some (map ch ["2"; "5"; "5"]%char).
Proof. vm_compute. reflexivity. Qed.

(** [%-5.3d] of 7: the flag [-] turns off the zeros the precision asks for. *)
Example left_drops_precision :
  print_example ["%"; "-"; "5"; "."; "3"; "d"]%char [] [7] = Some (map ch ["7"; " "; " "; " "; " "]%char).
Proof. vm_compute. reflexivity. Qed.

(** [%lb] of 2^32: the conversion buffer has 32 places, the 33rd digit is lost. *)
Example binary_loses_digits :
  print_example ["%"; "l"; "b"]%char [] [2 ^ 32] = Some (repeat (ch "0") 32).
Proof. vm_compute. reflexivity. Qed.
