(* ===== verification/PrintfSafe.v ===== *)
(** Printing with a format that nobody checked: whatever the format, the
    memory and the arguments are, every loop ends, and what is written stays in
    the bounds of the output function.  A malformed format can only make the
    scanner read an address that is not mapped or an argument that was not
    passed. *)

From Stdlib Require Import Ascii.
From S2P Require Import Prelude Sync CString CStringProof Printf PrintfSpec PrintfProof PrintfTop.

(** ** Addresses that are left to scan *)

Definition ahead (D : gset Z) (p : Z) : nat := size (filter (fun a => p <= a) D).

Lemma ahead_mono D p q : p <= q -> (ahead D q <= ahead D p)%nat.
Proof. intros H. apply subseteq_size. intros a. rewrite !elem_of_filter. intros [? ?]. split; [lia|done]. Qed.

Lemma ahead_step D p : p ∈ D -> (ahead D (p + 1) < ahead D p)%nat.
Proof.
  intros H. apply subset_size. split.
  - intros a. rewrite !elem_of_filter. intros [? ?]. split; [lia|done].
  - intros Hs. specialize (Hs p). rewrite !elem_of_filter in Hs.
    destruct Hs as [? _]; [split; [lia|done]|lia].
Qed.

Lemma ahead_size (m : mem) p : (ahead (dom m) p < S (size m))%nat.
Proof.
  apply Nat.lt_succ_r. rewrite <- size_dom. apply subseteq_size. intros a. rewrite elem_of_filter. tauto.
Qed.

(** ** Safety of a computation *)

Definition word (i : Z) : Prop := 0 <= i < 2 ^ 64.
Definition half (i : Z) : Prop := 0 <= i < 2 ^ 32.

Section safe.
Context (R : pst -> pst -> Prop) `{!PreOrder R}.
Context (fct : Z -> Z -> ST mem unit) (f : out_fct_type) (buffer ml : Z).
Hypothesis R_dom : forall s s', R s s' -> dom (p_mem s') = dom (p_mem s).
Hypothesis R_va : forall s va, R s (sva va s).

(** The computation ends, in a result or in an invalid access, without
    panic, and every result is reached within [R]. *)
Definition safe {A} (m : ST pst A) (Q : A -> Prop) (s : pst) : Prop :=
  match m s with Ok (a, s') => R s s' /\ Q a | Fault => True | _ => False end.

Hypothesis R_out : forall c idx s, word idx -> safe (out fct f c buffer idx ml) (fun _ => True) s.

Lemma safe_bind {A B} (m : ST pst A) (k : A -> ST pst B) P Q s :
  safe m P s -> (forall a s', R s s' -> P a -> safe (k a) Q s') -> safe (bind m k) Q s.
Proof.
  unfold safe, bind. destruct (m s) as [[a s']| | |]; try done. intros [HR HP] Hk.
  specialize (Hk a s' HR HP). destruct (k a s') as [[b s'']| | |]; try done.
  destruct Hk as [HR' HQ]. split; [by transitivity s'|done].
Qed.

Lemma safe_ret {A} (a : A) (Q : A -> Prop) s : Q a -> safe (ret a) Q s.
Proof. intros H. by split. Qed.

Lemma safe_weaken {A} (m : ST pst A) (P Q : A -> Prop) s : safe m P s -> (forall a, P a -> Q a) -> safe m Q s.
Proof. unfold safe. destruct (m s) as [[a s']| | |]; naive_solver. Qed.

Lemma safe_eq {A} (m m' : ST pst A) (Q : A -> Prop) s : m s = m' s -> safe m' Q s -> safe m Q s.
Proof. unfold safe. by intros ->. Qed.

(** A successful load is from a mapped address and changes nothing. *)
Lemma safe_lds {B} p (k : Z -> ST pst B) Q s :
  (forall c, p ∈ dom (p_mem s) -> safe (k c) Q s) -> safe (bind (lds p) k) Q s.
Proof.
  intros Hk. unfold safe, bind, lds, on_mem, lift, ld, load.
  destruct (p_mem s !! p) as [c|] eqn:E; [|done]. cbn.
  replace (PS (p_mem s) (p_con s) (p_va s) (p_lock s)) with s by (by destruct s).
  apply Hk. by eapply elem_of_dom_2.
Qed.

Lemma safe_va_arg {B} (k : Z -> ST pst B) Q s :
  (forall a s', R s s' -> safe (k a) Q s') -> safe (bind va_arg k) Q s.
Proof.
  intros Hk. apply safe_bind with (fun _ => True); [|intros a s' HR _; by apply Hk].
  unfold safe, va_arg, gets, bind. destruct (p_va s) as [|a va]; [done|]. cbn. split; [apply (R_va s va)|done].
Qed.

Lemma safe_by_mem {A} (g : nat -> ST pst A) Q s :
  (forall n, (forall p, (ahead (dom (p_mem s)) p < n)%nat) -> safe (g n) Q s) -> safe (by_mem g) Q s.
Proof. intros Hg. apply (Hg (S (size (p_mem s)))). intros p. apply ahead_size. Qed.

Lemma safe_outs l : forall idx s, word idx -> safe (outs fct f buffer idx ml l) word s.
Proof.
  induction l as [|c l IH]; intros idx s Hi; cbn [outs]; [by apply safe_ret|].
  eapply safe_bind; [by apply R_out|]. intros [] s' _ _. apply IH. unfold word. apply wrap_range. lia.
Qed.

Lemma safe_spaces (b : bool) n idx s : word idx ->
  safe (if b then out_spaces fct f buffer idx ml n else ret idx) word s.
Proof. intros Hi. destruct b; [by apply safe_outs|by apply safe_ret]. Qed.

Lemma safe_out1 c idx s : word idx -> safe (out1 fct f c buffer idx ml) word s.
Proof. intros Hi. apply (safe_outs [c] idx s Hi). Qed.

(** ** The scanning loops *)

Lemma safe_strnlen fuel : forall p n s, (ahead (dom (p_mem s)) p < fuel)%nat ->
  safe (strnlen_s_loop fuel p n) (fun _ => True) s.
Proof.
  induction fuel as [|fuel IH]; intros p n s Hf; [lia|]. cbn [strnlen_s_loop]. apply safe_lds. intros c Hp.
  apply ahead_step in Hp. repeat case_match; try by apply safe_ret. apply IH. lia.
Qed.

Lemma safe_str_loop fl fuel : forall idx p prec s, word idx -> (ahead (dom (p_mem s)) p < fuel)%nat ->
  safe (str_loop fct fuel f buffer idx ml p prec fl) word s.
Proof.
  induction fuel as [|fuel IH]; intros idx p prec s Hi Hf; [lia|]. cbn [str_loop]. apply safe_lds. intros c Hp.
  apply ahead_step in Hp. destruct (_ && _); [|by apply safe_ret].
  eapply safe_bind; [by apply R_out|]. intros [] s' HR _. apply IH; [unfold word; apply wrap_range; lia|].
  rewrite (R_dom _ _ HR). lia.
Qed.

(** A number below 2^32 and a pointer that did not go back. *)
Definition scanned (p : Z) (r : Z * Z) : Prop := half (fst r) /\ p <= snd r.

Lemma safe_atoi_loop fuel : forall p q i s, half i -> q <= p -> (ahead (dom (p_mem s)) p < fuel)%nat ->
  safe (atoi_loop fuel p i) (scanned q) s.
Proof.
  induction fuel as [|fuel IH]; intros p q i s Hi Hq Hf; [lia|]. cbn [atoi_loop]. apply safe_lds. intros c Hp.
  apply ahead_step in Hp. destruct (_is_digit c); [|by apply safe_ret].
  apply IH; [unfold half; apply wrap_range; lia|lia|lia].
Qed.

Lemma safe_atoi p s : safe (_atoi p) (scanned p) s.
Proof. apply safe_by_mem. intros n Hn. apply safe_atoi_loop; [unfold half; lia|lia|apply Hn]. Qed.

Lemma safe_flags_loop fuel : forall p q fl s, q <= p -> (ahead (dom (p_mem s)) p < fuel)%nat ->
  has fl FLAGS_PRECISION = false ->
  safe (flags_loop fuel p fl) (fun r => q <= fst r /\ has (snd r) FLAGS_PRECISION = false) s.
Proof.
  induction fuel as [|fuel IH]; intros p q fl s Hq Hf Hfl; [lia|]. cbn [flags_loop]. apply safe_lds. intros c Hp.
  apply ahead_step in Hp. destruct (flag_of c) as [m|] eqn:E; [|by apply safe_ret].
  apply IH; [lia|lia|]. rewrite has_lor, Hfl. unfold flag_of in E. repeat case_match; simplify_eq; done.
Qed.

Lemma safe_eval_flags p s :
  safe (eval_flags p) (fun r => p <= fst r /\ has (snd r) FLAGS_PRECISION = false) s.
Proof. apply safe_by_mem. intros n Hn. apply safe_flags_loop; [lia|apply Hn|done]. Qed.

Lemma safe_eval_width p fl s : has fl FLAGS_PRECISION = false ->
  safe (eval_width p fl)
    (fun '(q, fl', w) => p <= q /\ has fl' FLAGS_PRECISION = false /\ half w) s.
Proof.
  intros Hfl. unfold eval_width. apply safe_lds. intros c _. case_match.
  - eapply safe_bind; [apply safe_atoi|]. intros [i q] s' _ [Hi Hq]. apply safe_ret. split_and!; done.
  - case_match; [|apply safe_ret; unfold half; split_and!; (done || lia)].
    apply safe_va_arg. intros a s' _. pose proof (s32_range a) as Hr. case_match; apply safe_ret;
      (split_and!; [lia| |apply wrap_range; lia]); [by rewrite has_lor, Hfl|done].
Qed.

Lemma safe_eval_precision p fl s : has fl FLAGS_PRECISION = false ->
  safe (eval_precision p fl)
    (fun '(q, fl', n) => p <= q /\ (has fl' FLAGS_PRECISION = false -> n = 0) /\ half n) s.
Proof.
  intros Hfl. unfold eval_precision. apply safe_lds. intros c _.
  case_match; [apply safe_ret; unfold half; split_and!; (done || lia)|].
  assert (has (Z.lor fl FLAGS_PRECISION) FLAGS_PRECISION = true) as Hon.
  { rewrite has_lor. by rewrite orb_true_r. }
  apply safe_lds. intros d _. case_match.
  - eapply safe_bind; [apply safe_atoi|]. intros [i q] s' _ [Hi Hq]. apply safe_ret. rewrite Hon. cbn in *.
    split_and!; [lia|done|done].
  - case_match; [|apply safe_ret; rewrite Hon; unfold half; split_and!; (done || lia)].
    apply safe_va_arg. intros a s' _. apply safe_ret. rewrite Hon. split_and!; [lia|done|].
    unfold half. case_match; [apply wrap_range; lia|lia].
Qed.

Lemma safe_eval_length p fl s n : (has fl FLAGS_PRECISION = false -> n = 0) ->
  safe (eval_length p fl) (fun '(q, fl') => p <= q /\ (has fl' FLAGS_PRECISION = false -> n = 0)) s.
Proof.
  intros Hfl. unfold eval_length.
  assert (forall x, has x FLAGS_PRECISION = false ->
    has (Z.lor fl x) FLAGS_PRECISION = false -> n = 0) as Hkeep.
  { intros x Hx. rewrite has_lor, Hx, orb_false_r. done. }
  apply safe_lds. intros c _. repeat (case_match; try (apply safe_lds; intros ? _)); apply safe_ret;
    (split; [lia|]); rewrite ?has_lor; cbn; rewrite ?orb_false_r; done.
Qed.

(** ** The conversions and the loop *)

Lemma safe_ntoa v neg base prec width fl idx s :
  2 <= base <= 16 -> 0 <= v -> half width -> word idx -> (has fl FLAGS_PRECISION = false -> prec = 0) ->
  safe (_ntoa_long fct f buffer idx ml v neg base prec width fl) word s.
Proof.
  intros Hb Hv Hw Hi Hp.
  set (o := Opts (has fl FLAGS_ZEROPAD) (has fl FLAGS_LEFT) (has fl FLAGS_PLUS) (has fl FLAGS_SPACE) (has fl FLAGS_HASH)
              (has fl FLAGS_UPPERCASE) (if has fl FLAGS_PRECISION then Some prec else None) width).
  assert (flags_ok fl o) as Hf by (constructor; cbn; try done; by destruct (has fl FLAGS_PRECISION)).
  assert (default 0 (o_prec o) = prec) as Ep.
  { cbn. destruct (has fl FLAGS_PRECISION); cbn; [done|]. symmetry. auto. }
  eapply safe_eq; [|by apply safe_outs].
  rewrite <- Ep. exact (ntoa_long_spec fct f buffer idx ml v neg base fl o s Hf Hw Hb Hv Hi).
Qed.

(** Clearing flags and setting others keeps what is known of the precision. *)
Lemma prec_and_not x m : has m FLAGS_PRECISION = false ->
  has (and_not x m) FLAGS_PRECISION = has x FLAGS_PRECISION.
Proof. unfold FLAGS_PRECISION. intros H. rewrite has_and_not, H by lia. apply andb_true_r. Qed.

Lemma int_flags_prec c fl : has (int_flags c fl) FLAGS_PRECISION = has fl FLAGS_PRECISION.
Proof.
  unfold int_flags. cbv zeta. rewrite has_ite, (prec_and_not _ FLAGS_ZEROPAD) by done.
  rewrite (has_ite (_ && _)), prec_and_not by done. rewrite !(has_ite (c =? _)), has_lor.
  rewrite (has_ite (int_base c =? 10)), prec_and_not by done.
  change (has FLAGS_UPPERCASE FLAGS_PRECISION) with false. rewrite orb_false_r. by repeat case_match.
Qed.

Lemma int_base_range c : 2 <= int_base c <= 16.
Proof. unfold int_base. repeat case_match; lia. Qed.

Lemma safe_conv_int c prec width fl idx s :
  half width -> word idx -> (has fl FLAGS_PRECISION = false -> prec = 0) ->
  safe (conv_int fct f buffer idx ml c prec width fl) word s.
Proof.
  intros Hw Hi Hp. unfold conv_int. rewrite <- int_flags_prec with (c := c) in Hp. apply safe_va_arg. intros a s' _.
  pose proof (int_base_range c) as Hb.
  repeat case_match; rewrite ?ntoa_long_long_eq; (apply safe_ntoa; [done|apply wrap_range; lia|done|done|done]).
Qed.

Lemma safe_conv_char width fl idx s : word idx -> safe (conv_char fct f buffer idx ml width fl) word s.
Proof.
  intros Hi. unfold conv_char. eapply safe_bind; [by apply safe_spaces|]. intros i s1 _ Hi1.
  apply safe_va_arg. intros a s2 _. eapply safe_bind; [by apply R_out|]. intros [] s3 _ _.
  apply safe_spaces. unfold word. apply wrap_range. lia.
Qed.

Lemma safe_conv_str prec width fl idx s : word idx -> safe (conv_str fct f buffer idx ml prec width fl) word s.
Proof.
  intros Hi. unfold conv_str. apply safe_va_arg. intros p s1 _.
  apply safe_bind with (fun _ => True).
  { unfold _strnlen_s. eapply safe_bind; [|intros; by apply safe_ret].
    apply safe_by_mem. intros n Hn. by apply safe_strnlen. }
  intros l s2 _ _. eapply safe_bind; [by apply safe_spaces|]. intros i s3 _ Hi3.
  eapply safe_bind; [|intros j s4 _ Hj; by apply safe_spaces].
  apply safe_by_mem. intros n Hn. by apply safe_str_loop.
Qed.

Lemma safe_specifier c prec width fl idx s :
  half width -> word idx -> (has fl FLAGS_PRECISION = false -> prec = 0) ->
  safe (eval_specifier fct f buffer idx ml c prec width fl) word s.
Proof.
  intros Hw Hi Hp. unfold eval_specifier. repeat case_match.
  - by apply safe_conv_int.
  - by apply safe_conv_char.
  - by apply safe_conv_str.
  - unfold conv_ptr. apply safe_va_arg. intros a s' _. rewrite ntoa_long_long_eq.
    apply safe_ntoa; [lia|apply wrap_range; lia|unfold half; lia|done|].
    rewrite has_lor. intros H'. apply orb_false_iff in H' as [H' _]. auto.
  - by apply safe_out1.
  - by apply safe_out1.
Qed.

Lemma safe_format_loop fuel : forall idx p s, word idx -> (ahead (dom (p_mem s)) p < fuel)%nat ->
  safe (format_loop fct fuel f buffer idx ml p) word s.
Proof.
  induction fuel as [|fuel IH]; intros idx p s Hi Hf; [lia|]. cbn [format_loop]. apply safe_lds. intros c Hp.
  apply ahead_step in Hp. case_match; [by apply safe_ret|]. case_match.
  - eapply safe_bind; [by apply safe_out1|]. intros i s' HR Hi'. apply IH; [done|]. rewrite (R_dom _ _ HR). lia.
  - eapply safe_bind; [apply safe_eval_flags|]. intros [p1 fl1] s1 HR1 [Hp1 Hf1]. cbn [fst snd] in *.
    eapply safe_bind; [by apply safe_eval_width|]. intros [[p2 fl2] w] s2 HR2 (Hp2 & Hf2 & Hw).
    eapply safe_bind; [by apply safe_eval_precision|]. intros [[p3 fl3] n] s3 HR3 (Hp3 & Hf3 & Hn).
    eapply safe_bind; [by apply (safe_eval_length _ _ _ n)|]. intros [p4 fl4] s4 HR4 [Hp4 Hf4].
    apply safe_lds. intros d _. eapply safe_bind; [by apply safe_specifier|]. intros i s5 HR5 Hi5.
    apply IH; [done|].
    rewrite (R_dom _ _ HR5), (R_dom _ _ HR4), (R_dom _ _ HR3), (R_dom _ _ HR2), (R_dom _ _ HR1).
    pose proof (ahead_mono (dom (p_mem s)) (p + 1) (p4 + 1) ltac:(lia)). lia.
Qed.

Lemma safe_vsnprintf f0 format s :
  f = (if buffer =? NULL then OutNull else f0) ->
  safe (_vsnprintf fct f0 buffer ml format) (fun _ => True) s.
Proof.
  intros Hfd. unfold _vsnprintf. rewrite <- Hfd. eapply safe_bind.
  - apply safe_by_mem. intros n Hn. apply safe_format_loop; [unfold word; lia|apply Hn].
  - intros i s' _ Hi. eapply safe_bind; [apply R_out|intros [] s'' _ _; by apply safe_ret].
    destruct (i <? ml); [exact Hi|unfold word; apply wrap_range; lia].
Qed.

End safe.

(** ** Buffers and the console *)

(** Nothing changed outside [n] bytes at [buffer], and the same addresses
    are mapped. *)
Definition only_in (buffer n : Z) (s s' : pst) : Prop :=
  (forall a, ~ (buffer <= a < buffer + n) -> p_mem s' !! a = p_mem s !! a) /\
  dom (p_mem s') = dom (p_mem s) /\ p_con s' = p_con s /\ p_lock s' = p_lock s.

#[global] Instance only_in_preorder buffer n : PreOrder (only_in buffer n).
Proof.
  split; [by intros s|]. intros s1 s2 s3 (H1 & H2 & H3 & H4) (K1 & K2 & K3 & K4).
  split_and!; [intros a Ha; by rewrite K1, H1|congruence..].
Qed.

Lemma only_in_va buffer n s va : only_in buffer n s (sva va s).
Proof. repeat split. Qed.

(** The console has received more; nothing else changed. *)
Definition console_only (s s' : pst) : Prop :=
  exists l, s' = PS (p_mem s) (p_con s ++ l) (p_va s') (p_lock s).

#[global] Instance console_only_preorder : PreOrder console_only.
Proof.
  split; [intros s; exists []; rewrite app_nil_r; by destruct s|].
  intros s1 s2 s3 [l1 ->] [l2 ->]. exists (l1 ++ l2). cbn. by rewrite app_assoc.
Qed.

Lemma buffer_out_safe fct f buffer count c idx s :
  f = OutBuffer \/ f = OutNull -> word idx ->
  safe (only_in buffer count) (out fct f c buffer idx count) (fun _ => True) s.
Proof.
  intros Hf Hi. unfold safe. destruct Hf as [-> | ->]; cbn [out].
  - unfold _out_buffer. destruct (Z.ltb_spec idx count); [|by split].
    unfold on_mem, lift, st, store. destruct (p_mem s !! (buffer + idx)) as [x|] eqn:E; [|done].
    split; [|done]. unfold only_in. cbn [p_mem p_con p_lock]. split_and!; [|  |done|done].
    + intros a Ha. apply lookup_insert_ne. unfold word in Hi. lia.
    + apply dom_insert_lookup_L. by exists x.
  - by split.
Qed.

Lemma console_out_safe fct f buffer ml c idx s :
  f = OutChar \/ f = OutNull -> safe console_only (out fct f c buffer idx ml) (fun _ => True) s.
Proof.
  unfold safe. intros [-> | ->]; cbn [out]; [|by split]. unfold _out_char.
  destruct (negb _); [|by split]. cbn. split; [by exists [c]|done].
Qed.

