(* ===== verification/Errno.v ===== *)
(** Error messages, [src/misc/errno.c] and the macro [errorf] of
    [misc/log.h], printed through [printf_]. *)

From Stdlib Require Import Ascii String.
From S2P Require Import Prelude Sync CString CStringProof Printf PrintfSpec PrintfTop PrintfMain.

(** ** The error numbers of the table that no other file uses *)

Definition EPERM : Z := 1.
Definition ESRCH : Z := 3.
Definition EINTR : Z := 4.
Definition EIO : Z := 5.
Definition ENXIO : Z := 6.
Definition E2BIG : Z := 7.
Definition ENOEXEC : Z := 8.
Definition ECHILD : Z := 10.
Definition EAGAIN : Z := 11.
Definition EFAULT : Z := 14.
Definition ENOTBLK : Z := 15.
Definition EBUSY : Z := 16.
Definition EXDEV : Z := 18.
Definition ENODEV : Z := 19.
Definition ENFILE : Z := 23.
Definition ENOTTY : Z := 25.
Definition ETXTBSY : Z := 26.
Definition EFBIG : Z := 27.
Definition ENOSPC : Z := 28.
Definition ESPIPE : Z := 29.
Definition EROFS : Z := 30.
Definition EMLINK : Z := 31.
Definition EPIPE : Z := 32.
Definition EDOM : Z := 33.
Definition EDEADLK : Z := 35.
Definition ENAMETOOLONG : Z := 36.
Definition ENOLCK : Z := 37.
Definition ENOTEMPTY : Z := 39.
Definition ELOOP : Z := 40.
Definition ENOMSG : Z := 42.
Definition EIDRM : Z := 43.

(** ** The table *)

(** A string constant is kept as the Rocq string; its address is given by
    [lit] below. *)
Record error_info := ErrorInfo { err_code : Z; err_name : string; err_desc : string }.

Definition error_table : list error_info := (
  [
    ErrorInfo OK "ERR_OK" "Success";
    ErrorInfo EPERM "ERR_EPERM" "Operation not permitted";
    ErrorInfo ENOENT "ERR_ENOENT" "No such file or directory";
    ErrorInfo ESRCH "ERR_ESRCH" "No such process";
    ErrorInfo EINTR "ERR_EINTR" "Interrupted system call";
    ErrorInfo EIO "ERR_EIO" "Input/output error";
    ErrorInfo ENXIO "ERR_ENXIO" "No such device or address";
    ErrorInfo E2BIG "ERR_E2BIG" "Argument list too long";
    ErrorInfo ENOEXEC "ERR_ENOEXEC" "Exec format error";
    ErrorInfo EBADF "ERR_EBADF" "Bad file descriptor";
    ErrorInfo ECHILD "ERR_ECHILD" "No child processes";
    ErrorInfo EAGAIN "ERR_EAGAIN" "Resource temporarily unavailable";
    ErrorInfo ENOMEM "ERR_ENOMEM" "Cannot allocate memory";
    ErrorInfo EACCES "ERR_EACCES" "Permission denied";
    ErrorInfo EFAULT "ERR_EFAULT" "Bad address";
    ErrorInfo ENOTBLK "ERR_ENOTBLK" "Block device required";
    ErrorInfo EBUSY "ERR_EBUSY" "Device or resource busy";
    ErrorInfo EEXIST "ERR_EEXIST" "File exists";
    ErrorInfo EXDEV "ERR_EXDEV" "Invalid cross-device link";
    ErrorInfo ENODEV "ERR_ENODEV" "No such device";
    ErrorInfo ENOTDIR "ERR_ENOTDIR" "Not a directory";
    ErrorInfo EISDIR "ERR_EISDIR" "Is a directory";
    ErrorInfo EINVAL "ERR_EINVAL" "Invalid argument";
    ErrorInfo ENFILE "ERR_ENFILE" "Too many open files in system";
    ErrorInfo EMFILE "ERR_EMFILE" "Too many open files";
    ErrorInfo ENOTTY "ERR_ENOTTY" "Inappropriate ioctl for device";
    ErrorInfo ETXTBSY "ERR_ETXTBSY" "Text file busy";
    ErrorInfo EFBIG "ERR_EFBIG" "File too large";
    ErrorInfo ENOSPC "ERR_ENOSPC" "No space left on device";
    ErrorInfo ESPIPE "ERR_ESPIPE" "Illegal seek";
    ErrorInfo EROFS "ERR_EROFS" "Read-only file system";
    ErrorInfo EMLINK "ERR_EMLINK" "Too many links";
    ErrorInfo EPIPE "ERR_EPIPE" "Broken pipe";
    ErrorInfo EDOM "ERR_EDOM" "Numerical argument out of domain";
    ErrorInfo ERANGE "ERR_ERANGE" "Numerical result out of range";
    ErrorInfo EDEADLK "ERR_EDEADLK" "Resource deadlock avoided";
    ErrorInfo ENAMETOOLONG "ERR_ENAMETOOLONG" "File name too long";
    ErrorInfo ENOLCK "ERR_ENOLCK" "No locks available";
    ErrorInfo ENOSYS "ERR_ENOSYS" "Function not implemented";
    ErrorInfo ENOTEMPTY "ERR_ENOTEMPTY" "Directory not empty";
    ErrorInfo ELOOP "ERR_ELOOP" "Too many levels of symbolic links";
    ErrorInfo ENOMSG "ERR_ENOMSG" "No message of desired type";
    ErrorInfo EIDRM "ERR_EIDRM" "Identifier removed"
  ])%string.

Fixpoint find_error (errnum : Z) (l : list error_info) : option error_info :=
  match l with
  | [] => None
  | e :: l => if err_code e =? errnum then Some e else find_error errnum l
  end.

(** [if (errnum < 0) errnum = -errnum], at the width of [int]. *)
Definition positive (errnum : Z) : Z := if errnum <? 0 then s32 (- errnum) else errnum.

Definition strerror (errnum : Z) : string :=
  match find_error (positive errnum) error_table with
  | Some e => err_desc e
  | None => "Unknown error"
  end.

Definition get_error_name (errnum : Z) : string :=
  match find_error (positive errnum) error_table with
  | Some e => err_name e
  | None => "ERR_UNKNOWN"
  end.

(** ** Printing *)

(** The bytes of a string constant. *)
Definition str (s : string) : list Z := map ch (list_ascii_of_string s).

Definition RED : Z := 31.

(** The format that [errorf] makes of its own with the color and the level
    around it. *)
Definition errorf_format (fmt : list Z) : list Z :=
  [27] ++ str "[%dm[%s]" ++ [9] ++ fmt ++ [27] ++ str "[0m" ++ [10].

Section print.
Context (fct : Z -> Z -> ST mem unit) (local : Z).

(** The address at which the compiler put a string constant. *)
Context (lit : list Z -> Z).

Definition errorf (hart : Z) (fmt : list Z) (args : list Z) : ST pst Z :=
  printf_ fct local hart (lit (errorf_format fmt)) (RED :: lit (str "ERROR") :: args).

Definition print_error (hart prefix errnum : Z) : ST pst unit :=
  if negb (prefix =? NULL) then
    do! errorf hart (str "%s: %s (%s)" ++ [10])
          [prefix; lit (str (strerror errnum)); lit (str (get_error_name errnum))] in ret tt
  else
    do! errorf hart (str "%s (%s)" ++ [10])
          [lit (str (strerror errnum)); lit (str (get_error_name errnum))] in ret tt.
End print.

(** ** The messages *)

Lemma find_error_spec errnum l e :
  find_error errnum l = Some e -> e ∈ l /\ err_code e = errnum.
Proof.
  induction l as [|x l IH]; cbn; [done|]. case_Z.
  - intros [= <-]. split; [apply elem_of_cons; by left|done].
  - intros H. apply IH in H as [H1 H2]. split; [apply elem_of_cons; by right|done].
Qed.

Lemma find_error_in l e : NoDup (err_code <$> l) -> e ∈ l -> find_error (err_code e) l = Some e.
Proof.
  induction l as [|x l IH]; [by intros _ ?%elem_of_nil|]. cbn [fmap list_fmap find_error].
  intros [Hx Hnd]%NoDup_cons [->|He]%elem_of_cons; [by rewrite Z.eqb_refl|].
  destruct (Z.eqb_spec (err_code x) (err_code e)) as [E|]; [|by apply IH].
  destruct Hx. rewrite E. by apply list_elem_of_fmap_2.
Qed.

Lemma error_codes_distinct : NoDup (err_code <$> error_table).
Proof. apply (bool_decide_eq_true_1 _). vm_compute. reflexivity. Qed.

(** Each entry is found under its code and under the negated code that the
    kernel returns; codes of other errors have no message. *)
Lemma strerror_spec :
  (forall e, e ∈ error_table ->
     strerror (err_code e) = err_desc e /\ strerror (- err_code e) = err_desc e /\
     get_error_name (err_code e) = err_name e /\ get_error_name (- err_code e) = err_name e) /\
  (forall errnum, - 2 ^ 31 < errnum < 2 ^ 31 -> Z.abs errnum ∉ err_code <$> error_table ->
     strerror errnum = "Unknown error"%string /\ get_error_name errnum = "ERR_UNKNOWN"%string).
Proof.
  assert (forall z, - 2 ^ 31 < z < 2 ^ 31 -> positive z = Z.abs z) as Hpos.
  { intros z Hz. unfold positive. case_Z; [rewrite swrap_small by lia|]; lia. }
  split.
  - intros e He. pose proof (find_error_in _ _ error_codes_distinct He) as Hf.
    assert (0 <= err_code e < 2 ^ 31) as Hr.
    { clear Hf. revert e He. apply Forall_forall. repeat constructor; vm_compute; (done || intros E; discriminate E). }
    unfold strerror, get_error_name. rewrite !Hpos, Z.abs_opp, Z.abs_eq, Hf by lia. done.
  - intros errnum Hr Hn. unfold strerror, get_error_name. rewrite Hpos by done.
    destruct (find_error _ _) as [e|] eqn:E; [|done]. apply find_error_spec in E as [E1 E2].
    destruct Hn. rewrite <- E2. by apply list_elem_of_fmap_2.
Qed.

(** [mappages] reports an address in use with a number the table lacks. *)
Example strerror_misses_EADDRINUSE : strerror (- EADDRINUSE) = "Unknown error"%string.
Proof. reflexivity. Qed.

(** ** What [print_error] prints *)

Definition text_of_error (prefix : option (list Z)) (errnum : Z) : list Z :=
  [27] ++ str "[31m[ERROR]" ++ [9] ++
  match prefix with Some p => p ++ str ": " | None => [] end ++
  str (strerror errnum) ++ str " (" ++ str (get_error_name errnum) ++ str ")" ++ [10; 27] ++ str "[0m" ++ [10].

(** The formats as pieces. *)
Definition lits (s : list Z) : list piece := map Lit s.
Definition dir (sp : pspec) : piece := Dir [] NoWidth NoPrec NoLen sp.
Definition error_pieces (fmt : list piece) : list piece :=
  lits [27; ch "["] ++ [dir Sd] ++ lits (str "m[") ++ [dir Ss] ++ lits [ch "]"; 9] ++ fmt ++
  lits ([27] ++ str "[0m" ++ [10]).
Definition prefix_pieces : list piece :=
  [dir Ss] ++ lits (str ": ") ++ [dir Ss] ++ lits (str " (") ++ [dir Ss] ++ lits (str ")" ++ [10]).
Definition plain_pieces : list piece := [dir Ss] ++ lits (str " (") ++ [dir Ss] ++ lits (str ")" ++ [10]).

(** A string conversion without flags takes the string over. *)
Lemma render_string strs a s args : strs !! a = Some s -> render_piece strs (dir Ss) (a :: args) = Some (s, args).
Proof.
  intros Hs. cbn. rewrite Hs. cbn. unfold flush. cbn. unfold spaces, len.
  replace (Z.to_nat (0 - Z.of_nat (length s))) with O by lia. cbn. by rewrite app_nil_r.
Qed.

Lemma render_lits strs l xs args : render strs (lits l ++ xs) args =
  '(t, args) ← render strs xs args; Some (l ++ t, args).
Proof.
  induction l as [|c l IH]; cbn [lits map app].
  - destruct (render strs xs args) as [[t a]|]; done.
  - cbn [render render_piece]. cbn. unfold lits in IH. rewrite IH. by destruct (render strs xs args) as [[t a]|].
Qed.

Lemma render_dir strs a s xs args : strs !! a = Some s ->
  render strs (dir Ss :: xs) (a :: args) = '(t, args) ← render strs xs args; Some (s ++ t, args).
Proof. intros Hs. cbn [render]. by rewrite (render_string _ _ _ _ Hs). Qed.

Lemma render_color strs xs args :
  render strs (dir Sd :: xs) (RED :: args) = '(t, args) ← render strs xs args; Some (str "31" ++ t, args).
Proof. reflexivity. Qed.

Lemma render_error strs xs args e level text rest :
  strs !! level = Some (str "ERROR") -> render strs (xs ++ lits e) args = Some (text, rest) ->
  render strs (lits [27; ch "["] ++ [dir Sd] ++ lits (str "m[") ++ [dir Ss] ++ lits [ch "]"; 9] ++ xs ++ lits e)
    (RED :: level :: args) = Some ([27] ++ str "[31m[ERROR]" ++ [9] ++ text, rest).
Proof.
  intros Hl Hr. rewrite render_lits. cbn [app]. rewrite render_color, render_lits.
  cbn [app]. rewrite (render_dir _ _ _ _ _ Hl), render_lits, Hr. reflexivity.
Qed.

(** [print_error] prints the message of the error, in red and under its
    level, with the prefix in front when there is one; the string constants and
    the prefix are in memory. *)
Theorem print_error_correct fct local lit m con va hart i (strs : gmap Z (list Z)) prefix errnum
    (pre : option (list Z)) :
  let fmt := match pre with Some _ => str "%s: %s (%s)" ++ [10] | None => str "%s (%s)" ++ [10] end in
  let text := text_of_error pre errnum in
  (forall p l, strs !! p = Some l -> cstr m p l /\ len l < 2 ^ 32) ->
  cstr m (lit (errorf_format fmt)) (errorf_format fmt) ->
  strs !! lit (str "ERROR") = Some (str "ERROR") ->
  strs !! lit (str (strerror errnum)) = Some (str (strerror errnum)) ->
  strs !! lit (str (get_error_name errnum)) = Some (str (get_error_name errnum)) ->
  match pre with Some p => prefix <> NULL /\ strs !! prefix = Some p | None => prefix = NULL end ->
  len text < 2 ^ 31 -> local <> NULL -> 0 <= intr_depth i < 2 ^ 31 - 1 ->
  exists i', sstatus i' = sstatus i /\ intr_depth i' = intr_depth i /\
    print_error fct local lit hart prefix errnum (PS m con va (HL i SPINLOCK_INITIALIZER)) =
    Ok (tt, PS m (con ++ text) [] (HL i' SPINLOCK_INITIALIZER)).
Proof.
  intros fmt text Hs Hf Hlev Hdesc Hname Hpre Hlen Hloc Hi.
  set (xs := error_pieces (match pre with Some _ => prefix_pieces | None => plain_pieces end)).
  set (tail := [lit (str (strerror errnum)); lit (str (get_error_name errnum))]).
  set (args := RED :: lit (str "ERROR") :: match pre with Some _ => prefix :: tail | None => tail end).
  assert (printable m strs xs args text [] (lit (errorf_format fmt))) as Hp.
  { constructor.
    - subst xs fmt. by destruct pre.
    - done.
    - subst xs. destruct pre; repeat constructor; vm_compute; (done || intros E; discriminate E).
    - subst xs text args tail. unfold error_pieces, text_of_error. destruct pre as [p|].
      + destruct Hpre as [_ Hpre]. erewrite render_error; [reflexivity|done|].
        unfold prefix_pieces. rewrite <- !app_assoc. cbn [app].
        rewrite (render_dir _ _ _ _ _ Hpre), render_lits. cbn [app].
        rewrite (render_dir _ _ _ _ _ Hdesc), render_lits. cbn [app].
        rewrite (render_dir _ _ _ _ _ Hname), render_lits, <- (app_nil_r (lits _)), render_lits.
        reflexivity.
      + erewrite render_error; [reflexivity|done|].
        unfold plain_pieces. rewrite <- !app_assoc. cbn [app].
        rewrite (render_dir _ _ _ _ _ Hdesc), render_lits. cbn [app].
        rewrite (render_dir _ _ _ _ _ Hname), render_lits, <- (app_nil_r (lits _)), render_lits.
        reflexivity.
    - done. }
  assert (nonzero text = text) as Hnz.
  { apply filter_all. apply Forall_forall.
    assert (forall p l, strs !! p = Some l -> Forall (fun c => c <> 0) l) as Hn0.
    { intros p l Hl. eapply Forall_impl; [eapply cstr_chars, (proj1 (Hs _ _ Hl))|]. cbn. lia. }
    subst text. unfold text_of_error. rewrite !Forall_app. split_and!.
    4: destruct pre as [p|]; [apply Forall_app; split; [exact (Hn0 _ _ (proj2 Hpre))|]|constructor].
    all: try exact (Hn0 _ _ Hdesc). all: try exact (Hn0 _ _ Hname).
    all: repeat constructor; vm_compute; discriminate. }
  destruct (printf_correct fct local m con strs xs args text [] (lit (errorf_format fmt)) hart i Hp Hloc Hi)
    as [(i' & E1 & E2 & Hrun) _].
  exists i'. split; [done|]. split; [done|]. rewrite Hnz in Hrun. unfold print_error, errorf.
  assert (forall s va', printf_ fct local hart (lit (errorf_format fmt)) args (PS m con va' s) =
    printf_ fct local hart (lit (errorf_format fmt)) args (PS m con [] s)) as Hva by done.
  subst args fmt tail. destruct pre as [p|].
  - destruct Hpre as [Hnn _]. rewrite (proj2 (Z.eqb_neq _ _) Hnn). cbn [negb]. cbv iota.
    erewrite bind_run; [|rewrite Hva; exact Hrun]. done.
  - rewrite Hpre. change (negb (NULL =? NULL)) with false. cbv iota. erewrite bind_run; [|rewrite Hva; exact Hrun]. done.
Qed.
