(* ===== verification/Atomic.v ===== *)
(** Atomic variables, [sync/atomic.h], and the loop of [alloc_pid]
    ([task/proc.c]) that relies on them, run by any number of harts.

    An atomic access is one step.  The variables are cells found by their
    address; the result of an addition that leaves the range of the signed type
    wraps, as the built-in functions define it. *)

From S2P Require Import Prelude.

Abbreviation cells := (gmap Z Z).

(** ** The built-in functions *)

Definition atomic_load (v : Z) : ST cells Z := load (fun m => m !! v).

Definition atomic_store (v x : Z) : ST cells unit :=
  store (fun m => match m !! v with Some _ => Some (<[v := x]> m) | None => None end).

Definition add_fetch (w i v : Z) : ST cells Z :=
  let! x := atomic_load v in do! atomic_store v (swrap w (x + i)) in ret (swrap w (x + i)).

Definition fetch_add (w i v : Z) : ST cells Z :=
  let! x := atomic_load v in do! atomic_store v (swrap w (x + i)) in ret x.

Definition exchange (v new_val : Z) : ST cells Z :=
  let! x := atomic_load v in do! atomic_store v new_val in ret x.

(** The value found is left in [old_val] when the exchange fails; when it
    succeeds they are equal. *)
Definition compare_exchange (v old_val new_val : Z) : ST cells Z :=
  let! x := atomic_load v in
  if x =? old_val then do! atomic_store v new_val in ret old_val else ret x.

(** ** [atomic_t] *)

Definition atomic_read (v : Z) : ST cells Z := atomic_load v.
Definition atomic_set (v i : Z) : ST cells unit := atomic_store v (s32 i).
Definition atomic_add_return (i v : Z) : ST cells Z := add_fetch 32 i v.
Definition atomic_sub_return (i v : Z) : ST cells Z := add_fetch 32 (- i) v.
Definition atomic_fetch_add (i v : Z) : ST cells Z := fetch_add 32 i v.
Definition atomic_inc (v : Z) : ST cells Z := atomic_add_return 1 v.
Definition atomic_dec (v : Z) : ST cells Z := atomic_sub_return 1 v.
Definition atomic_cmpxchg (v old_val new_val : Z) : ST cells Z := compare_exchange v old_val new_val.
Definition atomic_xchg (v new_val : Z) : ST cells Z := exchange v new_val.

(** ** [atomic64_t] *)

Definition atomic64_read (v : Z) : ST cells Z := atomic_load v.
Definition atomic64_set (v i : Z) : ST cells unit := atomic_store v (s64 i).
Definition atomic64_add_return (i v : Z) : ST cells Z := add_fetch 64 i v.
Definition atomic64_sub_return (i v : Z) : ST cells Z := add_fetch 64 (- i) v.
Definition atomic64_fetch_add (i v : Z) : ST cells Z := fetch_add 64 i v.
Definition atomic64_inc (v : Z) : ST cells Z := atomic64_add_return 1 v.
Definition atomic64_dec (v : Z) : ST cells Z := atomic64_sub_return 1 v.
Definition atomic64_cmpxchg (v old_val new_val : Z) : ST cells Z := compare_exchange v old_val new_val.
Definition atomic64_xchg (v new_val : Z) : ST cells Z := exchange v new_val.

(** ** Pointers, kept as [int64_t] *)

Definition atomic_ptr_read (v : Z) : ST cells Z := let! x := atomic64_read v in ret (u64 x).
Definition atomic_ptr_set (v p : Z) : ST cells unit := atomic64_set v (s64 p).
Definition atomic_ptr_xchg (v new_ptr : Z) : ST cells Z :=
  let! x := atomic64_xchg v (s64 new_ptr) in ret (u64 x).
Definition atomic_ptr_cmpxchg (v old_ptr new_ptr : Z) : ST cells Z :=
  let! x := atomic64_cmpxchg v (s64 old_ptr) (s64 new_ptr) in ret (u64 x).

(** ** [alloc_pid] on many harts *)

(** The address of [next_pid]. *)
Definition next_pid : Z := 0.

(** Where a hart is: about to read (before its first call, or when it has to
    try again), about to exchange the value it read, or returned with a pid. *)
Inductive pid_pc := Trying | Loaded (current : Z) | Returned (pid : Z).

(** One atomic access of a hart; a hart that has returned calls again. *)
Definition pid_step (p : pid_pc) : ST cells pid_pc :=
  match p with
  | Trying | Returned _ => let! current := atomic64_read next_pid in ret (Loaded current)
  | Loaded current =>
      if PID_MAX <? current
      then let! _ := atomic64_cmpxchg next_pid current PID_MIN in ret Trying
      else let! r := atomic64_cmpxchg next_pid current (current + 1) in
           ret (if r =? current then Returned current else Trying)
  end.

(** The harts, and the pids in the order in which calls returned them. *)
Record pids := Pids { pid_cells : cells; pid_pcs : list pid_pc; pid_log : list Z }.

Definition hart_step (h : nat) : ST pids unit :=
  let! p := load (fun s => pid_pcs s !! h) in
  let! q := lift pid_cells (fun c s => Pids c (pid_pcs s) (pid_log s)) (pid_step p) in
  modify (fun s => Pids (pid_cells s) (<[h := q]> (pid_pcs s))
    (match q with Returned i => pid_log s ++ [i] | _ => pid_log s end)).

(** The harts take steps in the order of a schedule. *)
Fixpoint run_harts (sched : list nat) : ST pids unit :=
  match sched with [] => ret tt | h :: sched => do! hart_step h in run_harts sched end.

Definition pids_boot (n : nat) : pids := Pids {[ next_pid := PID_MIN ]} (repeat Trying n) [].

(** ** What single operations do *)

Lemma compare_exchange_spec v old_val new_val c x :
  c !! v = Some x ->
  compare_exchange v old_val new_val c = Ok (x, if x =? old_val then <[v := new_val]> c else c).
Proof.
  intros Hx. unfold compare_exchange, atomic_load, atomic_store, load, store, bind. rewrite Hx.
  destruct (Z.eqb_spec x old_val) as [->|]; [by rewrite Hx|done].
Qed.

(** A pointer that is stored is read back. *)
Lemma atomic_ptr_roundtrip v p c :
  in_width 64 p -> is_Some (c !! v) ->
  (do! atomic_ptr_set v p in atomic_ptr_read v) c = Ok (p, <[v := s64 p]> c).
Proof.
  intros Hp [x Hx].
  assert (forall a, u64 (s64 a) = u64 a) as Hu.
  { intros a. unfold swrap. case_match; unfold wrap; [by rewrite Z.mod_mod by lia|].
    rewrite <- (Z_mod_plus_full _ 1). rewrite Z.mul_1_l, Z.sub_add. by rewrite Z.mod_mod by lia. }
  assert (s64 (s64 p) = s64 p) as Hs.
  { unfold swrap at 1. fold (u64 (s64 p)). by rewrite Hu. }
  unfold atomic_ptr_set, atomic_ptr_read, atomic64_set, atomic64_read, atomic_load, atomic_store, load, store, bind.
  rewrite Hx, lookup_insert_eq, Hs. unfold ret. by rewrite Hu, wrap_small.
Qed.

(** ** The invariant *)

(** The number of pids. *)
Definition pid_range : Z := PID_MAX - PID_MIN + 1.

(** The pid that the [k]-th call to return gets. *)
Definition pid_at (k : nat) : Z := PID_MIN + Z.of_nat k mod pid_range.

(** The steps a hart can take before it changes the counter or somebody
    else does. *)
Definition patience (counter : Z) (p : pid_pc) : nat :=
  match p with Trying | Returned _ => 1 | Loaded c => if c =? counter then 0 else 2 end.

Fixpoint total (counter : Z) (ps : list pid_pc) : nat :=
  match ps with [] => 0 | p :: ps => patience counter p + total counter ps end.

(** After [steps] steps of [n] harts that changed the counter [changes] times:
    [wraps] times back to the first pid, every other time by a call that
    returned. *)
Record pid_inv (n steps : nat) (s : pids) : Prop := {
  pi_harts : length (pid_pcs s) = n;
  pi_log : pid_log s = pid_at <$> seq 0 (length (pid_log s));
  pi_counter : exists (counter : Z) (wraps : nat),
    pid_cells s !! next_pid = Some counter /\
    PID_MIN <= counter <= PID_MAX + 1 /\
    Z.of_nat (length (pid_log s)) = counter - PID_MIN + Z.of_nat wraps * pid_range /\
    (steps + total counter (pid_pcs s) <= 2 * n + (2 * n + 1) * (length (pid_log s) + wraps))%nat }.

Lemma total_insert counter ps h p q :
  ps !! h = Some p -> (total counter (<[h := q]> ps) + patience counter p = total counter ps + patience counter q)%nat.
Proof.
  revert h. induction ps as [|x ps IH]; intros [|h] Hh; [discriminate Hh..| |].
  - injection Hh as ->. cbn. lia.
  - change (<[S h := q]> (x :: ps)) with (x :: <[h := q]> ps). cbn [total]. specialize (IH h Hh). lia.
Qed.

Lemma total_bound counter ps : (total counter ps <= 2 * length ps)%nat.
Proof.
  induction ps as [|p ps IH]; cbn [total length]; [lia|].
  assert (patience counter p <= 2)%nat by (destruct p; cbn [patience]; case_Z; lia). lia.
Qed.

(** A step that leaves the counter alone uses up patience. *)
Lemma quiet_step n steps s h p q :
  pid_inv n steps s -> pid_pcs s !! h = Some p ->
  (forall counter, pid_cells s !! next_pid = Some counter -> (S (patience counter q) <= patience counter p)%nat) ->
  pid_inv n (S steps) (Pids (pid_cells s) (<[h := q]> (pid_pcs s)) (pid_log s)).
Proof.
  intros [Hn Hlog (counter & wraps & Hc & Hr & Hw & Hst)] Hh Hq. constructor; cbn [pid_cells pid_pcs pid_log].
  - by rewrite length_insert.
  - done.
  - exists counter, wraps. split; [done|]. split; [done|]. split; [done|]. pose proof (total_insert counter _ h p q Hh). specialize (Hq _ Hc). lia.
Qed.

(** A step that changes the counter restores at most the patience of all. *)
Lemma change_bound n steps ps h q k k' counter counter' :
  (length ps = n)%nat -> (steps + total counter ps <= 2 * n + (2 * n + 1) * k)%nat -> k' = S k ->
  (S steps + total counter' (<[h := q]> ps) <= 2 * n + (2 * n + 1) * k')%nat.
Proof. intros Hn Hst ->. pose proof (total_bound counter' (<[h := q]> ps)). rewrite length_insert in *. nia. Qed.

Definition returned (p : pid_pc) : list Z := match p with Returned i => [i] | _ => [] end.

Lemma hart_step_run h s p q c' :
  pid_pcs s !! h = Some p -> pid_step p (pid_cells s) = Ok (q, c') ->
  hart_step h s = Ok (tt, Pids c' (<[h := q]> (pid_pcs s)) (pid_log s ++ returned q)).
Proof.
  intros Hp Hq. unfold hart_step, bind, load, lift. rewrite Hp, Hq. unfold modify. cbn.
  destruct q; cbn [returned]; by rewrite ?app_nil_r.
Qed.

(** A hart that does not succeed leaves the counter alone. *)
Lemma hart_step_quiet n steps s h p q :
  pid_inv n steps s -> pid_pcs s !! h = Some p -> pid_step p (pid_cells s) = Ok (q, pid_cells s) ->
  returned q = [] ->
  (forall counter, pid_cells s !! next_pid = Some counter -> (S (patience counter q) <= patience counter p)%nat) ->
  exists s', hart_step h s = Ok (tt, s') /\ pid_inv n (S steps) s'.
Proof.
  intros HI Hp Hq Hr Hpat. eexists. split; [by eapply hart_step_run|]. rewrite Hr, app_nil_r. by eapply quiet_step.
Qed.

(** The successful exchanges. *)
Lemma hart_step_wrap n steps s h c :
  pid_inv n steps s -> pid_pcs s !! h = Some (Loaded c) -> pid_cells s !! next_pid = Some c -> PID_MAX < c ->
  exists s', hart_step h s = Ok (tt, s') /\ pid_inv n (S steps) s'.
Proof.
  intros [Hn Hlog (counter & wraps & Hc & Hr & Hw & Hst)] Hp Hcc Hbig.
  assert (counter = c) as -> by congruence.
  eexists. split.
  { eapply hart_step_run; [exact Hp|]. cbn [pid_step]. rewrite (proj2 (Z.ltb_lt PID_MAX c) Hbig).
    erewrite bind_Ok; [reflexivity|]. unfold atomic64_cmpxchg. rewrite (compare_exchange_spec _ _ _ _ c) by done.
    rewrite Z.eqb_refl. reflexivity. }
  cbn [returned]. rewrite app_nil_r. constructor; cbn [pid_cells pid_pcs pid_log].
  - by rewrite length_insert.
  - done.
  - exists PID_MIN, (S wraps). split; [apply lookup_insert_eq|]. unfold pid_range, PID_MIN, PID_MAX in *.
    split; [lia|]. split; [lia|]. eapply change_bound; [exact Hn|exact Hst|lia].
Qed.

Lemma hart_step_take n steps s h c :
  pid_inv n steps s -> pid_pcs s !! h = Some (Loaded c) -> pid_cells s !! next_pid = Some c -> c <= PID_MAX ->
  exists s', hart_step h s = Ok (tt, s') /\ pid_inv n (S steps) s'.
Proof.
  intros [Hn Hlog (counter & wraps & Hc & Hr & Hw & Hst)] Hp Hcc Hsmall.
  assert (counter = c) as -> by congruence.
  eexists. split.
  { eapply hart_step_run; [exact Hp|]. cbn [pid_step]. rewrite (proj2 (Z.ltb_ge PID_MAX c) Hsmall).
    erewrite bind_Ok; [reflexivity|]. unfold atomic64_cmpxchg. rewrite (compare_exchange_spec _ _ _ _ c) by done.
    rewrite Z.eqb_refl. reflexivity. }
  rewrite Z.eqb_refl. cbn [returned]. constructor; cbn [pid_cells pid_pcs pid_log].
  - by rewrite length_insert.
  - rewrite length_app. cbn [length]. rewrite seq_app, fmap_app, <- Hlog. f_equal.
    change (pid_at <$> seq (0 + length (pid_log s)) 1) with [pid_at (length (pid_log s))]. f_equal. unfold pid_at. rewrite Hw. rewrite Z_mod_plus_full. rewrite Z.mod_small; [lia|]. unfold pid_range. lia.
  - exists (c + 1), wraps. split; [apply lookup_insert_eq|]. rewrite length_app. cbn [length].
    split; [lia|]. split; [lia|]. eapply change_bound; [exact Hn|exact Hst|lia].
Qed.

Lemma hart_step_inv n steps s h :
  pid_inv n steps s -> (h < n)%nat -> exists s', hart_step h s = Ok (tt, s') /\ pid_inv n (S steps) s'.
Proof.
  intros HI Hh. pose proof HI as [Hn _ (counter & _ & Hc & _)].
  destruct (lookup_lt_is_Some_2 (pid_pcs s) h) as [p Hp]; [by rewrite Hn|].
  assert (atomic64_read next_pid (pid_cells s) = Ok (counter, pid_cells s)) as Hread.
  { unfold atomic64_read, atomic_load, load. by rewrite Hc. }
  destruct p as [|c|i].
  - eapply hart_step_quiet; [done|done|cbn [pid_step]; by rewrite (bind_Ok _ _ _ _ _ Hread)|done|].
    intros c Hc'. simplify_eq. cbn. rewrite Z.eqb_refl. lia.
  - destruct (decide (c = counter)) as [->|Hne].
    + destruct (Z.le_gt_cases counter PID_MAX); [by eapply hart_step_take|eapply hart_step_wrap; [done|done|done|lia]].
    + assert (forall new, atomic64_cmpxchg next_pid c new (pid_cells s) = Ok (counter, pid_cells s)) as Hcas.
      { intros new. unfold atomic64_cmpxchg. rewrite (compare_exchange_spec _ _ _ _ counter) by done.
        by rewrite (proj2 (Z.eqb_neq counter c)) by congruence. }
      eapply (hart_step_quiet _ _ _ _ _ Trying); [done|done| |done|].
      * cbn [pid_step]. case_match; rewrite (bind_Ok _ _ _ _ _ (Hcas _)); [done|].
        by rewrite (proj2 (Z.eqb_neq counter c)) by congruence.
      * intros c' Hc'. assert (c' = counter) as -> by congruence. cbn.
        rewrite (proj2 (Z.eqb_neq c counter)) by done. lia.
  - eapply hart_step_quiet; [done|done|cbn [pid_step]; by rewrite (bind_Ok _ _ _ _ _ Hread)|done|].
    intros c Hc'. simplify_eq. cbn. rewrite Z.eqb_refl. lia.
Qed.

Lemma run_harts_inv n sched : forall steps s,
  pid_inv n steps s -> Forall (fun h => (h < n)%nat) sched ->
  exists s', run_harts sched s = Ok (tt, s') /\ pid_inv n (steps + length sched) s'.
Proof.
  induction sched as [|h sched IH]; intros steps s HI Hs; cbn [run_harts length].
  - exists s. by rewrite Nat.add_0_r.
  - apply Forall_cons in Hs as [Hh Hs]. destruct (hart_step_inv n steps s h HI Hh) as (s1 & H1 & HI1).
    destruct (IH (S steps) s1 HI1 Hs) as (s2 & H2 & HI2). exists s2.
    rewrite (bind_Ok _ _ _ _ _ H1). split; [done|]. by rewrite Nat.add_succ_r.
Qed.

Lemma pids_boot_inv n : pid_inv n 0 (pids_boot n).
Proof.
  assert (forall k, (total PID_MIN (repeat Trying k) = k)%nat) as Ht by (induction k as [|k IH]; cbn in *; lia).
  constructor; cbn [pids_boot pid_cells pid_pcs pid_log length].
  - apply repeat_length.
  - done.
  - exists PID_MIN, 0%nat. split; [apply lookup_insert_eq|]. rewrite Ht. unfold PID_MIN, PID_MAX. lia.
Qed.

(** Fewer than [pid_range] calls lie between two that get the same pid. *)
Lemma pid_at_inj i j : (i < j)%nat -> Z.of_nat j < Z.of_nat i + pid_range -> pid_at i <> pid_at j.
Proof.
  unfold pid_at, pid_range, PID_MAX, PID_MIN. intros H1 H2 E.
  pose proof (Z.div_mod (Z.of_nat i) (2147483647 - 2 + 1) ltac:(lia)).
  pose proof (Z.div_mod (Z.of_nat j) (2147483647 - 2 + 1) ltac:(lia)). nia.
Qed.


